(* ===== verification/_CoqProject ===== *)
-Q . S2P
Prelude.v
Floats.v
CoreTypes.v
ChunkState.v
Pressure.v
Tracker.v
Backend.v
Ram.v
Events.v
EventBus.v
IoScheduler.v
SimBackend.v
DiskFormat.v
Disk.v
Frame.v
Trace.v
TraceFile.v
Queue.v
Scheduler.v
Worker.v
Health.v
Backpressure.v
Policy.v
Hotness.v
Migration.v
Monitor.v
Dma.v
TransferPool.v
Invariants.v
Diagnostics.v
Orchestrator.v
Timing.v
Settings.v
Reconstruct.v
Replay.v
TraceInvariants.v
Checksum.v
ReplayProof.v
TraceMetrics.v
Export.v
Regions.v
LinuxSources.v
Ipc.v
LinuxSim.v
LinuxTiers.v
Recorder.v
Emitter.v
Sampling.v
LinuxPolicy.v
Scanner.v
Metrics.v
LinuxMetrics.v
Scoring.v
Explanation.v
Evaluator.v
Tournament.v
Workload.v
Bench.v
Cli.v
CliTools.v
