(* ===== verification/Prelude.v ===== *)
(** * GhostPages in Rocq

    GhostPages is a tiered chunk store for Linux: a daemon keeps chunks of
    memory in RAM, GPU memory, disk or a simulated tier, moves them between
    tiers under memory pressure, records what it did in traces that can be
    replayed, and talks to clients over a framed protocol.  This library models
    the crates that carry that logic ([src/crates/ghost-core], [ghost-tier],
    [ghost-compress], [ghost-policy], [ghost-daemon], [ghost-replay],
    [ghost-linux], [ghost-evaluator], [ghost-ipc], [ghost-metrics],
    [ghost-bench], [ghost-cli]) as executable functions and proves what makes
    them correct.

    ** How the parts interact

    A client or the migration engine submits a [TransferJob]; the queue orders
    jobs by urgency; the scheduler takes them off, holds back what pressure
    forbids and hands the rest to the workers; a worker moves the payload
    between two [StorageBackend]s and reports.  The disk backend issues its file
    operations through the I/O scheduler and stores compressed, hashed chunk
    files.  Every component emits events on a bus with sequence numbers and
    appends to a bounded trace log; trace files are the durable form of that log.
    Health and backpressure decide which tiers and transfers are admitted.
    The pressure monitor samples the system; the migration engine turns its
    samples, the hotness of chunks and a placement policy into migrations.

    The orchestrator owns these components and runs their tasks side by side;
    the IPC server turns the frames of a connection into its calls, and the
    command line is the client at the other end.

    Recorded traces are replayed: the state they describe is reconstructed,
    compared, checksummed and certified.  On Linux, the kernel's statistics
    feed an inventory of tiers and a rule-based policy whose recommendations
    are recorded, explained, scored offline and compared on benchmark workloads.

    ** Files

    - [Prelude]: outcomes ([Ok], [Err], [Panic]), the state-and-outcome monad [M]
      with its notations, invariants and weakest preconditions, machine
      integers, bytes and hexadecimal, ordered-map iteration, sums over maps,
      [max_by] and [min_by], tactics and the hint database [rust].
    - [Floats]: [f32] and [f64] over the Standard Library's [SpecFloat].
    - [CoreTypes]: chunk ids, tiers, metadata, errors and transfer jobs with
      their hand-written serde code ([types.rs], [error.rs], [transfer.rs]).
    - [ChunkState], [Pressure]: the chunk lifecycle and its tracker, pressure and
      physical cost ([state.rs]).
    - [Tracker]: the allocation tracker ([tracker.rs]) and its lock-free peak.
    - [Backend]: the [StorageBackend] trait as a class, what its documentation
      promises as the classes [BackendLaws] and [BackendBooks], and a client
      proved against them ([backend.rs]).
    - [Ram], [SimBackend]: two implementations and their proofs of both classes
      ([ram.rs]; [sim_backend.rs], [sim_config.rs], [sim_metrics.rs]).
    - [DiskFormat], [Disk]: chunk files, compression and the disk backend
      ([disk_persistence.rs], [engine.rs] of [ghost-compress]; [disk.rs],
      [disk_config.rs]).
    - [Events], [EventBus]: the event vocabulary, the emitter and the multiplexer
      ([events.rs], [io_events.rs], [emitter.rs], [event_multiplexer.rs]);
      [Emitter]: emissions as futures that share the counter and a channel on
      which senders wait in a queue.
    - [IoScheduler]: issue, complete and flush ([io_abstraction.rs]).
    - [Frame]: the IPC framing ([frame.rs]).
    - [Trace], [TraceFile]: trace events and the bounded log ([trace.rs],
      [trace_log.rs]); trace files ([format.rs], [writer.rs], [reader.rs]).
    - [Queue], [Scheduler], [Worker]: the path of a job ([queue.rs],
      [scheduler.rs], [worker.rs], [metrics.rs]).
    - [Health], [Backpressure]: admission ([health.rs], [backpressure.rs]).
    - [Policy]: the [PlacementPolicy] trait as a class with its laws, and the two
      policies ([ghost-policy]); [Hotness]: scores of chunks ([hotness.rs],
      [hotness_tracker.rs]); [Migration]: the migration engine
      ([migration.rs]); [Monitor]: the pressure monitor and the I/O metrics
      ([pressure.rs], [io_metrics.rs]).
    - [Orchestrator]: the daemon: the calls of clients, the handling of
      completions, migration under pressure, shutdown, and in [Run] the running
      daemon as a step relation over its tasks ([orchestrator.rs]);
      [Diagnostics]: its snapshot ([diagnostics.rs]); [Ipc]: the protocol, the
      handlers, the connection loop and the client ([protocol.rs], [client.rs],
      [ipc_server.rs], [main.rs]); [TransferPool]: the unfinished pool of
      transfer workers ([transfer_worker.rs]).
    - [Settings]: sections of the configuration file, the disk configuration
      builder, the time providers and the reports of the transfer counters
      ([config.rs], [disk_config.rs], [time.rs], [metrics.rs]).
    - [Dma], [Invariants], [Timing]: the DMA pipeline ([dma_pipeline.rs]), the
      invariant registry and state ownership ([invariant_registry.rs],
      [state_ownership.rs]), retries and the deterministic clock ([retry.rs],
      [time.rs]).
    - [Reconstruct], [Replay], [TraceInvariants], [Checksum], [ReplayProof],
      [TraceMetrics], [Export]: replay of traces ([ghost-replay]:
      [state_reconstructor.rs], [engine.rs], [invariants.rs], [checksum.rs] with
      [divergence.rs], [proof.rs] with [verifier.rs], [metrics.rs], [export.rs]).
    - [Regions]: temperatures, summaries and confidence of memory regions
      ([hotness_provider.rs], [hotness_summary.rs], [hotness_history.rs],
      [hotness_confidence.rs] of [ghost-core]).
    - [LinuxSources], [LinuxSim], [LinuxTiers], [LinuxPolicy]: the parsers of
      [/proc] and [/sys], the simulated readers, the tier inventory and the
      policy loop; [Recorder]: recordings of events and snapshots, their replay
      and comparison; [Sampling], [Scanner]: DAMON with its simulation and the page scanner; [LinuxMetrics]:
      the metrics these declare ([ghost-linux], [hotness_tracker.rs]).
    - [Metrics]: the metrics created and registered, and the event bridge
      ([ghost-metrics]).
    - [Scoring], [Explanation], [Evaluator], [Tournament]: scoring of
      recommendations, their explanations, adaptive temperatures, region
      lifecycles, stability of a stream, baseline policy, quality, tournaments
      and replay analysis ([ghost-evaluator]).
    - [Workload], [Bench]: benchmark workloads; comparisons, experiments,
      reports, leaderboards and the runner ([ghost-bench]).
    - [Cli], [CliTools]: the commands that ask the daemon, and those on traces,
      hotness, policies, evaluations and benchmarks as the lines they print
      ([ghost-cli]).

    ** What the theorems show

    - Lifecycle: a tracker call succeeds exactly on lifecycle edges, and along
      any interleaving of calls a chunk follows edges, is registered or is
      removed; until it is removed, eviction is final.
    - Storage: the RAM and simulated allocators keep exact accounts, hand out
      disjoint ranges and never panic within their counters; what is written is
      read back; chunk files survive the round trip, are replaced atomically
      whatever fails, and never yield data with the wrong hash; concurrent disk
      reservations never overcommit.  The simulated allocator keeps its books
      under simulated fragmentation too, for capacities below [2 ^ 53] bytes
      ([SimBackend.space_exact]): [Floats.FloatRound] shows that the rounded
      product does not enlarge the free space.  The disk backend's accounting
      errors are proved as such.
    - Input and output: every I/O request is pending or settled exactly once;
      frames and trace files round trip; readers are total on arbitrary bytes.
    - Jobs: the queue refines a pair of FIFO queues; no job is stranded while a
      worker sleeps; each job that a worker takes is settled and reported once;
      a transfer ends in one of three ways and leaves a bounded number of stray
      allocations behind, none when its first attempt succeeds; it panics only
      when a backoff delay overflows in a debug build.
    - Events: records reach handlers in emission order when emission is
      sequential, and a concrete interleaving shows that concurrent emission
      reorders; among concurrent emissions each succeeds once under a number of
      its own, and those that wait for room are served in the order they queued.
    - Admission: health is a function of the failure count and recovery needs
      consecutive successes; backpressure decides the strictest of its inputs.
    - Migration: an evaluation proposes exactly the admissible moves, the most
      urgent first; the DMA pipeline settles every transfer exactly once; the
      lock-free latency average is linearizable.
    - Replay: a trace recorded from the tracker is reconstructed to the
      tracker's state; the dry run accepts a trace exactly when its replay
      succeeds; the default validator is silent exactly on the traces that six
      declarative conditions call sound; equal checksums mean equal event hashes; a replay proof says
      equivalent exactly when the traces are; CSV exports read back.
    - Linux: kernel files are read back to the statistics they were written
      from; the inventory stays well formed; a policy cycle never fails and its
      recommendations are conflict-free, confident, sorted and bounded; cooldowns
      are exact.  That ZRAM is always taken for full is proved as such.
    - Daemon: along every interleaving of its tasks the daemon's state stays well
      formed; a call of a client has one of the outcomes its components allow
      and moves no other chunk; a migration whose job was refused or dropped is
      lost for good.  The frames of a connection are answered once and in order, up
      to one whose answer panics or has no serialization; a call through the
      client returns what the handler returned, as far as JSON carries it and
      the response is in time; that a late response is taken for the next
      answer, and that deletion and retrieval cannot succeed through the
      protocol, is proved as such.
    - Recording: a file of a recording is restored exactly, and a prefix of it
      whatever fault cut it short; the comparison of two recordings passes
      exactly when they are the same.
    - Sampling and metrics: the monitoring task, which shares its emitter with
      the rest of the daemon, reports every sample in order as long as the
      receiver is there; the
      event bridge counts what the bus accepted; the registries are created
      without name clashes.
    - Evaluation: the overall score is a number between 0 and 1 whatever the
      readings; the stability window counts distinct oscillating chunks;
      explanations are faithful to the scores they explain.
    - Benchmarks: the generated scenarios are well formed and within bounds; an
      experiment gives every value the same score, since comparisons ignore the
      weights; a report ranks every policy that
      ran by its score, and the leaderboard is read off the report.
    - Command line: identifiers as they are displayed are refused as arguments,
      and time stamps are shown with the wrong date; both are proved.

    ** Modelling conventions

    A method is a function of the receiver's state returning an outcome and the
    new state; what was written before an error or a panic stays written.
    [Build] distinguishes debug builds, in which integer overflow panics, from
    release builds, in which it wraps.  [usize] is 64 bits.  A call under a mutex
    is one step; where the source synchronises with atomics or wake-ups only,
    the accesses are separate steps of a relation ([Tracker.PeakCas],
    [SimBackend.Race], [Disk.Reserve], [EventBus.Concurrent], [Queue.Wait],
    [Monitor.LatencyCas], [Emitter], [Sampling.Monitor]).  The iteration order of a [HashMap] is a parameter.
    Clock readings are arguments.  Log output of the [tracing] crate is not
    modelled, and the text of panic messages is abbreviated.

    Code outside the repository is an interface with the documented behaviour
    that is relied on as its laws: [Blake3] (digest length), [ZstdLib] (round
    trip), [Rng] and [RangeRng] (range of a draw), [Libm] (the exponential),
    [Codec] (round trips of bincode, serde_json and the checksum), [IpcJson]
    (round trips of the messages), [RecordCodec] and [HexCrate] (round trips),
    [Prometheus] (which registrations succeed).
    Each has a concrete instance that the witnesses use.  The bounded channel of
    tokio is defined by its documentation: a queue of slots with [try_send] in
    [EventBus], where one sender acts at a time, and a fair semaphore of permits
    in [Emitter], where many do ([Emitter.try_emit_alone] relates the two).

    Loops are bounded by the data they consume, so no fuel is chosen by hand:
    retries by the configured maximum, trace readers by the record count of the
    header, past which [read_next] returns nothing
    ([TraceFile.read_all_enough_fuel]), queues by their length.

    ** Not modelled

    The binding of sockets, signals and the spawning of tasks as such (the
    tasks are steps of [Orchestrator.Run]); opening kernel and configuration
    files, whose contents are arguments; the argument parser derived for the
    command line, and its commands that scan the machine or watch it without
    end, which only print what [Scanner] and [LinuxPolicy] compute; the JSON
    texts of serde; the HTTP server of the metrics exporter and the text
    encoding of Prometheus; the bridge to the [tracing] crate, which forwards
    log records; the runtime-invariants variant of the daemon; the traits of
    [hardware.rs] that nothing implements; Vulkan and the [ghost-sim] crate,
    which are stubs; fuzz targets and benches. *)

From Stdlib Require Import ZArith Lia.
From Stdlib Require Strings.Byte.
From stdpp Require Import base gmap strings pretty sorting numbers list.

Open Scope Z_scope.

(** ** Outcomes of a Rust call

    A call either returns [Ok], returns an error value with [Err], or panics.
    Which arithmetic overflows panic depends on the build profile: a debug
    build checks [+], [-] and [*], a release build wraps. *)

Inductive outcome (E A : Type) : Type :=
  | Ok (a : A)
  | Err (e : E)
  | Panic (msg : string).
Arguments Ok {E A} a.
Arguments Err {E A} e.
Arguments Panic {E A} msg.

Inductive Build := Debug | Release.

Definition is_ok {E A} (o : outcome E A) : bool :=
  match o with Ok _ => true | _ => false end.

Definition is_panic {E A} (o : outcome E A) : bool :=
  match o with Panic _ => true | _ => false end.

Definition map_err {E F A} (f : E -> F) (o : outcome E A) : outcome F A :=
  match o with Ok a => Ok a | Err e => Err (f e) | Panic m => Panic m end.

(** [?] between outcomes. *)
Definition obind {E A B} (o : outcome E A) (k : A -> outcome E B) : outcome E B :=
  match o with Ok a => k a | Err e => Err e | Panic m => Panic m end.

Definition ok_or {E A} (e : E) (o : option A) : outcome E A :=
  match o with Some a => Ok a | None => Err e end.

(** ** Stateful calls: a state-and-outcome monad

    [M S E A] is a method with [&mut self] (or interior mutability) on a
    receiver of type [S].  Writes done before an early return or a panic
    stay done, as they do in the source. *)

Definition M (S E A : Type) : Type := S -> outcome E A * S.

Section monad.
Context {S E : Type}.

Definition ret {A} (a : A) : M S E A := fun s => (Ok a, s).
Definition throw {A} (e : E) : M S E A := fun s => (Err e, s).
Definition panic {A} (msg : string) : M S E A := fun s => (Panic msg, s).
Definition lift {A} (o : outcome E A) : M S E A := fun s => (o, s).
Definition gets {A} (f : S -> A) : M S E A := fun s => (Ok (f s), s).
Definition modify (f : S -> S) : M S E unit := fun s => (Ok tt, f s).

Definition bind {A B} (m : M S E A) (k : A -> M S E B) : M S E B := fun s =>
  match m s with
  | (Ok a, s') => k a s'
  | (Err e, s') => (Err e, s')
  | (Panic msg, s') => (Panic msg, s')
  end.
End monad.

Declare Scope rust_scope.
Delimit Scope rust_scope with rust.
Notation "x <- m ;; k" := (bind m (fun x => k))
  (at level 100, m at next level, right associativity) : rust_scope.
Notation "m ;;; k" := (bind m (fun _ => k))
  (at level 100, right associativity) : rust_scope.
Notation "'let?' x := o 'in' k" := (obind o (fun x => k))
  (at level 10, x name, o at level 100, k at level 200) : rust_scope.

(** A computation that succeeds has successful parts. *)
Lemma obind_ok {E A B} (o : outcome E A) (f : A -> outcome E B) y : obind o f = Ok y -> exists x, o = Ok x /\ f x = Ok y.
Proof. destruct o; [eauto|done..]. Qed.

(** A method preserves an invariant of its receiver when every outcome,
    errors and panics included, leaves the invariant in force. *)
Definition preserves {S E A} (I : S -> Prop) (m : M S E A) : Prop :=
  forall s, I s -> I (m s).2.

(** A method never panics on receivers satisfying the invariant. *)
Definition no_panic {S E A} (I : S -> Prop) (m : M S E A) : Prop :=
  forall s, I s -> is_panic (m s).1 = false.

Create HintDb rust.
Create Rewrite HintDb rust.

Section monad_facts.
Context {S E : Type} (I : S -> Prop).

Lemma preserves_ret {A} (a : A) : preserves I (ret (E := E) a).
Proof. intros s Hs. exact Hs. Qed.

Lemma preserves_throw {A} (e : E) : preserves I (throw (A := A) e).
Proof. intros s Hs. exact Hs. Qed.

Lemma preserves_lift {A} (o : outcome E A) : preserves I (lift o).
Proof. intros s Hs. exact Hs. Qed.

Lemma preserves_gets {A} (f : S -> A) : preserves I (gets (E := E) f).
Proof. intros s Hs. exact Hs. Qed.

Lemma preserves_bind {A B} (m : M S E A) (k : A -> M S E B) :
  preserves I m -> (forall a, preserves I (k a)) -> preserves I (bind m k).
Proof.
  intros Hm Hk s Hs. unfold bind. specialize (Hm s Hs).
  destruct (m s) as [[a|e|msg] s'] eqn:?; simpl in *; [by apply Hk|done..].
Qed.

Lemma bind_Ok {A B} (m : M S E A) (k : A -> M S E B) s a s' :
  m s = (Ok a, s') -> bind m k s = k a s'.
Proof. intros H. unfold bind. by rewrite H. Qed.

Lemma bind_Ok_inv {A B} (m : M S E A) (k : A -> M S E B) s b s'' :
  bind m k s = (Ok b, s'') ->
  exists a s', m s = (Ok a, s') /\ k a s' = (Ok b, s'').
Proof. unfold bind. destruct (m s) as [[a|e|msg] s']; naive_solver. Qed.
End monad_facts.

(** ** Weakest preconditions

    [wp m Q s]: running [m] on the receiver [s] ends in an outcome and a state
    satisfying [Q], which speaks of every way the call can end. *)

Definition wp {S E A} (m : M S E A) (Q : outcome E A -> S -> Prop) (s : S) : Prop :=
  Q (m s).1 (m s).2.

Definition on_ok {S E A B} (k : A -> S -> Prop) (Q : outcome E B -> S -> Prop)
    (o : outcome E A) (s : S) : Prop :=
  match o with Ok a => k a s | Err e => Q (Err e) s | Panic p => Q (Panic p) s end.

Section wp_rules.
Context {S E : Type}.

Lemma wp_mono {A} (m : M S E A) (P Q : outcome E A -> S -> Prop) s :
  wp m P s -> (forall o s', P o s' -> Q o s') -> wp m Q s.
Proof. unfold wp. auto. Qed.

Lemma wp_bind {A B} (m : M S E A) (k : A -> M S E B) Q s :
  wp m (on_ok (fun a => wp (k a) Q) Q) s -> wp (bind m k) Q s.
Proof. unfold wp, bind, on_ok. by destruct (m s) as [[a|e|p] s']. Qed.

Lemma wp_ret {A} (a : A) (Q : outcome E A -> S -> Prop) s : Q (Ok a) s -> wp (ret a) Q s.
Proof. done. Qed.

Lemma wp_throw {A} (e : E) (Q : outcome E A -> S -> Prop) s : Q (Err e) s -> wp (throw e) Q s.
Proof. done. Qed.

Lemma wp_gets {A} (f : S -> A) (Q : outcome E A -> S -> Prop) s :
  Q (Ok (f s)) s -> wp (gets f) Q s.
Proof. done. Qed.

Lemma wp_modify (f : S -> S) (Q : outcome E unit -> S -> Prop) s :
  Q (Ok tt) (f s) -> wp (modify f) Q s.
Proof. done. Qed.

Lemma wp_lift {A} (o : outcome E A) (Q : outcome E A -> S -> Prop) s : Q o s -> wp (lift o) Q s.
Proof. done. Qed.

Lemma wp_and {A} (m : M S E A) (P Q : outcome E A -> S -> Prop) s :
  wp m P s -> wp m Q s -> wp m (fun o s' => P o s' /\ Q o s') s.
Proof. by split. Qed.

Lemma wp_run {A} (m : M S E A) (Q : outcome E A -> S -> Prop) s o s' :
  wp m Q s -> m s = (o, s') -> Q o s'.
Proof. unfold wp. intros H1 H2. by rewrite H2 in H1. Qed.

(** Partial correctness: what a successful call establishes. *)
Lemma wp_ok {A} (m : M S E A) (Q : A -> S -> Prop) s a s' :
  wp m (fun o s' => match o with Ok a => Q a s' | _ => True end) s -> m s = (Ok a, s') -> Q a s'.
Proof. intros H1 H2. exact (wp_run _ _ _ _ _ H1 H2). Qed.
End wp_rules.

(** One step of a weakest-precondition goal. *)
Ltac wp_step :=
  lazymatch goal with
  | |- wp (bind _ _) _ _ => apply wp_bind
  | |- wp (ret _) _ _ => apply wp_ret
  | |- wp (throw _) _ _ => apply wp_throw
  | |- wp (gets _) _ _ => apply wp_gets
  | |- wp (modify _) _ _ => apply wp_modify
  | |- wp (lift _) _ _ => apply wp_lift
  end; cbv beta; unfold on_ok.

#[export] Hint Resolve preserves_ret preserves_throw preserves_lift
  preserves_gets preserves_bind : rust.

(** Invariants and well-formedness over any sequence of calls. *)
Definition run_calls {S E A} (calls : list (M S E A)) (s : S) : S :=
  fold_left (fun s c => (c s).2) calls s.

Lemma run_calls_preserves {S E A} (I : S -> Prop) (calls : list (M S E A)) s :
  Forall (preserves I) calls -> I s -> I (run_calls calls s).
Proof.
  intros Hc. revert s. induction Hc as [|c cs Hc _ IH]; intros s Hs; simpl; [done|].
  apply IH, Hc, Hs.
Qed.

(** ** Machine integers

    A [w]-bit unsigned integer is a [Z] in [0, 2^w).  [usize] is 64 bits
    wide (the crates target x86-64 and aarch64 Linux). *)

Definition in_u (w z : Z) : Prop := 0 <= z < 2 ^ w.
Definition in_ub (w z : Z) : bool := (0 <=? z) && (z <? 2 ^ w).
Definition wrap (w z : Z) : Z := z mod 2 ^ w.
Definition u64_max : Z := 2 ^ 64 - 1.
Definition u32_max : Z := 2 ^ 32 - 1.

(** [x + y], [x - y], [x * y] of the source at width [w]. *)
Definition arith {E} (b : Build) (w z : Z) : outcome E Z :=
  if in_ub w z then Ok z
  else match b with
       | Debug => Panic "attempt to compute with overflow"
       | Release => Ok (wrap w z)
       end.
Definition sat_add (w x y : Z) : Z := Z.min (x + y) (2 ^ w - 1).
Definition sat_mul (w x y : Z) : Z := Z.min (x * y) (2 ^ w - 1).
Definition sat_sub (x y : Z) : Z := Z.max 0 (x - y).

Lemma in_ub_spec w z : in_ub w z = true <-> in_u w z.
Proof. unfold in_ub, in_u. rewrite andb_true_iff. lia. Qed.

Lemma arith_in {E} b w z : in_u w z -> arith (E := E) b w z = Ok z.
Proof. intros H. unfold arith. by rewrite (proj2 (in_ub_spec w z) H). Qed.

Lemma wrap_in w z : in_u w z -> wrap w z = z.
Proof. intros H. unfold wrap. by apply Z.mod_small. Qed.

Lemma wrap_range w z : 0 <= w -> in_u w (wrap w z).
Proof. intros H. unfold wrap, in_u. apply Z.mod_pos_bound. by apply Z.pow_pos_nonneg. Qed.

Lemma wrap_add_sub w x y : wrap w (wrap w (x - y) + y) = wrap w x.
Proof. unfold wrap. rewrite Zplus_mod_idemp_l. f_equal. lia. Qed.

#[export] Hint Resolve arith_in wrap_in wrap_range : rust.

(** ** Bytes and integers in memory order *)

Abbreviation byte := Byte.byte.

#[global] Instance byte_eq_dec : EqDecision byte := Byte.byte_eq_dec.

Definition Z_of_byte (b : byte) : Z := Z.of_N (Byte.to_N b).
Definition byte_of_Z (z : Z) : byte :=
  default Byte.x00 (Byte.of_N (Z.to_N (z mod 256))).

Lemma Z_of_byte_range b : 0 <= Z_of_byte b < 256.
Proof. unfold Z_of_byte. pose proof (Byte.to_N_bounded b). lia. Qed.

Lemma byte_of_Z_of_byte b : byte_of_Z (Z_of_byte b) = b.
Proof. destruct b; reflexivity. Qed.

Lemma Z_of_byte_of_Z z : Z_of_byte (byte_of_Z z) = z mod 256.
Proof.
  unfold byte_of_Z, Z_of_byte.
  pose proof (Z.mod_pos_bound z 256 ltac:(lia)) as Hz.
  pose proof (Byte.to_of_N_option_map (Z.to_N (z mod 256))) as H.
  rewrite (proj2 (N.leb_le _ _)) in H by lia.
  destruct (Byte.of_N (Z.to_N (z mod 256))) as [b|]; simplify_eq/=. lia.
Qed.

Lemma Z_of_byte_inj b1 b2 : Z_of_byte b1 = Z_of_byte b2 -> b1 = b2.
Proof. intros H. by rewrite <- (byte_of_Z_of_byte b1), H, byte_of_Z_of_byte. Qed.

Definition byte_of_N (n : N) : byte := default Byte.x00 (Byte.of_N n).

Lemma byte_of_to_N b : byte_of_N (Byte.to_N b) = b.
Proof. unfold byte_of_N. by rewrite Byte.of_to_N. Qed.

#[global] Instance byte_countable : Countable byte :=
  inj_countable' Byte.to_N byte_of_N byte_of_to_N.

(** [to_le_bytes] of an [n]-byte integer and [from_le_bytes]; the big-endian
    pair is their reversal. *)
Fixpoint to_le_bytes (n : nat) (z : Z) : list byte :=
  match n with
  | O => []
  | S n => byte_of_Z z :: to_le_bytes n (z / 256)
  end.

Fixpoint from_le_bytes (l : list byte) : Z :=
  match l with
  | [] => 0
  | b :: l => Z_of_byte b + 256 * from_le_bytes l
  end.

Definition to_be_bytes (n : nat) (z : Z) : list byte := reverse (to_le_bytes n z).
Definition from_be_bytes (l : list byte) : Z := from_le_bytes (reverse l).

Lemma length_to_le_bytes n z : length (to_le_bytes n z) = n.
Proof. revert z. induction n as [|n IH]; intros z; simpl; [done|]. by rewrite IH. Qed.

Lemma length_to_be_bytes n z : length (to_be_bytes n z) = n.
Proof. unfold to_be_bytes. by rewrite length_reverse, length_to_le_bytes. Qed.

Lemma from_to_le_bytes n z : from_le_bytes (to_le_bytes n z) = z mod 256 ^ Z.of_nat n.
Proof.
  revert z. induction n as [|n IH]; intros z; simpl to_le_bytes; simpl from_le_bytes.
  - by rewrite Z.mod_1_r.
  - rewrite IH, Z_of_byte_of_Z, Nat2Z.inj_succ, Z.pow_succ_r by lia.
    rewrite Z.rem_mul_r by lia. lia.
Qed.

Lemma from_to_le_bytes_in n z :
  in_u (8 * Z.of_nat n) z -> from_le_bytes (to_le_bytes n z) = z.
Proof.
  intros H. rewrite from_to_le_bytes. apply Z.mod_small.
  replace (256 ^ Z.of_nat n) with (2 ^ (8 * Z.of_nat n)); [done|].
  by rewrite Z.pow_mul_r by lia.
Qed.

Lemma from_to_be_bytes_in n z :
  in_u (8 * Z.of_nat n) z -> from_be_bytes (to_be_bytes n z) = z.
Proof.
  intros H. unfold from_be_bytes, to_be_bytes.
  rewrite reverse_involutive. by apply from_to_le_bytes_in.
Qed.

Lemma from_le_bytes_range l :
  0 <= from_le_bytes l < 256 ^ Z.of_nat (length l).
Proof.
  induction l as [|b l IH]; simpl from_le_bytes; simpl length; [done|].
  rewrite Nat2Z.inj_succ, Z.pow_succ_r by lia.
  pose proof (Z_of_byte_range b). lia.
Qed.

#[export] Hint Rewrite length_to_le_bytes length_to_be_bytes : rust.

(** [hex::encode] (lower case). *)
Definition hex_digit (n : N) : Ascii.ascii :=
  if (n <? 10)%N then Ascii.ascii_of_N (48 + n) else Ascii.ascii_of_N (87 + n).

Fixpoint hex_encode (l : list byte) : string :=
  match l with
  | [] => EmptyString
  | b :: l => let n := Byte.to_N b in
      String.String (hex_digit (n / 16)) (String.String (hex_digit (n mod 16)) (hex_encode l))
  end.

Definition hex_value (c : Ascii.ascii) : N :=
  let n := Ascii.N_of_ascii c in if (n <? 58)%N then (n - 48)%N else (n - 87)%N.

Lemma hex_value_digit n : (n < 16)%N -> hex_value (hex_digit n) = n.
Proof.
  intros Hn. assert (n ∈ N.of_nat <$> seq 0 16) as Hin.
  { apply list_elem_of_fmap. exists (N.to_nat n). rewrite elem_of_seq. lia. }
  simpl in Hin. rewrite !elem_of_cons in Hin.
  repeat destruct Hin as [->|Hin]; try reflexivity. by apply not_elem_of_nil in Hin.
Qed.

#[global] Instance hex_encode_inj : Inj (=) (=) hex_encode.
Proof.
  intros l1. induction l1 as [|b1 l1 IH]; intros [|b2 l2]; simpl; try done.
  intros [= E1 E2 E3]. f_equal; [|by apply IH].
  pose proof (Byte.to_N_bounded b1). pose proof (Byte.to_N_bounded b2).
  apply (f_equal hex_value) in E1, E2.
  rewrite !hex_value_digit in E1, E2 by (apply N.Div0.div_lt_upper_bound || apply N.mod_lt; lia).
  rewrite <- (byte_of_to_N b1), <- (byte_of_to_N b2). f_equal.
  rewrite (N.div_mod (Byte.to_N b1) 16), (N.div_mod (Byte.to_N b2) 16) by done. congruence.
Qed.

Lemma length_hex_encode l : String.length (hex_encode l) = (2 * length l)%nat.
Proof. induction l as [|b l IH]; simpl; [done|]. rewrite IH. lia. Qed.

Lemma string_app_length (s t : string) :
  String.length (s +:+ t) = (String.length s + String.length t)%nat.
Proof. induction s as [|c s IH]; [done|]. simpl. by rewrite <- IH. Qed.

Lemma string_app_inj_r (s1 s2 t : string) : s1 +:+ t = s2 +:+ t -> s1 = s2.
Proof.
  revert s2. induction s1 as [|c s1 IH]; intros [|c2 s2] E; try done.
  - apply (f_equal String.length) in E. rewrite !string_app_length in E. simpl in E. lia.
  - apply (f_equal String.length) in E. rewrite !string_app_length in E. simpl in E. lia.
  - injection E as -> E. f_equal. by apply IH.
Qed.

(** The bytes of a string literal. *)
Fixpoint bytes_of_string (s : string) : list byte :=
  match s with
  | EmptyString => []
  | String.String c s => Ascii.byte_of_ascii c :: bytes_of_string s
  end.

(** ** Ordered maps

    A [BTreeMap] is a [gmap]; iteration visits the bindings in increasing key
    order. *)

Class KeyOrder (K : Type) := {
  key_le : relation K;
  key_le_dec :: RelDecision key_le;
  key_le_total :: Total key_le;
  key_le_trans :: Transitive key_le;
  key_le_antisymm :: AntiSymm (=) key_le;
}.

#[export] Instance Z_key_order : KeyOrder Z := {| key_le := Z.le |}.

(** Lexicographic order of byte arrays, the derived [Ord] of [[u8; 32]]. *)
Fixpoint bytes_leb (l1 l2 : list byte) : bool :=
  match l1, l2 with
  | [], _ => true
  | _ :: _, [] => false
  | b1 :: l1, b2 :: l2 =>
      match Z_of_byte b1 ?= Z_of_byte b2 with
      | Lt => true
      | Gt => false
      | Eq => bytes_leb l1 l2
      end
  end.

Definition bytes_le (l1 l2 : list byte) : Prop := bytes_leb l1 l2 = true.

#[export] Instance bytes_le_dec : RelDecision bytes_le.
Proof. intros l1 l2. unfold bytes_le. apply _. Defined.

#[export] Instance bytes_le_total : Total bytes_le.
Proof.
  unfold Total, bytes_le. intros l1.
  induction l1 as [|b1 l1 IH]; intros [|b2 l2]; simpl; auto.
  rewrite (Z.compare_antisym (Z_of_byte b1) (Z_of_byte b2)).
  destruct (Z_of_byte b1 ?= Z_of_byte b2); simpl; auto.
Qed.

#[export] Instance bytes_le_trans : Transitive bytes_le.
Proof.
  unfold Transitive, bytes_le. intros l1.
  induction l1 as [|b1 l1 IH]; intros [|b2 l2] [|b3 l3]; simpl; try done.
  destruct (Z.compare_spec (Z_of_byte b1) (Z_of_byte b2)) as [H1|H1|H1],
    (Z.compare_spec (Z_of_byte b2) (Z_of_byte b3)) as [H2|H2|H2]; try done;
  destruct (Z.compare_spec (Z_of_byte b1) (Z_of_byte b3)); try done; try lia. eauto.
Qed.

#[export] Instance bytes_le_antisymm : AntiSymm (=) bytes_le.
Proof.
  unfold AntiSymm, bytes_le. intros l1.
  induction l1 as [|b1 l1 IH]; intros [|b2 l2]; simpl; try done.
  rewrite (Z.compare_antisym (Z_of_byte b1) (Z_of_byte b2)).
  destruct (Z.compare_spec (Z_of_byte b1) (Z_of_byte b2)) as [H|H|H]; simpl; try done.
  intros ??. f_equal; [by apply Z_of_byte_inj|auto].
Qed.

#[export] Instance bytes_key_order : KeyOrder (list byte) := {| key_le := bytes_le |}.

Section btree.
Context {K V : Type} `{Countable K} `{KeyOrder K}.
Implicit Types (m : gmap K V).

Definition entry_le (p q : K * V) : Prop := key_le p.1 q.1.

#[global] Instance entry_le_dec : RelDecision entry_le.
Proof. intros p q. unfold entry_le. apply _. Defined.
#[global] Instance entry_le_total : Total entry_le.
Proof. intros p q. unfold entry_le. apply (total key_le). Qed.
#[global] Instance entry_le_trans : Transitive entry_le.
Proof. intros p q r. unfold entry_le. apply transitivity. Qed.

Definition btree_iter m : list (K * V) := merge_sort entry_le (map_to_list m).
Definition btree_keys m : list K := (btree_iter m).*1.
Definition btree_values m : list V := (btree_iter m).*2.

Lemma btree_iter_permutation m : btree_iter m ≡ₚ map_to_list m.
Proof. apply merge_sort_Permutation. Qed.

Lemma btree_iter_sorted m : StronglySorted entry_le (btree_iter m).
Proof. apply StronglySorted_merge_sort; apply _. Qed.

Lemma elem_of_btree_iter m k v : (k, v) ∈ btree_iter m <-> m !! k = Some v.
Proof. rewrite btree_iter_permutation. apply elem_of_map_to_list. Qed.

Lemma btree_iter_NoDup_keys m : NoDup (btree_keys m).
Proof.
  unfold btree_keys. rewrite btree_iter_permutation. apply NoDup_fst_map_to_list.
Qed.

Lemma length_btree_iter m : length (btree_iter m) = size m.
Proof. rewrite btree_iter_permutation. apply length_map_to_list. Qed.

Lemma elem_of_btree_keys m k : k ∈ btree_keys m <-> is_Some (m !! k).
Proof.
  unfold btree_keys. rewrite list_elem_of_fmap. split.
  - intros [[k' v] [-> Hin]]. simpl. exists v. by apply elem_of_btree_iter.
  - intros [v Hv]. exists (k, v). split; [done|]. by apply elem_of_btree_iter.
Qed.

(** [m.iter().filter(P).map(|(k, _)| k)]: the keys of the selected bindings,
    each once, in increasing order. *)
Definition btree_select (P : K * V -> Prop) `{!forall p, Decision (P p)} m : list K :=
  (filter P (btree_iter m)).*1.

Section select.
Context (P : K * V -> Prop) `{!forall p, Decision (P p)}.

Lemma elem_of_btree_select m k :
  k ∈ btree_select P m <-> exists v, m !! k = Some v /\ P (k, v).
Proof.
  unfold btree_select. rewrite list_elem_of_fmap. split.
  - intros [[k' v] [-> [HP Hin]%list_elem_of_filter]]. exists v.
    by rewrite <- elem_of_btree_iter.
  - intros (v & Hv & HP). exists (k, v). split; [done|].
    apply list_elem_of_filter. by rewrite elem_of_btree_iter.
Qed.

Lemma btree_select_NoDup m : NoDup (btree_select P m).
Proof.
  eapply sublist_NoDup; [apply (btree_iter_NoDup_keys m)|].
  apply fmap_sublist, sublist_filter.
Qed.

Lemma btree_select_sorted m : Sorted key_le (btree_select P m).
Proof.
  apply (Sorted_fmap _ entry_le); [done|]. apply StronglySorted_Sorted.
  pose proof (btree_iter_sorted m) as Hs. induction Hs as [|p l Hl IH Hp].
  - constructor.
  - rewrite filter_cons. case_decide; [|done]. constructor; [done|].
    rewrite Forall_forall in *. intros q [_ Hq]%list_elem_of_filter. auto.
Qed.
End select.

Lemma btree_iter_empty : btree_iter (∅ : gmap K V) = [].
Proof. unfold btree_iter. by rewrite map_to_list_empty. Qed.
End btree.

#[export] Hint Rewrite @elem_of_btree_iter @length_btree_iter : rust.

(** ** Sums over maps *)

Definition sum_map {K V} `{Countable K} (f : V -> Z) (m : gmap K V) : Z :=
  map_fold (fun _ v acc => f v + acc) 0 m.

Section sum_map.
Context {K V : Type} `{Countable K} (f : V -> Z).
Implicit Types (m : gmap K V).

Lemma sum_map_empty : sum_map f (∅ : gmap K V) = 0.
Proof. apply map_fold_empty. Qed.

Lemma sum_map_insert m k v :
  m !! k = None -> sum_map f (<[k:=v]> m) = f v + sum_map f m.
Proof. intros Hk. unfold sum_map. rewrite map_fold_insert_L; [done|lia|done]. Qed.

Lemma sum_map_delete m k v :
  m !! k = Some v -> sum_map f (delete k m) = sum_map f m - f v.
Proof.
  intros Hk. rewrite <- (insert_delete_id m k v) at 2 by done.
  rewrite sum_map_insert by apply lookup_delete_eq. lia.
Qed.

Lemma sum_map_update m k v v' :
  m !! k = Some v -> sum_map f (<[k:=v']> m) = sum_map f m - f v + f v'.
Proof.
  intros Hk. rewrite <- insert_delete_eq.
  rewrite sum_map_insert by apply lookup_delete_eq.
  rewrite (sum_map_delete m k v) by done. lia.
Qed.

Lemma sum_map_nonneg m : (forall k v, m !! k = Some v -> 0 <= f v) -> 0 <= sum_map f m.
Proof.
  induction m as [|k v m Hk IH] using map_ind; intros Hf.
  - by rewrite sum_map_empty.
  - rewrite sum_map_insert by done.
    pose proof (Hf k v ltac:(by rewrite lookup_insert_eq)).
    assert (0 <= sum_map f m); [|lia]. apply IH. intros k' v' Hk'.
    apply (Hf k'). rewrite lookup_insert_ne; [done|]. congruence.
Qed.

Lemma sum_map_ge m k v :
  (forall k v, m !! k = Some v -> 0 <= f v) -> m !! k = Some v -> f v <= sum_map f m.
Proof.
  intros Hf Hk. pose proof (sum_map_delete m k v Hk) as Hd.
  assert (0 <= sum_map f (delete k m)); [|lia].
  apply sum_map_nonneg. intros k' v' Hk'. apply lookup_delete_Some in Hk' as [_ ?]. eauto.
Qed.
End sum_map.

(** ** Choosing an extremal element, as [Iterator::max_by] and [min_by] do

    [max_by] keeps the later of two equal elements, [min_by] the earlier. *)

Section fold_pick.
Context {A : Type} (pick : A -> A -> A).
Context (pick_one : forall x y, pick x y = x \/ pick x y = y).

Lemma fold_pick_elem l x : fold_left pick l x ∈ x :: l.
Proof using pick_one.
  revert x. induction l as [|y l IH]; intros x; simpl; [by left|].
  specialize (IH (pick x y)).
  destruct (pick_one x y) as [Hp|Hp]; rewrite Hp in *;
    apply elem_of_cons in IH as [IH|IH]; rewrite ?IH, ?elem_of_cons; auto.
Qed.

(** If [pick] moves up a preorder [R] on the elements satisfying [P], the
    fold is an upper bound of the whole list. *)
Context (P : A -> Prop) (R : A -> A -> Prop).
Context (R_refl : forall x, P x -> R x x).
Context (R_trans : forall x y z, P x -> P y -> P z -> R x y -> R y z -> R x z).
Context (pick_l : forall x y, P x -> P y -> R x (pick x y)).
Context (pick_r : forall x y, P x -> P y -> R y (pick x y)).

Lemma fold_pick_P l x : P x -> Forall P l -> P (fold_left pick l x).
Proof using pick_one.
  intros Hx Hl. pose proof (fold_pick_elem l x) as Hin.
  assert (Forall P (x :: l)) as Hall by (by constructor).
  rewrite Forall_forall in Hall. by apply Hall.
Qed.

Lemma fold_pick_upper l x y :
  P x -> Forall P l -> y ∈ x :: l -> R y (fold_left pick l x).
Proof using All.
  revert x y. induction l as [|z l IH]; intros x y Hx Hl Hy; simpl.
  - apply list_elem_of_singleton in Hy as ->. by apply R_refl.
  - apply Forall_cons in Hl as [Hz Hl].
    assert (P (pick x z)) as Hpk by (destruct (pick_one x z) as [-> | ->]; done).
    assert (forall w, P w -> R w (pick x z) -> R w (fold_left pick l (pick x z))) as Hstep.
    { intros w Hw Hwp. apply (R_trans w (pick x z)); try done; [by apply fold_pick_P|].
      apply IH; [done..|by left]. }
    apply elem_of_cons in Hy as [->|Hy]; [by apply Hstep; auto|].
    apply elem_of_cons in Hy as [->|Hy]; [by apply Hstep; auto|].
    apply IH; [done..|by right].
Qed.
End fold_pick.

Section extremum.
Context {A : Type} (cmp : A -> A -> comparison).

Definition pick_max (x y : A) : A := match cmp x y with Gt => x | _ => y end.
Definition pick_min (x y : A) : A := match cmp x y with Gt => y | _ => x end.

Definition max_by (l : list A) : option A :=
  match l with [] => None | x :: l => Some (fold_left pick_max l x) end.
Definition min_by (l : list A) : option A :=
  match l with [] => None | x :: l => Some (fold_left pick_min l x) end.

Lemma pick_max_one x y : pick_max x y = x \/ pick_max x y = y.
Proof. unfold pick_max. destruct (cmp x y); auto. Qed.
Lemma pick_min_one x y : pick_min x y = x \/ pick_min x y = y.
Proof. unfold pick_min. destruct (cmp x y); auto. Qed.

Lemma max_by_elem l x : max_by l = Some x -> x ∈ l.
Proof.
  destruct l as [|y l]; simpl; [done|]. intros [= <-].
  apply fold_pick_elem, pick_max_one.
Qed.

Lemma min_by_elem l x : min_by l = Some x -> x ∈ l.
Proof.
  destruct l as [|y l]; simpl; [done|]. intros [= <-].
  apply fold_pick_elem, pick_min_one.
Qed.

Lemma max_by_None l : max_by l = None <-> l = [].
Proof. by destruct l. Qed.
Lemma min_by_None l : min_by l = None <-> l = [].
Proof. by destruct l. Qed.

(** Optimality, for comparisons that are a total preorder on the elements
    satisfying [P]. *)
Context (P : A -> Prop).
Context (cmp_antisym : forall x y, P x -> P y -> cmp y x = CompOpp (cmp x y)).
Context (cmp_trans : forall x y z, P x -> P y -> P z ->
  cmp x y <> Gt -> cmp y z <> Gt -> cmp x z <> Gt).

Lemma cmp_not_gt_refl x : P x -> cmp x x <> Gt.
Proof using cmp_antisym.
  intros Hx. pose proof (cmp_antisym x x Hx Hx) as E. by destruct (cmp x x).
Qed.

Lemma max_by_ge l x y :
  Forall P l -> max_by l = Some x -> y ∈ l -> cmp y x <> Gt.
Proof using All.
  destruct l as [|z l]; simpl; [done|]. intros [Hz Hl]%Forall_cons [= <-] Hy.
  apply (fold_pick_upper pick_max pick_max_one P (fun a b => cmp a b <> Gt));
    try done; try apply cmp_not_gt_refl; intros a b Ha Hb; unfold pick_max;
    pose proof (cmp_antisym a b Ha Hb); pose proof (cmp_not_gt_refl a Ha);
    pose proof (cmp_not_gt_refl b Hb); destruct (cmp a b) eqn:E; simpl in *; congruence.
Qed.

Lemma min_by_le l x y :
  Forall P l -> min_by l = Some x -> y ∈ l -> cmp x y <> Gt.
Proof using All.
  destruct l as [|z l]; simpl; [done|]. intros [Hz Hl]%Forall_cons [= <-] Hy.
  apply (fold_pick_upper pick_min pick_min_one P (fun a b => cmp b a <> Gt));
    try done; try apply cmp_not_gt_refl; [intros a b c ?????; by apply (cmp_trans c b a)| |];
    intros a b Ha Hb; unfold pick_min;
    pose proof (cmp_antisym a b Ha Hb); pose proof (cmp_not_gt_refl a Ha);
    pose proof (cmp_not_gt_refl b Hb); destruct (cmp a b) eqn:E; simpl in *; congruence.
Qed.
End extremum.

(** ** [slice::sort_by]

    A stable sort: an element stays in front of the later elements it does not
    exceed. *)

Section sort_by.
Context {A : Type} (cmp : A -> A -> comparison).

Fixpoint insert_by (x : A) (l : list A) : list A :=
  match l with
  | [] => [x]
  | y :: l' => match cmp x y with Gt => y :: insert_by x l' | _ => x :: y :: l' end
  end.

Definition sort_by (l : list A) : list A := foldr insert_by [] l.

Lemma insert_by_permutation x l : insert_by x l ≡ₚ x :: l.
Proof.
  induction l as [|y l IH]; simpl; [done|]. destruct (cmp x y); try done.
  rewrite IH. apply Permutation_swap.
Qed.

Lemma sort_by_permutation l : sort_by l ≡ₚ l.
Proof. induction l as [|x l IH]; simpl; [done|]. by rewrite insert_by_permutation, IH. Qed.

Context (P : A -> Prop).
Context (cmp_antisym : forall x y, P x -> P y -> cmp y x = CompOpp (cmp x y)).
Context (cmp_trans : forall x y z, P x -> P y -> P z ->
  cmp x y <> Gt -> cmp y z <> Gt -> cmp x z <> Gt).

Lemma insert_by_sorted x l :
  P x -> Forall P l -> StronglySorted (fun a b => cmp a b <> Gt) l ->
  StronglySorted (fun a b => cmp a b <> Gt) (insert_by x l).
Proof using All.
  intros Hx. induction l as [|y l IH]; intros Hl Hs; simpl; [by repeat constructor|].
  apply Forall_cons in Hl as [Hy Hl]. inversion Hs as [|? ? Hs' Hall]; subst.
  destruct (cmp x y) eqn:E.
  1,2: constructor; [done|]; constructor; [by rewrite E|];
    rewrite Forall_forall in *; intros z Hz; apply (cmp_trans x y z); auto; by rewrite E.
  constructor; [by apply IH|]. rewrite insert_by_permutation. constructor; [|done].
  by rewrite (cmp_antisym x y), E.
Qed.

Lemma sort_by_sorted l :
  Forall P l -> StronglySorted (fun a b => cmp a b <> Gt) (sort_by l).
Proof using All.
  induction 1 as [|x l Hx Hl IH]; simpl; [constructor|].
  apply insert_by_sorted; [done| |done]. by rewrite sort_by_permutation.
Qed.
End sort_by.

(** ** Tactics *)

(** Destruct the innermost scrutinee of the goal, keeping its equation. *)
Ltac case_goal :=
  match goal with
  | |- context [match ?x with _ => _ end] =>
      lazymatch x with context [match _ with _ => _ end] => fail | _ => destruct x eqn:? end
  end.

(** Turn boolean comparisons in the context into propositions. *)
Ltac bool_to_prop :=
  repeat match goal with
  | H : (_ && _)%bool = true |- _ => apply andb_true_iff in H as [? ?]
  | H : (_ || _)%bool = false |- _ => apply orb_false_iff in H as [? ?]
  | H : (_ <? _) = true |- _ => apply Z.ltb_lt in H
  | H : (_ <? _) = false |- _ => apply Z.ltb_ge in H
  | H : (_ <=? _) = true |- _ => apply Z.leb_le in H
  | H : (_ <=? _) = false |- _ => apply Z.leb_gt in H
  | H : (_ =? _) = true |- _ => apply Z.eqb_eq in H
  | H : (_ =? _) = false |- _ => apply Z.eqb_neq in H
  | H : bool_decide _ = true |- _ => apply bool_decide_eq_true in H
  | H : bool_decide _ = false |- _ => apply bool_decide_eq_false in H
  end.
