(* ===== verification/Floats.v ===== *)
(** * IEEE 754 arithmetic as the crates use it

    [f32] and [f64] are the Standard Library's executable specification of
    binary floating point ([SpecFloat]) at precisions 24 and 53, with rounding
    to nearest, ties to even.  Literals are correctly rounded quotients of
    integers, [as] casts round or saturate as Rust specifies, and [max], [min]
    and [clamp] follow the core library.  The facts that the components share
    are the comparison order on numbers that are not NaN, and that products of
    finite numbers are never NaN. *)

From Stdlib Require Import ZArith Lia SpecFloat.
From stdpp Require Import base list numbers strings pretty.
From S2P Require Import Prelude.

Abbreviation float := spec_float.

Definition is_nan (x : float) : bool := match x with S754_nan => true | _ => false end.
Definition is_finite (x : float) : bool :=
  match x with S754_zero _ | S754_finite _ _ _ => true | _ => false end.

(** Formats: [f32] has precision 24 and maximal exponent 128, [f64] 53 and 1024. *)
Record format := { prec : Z; emax : Z }.
Definition f32 : format := {| prec := 24; emax := 128 |}.
Definition f64 : format := {| prec := 53; emax := 1024 |}.

Section ops.
Context (F : format).

Definition fadd : float -> float -> float := SFadd (prec F) (emax F).
Definition fsub : float -> float -> float := SFsub (prec F) (emax F).
Definition fmul : float -> float -> float := SFmul (prec F) (emax F).
Definition fdiv : float -> float -> float := SFdiv (prec F) (emax F).

(** [n as f32] / [n as f64] of an integer. *)
Definition of_int (n : Z) : float := binary_normalize (prec F) (emax F) n 0 false.

(** The literal [a / b], correctly rounded. *)
Definition lit (a b : Z) : float := fdiv (of_int a) (of_int b).

(** [x as F] from the other format. *)
Definition cast (x : float) : float :=
  match x with
  | S754_finite s m e =>
      binary_normalize (prec F) (emax F) (if s then Z.neg m else Z.pos m) e s
  | _ => x
  end.

(** [powi], by repeated squaring; a negative exponent takes the reciprocal. *)
Fixpoint powi_pos (a : float) (n : positive) (r : float) : float :=
  match n with
  | xH => fmul r a
  | xO n => powi_pos (fmul a a) n r
  | xI n => powi_pos (fmul a a) n (fmul r a)
  end.
Definition powi (a : float) (n : Z) : float :=
  match n with
  | Z.pos p => powi_pos a p (of_int 1)
  | Z0 => of_int 1
  | Z.neg p => fdiv (of_int 1) (powi_pos a p (of_int 1))
  end.
End ops.

Definition flt (x y : float) : bool := SFltb x y.
Definition fgt (x y : float) : bool := flt y x.
Definition fle (x y : float) : bool := SFleb x y.
Definition fge (x y : float) : bool := fle y x.

(** [f32::max] and [f32::min] return the other argument on NaN. *)
Definition fmax (x y : float) : float :=
  if is_nan x then y else if is_nan y then x else if flt x y then y else x.
Definition fmin (x y : float) : float :=
  if is_nan x then y else if is_nan y then x else if flt y x then y else x.

(** [clamp] leaves NaN alone. *)
Definition fclamp (x lo hi : float) : float :=
  let x := if flt x lo then lo else x in
  if fgt x hi then hi else x.

(** [x as u64] truncates towards zero and saturates; NaN becomes 0. *)
Definition trunc (x : float) : Z :=
  match x with
  | S754_finite s m e =>
      let v := if 0 <=? e then Z.pos m * 2 ^ e else Z.pos m / 2 ^ (- e) in
      if s then - v else v
  | _ => 0
  end.
Definition as_u (w : Z) (x : float) : Z :=
  match x with
  | S754_infinity s => if s then 0 else 2 ^ w - 1
  | S754_nan => 0
  | _ => Z.max 0 (Z.min (trunc x) (2 ^ w - 1))
  end.

(** [f64::floor]. *)
Definition ffloor (F : format) (x : float) : float :=
  match x with
  | S754_finite false _ _ => of_int F (trunc x)
  | S754_finite true m e =>
      if 0 <=? e then x else of_int F (Z.neg m / 2 ^ (- e))
  | _ => x
  end.

(** The quotient of two integers, rounded to nearest, ties to even. *)
Definition div_even (a b : Z) : Z :=
  let q := a / b in
  match 2 * (a mod b) ?= b with
  | Lt => q
  | Gt => q + 1
  | Eq => if Z.even q then q else q + 1
  end.

(** The formatting [{:.d}]: the exact value rounded to [d] decimals. *)
Fixpoint pad_zeros (n : nat) (s : string) : string :=
  match n with O => s | S n => if (String.length s <=? n)%nat then String.append "0" (pad_zeros n s) else s end.

Definition fixed (d : nat) (x : float) : string :=
  let digits (s : bool) (v : Z) :=
    let scale := 10 ^ Z.of_nat d in
    String.append (if s then "-" else "") (String.append (pretty (v / scale))
      (match d with
       | O => ""
       | _ => String.append "." (pad_zeros d (pretty (v mod scale)))
       end)) in
  match x with
  | S754_nan => "NaN"
  | S754_infinity s => if s then "-inf" else "inf"
  | S754_zero s => digits s 0
  | S754_finite s m e =>
      digits s (div_even (Z.pos m * 2 ^ Z.max e 0 * 10 ^ Z.of_nat d) (2 ^ Z.max (- e) 0))
  end.

(** [partial_cmp(..).unwrap_or(Equal)]. *)
Definition fcmp (x y : float) : comparison := default Eq (SFcompare x y).

(** ** The order on numbers *)

Module FloatOrder.

(** Numbers compare as lexicographic triples: class, signed exponent, signed
    mantissa. *)
Definition key (x : float) : Z * Z * Z :=
  match x with
  | S754_infinity true => (-2, 0, 0)
  | S754_finite true m e => (-1, - e, - Z.pos m)
  | S754_zero _ | S754_nan => (0, 0, 0)
  | S754_finite false m e => (1, e, Z.pos m)
  | S754_infinity false => (2, 0, 0)
  end.

Definition lex (a b : Z * Z * Z) : comparison :=
  match a.1.1 ?= b.1.1 with
  | Eq => match a.1.2 ?= b.1.2 with Eq => a.2 ?= b.2 | c => c end
  | c => c
  end.

Lemma compare_key x y :
  is_nan x = false -> is_nan y = false -> SFcompare x y = Some (lex (key x) (key y)).
Proof.
  destruct x as [sx|[]| |[] mx ex], y as [sy|[]| |[] my ey]; try done; intros _ _;
    unfold lex, key; simpl; try done.
  rewrite Z.compare_opp, (Z.compare_antisym ex ey). by destruct (ex ?= ey).
Qed.

Lemma lex_antisym a b : lex b a = CompOpp (lex a b).
Proof.
  unfold lex. rewrite (Z.compare_antisym a.1.1), (Z.compare_antisym a.1.2),
    (Z.compare_antisym a.2).
  destruct (a.1.1 ?= b.1.1), (a.1.2 ?= b.1.2), (a.2 ?= b.2); done.
Qed.

Lemma lex_trans a b c : lex a b <> Gt -> lex b c <> Gt -> lex a c <> Gt.
Proof.
  unfold lex. destruct a as [[a1 a2] a3], b as [[b1 b2] b3], c as [[c1 c2] c3]. simpl.
  destruct (Z.compare_spec a1 b1), (Z.compare_spec b1 c1), (Z.compare_spec a1 c1);
    try lia; try done;
  destruct (Z.compare_spec a2 b2), (Z.compare_spec b2 c2), (Z.compare_spec a2 c2);
    try lia; try done;
  destruct (Z.compare_spec a3 b3), (Z.compare_spec b3 c3), (Z.compare_spec a3 c3);
    try lia; done.
Qed.

Lemma fcmp_key x y : is_nan x = false -> is_nan y = false -> fcmp x y = lex (key x) (key y).
Proof. intros Hx Hy. unfold fcmp. by rewrite compare_key. Qed.

Lemma fcmp_antisym x y :
  is_nan x = false -> is_nan y = false -> fcmp y x = CompOpp (fcmp x y).
Proof. intros Hx Hy. rewrite !fcmp_key by done. apply lex_antisym. Qed.

Lemma fcmp_trans x y z :
  is_nan x = false -> is_nan y = false -> is_nan z = false ->
  fcmp x y <> Gt -> fcmp y z <> Gt -> fcmp x z <> Gt.
Proof. intros Hx Hy Hz. rewrite !fcmp_key by done. apply lex_trans. Qed.

Lemma flt_key x y :
  is_nan x = false -> is_nan y = false ->
  flt x y = match lex (key x) (key y) with Lt => true | _ => false end.
Proof. intros Hx Hy. unfold flt, SFltb. by rewrite compare_key. Qed.

Lemma fle_key x y :
  is_nan x = false -> is_nan y = false ->
  fle x y = match lex (key x) (key y) with Gt => false | _ => true end.
Proof. intros Hx Hy. unfold fle, SFleb. rewrite compare_key by done. by destruct (lex _ _). Qed.

Lemma fcmp_fle x y : is_nan x = false -> is_nan y = false -> fcmp x y <> Gt -> fle x y = true.
Proof. intros Hx Hy. rewrite fcmp_key, fle_key by done. by destruct (lex _ _). Qed.

Lemma flt_fle x y :
  is_nan x = false -> is_nan y = false -> flt x y = negb (fle y x).
Proof.
  intros Hx Hy. rewrite flt_key, fle_key, (lex_antisym (key x)) by done.
  by destruct (lex (key x) (key y)).
Qed.

Lemma fle_trans x y z :
  is_nan x = false -> is_nan y = false -> is_nan z = false ->
  fle x y = true -> fle y z = true -> fle x z = true.
Proof.
  intros Hx Hy Hz. rewrite !fle_key by done.
  pose proof (lex_trans (key x) (key y) (key z)).
  destruct (lex (key x) (key y)), (lex (key y) (key z)), (lex (key x) (key z));
    naive_solver.
Qed.

Lemma flt_not_nan x y : flt x y = true -> is_nan x = false /\ is_nan y = false.
Proof. unfold flt, SFltb. by destruct x, y. Qed.

Lemma fle_not_nan x y : fle x y = true -> is_nan x = false /\ is_nan y = false.
Proof. unfold fle, SFleb. by destruct x, y. Qed.

(** Clamping a number puts it between the bounds. *)
Lemma fclamp_range x lo hi :
  is_nan x = false -> fle lo hi = true ->
  fle lo (fclamp x lo hi) = true /\ fle (fclamp x lo hi) hi = true.
Proof.
  intros Hx Hlh. pose proof (fle_not_nan _ _ Hlh) as [Hlo Hhi].
  assert (forall y, is_nan y = false -> fle y y = true) as Hrefl.
  { intros y Hy. pose proof (flt_fle y y Hy Hy) as E.
    destruct (fle y y) eqn:F; [done|]. exfalso.
    rewrite flt_key in E by done. pose proof (lex_antisym (key y) (key y)).
    by destruct (lex (key y) (key y)). }
  unfold fclamp, fgt. destruct (flt x lo) eqn:E1.
  - rewrite (flt_fle hi lo), Hlh by done. simpl. auto.
  - rewrite (flt_fle x lo) in E1 by done. apply negb_false_iff in E1.
    destruct (flt hi x) eqn:E2; [auto|].
    rewrite (flt_fle hi x) in E2 by done. apply negb_false_iff in E2. auto.
Qed.

Lemma fclamp_nan x lo hi : is_nan x = true -> fclamp x lo hi = x.
Proof. by destruct x, hi. Qed.

End FloatOrder.

(** ** Absence of NaN *)

Module FloatNaN.

Lemma shr_1_nonneg r : 0 <= shr_m r -> 0 <= shr_m (shr_1 r).
Proof. by destruct r as [[|[p|p|]|p] rr ss]. Qed.

Lemma iter_shr_nonneg p r : 0 <= shr_m r -> 0 <= shr_m (SpecFloat.iter_pos shr_1 p r).
Proof.
  revert r. induction p as [p IH|p IH|]; intros r Hr; simpl;
    auto using shr_1_nonneg.
Qed.

Lemma shr_fexp_nonneg pr em m e l : 0 <= m -> 0 <= shr_m (shr_fexp pr em m e l).1.
Proof.
  intros Hm. unfold shr_fexp, shr.
  assert (0 <= shr_m (shr_record_of_loc m l)) by (by destruct l as [|[]]).
  destruct (fexp _ _ _ - e); simpl; auto using iter_shr_nonneg.
Qed.

Lemma round_nonneg m l : 0 <= m -> 0 <= round_nearest_even m l.
Proof. destruct l as [|[]]; simpl; try case_match; lia. Qed.

Lemma binary_round_aux_nan pr em s m e l :
  0 <= m -> is_nan (binary_round_aux pr em s m e l) = false.
Proof.
  intros Hm. unfold binary_round_aux.
  destruct (shr_fexp pr em m e l) as [r1 e1] eqn:E1.
  assert (0 <= shr_m r1) as H1.
  { pose proof (shr_fexp_nonneg pr em m e l Hm) as H. by rewrite E1 in H. }
  destruct (shr_fexp pr em _ e1 loc_Exact) as [r2 e2] eqn:E2.
  assert (0 <= shr_m r2) as H2.
  { pose proof (shr_fexp_nonneg pr em _ e1 loc_Exact
      (round_nonneg _ (loc_of_shr_record r1) H1)) as H. by rewrite E2 in H. }
  destruct (shr_m r2); [done| |lia]. by case_match.
Qed.

Lemma binary_normalize_nan pr em m e s : is_nan (binary_normalize pr em m e s) = false.
Proof.
  destruct m as [|p|p]; simpl; [done|..]; unfold binary_round;
    destruct (shl_align _ _ _); apply binary_round_aux_nan; lia.
Qed.

Lemma of_int_nan F n : is_nan (of_int F n) = false.
Proof. apply binary_normalize_nan. Qed.

Lemma fmul_nan F x y :
  is_finite x = true -> is_finite y = true -> is_nan (fmul F x y) = false.
Proof.
  destruct x, y; try done; intros _ _; simpl; [done..|].
  apply binary_round_aux_nan. lia.
Qed.

Lemma fsub_nan F x y :
  is_finite x = true -> is_nan y = false -> is_nan (fsub F x y) = false.
Proof.
  destruct x, y; try done; intros _ _; simpl; try done; [by repeat case_match|].
  apply binary_normalize_nan.
Qed.

Lemma fadd_nan F x y :
  is_nan x = false -> is_finite y = true -> is_nan (fadd F x y) = false.
Proof.
  destruct x, y; try done; intros _ _; simpl; try done; [by repeat case_match|].
  apply binary_normalize_nan.
Qed.

Lemma fadd_nan_r F x y :
  is_finite x = true -> is_nan y = false -> is_nan (fadd F x y) = false.
Proof.
  destruct x, y; try done; intros _ _; simpl; try done; [by repeat case_match|].
  apply binary_normalize_nan.
Qed.

(** Finite and not a zero. *)
Definition nonzero (x : float) : bool := match x with S754_finite _ _ _ => true | _ => false end.

Lemma fmul_nonzero_nan F x y :
  nonzero x = true -> is_nan y = false -> is_nan (fmul F x y) = false.
Proof.
  destruct x, y; try done; intros _ _; simpl; try done. apply binary_round_aux_nan. lia.
Qed.

Lemma SFdiv_core_nonneg pr em m1 e1 m2 e2 :
  0 <= m1 -> 0 < m2 -> 0 <= (SFdiv_core_binary pr em m1 e1 m2 e2).1.1.
Proof.
  intros H1 H2. unfold SFdiv_core_binary.
  assert (forall m, 0 <= m -> 0 <= (Z.div_eucl m m2).1) as Hq.
  { intros m Hm. pose proof (Z.div_pos m m2 Hm H2) as H. unfold Z.div in H. by destruct (Z.div_eucl m m2). }
  match goal with |- context [Z.div_eucl ?m m2] => assert (0 <= m) as Hm end.
  { case_match; try lia. by apply Z.shiftl_nonneg. }
  specialize (Hq _ Hm). by destruct (Z.div_eucl _ m2).
Qed.

Lemma fdiv_nan F x y :
  is_nan x = false -> is_nan y = false -> nonzero x || nonzero y = true ->
  is_nan (fdiv F x y) = false.
Proof.
  destruct x as [| | |sx mx ex], y as [| | |sy my ey]; try done; intros _ _ _. unfold fdiv, SFdiv.
  destruct (SFdiv_core_binary _ _ _ _ _ _) as [[q e] l] eqn:E. apply binary_round_aux_nan.
  change (0 <= (q, e, l).1.1). rewrite <- E. apply SFdiv_core_nonneg; lia.
Qed.

(** A number clamped between finite bounds is finite. *)
Lemma fclamp_finite x lo hi :
  is_nan x = false -> is_finite lo = true -> is_finite hi = true ->
  is_finite (fclamp x lo hi) = true.
Proof.
  intros Hx Hlo Hhi. unfold fclamp, fgt.
  destruct (flt x lo) eqn:E1; [by case_match|].
  destruct (flt hi x) eqn:E2; [done|].
  destruct x as [|[]| |]; try done; destruct lo as [|[]| |[]], hi as [|[]| |[]]; done.
Qed.

End FloatNaN.

(** ** Numbers that are not negative *)

Module FloatSign.

Definition nonneg (x : float) : bool :=
  match x with
  | S754_zero _ | S754_infinity false | S754_finite false _ _ => true
  | _ => false
  end.

Definition positive_finite (x : float) : bool :=
  match x with S754_finite false _ _ => true | _ => false end.

Lemma nonneg_fle x : nonneg x = fle (S754_zero false) x.
Proof. by destruct x as [|[]| |[]]. Qed.

Lemma nonneg_number x : nonneg x = true -> is_nan x = false.
Proof. by destruct x. Qed.

Lemma binary_round_aux_nonneg pr em m e l :
  0 <= m -> nonneg (binary_round_aux pr em false m e l) = true.
Proof.
  intros Hm. unfold binary_round_aux. destruct (shr_fexp pr em m e l) as [r1 e1] eqn:E1.
  assert (0 <= shr_m r1) as H1.
  { pose proof (FloatNaN.shr_fexp_nonneg pr em m e l Hm) as H. by rewrite E1 in H. }
  destruct (shr_fexp pr em _ e1 loc_Exact) as [r2 e2] eqn:E2.
  assert (0 <= shr_m r2) as H2.
  { pose proof (FloatNaN.shr_fexp_nonneg pr em _ e1 loc_Exact
      (FloatNaN.round_nonneg _ (loc_of_shr_record r1) H1)) as H. by rewrite E2 in H. }
  destruct (shr_m r2); [done| |lia]. by case_match.
Qed.

Lemma fmul_nonneg F a x :
  positive_finite a = true -> nonneg x = true -> nonneg (fmul F a x) = true.
Proof.
  destruct a as [| | |[] m e]; try done. destruct x as [|[]| |[] m' e']; try done. intros _ _.
  apply binary_round_aux_nonneg. lia.
Qed.

Lemma fadd_nonneg F x y : nonneg x = true -> nonneg y = true -> nonneg (fadd F x y) = true.
Proof.
  destruct x as [s1|[]| |[] m e], y as [s2|[]| |[] m' e']; try done; intros _ _; simpl; try done.
  - by destruct s1, s2.
  - unfold binary_round. destruct (shl_align _ _ _). apply binary_round_aux_nonneg. lia.
Qed.

Lemma fmax_nonneg x y : nonneg x = true -> nonneg (fmax x y) = true.
Proof.
  intros Hx. unfold fmax. rewrite (nonneg_number x Hx). destruct (is_nan y) eqn:Hy; [done|].
  destruct (flt x y) eqn:E; [|done].
  destruct (FloatOrder.flt_not_nan _ _ E) as [Hnx Hny].
  rewrite nonneg_fle in *. eapply FloatOrder.fle_trans; [done|exact Hnx|done|done|].
  rewrite FloatOrder.fle_key by done. rewrite FloatOrder.flt_key in E by done.
  by destruct (FloatOrder.lex _ _).
Qed.

Lemma fle_refl x : is_nan x = false -> fle x x = true.
Proof.
  intros Hx. rewrite FloatOrder.fle_key by done.
  pose proof (FloatOrder.lex_antisym (FloatOrder.key x) (FloatOrder.key x)).
  by destruct (FloatOrder.lex _ _).
Qed.

Lemma flt_le x y : flt x y = true -> fle x y = true.
Proof.
  intros E. destruct (FloatOrder.flt_not_nan _ _ E). rewrite FloatOrder.fle_key by done.
  rewrite FloatOrder.flt_key in E by done. by destruct (FloatOrder.lex _ _).
Qed.

(** [max] with a number is an upper bound of the arguments that are numbers. *)
Lemma fmax_ge x y z :
  is_nan x = false -> is_nan z = false -> fle z x = true \/ fle z y = true -> fle z (fmax x y) = true.
Proof.
  intros Hx Hz Hor. unfold fmax. rewrite Hx. destruct (is_nan y) eqn:Hy.
  { destruct Hor as [|H]; [done|]. apply FloatOrder.fle_not_nan in H as []. congruence. }
  destruct (flt x y) eqn:E.
  - destruct Hor as [H|]; [|done]. eapply (FloatOrder.fle_trans z x y); auto using flt_le.
  - destruct Hor as [|H]; [done|]. rewrite FloatOrder.flt_fle in E by done. apply negb_false_iff in E.
    by eapply (FloatOrder.fle_trans z y x).
Qed.

Lemma fmax_number x y : is_nan x = false -> is_nan (fmax x y) = false.
Proof. intros Hx. unfold fmax. rewrite Hx. destruct (is_nan y) eqn:E; [done|]. by destruct (flt x y). Qed.

(** [min] with a number is a number and at most that number. *)
Lemma fmin_le x y : is_nan y = false -> fle (fmin x y) y = true.
Proof.
  intros Hy. pose proof (fle_refl y Hy). unfold fmin. destruct (is_nan x) eqn:Hx; [done|]. rewrite Hy. destruct (flt y x) eqn:E; [done|].
  rewrite FloatOrder.flt_fle in E by done. by apply negb_false_iff in E.
Qed.

End FloatSign.

(** ** Rounding never passes a representable number

    What a rounded operation yields stays below any representable number the
    exact result is below.  Values with exponents from [-K] on are compared as
    integers, scaled by [2 ^ K]. *)
Module FloatRound.

Lemma digits2_bounds n : 2 ^ (Z.pos (digits2_pos n) - 1) <= Z.pos n < 2 ^ Z.pos (digits2_pos n).
Proof.
  induction n as [n IH|n IH|]; cbn [digits2_pos]; [| |split; [reflexivity|done]];
    rewrite Pos2Z.inj_succ; replace (Z.succ (Z.pos (digits2_pos n)) - 1) with (Z.pos (digits2_pos n)) by lia;
    rewrite Z.pow_succ_r by lia;
    assert (2 ^ Z.pos (digits2_pos n) = 2 * 2 ^ (Z.pos (digits2_pos n) - 1)) by (rewrite <- Z.pow_succ_r by lia; f_equal; lia); lia.
Qed.

Lemma shr_1_spec r : 0 <= shr_m r ->
  shr_m (shr_1 r) = shr_m r / 2 /\
  (loc_of_shr_record (shr_1 r) = loc_Exact <-> shr_m r = 2 * shr_m (shr_1 r) /\ loc_of_shr_record r = loc_Exact).
Proof.
  destruct r as [[|[p|p|]|p] ra sa]; cbn [shr_m]; intros Hm; [| | | |by destruct Hm].
  - split; [reflexivity|]. destruct ra, sa; cbn; naive_solver.
  - split; [cbn; apply (Z.div_unique _ _ _ 1); lia|]. destruct ra, sa; cbn; split; intros H; destruct_and?; try discriminate.
  - split; [cbn; apply (Z.div_unique _ _ _ 0); lia|]. destruct ra, sa; cbn; split; intros H; destruct_and?; try discriminate; split; reflexivity.
  - split; [reflexivity|]. destruct ra, sa; cbn; split; intros H; destruct_and?; try discriminate.
Qed.

Lemma iter_shr_spec p : forall r, 0 <= shr_m r ->
  let r' := SpecFloat.iter_pos shr_1 p r in
  shr_m r' = shr_m r / 2 ^ Z.pos p /\
  (loc_of_shr_record r' = loc_Exact <-> shr_m r = shr_m r' * 2 ^ Z.pos p /\ loc_of_shr_record r = loc_Exact).
Proof.
  assert (forall a b c r r1 r2, 0 <= a -> 0 <= b -> c = a + b ->
    shr_m r1 = shr_m r / 2 ^ a /\ (loc_of_shr_record r1 = loc_Exact <-> shr_m r = shr_m r1 * 2 ^ a /\ loc_of_shr_record r = loc_Exact) ->
    shr_m r2 = shr_m r1 / 2 ^ b /\ (loc_of_shr_record r2 = loc_Exact <-> shr_m r1 = shr_m r2 * 2 ^ b /\ loc_of_shr_record r1 = loc_Exact) ->
    shr_m r2 = shr_m r / 2 ^ c /\ (loc_of_shr_record r2 = loc_Exact <-> shr_m r = shr_m r2 * 2 ^ c /\ loc_of_shr_record r = loc_Exact)) as Hc.
  { intros a b c r r1 r2 Ha Hb -> [E1 H1] [E2 H2]. rewrite Z.pow_add_r by done.
    pose proof (Z.pow_pos_nonneg 2 a) as Pa. pose proof (Z.pow_pos_nonneg 2 b) as Pb.
    split; [by rewrite E2, E1, Z.div_div by lia|]. rewrite H2, H1. split.
    - intros (E3 & E4 & HE). split; [rewrite E4, E3; lia|done].
    - intros [E3 HE]. assert (shr_m r1 = shr_m r2 * 2 ^ b) as E4; [|split_and!; [done| |done]].
      + rewrite E1, E3. replace (shr_m r2 * (2 ^ a * 2 ^ b)) with ((shr_m r2 * 2 ^ b) * 2 ^ a) by lia. apply Z.div_mul. lia.
      + rewrite E4, E3. lia. }
  assert (forall r, 0 <= shr_m r -> shr_m (shr_1 r) = shr_m r / 2 ^ 1 /\
    (loc_of_shr_record (shr_1 r) = loc_Exact <-> shr_m r = shr_m (shr_1 r) * 2 ^ 1 /\ loc_of_shr_record r = loc_Exact)) as H1.
  { intros r Hr. destruct (shr_1_spec r Hr) as [E H]. split; [exact E|]. rewrite H. by rewrite (Z.mul_comm _ (2 ^ 1)). }
  induction p as [p IH|p IH|]; intros r Hr; cbn [SpecFloat.iter_pos]; cbv zeta in *.
  - assert (0 <= shr_m (shr_1 r)) as Hr1 by (by apply FloatNaN.shr_1_nonneg).
    assert (0 <= shr_m (SpecFloat.iter_pos shr_1 p (shr_1 r))) as Hr2 by (by apply FloatNaN.iter_shr_nonneg).
    apply (Hc (1 + Z.pos p) (Z.pos p) _ r (SpecFloat.iter_pos shr_1 p (shr_1 r))); [lia|lia|lia| |by apply IH].
    apply (Hc 1 (Z.pos p) _ r (shr_1 r)); [lia|lia|lia|by apply H1|by apply IH].
  - assert (0 <= shr_m (SpecFloat.iter_pos shr_1 p r)) as Hr2 by (by apply FloatNaN.iter_shr_nonneg).
    apply (Hc (Z.pos p) (Z.pos p) _ r (SpecFloat.iter_pos shr_1 p r)); [lia|lia|lia|by apply IH|by apply IH].
  - by apply H1.
Qed.

Lemma iter_xO m d : Z.pos (Pos.iter xO m d) = 2 ^ Z.pos d * Z.pos m.
Proof.
  induction d as [|d IH] using Pos.peano_ind; [reflexivity|].
  rewrite Pos.iter_succ, Pos2Z.inj_xO, IH, Pos2Z.inj_succ, Z.pow_succ_r by lia. lia.
Qed.

(** Rounding after a shift: less than one unit above the exact value. *)
Lemma shift_round M e n : 0 <= M ->
  let '(r, e1) := shr (Build_shr_record M false false) e n in
  let m1 := round_nearest_even (shr_m r) (loc_of_shr_record r) in
  let k := Z.max 0 n in
  e1 = e + k /\ 0 <= m1 /\ m1 * 2 ^ k < M + 2 ^ k.
Proof.
  intros HM. destruct n as [|p|p]; cbn [shr]; try (cbn; rewrite Z.mul_1_r; lia).
  pose proof (iter_shr_spec p (Build_shr_record M false false) HM) as [E HE].
  set (r := SpecFloat.iter_pos _ _ _) in *. cbn [shr_m] in *. rewrite Z.max_r by lia.
  assert (0 < 2 ^ Z.pos p) as Hp by (apply Z.pow_pos_nonneg; lia).
  assert (0 <= shr_m r) by (rewrite E; apply Z.div_pos; lia).
  assert (shr_m r * 2 ^ Z.pos p <= M) by (rewrite E; pose proof (Z.mul_div_le M (2 ^ Z.pos p) Hp); lia).
  assert (loc_of_shr_record r <> loc_Exact -> shr_m r * 2 ^ Z.pos p <> M) as Hne.
  { intros Hl Heq. apply Hl, HE. by split. }
  split; [done|]. destruct (loc_of_shr_record r) as [|[| |]]; cbn [round_nearest_even];
    [lia|specialize (Hne ltac:(done)); destruct (Z.even (shr_m r)); nia|lia|specialize (Hne ltac:(done)); nia].
Qed.

Lemma shift_trunc m e n : 0 <= m ->
  let '(r, e1) := shr (Build_shr_record m false false) e n in
  let k := Z.max 0 n in
  e1 = e + k /\ 0 <= shr_m r /\ shr_m r * 2 ^ k <= m.
Proof.
  intros Hm. destruct n as [|p|p]; cbn [shr]; try (cbn; rewrite Z.mul_1_r; lia).
  pose proof (iter_shr_spec p (Build_shr_record m false false) Hm) as [E _].
  set (r := SpecFloat.iter_pos _ _ _) in *. cbn [shr_m] in *. rewrite Z.max_r by lia.
  assert (0 < 2 ^ Z.pos p) as Hp by (apply Z.pow_pos_nonneg; lia).
  rewrite E. split_and!; [done|by apply Z.div_pos|]. rewrite Z.mul_comm. by apply Z.mul_div_le.
Qed.

Section round.
Context (P E K mr er : Z).
Hypothesis HP : 0 < P.
Hypothesis Hmr : 0 <= mr < 2 ^ P.
Hypothesis Her : emin P E <= er <= E - P.
Hypothesis HK : 0 <= er + K.

(** [m * 2 ^ e] is at most the reference [mr * 2 ^ er]. *)
Definition at_most (m e : Z) : Prop := 0 <= e + K /\ m * 2 ^ (e + K) <= mr * 2 ^ (er + K).

(** The exponent a number is rounded at is at most the reference's. *)
Lemma fexp_below m e : 0 < m -> at_most m e -> fexp P E (Zdigits2 m + e) <= er.
Proof.
  intros Hm [He H]. destruct m as [|m|m]; try lia. cbn [Zdigits2]. unfold fexp.
  enough (Z.pos (digits2_pos m) - 1 + (e + K) < P + (er + K)) by lia.
  apply (Z.pow_lt_mono_r_iff 2); [lia..|]. rewrite (Z.pow_add_r 2 _ (e + K)), (Z.pow_add_r 2 P) by lia.
  pose proof (digits2_bounds m) as [Hd _].
  assert (0 < 2 ^ (e + K)) by (apply Z.pow_pos_nonneg; lia). assert (0 < 2 ^ (er + K)) by (apply Z.pow_pos_nonneg; lia).
  apply Z.le_lt_trans with (Z.pos m * 2 ^ (e + K)); [apply Z.mul_le_mono_nonneg_r; lia|].
  apply Z.le_lt_trans with (1 := H). apply Z.mul_lt_mono_pos_r; lia.
Qed.

Lemma at_most_scale m m1 e k : 0 <= k -> at_most m e -> m1 * 2 ^ k <= m -> at_most m1 (e + k).
Proof.
  intros Hk [He H] Hm. split; [lia|]. replace (e + k + K) with (k + (e + K)) by lia.
  rewrite Z.pow_add_r, Z.mul_assoc by lia. assert (0 < 2 ^ (e + K)) by (apply Z.pow_pos_nonneg; lia). nia.
Qed.

Lemma at_most_round m m1 e k : 0 <= k -> e + k <= er -> at_most m e -> m1 * 2 ^ k < m + 2 ^ k -> at_most m1 (e + k).
Proof.
  intros Hk Hle [He H] Hm. split; [lia|].
  assert (mr * 2 ^ (er + K) = (mr * 2 ^ (er - (e + k))) * 2 ^ (e + k + K)) as ER.
  { rewrite <- Z.mul_assoc, <- Z.pow_add_r by lia. do 2 f_equal. lia. }
  rewrite ER in *. set (q := mr * 2 ^ (er - (e + k))) in *.
  assert (2 ^ (e + k + K) = 2 ^ k * 2 ^ (e + K)) as EK by (rewrite <- Z.pow_add_r by lia; f_equal; lia).
  assert (0 < 2 ^ (e + K)) by (apply Z.pow_pos_nonneg; lia). assert (0 < 2 ^ k) by (apply Z.pow_pos_nonneg; lia).
  apply Z.mul_le_mono_nonneg_r; [lia|]. rewrite EK in H. nia.
Qed.

Lemma round_at_most sx M e : e <= E - P -> at_most (Z.pos M) e ->
  match binary_round_aux P E sx (Z.pos M) e loc_Exact with
  | S754_zero s => s = sx
  | S754_finite s m' e' => s = sx /\ at_most (Z.pos m') e' /\ emin P E <= e'
  | _ => False
  end.
Proof.
  intros He HM. unfold binary_round_aux, shr_fexp. cbn [shr_record_of_loc].
  pose proof (shift_round (Z.pos M) e (fexp P E (Zdigits2 (Z.pos M) + e) - e) ltac:(lia)) as H1.
  pose proof (fexp_below (Z.pos M) e ltac:(lia) HM) as Hf1.
  assert (emin P E <= fexp P E (Zdigits2 (Z.pos M) + e)) as Hmin by (unfold fexp; lia).
  destruct (shr _ _ _) as [r1 e1]. cbv zeta in H1. destruct H1 as (-> & Hm1 & H1).
  set (k := Z.max 0 _) in *. set (m1 := round_nearest_even _ _) in *.
  assert (at_most m1 (e + k)) as Hm1'.
  { destruct (Z.eq_dec k 0) as [Ek|Ek]; [|apply (at_most_round (Z.pos M)); [lia|lia|done|done]].
    apply (at_most_scale (Z.pos M)); [lia|done|]. rewrite Ek in *. lia. }
  assert (e + k <= E - P) as He1 by lia.
  pose proof (shift_trunc m1 (e + k) (fexp P E (Zdigits2 m1 + (e + k)) - (e + k)) Hm1) as H2.
  destruct (shr _ _ _) as [r2 e2]. cbv zeta in H2. destruct H2 as (-> & Hm2 & H2).
  set (k2 := Z.max 0 (_ - (e + k))) in *.
  assert (at_most (shr_m r2) (e + k + k2)) as Hm2' by (apply (at_most_scale m1); [lia|done|done]).
  assert (e + k + k2 <= E - P) as He2.
  { destruct (Z.eq_dec m1 0) as [E0|E0]; [|pose proof (fexp_below m1 (e + k) ltac:(lia) Hm1'); lia].
    assert (fexp P E (Zdigits2 m1 + (e + k)) <= Z.max (e + k) (emin P E)); [|lia].
    rewrite E0. unfold fexp. cbn [Zdigits2]. lia. }
  destruct (shr_m r2) as [|m2|m2] eqn:E2; [done| |lia].
  rewrite (proj2 (Z.leb_le _ _) He2). split_and!; [done|done|lia].
Qed.

Lemma shl_align_at_most m e e' : at_most (Z.pos m) e -> 0 <= e' + K ->
  let '(m', e1) := shl_align m e e' in at_most (Z.pos m') e1 /\ e1 <= e.
Proof.
  intros [He H] He'. unfold shl_align. destruct (e' - e) as [|d|d] eqn:Ed; [by split|by split|].
  split; [|lia]. split; [done|]. rewrite iter_xO.
  replace (e + K) with (Z.pos d + (e' + K)) in H by lia. rewrite Z.pow_add_r in H by lia. lia.
Qed.

Lemma normalize_at_most m e s : e <= E - P -> 0 <= emin P E + K -> 0 <= m -> at_most m e ->
  match binary_normalize P E m e s with
  | S754_zero _ => True
  | S754_finite s m' e' => s = false /\ at_most (Z.pos m') e' /\ emin P E <= e'
  | _ => False
  end.
Proof.
  intros He HKe Hm H. destruct m as [|m|m]; [done| |lia]. cbn [binary_normalize]. unfold binary_round.
  assert (0 <= fexp P E (Zpos (digits2_pos m) + e) + K) as Hf by (unfold fexp; lia).
  pose proof (shl_align_at_most m e _ H Hf) as Ha. destruct (shl_align _ _ _) as [m' e1]. destruct Ha as [Ha ?].
  pose proof (round_at_most false m' e1 ltac:(lia) Ha) as Hr. by destruct (binary_round_aux _ _ _ _ _ _).
Qed.
End round.

(** Results that convert to 0: zeros, negative numbers and NaN. *)
Definition nonpos (x : float) : Prop :=
  match x with S754_finite false _ _ | S754_infinity false => False | _ => True end.

Lemma round_nonpos P E m e l : nonpos (binary_round_aux P E true m e l).
Proof. unfold binary_round_aux. by repeat case_match. Qed.

Lemma normalize_nonpos P E m e : m <= 0 -> nonpos (binary_normalize P E m e false).
Proof.
  destruct m as [|m|m]; [done|lia|]. intros _. cbn [binary_normalize]. unfold binary_round.
  destruct (shl_align _ _ _). apply round_nonpos.
Qed.

Lemma nonpos_as_u w x : 0 <= w -> nonpos x -> as_u w x = 0.
Proof.
  intros Hw Hx. assert (0 < 2 ^ w) by (apply Z.pow_pos_nonneg; lia).
  destruct x as [[]|[]| |[] m e]; cbn; try done; [lia..|]. case_match eqn:Ee; bool_to_prop.
  - assert (0 < 2 ^ e) by (apply Z.pow_pos_nonneg; lia). nia.
  - assert (0 <= Z.pos m / 2 ^ (- e)) by (apply Z.div_pos; [lia|apply Z.pow_pos_nonneg; lia]). lia.
Qed.

Lemma nonpos_floor F w x : 0 <= w -> nonpos x -> as_u w (ffloor F x) = 0.
Proof.
  intros Hw Hx. apply nonpos_as_u; [done|]. destruct x as [[]|[]| |[] m e]; try done.
  cbn [ffloor]. case_match eqn:Ee; [done|]. bool_to_prop.
  apply normalize_nonpos. apply Z.lt_le_incl, Z.div_lt_upper_bound; [apply Z.pow_pos_nonneg; lia|lia].
Qed.

(** A number that is not positive, or at most [mr * 2 ^ er]. *)
Definition upto (K mr er : Z) (x : float) : Prop :=
  nonpos x \/ exists m e, x = S754_finite false m e /\ at_most K mr er (Z.pos m) e /\ emin 53 1024 <= e.

Lemma of_int_cases n K : 1074 <= K -> 0 <= n < 2 ^ 53 ->
  (exists s, of_int f64 n = S754_zero s) \/
  exists m e, of_int f64 n = S754_finite false m e /\ at_most K n 0 (Z.pos m) e /\ emin 53 1024 <= e.
Proof.
  intros HK Hn. unfold of_int. cbn [prec emax f64].
  assert (at_most K n 0 n 0) as Ha by (split; lia).
  pose proof (normalize_at_most 53 1024 K n 0 ltac:(lia) Hn ltac:(unfold emin; lia) ltac:(lia) n 0 false
    ltac:(lia) ltac:(unfold emin; lia) ltac:(lia) Ha) as H.
  destruct (binary_normalize _ _ _ _ _) as [s|s| |s m e]; [by left; exists s|done..|].
  destruct H as (-> & H & He). right. by exists m, e.
Qed.

Lemma of_int_upto n K : 1074 <= K -> 0 <= n < 2 ^ 53 -> upto K n 0 (of_int f64 n).
Proof. intros HK Hn. destruct (of_int_cases n K HK Hn) as [[s ->]|H]; [by left|by right]. Qed.

Lemma floor_upto n K x : 1074 <= K -> 0 <= n < 2 ^ 53 -> upto K n 0 x -> as_u 64 (ffloor f64 x) <= n.
Proof.
  assert (forall K m e, 0 <= K -> at_most K n 0 (Z.pos m) e ->
    0 <= trunc (S754_finite false m e) <= n) as Ht.
  { intros K' m e HK' [He H]. cbn [trunc]. rewrite Z.add_0_l in H. assert (0 < 2 ^ K') by (apply Z.pow_pos_nonneg; lia).
    case_match eqn:Ee; bool_to_prop.
    - rewrite Z.pow_add_r in H by lia. assert (0 < 2 ^ e) by (apply Z.pow_pos_nonneg; lia). nia.
    - assert (0 < 2 ^ (- e)) by (apply Z.pow_pos_nonneg; lia). split; [apply Z.div_pos; lia|].
      apply Z.div_le_upper_bound; [done|]. assert (2 ^ K' = 2 ^ (- e) * 2 ^ (e + K')) as E2.
      { rewrite <- Z.pow_add_r by lia. f_equal. lia. }
      rewrite E2 in H. assert (0 < 2 ^ (e + K')) by (apply Z.pow_pos_nonneg; lia). nia. }
  intros HK Hn [Hx|(m & e & -> & H & _)]; [rewrite nonpos_floor by done; lia|]. cbn [ffloor].
  pose proof (Ht K m e ltac:(lia) H) as Hm. set (t := trunc _) in *.
  destruct (of_int_upto t K HK ltac:(lia)) as [Hx|(m' & e' & -> & H' & _)]; [rewrite nonpos_as_u by done; lia|].
  unfold as_u. assert (at_most K n 0 (Z.pos m') e') as H2.
  { destruct H' as [He' H']. split; [done|]. etrans; [exact H'|]. apply Z.mul_le_mono_nonneg_r; lia. }
  pose proof (Ht K m' e' ltac:(lia) H2). lia.
Qed.

(** [1 - f], for an [f] that is not at most 0, is at most 1. *)
Lemma one_minus_upto f : fle f (of_int f64 0) = false ->
  exists K, 1074 <= K /\ upto K (2 ^ 52) (-52) (fsub f64 (of_int f64 1) f).
Proof.
  destruct f as [[]|[]| |[] mf ef]; try done; intros _; [by exists 1074; split; [|left]..|].
  exists (Z.max 1074 (- ef)). split; [lia|]. set (K := Z.max _ _).
  change (of_int f64 1) with (S754_finite false (2 ^ 52) (-52)). unfold fsub. cbn [SFsub prec emax f64 cond_Zopp].
  set (ez := Z.min (-52) ef). set (M := _ - _).
  destruct (decide (M <= 0)) as [HM|HM]; [left; by apply normalize_nonpos|].
  assert (at_most K (2 ^ 52) (-52) M ez) as Ha.
  { split; [lia|]. pose proof (shl_align_at_most 53 K (2 ^ 52) (-52) ltac:(lia) ltac:(lia) (2 ^ 52) (-52) ez) as H1.
    destruct (shl_align (2 ^ 52) (-52) ez) as [m1 e1] eqn:E1. cbn [fst] in M.
    assert (e1 = ez) as -> by (unfold shl_align in E1; destruct (ez - -52) eqn:Ed; simplify_eq; lia).
    destruct H1 as [[_ H1] _]; [split; [lia|reflexivity]|lia|]. etrans; [|exact H1].
    apply Z.mul_le_mono_nonneg_r; lia. }
  pose proof (normalize_at_most 53 1024 K (2 ^ 52) (-52) ltac:(lia) ltac:(lia) ltac:(unfold emin; lia) ltac:(lia) M ez false
    ltac:(lia) ltac:(unfold emin; lia) ltac:(lia) Ha) as H.
  destruct (binary_normalize _ _ _ _ _) as [s|s| |s m e]; [by left|done..|].
  destruct H as (-> & H & He). right. by exists m, e.
Qed.

(** [n] times a number that is at most 1. *)
Lemma fmul_upto n K y : 1074 <= K -> 0 <= n < 2 ^ 53 -> upto K (2 ^ 52) (-52) y ->
  upto (2 * K) n 0 (fmul f64 (of_int f64 n) y).
Proof.
  intros HK Hn Hy. destruct (of_int_cases n K HK Hn) as [[s ->]|(mx & ex & -> & [Hex Hx] & Hmx)].
  { left. by destruct y as [[]|[]| |[]], s. }
  destruct Hy as [Hy|(my & ey & -> & [Hey Hy] & Hmy)].
  { left. destruct y as [[]|[]| |[] my ey]; try done. apply round_nonpos. }
  unfold fmul. cbn [SFmul prec emax f64 xorb]. rewrite Z.add_0_l in Hx.
  assert (2 ^ 52 * 2 ^ (-52 + K) = 2 ^ K) as E1 by (rewrite <- Z.pow_add_r by lia; f_equal; lia).
  rewrite E1 in Hy.
  assert (ex < 53).
  { enough (ex + K < 53 + K) by lia. apply (Z.pow_lt_mono_r_iff 2); [lia..|]. rewrite (Z.pow_add_r 2 53) by lia.
    assert (0 < 2 ^ (ex + K)) by (apply Z.pow_pos_nonneg; lia). assert (0 < 2 ^ K) by (apply Z.pow_pos_nonneg; lia). nia. }
  assert (ey <= 0).
  { enough (ey + K <= K) by lia. apply (Z.pow_le_mono_r_iff 2); [lia..|].
    assert (0 < 2 ^ (ey + K)) by (apply Z.pow_pos_nonneg; lia). nia. }
  assert (at_most (2 * K) n 0 (Z.pos (mx * my)) (ex + ey)) as Ha.
  { split; [lia|]. replace (ex + ey + 2 * K) with ((ex + K) + (ey + K)) by lia.
    replace (0 + 2 * K) with (K + K) by lia. rewrite (Z.pow_add_r 2 (ex + K)), (Z.pow_add_r 2 K), Pos2Z.inj_mul by lia.
    replace (Z.pos mx * Z.pos my * (2 ^ (ex + K) * 2 ^ (ey + K)))
      with ((Z.pos mx * 2 ^ (ex + K)) * (Z.pos my * 2 ^ (ey + K))) by ring.
    rewrite (Z.mul_assoc n). apply Z.mul_le_mono_nonneg; try done;
      (apply Z.mul_nonneg_nonneg; [lia|apply Z.pow_nonneg; lia]). }
  pose proof (round_at_most 53 1024 (2 * K) n 0 ltac:(lia) Hn ltac:(unfold emin; lia) ltac:(lia) false
    (mx * my) (ex + ey) ltac:(lia) Ha) as Hr.
  destruct (binary_round_aux _ _ _ _ _ _) as [s|s| |s m e]; [by left|done..|].
  destruct Hr as (-> & Hr & He). right. by exists m, e.
Qed.

(** Below [2 ^ 53], scaling an integer by [1 - f] and rounding down does not
    enlarge it, whatever [f]. *)
Lemma floor_scaled n f : 0 <= n < 2 ^ 53 -> fle f (of_int f64 0) = false ->
  0 <= as_u 64 (ffloor f64 (fmul f64 (of_int f64 n) (fsub f64 (of_int f64 1) f))) <= n.
Proof.
  intros Hn (K & HK & Hy)%one_minus_upto. split; [|apply (floor_upto n (2 * K)); [lia|done|by apply fmul_upto]].
  generalize (ffloor f64 (fmul f64 (of_int f64 n) (fsub f64 (of_int f64 1) f))).
  intros [[]|[]| |]; unfold as_u; try done; lia.
Qed.
End FloatRound.

#[export] Hint Resolve FloatNaN.of_int_nan FloatNaN.binary_normalize_nan
  FloatNaN.fmul_nan FloatNaN.fsub_nan FloatNaN.fclamp_finite : rust.
