(* ===== verification/CoreTypes.v ===== *)
(** * Core data: [ghost-core/src/types.rs], [error.rs] and [transfer.rs]

    Chunk identifiers are blake3 digests; the hash function itself is a
    dependency, so it is an interface ([Blake3]) that every definition using
    it takes as an argument.  Wall-clock readings are arguments too. *)

From Stdlib Require Import ZArith Lia.
From Stdlib Require Strings.Byte.
From stdpp Require Import base gmap strings pretty numbers list.
From S2P Require Import Prelude Floats.

Open Scope rust_scope.

(** ** The hash interface *)

Class Blake3 := {
  blake3 : list byte -> list byte;
  blake3_length d : length (blake3 d) = 32%nat;
}.

(** A hash that pads or truncates to 32 bytes, for concrete runs. *)
Definition ex_blake3 : Blake3.
Proof.
  refine {| blake3 := fun d => take 32 (d ++ replicate 32 Byte.x00) |}.
  intros d. rewrite length_take, length_app, length_replicate. lia.
Defined.

(** ** Identifiers and enumerations *)

Record ChunkId := mkChunkId { chunk_bytes : list byte }.

#[global] Instance ChunkId_eq_dec : EqDecision ChunkId.
Proof. solve_decision. Defined.

#[global] Instance ChunkId_countable : Countable ChunkId.
Proof. by refine (inj_countable' chunk_bytes mkChunkId _); intros []. Defined.

Definition chunk_le (a b : ChunkId) : Prop := bytes_le (chunk_bytes a) (chunk_bytes b).

#[export] Instance ChunkId_key_order : KeyOrder ChunkId.
Proof.
  refine {| key_le := chunk_le |}; unfold chunk_le.
  - intros a b. apply bytes_le_dec.
  - intros a b. apply (total bytes_le).
  - intros a b c. apply bytes_le_trans.
  - intros [a] [b] H1 H2. f_equal. by apply (anti_symm bytes_le).
Defined.

Section chunk_id.
Context `{Blake3}.

Definition from_data (data : list byte) : ChunkId := mkChunkId (blake3 data).

Definition verify (self : ChunkId) (data : list byte) : bool :=
  let computed := blake3 data in
  bool_decide (computed = chunk_bytes self).
End chunk_id.

Definition short_hex (self : ChunkId) : string := hex_encode (take 8 (chunk_bytes self)).

Inductive TierId := Ram | GpuVram | Disk | Simulation.

#[global] Instance TierId_eq_dec : EqDecision TierId.
Proof. solve_decision. Defined.

Definition priority (t : TierId) : Z :=
  match t with Ram => 0 | GpuVram => 1 | Disk => 2 | Simulation => 3 end.

Definition tier_encode (t : TierId) : N :=
  match t with Ram => 0 | GpuVram => 1 | Disk => 2 | Simulation => 3 end.
Definition tier_decode (n : N) : TierId :=
  match n with 0%N => Ram | 1%N => GpuVram | 2%N => Disk | _ => Simulation end.

#[global] Instance TierId_countable : Countable TierId.
Proof. by refine (inj_countable' tier_encode tier_decode _); intros []. Defined.

(** The derived order of [TierId]. *)
Definition tier_index (t : TierId) : Z :=
  match t with Ram => 0 | GpuVram => 1 | Disk => 2 | Simulation => 3 end.

#[export] Instance TierId_key_order : KeyOrder TierId.
Proof.
  refine {| key_le := fun a b => tier_index a <= tier_index b |}.
  - intros a b. apply Z.le_dec.
  - intros a b. apply Z.le_ge_cases.
  - intros a b c. apply Z.le_trans.
  - intros a b. by destruct a, b.
Defined.

Definition is_gpu (t : TierId) : bool := match t with GpuVram => true | _ => false end.
Definition is_persistent (t : TierId) : bool := match t with Disk => true | _ => false end.

(** [Display] and derived [Debug]. *)
Definition tier_display (t : TierId) : string :=
  match t with
  | Ram => "RAM" | GpuVram => "GPU VRAM" | Disk => "Disk" | Simulation => "Simulation"
  end.
Definition tier_debug (t : TierId) : string :=
  match t with
  | Ram => "Ram" | GpuVram => "GpuVram" | Disk => "Disk" | Simulation => "Simulation"
  end.

Inductive CompressionAlgorithm := CompNone | Zstd.

#[global] Instance CompressionAlgorithm_eq_dec : EqDecision CompressionAlgorithm.
Proof. solve_decision. Defined.

Definition compression_display (c : CompressionAlgorithm) : string :=
  match c with CompNone => "none" | Zstd => "zstd" end.

(** The lifecycle states of [ghost-core/src/state.rs]; their machine is in
    [ChunkState]. *)
Inductive ChunkState := Allocated | Stored | Cached | Migrating | Evicted | Failed.

#[global] Instance ChunkState_eq_dec : EqDecision ChunkState.
Proof. solve_decision. Defined.

(** ** Chunk metadata *)

Record ChunkMeta := mkChunkMeta {
  meta_id : ChunkId;
  meta_size : Z;
  compressed_size : Z;
  meta_tier : TierId;
  meta_state : ChunkState;
  created_at : Z;
  last_accessed : Z;
  access_count : Z;
  meta_compression : CompressionAlgorithm;
  checksum : list byte;
}.

Definition ChunkMeta_new (now : Z) (id : ChunkId) (size csize : Z) (tier : TierId)
    (compression : CompressionAlgorithm) (sum : list byte) : ChunkMeta :=
  {| meta_id := id; meta_size := size; compressed_size := csize; meta_tier := tier;
     meta_state := Allocated; created_at := now; last_accessed := now;
     access_count := 0; meta_compression := compression; checksum := sum |}.

Definition record_access {E} (b : Build) (now : Z) : M ChunkMeta E unit :=
  self <- gets id ;;
  n <- lift (arith b 64 (access_count self + 1)) ;;
  modify (fun m => {| meta_id := meta_id m; meta_size := meta_size m;
    compressed_size := compressed_size m; meta_tier := meta_tier m;
    meta_state := meta_state m; created_at := created_at m; last_accessed := now;
    access_count := n; meta_compression := meta_compression m;
    checksum := checksum m |}).

Definition compression_ratio (m : ChunkMeta) : float :=
  if compressed_size m =? 0 then of_int f64 1
  else fdiv f64 (of_int f64 (meta_size m)) (of_int f64 (compressed_size m)).

(** ** System pressure levels *)

Inductive PressureLevel := PNormal | PSoft | PMedium | PHard | PCritical.

Definition level (p : PressureLevel) : Z :=
  match p with PNormal => 0 | PSoft => 1 | PMedium => 2 | PHard => 3 | PCritical => 4 end.

Definition level_display (p : PressureLevel) : string :=
  match p with
  | PNormal => "normal" | PSoft => "soft" | PMedium => "medium"
  | PHard => "hard" | PCritical => "critical"
  end.

(** ** Errors *)

Inductive GhostError :=
  | EIo (msg : string)
  | ChunkNotFound (id : string)
  | TierFull (t : TierId)
  | TierUnavailable (t : TierId)
  | ChecksumMismatch (id : string)
  | CorruptionDetected (what : string)
  | CompressionError (msg : string)
  | EBackendError (msg : string)
  | IpcError (msg : string)
  | OutOfMemory
  | ETimeout
  | PipelineError (msg : string)
  | ECancelled
  | ReplayError (msg : string)
  | InvalidConfig (msg : string)
  | InvalidStateTransition (from to : string)
  | ProviderUnavailable (msg : string)
  | EInternal (msg : string).

#[global] Instance GhostError_eq_dec : EqDecision GhostError.
Proof. solve_decision. Defined.

(** [{:?}] of a string without characters to escape. *)
Definition quoted (s : string) : string :=
  String.String (Ascii.ascii_of_nat 34) (s +:+ String.String (Ascii.ascii_of_nat 34) EmptyString).

Definition ghost_error_display (e : GhostError) : string :=
  match e with
  | EIo m => "I/O error: " +:+ m
  | ChunkNotFound i => "chunk not found: " +:+ i
  | TierFull t => "tier " +:+ tier_debug t +:+ " is full"
  | TierUnavailable t => "tier " +:+ tier_debug t +:+ " unavailable"
  | ChecksumMismatch i => "checksum mismatch for chunk " +:+ i
  | CorruptionDetected w => "corruption detected in " +:+ w
  | CompressionError m => "compression error: " +:+ m
  | EBackendError m => "backend error: " +:+ m
  | IpcError m => "IPC error: " +:+ m
  | OutOfMemory => "out of memory"
  | ETimeout => "operation timed out"
  | PipelineError m => "pipeline error: " +:+ m
  | ECancelled => "operation cancelled"
  | ReplayError m => "trace replay error: " +:+ m
  | InvalidConfig m => "invalid configuration: " +:+ m
  | InvalidStateTransition f t =>
      "invalid state transition from " +:+ quoted f +:+ " to " +:+ quoted t
  | ProviderUnavailable m => "provider unavailable: " +:+ m
  | EInternal m => "internal error: " +:+ m
  end.

(** ** Transfer jobs *)

Inductive TransferPriority := PLow | PNorm | PHigh | PCrit.

#[global] Instance TransferPriority_eq_dec : EqDecision TransferPriority.
Proof. solve_decision. Defined.

Definition value (p : TransferPriority) : Z :=
  match p with PLow => 0 | PNorm => 1 | PHigh => 2 | PCrit => 3 end.

Definition is_higher_than (self other : TransferPriority) : bool :=
  value other <? value self.

Definition priority_display (p : TransferPriority) : string :=
  match p with PLow => "low" | PNorm => "normal" | PHigh => "high" | PCrit => "critical" end.

Inductive TransferState :=
  | Queued | Compressing | Transferring | Writing | Verifying
  | TComplete | TFailed | TCancelled.

#[global] Instance TransferState_eq_dec : EqDecision TransferState.
Proof. solve_decision. Defined.

Definition ts_is_terminal (s : TransferState) : bool :=
  match s with TComplete | TFailed | TCancelled => true | _ => false end.

Definition ts_is_active (s : TransferState) : bool :=
  match s with Compressing | Transferring | Writing | Verifying => true | _ => false end.

Definition ts_display (s : TransferState) : string :=
  match s with
  | Queued => "queued" | Compressing => "compressing" | Transferring => "transferring"
  | Writing => "writing" | Verifying => "verifying" | TComplete => "complete"
  | TFailed => "failed" | TCancelled => "cancelled"
  end.

Record TransferJob := mkJob {
  job_chunk : ChunkId;
  from_tier : TierId;
  to_tier : TierId;
  job_size : Z;
  job_priority : TransferPriority;
  job_state : TransferState;
  job_created_at : Z;       (* [Instant], in nanoseconds *)
  created_at_secs : Z;
  attempts : Z;
}.

#[global] Instance TransferJob_eq_dec : EqDecision TransferJob.
Proof. solve_decision. Defined.

Definition TransferJob_new (now_secs now_instant : Z) (c : ChunkId) (from to : TierId)
    (size : Z) (p : TransferPriority) : TransferJob :=
  {| job_chunk := c; from_tier := from; to_tier := to; job_size := size;
     job_priority := p; job_state := Queued; job_created_at := now_instant;
     created_at_secs := now_secs; attempts := 0 |}.

Definition set_state (j : TransferJob) (next : TransferState) : TransferJob :=
  {| job_chunk := job_chunk j; from_tier := from_tier j; to_tier := to_tier j;
     job_size := job_size j; job_priority := job_priority j; job_state := next;
     job_created_at := job_created_at j; created_at_secs := created_at_secs j;
     attempts := attempts j |}.

Definition set_attempts (j : TransferJob) (n : Z) : TransferJob :=
  {| job_chunk := job_chunk j; from_tier := from_tier j; to_tier := to_tier j;
     job_size := job_size j; job_priority := job_priority j; job_state := job_state j;
     job_created_at := job_created_at j; created_at_secs := created_at_secs j;
     attempts := n |}.

Definition record_attempt {E} (b : Build) : M TransferJob E unit :=
  self <- gets id ;;
  n <- lift (arith b 32 (attempts self + 1)) ;;
  modify (fun j => set_attempts j n).

Definition transition_state (next : TransferState) (j : TransferJob) : TransferJob :=
  set_state j next.

Definition elapsed (now : Z) (j : TransferJob) : Z := sat_sub now (job_created_at j).

Definition is_timed_out (now timeout : Z) (j : TransferJob) : bool :=
  timeout <? elapsed now j.

Definition is_urgent (j : TransferJob) : bool :=
  match job_priority j with PHigh | PCrit => true | _ => false end.

(** ** The hand-written serde implementation of [TransferJob]

    A serialized job is the list of map entries in the order they are written;
    deserialization walks the entries a [MapAccess] yields. *)

Module JobCodec.

Inductive Value :=
  | VChunk (c : ChunkId)
  | VTier (t : TierId)
  | VNum (z : Z)
  | VPriority (p : TransferPriority)
  | VTransferState (s : TransferState)
  | VOther (s : string).

Inductive DeError := InvalidType | MissingField (name : string).

Definition serialize (j : TransferJob) : list (string * Value) :=
  [ ("chunk_id", VChunk (job_chunk j));
    ("from_tier", VTier (from_tier j));
    ("to_tier", VTier (to_tier j));
    ("size", VNum (job_size j));
    ("priority", VPriority (job_priority j));
    ("state", VTransferState (job_state j));
    ("created_at_secs", VNum (created_at_secs j));
    ("attempts", VNum (attempts j)) ]%string.

(** The eight [let mut field = None] of [visit_map]. *)
Record Fields := mkFields {
  f_chunk_id : option ChunkId;
  f_from_tier : option TierId;
  f_to_tier : option TierId;
  f_size : option Z;
  f_priority : option TransferPriority;
  f_state : option TransferState;
  f_created_at_secs : option Z;
  f_attempts : option Z;
}.

Definition no_fields : Fields := mkFields None None None None None None None None.

(** [map.next_value()] at the type the field expects. *)
Definition get_chunk (v : Value) : option ChunkId :=
  match v with VChunk c => Some c | _ => None end.
Definition get_tier (v : Value) : option TierId :=
  match v with VTier t => Some t | _ => None end.
Definition get_uint (w : Z) (v : Value) : option Z :=
  match v with VNum z => if in_ub w z then Some z else None | _ => None end.
Definition get_priority (v : Value) : option TransferPriority :=
  match v with VPriority p => Some p | _ => None end.
Definition get_tstate (v : Value) : option TransferState :=
  match v with VTransferState s => Some s | _ => None end.

(** One iteration of [while let Some(key) = map.next_key()?]. *)
Definition visit_entry (kv : string * Value) (f : Fields) : outcome DeError Fields :=
  let '(k, v) := kv in
  let 'mkFields c fr to sz pr st cr at_ := f in
  if decide (k = "chunk_id"%string) then
    match get_chunk v with Some x => Ok (mkFields (Some x) fr to sz pr st cr at_) | None => Err InvalidType end
  else if decide (k = "from_tier"%string) then
    match get_tier v with Some x => Ok (mkFields c (Some x) to sz pr st cr at_) | None => Err InvalidType end
  else if decide (k = "to_tier"%string) then
    match get_tier v with Some x => Ok (mkFields c fr (Some x) sz pr st cr at_) | None => Err InvalidType end
  else if decide (k = "size"%string) then
    match get_uint 64 v with Some x => Ok (mkFields c fr to (Some x) pr st cr at_) | None => Err InvalidType end
  else if decide (k = "priority"%string) then
    match get_priority v with Some x => Ok (mkFields c fr to sz (Some x) st cr at_) | None => Err InvalidType end
  else if decide (k = "state"%string) then
    match get_tstate v with Some x => Ok (mkFields c fr to sz pr (Some x) cr at_) | None => Err InvalidType end
  else if decide (k = "created_at_secs"%string) then
    match get_uint 64 v with Some x => Ok (mkFields c fr to sz pr st (Some x) at_) | None => Err InvalidType end
  else if decide (k = "attempts"%string) then
    match get_uint 32 v with Some x => Ok (mkFields c fr to sz pr st cr (Some x)) | None => Err InvalidType end
  else Ok f.

Fixpoint visit_entries (l : list (string * Value)) (f : Fields) : outcome DeError Fields :=
  match l with
  | [] => Ok f
  | kv :: l =>
      match visit_entry kv f with
      | Ok f => visit_entries l f
      | Err e => Err e
      | Panic m => Panic m
      end
  end.

(** The [ok_or_else(missing_field)?] chain; [created_at] restarts at [now]. *)
Definition finish (now : Z) (f : Fields) : outcome DeError TransferJob :=
  match f_chunk_id f with
  | None => Err (MissingField "chunk_id")
  | Some c =>
  match f_from_tier f with
  | None => Err (MissingField "from_tier")
  | Some fr =>
  match f_to_tier f with
  | None => Err (MissingField "to_tier")
  | Some to =>
  match f_size f with
  | None => Err (MissingField "size")
  | Some sz =>
  match f_priority f with
  | None => Err (MissingField "priority")
  | Some pr =>
  match f_state f with
  | None => Err (MissingField "state")
  | Some st =>
  match f_created_at_secs f with
  | None => Err (MissingField "created_at_secs")
  | Some cr =>
  match f_attempts f with
  | None => Err (MissingField "attempts")
  | Some at_ => Ok (mkJob c fr to sz pr st now cr at_)
  end end end end end end end end.

Definition visit_map (now : Z) (l : list (string * Value)) : outcome DeError TransferJob :=
  match visit_entries l no_fields with
  | Ok f => finish now f
  | Err e => Err e
  | Panic m => Panic m
  end.

(** The integer fields of a job fit their Rust types. *)
Definition job_wf (j : TransferJob) : Prop :=
  in_u 64 (job_size j) /\ in_u 64 (created_at_secs j) /\ in_u 32 (attempts j).

Definition restart (now : Z) (j : TransferJob) : TransferJob :=
  {| job_chunk := job_chunk j; from_tier := from_tier j; to_tier := to_tier j;
     job_size := job_size j; job_priority := job_priority j; job_state := job_state j;
     job_created_at := now; created_at_secs := created_at_secs j;
     attempts := attempts j |}.

(** An entry whose key is none of the eight fields is skipped. *)
Definition known_keys : list string :=
  ["chunk_id"; "from_tier"; "to_tier"; "size"; "priority"; "state";
   "created_at_secs"; "attempts"]%string.

Lemma get_uint_in w z : in_u w z -> get_uint w (VNum z) = Some z.
Proof. intros H. unfold get_uint. by rewrite (proj2 (in_ub_spec w z) H). Qed.

Lemma visit_entry_unknown k v f : k ∉ known_keys -> visit_entry (k, v) f = Ok f.
Proof.
  intros Hk. unfold known_keys in Hk. destruct f. unfold visit_entry.
  repeat (case_decide; [set_solver|]). done.
Qed.

Lemma visit_entries_app l1 l2 f :
  visit_entries (l1 ++ l2) f =
  match visit_entries l1 f with
  | Ok f => visit_entries l2 f | Err e => Err e | Panic m => Panic m
  end.
Proof.
  revert f. induction l1 as [|kv l1 IH]; intros f; simpl; [done|].
  destruct (visit_entry kv f); [apply IH|done..].
Qed.

(** Foreign entries may be interleaved anywhere. *)
Lemma visit_entries_filter l f :
  visit_entries l f = visit_entries (filter (fun kv => kv.1 ∈ known_keys) l) f.
Proof.
  revert f. induction l as [|[k v] l IH]; intros f; [done|].
  rewrite filter_cons. case_decide as Hk; cbn [visit_entries].
  - destruct (visit_entry (k, v) f); [apply IH|done..].
  - rewrite visit_entry_unknown by done. apply IH.
Qed.

Lemma visit_serialized now j :
  job_wf j -> visit_map now (serialize j) = Ok (restart now j).
Proof.
  intros (Hs & Hc & Ha). unfold visit_map, serialize.
  cbn -[get_uint]. rewrite (get_uint_in 64 (job_size j)) by done. cbn -[get_uint].
  rewrite (get_uint_in 64 (created_at_secs j)) by done. cbn -[get_uint].
  by rewrite (get_uint_in 32 (attempts j)).
Qed.

(** Serialization round trip of a transfer job.  Any serialized form that
    carries the eight entries written by [serialize] in order, with any
    entries of other names interleaved, deserializes to the same job except
    for the [Instant], which restarts at the time of deserialization. *)
Theorem job_roundtrip now j l :
  job_wf j ->
  filter (fun kv => kv.1 ∈ known_keys) l = serialize j ->
  visit_map now l = Ok (restart now j).
Proof.
  intros Hj Hl. rewrite <- (visit_serialized now j Hj). unfold visit_map.
  rewrite (visit_entries_filter l), Hl. done.
Qed.

Definition sample_job : TransferJob :=
  mkJob (mkChunkId [Byte.x01]) Ram Disk 4096 PHigh Writing 7 1700000000 2.

Lemma job_roundtrip_witness :
  visit_map 99 ((("zone"%string, VOther "x") :: serialize sample_job)) =
  Ok (restart 99 sample_job).
Proof.
  apply (job_roundtrip 99 sample_job).
  - unfold job_wf, in_u, sample_job. simpl. lia.
  - vm_compute. reflexivity.
Defined.

End JobCodec.

(** ** Facts on the core types *)

Section chunk_id_facts.
Context `{Blake3}.

(** [verify] accepts exactly the data whose digest is the identifier. *)
Lemma verify_spec id data : verify id data = true <-> id = from_data data.
Proof.
  unfold verify, from_data. rewrite bool_decide_eq_true.
  destruct id as [b]; simpl. naive_solver.
Qed.

Lemma verify_from_data data : verify (from_data data) data = true.
Proof. by apply verify_spec. Qed.

Lemma from_data_length data : length (chunk_bytes (from_data data)) = 32%nat.
Proof. apply blake3_length. Qed.
End chunk_id_facts.

(** The derived [Ord] of [TierId] is the order of [priority]: distinct tiers
    have distinct priorities. *)
Lemma priority_inj t1 t2 : priority t1 = priority t2 -> t1 = t2.
Proof. by destruct t1, t2. Qed.

Lemma is_higher_than_trans p q r :
  is_higher_than p q = true -> is_higher_than q r = true -> is_higher_than p r = true.
Proof. by destruct p, q, r. Qed.

Lemma is_urgent_spec j : is_urgent j = is_higher_than (job_priority j) PNorm.
Proof. unfold is_urgent. by destruct (job_priority j). Qed.

#[export] Hint Resolve verify_from_data from_data_length priority_inj : rust.
