(* ===== verification/ChunkState.v ===== *)
(** * The chunk lifecycle: [ghost-core/src/state.rs], first half

    [ChunkState::is_valid_transition] is the edge relation of the lifecycle,
    [StateMachine] the map from chunk to state.  [transition_to] panics on an
    invalid edge in a debug build and returns an error in a release build; the
    [runtime-invariants] feature adds a self-check after each transition. *)

From Stdlib Require Import ZArith Lia.
From stdpp Require Import base gmap strings pretty sorting relations list.
From S2P Require Import Prelude CoreTypes.

Open Scope rust_scope.

Definition is_valid_transition (self next : ChunkState) : bool :=
  match self, next with
  | Allocated, Stored
  | Stored, Cached
  | Stored, Migrating
  | Cached, Migrating
  | Cached, Stored
  | Migrating, Stored
  | Migrating, Failed
  | Migrating, Evicted
  | Failed, Stored
  | Failed, Evicted
  | Stored, Evicted => true
  | _, _ => false
  end.

Definition is_terminal (s : ChunkState) : bool := match s with Evicted => true | _ => false end.
Definition is_readable (s : ChunkState) : bool :=
  match s with Stored | Cached => true | _ => false end.
Definition is_migrating (s : ChunkState) : bool := match s with Migrating => true | _ => false end.

(** Derived [Debug] and [Display]. *)
Definition state_debug (s : ChunkState) : string :=
  match s with
  | Allocated => "Allocated" | Stored => "Stored" | Cached => "Cached"
  | Migrating => "Migrating" | Evicted => "Evicted" | Failed => "Failed"
  end.
Definition state_display (s : ChunkState) : string :=
  match s with
  | Allocated => "allocated" | Stored => "stored" | Cached => "cached"
  | Migrating => "migrating" | Evicted => "evicted" | Failed => "failed"
  end.

Definition transition_to (b : Build) (self next : ChunkState) : outcome GhostError ChunkState :=
  if is_valid_transition self next then Ok next
  else match b with
       | Debug => Panic ("Invalid chunk state transition: " +:+ state_debug self +:+ " -> "
                         +:+ state_debug next)
       | Release => Err (InvalidStateTransition (state_debug self) (state_debug next))
       end.

(** ** The tracker *)

Record StateMachine := mkSM { states : gmap ChunkId ChunkState }.

Definition SM_new : StateMachine := mkSM ∅.
Definition SM_with_capacity (_capacity : Z) : StateMachine := mkSM ∅.

Definition get_state (sm : StateMachine) (c : ChunkId) : option ChunkState := states sm !! c.

Definition register (c : ChunkId) : M StateMachine GhostError unit :=
  sm <- gets id ;;
  match states sm !! c with
  | Some _ =>
      throw (EInternal ("chunk " +:+ short_hex c +:+ " is already registered in the state machine"))
  | None => modify (fun sm => mkSM (<[c := Allocated]> (states sm)))
  end.

Definition transition (b : Build) (runtime_invariants : bool) (c : ChunkId) (next : ChunkState)
    : M StateMachine GhostError ChunkState :=
  sm <- gets id ;;
  current <- lift (ok_or (EInternal ("chunk " +:+ short_hex c +:+ " not found in state machine"))
                         (states sm !! c)) ;;
  _new <- lift (transition_to b current next) ;;
  modify (fun sm => mkSM (<[c := next]> (states sm))) ;;;
  sm <- gets id ;;
  if runtime_invariants && negb (bool_decide (states sm !! c = Some next)) then
    throw (EInternal ("State machine invariant violation: transition to "
                      +:+ state_debug next +:+ " did not persist"))
  else ret next.

Definition remove (c : ChunkId) (sm : StateMachine) : option ChunkState * StateMachine :=
  (states sm !! c, mkSM (delete c (states sm))).

Definition SM_len (sm : StateMachine) : Z := Z.of_nat (size (states sm)).
Definition SM_is_empty (sm : StateMachine) : bool := bool_decide (states sm = ∅).

Definition chunks_in_state (sm : StateMachine) (st : ChunkState) : list ChunkId :=
  btree_select (fun p => p.2 = st) (states sm).

Definition snapshot (sm : StateMachine) : gmap ChunkId ChunkState := states sm.

(** ** Runs

    Any interleaving of the mutating calls, from any thread, is a sequence of
    these operations: the tracker is always behind a mutex. *)

Inductive Op := ORegister (c : ChunkId) | OTransition (c : ChunkId) (next : ChunkState)
  | ORemove (c : ChunkId).

Definition apply_op (b : Build) (ri : bool) (o : Op) (sm : StateMachine) : StateMachine :=
  match o with
  | ORegister c => (register c sm).2
  | OTransition c next => (transition b ri c next sm).2
  | ORemove c => (remove c sm).2
  end.

Definition run (b : Build) (ri : bool) (ops : list Op) (sm : StateMachine) : StateMachine :=
  fold_left (fun sm o => apply_op b ri o sm) ops sm.

Definition edge (s t : ChunkState) : Prop := is_valid_transition s t = true.

Definition removes (c : ChunkId) (o : Op) : bool :=
  match o with ORemove c' => bool_decide (c = c') | _ => false end.

(** ** Behaviour of each operation *)

Lemma register_new c sm :
  states sm !! c = None ->
  register c sm = (Ok tt, mkSM (<[c := Allocated]> (states sm))).
Proof. intros H. unfold register, bind, gets. simpl. by rewrite H. Qed.

Lemma register_taken c s sm :
  states sm !! c = Some s ->
  is_ok (register c sm).1 = false /\ (register c sm).2 = sm.
Proof. intros H. unfold register, bind, gets. simpl. by rewrite H. Qed.

Lemma transition_valid b ri c s next sm :
  states sm !! c = Some s -> edge s next ->
  transition b ri c next sm = (Ok next, mkSM (<[c := next]> (states sm))).
Proof.
  intros Hc He. unfold transition, bind, gets, lift, modify, transition_to. simpl.
  rewrite Hc. simpl. unfold edge in He. rewrite He. simpl.
  rewrite lookup_insert_eq. rewrite bool_decide_eq_true_2 by done. simpl.
  by rewrite andb_false_r.
Qed.

Lemma transition_invalid b ri c s next sm :
  states sm !! c = Some s -> ~ edge s next ->
  transition b ri c next sm =
  (match b with
   | Debug => Panic ("Invalid chunk state transition: " +:+ state_debug s +:+ " -> "
                     +:+ state_debug next)
   | Release => Err (InvalidStateTransition (state_debug s) (state_debug next))
   end, sm).
Proof.
  intros Hc He. unfold transition, bind, gets, lift, modify, transition_to. simpl.
  rewrite Hc. simpl. unfold edge in He. rewrite (not_true_is_false _ He). by destruct b.
Qed.

Lemma transition_unregistered b ri c next sm :
  states sm !! c = None ->
  transition b ri c next sm =
  (Err (EInternal ("chunk " +:+ short_hex c +:+ " not found in state machine")), sm).
Proof. intros Hc. unfold transition, bind, gets, lift. simpl. by rewrite Hc. Qed.

#[export] Hint Rewrite register_new transition_valid transition_invalid
  transition_unregistered using done : rust.

#[global] Instance edge_dec s t : Decision (edge s t).
Proof. unfold edge. apply _. Defined.

(** C1: [StateMachine::transition] succeeds exactly on a registered chunk and
    a lifecycle edge; then only that chunk moves, to the requested state.  In
    every other case (unregistered chunk, invalid edge; error or panic) the
    tracker is unchanged.  The [runtime-invariants] self-check never fires. *)
Theorem transition_spec b ri c next sm :
  let '(r, sm') := transition b ri c next sm in
  (r = Ok next <-> exists s, get_state sm c = Some s /\ edge s next) /\
  (r = Ok next -> get_state sm' c = Some next /\
                  forall d, d <> c -> get_state sm' d = get_state sm d) /\
  (r <> Ok next -> sm' = sm).
Proof.
  unfold get_state. destruct (states sm !! c) as [s|] eqn:Hc;
    [destruct (decide (edge s next)) as [He|He]|].
  - rewrite (transition_valid b ri c s) by done. simpl.
    rewrite lookup_insert_eq. split_and!; [naive_solver| |done].
    intros _. split; [done|]. intros d Hd. by rewrite lookup_insert_ne by done.
  - rewrite (transition_invalid b ri c s) by done.
    destruct b; split_and!; naive_solver.
  - rewrite transition_unregistered by done. split_and!; naive_solver.
Qed.

(** ** Lifecycle of a chunk along a run *)

Lemma apply_op_get b ri o c sm :
  removes c o = false ->
  get_state (apply_op b ri o sm) c = get_state sm c \/
  (get_state sm c = None /\ get_state (apply_op b ri o sm) c = Some Allocated) \/
  exists s t, get_state sm c = Some s /\ edge s t /\
              get_state (apply_op b ri o sm) c = Some t.
Proof.
  unfold get_state. destruct o as [d|d next|d]; simpl; intros Hr.
  - destruct (states sm !! d) as [s|] eqn:Hd.
    + destruct (register_taken d s sm Hd) as [_ ->]. auto.
    + rewrite register_new by done. simpl.
      destruct (decide (c = d)) as [->|]; [|rewrite lookup_insert_ne by done; auto].
      rewrite lookup_insert_eq. auto.
  - destruct (states sm !! d) as [s|] eqn:Hd; [destruct (decide (edge s next))|].
    + rewrite (transition_valid b ri d s) by done. simpl.
      destruct (decide (c = d)) as [->|]; [|rewrite lookup_insert_ne by done; auto].
      rewrite lookup_insert_eq. eauto 10.
    + rewrite (transition_invalid b ri d s) by done. auto.
    + rewrite transition_unregistered by done. auto.
  - apply bool_decide_eq_false in Hr. rewrite lookup_delete_ne by done. auto.
Qed.

(** The observable state of one chunk only ever follows lifecycle edges. *)
Lemma run_path b ri ops c sm s :
  forallb (fun o => negb (removes c o)) ops = true ->
  get_state sm c = Some s ->
  exists t, get_state (run b ri ops sm) c = Some t /\ rtc edge s t.
Proof.
  revert sm s. induction ops as [|o ops IH]; intros sm s; simpl; [eauto using rtc_refl|].
  intros [Ho Hops]%andb_true_iff Hs. apply negb_true_iff in Ho.
  destruct (apply_op_get b ri o c sm Ho) as [He|[[He _]|(s' & t & Hs' & Hst & He)]].
  - apply IH; [done|]. by rewrite He.
  - congruence.
  - destruct (IH (apply_op b ri o sm) t Hops He) as (u & Hu & Hp).
    exists u. split; [done|]. assert (s' = s) as -> by congruence.
    by eapply rtc_l.
Qed.

Lemma run_path_from_new b ri ops c sm :
  forallb (fun o => negb (removes c o)) ops = true ->
  get_state sm c = None ->
  get_state (run b ri ops sm) c = None \/
  exists t, get_state (run b ri ops sm) c = Some t /\ rtc edge Allocated t.
Proof.
  revert sm. induction ops as [|o ops IH]; intros sm; simpl; [auto|].
  intros [Ho Hops]%andb_true_iff Hs. apply negb_true_iff in Ho.
  destruct (apply_op_get b ri o c sm Ho) as [He|[[_ He]|(s & t & Hs' & _)]].
  - apply IH; [done|]. by rewrite He.
  - right. by eapply run_path.
  - congruence.
Qed.

(** Edges out of the two ends of the lifecycle. *)
Lemma edge_evicted t : ~ edge Evicted t.
Proof. by destruct t. Qed.

Lemma rtc_edge_evicted t : rtc edge Evicted t -> t = Evicted.
Proof. intros H. inversion H as [|? s ? He]; subst; [done|]. by apply edge_evicted in He. Qed.

Lemma edge_into_allocated s : ~ edge s Allocated.
Proof. by destruct s. Qed.

(** One call, seen from one chunk: it moves along an edge, appears as
    [Allocated] when it is registered, or disappears when it is removed. *)
Definition chunk_step (c : ChunkId) (o : Op) (before after : option ChunkState) : Prop :=
  match before, after with
  | Some s, Some t => s = t \/ (edge s t /\ o = OTransition c t)
  | Some _, None => removes c o = true
  | None, Some t => t = Allocated /\ o = ORegister c
  | None, None => True
  end.

Lemma apply_op_step b ri o c sm :
  chunk_step c o (get_state sm c) (get_state (apply_op b ri o sm) c).
Proof.
  unfold chunk_step, get_state. destruct o as [d|d next|d]; simpl.
  - destruct (states sm !! d) as [s|] eqn:Hd.
    + destruct (register_taken d s sm Hd) as [_ ->]. destruct (states sm !! c); auto.
    + rewrite register_new by done. simpl. destruct (decide (c = d)) as [->|].
      * rewrite Hd, lookup_insert_eq. auto.
      * rewrite lookup_insert_ne by done. destruct (states sm !! c); auto.
  - destruct (states sm !! d) as [s|] eqn:Hd; [destruct (decide (edge s next))|].
    + rewrite (transition_valid b ri d s) by done. simpl. destruct (decide (c = d)) as [->|].
      * rewrite Hd, lookup_insert_eq. auto.
      * rewrite lookup_insert_ne by done. destruct (states sm !! c); auto.
    + rewrite (transition_invalid b ri d s) by done. simpl. destruct (states sm !! c); auto.
    + rewrite transition_unregistered by done. simpl. destruct (states sm !! c); auto.
  - destruct (decide (c = d)) as [->|].
    + rewrite lookup_delete_eq. destruct (states sm !! d); [by apply bool_decide_eq_true|done].
    + rewrite lookup_delete_ne by done. destruct (states sm !! c); auto.
Qed.

(** C2: in every run of the tracker, under any interleaving of calls, each call
    moves a chunk along a lifecycle edge, registers it as [Allocated], removes
    it, or leaves it alone.  Until it is removed, the states it goes through
    form a path of edges: an evicted chunk stays evicted and no chunk returns
    to [Allocated].  (A chunk that is removed can be registered anew, evicted
    or not.) *)
Theorem lifecycle_run b ri ops c sm :
  (forall pre o post, ops = pre ++ o :: post ->
     chunk_step c o (get_state (run b ri pre sm) c) (get_state (run b ri (pre ++ [o]) sm) c)) /\
  (forall s, forallb (fun o => negb (removes c o)) ops = true -> get_state sm c = Some s ->
     exists t, get_state (run b ri ops sm) c = Some t /\ rtc edge s t /\
       (s = Evicted -> t = Evicted) /\ (t = Allocated -> s = Allocated)).
Proof.
  split.
  - intros pre o post _. unfold run at 2. rewrite fold_left_app. apply apply_op_step.
  - intros s Hops Hs. destruct (run_path b ri ops c sm s Hops Hs) as (t & Ht & Hp).
    exists t. split_and!; try done.
    + intros ->. by apply rtc_edge_evicted.
    + intros ->. apply rtc_inv_r in Hp as [->|(u & _ & Hu)]; [done|].
      by apply edge_into_allocated in Hu.
Qed.

Definition cid (n : Z) : ChunkId := mkChunkId [byte_of_Z n].

Lemma lifecycle_run_witness :
  exists t, get_state (run Release true
      [OTransition (cid 1) Stored; ORegister (cid 2); OTransition (cid 1) Cached;
       OTransition (cid 1) Evicted]
      (mkSM {[cid 1 := Allocated]})) (cid 1) = Some t /\ rtc edge Allocated t /\
    (Allocated = Evicted -> t = Evicted) /\ (t = Allocated -> Allocated = Allocated).
Proof. apply (proj2 (lifecycle_run Release true _ (cid 1) _)); [vm_compute; reflexivity|reflexivity]. Defined.

(** The lifecycle has no dead end and no shortcut: every state can reach
    eviction, [Evicted] is the only terminal state, and a freshly allocated
    chunk can only become readable, or leave the system, through [Stored]. *)
Theorem lifecycle_shape s :
  rtc edge s Evicted /\
  (is_terminal s = true <-> forall t, ~ edge s t) /\
  (edge Allocated s -> s = Stored) /\
  (is_readable s = true -> forall t, edge t s -> t <> Evicted).
Proof.
  split_and!.
  - assert (rtc edge Stored Evicted) as Hs by (by apply rtc_once).
    destruct s; try done; [by apply rtc_l with Stored|by apply rtc_l with Stored
      |by apply rtc_once|by apply rtc_once].
  - split; [by destruct s, t|]. intros H. destruct s; try done; exfalso;
      [by apply (H Stored)|by apply (H Cached)|by apply (H Stored)
      |by apply (H Stored)|by apply (H Stored)].
  - by destruct s.
  - intros _ t Ht ->. by apply edge_evicted in Ht.
Qed.

Lemma lifecycle_shape_witness :
  (edge Allocated Stored -> Stored = Stored) /\ is_readable Stored = true.
Proof. split; [apply (lifecycle_shape Stored)|reflexivity]. Defined.

(** [chunks_in_state] lists exactly the chunks in that state, each once,
    in increasing order of identifier (the [BTreeMap] order that makes replay
    deterministic). *)
Theorem chunks_in_state_spec sm st :
  (forall c, c ∈ chunks_in_state sm st <-> get_state sm c = Some st) /\
  NoDup (chunks_in_state sm st) /\
  Sorted chunk_le (chunks_in_state sm st).
Proof.
  unfold chunks_in_state, get_state. split_and!.
  - intros c. rewrite elem_of_btree_select. naive_solver.
  - apply btree_select_NoDup.
  - exact (btree_select_sorted (fun p => p.2 = st) (states sm)).
Qed.
