(* ===== verification/Pressure.v ===== *)
(** * Pressure and physical cost: [ghost-core/src/state.rs], second half

    Pressures are [f32], so NaN is possible: comparisons with NaN are false,
    and the theorems say which inputs are numbers. *)

From Stdlib Require Import ZArith Lia SpecFloat.
From stdpp Require Import base list.
From S2P Require Import Prelude Floats CoreTypes.

Record PressureState := mkPressure {
  memory_pressure : float;   (* f32 *)
  vram_pressure : float;     (* f32 *)
  io_pressure : float;       (* f32 *)
  queue_depth : Z;           (* u32 *)
  throughput_bps : Z;        (* u64 *)
}.

Definition f32_zero : float := of_int f32 0.
Definition f32_one : float := of_int f32 1.
Definition f64_zero : float := of_int f64 0.
Definition f64_one : float := of_int f64 1.

Definition PressureState_new : PressureState :=
  mkPressure f32_zero f32_zero f32_zero 0 0.

Definition is_under_pressure (p : PressureState) : bool :=
  let threshold := lit f32 7 10 in
  fgt (memory_pressure p) threshold || fgt (vram_pressure p) threshold
  || fgt (io_pressure p) threshold.

Definition is_critical (p : PressureState) : bool :=
  let threshold := lit f32 9 10 in
  fgt (memory_pressure p) threshold || fgt (vram_pressure p) threshold
  || fgt (io_pressure p) threshold.

Definition worst_tier (p : PressureState) : TierId :=
  let max_pressure := memory_pressure p in
  let worst := Ram in
  let '(max_pressure, worst) :=
    if fgt (vram_pressure p) max_pressure then (vram_pressure p, GpuVram)
    else (max_pressure, worst) in
  if fgt (io_pressure p) max_pressure then Disk else worst.

Definition max_pressure (p : PressureState) : float :=
  fmax (fmax (memory_pressure p) (vram_pressure p)) (io_pressure p).

Definition clamp (p : PressureState) : PressureState :=
  mkPressure (fclamp (memory_pressure p) f32_zero f32_one)
             (fclamp (vram_pressure p) f32_zero f32_one)
             (fclamp (io_pressure p) f32_zero f32_one)
             (queue_depth p) (throughput_bps p).

(** ** Physical cost *)

Record PhysicalCost := mkCost {
  latency_ms : float;        (* f64 *)
  bandwidth_bps : float;     (* f64 *)
  reliability : float;       (* f64 *)
  cost_io_pressure : float;  (* f32 *)
  cost_queue_depth : Z;      (* u32 *)
}.

Definition PhysicalCost_new : PhysicalCost :=
  mkCost f64_zero f64_zero f64_one f32_zero 0.

Definition cost_score (c : PhysicalCost) : float :=
  let latency_factor := fmax (latency_ms c) f64_one in
  let bandwidth_factor :=
    if fgt (bandwidth_bps c) f64_zero then
      fdiv f64 f64_one
        (fmin (fdiv f64 (bandwidth_bps c) (of_int f64 1000000)) (of_int f64 100))
    else of_int f64 100 in
  let reliability_penalty :=
    fmul f64 (fsub f64 f64_one (reliability c)) (of_int f64 10) in
  let pressure_penalty := fmul f64 (cast f64 (cost_io_pressure c)) (of_int f64 5) in
  let queue_penalty :=
    fmul f64 (fmin (of_int f64 (cost_queue_depth c)) (of_int f64 100)) (lit f64 1 10) in
  fadd f64 (fadd f64 (fadd f64 (fadd f64 latency_factor bandwidth_factor)
    reliability_penalty) pressure_penalty) queue_penalty.

Definition is_too_pressured (c : PhysicalCost) : bool :=
  fgt (cost_io_pressure c) (lit f32 85 100) || (64 <? cost_queue_depth c).

(** ** Facts *)

(** The pressure a tier is responsible for. *)
Definition pressure_of (p : PressureState) (t : TierId) : float :=
  match t with
  | Ram => memory_pressure p
  | GpuVram => vram_pressure p
  | Disk => io_pressure p
  | Simulation => f32_zero
  end.

Definition numeric (p : PressureState) : Prop :=
  is_nan (memory_pressure p) = false /\ is_nan (vram_pressure p) = false /\
  is_nan (io_pressure p) = false.

Definition in_unit (x : float) : Prop :=
  fle f32_zero x = true /\ fle x f32_one = true.

Lemma fgt_weaken x lo hi : fle lo hi = true -> fgt x hi = true -> fgt x lo = true.
Proof.
  unfold fgt. intros Hlh Hx.
  destruct (FloatOrder.fle_not_nan _ _ Hlh) as [Hlo Hhi].
  destruct (FloatOrder.flt_not_nan _ _ Hx) as [_ Hnx].
  rewrite FloatOrder.flt_fle in * by done. apply negb_true_iff in Hx.
  apply negb_true_iff. apply not_true_is_false. intros Hxl.
  by rewrite (FloatOrder.fle_trans x lo hi) in Hx.
Qed.

(** Critical pressure implies pressure: whenever [is_critical] holds, so
    does [is_under_pressure], NaN inputs included; no threshold is crossed by
    a fresh pressure state. *)
Theorem critical_implies_pressure p :
  (is_critical p = true -> is_under_pressure p = true) /\
  is_under_pressure PressureState_new = false.
Proof.
  split; [|vm_compute; reflexivity].
  unfold is_critical, is_under_pressure. rewrite !orb_true_iff.
  assert (fle (lit f32 7 10) (lit f32 9 10) = true) as Hle by (vm_compute; reflexivity).
  intros [[H|H]|H]; apply (fgt_weaken _ _ _ Hle) in H; tauto.
Qed.

Lemma critical_implies_pressure_witness :
  is_critical (mkPressure f32_one f32_zero S754_nan 0 0) = true /\
  is_under_pressure (mkPressure f32_one f32_zero S754_nan 0 0) = true.
Proof.
  split; [vm_compute; reflexivity|].
  apply (proj1 (critical_implies_pressure (mkPressure f32_one f32_zero S754_nan 0 0))).
  vm_compute. reflexivity.
Defined.

(** [worst_tier] names the tier whose pressure is [max_pressure], and that
    value bounds all three dimensions from above. *)
Theorem worst_tier_spec p :
  numeric p ->
  pressure_of p (worst_tier p) = max_pressure p /\
  fle (memory_pressure p) (max_pressure p) = true /\
  fle (vram_pressure p) (max_pressure p) = true /\
  fle (io_pressure p) (max_pressure p) = true.
Proof.
  destruct p as [m v i q t]. unfold numeric, worst_tier, max_pressure, fmax, fgt. simpl.
  intros (Hm & Hv & Hi). rewrite Hm, Hv.
  assert (forall x y, is_nan x = false -> is_nan y = false -> flt x y = false ->
            fle y x = true) as Hge.
  { intros x y Hx Hy E. rewrite FloatOrder.flt_fle in E by done.
    by apply negb_false_iff in E. }
  assert (forall x y, is_nan x = false -> is_nan y = false -> flt x y = true ->
            fle x y = true) as Hle.
  { intros x y Hx Hy E. rewrite FloatOrder.flt_key in E by done.
    rewrite FloatOrder.fle_key by done. by destruct (FloatOrder.lex _ _). }
  assert (forall x, is_nan x = false -> fle x x = true) as Hrefl.
  { intros x Hx. destruct (flt x x) eqn:E; eauto. }
  destruct (flt m v) eqn:E1.
  - rewrite Hv, Hi. destruct (flt v i) eqn:E2; split_and!;
      first [reflexivity | by apply Hrefl | by apply Hle | by apply Hge
            | apply (FloatOrder.fle_trans m v i); [done..|by apply Hle|by apply Hle]].
  - rewrite Hm, Hi. destruct (flt m i) eqn:E2; split_and!;
      first [reflexivity | by apply Hrefl | by apply Hle | by apply Hge
            | apply (FloatOrder.fle_trans v m i); [done..|by apply Hge|by apply Hle]].
Qed.

Lemma worst_tier_spec_witness :
  pressure_of (mkPressure (lit f32 3 10) (lit f32 1 2) (lit f32 95 100) 0 0) Disk =
  max_pressure (mkPressure (lit f32 3 10) (lit f32 1 2) (lit f32 95 100) 0 0).
Proof.
  apply (worst_tier_spec (mkPressure (lit f32 3 10) (lit f32 1 2) (lit f32 95 100) 0 0)).
  split_and!; vm_compute; reflexivity.
Defined.

(** [clamp] brings every numeric pressure into [0, 1], leaves the counters
    alone, and is idempotent. *)
Theorem clamp_spec p :
  numeric p ->
  in_unit (memory_pressure (clamp p)) /\ in_unit (vram_pressure (clamp p)) /\
  in_unit (io_pressure (clamp p)) /\
  queue_depth (clamp p) = queue_depth p /\ throughput_bps (clamp p) = throughput_bps p /\
  clamp (clamp p) = clamp p.
Proof.
  intros (Hm & Hv & Hi).
  assert (fle f32_zero f32_one = true) as H01 by (vm_compute; reflexivity).
  assert (forall x, is_nan x = false ->
    fclamp (fclamp x f32_zero f32_one) f32_zero f32_one = fclamp x f32_zero f32_one) as Hid.
  { intros x Hx.
    destruct (FloatOrder.fclamp_range x f32_zero f32_one Hx H01) as [Hlo Hhi].
    set (y := fclamp x f32_zero f32_one) in *.
    destruct (FloatOrder.fle_not_nan _ _ Hhi) as [Hy _].
    unfold fclamp, fgt. rewrite (FloatOrder.flt_fle y f32_zero), Hlo by done. simpl.
    rewrite (FloatOrder.flt_fle f32_one y) by done. by rewrite Hhi. }
  split_and!; try done; try (by apply FloatOrder.fclamp_range).
  unfold clamp. simpl. by rewrite !Hid.
Qed.

Lemma clamp_spec_witness :
  numeric (mkPressure (lit f32 3 2) (lit f32 (-3) 10) (lit f32 1 2) 4 0) /\
  queue_depth (clamp (mkPressure (lit f32 3 2) (lit f32 (-3) 10) (lit f32 1 2) 4 0)) = 4.
Proof.
  split; [split_and!; vm_compute; reflexivity|].
  apply (clamp_spec (mkPressure (lit f32 3 2) (lit f32 (-3) 10) (lit f32 1 2) 4 0)).
  split_and!; vm_compute; reflexivity.
Defined.

(** The cost of an untouched tier, and of a RAM-like one (evaluated). *)
Example cost_score_new : cost_score PhysicalCost_new = of_int f64 101.
Proof. vm_compute. reflexivity. Qed.

Example cost_score_saturated :
  cost_score (mkCost (of_int f64 5) (of_int f64 1000000) (of_int f64 1) f32_one 200)
  = of_int f64 21.
Proof. vm_compute. reflexivity. Qed.
