(* ===== verification/Tracker.v ===== *)
(** * The allocation tracker: [ghost-tier/src/tracker.rs]

    The map of allocations is behind a mutex, the three counters are atomics.
    A call is modelled whole; the only part of it that other threads can
    interleave with in an observable way, the compare-and-swap loop on
    [peak_usage], is modelled separately as a step relation. *)

From Stdlib Require Import ZArith Lia SpecFloat.
From stdpp Require Import base gmap strings pretty sorting relations list.
From S2P Require Import Prelude Floats CoreTypes Pressure.

Open Scope rust_scope.

Record AllocationInfo := mkInfo {
  info_size : Z;
  allocated_at : Z;
  freed_at : option Z;
  backtrace : option string;
}.

Record AllocationTracker := mkTracker {
  allocations : gmap ChunkId AllocationInfo;
  total_allocated : Z;
  total_freed : Z;
  peak : Z;
}.

Definition Tracker_new : AllocationTracker := mkTracker ∅ 0 0 0.

Definition set_allocations (t : AllocationTracker) m :=
  mkTracker m (total_allocated t) (total_freed t) (peak t).
Definition set_total_allocated (t : AllocationTracker) n :=
  mkTracker (allocations t) n (total_freed t) (peak t).
Definition set_total_freed (t : AllocationTracker) n :=
  mkTracker (allocations t) (total_allocated t) n (peak t).
Definition set_peak (t : AllocationTracker) n :=
  mkTracker (allocations t) (total_allocated t) (total_freed t) n.

(** The compare-and-swap loop run without interference. *)
Definition update_peak (total current : Z) : Z :=
  if current <? total then total else current.

(** [record_allocation]; [now] is the clock, [bt] the captured backtrace.  The
    failed [debug_assert!] panics before anything is written. *)
Definition record_allocation (b : Build) (now : Z) (bt : option string) (c : ChunkId) (size : Z)
    : M AllocationTracker Empty_set unit :=
  t <- gets id ;;
  match b, allocations t !! c with
  | Debug, Some _ => panic "double allocation detected"
  | _, _ =>
      modify (fun t => set_allocations t (<[c := mkInfo size now None bt]> (allocations t))) ;;;
      old <- gets total_allocated ;;
      modify (fun t => set_total_allocated t (wrap 64 (total_allocated t + size))) ;;;
      total <- lift (arith b 64 (old + size)) ;;
      modify (fun t => set_peak t (update_peak total (peak t)))
  end.

Definition record_free (b : Build) (now : Z) (c : ChunkId)
    : M AllocationTracker Empty_set unit :=
  t <- gets id ;;
  match allocations t !! c with
  | Some info =>
      modify (fun t => set_allocations t
        (<[c := mkInfo (info_size info) (allocated_at info) (Some now) (backtrace info)]>
          (allocations t))) ;;;
      modify (fun t => set_total_freed t (wrap 64 (total_freed t + info_size info)))
  | None =>
      match b with
      | Debug => panic "free of untracked chunk"
      | Release => ret tt
      end
  end.

Definition current_usage (t : AllocationTracker) : Z :=
  sat_sub (total_allocated t) (total_freed t).

Definition peak_usage (t : AllocationTracker) : Z := peak t.

Definition fragmentation_ratio (t : AllocationTracker) : float :=
  if total_allocated t =? 0 then f64_zero
  else if total_freed t =? 0 then f64_zero
  else fclamp (fdiv f64 (of_int f64 (total_freed t)) (of_int f64 (total_allocated t)))
              f64_zero f64_one.

Definition is_live (i : AllocationInfo) : bool :=
  match freed_at i with None => true | Some _ => false end.

Definition leaked_allocations (t : AllocationTracker) : list ChunkId :=
  btree_select (fun p => is_live p.2 = true) (allocations t).

Definition total_allocation_count (t : AllocationTracker) : Z :=
  Z.of_nat (size (allocations t)).

Definition live_allocation_count (t : AllocationTracker) : Z :=
  Z.of_nat (length (filter (fun i => is_live i = true) (btree_values (allocations t)))).

Definition reset (t : AllocationTracker) : AllocationTracker := mkTracker ∅ 0 0 0.

(** ** Disciplined use

    A chunk is recorded once, and freed only while it is live. *)

Inductive TOp := TAlloc (now : Z) (c : ChunkId) (size : Z) | TFree (now : Z) (c : ChunkId).

Definition apply_top (b : Build) (o : TOp) (t : AllocationTracker)
    : outcome Empty_set unit * AllocationTracker :=
  match o with
  | TAlloc now c size => record_allocation b now None c size t
  | TFree now c => record_free b now c t
  end.

Definition disciplined (o : TOp) (t : AllocationTracker) : Prop :=
  match o with
  | TAlloc _ c size => allocations t !! c = None /\ 0 <= size /\ total_allocated t + size < 2 ^ 64
  | TFree _ c => exists i, allocations t !! c = Some i /\ is_live i = true
  end.

Inductive tracked (b : Build) : AllocationTracker -> Prop :=
  | tracked_new : tracked b Tracker_new
  | tracked_step o t t' : tracked b t -> disciplined o t ->
      t' = (apply_top b o t).2 -> tracked b t'.

(** ** The accounting invariant *)

Definition live_size (i : AllocationInfo) : Z := if is_live i then info_size i else 0.
Definition freed_size (i : AllocationInfo) : Z := if is_live i then 0 else info_size i.

Record balanced (t : AllocationTracker) : Prop := {
  bal_sizes : forall c i, allocations t !! c = Some i -> 0 <= info_size i;
  bal_allocated : total_allocated t = sum_map info_size (allocations t);
  bal_freed : total_freed t = sum_map freed_size (allocations t);
  bal_peak : peak t = total_allocated t;
  bal_width : in_u 64 (total_allocated t);
}.

Lemma sum_map_add {K V} `{Countable K} (f g : V -> Z) (m : gmap K V) :
  sum_map (fun v => f v + g v) m = sum_map f m + sum_map g m.
Proof.
  induction m as [|k v m Hk IH] using map_ind; [by rewrite !sum_map_empty|].
  rewrite !sum_map_insert by done. lia.
Qed.

Lemma sum_map_ext {K V} `{Countable K} (f g : V -> Z) (m : gmap K V) :
  (forall v, f v = g v) -> sum_map f m = sum_map g m.
Proof.
  intros Hfg. induction m as [|k v m Hk IH] using map_ind; [by rewrite !sum_map_empty|].
  rewrite !sum_map_insert, Hfg by done. lia.
Qed.

Lemma live_freed t :
  sum_map info_size (allocations t) =
  sum_map live_size (allocations t) + sum_map freed_size (allocations t).
Proof.
  rewrite <- sum_map_add. apply sum_map_ext. intros i.
  unfold live_size, freed_size. case_match; lia.
Qed.

Lemma record_allocation_ok b now bt c size t :
  allocations t !! c = None -> in_u 64 (total_allocated t + size) ->
  record_allocation b now bt c size t =
  (Ok tt, mkTracker (<[c := mkInfo size now None bt]> (allocations t))
            (total_allocated t + size) (total_freed t)
            (update_peak (total_allocated t + size) (peak t))).
Proof.
  intros Hc Hw. unfold record_allocation, bind, gets, modify, lift. simpl.
  rewrite Hc. destruct b; simpl; rewrite arith_in, wrap_in by done; done.
Qed.

Lemma record_free_ok b now c i t :
  allocations t !! c = Some i -> in_u 64 (total_freed t + info_size i) ->
  record_free b now c t =
  (Ok tt, mkTracker
            (<[c := mkInfo (info_size i) (allocated_at i) (Some now) (backtrace i)]>
              (allocations t))
            (total_allocated t) (total_freed t + info_size i) (peak t)).
Proof.
  intros Hc Hw. unfold record_free, bind, gets, modify. simpl. rewrite Hc. simpl.
  unfold set_total_freed. simpl. by rewrite wrap_in.
Qed.

Lemma balanced_new : balanced Tracker_new.
Proof. split; try done; simpl; by rewrite sum_map_empty. Qed.

Lemma balanced_freed_bound t c i :
  balanced t -> allocations t !! c = Some i -> is_live i = true ->
  0 <= total_freed t /\ total_freed t + info_size i <= total_allocated t.
Proof.
  intros [Hs Ha Hf Hp Hw] Hc Hi. rewrite Hf, Ha, live_freed.
  assert (forall c i, allocations t !! c = Some i -> 0 <= live_size i) as Hl.
  { intros c' i' H. apply Hs in H. unfold live_size. case_match; lia. }
  assert (forall c i, allocations t !! c = Some i -> 0 <= freed_size i) as Hfr.
  { intros c' i' H. apply Hs in H. unfold freed_size. case_match; lia. }
  pose proof (sum_map_ge live_size (allocations t) c i Hl Hc) as H1.
  pose proof (sum_map_nonneg freed_size (allocations t) Hfr).
  unfold live_size in H1 at 1. rewrite Hi in H1. lia.
Qed.

Lemma balanced_step b o t :
  balanced t -> disciplined o t ->
  (apply_top b o t).1 = Ok tt /\ balanced (apply_top b o t).2.
Proof.
  intros Hb. pose proof Hb as [Hs Ha Hf Hp Hw]. unfold in_u in Hw.
  destruct o as [now c sz|now c]; simpl.
  - intros (Hc & Hsz & Hlt). rewrite record_allocation_ok by first [done | unfold in_u; lia].
    split; [done|]. split; simpl.
    + intros c' i'. rewrite lookup_insert_Some. intros [[<- <-]|[_ Hin]]; simpl; eauto.
    + rewrite sum_map_insert by done. simpl. lia.
    + rewrite sum_map_insert by done. unfold freed_size at 1. simpl. lia.
    + unfold update_peak. case_match eqn:E; bool_to_prop; lia.
    + unfold in_u. lia.
  - intros (i & Hc & Hi). pose proof (balanced_freed_bound t c i Hb Hc Hi) as [? ?].
    pose proof (Hs c i Hc).
    rewrite (record_free_ok b now c i) by first [done | unfold in_u; lia].
    split; [done|]. split; simpl.
    + intros c' i'. rewrite lookup_insert_Some. intros [[<- <-]|[_ Hin]]; simpl; eauto.
    + rewrite (sum_map_update _ _ c i) by done. simpl. lia.
    + rewrite (sum_map_update _ _ c i) by done. unfold freed_size at 2 3. rewrite Hi. simpl. lia.
    + done.
    + unfold in_u. lia.
Qed.

Lemma tracked_balanced b t : tracked b t -> balanced t.
Proof.
  induction 1 as [|o t t' _ IH Hd ->]; [apply balanced_new|]. by apply balanced_step.
Qed.

(** In disciplined use, in either build profile, no call fails or panics,
    and the tracker reports exactly the live allocations: [current_usage] is
    the sum of their sizes and [leaked_allocations] lists them. *)
Theorem tracker_accounting b t :
  tracked b t ->
  current_usage t = sum_map live_size (allocations t) /\
  (forall c, c ∈ leaked_allocations t <->
             exists i, allocations t !! c = Some i /\ is_live i = true) /\
  (forall o, disciplined o t -> (apply_top b o t).1 = Ok tt).
Proof.
  intros Ht. pose proof (tracked_balanced b t Ht) as Hb. split_and!.
  - destruct Hb as [Hs Ha Hf Hp Hw]. unfold current_usage, sat_sub. rewrite Ha, Hf, live_freed.
    assert (0 <= sum_map live_size (allocations t)); [|lia].
    apply sum_map_nonneg. intros c i Hi. apply Hs in Hi. unfold live_size. case_match; lia.
  - intros c. unfold leaked_allocations. rewrite elem_of_btree_select. done.
  - intros o Ho. by apply balanced_step.
Qed.

Definition tk (n : Z) : ChunkId := mkChunkId [byte_of_Z n].

Lemma tracker_accounting_witness :
  current_usage (apply_top Debug (TFree 9 (tk 1))
    (apply_top Debug (TAlloc 2 (tk 2) 50) (apply_top Debug (TAlloc 1 (tk 1) 100) Tracker_new).2).2).2 = 50.
Proof.
  refine (eq_trans (proj1 (tracker_accounting Debug _ _)) _); [|vm_compute; reflexivity].
  eapply (tracked_step Debug (TFree 9 (tk 1))); [| |reflexivity].
  - eapply (tracked_step Debug (TAlloc 2 (tk 2) 50)); [| |reflexivity].
    + eapply (tracked_step Debug (TAlloc 1 (tk 1) 100)); [constructor| |reflexivity].
      simpl. split_and!; [reflexivity|lia|lia].
    + simpl. split_and!; [reflexivity|lia|vm_compute; reflexivity].
  - exists (mkInfo 100 1 None None). split; vm_compute; reflexivity.
Defined.

(** [peak_usage] is not the peak of [current_usage]: it always equals the
    cumulative bytes ever allocated, so it keeps growing however much is freed
    in between. *)
Theorem peak_is_cumulative b t : tracked b t -> peak_usage t = total_allocated t.
Proof. intros Ht. by destruct (tracked_balanced b t Ht). Qed.

(** Two 100-byte allocations that never overlap: usage never exceeds 100, the
    reported peak is 200. *)
Definition alloc_free_alloc : AllocationTracker :=
  (apply_top Debug (TAlloc 3 (tk 2) 100)
    (apply_top Debug (TFree 2 (tk 1)) (apply_top Debug (TAlloc 1 (tk 1) 100) Tracker_new).2).2).2.

Lemma peak_is_cumulative_witness :
  peak_usage alloc_free_alloc = 200 /\ current_usage alloc_free_alloc = 100.
Proof.
  split; [|vm_compute; reflexivity].
  refine (eq_trans (peak_is_cumulative Debug _ _) _); [|vm_compute; reflexivity].
  eapply (tracked_step Debug (TAlloc 3 (tk 2) 100)); [| |reflexivity].
  - eapply (tracked_step Debug (TFree 2 (tk 1))); [| |reflexivity].
    + eapply (tracked_step Debug (TAlloc 1 (tk 1) 100)); [constructor| |reflexivity].
      simpl. split_and!; [reflexivity|lia|lia].
    + exists (mkInfo 100 1 None None). split; vm_compute; reflexivity.
  - simpl. split_and!; [vm_compute; reflexivity|lia|vm_compute; reflexivity].
Defined.

(** Recording a chunk again after freeing it panics in a debug build, since
    [record_free] keeps the entry. *)
Lemma realloc_after_free_panics now bt c size t i :
  allocations t !! c = Some i ->
  is_panic (record_allocation Debug now bt c size t).1 = true.
Proof. intros H. unfold record_allocation, bind, gets. simpl. by rewrite H. Qed.

(** ** The compare-and-swap loop under interference *)

Module PeakCas.

(** A thread in the loop holds its [total] and the [current_peak] it last
    read; the shared word is [peak]. *)
Inductive thread := Start (total : Z) | Loop (total current : Z) | Done (total : Z).

Definition total_of (t : thread) : Z :=
  match t with Start n | Loop n _ | Done n => n end.

Record config := mkConfig { shared_peak : Z; threads : list thread }.

(** One atomic action of thread [i].  [compare_exchange_weak] may fail
    spuriously, so failure is allowed whatever the shared value is. *)
Inductive step : config -> config -> Prop :=
  | step_load p ts i n : ts !! i = Some (Start n) ->
      step (mkConfig p ts) (mkConfig p (<[i := Loop n p]> ts))
  | step_exit p ts i n c : ts !! i = Some (Loop n c) -> (c <? n) = false ->
      step (mkConfig p ts) (mkConfig p (<[i := Done n]> ts))
  | step_swap p ts i n c : ts !! i = Some (Loop n c) -> (c <? n) = true -> c = p ->
      step (mkConfig p ts) (mkConfig n (<[i := Done n]> ts))
  | step_retry p ts i n c : ts !! i = Some (Loop n c) -> (c <? n) = true ->
      step (mkConfig p ts) (mkConfig p (<[i := Loop n p]> ts)).

Definition start (p : Z) (totals : list Z) : config := mkConfig p (Start <$> totals).

Record inv (p0 : Z) (totals : list Z) (c : config) : Prop := {
  inv_totals : total_of <$> threads c = totals;
  inv_ge : p0 <= shared_peak c;
  inv_from : shared_peak c = p0 \/ shared_peak c ∈ totals;
  inv_loop : forall i n q, threads c !! i = Some (Loop n q) -> q <= shared_peak c;
  inv_done : forall i n, threads c !! i = Some (Done n) -> n <= shared_peak c;
}.

Lemma inv_start p0 totals : inv p0 totals (start p0 totals).
Proof.
  split; simpl; auto; try lia.
  - rewrite <- list_fmap_compose. apply list_fmap_id.
  - intros i n q. rewrite list_lookup_fmap. by destruct (totals !! i).
  - intros i n. rewrite list_lookup_fmap. by destruct (totals !! i).
Qed.

Lemma totals_insert (ts : list thread) (i : nat) t t' :
  ts !! i = Some t -> total_of t = total_of t' -> total_of <$> <[i := t']> ts = total_of <$> ts.
Proof.
  intros Hi Ht. rewrite list_fmap_insert. apply list_insert_id.
  rewrite list_lookup_fmap, Hi. simpl. by rewrite Ht.
Qed.

Lemma inv_step p0 totals c c' : step c c' -> inv p0 totals c -> inv p0 totals c'.
Proof.
  intros Hs [Ht Hg Hf Hl Hd]. destruct Hs as [p ts i n Hi|p ts i n q Hi E|p ts i n q Hi E ->|p ts i n q Hi E];
    simpl in *; bool_to_prop.
  - split; simpl; auto; [by rewrite (totals_insert ts i (Start n))|..];
      intros j m; [intros r|]; rewrite list_lookup_insert_Some;
      intros [(-> & ? & _)|[_ ?]]; simplify_eq; eauto; lia.
  - pose proof (Hl i n q Hi).
    split; simpl; auto; [by rewrite (totals_insert ts i (Loop n q))|..];
      intros j m; [intros r|]; rewrite list_lookup_insert_Some;
      intros [(-> & ? & _)|[_ ?]]; simplify_eq; eauto; lia.
  - split; simpl; [by rewrite (totals_insert ts i (Loop n p))|lia| |..].
    + right. rewrite <- Ht, list_elem_of_fmap. exists (Loop n p). split; [done|].
      by eapply list_elem_of_lookup_2.
    + intros j m r. rewrite list_lookup_insert_Some. intros [(-> & ? & _)|[_ H]]; simplify_eq.
      apply Hl in H. lia.
    + intros j m. rewrite list_lookup_insert_Some. intros [(-> & ? & _)|[_ H]]; simplify_eq; [lia|].
      apply Hd in H. lia.
  - split; simpl; auto; [by rewrite (totals_insert ts i (Loop n q))|..];
      intros j m; [intros r|]; rewrite list_lookup_insert_Some;
      intros [(-> & ? & _)|[_ ?]]; simplify_eq; eauto; lia.
Qed.

Lemma inv_steps p0 totals c c' : rtc step c c' -> inv p0 totals c -> inv p0 totals c'.
Proof. induction 1; eauto using inv_step. Qed.

(** However the threads' loads, successful swaps and (possibly spurious)
    failed swaps interleave, once every thread has left the loop the shared
    peak is the maximum of its old value and all the threads' totals; no
    update is lost. *)
Theorem peak_cas_max p0 totals c :
  rtc step (start p0 totals) c ->
  Forall (fun t => exists n, t = Done n) (threads c) ->
  shared_peak c = foldr Z.max p0 totals.
Proof.
  intros Hs Hd.
  destruct (inv_steps p0 totals _ _ Hs (inv_start p0 totals)) as [Ht Hg Hf _ Hdone].
  assert (forall n, n ∈ totals -> n <= shared_peak c) as Hub.
  { intros n Hn. rewrite <- Ht, list_elem_of_fmap in Hn. destruct Hn as (t & -> & Hin).
    rewrite Forall_forall in Hd. destruct (Hd t Hin) as [m ->]. simpl.
    apply list_elem_of_lookup in Hin as [i Hi]. eauto. }
  assert (foldr Z.max p0 totals <= shared_peak c) as H1.
  { clear -Hg Hub. induction totals as [|n ns IH]; simpl; [done|].
    assert (n <= shared_peak c) by (apply Hub; by left).
    assert (foldr Z.max p0 ns <= shared_peak c) by (apply IH; intros; apply Hub; by right). lia. }
  assert (shared_peak c <= foldr Z.max p0 totals) as H2.
  { clear -Hf. induction totals as [|n ns IH]; simpl.
    - destruct Hf as [->|Hf]; [lia|]. by apply not_elem_of_nil in Hf.
    - destruct Hf as [E|[E|Hin]%elem_of_cons]; [|lia|].
      + assert (shared_peak c <= foldr Z.max p0 ns) by auto. lia.
      + assert (shared_peak c <= foldr Z.max p0 ns) by auto. lia. }
  lia.
Qed.

Lemma peak_cas_max_witness :
  shared_peak (mkConfig 70 [Done 70; Done 40]) = foldr Z.max 5 [70; 40].
Proof.
  apply (peak_cas_max 5 [70; 40]).
  - eapply rtc_l; [apply (step_load 5 _ 0 70); reflexivity|simpl].
    eapply rtc_l; [apply (step_load 5 _ 1 40); reflexivity|simpl].
    eapply rtc_l; [apply (step_swap 5 _ 1 40 5); reflexivity|simpl].
    eapply rtc_l; [apply (step_retry 40 _ 0 70 5); reflexivity|simpl].
    eapply rtc_l; [apply (step_swap 40 _ 0 70 40); reflexivity|simpl].
    apply rtc_refl.
  - repeat constructor; eauto.
Defined.

End PeakCas.
