(* ===== verification/Backend.v ===== *)
(** * The storage-backend interface: [ghost-tier/src/backend.rs]

    [StorageBackend] is the trait; [BackendLaws] is what its documentation
    promises to the components that call it, stated once and discharged by
    each implementation.  The last section is the client side: moving a chunk
    between two backends by reading from one and writing to the other is
    correct for every pair of lawful backends. *)

From Stdlib Require Import ZArith Lia.
From stdpp Require Import base gmap strings pretty list.
From S2P Require Import Prelude Floats CoreTypes Pressure.

Open Scope rust_scope.

(** ** Data *)

(** A path is the list of its components. *)
Definition Path := list string.

(** [DiskAllocation] of [ghost-tier/src/disk.rs]. *)
Record DiskAllocation := mkDiskAlloc {
  da_chunk_id : ChunkId;
  file_path : Path;
  original_size : Z;
  da_compressed_size : Z;
  disk_size : Z;
  reserved_size : Z;
  da_compression : CompressionAlgorithm;
  content_hash : list byte;
}.

#[global] Instance DiskAllocation_eq_dec : EqDecision DiskAllocation.
Proof. solve_decision. Defined.

(** [BackendData] boxes one of the types the backends put in it; its
    [downcast_ref] succeeds on the matching one. *)
Inductive BackendData := BDSize (n : Z) | BDUnit | BDDisk (d : DiskAllocation).

Definition downcast_disk (d : BackendData) : option DiskAllocation :=
  match d with BDDisk a => Some a | _ => None end.

Record Allocation := mkAllocation {
  offset : Z;
  alloc_size : Z;
  backend_data : BackendData;
}.

Inductive BackendError :=
  | InsufficientSpace (requested available : Z)
  | AllocationNotFound (off : Z)
  | WriteFailed (msg : string)
  | ReadFailed (msg : string)
  | IntegrityFailed (msg : string)
  | Unhealthy (msg : string)
  | NotSupported (msg : string)
  | BInternal (msg : string).

Definition backend_error_display (e : BackendError) : string :=
  match e with
  | InsufficientSpace r a => "insufficient space: requested " +:+ pretty r +:+ ", available " +:+ pretty a
  | AllocationNotFound o => "allocation not found at offset " +:+ pretty o
  | WriteFailed m => "write failed: " +:+ m
  | ReadFailed m => "read failed: " +:+ m
  | IntegrityFailed m => "integrity check failed: " +:+ m
  | Unhealthy m => "backend unhealthy: " +:+ m
  | NotSupported m => "operation not supported: " +:+ m
  | BInternal m => "internal error: " +:+ m
  end.

Definition size_mismatch (what1 : string) (n : nat) (what2 : string) (m : Z) : string :=
  what1 +:+ pretty (Z.of_nat n) +:+ what2 +:+ pretty m.

(** [buf[..len].copy_from_slice(&data[..len])] with [len = min]. *)
Definition copy_prefix (buf data : list byte) : list byte :=
  let len := Nat.min (length buf) (length data) in
  take len data ++ drop len buf.

Lemma length_copy_prefix buf data : length (copy_prefix buf data) = length buf.
Proof. unfold copy_prefix. rewrite length_app, length_take, length_drop. lia. Qed.

Lemma copy_prefix_full buf data :
  length buf = length data -> copy_prefix buf data = data.
Proof.
  intros H. unfold copy_prefix. rewrite H, Nat.min_id, firstn_all.
  rewrite <- H, drop_all. apply app_nil_r.
Qed.

(** ** The trait *)

Class StorageBackend (S : Type) := {
  be_id : S -> TierId;
  be_capacity : S -> Z;
  be_allocate : Z -> M S BackendError Allocation;
  be_deallocate : Allocation -> M S BackendError unit;
  be_write : Allocation -> list byte -> M S BackendError unit;
  be_read : Allocation -> list byte -> M S BackendError (list byte);
}.

(** ** What an implementation promises

    [contents s a] is the data last written to allocation [a]; [owns s a] says
    that [a] was handed out by this backend and not returned yet; [be_inv s]
    is what the implementation needs in order to serve the next call. *)
Class BackendLaws (S : Type) `{StorageBackend S} := {
  be_inv : S -> Prop;
  owns : S -> Allocation -> Prop;
  contents : S -> Allocation -> option (list byte);

  (** A successful write is readable back; the allocation stays owned. *)
  be_write_ok a d s s' :
    be_inv s -> owns s a -> be_write a d s = (Ok tt, s') ->
    contents s' a = Some d /\ owns s' a /\
    (length d <= Z.to_nat (alloc_size a))%nat;

  (** A successful read returns the prefix of what was written, and changes
      neither ownership nor contents. *)
  be_read_ok a buf s r s' :
    be_inv s -> owns s a -> be_read a buf s = (Ok r, s') ->
    owns s' a /\ contents s' a = contents s a /\
    exists d, contents s a = Some d /\ r = copy_prefix buf d;
}.

(** ** Bookkeeping

    [books k s live]: the backend [s] has handed out exactly the ranges of
    [live] (offset to size), accounts for them, and its counters have room for
    requests of [k] more units, a byte allocated or an I/O request each being
    one unit.  An implementation that keeps its books never panics within that
    room, forgets an allocation exactly when it is returned, and never refuses
    to take back what it handed out. *)
Class BackendBooks (S : Type) `{StorageBackend S} := {
  books : Z -> S -> gmap Z Z -> Prop;
  bytes_used : S -> Z;

  books_used k s live : books k s live -> bytes_used s = sum_map id live;
  books_weaken k k' s live : books k s live -> k' <= k -> books k' s live;

  books_allocate k n s live :
    books k s live -> 0 <= n <= k ->
    match be_allocate n s with
    | (Ok a, s') => alloc_size a = n /\ live !! offset a = None /\
                    books (k - n) s' (<[offset a := n]> live)
    | (Err _, s') => books (k - n) s' live
    | (Panic _, _) => False
    end;

  books_deallocate k a s live :
    books k s live -> live !! offset a = Some (alloc_size a) ->
    exists s', be_deallocate a s = (Ok tt, s') /\ books k s' (delete (offset a) live);

  books_write k a d s live :
    books k s live -> 1 <= k -> live !! offset a = Some (alloc_size a) ->
    is_panic (be_write a d s).1 = false /\ books (k - 1) (be_write a d s).2 live;

  books_read k a buf s live :
    books k s live -> 1 <= k -> live !! offset a = Some (alloc_size a) ->
    is_panic (be_read a buf s).1 = false /\ books (k - 1) (be_read a buf s).2 live;

  (** The buffer of a read keeps its length. *)
  books_read_length k a buf s live r s' :
    books k s live -> 1 <= k -> be_read a buf s = (Ok r, s') -> length r = length buf;
}.

(** ** Bump allocation

    The RAM and the simulated backend hand out ever-increasing offsets and
    account for the bytes in use.  [live] maps the offsets handed out and not
    yet returned to their sizes. *)

Record bump_inv (cap next used : Z) (live : gmap Z Z) : Prop := {
  bi_cap : in_u 64 cap;
  bi_used : used = sum_map id live;
  bi_le : used <= cap;
  bi_pos : forall o n, live !! o = Some n -> 0 < n;
  bi_next : in_u 64 next;
  bi_below : forall o n, live !! o = Some n -> 0 <= o /\ o + n <= next;
  bi_disjoint : forall o1 n1 o2 n2, live !! o1 = Some n1 -> live !! o2 = Some n2 ->
     o1 < o2 -> o1 + n1 <= o2;
}.

Section bump.
Context (cap next used : Z) (live : gmap Z Z).

Lemma bump_new : in_u 64 cap -> bump_inv cap 0 0 ∅.
Proof.
  intros Hc. unfold in_u in *. split; try done; try (unfold in_u; lia); by rewrite sum_map_empty.
Qed.

Context (Hi : bump_inv cap next used live).

Lemma bump_used_nonneg : 0 <= used.
Proof using Hi.
  rewrite (bi_used _ _ _ _ Hi). apply sum_map_nonneg. intros o n Hn.
  apply (bi_pos _ _ _ _ Hi) in Hn. unfold id. lia.
Qed.

Lemma bump_fresh : live !! next = None.
Proof using Hi.
  destruct (live !! next) as [n|] eqn:E; [|done].
  pose proof (bi_pos _ _ _ _ Hi _ _ E). apply (bi_below _ _ _ _ Hi) in E. lia.
Qed.

Lemma bump_live_le o n : live !! o = Some n -> n <= used.
Proof using Hi.
  intros E. rewrite (bi_used _ _ _ _ Hi). apply (sum_map_ge id live o n); [|done].
  intros o' n' Hn. apply (bi_pos _ _ _ _ Hi) in Hn. unfold id. lia.
Qed.

Lemma bump_alloc size :
  0 < size -> used + size <= cap -> next + size < 2 ^ 64 ->
  bump_inv cap (next + size) (used + size) (<[next := size]> live).
Proof using Hi.
  intros Hs Hc Hw. pose proof bump_fresh. destruct Hi as [Hcap Hu Hle Hpos Hnx Hb Hd].
  unfold in_u in *. split; try done; try (unfold in_u; lia).
  - rewrite sum_map_insert by done. unfold id at 1. lia.
  - intros o n. rewrite lookup_insert_Some. intros [[<- <-]|[_ E]]; [lia|eauto].
  - intros o n. rewrite lookup_insert_Some. intros [[<- <-]|[_ E]]; [lia|].
    apply Hb in E. lia.
  - intros o1 n1 o2 n2. rewrite !lookup_insert_Some.
    intros [[<- <-]|[? E1]] [[<- <-]|[? E2]] Hlt; [lia| | |by eapply Hd].
    + apply Hpos in E2 as ?. apply Hb in E2. lia.
    + apply Hb in E1. lia.
Qed.

Lemma bump_free o n :
  live !! o = Some n -> bump_inv cap next (used - n) (delete o live).
Proof using Hi.
  intros E. pose proof (bi_pos _ _ _ _ Hi _ _ E). destruct Hi as [Hcap Hu Hle Hpos Hnx Hb Hd].
  split; try done; try lia.
  - rewrite (sum_map_delete _ _ _ n) by done. unfold id in *. lia.
  - intros o' n' [_ E']%lookup_delete_Some. eauto.
  - intros o' n' [_ E']%lookup_delete_Some. eauto.
  - intros o1 n1 o2 n2 [_ E1]%lookup_delete_Some [_ E2]%lookup_delete_Some. eauto.
Qed.

Lemma bump_ranges_disjoint o1 n1 o2 n2 :
  live !! o1 = Some n1 -> live !! o2 = Some n2 -> o1 <> o2 ->
  o1 + n1 <= o2 \/ o2 + n2 <= o1.
Proof using Hi.
  intros E1 E2 Hne. pose proof (bi_disjoint _ _ _ _ Hi) as Hd.
  destruct (Z.lt_trichotomy o1 o2) as [Hlt|[?|Hlt]]; [left|done|right]; eauto.
Qed.
End bump.

(** ** A client: moving a chunk between tiers *)

Section move.
Context {S T : Type} `{LS : BackendLaws S} `{LT : BackendLaws T}.

(** Read [len] bytes from [a] in the source backend, write them to [b] in the
    destination backend. *)
Definition move_chunk (a b : Allocation) (len : nat)
    : M (S * T) BackendError (list byte) := fun st =>
  match be_read a (replicate len Byte.x00) st.1 with
  | (Ok buf, s') =>
      match be_write b buf st.2 with
      | (Ok _, t') => (Ok buf, (s', t'))
      | (Err e, t') => (Err e, (s', t'))
      | (Panic m, t') => (Panic m, (s', t'))
      end
  | (Err e, s') => (Err e, (s', st.2))
  | (Panic m, s') => (Panic m, (s', st.2))
  end.

(** If the move reports success, the destination holds exactly the bytes the
    source held (of the requested length), and the source still holds them. *)
Lemma move_chunk_ok a b d s t r s' t' :
  be_inv s -> be_inv t -> owns s a -> owns t b ->
  contents s a = Some d ->
  move_chunk a b (length d) (s, t) = (Ok r, (s', t')) ->
  r = d /\ contents t' b = Some d /\ contents s' a = Some d.
Proof.
  intros Hs Ht Ha Hb Hd. unfold move_chunk. simpl.
  destruct (be_read a (replicate (length d) Byte.x00) s) as [[buf|e|m] s1] eqn:Er; try done.
  destruct (be_write b buf t) as [[[]|e|m] t1] eqn:Ew; try done.
  intros [= <- <- <-].
  destruct (be_read_ok a _ s buf s1 Hs Ha Er) as (_ & Hc & d' & Hd' & ->).
  assert (d' = d) as -> by congruence.
  rewrite copy_prefix_full in * by (by rewrite length_replicate).
  destruct (be_write_ok b d t t1 Ht Hb Ew) as (Hw & _).
  split_and!; congruence.
Qed.
End move.
