(* ===== verification/Ram.v ===== *)
(** * The RAM backend: [ghost-tier/src/ram.rs]

    A bump allocator over a map from offset to bytes.  Offsets are never
    reused, so the theorems hold as long as fewer than 2^64 bytes have been
    handed out in total.  [Allocation] is neither [Clone] nor [Copy] and
    [deallocate] consumes it, so the runs considered return each allocation at
    most once. *)

From Stdlib Require Import ZArith Lia SpecFloat.
From stdpp Require Import base gmap strings pretty relations list.
From S2P Require Import Prelude Floats CoreTypes Pressure Backend.

Open Scope rust_scope.

Record RamBackend := mkRam {
  ram_id : TierId;
  ram_capacity : Z;
  storage : gmap Z (list byte);
  next_offset : Z;
  used : Z;
}.

Definition Ram_new (capacity : Z) : RamBackend := mkRam Ram capacity ∅ 0 0.
Definition Ram_with_id (t : TierId) (capacity : Z) : RamBackend := mkRam t capacity ∅ 0 0.

Definition set_storage (r : RamBackend) m :=
  mkRam (ram_id r) (ram_capacity r) m (next_offset r) (used r).
Definition set_next_offset (r : RamBackend) n :=
  mkRam (ram_id r) (ram_capacity r) (storage r) n (used r).
Definition set_used (r : RamBackend) n :=
  mkRam (ram_id r) (ram_capacity r) (storage r) (next_offset r) n.

Section ops.
Context (b : Build).

Definition available : M RamBackend BackendError Z :=
  r <- gets id ;; lift (arith b 64 (ram_capacity r - used r)).

Definition allocate (size : Z) : M RamBackend BackendError Allocation :=
  if size =? 0 then throw (BInternal "cannot allocate zero bytes")
  else
    r <- gets id ;;
    total <- lift (arith b 64 (used r + size)) ;;
    if ram_capacity r <? total then
      avail <- lift (arith b 64 (ram_capacity r - used r)) ;;
      throw (InsufficientSpace size avail)
    else
      off <- gets next_offset ;;
      next <- lift (arith b 64 (off + size)) ;;
      modify (fun r => set_next_offset r next) ;;;
      r <- gets id ;;
      u <- lift (arith b 64 (used r + size)) ;;
      modify (fun r => set_used r u) ;;;
      ret (mkAllocation off size (BDSize size)).

Definition deallocate (a : Allocation) : M RamBackend BackendError unit :=
  modify (fun r => set_storage r (delete (offset a) (storage r))) ;;;
  r <- gets id ;;
  u <- lift (arith b 64 (used r - alloc_size a)) ;;
  modify (fun r => set_used r u).

Definition write (a : Allocation) (data : list byte) : M RamBackend BackendError unit :=
  if alloc_size a <? Z.of_nat (length data) then
    throw (WriteFailed (size_mismatch "data size " (length data)
                          " exceeds allocation size " (alloc_size a)))
  else
    modify (fun r => set_storage r (<[offset a := data]> (storage r))).

Definition read (a : Allocation) (buf : list byte) : M RamBackend BackendError (list byte) :=
  if alloc_size a <? Z.of_nat (length buf) then
    throw (ReadFailed (size_mismatch "buffer size " (length buf)
                         " exceeds allocation size " (alloc_size a)))
  else
    r <- gets id ;;
    match storage r !! offset a with
    | Some data => ret (copy_prefix buf data)
    | None => throw (AllocationNotFound (offset a))
    end.
End ops.

Definition verify_integrity `{Blake3} (a : Allocation) (expected : list byte)
    : M RamBackend BackendError unit :=
  r <- gets id ;;
  match storage r !! offset a with
  | Some data =>
      if decide (blake3 data = expected) then ret tt
      else throw (IntegrityFailed ("hash mismatch at offset " +:+ pretty (offset a)))
  | None => throw (AllocationNotFound (offset a))
  end.

Definition health_check : M RamBackend BackendError unit := ret tt.

Definition ram_pressure_value (r : RamBackend) : float :=
  if 0 <? ram_capacity r
  then fdiv f32 (of_int f32 (used r)) (of_int f32 (ram_capacity r))
  else f32_zero.

Definition pressure (r : RamBackend) : PressureState :=
  mkPressure (ram_pressure_value r) f32_zero f32_zero 0 0.

Definition cost_model (r : RamBackend) : PhysicalCost :=
  mkCost (lit f64 1 100) (of_int f64 10000000000) f64_one (ram_pressure_value r) 0.

#[export] Instance ram_backend (b : Build) : StorageBackend RamBackend := {|
  be_id := ram_id;
  be_capacity := ram_capacity;
  be_allocate := allocate b;
  be_deallocate := deallocate b;
  be_write := write;
  be_read := read;
|}.

(** ** Runs with ownership

    [live] maps the offsets handed out and not yet returned to their size. *)

Inductive ROp :=
  | RAlloc (size : Z)
  | RDealloc (a : Allocation)
  | RWrite (a : Allocation) (data : list byte)
  | RRead (a : Allocation) (buf : list byte).

Definition owned (live : gmap Z Z) (a : Allocation) : Prop :=
  live !! offset a = Some (alloc_size a).

(** The precondition of a call: sizes are [usize] values, the bytes handed out
    so far stay below 2^64, and only owned allocations are passed. *)
Definition may_call (o : ROp) (r : RamBackend) (live : gmap Z Z) : Prop :=
  match o with
  | RAlloc size => 0 <= size /\ used r + size < 2 ^ 64 /\ next_offset r + size < 2 ^ 64
  | RDealloc a | RWrite a _ | RRead a _ => owned live a
  end.

Definition exec (b : Build) (o : ROp) (r : RamBackend) (live : gmap Z Z)
    : RamBackend * gmap Z Z :=
  match o with
  | RAlloc size =>
      match allocate b size r with
      | (Ok a, r') => (r', <[offset a := alloc_size a]> live)
      | (_, r') => (r', live)
      end
  | RDealloc a => ((deallocate b a r).2, delete (offset a) live)
  | RWrite a d => ((write a d r).2, live)
  | RRead a buf => ((read a buf r).2, live)
  end.

Inductive ram_reach (b : Build) (t : TierId) (cap : Z) : RamBackend -> gmap Z Z -> Prop :=
  | reach_new : ram_reach b t cap (Ram_with_id t cap) ∅
  | reach_step o r live r' live' :
      ram_reach b t cap r live -> may_call o r live ->
      exec b o r live = (r', live') -> ram_reach b t cap r' live'.

(** ** The allocator invariant *)

Record ram_inv (r : RamBackend) (live : gmap Z Z) : Prop := {
  ri_bump : bump_inv (ram_capacity r) (next_offset r) (used r) live;
  ri_stored : forall o d, storage r !! o = Some d ->
     exists n, live !! o = Some n /\ Z.of_nat (length d) <= n;
}.

Lemma ram_inv_bounds r live :
  ram_inv r live -> 0 <= used r <= ram_capacity r /\ in_u 64 (ram_capacity r) /\
  in_u 64 (next_offset r).
Proof.
  intros [Hb _]. pose proof (bump_used_nonneg _ _ _ _ Hb). by destruct Hb.
Qed.

Lemma ram_inv_new t cap : in_u 64 cap -> ram_inv (Ram_with_id t cap) ∅.
Proof. intros Hc. split; [by apply bump_new|done]. Qed.

(** What [allocate] does on each branch. *)
Lemma allocate_zero b r :
  allocate b 0 r = (Err (BInternal "cannot allocate zero bytes"), r).
Proof. done. Qed.

Lemma allocate_full b size r live :
  ram_inv r live -> 0 < size -> used r + size < 2 ^ 64 -> ram_capacity r < used r + size ->
  allocate b size r = (Err (InsufficientSpace size (ram_capacity r - used r)), r).
Proof.
  intros Hi Hs Hw Hc. destruct (ram_inv_bounds _ _ Hi) as (? & Hcap & _). unfold in_u in Hcap.
  unfold allocate, bind, gets, lift, throw. rewrite (proj2 (Z.eqb_neq size 0)) by lia.
  unfold id. rewrite arith_in by (unfold in_u; lia).
  rewrite (proj2 (Z.ltb_lt _ _)) by done. by rewrite arith_in by (unfold in_u; lia).
Qed.

Lemma allocate_fits b size r live :
  ram_inv r live -> 0 < size -> used r + size <= ram_capacity r ->
  next_offset r + size < 2 ^ 64 ->
  allocate b size r =
  (Ok (mkAllocation (next_offset r) size (BDSize size)),
   mkRam (ram_id r) (ram_capacity r) (storage r) (next_offset r + size) (used r + size)).
Proof.
  intros Hi Hs Hc Hw. destruct (ram_inv_bounds _ _ Hi) as (? & Hcap & Hn). unfold in_u in *.
  unfold allocate, bind, gets, lift, modify, ret. rewrite (proj2 (Z.eqb_neq size 0)) by lia.
  unfold id. rewrite arith_in by (unfold in_u; lia).
  rewrite (proj2 (Z.ltb_ge _ _)) by lia. rewrite arith_in by (unfold in_u; lia).
  unfold set_next_offset. simpl. by rewrite arith_in by (unfold in_u; lia).
Qed.

Lemma deallocate_owned b a r live :
  ram_inv r live -> owned live a ->
  deallocate b a r =
  (Ok tt, mkRam (ram_id r) (ram_capacity r) (delete (offset a) (storage r))
            (next_offset r) (used r - alloc_size a)).
Proof.
  intros Hi Ha. destruct (ram_inv_bounds _ _ Hi) as (? & Hcap & _). unfold in_u in Hcap.
  pose proof (bump_live_le _ _ _ _ (ri_bump _ _ Hi) _ _ Ha).
  pose proof (bi_pos _ _ _ _ (ri_bump _ _ Hi) _ _ Ha).
  unfold deallocate, bind, gets, lift, modify, id. simpl.
  by rewrite arith_in by (unfold in_u; lia).
Qed.

(** ** The invariant is inductive *)

Lemma inv_alloc b size r live r' live' :
  ram_inv r live -> may_call (RAlloc size) r live ->
  exec b (RAlloc size) r live = (r', live') -> ram_inv r' live'.
Proof.
  intros Hi (Hs & Hw & Hn) He. unfold exec in He.
  destruct (decide (size = 0)) as [->|Hz].
  { rewrite allocate_zero in He. by simplify_eq. }
  destruct (decide (used r + size <= ram_capacity r)) as [Hc|Hc].
  2:{ rewrite (allocate_full b size r live) in He by (done || lia). by simplify_eq. }
  rewrite (allocate_fits b size r live) in He by (done || lia). simplify_eq/=.
  destruct Hi as [Hb Hst]. split; simpl.
  - apply bump_alloc; [done|lia|done|done].
  - intros o d E. apply Hst in E as (n & E & ?). exists n. split; [|done].
    rewrite lookup_insert_ne; [done|]. pose proof (bump_fresh _ _ _ _ Hb). congruence.
Qed.

Lemma inv_dealloc b a r live r' live' :
  ram_inv r live -> owned live a ->
  exec b (RDealloc a) r live = (r', live') -> ram_inv r' live'.
Proof.
  intros Hi Ha He. unfold exec in He.
  rewrite (deallocate_owned b a r live) in He by done. simplify_eq/=.
  destruct Hi as [Hb Hst]. split; simpl; [by apply bump_free|].
  intros o d [Hne E]%lookup_delete_Some. apply Hst in E as (n & E & ?).
  exists n. split; [|done]. by rewrite lookup_delete_ne by congruence.
Qed.

Lemma inv_write a d r live :
  ram_inv r live -> owned live a -> ram_inv (write a d r).2 live.
Proof.
  intros Hi Ha. unfold write, modify, throw. case_match eqn:E; [done|]. bool_to_prop.
  destruct Hi as [Hb Hst]. split; simpl; [done|].
  intros o d'. rewrite lookup_insert_Some. intros [[<- <-]|[_ H]]; eauto.
Qed.

Lemma read_state a buf r : (read a buf r).2 = r.
Proof. unfold read, bind, gets, throw, ret, id. repeat case_match; simplify_eq; done. Qed.

Lemma ram_reach_inv b t cap r live :
  in_u 64 cap -> ram_reach b t cap r live -> ram_inv r live.
Proof.
  intros Hc. induction 1 as [|o r live r' live' _ IH Hm He]; [by apply ram_inv_new|].
  destruct o as [size|a|a d|a buf]; simpl in Hm.
  - by eapply inv_alloc.
  - by eapply inv_dealloc.
  - simpl in He. simplify_eq. by apply inv_write.
  - simpl in He. simplify_eq. by rewrite read_state.
Qed.

(** C12: allocator safety.  After any sequence of calls that returns each
    allocation at most once, in either build profile: [used] is exactly the
    sum of the live sizes and never exceeds the capacity, live allocations
    occupy pairwise disjoint byte ranges, and data is stored only at live
    offsets. *)
Theorem ram_allocator_safe b t cap r live :
  in_u 64 cap -> ram_reach b t cap r live ->
  used r = sum_map id live /\ used r <= ram_capacity r /\
  (forall o1 n1 o2 n2, live !! o1 = Some n1 -> live !! o2 = Some n2 -> o1 <> o2 ->
     o1 + n1 <= o2 \/ o2 + n2 <= o1) /\
  (forall o d, storage r !! o = Some d -> is_Some (live !! o)).
Proof.
  intros Hc Hr. pose proof (ram_reach_inv b t cap r live Hc Hr) as [Hb Hst].
  split_and!; [apply Hb|apply Hb|by eapply bump_ranges_disjoint|].
  intros o d E. apply Hst in E as (n & E & _). eauto.
Qed.

Definition two_allocs : RamBackend * gmap Z Z :=
  let '(r1, l1) := exec Debug (RAlloc 40) (Ram_new 100) ∅ in
  exec Debug (RAlloc 25) r1 l1.

Lemma ram_allocator_safe_witness :
  used two_allocs.1 = sum_map id two_allocs.2 /\ used two_allocs.1 = 65.
Proof.
  split; [|vm_compute; reflexivity].
  apply (ram_allocator_safe Debug Ram 100); [unfold in_u; lia|].
  unfold two_allocs.
  destruct (exec Debug (RAlloc 40) (Ram_new 100) ∅) as [r1 l1] eqn:E1.
  destruct (exec Debug (RAlloc 25) r1 l1) as [r2 l2] eqn:E2.
  eapply reach_step; [| |exact E2].
  - eapply reach_step; [constructor| |exact E1]. simpl. lia.
  - vm_compute in E1. simplify_eq. simpl. lia.
Defined.

(** Every branch of [allocate], [deallocate], [write] and [read] in a
    reachable state: zero-size and over-capacity requests are refused with the
    documented errors and no effect; a request that fits is granted at the
    bump pointer; returning an owned allocation always succeeds; writes and
    reads longer than the allocation are refused.  No call panics. *)
Theorem ram_call_outcomes b t cap r live o :
  in_u 64 cap -> ram_reach b t cap r live -> may_call o r live ->
  match o with
  | RAlloc size =>
      if size =? 0 then allocate b size r = (Err (BInternal "cannot allocate zero bytes"), r)
      else if ram_capacity r <? used r + size then
        allocate b size r = (Err (InsufficientSpace size (ram_capacity r - used r)), r)
      else (allocate b size r).1 = Ok (mkAllocation (next_offset r) size (BDSize size))
  | RDealloc a => (deallocate b a r).1 = Ok tt
  | RWrite a d => is_ok (write a d r).1 = (Z.of_nat (length d) <=? alloc_size a)
  | RRead a buf =>
      is_ok (read a buf r).1 =
      (Z.of_nat (length buf) <=? alloc_size a) && bool_decide (is_Some (storage r !! offset a))
  end.
Proof.
  intros Hc Hr Hm. pose proof (ram_reach_inv b t cap r live Hc Hr) as Hi.
  destruct o as [size|a|a d|a buf]; simpl in Hm.
  - destruct Hm as (Hs & Hw & Hn). case_match eqn:E0; bool_to_prop; [by subst|].
    case_match eqn:E1; bool_to_prop.
    + by rewrite (allocate_full b size r live) by (done || lia).
    + by rewrite (allocate_fits b size r live) by (done || lia).
  - by rewrite (deallocate_owned b a r live).
  - unfold write, modify, throw. rewrite Z.leb_antisym. by case_match.
  - unfold read, bind, gets, throw, ret, id. rewrite Z.leb_antisym. case_match; [done|].
    simpl. by destruct (storage r !! offset a).
Qed.

Lemma ram_call_outcomes_witness :
  allocate Release 200 (Ram_new 100) = (Err (InsufficientSpace 200 100), Ram_new 100).
Proof.
  apply (ram_call_outcomes Release Ram 100 (Ram_new 100) ∅ (RAlloc 200));
    [unfold in_u; lia|constructor|simpl; lia].
Defined.

(** ** The interface laws *)

(** Bytes last written through an allocation. *)
Definition ram_contents (r : RamBackend) (a : Allocation) : option (list byte) :=
  storage r !! offset a.

#[export] Instance ram_laws (b : Build) : @BackendLaws RamBackend (ram_backend b).
Proof.
  refine {| be_inv := fun _ => True; owns := fun _ _ => True; contents := ram_contents |}.
  - intros a d s s' _ _. simpl. unfold write, modify, throw, ram_contents.
    case_match eqn:E; [done|]. intros [= <-]. simpl. rewrite lookup_insert_eq.
    bool_to_prop. split_and!; [done|done|lia].
  - intros a buf s r s' _ _. simpl. intros Hr. pose proof (read_state a buf s) as Hs.
    rewrite Hr in Hs. simpl in Hs. subst s'. split_and!; [done|done|].
    revert Hr. unfold read, bind, gets, throw, ret, id, ram_contents.
    case_match; [done|]. case_match; [|done]. intros [= <-]. eauto.
Defined.

Definition ram_books (k : Z) (r : RamBackend) (live : gmap Z Z) : Prop :=
  ram_inv r live /\ next_offset r + k < 2 ^ 64 /\ ram_capacity r + k < 2 ^ 64.

#[export] Instance ram_keeps_books (b : Build) : @BackendBooks RamBackend (ram_backend b).
Proof.
  refine {| books := ram_books; bytes_used := used |}; simpl; unfold ram_books.
  - intros k s live (Hi & _). apply (bi_used _ _ _ _ (ri_bump _ _ Hi)).
  - intros k k' s live (Hi & ? & ?) Hk. split_and!; [done|lia..].
  - intros k n s live (Hi & Hn & Hc) Hk. destruct (ram_inv_bounds _ _ Hi) as (Hu & _ & _).
    destruct (decide (n = 0)) as [->|Hz]; [rewrite allocate_zero; split_and!; [done|lia..]|].
    destruct (decide (used s + n <= ram_capacity s)) as [Hf|Hf].
    + rewrite (allocate_fits b n s live) by (done || lia). simpl.
      pose proof (ri_bump _ _ Hi) as Hb. split_and!; [done|by eapply bump_fresh| |lia..].
      apply (inv_alloc b n s live _ _ Hi); [simpl; lia|]. unfold exec.
      by rewrite (allocate_fits b n s live) by (done || lia).
    + rewrite (allocate_full b n s live) by (done || lia). split_and!; [done|lia..].
  - intros k a s live (Hi & Hn & Hc) Ha. rewrite (deallocate_owned b a s live) by done.
    eexists. split; [done|]. simpl. split_and!; [|lia..].
    apply (inv_dealloc b a s live _ _ Hi Ha). unfold exec.
    by rewrite (deallocate_owned b a s live) by done.
  - intros k a d s live (Hi & Hn & Hc) Hk Ha. pose proof (inv_write a d s live Hi Ha) as Hw.
    revert Hw. unfold write, modify, throw. case_match; simpl; intros Hw; split_and!; try done; lia.
  - intros k a buf s live (Hi & Hn & Hc) Hk Ha. rewrite read_state. split; [|split_and!; [done|lia..]].
    unfold read, bind, gets, throw, ret, id. repeat case_match; simplify_eq; done.
  - intros k a buf s live r s' _ _. unfold read, bind, gets, throw, ret, id.
    repeat case_match; intros; simplify_eq. apply length_copy_prefix.
Defined.

(** Data written to a RAM allocation is read back unchanged, whatever
    calls on other allocations happen in between. *)
Theorem ram_write_read b t cap r live a d ops r' live' :
  in_u 64 cap -> ram_reach b t cap r live -> owned live a ->
  Z.of_nat (length d) <= alloc_size a ->
  (* the calls in between do not write to or return [a] *)
  Forall (fun o => match o with
                   | RDealloc a' | RWrite a' _ => offset a' <> offset a
                   | _ => True end) ops ->
  rtc (fun s s' => exists o, o ∈ ops /\ may_call o s.1 s.2 /\ exec b o s.1 s.2 = s')
      ((write a d r).2, live) (r', live') ->
  read a (replicate (length d) Byte.x00) r' = (Ok d, r').
Proof.
  intros Hc Hr Ha Hlen Hops Hrun.
  assert (storage (write a d r).2 !! offset a = Some d) as Hd.
  { unfold write, modify, throw. rewrite (proj2 (Z.ltb_ge _ _)) by lia. simpl.
    apply lookup_insert_eq. }
  assert (storage r' !! offset a = Some d) as Hd'.
  { assert (forall s s', rtc (fun s s' => exists o, o ∈ ops /\ may_call o s.1 s.2 /\
        exec b o s.1 s.2 = s') s s' -> storage s.1 !! offset a = Some d ->
        storage s'.1 !! offset a = Some d) as Hind.
    { clear Hrun. induction 1 as [|s s1 s2 (o & Ho & Hm & He) _ IH]; [done|].
      intros Hs. apply IH. rewrite Forall_forall in Hops. specialize (Hops o Ho).
      subst s1. destruct s as [r1 l1]. destruct o as [size|a'|a' d'|a' buf]; simpl in *.
      - unfold allocate, bind, gets, lift, modify, ret, throw, arith.
        repeat case_match; simplify_eq; done.
      - unfold deallocate, bind, gets, lift, modify, arith.
        repeat case_match; simplify_eq/=; by rewrite lookup_delete_ne.
      - unfold write, modify, throw. case_match; [done|]. simpl. by rewrite lookup_insert_ne.
      - by rewrite read_state. }
    by apply (Hind _ _ Hrun). }
  unfold read, bind, gets, throw, ret, id. rewrite length_replicate.
  rewrite (proj2 (Z.ltb_ge _ _)) by lia. rewrite Hd'.
  by rewrite copy_prefix_full by (by rewrite length_replicate).
Qed.

Lemma ram_write_read_witness :
  read (mkAllocation 0 40 (BDSize 40)) [Byte.x00; Byte.x00]
    (write (mkAllocation 0 40 (BDSize 40)) [Byte.x07; Byte.xff] (exec Debug (RAlloc 40) (Ram_new 100) ∅).1).2
  = (Ok [Byte.x07; Byte.xff],
     (write (mkAllocation 0 40 (BDSize 40)) [Byte.x07; Byte.xff] (exec Debug (RAlloc 40) (Ram_new 100) ∅).1).2).
Proof.
  apply (ram_write_read Debug Ram 100 (exec Debug (RAlloc 40) (Ram_new 100) ∅).1
           {[0 := 40]} (mkAllocation 0 40 (BDSize 40)) [Byte.x07; Byte.xff] [] _ {[0 := 40]}).
  - unfold in_u; lia.
  - eapply (reach_step Debug Ram 100 (RAlloc 40)); [constructor|simpl; lia|].
    vm_compute. reflexivity.
  - reflexivity.
  - simpl. lia.
  - constructor.
  - apply rtc_refl.
Defined.

(** ** Release-mode overflow

    In a release build the capacity test [*used + size > capacity] wraps: a
    request close to 2^64 is granted on an almost empty backend. *)
Lemma allocate_overflow_release :
  let r := mkRam Ram 100 ∅ 10 10 in
  is_ok (allocate Release (2 ^ 64 - 5) r).1 = true /\
  is_panic (allocate Debug (2 ^ 64 - 5) r).1 = true.
Proof. vm_compute. done. Qed.
