(* ===== verification/Events.v ===== *)
(** * The unified event vocabulary: [ghost-core/src/events.rs] and [io_events.rs]

    Every variant of [Event] with its fields, the accessors as the source
    tabulates them, and the record that wraps an event with its sequence
    number and time stamp. *)

From Stdlib Require Import ZArith Lia.
From stdpp Require Import base strings list.
From S2P Require Import Prelude Floats CoreTypes Pressure.

Inductive InvariantSeverity := SevInfo | SevWarning | SevError | SevCritical.

Definition severity_display (s : InvariantSeverity) : string :=
  match s with
  | SevInfo => "info" | SevWarning => "warning" | SevError => "error"
  | SevCritical => "critical"
  end.

Inductive BackendHealth := Healthy | Degraded | Unavailable | Recovering.

Definition health_display (h : BackendHealth) : string :=
  match h with
  | Healthy => "healthy" | Degraded => "degraded" | Unavailable => "unavailable"
  | Recovering => "recovering"
  end.

Inductive IoOperation := IoRead | IoWrite | IoDelete | IoFlush.

#[global] Instance IoOperation_eq_dec : EqDecision IoOperation.
Proof. solve_decision. Defined.

Definition io_operation_display (o : IoOperation) : string :=
  match o with
  | IoRead => "read" | IoWrite => "write" | IoDelete => "delete" | IoFlush => "flush"
  end.

Module Ev.

(** ** The event type *)

Inductive Event :=
  | AllocationCreated (sequence_id : Z) (chunk_id : ChunkId) (tier : TierId) (size_ : Z)
  | AllocationFreed (sequence_id : Z) (chunk_id : ChunkId) (tier : TierId)
  | AllocationFailed (sequence_id : Z) (chunk_id : ChunkId) (reason : string)
  | Eviction (sequence_id : Z) (chunk_id : ChunkId) (tier : TierId) (reason : string)
  | Retrieve (sequence_id : Z) (key : string) (hit : bool)
  | TransferCompleted (sequence_id : Z) (chunk_id : ChunkId) (from : TierId) (to : TierId) (duration_ms : Z)
  | TransferFailed (sequence_id : Z) (chunk_id : ChunkId) (from : TierId) (to : TierId) (reason : string)
  | Store (sequence_id : Z) (key : string) (value_size : Z)
  | Evict (sequence_id : Z) (key : string)
  | QueueEnqueue (sequence_id : Z) (task_id : Z)
  | QueueDequeue (sequence_id : Z) (task_id : Z)
  | MigrationDecision (sequence_id : Z) (chunk_id : ChunkId) (from : TierId) (to : TierId) (decision : string)
  | MigrationDecided (sequence_id : Z) (chunk_id : ChunkId) (from : TierId) (to : TierId) (cost_score : float)
  | MigrationDeferred (sequence_id : Z) (chunk_id : ChunkId) (from : TierId) (to : TierId) (reason : string)
  | MigrationRejected (sequence_id : Z) (chunk_id : ChunkId) (from : TierId) (to : TierId) (cost_score : float) (threshold : float)
  | MigrationStarted (sequence_id : Z) (chunk_id : ChunkId) (from : TierId) (to : TierId)
  | MigrationCompleted (sequence_id : Z) (chunk_id : ChunkId) (from : TierId) (to : TierId) (duration_ms : Z)
  | MigrationFailed (sequence_id : Z) (chunk_id : ChunkId) (from : TierId) (to : TierId) (reason : string)
  | MigrationRolledBack (sequence_id : Z) (chunk_id : ChunkId) (from : TierId) (to : TierId)
  | ReplayStarted (sequence_id : Z) (trace_path : string)
  | ReplayCompleted (sequence_id : Z) (trace_path : string) (events : Z) (duration_ms : Z)
  | ReplayDivergence (sequence_id : Z) (trace_path : string) (expected : string) (actual : string)
  | ReplayInvariantViolation (sequence_id : Z) (rule : string) (details : string)
  | PressureChanged (sequence_id : Z) (tier : TierId) (old : PressureState) (new_ : PressureState)
  | BackpressureActivated (sequence_id : Z) (tier : TierId) (level_ : string)
  | BackpressureDeactivated (sequence_id : Z) (tier : TierId)
  | MemoryPressureChanged (sequence_id : Z) (level_ : PressureState) (avg10 : float) (avg60 : float) (avg300 : float) (total : Z)
  | IoPressureChanged (sequence_id : Z) (level_ : PressureState) (avg10 : float) (avg60 : float) (avg300 : float) (total : Z)
  | BackendHealthChanged (sequence_id : Z) (tier : TierId) (old : BackendHealth) (new_ : BackendHealth)
  | RetryAttempted (sequence_id : Z) (chunk_id : ChunkId) (attempt : Z) (max_attempts : Z)
  | OperationFailed (sequence_id : Z) (operation : string) (reason : string)
  | HotnessSummaryUpdated (sequence_id : Z) (hot : Z) (warm : Z) (cold : Z) (frozen : Z)
  | RegionTemperatureChanged (sequence_id : Z) (region : string) (old_temp : string) (new_temp : string)
  | HotnessConfidenceUpdated (sequence_id : Z) (region : string) (confidence : float) (level_ : string)
  | InvariantViolation (sequence_id : Z) (rule : string) (details : string) (severity : InvariantSeverity)
  | IoRequestIssued (sequence_id : Z) (operation : IoOperation) (chunk_id : ChunkId) (tier : TierId)
  | IoRequestCompleted (sequence_id : Z) (operation : IoOperation) (chunk_id : ChunkId) (tier : TierId) (duration_ticks : Z)
  | IoRequestFailed (sequence_id : Z) (operation : IoOperation) (chunk_id : ChunkId) (tier : TierId) (error : string)
  | IoFlushIssued (sequence_id : Z) (tier : TierId)
  | IoFlushCompleted (sequence_id : Z) (tier : TierId) (duration_ticks : Z)
  | IoBufferStateChange (sequence_id : Z) (tier : TierId) (buffered : Z) (capacity : Z)
  | MemoryStatsChanged (sequence_id : Z) (total_kb : Z) (available_kb : Z) (swap_used_kb : Z) (dirty_kb : Z)
  | VmstatChanged (sequence_id : Z) (pgscan_kswapd : Z) (pgscan_direct : Z) (oom_kill : Z) (pswpin : Z) (pswpout : Z)
  | SwapTopologyChanged (sequence_id : Z) (devices : list string) (total_kb : Z) (used_kb : Z)
  | SwapUtilizationChanged (sequence_id : Z) (device : string) (used_kb : Z) (total_kb : Z)
  | ZramUtilizationChanged (sequence_id : Z) (device : string) (orig_kb : Z) (comp_kb : Z) (ratio : float)
  | TierInventoryChanged (sequence_id : Z) (tiers : list string)
  | TierUtilizationChanged (sequence_id : Z) (tier : string) (used_bytes : Z) (total_bytes : Z)
  | HotnessSampled (sequence_id : Z) (provider : string) (num_samples : Z) (hot_count : Z) (cold_count : Z)
  | HotnessChanged (sequence_id : Z) (chunk_id : ChunkId) (old_temp : string) (new_temp : string)
  | PolicyRecommendationGenerated (sequence_id : Z) (recommendations : list string) (pressure_level : string).

Definition sequence_id (e : Event) : Z :=
  match e with
  | AllocationCreated sequence_id _ _ _ => sequence_id
  | AllocationFreed sequence_id _ _ => sequence_id
  | AllocationFailed sequence_id _ _ => sequence_id
  | Eviction sequence_id _ _ _ => sequence_id
  | Retrieve sequence_id _ _ => sequence_id
  | TransferCompleted sequence_id _ _ _ _ => sequence_id
  | TransferFailed sequence_id _ _ _ _ => sequence_id
  | Store sequence_id _ _ => sequence_id
  | Evict sequence_id _ => sequence_id
  | QueueEnqueue sequence_id _ => sequence_id
  | QueueDequeue sequence_id _ => sequence_id
  | MigrationDecision sequence_id _ _ _ _ => sequence_id
  | MigrationDecided sequence_id _ _ _ _ => sequence_id
  | MigrationDeferred sequence_id _ _ _ _ => sequence_id
  | MigrationRejected sequence_id _ _ _ _ _ => sequence_id
  | MigrationStarted sequence_id _ _ _ => sequence_id
  | MigrationCompleted sequence_id _ _ _ _ => sequence_id
  | MigrationFailed sequence_id _ _ _ _ => sequence_id
  | MigrationRolledBack sequence_id _ _ _ => sequence_id
  | ReplayStarted sequence_id _ => sequence_id
  | ReplayCompleted sequence_id _ _ _ => sequence_id
  | ReplayDivergence sequence_id _ _ _ => sequence_id
  | ReplayInvariantViolation sequence_id _ _ => sequence_id
  | PressureChanged sequence_id _ _ _ => sequence_id
  | BackpressureActivated sequence_id _ _ => sequence_id
  | BackpressureDeactivated sequence_id _ => sequence_id
  | MemoryPressureChanged sequence_id _ _ _ _ _ => sequence_id
  | IoPressureChanged sequence_id _ _ _ _ _ => sequence_id
  | BackendHealthChanged sequence_id _ _ _ => sequence_id
  | RetryAttempted sequence_id _ _ _ => sequence_id
  | OperationFailed sequence_id _ _ => sequence_id
  | HotnessSummaryUpdated sequence_id _ _ _ _ => sequence_id
  | RegionTemperatureChanged sequence_id _ _ _ => sequence_id
  | HotnessConfidenceUpdated sequence_id _ _ _ => sequence_id
  | InvariantViolation sequence_id _ _ _ => sequence_id
  | IoRequestIssued sequence_id _ _ _ => sequence_id
  | IoRequestCompleted sequence_id _ _ _ _ => sequence_id
  | IoRequestFailed sequence_id _ _ _ _ => sequence_id
  | IoFlushIssued sequence_id _ => sequence_id
  | IoFlushCompleted sequence_id _ _ => sequence_id
  | IoBufferStateChange sequence_id _ _ _ => sequence_id
  | MemoryStatsChanged sequence_id _ _ _ _ => sequence_id
  | VmstatChanged sequence_id _ _ _ _ _ => sequence_id
  | SwapTopologyChanged sequence_id _ _ _ => sequence_id
  | SwapUtilizationChanged sequence_id _ _ _ => sequence_id
  | ZramUtilizationChanged sequence_id _ _ _ _ => sequence_id
  | TierInventoryChanged sequence_id _ => sequence_id
  | TierUtilizationChanged sequence_id _ _ _ => sequence_id
  | HotnessSampled sequence_id _ _ _ _ => sequence_id
  | HotnessChanged sequence_id _ _ _ => sequence_id
  | PolicyRecommendationGenerated sequence_id _ _ => sequence_id
  end.

Definition with_sequence_id (e : Event) (sid : Z) : Event :=
  match e with
  | AllocationCreated _ chunk_id tier size_ => AllocationCreated sid chunk_id tier size_
  | AllocationFreed _ chunk_id tier => AllocationFreed sid chunk_id tier
  | AllocationFailed _ chunk_id reason => AllocationFailed sid chunk_id reason
  | Eviction _ chunk_id tier reason => Eviction sid chunk_id tier reason
  | Retrieve _ key hit => Retrieve sid key hit
  | TransferCompleted _ chunk_id from to duration_ms => TransferCompleted sid chunk_id from to duration_ms
  | TransferFailed _ chunk_id from to reason => TransferFailed sid chunk_id from to reason
  | Store _ key value_size => Store sid key value_size
  | Evict _ key => Evict sid key
  | QueueEnqueue _ task_id => QueueEnqueue sid task_id
  | QueueDequeue _ task_id => QueueDequeue sid task_id
  | MigrationDecision _ chunk_id from to decision => MigrationDecision sid chunk_id from to decision
  | MigrationDecided _ chunk_id from to cost_score => MigrationDecided sid chunk_id from to cost_score
  | MigrationDeferred _ chunk_id from to reason => MigrationDeferred sid chunk_id from to reason
  | MigrationRejected _ chunk_id from to cost_score threshold => MigrationRejected sid chunk_id from to cost_score threshold
  | MigrationStarted _ chunk_id from to => MigrationStarted sid chunk_id from to
  | MigrationCompleted _ chunk_id from to duration_ms => MigrationCompleted sid chunk_id from to duration_ms
  | MigrationFailed _ chunk_id from to reason => MigrationFailed sid chunk_id from to reason
  | MigrationRolledBack _ chunk_id from to => MigrationRolledBack sid chunk_id from to
  | ReplayStarted _ trace_path => ReplayStarted sid trace_path
  | ReplayCompleted _ trace_path events duration_ms => ReplayCompleted sid trace_path events duration_ms
  | ReplayDivergence _ trace_path expected actual => ReplayDivergence sid trace_path expected actual
  | ReplayInvariantViolation _ rule details => ReplayInvariantViolation sid rule details
  | PressureChanged _ tier old new_ => PressureChanged sid tier old new_
  | BackpressureActivated _ tier level_ => BackpressureActivated sid tier level_
  | BackpressureDeactivated _ tier => BackpressureDeactivated sid tier
  | MemoryPressureChanged _ level_ avg10 avg60 avg300 total => MemoryPressureChanged sid level_ avg10 avg60 avg300 total
  | IoPressureChanged _ level_ avg10 avg60 avg300 total => IoPressureChanged sid level_ avg10 avg60 avg300 total
  | BackendHealthChanged _ tier old new_ => BackendHealthChanged sid tier old new_
  | RetryAttempted _ chunk_id attempt max_attempts => RetryAttempted sid chunk_id attempt max_attempts
  | OperationFailed _ operation reason => OperationFailed sid operation reason
  | HotnessSummaryUpdated _ hot warm cold frozen => HotnessSummaryUpdated sid hot warm cold frozen
  | RegionTemperatureChanged _ region old_temp new_temp => RegionTemperatureChanged sid region old_temp new_temp
  | HotnessConfidenceUpdated _ region confidence level_ => HotnessConfidenceUpdated sid region confidence level_
  | InvariantViolation _ rule details severity => InvariantViolation sid rule details severity
  | IoRequestIssued _ operation chunk_id tier => IoRequestIssued sid operation chunk_id tier
  | IoRequestCompleted _ operation chunk_id tier duration_ticks => IoRequestCompleted sid operation chunk_id tier duration_ticks
  | IoRequestFailed _ operation chunk_id tier error => IoRequestFailed sid operation chunk_id tier error
  | IoFlushIssued _ tier => IoFlushIssued sid tier
  | IoFlushCompleted _ tier duration_ticks => IoFlushCompleted sid tier duration_ticks
  | IoBufferStateChange _ tier buffered capacity => IoBufferStateChange sid tier buffered capacity
  | MemoryStatsChanged _ total_kb available_kb swap_used_kb dirty_kb => MemoryStatsChanged sid total_kb available_kb swap_used_kb dirty_kb
  | VmstatChanged _ pgscan_kswapd pgscan_direct oom_kill pswpin pswpout => VmstatChanged sid pgscan_kswapd pgscan_direct oom_kill pswpin pswpout
  | SwapTopologyChanged _ devices total_kb used_kb => SwapTopologyChanged sid devices total_kb used_kb
  | SwapUtilizationChanged _ device used_kb total_kb => SwapUtilizationChanged sid device used_kb total_kb
  | ZramUtilizationChanged _ device orig_kb comp_kb ratio => ZramUtilizationChanged sid device orig_kb comp_kb ratio
  | TierInventoryChanged _ tiers => TierInventoryChanged sid tiers
  | TierUtilizationChanged _ tier used_bytes total_bytes => TierUtilizationChanged sid tier used_bytes total_bytes
  | HotnessSampled _ provider num_samples hot_count cold_count => HotnessSampled sid provider num_samples hot_count cold_count
  | HotnessChanged _ chunk_id old_temp new_temp => HotnessChanged sid chunk_id old_temp new_temp
  | PolicyRecommendationGenerated _ recommendations pressure_level => PolicyRecommendationGenerated sid recommendations pressure_level
  end.

Definition event_chunk_id (e : Event) : option ChunkId :=
  match e with
  | AllocationCreated _ chunk_id _ _ => Some chunk_id
  | AllocationFreed _ chunk_id _ => Some chunk_id
  | AllocationFailed _ chunk_id _ => Some chunk_id
  | MigrationDecided _ chunk_id _ _ _ => Some chunk_id
  | MigrationDeferred _ chunk_id _ _ _ => Some chunk_id
  | MigrationRejected _ chunk_id _ _ _ _ => Some chunk_id
  | MigrationStarted _ chunk_id _ _ => Some chunk_id
  | MigrationCompleted _ chunk_id _ _ _ => Some chunk_id
  | MigrationFailed _ chunk_id _ _ _ => Some chunk_id
  | MigrationRolledBack _ chunk_id _ _ => Some chunk_id
  | RetryAttempted _ chunk_id _ _ => Some chunk_id
  | IoRequestIssued _ _ chunk_id _ => Some chunk_id
  | IoRequestCompleted _ _ chunk_id _ _ => Some chunk_id
  | IoRequestFailed _ _ chunk_id _ _ => Some chunk_id
  | _ => None
  end.

Definition event_tier (e : Event) : option TierId :=
  match e with
  | AllocationCreated _ _ tier _ => Some tier
  | AllocationFreed _ _ tier => Some tier
  | MigrationDecided _ _ from _ _ => Some from
  | MigrationDeferred _ _ from _ _ => Some from
  | MigrationRejected _ _ from _ _ _ => Some from
  | MigrationStarted _ _ from _ => Some from
  | MigrationCompleted _ _ from _ _ => Some from
  | MigrationFailed _ _ from _ _ => Some from
  | MigrationRolledBack _ _ from _ => Some from
  | PressureChanged _ tier _ _ => Some tier
  | BackpressureActivated _ tier _ => Some tier
  | BackpressureDeactivated _ tier => Some tier
  | BackendHealthChanged _ tier _ _ => Some tier
  | IoRequestIssued _ _ _ tier => Some tier
  | IoRequestCompleted _ _ _ tier _ => Some tier
  | IoRequestFailed _ _ _ tier _ => Some tier
  | IoFlushIssued _ tier => Some tier
  | IoFlushCompleted _ tier _ => Some tier
  | IoBufferStateChange _ tier _ _ => Some tier
  | _ => None
  end.

Definition category (e : Event) : string :=
  match e with
  | AllocationCreated _ _ _ _ => "allocation"
  | AllocationFreed _ _ _ => "allocation"
  | AllocationFailed _ _ _ => "allocation"
  | Eviction _ _ _ _ => "orchestration"
  | Retrieve _ _ _ => "orchestration"
  | TransferCompleted _ _ _ _ _ => "orchestration"
  | TransferFailed _ _ _ _ _ => "orchestration"
  | Store _ _ _ => "orchestration"
  | Evict _ _ => "orchestration"
  | QueueEnqueue _ _ => "scheduler"
  | QueueDequeue _ _ => "scheduler"
  | MigrationDecision _ _ _ _ _ => "migration"
  | MigrationDecided _ _ _ _ _ => "migration"
  | MigrationDeferred _ _ _ _ _ => "migration"
  | MigrationRejected _ _ _ _ _ _ => "migration"
  | MigrationStarted _ _ _ _ => "migration"
  | MigrationCompleted _ _ _ _ _ => "migration"
  | MigrationFailed _ _ _ _ _ => "migration"
  | MigrationRolledBack _ _ _ _ => "migration"
  | ReplayStarted _ _ => "replay"
  | ReplayCompleted _ _ _ _ => "replay"
  | ReplayDivergence _ _ _ _ => "replay"
  | ReplayInvariantViolation _ _ _ => "replay"
  | PressureChanged _ _ _ _ => "pressure"
  | BackpressureActivated _ _ _ => "pressure"
  | BackpressureDeactivated _ _ => "pressure"
  | MemoryPressureChanged _ _ _ _ _ _ => "pressure"
  | IoPressureChanged _ _ _ _ _ _ => "pressure"
  | BackendHealthChanged _ _ _ _ => "failure"
  | RetryAttempted _ _ _ _ => "failure"
  | OperationFailed _ _ _ => "failure"
  | HotnessSummaryUpdated _ _ _ _ _ => "hotness"
  | RegionTemperatureChanged _ _ _ _ => "hotness"
  | HotnessConfidenceUpdated _ _ _ _ => "hotness"
  | InvariantViolation _ _ _ _ => "invariant_violation"
  | IoRequestIssued _ _ _ _ => "io"
  | IoRequestCompleted _ _ _ _ _ => "io"
  | IoRequestFailed _ _ _ _ _ => "io"
  | IoFlushIssued _ _ => "io"
  | IoFlushCompleted _ _ _ => "io"
  | IoBufferStateChange _ _ _ _ => "io"
  | MemoryStatsChanged _ _ _ _ _ => "memory"
  | VmstatChanged _ _ _ _ _ _ => "memory"
  | SwapTopologyChanged _ _ _ _ => "swap"
  | SwapUtilizationChanged _ _ _ _ => "swap"
  | ZramUtilizationChanged _ _ _ _ _ => "zram"
  | TierInventoryChanged _ _ => "tier_inventory"
  | TierUtilizationChanged _ _ _ _ => "tier_inventory"
  | HotnessSampled _ _ _ _ _ => "hotness"
  | HotnessChanged _ _ _ _ => "hotness"
  | PolicyRecommendationGenerated _ _ _ => "policy"
  end.

Definition event_name (e : Event) : string :=
  match e with
  | AllocationCreated _ _ _ _ => "allocation_created"
  | AllocationFreed _ _ _ => "allocation_freed"
  | AllocationFailed _ _ _ => "allocation_failed"
  | Eviction _ _ _ _ => "eviction"
  | Retrieve _ _ _ => "retrieve"
  | TransferCompleted _ _ _ _ _ => "transfer_completed"
  | TransferFailed _ _ _ _ _ => "transfer_failed"
  | Store _ _ _ => "store"
  | Evict _ _ => "evict"
  | QueueEnqueue _ _ => "queue_enqueue"
  | QueueDequeue _ _ => "queue_dequeue"
  | MigrationDecision _ _ _ _ _ => "migration_decision"
  | MigrationDecided _ _ _ _ _ => "migration_decided"
  | MigrationDeferred _ _ _ _ _ => "migration_deferred"
  | MigrationRejected _ _ _ _ _ _ => "migration_rejected"
  | MigrationStarted _ _ _ _ => "migration_started"
  | MigrationCompleted _ _ _ _ _ => "migration_completed"
  | MigrationFailed _ _ _ _ _ => "migration_failed"
  | MigrationRolledBack _ _ _ _ => "migration_rolled_back"
  | ReplayStarted _ _ => "replay_started"
  | ReplayCompleted _ _ _ _ => "replay_completed"
  | ReplayDivergence _ _ _ _ => "replay_divergence"
  | ReplayInvariantViolation _ _ _ => "replay_invariant_violation"
  | PressureChanged _ _ _ _ => "pressure_changed"
  | BackpressureActivated _ _ _ => "backpressure_activated"
  | BackpressureDeactivated _ _ => "backpressure_deactivated"
  | MemoryPressureChanged _ _ _ _ _ _ => "memory_pressure_changed"
  | IoPressureChanged _ _ _ _ _ _ => "io_pressure_changed"
  | BackendHealthChanged _ _ _ _ => "backend_health_changed"
  | RetryAttempted _ _ _ _ => "retry_attempted"
  | OperationFailed _ _ _ => "operation_failed"
  | HotnessSummaryUpdated _ _ _ _ _ => "hotness_summary_updated"
  | RegionTemperatureChanged _ _ _ _ => "region_temperature_changed"
  | HotnessConfidenceUpdated _ _ _ _ => "hotness_confidence_updated"
  | InvariantViolation _ _ _ _ => "invariant_violation"
  | IoRequestIssued _ _ _ _ => "io_request_issued"
  | IoRequestCompleted _ _ _ _ _ => "io_request_completed"
  | IoRequestFailed _ _ _ _ _ => "io_request_failed"
  | IoFlushIssued _ _ => "io_flush_issued"
  | IoFlushCompleted _ _ _ => "io_flush_completed"
  | IoBufferStateChange _ _ _ _ => "io_buffer_state_change"
  | MemoryStatsChanged _ _ _ _ _ => "memory_stats_changed"
  | VmstatChanged _ _ _ _ _ _ => "vmstat_changed"
  | SwapTopologyChanged _ _ _ _ => "swap_topology_changed"
  | SwapUtilizationChanged _ _ _ _ => "swap_utilization_changed"
  | ZramUtilizationChanged _ _ _ _ _ => "zram_utilization_changed"
  | TierInventoryChanged _ _ => "tier_inventory_changed"
  | TierUtilizationChanged _ _ _ _ => "tier_utilization_changed"
  | HotnessSampled _ _ _ _ _ => "hotness_sampled"
  | HotnessChanged _ _ _ _ => "hotness_changed"
  | PolicyRecommendationGenerated _ _ _ => "policy_recommendation_generated"
  end.

(** ** The stamped record *)

Record EventRecord := mkRecord {
  rec_sequence_id : Z;
  rec_timestamp : Z;
  rec_event : Event;
}.

Definition rec_chunk_id (r : EventRecord) : option ChunkId := event_chunk_id (rec_event r).
Definition rec_tier (r : EventRecord) : option TierId := event_tier (rec_event r).
Definition rec_category (r : EventRecord) : string := category (rec_event r).
Definition rec_event_name (r : EventRecord) : string := event_name (rec_event r).

(** [with_sequence_id] is a lens for [sequence_id] that touches no other
    observable of the event. *)
Lemma with_sequence_id_get e n : sequence_id (with_sequence_id e n) = n.
Proof. by destruct e. Qed.

Lemma with_sequence_id_put e n m :
  with_sequence_id (with_sequence_id e n) m = with_sequence_id e m.
Proof. by destruct e. Qed.

Lemma with_sequence_id_self e : with_sequence_id e (sequence_id e) = e.
Proof. by destruct e. Qed.

Lemma with_sequence_id_frame e n :
  event_chunk_id (with_sequence_id e n) = event_chunk_id e /\
  event_tier (with_sequence_id e n) = event_tier e /\
  category (with_sequence_id e n) = category e /\
  event_name (with_sequence_id e n) = event_name e.
Proof. by destruct e. Qed.

End Ev.

(** ** I/O events without a sequence number ([io_events.rs]) *)
Module IoEv.
Inductive IoEvent :=
  | IoRequestIssued (operation : IoOperation) (chunk_id : ChunkId) (tier : TierId)
  | IoRequestCompleted (operation : IoOperation) (chunk_id : ChunkId) (tier : TierId) (duration_ticks : Z)
  | IoRequestFailed (operation : IoOperation) (chunk_id : ChunkId) (tier : TierId) (error : string)
  | IoFlushIssued (tier : TierId)
  | IoFlushCompleted (tier : TierId) (duration_ticks : Z)
  | IoBufferStateChange (tier : TierId) (buffered : Z) (capacity : Z).

Definition io_event_chunk_id (e : IoEvent) : option ChunkId :=
  match e with
  | IoRequestIssued _ c _ | IoRequestCompleted _ c _ _ | IoRequestFailed _ c _ _ => Some c
  | IoFlushIssued _ | IoFlushCompleted _ _ | IoBufferStateChange _ _ _ => None
  end.

Definition io_event_tier (e : IoEvent) : option TierId :=
  match e with
  | IoRequestIssued _ _ t | IoRequestCompleted _ _ t _ | IoRequestFailed _ _ t _
  | IoFlushIssued t | IoFlushCompleted t _ | IoBufferStateChange t _ _ => Some t
  end.

Definition io_event_category (e : IoEvent) : string := "io".

Definition io_event_name (e : IoEvent) : string :=
  match e with
  | IoRequestIssued _ _ _ => "io_request_issued"
  | IoRequestCompleted _ _ _ _ => "io_request_completed"
  | IoRequestFailed _ _ _ _ => "io_request_failed"
  | IoFlushIssued _ => "io_flush_issued"
  | IoFlushCompleted _ _ => "io_flush_completed"
  | IoBufferStateChange _ _ _ => "io_buffer_state_change"
  end.

(** The event on the bus that an I/O event stands for. *)
Definition on_bus (sid : Z) (e : IoEvent) : Ev.Event :=
  match e with
  | IoRequestIssued o c t => Ev.IoRequestIssued sid o c t
  | IoRequestCompleted o c t d => Ev.IoRequestCompleted sid o c t d
  | IoRequestFailed o c t m => Ev.IoRequestFailed sid o c t m
  | IoFlushIssued t => Ev.IoFlushIssued sid t
  | IoFlushCompleted t d => Ev.IoFlushCompleted sid t d
  | IoBufferStateChange t b k => Ev.IoBufferStateChange sid t b k
  end.

(** The two event vocabularies describe an I/O event alike, and an event of
    the bus is of the category [io] only if it stands for an I/O event. *)
Lemma io_vocabularies_agree :
  (forall sid e,
     Ev.event_chunk_id (on_bus sid e) = io_event_chunk_id e /\
     Ev.event_tier (on_bus sid e) = io_event_tier e /\
     Ev.category (on_bus sid e) = io_event_category e /\
     Ev.event_name (on_bus sid e) = io_event_name e) /\
  (forall ev, Ev.category ev = "io" -> exists e, ev = on_bus (Ev.sequence_id ev) e).
Proof.
  split; [by intros sid []|].
  intros []; try discriminate; intros _;
    [exists (IoRequestIssued operation chunk_id tier)
    |exists (IoRequestCompleted operation chunk_id tier duration_ticks)
    |exists (IoRequestFailed operation chunk_id tier error)
    |exists (IoFlushIssued tier)|exists (IoFlushCompleted tier duration_ticks)
    |exists (IoBufferStateChange tier buffered capacity)]; reflexivity.
Qed.
End IoEv.
