(* ===== verification/EventBus.v ===== *)
(** * Emission and delivery of events: [ghost-core/src/emitter.rs] and
    [event_multiplexer.rs]

    The emitter stamps each event with the next sequence number and hands it
    to a bounded [tokio] channel; the multiplexer takes records out in channel
    order, checks their numbering and calls every handler in turn.  A handler
    is opaque: what is recorded is which record each handler was given, in
    which order. *)

From Stdlib Require Import ZArith Lia.
From stdpp Require Import base strings pretty sorting relations list.
From S2P Require Import Prelude CoreTypes Events.

Open Scope rust_scope.

(** ** A bounded channel *)

Record Channel := mkChannel {
  chan : list Ev.EventRecord;
  chan_cap : nat;
  chan_open : bool;
}.

Inductive TrySendError := Full | Closed.

Definition try_send (r : Ev.EventRecord) : M Channel TrySendError unit := fun c =>
  if negb (chan_open c) then (Err Closed, c)
  else if (chan_cap c <=? length (chan c))%nat then (Err Full, c)
  else (Ok tt, mkChannel (chan c ++ [r]) (chan_cap c) (chan_open c)).

Definition recv (c : Channel) : option Ev.EventRecord * Channel :=
  match chan c with
  | [] => (None, c)
  | r :: rs => (Some r, mkChannel rs (chan_cap c) (chan_open c))
  end.

(** ** The emitter *)

Record EventEmitter := mkEmitter { tx : Channel; sequence_counter : Z }.

Definition Emitter_new (c : Channel) : EventEmitter := mkEmitter c 1.

Definition next_sequence_id (e : EventEmitter) : Z * EventEmitter :=
  (sequence_counter e, mkEmitter (tx e) (wrap 64 (sequence_counter e + 1))).

Definition make_record (now : Z) (ev : Ev.Event) (e : EventEmitter)
    : Ev.EventRecord * EventEmitter :=
  let '(sid, e') := next_sequence_id e in
  (Ev.mkRecord sid now ev, e').

Definition try_emit (now : Z) (ev : Ev.Event) : M EventEmitter TrySendError unit := fun e =>
  let '(r, e1) := make_record now ev e in
  let '(res, c) := try_send r (tx e1) in
  (res, mkEmitter c (sequence_counter e1)).

(** ** The multiplexer *)

Record EventMultiplexer := mkMux {
  handlers : nat;                               (* number of registered handlers *)
  last_sequence_id : Z;
  invariant_sender : option Channel;
  delivered : list (nat * Ev.EventRecord);      (* handler index, record *)
  violations : list (string * InvariantSeverity);
}.

Definition Mux_new : EventMultiplexer := mkMux 0 0 None [] [].

Definition with_invariant_channel (c : Channel) (m : EventMultiplexer) : EventMultiplexer :=
  mkMux (handlers m) (last_sequence_id m) (Some c) (delivered m) (violations m).

Definition with_handler (m : EventMultiplexer) : EventMultiplexer :=
  mkMux (S (handlers m)) (last_sequence_id m) (invariant_sender m) (delivered m) (violations m).

(** [violations] keeps every detected violation; the channel, when there is
    one, receives it on a best-effort basis. *)
Definition emit_invariant_violation (now : Z) (rule details : string) (sev : InvariantSeverity)
    (m : EventMultiplexer) : EventMultiplexer :=
  let sender :=
    match invariant_sender m with
    | Some c => Some (try_send (Ev.mkRecord 0 now (Ev.InvariantViolation 0 rule details sev)) c).2
    | None => None
    end in
  mkMux (handlers m) (last_sequence_id m) sender (delivered m) (violations m ++ [(rule, sev)]).

Definition set_last (n : Z) (m : EventMultiplexer) : EventMultiplexer :=
  mkMux (handlers m) n (invariant_sender m) (delivered m) (violations m).

Definition verify_ordering (now : Z) (r : Ev.EventRecord) (m : EventMultiplexer)
    : EventMultiplexer :=
  let current := Ev.rec_sequence_id r in
  let last := last_sequence_id m in
  let m :=
    if 0 <? last then
      if current <=? last then
        emit_invariant_violation now "event_ordering_monotonic"
          ("Event reordering detected: sequence_id " +:+ pretty current +:+ " <= last "
           +:+ pretty last) SevCritical m
      else if last + 1 <? current then
        emit_invariant_violation now "event_ordering_gap"
          ("Event sequence gap detected: expected " +:+ pretty (last + 1) +:+ ", got "
           +:+ pretty current +:+ " (gap of " +:+ pretty (current - last - 1) +:+ ")") SevError m
      else m
    else m in
  set_last current m.

(** The body of the [while let Some(record)] loop of [run]: verify, then hand
    the record to each handler in registration order; a handler's error is
    only logged. *)
Definition deliver (r : Ev.EventRecord) (m : EventMultiplexer) : EventMultiplexer :=
  mkMux (handlers m) (last_sequence_id m) (invariant_sender m)
    (delivered m ++ ((fun i => (i, r)) <$> seq 0 (handlers m))) (violations m).

Definition dispatch (now : Z) (r : Ev.EventRecord) (m : EventMultiplexer) : EventMultiplexer :=
  deliver r (verify_ordering now r m).

(** ** The bus: one emitter, one multiplexer, sharing the channel

    [accepted] lists the records the channel took, [dropped] counts failed
    emissions; both are history variables. *)

Record Bus := mkBus {
  emitter : EventEmitter;
  mux : EventMultiplexer;
  accepted : list Ev.EventRecord;
  dropped : nat;
}.

Inductive BusOp := BEmit (now : Z) (ev : Ev.Event) | BRecv (now : Z).

Definition bus_step (o : BusOp) (s : Bus) : Bus :=
  match o with
  | BEmit now ev =>
      let '(r, _) := make_record now ev (emitter s) in
      match try_emit now ev (emitter s) with
      | (Ok _, e') => mkBus e' (mux s) (accepted s ++ [r]) (dropped s)
      | (_, e') => mkBus e' (mux s) (accepted s) (S (dropped s))
      end
  | BRecv now =>
      match recv (tx (emitter s)) with
      | (Some r, c') =>
          mkBus (mkEmitter c' (sequence_counter (emitter s))) (dispatch now r (mux s))
            (accepted s) (dropped s)
      | (None, _) => s
      end
  end.

Definition bus_run (ops : list BusOp) (s : Bus) : Bus := fold_left (fun s o => bus_step o s) ops s.

Definition bus_start (cap h : nat) : Bus :=
  mkBus (Emitter_new (mkChannel [] cap true)) (Nat.iter h with_handler Mux_new) [] 0.

(** ** The ordering invariant *)

Definition ids (l : list Ev.EventRecord) : list Z := Ev.rec_sequence_id <$> l.

(** Records handed to handler [i] so far, in order. *)
Definition seen_by (i : nat) (m : EventMultiplexer) : list Ev.EventRecord :=
  (filter (fun p => p.1 = i) (delivered m)).*2.

Definition is_reordering (v : string * InvariantSeverity) : bool :=
  bool_decide (v.1 = "event_ordering_monotonic"%string).

(** [l] is the consecutive range [from, from+1, ..]. *)
Fixpoint consecutive (from : Z) (l : list Z) : Prop :=
  match l with [] => True | x :: l => x = from /\ consecutive (from + 1) l end.

Record bus_inv (h : nat) (s : Bus) : Prop := {
  bi_handlers : handlers (mux s) = h;
  bi_sorted : StronglySorted Z.lt
     (last_sequence_id (mux s) :: ids (chan (tx (emitter s))) ++ [sequence_counter (emitter s)]);
  bi_last : 0 <= last_sequence_id (mux s);
  bi_fifo : forall i, (i < h)%nat ->
     seen_by i (mux s) ++ chan (tx (emitter s)) = accepted s;
  bi_noreorder : forallb (fun v => negb (is_reordering v)) (violations (mux s)) = true;
  bi_consecutive : dropped s = 0%nat ->
     violations (mux s) = [] /\
     consecutive (last_sequence_id (mux s) + 1) (ids (chan (tx (emitter s))) ++ [sequence_counter (emitter s)]);
}.

Lemma handlers_iter h : handlers (Nat.iter h with_handler Mux_new) = h.
Proof. induction h as [|h IH]; simpl; [done|]. by rewrite IH. Qed.

Lemma delivered_iter h :
  delivered (Nat.iter h with_handler Mux_new) = [] /\
  last_sequence_id (Nat.iter h with_handler Mux_new) = 0 /\
  violations (Nat.iter h with_handler Mux_new) = [].
Proof. induction h as [|h IH]; simpl; [done|]. naive_solver. Qed.

Lemma bus_inv_start cap h : bus_inv h (bus_start cap h).
Proof.
  destruct (delivered_iter h) as (Hd & Hl & Hv). unfold bus_start.
  split; simpl; rewrite ?Hl, ?Hv; try done; try lia.
  - apply handlers_iter.
  - repeat constructor; lia.
  - intros i Hi. unfold seen_by. by rewrite Hd.
Qed.

Lemma filter_seq_one i n h :
  (filter (fun p : nat * Ev.EventRecord => p.1 = i) ((fun j => (j, n)) <$> seq 0 h)).*2 =
  if decide (i < h)%nat then [n] else [].
Proof.
  enough (forall a, (filter (fun p : nat * Ev.EventRecord => p.1 = i)
      ((fun j => (j, n)) <$> seq a h)).*2 =
      if decide (a <= i < a + h)%nat then [n] else []) as H.
  { rewrite H. repeat case_decide; try done; lia. }
  induction h as [|h IH]; intros a; simpl; [case_decide; [lia|done]|].
  rewrite filter_cons. simpl. case_decide; simpl; rewrite IH; repeat case_decide; try done; lia.
Qed.

Lemma seen_by_deliver i r m :
  (i < handlers m)%nat -> seen_by i (deliver r m) = seen_by i m ++ [r].
Proof.
  intros Hi. unfold seen_by, deliver. simpl.
  rewrite filter_app, fmap_app, filter_seq_one. by case_decide.
Qed.

Lemma verify_ordering_fields now r m :
  handlers (verify_ordering now r m) = handlers m /\
  delivered (verify_ordering now r m) = delivered m /\
  last_sequence_id (verify_ordering now r m) = Ev.rec_sequence_id r.
Proof. unfold verify_ordering. by repeat case_match. Qed.

(** On an increasing number, [verify_ordering] reports a gap exactly when the
    number is not the successor of the last one, and never a reordering. *)
Lemma verify_ordering_increasing now r m :
  0 <= last_sequence_id m < Ev.rec_sequence_id r ->
  violations (verify_ordering now r m) =
  violations m ++
    (if (0 <? last_sequence_id m) && (last_sequence_id m + 1 <? Ev.rec_sequence_id r)
     then [("event_ordering_gap"%string, SevError)] else []).
Proof.
  intros H. unfold verify_ordering. case_match; simpl; [|by rewrite app_nil_r].
  rewrite (proj2 (Z.leb_gt _ _)) by lia. case_match; simpl; [done|by rewrite app_nil_r].
Qed.

#[local] Opaque verify_ordering.

Lemma consecutive_snoc from l x :
  consecutive from (l ++ [x]) -> consecutive from ((l ++ [x]) ++ [x + 1]).
Proof.
  revert from. induction l as [|y l IH]; intros from; simpl; [naive_solver|].
  intros [-> H]. split; [done|]. by apply IH.
Qed.

Lemma sorted_replace_last (l : list Z) x y :
  StronglySorted Z.lt (l ++ [x]) -> x < y -> StronglySorted Z.lt (l ++ [y]).
Proof.
  intros Hs Hxy. induction l as [|z l IH]; simpl in *; [repeat constructor|].
  apply StronglySorted_inv in Hs as [Hs Hz]. constructor; [by apply IH|].
  rewrite Forall_app, Forall_singleton in *. destruct Hz as [? ?]. split; [done|lia].
Qed.

Lemma sorted_snoc (l : list Z) x y :
  StronglySorted Z.lt (l ++ [x]) -> x < y -> StronglySorted Z.lt ((l ++ [x]) ++ [y]).
Proof.
  intros Hs Hxy. induction l as [|z l IH]; simpl in *; [repeat constructor; lia|].
  apply StronglySorted_inv in Hs as [Hs Hz]. constructor; [by apply IH|].
  rewrite !Forall_app, !Forall_singleton in *. destruct Hz as [? ?]. split_and!; try done; lia.
Qed.

Lemma bus_inv_emit h now ev s :
  bus_inv h s -> in_u 64 (sequence_counter (emitter s) + 1) -> bus_inv h (bus_step (BEmit now ev) s).
Proof.
  intros [Hh Hs Hl Hf Hn Hc] Hw. unfold bus_step, try_emit, make_record, next_sequence_id, try_send.
  destruct s as [[c n] m acc dr]. simpl in *. rewrite wrap_in by done.
  destruct (chan_open c); simpl; [destruct (chan_cap c <=? length (chan c))%nat; simpl|].
  - split; simpl; try done.
    rewrite app_comm_cons. apply (sorted_replace_last _ n); [done|lia].
  - split; simpl; try done.
    + unfold ids. rewrite fmap_app. simpl. rewrite app_comm_cons, app_comm_cons.
      apply (sorted_snoc _ n); [done|lia].
    + intros i Hi. by rewrite <- (Hf i Hi), app_assoc.
    + intros Hd. destruct (Hc Hd) as [Hv Hcc]. split; [done|].
      unfold ids. rewrite fmap_app. simpl. by apply consecutive_snoc.
  - split; simpl; try done.
    rewrite app_comm_cons. apply (sorted_replace_last _ n); [done|lia].
Qed.

Lemma bus_inv_recv h now s : bus_inv h s -> bus_inv h (bus_step (BRecv now) s).
Proof.
  intros Hinv. unfold bus_step, recv.
  destruct s as [[[rs cap op] n] m acc dr]. destruct rs as [|r rs]; simpl; [done|].
  destruct Hinv as [Hh Hs Hl Hf Hn Hc]. simpl in *.
  apply StronglySorted_inv in Hs as [Hs Hlt]. simpl in Hs.
  assert (last_sequence_id m < Ev.rec_sequence_id r) as Hr by (by inversion Hlt).
  destruct (verify_ordering_fields now r m) as (Eh & Ed & El).
  split; simpl; rewrite ?El; try done; try lia.
  - intros i Hi. unfold dispatch. rewrite seen_by_deliver by (by rewrite Eh, Hh).
    unfold seen_by. rewrite Ed. rewrite <- app_assoc. by apply Hf.
  - rewrite verify_ordering_increasing by lia. rewrite forallb_app, Hn. by case_match.
  - intros Hd. destruct (Hc Hd) as [Hv [Hr1 Hcc]]. split; [|by rewrite Hr1].
    rewrite verify_ordering_increasing by lia. rewrite Hv. simpl.
    rewrite (proj2 (Z.ltb_ge (last_sequence_id m + 1) (Ev.rec_sequence_id r))) by lia. by rewrite andb_false_r.
Qed.

Lemma bus_run_inv h ops s :
  bus_inv h s ->
  0 <= sequence_counter (emitter s) -> sequence_counter (emitter s) + Z.of_nat (length ops) < 2 ^ 64 ->
  bus_inv h (bus_run ops s).
Proof.
  revert s. induction ops as [|o ops IH]; intros s Hs H0 Hb; [done|].
  cbn [bus_run fold_left]. cbn [length] in Hb. apply IH.
  - destruct o; [apply bus_inv_emit; [done|]; unfold in_u; lia|by apply bus_inv_recv].
  - destruct o; simpl; repeat case_match; simpl in *; simplify_eq/=; try done;
      unfold try_emit, make_record, next_sequence_id in *; repeat case_match; simplify_eq/=;
      apply wrap_range; lia.
  - destruct o as [now ev|now]; simpl; [|by repeat case_match; simpl in *; lia].
    unfold try_emit, make_record, next_sequence_id.
    assert (wrap 64 (sequence_counter (emitter s) + 1) = sequence_counter (emitter s) + 1) as Hw
      by (apply wrap_in; unfold in_u; lia).
    simpl. destruct (try_send _ _) as [[]]; simpl; rewrite Hw; lia.
Qed.

(** C14: ordering contract of the event bus with one emitting thread.  For any
    interleaving of emissions and deliveries (fewer than 2^64 - 1 of them),
    every handler sees exactly the accepted records, in emission order,
    followed by what is still queued; the multiplexer never reports a
    reordering; and if the channel accepted every emission it reports no
    violation at all. *)
Theorem bus_ordering cap h ops i :
  Z.of_nat (length ops) < 2 ^ 64 - 1 -> (i < h)%nat ->
  let s := bus_run ops (bus_start cap h) in
  seen_by i (mux s) ++ chan (tx (emitter s)) = accepted s /\
  forallb (fun v => negb (is_reordering v)) (violations (mux s)) = true /\
  (dropped s = 0%nat -> violations (mux s) = []).
Proof.
  intros Hlen Hi s.
  assert (bus_inv h s) as [_ _ _ Hf Hn Hc].
  { apply bus_run_inv; [apply bus_inv_start|simpl; lia|simpl; lia]. }
  split_and!; [by apply Hf|done|]. intros Hd. by apply Hc.
Qed.

Definition ping (n : Z) : Ev.Event := Ev.QueueEnqueue 0 n.

Lemma bus_ordering_witness :
  let s := bus_run [BEmit 1 (ping 1); BEmit 2 (ping 2); BRecv 3; BEmit 4 (ping 3); BRecv 5]
             (bus_start 2 1) in
  seen_by 0 (mux s) ++ chan (tx (emitter s)) = accepted s /\
  forallb (fun v => negb (is_reordering v)) (violations (mux s)) = true /\
  (dropped s = 0%nat -> violations (mux s) = []).
Proof. apply (bus_ordering 2 1); [simpl; lia|lia]. Defined.

(** A full channel drops a record; the multiplexer notices the gap. *)
Example dropped_record_is_reported :
  violations (mux (bus_run
    [BEmit 1 (ping 1); BEmit 2 (ping 2); BRecv 3; BEmit 4 (ping 3); BRecv 5] (bus_start 1 1)))
  = [("event_ordering_gap"%string, SevError)].
Proof. vm_compute. reflexivity. Qed.

(** ** Several emitting threads

    [EventEmitter] is cloned into several tasks that share the counter and the
    channel; [try_emit] stamps the record and then sends it, two separate
    atomic actions. *)

Module Concurrent.

Inductive task := Idle (ev : Ev.Event) | Stamped (r : Ev.EventRecord) | Sent.

Record state := mkState { st_emitter : EventEmitter; tasks : list task }.

Inductive step : state -> state -> Prop :=
  | step_stamp e ts i now ev r e' : ts !! i = Some (Idle ev) ->
      make_record now ev e = (r, e') ->
      step (mkState e ts) (mkState e' (<[i := Stamped r]> ts))
  | step_send e ts i r res c : ts !! i = Some (Stamped r) ->
      try_send r (tx e) = (res, c) ->
      step (mkState e ts) (mkState (mkEmitter c (sequence_counter e)) (<[i := Sent]> ts)).

(** With two tasks the numbering is not the channel order: there is an
    interleaving of two [try_emit] calls, both successful, after which the
    multiplexer receives the records out of order and reports a critical
    reordering violation. *)
Theorem concurrent_emit_reorders :
  exists s,
    rtc step (mkState (Emitter_new (mkChannel [] 8 true)) [Idle (ping 1); Idle (ping 2)]) s /\
    Forall (fun t => t = Sent) (tasks s) /\
    ids (chan (tx (st_emitter s))) = [2; 1] /\
    violations (foldl (fun m r => dispatch 0 r m) Mux_new (chan (tx (st_emitter s)))) =
      [("event_ordering_monotonic"%string, SevCritical)].
Proof.
  eexists. split; [|split_and!].
  - eapply rtc_l; [eapply (step_stamp _ _ 0 0); reflexivity|simpl].
    eapply rtc_l; [eapply (step_stamp _ _ 1 0); reflexivity|simpl].
    eapply rtc_l; [eapply (step_send _ _ 1); reflexivity|simpl].
    eapply rtc_l; [eapply (step_send _ _ 0); reflexivity|simpl].
    apply rtc_refl.
  - repeat constructor.
  - vm_compute. reflexivity.
  - vm_compute. reflexivity.
Qed.

End Concurrent.
