(* ===== verification/IoScheduler.v ===== *)
(** * The I/O scheduler: [ghost-core/src/io_abstraction.rs]

    Every I/O request is issued, then completed or failed.  [issue] takes
    [&self] and writes the map through a raw pointer; every caller holds the
    mutex around the scheduler, so a call is one step of the model.  Clock
    readings are arguments; one reading stands for those the scheduler and its
    emitter take within a call, except where the source measures between two. *)

From Stdlib Require Import ZArith Lia SpecFloat.
From stdpp Require Import base gmap strings pretty sorting list.
From S2P Require Import Prelude Floats CoreTypes Pressure Events EventBus.

Open Scope rust_scope.

Inductive IoCompletion :=
  | IoPending
  | IoCompleted (duration_ticks : Z)
  | IoFailed (error : string).

Record IoRequest := mkReq {
  req_id : Z;
  req_operation : IoOperation;
  req_chunk : ChunkId;
  req_tier : TierId;
  issued_at : Z;             (* nanoseconds *)
  completion : IoCompletion;
}.

Definition set_completion (r : IoRequest) (c : IoCompletion) : IoRequest :=
  mkReq (req_id r) (req_operation r) (req_chunk r) (req_tier r) (issued_at r) c.

Record IoScheduler := mkSched {
  next_id : Z;
  pending : gmap Z IoRequest;
  completed : list IoRequest;
  max_pending : Z;
  event_emitter : EventEmitter;
}.

Definition Sched_new (em : EventEmitter) (max : Z) : IoScheduler := mkSched 1 ∅ [] max em.

(** [let _ = self.event_emitter.try_emit(..)]: the result is ignored. *)
Definition emit (now : Z) (e : Ev.Event) : M IoScheduler GhostError unit :=
  modify (fun s => mkSched (next_id s) (pending s) (completed s) (max_pending s)
                     (try_emit now e (event_emitter s)).2).

Definition set_pending (s : IoScheduler) m :=
  mkSched (next_id s) m (completed s) (max_pending s) (event_emitter s).
Definition set_next_id (s : IoScheduler) n :=
  mkSched n (pending s) (completed s) (max_pending s) (event_emitter s).
Definition push_completed (s : IoScheduler) r :=
  mkSched (next_id s) (pending s) (completed s ++ [r]) (max_pending s) (event_emitter s).

Definition pending_count (s : IoScheduler) : Z := Z.of_nat (size (pending s)).
Definition completed_count (s : IoScheduler) : Z := Z.of_nat (length (completed s)).
Definition is_at_capacity (s : IoScheduler) : bool := max_pending s <=? pending_count s.

Definition issue (now : Z) (op : IoOperation) (c : ChunkId) (t : TierId)
    : M IoScheduler GhostError Z :=
  s <- gets id ;;
  if max_pending s <=? pending_count s then
    throw (EInternal ("I/O scheduler at capacity: " +:+ pretty (pending_count s)
                      +:+ " pending requests (max: " +:+ pretty (max_pending s) +:+ ")"))
  else
    let i := next_id s in
    modify (fun s => set_next_id s (wrap 64 (i + 1))) ;;;
    emit now (Ev.IoRequestIssued 0 op c t) ;;;
    modify (fun s => set_pending s (<[i := mkReq i op c t now IoPending]> (pending s))) ;;;
    ret i.

(** [duration.as_nanos() as u64] of a saturating [duration_since]. *)
Definition ticks (now since : Z) : Z := wrap 64 (sat_sub now since).

(** [result] is [None] for [Ok(())], [Some e] for [Err(e)]. *)
Definition complete (now : Z) (i : Z) (result : option string) : M IoScheduler GhostError unit :=
  s <- gets id ;;
  match pending s !! i with
  | None => panic "IoScheduler::complete: unknown request ID"
  | Some r =>
      modify (fun s => set_pending s (delete i (pending s))) ;;;
      let d := ticks now (issued_at r) in
      match result with
      | None =>
          emit now (Ev.IoRequestCompleted 0 (req_operation r) (req_chunk r) (req_tier r) d) ;;;
          modify (fun s => push_completed s (set_completion r (IoCompleted d)))
      | Some e =>
          emit now (Ev.IoRequestFailed 0 (req_operation r) (req_chunk r) (req_tier r) e) ;;;
          modify (fun s => push_completed s (set_completion r (IoFailed e)))
      end
  end.

(** The body of the loop of [flush] for one id. *)
Definition flush_one (now i : Z) : M IoScheduler GhostError unit :=
  s <- gets id ;;
  match pending s !! i with
  | None => ret tt
  | Some r =>
      modify (fun s => set_pending s (delete i (pending s))) ;;;
      let d := ticks now (issued_at r) in
      emit now (Ev.IoRequestCompleted 0 (req_operation r) (req_chunk r) (req_tier r) d) ;;;
      modify (fun s => push_completed s (set_completion r (IoCompleted d)))
  end.

Fixpoint flush_all (now : Z) (ids : list Z) : M IoScheduler GhostError unit :=
  match ids with
  | [] => ret tt
  | i :: ids => flush_one now i ;;; flush_all now ids
  end.

(** [now] is the reading taken at the start, [later] the one at the end. *)
Definition flush (now later : Z) : M IoScheduler GhostError unit :=
  emit now (Ev.IoFlushIssued 0 Simulation) ;;;
  ids <- gets (fun s => btree_keys (pending s)) ;;
  flush_all now ids ;;;
  emit later (Ev.IoFlushCompleted 0 Simulation (ticks later now)).

Definition is_write (r : IoRequest) : bool := bool_decide (req_operation r = IoWrite).

Definition get_pending_cost (now : Z) (s : IoScheduler) : PhysicalCost :=
  let qd := wrap 32 (pending_count s) in
  let iop := fmin (fdiv f32 (of_int f32 qd) (of_int f32 64)) f32_one in
  let lat :=
    match btree_iter (pending s) with
    | (_, oldest) :: _ => of_int f64 (sat_sub now (issued_at oldest) / 1000000)
    | [] => f64_zero
    end in
  let total_ops := of_int f64 (Z.max (pending_count s) 1) in
  let write_count := of_int f64 (Z.of_nat (length (filter (fun r => is_write r = true)
                                                      (btree_values (pending s))))) in
  let bw :=
    if fgt write_count f64_zero then
      fdiv f64 (of_int f64 1000000)
        (fadd f64 f64_one (fmul f64 (fdiv f64 write_count total_ops) (of_int f64 10)))
    else of_int f64 500000 in
  mkCost lat bw f64_one iop qd.

(** ** Behaviour of the calls *)

Definition emitted (now : Z) (e : Ev.Event) (s : IoScheduler) : IoScheduler := (emit now e s).2.

Lemma emitted_fields now e s :
  next_id (emitted now e s) = next_id s /\ pending (emitted now e s) = pending s /\
  completed (emitted now e s) = completed s /\ max_pending (emitted now e s) = max_pending s.
Proof. done. Qed.

Lemma issue_full now op c t s :
  max_pending s <= pending_count s ->
  exists m, issue now op c t s = (Err (EInternal m), s).
Proof.
  intros H. unfold issue, bind, gets, id. simpl. rewrite (proj2 (Z.leb_le _ _)) by done.
  eexists. reflexivity.
Qed.

Lemma issue_room now op c t s :
  pending_count s < max_pending s ->
  exists em, issue now op c t s =
    (Ok (next_id s),
     mkSched (wrap 64 (next_id s + 1))
       (<[next_id s := mkReq (next_id s) op c t now IoPending]> (pending s))
       (completed s) (max_pending s) em).
Proof.
  intros H. unfold issue, bind, gets, modify, emit, ret, id. simpl.
  rewrite (proj2 (Z.leb_gt _ _)) by done. eexists. reflexivity.
Qed.

Lemma complete_known now i result r s :
  pending s !! i = Some r ->
  exists em c, complete now i result s =
    (Ok tt, mkSched (next_id s) (delete i (pending s)) (completed s ++ [set_completion r c])
              (max_pending s) em) /\
    match result with
    | None => c = IoCompleted (ticks now (issued_at r))
    | Some e => c = IoFailed e
    end.
Proof.
  intros H. unfold complete, bind, gets, modify, emit, id. simpl. rewrite H.
  destruct result; eexists _, _; split; reflexivity.
Qed.

Lemma complete_unknown now i result s :
  pending s !! i = None ->
  complete now i result s = (Panic "IoScheduler::complete: unknown request ID", s).
Proof. intros H. unfold complete, bind, gets, id. simpl. by rewrite H. Qed.

Lemma flush_one_known now i r s :
  pending s !! i = Some r ->
  exists em, flush_one now i s =
    (Ok tt, mkSched (next_id s) (delete i (pending s))
       (completed s ++ [set_completion r (IoCompleted (ticks now (issued_at r)))])
       (max_pending s) em).
Proof.
  intros H. unfold flush_one, bind, gets, modify, emit, id. simpl. rewrite H.
  eexists. reflexivity.
Qed.

(** ** Accounting invariant *)

Definition done_ids (s : IoScheduler) : list Z := req_id <$> completed s.

Record sched_inv (s : IoScheduler) : Prop := {
  si_next : 1 <= next_id s;
  si_pending : forall i r, pending s !! i = Some r ->
     req_id r = i /\ 1 <= i < next_id s /\ completion r = IoPending;
  si_done : forall i, i ∈ done_ids s -> 1 <= i < next_id s /\ pending s !! i = None;
  si_nodup : NoDup (done_ids s);
  si_settled : Forall (fun r => completion r <> IoPending) (completed s);
  si_total : pending_count s + completed_count s = next_id s - 1;
}.

Lemma sched_inv_new em max : sched_inv (Sched_new em max).
Proof.
  split; simpl; try done.
  - intros i Hi. by apply not_elem_of_nil in Hi.
  - constructor.
Qed.

Lemma sched_inv_issue now op c t s :
  sched_inv s -> next_id s + 1 < 2 ^ 64 -> sched_inv (issue now op c t s).2.
Proof.
  intros Hi Hw. destruct (decide (pending_count s < max_pending s)) as [H|H].
  2:{ destruct (issue_full now op c t s) as [m ->]; [lia|done]. }
  destruct (issue_room now op c t s H) as [em ->]. simpl.
  destruct Hi as [Hn Hp Hd Hnd Hs Ht].
  assert (pending s !! next_id s = None) as Hf.
  { destruct (pending s !! next_id s) as [r|] eqn:E; [|done]. apply Hp in E. lia. }
  rewrite wrap_in by (unfold in_u; lia).
  split; simpl; try done; try lia.
  - intros i r. rewrite lookup_insert_Some. intros [[<- <-]|[_ E]]; simpl; [auto with lia|].
    apply Hp in E. naive_solver lia.
  - intros i E. apply Hd in E as [? ?]. split; [lia|]. rewrite lookup_insert_ne; [done|lia].
  - unfold pending_count, completed_count in *. simpl.
    rewrite map_size_insert_None by done. lia.
Qed.

(** Settling a pending request with any final status. *)
Lemma sched_inv_settle s i r c em :
  sched_inv s -> pending s !! i = Some r -> c <> IoPending ->
  sched_inv (mkSched (next_id s) (delete i (pending s)) (completed s ++ [set_completion r c])
               (max_pending s) em).
Proof.
  intros [Hn Hp Hd Hnd Hs Ht] Hr Hc. destruct (Hp i r Hr) as (Hid & Hrange & _).
  split; simpl; try done.
  - intros j r' [_ E]%lookup_delete_Some. by apply Hp.
  - intros j. unfold done_ids. simpl. rewrite fmap_app, elem_of_app. simpl.
    rewrite list_elem_of_singleton. intros [E|E].
    + apply Hd in E as [? E]. split; [done|]. by rewrite lookup_delete_None, E; right.
    + rewrite Hid in E. subst j. split; [done|]. apply lookup_delete_eq.
  - unfold done_ids. simpl. rewrite fmap_app. apply NoDup_app. split_and!; [done| |apply NoDup_singleton].
    intros j Hj. simpl. rewrite list_elem_of_singleton, Hid. intros ->.
    apply Hd in Hj as [_ ?]. congruence.
  - apply Forall_app. split; [done|]. by rewrite Forall_singleton.
  - unfold pending_count, completed_count in *. simpl. rewrite length_app. simpl.
    rewrite map_size_delete, Hr.
    assert (size (pending s) <> 0%nat) by (intros E%map_size_empty_iff; by rewrite E in Hr).
    simpl. lia.
Qed.

Lemma sched_inv_complete now i result s : sched_inv s -> sched_inv (complete now i result s).2.
Proof.
  intros Hi. destruct (pending s !! i) as [r|] eqn:E; [|by rewrite complete_unknown].
  destruct (complete_known now i result r s E) as (em & c & -> & Hc). simpl.
  apply (sched_inv_settle s i r c em); [done..|]. by destruct result; subst c.
Qed.

Lemma sched_inv_emitted now e s : sched_inv s -> sched_inv (emit now e s).2.
Proof. intros [Hn Hp Hd Hnd Hs Ht]. by split. Qed.

(** The identifiers of pending and logged requests are [next_id - 1] distinct
    numbers of [1 .. next_id - 1], hence all of them. *)
Lemma issued_settled s i :
  sched_inv s -> 1 <= i < next_id s -> is_Some (pending s !! i) \/ i ∈ done_ids s.
Proof.
  intros [Hn Hp Hd Hnd _ Ht] Hi.
  set (l := (btree_keys (pending s) ++ done_ids s)).
  assert (NoDup l) as Hl.
  { apply NoDup_app. split_and!; [apply btree_iter_NoDup_keys| |done].
    intros j [r Hr]%elem_of_btree_keys [_ Hj]%Hd. congruence. }
  assert (l ⊆+ seqZ 1 (next_id s - 1)) as Hsub.
  { apply NoDup_submseteq; [done|]. intros j Hj. apply elem_of_seqZ.
    apply elem_of_app in Hj as [[r Hr]%elem_of_btree_keys|Hj].
    - apply Hp in Hr as (_ & ? & _). lia.
    - apply Hd in Hj as [? _]. lia. }
  apply submseteq_length_Permutation in Hsub.
  2:{ rewrite length_seqZ. unfold l, done_ids, btree_keys. rewrite length_app, !length_fmap.
      rewrite length_btree_iter. unfold pending_count, completed_count in Ht. lia. }
  assert (i ∈ l) as Hin by (rewrite Hsub; apply elem_of_seqZ; lia).
  apply elem_of_app in Hin as [Hin|Hin]; [left|by right]. by apply elem_of_btree_keys.
Qed.

(** ** Flushing *)

Lemma flush_all_spec now ids s :
  sched_inv s -> NoDup ids -> (forall i, i ∈ ids -> is_Some (pending s !! i)) ->
  exists s', flush_all now ids s = (Ok tt, s') /\ sched_inv s' /\
    next_id s' = next_id s /\ max_pending s' = max_pending s /\
    done_ids s' = done_ids s ++ ids /\
    (forall i, pending s' !! i = if decide (i ∈ ids) then None else pending s !! i).
Proof.
  revert s. induction ids as [|i ids IH]; intros s Hi Hnd Hin.
  - exists s. simpl. rewrite app_nil_r. split_and!; done.
  - apply NoDup_cons in Hnd as [Hnin Hnd].
    destruct (Hin i (list_elem_of_here _ _)) as [r Hr].
    destruct (flush_one_known now i r s Hr) as [em Hone].
    pose proof (sched_inv_settle s i r (IoCompleted (ticks now (issued_at r))) em Hi Hr
      ltac:(done)) as Hi1.
    simpl. unfold bind. rewrite Hone.
    edestruct (IH _ Hi1 Hnd) as (s' & Hs' & Hinv & Hn' & Hm' & Hd' & Hp').
    { intros j Hj. simpl. rewrite lookup_delete_ne; [|congruence]. apply Hin. by right. }
    exists s'. split_and!; try done.
    + rewrite Hd'. unfold done_ids. simpl. rewrite fmap_app. simpl.
      destruct (si_pending _ Hi i r Hr) as [-> _]. by rewrite <- app_assoc.
    + intros j. rewrite Hp'. simpl. destruct (decide (j = i)) as [->|Hne].
      * rewrite lookup_delete_eq, (decide_True (P := i ∈ i :: ids)) by by left. by case_decide.
      * rewrite lookup_delete_ne by done.
        repeat case_decide; rewrite ?elem_of_cons in *; naive_solver.
Qed.

Lemma flush_run now later s :
  sched_inv s ->
  exists s', flush now later s = (Ok tt, s') /\ sched_inv s' /\ next_id s' = next_id s /\
    max_pending s' = max_pending s /\ pending s' = ∅ /\
    done_ids s' = done_ids s ++ btree_keys (pending s).
Proof.
  intros Hi. unfold flush, bind at 1. simpl.
  pose proof (sched_inv_emitted now (Ev.IoFlushIssued 0 Simulation) s Hi) as Hi1.
  destruct (flush_all_spec now (btree_keys (pending s)) _ Hi1)
    as (s' & Hrun & Hi' & Hn & Hm & Hd & Hp).
  { apply btree_iter_NoDup_keys. }
  { intros i. by rewrite elem_of_btree_keys. }
  unfold bind. simpl in *. rewrite Hrun. simpl. eexists. split; [reflexivity|].
  split_and!; try done.
  - by apply (sched_inv_emitted later (Ev.IoFlushCompleted 0 Simulation (ticks later now)) s').
  - simpl. apply map_empty. intros i. rewrite Hp. case_decide as Hin; [done|].
    destruct (pending s !! i) eqn:E; [|done].
    exfalso. apply Hin, elem_of_btree_keys. by rewrite E.
Qed.

(** ** Sequences of calls *)

Inductive SchedCall :=
  | SIssue (now : Z) (op : IoOperation) (c : ChunkId) (t : TierId)
  | SComplete (now i : Z) (result : option string)
  | SFlush (now later : Z).

Definition sched_step (s : IoScheduler) (c : SchedCall) : IoScheduler :=
  match c with
  | SIssue now op ch t => (issue now op ch t s).2
  | SComplete now i result => (complete now i result s).2
  | SFlush now later => (flush now later s).2
  end.

Definition sched_run (calls : list SchedCall) (s : IoScheduler) : IoScheduler :=
  fold_left sched_step calls s.

Definition within_limit (s : IoScheduler) : Prop := pending_count s <= max_pending s.

Lemma sched_step_inv s c :
  sched_inv s -> within_limit s -> next_id s + 1 < 2 ^ 64 ->
  let s' := sched_step s c in
  sched_inv s' /\ within_limit s' /\ next_id s' <= next_id s + 1 /\ max_pending s' = max_pending s.
Proof.
  intros Hi Hl Hw. destruct c as [now op ch t|now i result|now later]; simpl; cbv zeta.
  - split; [by apply sched_inv_issue|]. unfold within_limit in *.
    destruct (decide (pending_count s < max_pending s)) as [H|H].
    + destruct (issue_room now op ch t s H) as [em ->]. simpl.
      pose proof (si_next _ Hi). rewrite wrap_in by (unfold in_u; lia).
      split_and!; [|lia|done]. unfold pending_count in *. simpl.
      rewrite map_size_insert. destruct (pending s !! next_id s); simpl; lia.
    + destruct (issue_full now op ch t s) as [m ->]; [lia|]. simpl. split_and!; [done|lia|done].
  - split; [by apply sched_inv_complete|].
    destruct (pending s !! i) as [r|] eqn:E.
    + destruct (complete_known now i result r s E) as (em & c & -> & _). simpl.
      split_and!; [|lia|done]. unfold within_limit, pending_count in *. simpl.
      rewrite map_size_delete, E. lia.
    + rewrite complete_unknown by done. simpl. split_and!; [done|lia|done].
  - destruct (flush_run now later s Hi) as (s' & -> & Hi' & Hn & Hm & Hp & _). simpl.
    split_and!; [done| |lia|done]. unfold within_limit, pending_count in *.
    rewrite Hp, Hm, map_size_empty. lia.
Qed.

Lemma sched_run_inv calls s :
  sched_inv s -> within_limit s -> next_id s + Z.of_nat (length calls) < 2 ^ 64 ->
  sched_inv (sched_run calls s) /\ within_limit (sched_run calls s) /\
  max_pending (sched_run calls s) = max_pending s.
Proof.
  revert s. induction calls as [|c calls IH]; intros s Hi Hl Hw; simpl; [done|].
  destruct (sched_step_inv s c Hi Hl) as (Hi' & Hl' & Hn' & Hm'); [simpl in Hw; lia|].
  rewrite <- Hm'. apply IH; [done..|]. simpl in Hw. lia.
Qed.

(** C11: Conservation of I/O requests.  After any sequence of issue, complete
    and flush calls on a fresh scheduler, the identifiers handed out so far,
    1 .. next_id-1, are split exactly between the pending map and the
    completion log: none is lost, none is settled twice, every logged request
    is in a final state, and the number in flight never exceeds the limit. *)
Theorem io_conservation em limit calls :
  0 <= limit -> Z.of_nat (length calls) < 2 ^ 63 ->
  let s := sched_run calls (Sched_new em limit) in
  (forall i, 1 <= i < next_id s <-> is_Some (pending s !! i) \/ i ∈ done_ids s) /\
  (forall i, is_Some (pending s !! i) -> i ∉ done_ids s) /\
  NoDup (done_ids s) /\
  Forall (fun r => completion r <> IoPending) (completed s) /\
  pending_count s + completed_count s = next_id s - 1 /\
  pending_count s <= limit.
Proof.
  intros Hlim Hlen. cbv zeta.
  destruct (sched_run_inv calls (Sched_new em limit)) as (Hi & Hl & Hm);
    [apply sched_inv_new|done|simpl; lia|].
  set (s := sched_run _ _) in *. pose proof Hi as [Hn Hp Hd Hnd Hs Ht].
  split_and!; try done.
  2:{ intros i [r Hr] [_ E]%Hd. congruence. }
  2:{ unfold within_limit in Hl. by rewrite Hm in Hl. }
  intros i. split; [by apply issued_settled|].
  intros [[r Hr]|Hr]; [by apply Hp in Hr as (_ & ? & _)|by apply Hd in Hr as [? _]].
Qed.

Definition ex_emitter : EventEmitter := Emitter_new (mkChannel [] 8 true).
Definition ex_calls : list SchedCall :=
  [SIssue 5 IoWrite (mkChunkId []) Disk; SIssue 6 IoRead (mkChunkId []) Disk;
   SIssue 7 IoRead (mkChunkId []) Disk; SComplete 9 1 (Some "injected"%string)].

Lemma io_conservation_witness :
  let s := sched_run ex_calls (Sched_new ex_emitter 2) in
  next_id s = 3 /\ pending_count s = 1 /\ done_ids s = [1] /\
  pending_count s + completed_count s = next_id s - 1.
Proof.
  cbv zeta. split; [vm_compute; reflexivity|]. split; [vm_compute; reflexivity|].
  split; [vm_compute; reflexivity|].
  destruct (io_conservation ex_emitter 2 ex_calls) as (_ & _ & _ & _ & H & _);
    [lia|vm_compute; reflexivity|exact H].
Defined.

(** The outcome of each scheduler call.  An issue fails exactly when the
    scheduler is at capacity, and then changes nothing; otherwise it returns a
    fresh identifier, pending afterwards.  Completing an identifier panics
    exactly when it is not pending, changing nothing.  A flush settles every
    pending request in identifier order and leaves none in flight. *)
Theorem io_call_outcomes s :
  sched_inv s -> next_id s + 1 < 2 ^ 64 ->
  (forall now op c t,
     if is_at_capacity s
     then (exists m, issue now op c t s = (Err (EInternal m), s))
     else exists s', issue now op c t s = (Ok (next_id s), s') /\
            pending s !! next_id s = None /\ (next_id s ∉ done_ids s) /\
            pending s' = <[next_id s := mkReq (next_id s) op c t now IoPending]> (pending s) /\
            completed s' = completed s) /\
  (forall now i result,
     match pending s !! i with
     | None => exists m, complete now i result s = (Panic m, s)
     | Some r => exists s' c, complete now i result s = (Ok tt, s') /\
         pending s' = delete i (pending s) /\
         completed s' = completed s ++ [set_completion r c] /\
         c = from_option IoFailed (IoCompleted (ticks now (issued_at r))) result
     end) /\
  (forall now later, exists s', flush now later s = (Ok tt, s') /\ pending s' = ∅ /\
     done_ids s' = done_ids s ++ btree_keys (pending s)).
Proof.
  intros Hi Hw. split_and!.
  - intros now op c t. unfold is_at_capacity. case_match; bool_to_prop.
    + by apply issue_full.
    + destruct (issue_room now op c t s) as [em ->]; [done|]. eexists. split_and!; try done.
      * destruct (pending s !! next_id s) eqn:E; [|done]. apply (si_pending _ Hi) in E. lia.
      * intros E%(si_done _ Hi). lia.
  - intros now i result. case_match eqn:E.
    + destruct (complete_known now i result i0 s E) as (em & c & -> & Hc).
      eexists _, c. split_and!; try done. by destruct result.
    + eexists. by apply complete_unknown.
  - intros now later. destruct (flush_run now later s Hi) as (s' & -> & _ & _ & _ & ? & ?). eauto.
Qed.

Lemma io_call_outcomes_witness :
  exists s', flush 20 30 (sched_run ex_calls (Sched_new ex_emitter 2)) = (Ok tt, s') /\
    pending s' = ∅.
Proof.
  destruct (io_call_outcomes (sched_run ex_calls (Sched_new ex_emitter 2))) as (_ & _ & H).
  - apply sched_run_inv; [apply sched_inv_new|unfold within_limit; vm_compute; discriminate
      |vm_compute; reflexivity].
  - vm_compute; reflexivity.
  - destruct (H 20 30) as (s' & H1 & H2 & _). exists s'. split; [exact H1|exact H2].
Defined.
