(* ===== verification/SimBackend.v ===== *)
(** * The simulated backend: [ghost-tier/src/sim_backend.rs], [sim_config.rs]
    and [sim_metrics.rs]

    A bump allocator with injected latency and failures.  The random generator
    is a dependency: [Rng] is its interface, and every draw threads its state.
    Durations are nanoseconds.  [sleep] has no effect on the state.  A call is
    one step; the section [Race] takes [allocate] apart into the loads and
    atomic additions it is made of. *)

From Stdlib Require Import ZArith Lia SpecFloat.
From stdpp Require Import base gmap strings pretty relations list.
From S2P Require Import Prelude Floats CoreTypes Pressure Backend Events EventBus IoScheduler.

Open Scope rust_scope.

(** ** Configuration *)

Record LatencyConfig := mkLatency { base : Z; per_byte : Z; jitter_fraction : float }.
Definition LatencyConfig_default : LatencyConfig := mkLatency 10000 1 (lit f64 1 10).

Record BandwidthConfig := mkBandwidth { bytes_per_second : Z }.
Definition BandwidthConfig_default : BandwidthConfig := mkBandwidth (100 * 1024 * 1024).

Inductive FailurePattern := FRandom | FBurst | FDegrading | FIntermittent | FCascading.

Record FailureConfig := mkFailure {
  write_failure_rate : float;
  read_failure_rate : float;
  alloc_failure_rate : float;
  corruption_on_failure : bool;
  corruption_rate : float;
  timeout_rate : float;
  device_loss_rate : float;
  failure_pattern : FailurePattern;
}.
Definition FailureConfig_default : FailureConfig :=
  mkFailure f64_zero f64_zero f64_zero false f64_zero f64_zero f64_zero FRandom.

Record SimConfig := mkSimConfig {
  capacity : Z;
  latency : LatencyConfig;
  bandwidth : BandwidthConfig;
  failure : FailureConfig;
  seed : Z;
  max_concurrent_ops : Z;
  simulate_fragmentation : bool;
  fragmentation_factor : float;
}.
Definition SimConfig_default : SimConfig :=
  mkSimConfig (1024 * 1024 * 1024) LatencyConfig_default BandwidthConfig_default
    FailureConfig_default 42 64 false f64_zero.

Definition with_capacity (n : Z) : SimConfig :=
  let d := SimConfig_default in
  mkSimConfig n (latency d) (bandwidth d) (failure d) (seed d) (max_concurrent_ops d)
    (simulate_fragmentation d) (fragmentation_factor d).
Definition with_seed (c : SimConfig) (n : Z) : SimConfig :=
  mkSimConfig (capacity c) (latency c) (bandwidth c) (failure c) n (max_concurrent_ops c)
    (simulate_fragmentation c) (fragmentation_factor c).
Definition with_latency (c : SimConfig) (l : LatencyConfig) : SimConfig :=
  mkSimConfig (capacity c) l (bandwidth c) (failure c) (seed c) (max_concurrent_ops c)
    (simulate_fragmentation c) (fragmentation_factor c).
Definition with_bandwidth (c : SimConfig) (b : BandwidthConfig) : SimConfig :=
  mkSimConfig (capacity c) (latency c) b (failure c) (seed c) (max_concurrent_ops c)
    (simulate_fragmentation c) (fragmentation_factor c).
Definition with_failure (c : SimConfig) (f : FailureConfig) : SimConfig :=
  mkSimConfig (capacity c) (latency c) (bandwidth c) f (seed c) (max_concurrent_ops c)
    (simulate_fragmentation c) (fragmentation_factor c).
Definition with_fragmentation (c : SimConfig) (factor : float) : SimConfig :=
  mkSimConfig (capacity c) (latency c) (bandwidth c) (failure c) (seed c)
    (max_concurrent_ops c) true (fclamp factor f64_zero f64_one).

Definition with_failure_pattern (c : SimConfig) (p : FailurePattern) : SimConfig :=
  let f := failure c in
  with_failure c (mkFailure (write_failure_rate f) (read_failure_rate f) (alloc_failure_rate f)
    (corruption_on_failure f) (corruption_rate f) (timeout_rate f) (device_loss_rate f) p).
Definition with_corruption_rate (c : SimConfig) (r : float) : SimConfig :=
  let f := failure c in
  with_failure c (mkFailure (write_failure_rate f) (read_failure_rate f) (alloc_failure_rate f)
    (corruption_on_failure f) (fclamp r f64_zero f64_one) (timeout_rate f) (device_loss_rate f)
    (failure_pattern f)).
Definition with_timeout_rate (c : SimConfig) (r : float) : SimConfig :=
  let f := failure c in
  with_failure c (mkFailure (write_failure_rate f) (read_failure_rate f) (alloc_failure_rate f)
    (corruption_on_failure f) (corruption_rate f) (fclamp r f64_zero f64_one)
    (device_loss_rate f) (failure_pattern f)).
Definition with_device_loss_rate (c : SimConfig) (r : float) : SimConfig :=
  let f := failure c in
  with_failure c (mkFailure (write_failure_rate f) (read_failure_rate f) (alloc_failure_rate f)
    (corruption_on_failure f) (corruption_rate f) (timeout_rate f) (fclamp r f64_zero f64_one)
    (failure_pattern f)).

(** ** Metrics: atomic counters, wrapping at 64 bits *)

Record SimMetrics := mkMetrics {
  alloc_count : Z;
  dealloc_count : Z;
  write_count : Z;
  read_count : Z;
  failure_count : Z;
  bytes_allocated : Z;
  bytes_deallocated : Z;
  bytes_written : Z;
  bytes_read : Z;
  total_latency_us : Z;
}.

Definition Metrics_new : SimMetrics := mkMetrics 0 0 0 0 0 0 0 0 0 0.

Definition bump (n k : Z) : Z := wrap 64 (n + k).

Definition record_alloc (n : Z) (m : SimMetrics) : SimMetrics :=
  mkMetrics (bump (alloc_count m) 1) (dealloc_count m) (write_count m) (read_count m)
    (failure_count m) (bump (bytes_allocated m) n) (bytes_deallocated m) (bytes_written m)
    (bytes_read m) (total_latency_us m).
Definition record_dealloc (n : Z) (m : SimMetrics) : SimMetrics :=
  mkMetrics (alloc_count m) (bump (dealloc_count m) 1) (write_count m) (read_count m)
    (failure_count m) (bytes_allocated m) (bump (bytes_deallocated m) n) (bytes_written m)
    (bytes_read m) (total_latency_us m).
Definition record_write (n : Z) (m : SimMetrics) : SimMetrics :=
  mkMetrics (alloc_count m) (dealloc_count m) (bump (write_count m) 1) (read_count m)
    (failure_count m) (bytes_allocated m) (bytes_deallocated m) (bump (bytes_written m) n)
    (bytes_read m) (total_latency_us m).
Definition record_read (n : Z) (m : SimMetrics) : SimMetrics :=
  mkMetrics (alloc_count m) (dealloc_count m) (write_count m) (bump (read_count m) 1)
    (failure_count m) (bytes_allocated m) (bytes_deallocated m) (bytes_written m)
    (bump (bytes_read m) n) (total_latency_us m).
Definition record_failure (m : SimMetrics) : SimMetrics :=
  mkMetrics (alloc_count m) (dealloc_count m) (write_count m) (read_count m)
    (bump (failure_count m) 1) (bytes_allocated m) (bytes_deallocated m) (bytes_written m)
    (bytes_read m) (total_latency_us m).
Definition record_latency (us : Z) (m : SimMetrics) : SimMetrics :=
  mkMetrics (alloc_count m) (dealloc_count m) (write_count m) (read_count m)
    (failure_count m) (bytes_allocated m) (bytes_deallocated m) (bytes_written m)
    (bytes_read m) (bump (total_latency_us m) us).
Definition metrics_reset (m : SimMetrics) : SimMetrics := Metrics_new.

Definition avg_latency_us {E} (b : Build) (m : SimMetrics) : outcome E float :=
  let? n1 := arith b 64 (alloc_count m + dealloc_count m) in
  let? n2 := arith b 64 (n1 + write_count m) in
  let? total_ops := arith b 64 (n2 + read_count m) in
  Ok (if total_ops =? 0 then f64_zero
      else fdiv f64 (of_int f64 (total_latency_us m)) (of_int f64 total_ops)).

(** ** The random generator *)

Class Rng := {
  rng_state : Type;
  seed_from_u64 : Z -> rng_state;
  gen_f64 : rng_state -> float * rng_state;            (* in [0, 1) *)
  gen_range : Z -> rng_state -> Z * rng_state;         (* in 0..=hi *)
  gen_range_spec hi r : 0 <= hi -> 0 <= (gen_range hi r).1 <= hi;
}.

(** ** The backend *)

Section backend.
Context `{R : Rng}.

Record SimBackend := mkSim {
  config : SimConfig;
  storage : gmap Z (list byte);
  next_offset : Z;
  used : Z;
  rng : rng_state;
  metrics : SimMetrics;
  allocated_offsets : gset Z;
  sim_created_at : Z;
  io_scheduler : IoScheduler;
}.

(** The receiver of the event channel is dropped at once, so every emission
    fails with [Closed]. *)
Definition Sim_new (now : Z) (cfg : SimConfig) : SimBackend :=
  mkSim cfg ∅ 0 0 (seed_from_u64 (seed cfg)) Metrics_new ∅ now
    (Sched_new (Emitter_new (mkChannel [] 1024 false)) 64).

Definition set_storage (s : SimBackend) m :=
  mkSim (config s) m (next_offset s) (used s) (rng s) (metrics s) (allocated_offsets s)
    (sim_created_at s) (io_scheduler s).
Definition set_next_offset (s : SimBackend) n :=
  mkSim (config s) (storage s) n (used s) (rng s) (metrics s) (allocated_offsets s)
    (sim_created_at s) (io_scheduler s).
Definition set_used (s : SimBackend) n :=
  mkSim (config s) (storage s) (next_offset s) n (rng s) (metrics s) (allocated_offsets s)
    (sim_created_at s) (io_scheduler s).
Definition set_rng (s : SimBackend) r :=
  mkSim (config s) (storage s) (next_offset s) (used s) r (metrics s) (allocated_offsets s)
    (sim_created_at s) (io_scheduler s).
Definition set_metrics (s : SimBackend) m :=
  mkSim (config s) (storage s) (next_offset s) (used s) (rng s) m (allocated_offsets s)
    (sim_created_at s) (io_scheduler s).
Definition set_allocated (s : SimBackend) a :=
  mkSim (config s) (storage s) (next_offset s) (used s) (rng s) (metrics s) a
    (sim_created_at s) (io_scheduler s).
Definition set_io (s : SimBackend) i :=
  mkSim (config s) (storage s) (next_offset s) (used s) (rng s) (metrics s)
    (allocated_offsets s) (sim_created_at s) i.

Abbreviation SM := (M SimBackend BackendError).

Definition upd_metrics (f : SimMetrics -> SimMetrics) : SM unit :=
  modify (fun s => set_metrics s (f (metrics s))).

(** [self.io_scheduler.lock().op(..)]. *)
Definition with_io {A} (m : M IoScheduler GhostError A) : SM A := fun s =>
  let '(o, i) := m (io_scheduler s) in
  (map_err (fun e => BInternal (ghost_error_display e)) o, set_io s i).

Definition sim_total_us (s : SimBackend) (bytes : Z) : Z :=
  let l := latency (config s) in
  let base_us := wrap 64 (base l / 1000) in
  let per_byte_us := wrap 64 (per_byte l / 1000) in
  sat_add 64 base_us (sat_mul 64 per_byte_us bytes).

Definition simulate_latency (bytes : Z) : SM unit :=
  s <- gets id ;;
  let l := latency (config s) in
  let total_us := sim_total_us s bytes in
  jitter <- (if fgt (jitter_fraction l) f64_zero && (0 <? total_us) then
               let jitter_range := as_u 64 (fmul f64 (of_int f64 total_us) (jitter_fraction l)) in
               if 0 <? jitter_range then
                 let '(j, r) := gen_range jitter_range (rng s) in
                 modify (fun s => set_rng s r) ;;; ret j
               else ret 0
             else ret 0) ;;
  let total_delay_us := sat_add 64 total_us jitter in
  upd_metrics (record_latency total_delay_us).

Definition failure_rate (c : SimConfig) (operation : string) : float :=
  if decide (operation = "write"%string) then write_failure_rate (failure c)
  else if decide (operation = "read"%string) then read_failure_rate (failure c)
  else if decide (operation = "alloc"%string) then alloc_failure_rate (failure c)
  else f64_zero.

Definition should_fail (operation : string) : SM bool :=
  s <- gets id ;;
  let rate := failure_rate (config s) operation in
  if fle rate f64_zero then ret false
  else if fge rate f64_one then ret true
  else
    let '(x, r) := gen_f64 (rng s) in
    modify (fun s => set_rng s r) ;;; ret (flt x rate).

Definition effective_available (s : SimBackend) : Z :=
  let raw_available := sat_sub (capacity (config s)) (used s) in
  if negb (simulate_fragmentation (config s)) || fle (fragmentation_factor (config s)) f64_zero
  then raw_available
  else as_u 64 (ffloor f64 (fmul f64 (of_int f64 raw_available)
                 (fsub f64 f64_one (fragmentation_factor (config s))))).

Definition sim_memory_pressure (s : SimBackend) : float :=
  let u := of_int f64 (used s) in
  let c := of_int f64 (capacity (config s)) in
  if fle c f64_zero then f64_one else fclamp (fdiv f64 u c) f64_zero f64_one.

(** [Duration::as_secs_f64]. *)
Definition as_secs_f64 (d : Z) : float :=
  fadd f64 (of_int f64 (d / 1000000000))
    (fdiv f64 (of_int f64 (d mod 1000000000)) (of_int f64 1000000000)).

Definition sim_io_pressure (b : Build) (now : Z) (s : SimBackend) : outcome BackendError float :=
  let bytes_per_sec := of_int f64 (bytes_per_second (bandwidth (config s))) in
  if fle bytes_per_sec f64_zero then Ok f64_one
  else
    let el := as_secs_f64 (sat_sub now (sim_created_at s)) in
    if fle el f64_zero then Ok f64_zero
    else
      let? total_bytes := arith b 64 (bytes_written (metrics s) + bytes_read (metrics s)) in
      let throughput := fdiv f64 (of_int f64 total_bytes) el in
      Ok (fclamp (fdiv f64 throughput bytes_per_sec) f64_zero f64_one).

Definition allocate (size : Z) : SM Allocation :=
  if size =? 0 then throw (BInternal "allocation size must be greater than zero")
  else
    simulate_latency 0 ;;;
    fails <- should_fail "alloc" ;;
    if fails then
      upd_metrics record_failure ;;;
      throw (BInternal "simulated allocation failure")
    else
      effective_avail <- gets effective_available ;;
      if effective_avail <? size then throw (InsufficientSpace size effective_avail)
      else
        off <- gets next_offset ;;
        modify (fun s => set_next_offset s (wrap 64 (off + size))) ;;;
        modify (fun s => set_used s (wrap 64 (used s + size))) ;;;
        modify (fun s => set_allocated s ({[off]} ∪ allocated_offsets s)) ;;;
        upd_metrics (record_alloc size) ;;;
        ret (mkAllocation off size BDUnit).

Definition deallocate (a : Allocation) : SM unit :=
  simulate_latency 0 ;;;
  s <- gets id ;;
  if negb (bool_decide (offset a ∈ allocated_offsets s)) then
    throw (AllocationNotFound (offset a))
  else
    modify (fun s => set_allocated s (allocated_offsets s ∖ {[offset a]})) ;;;
    modify (fun s => set_storage s (delete (offset a) (storage s))) ;;;
    modify (fun s => set_used s (wrap 64 (used s - alloc_size a))) ;;;
    upd_metrics (record_dealloc (alloc_size a)).

Context `{Blake3}.

Definition offset_chunk (a : Allocation) : ChunkId :=
  from_data (bytes_of_string ("offset-" +:+ pretty (offset a))).

Definition write (now : Z) (a : Allocation) (data : list byte) : SM unit :=
  if alloc_size a <? Z.of_nat (length data) then
    throw (WriteFailed (size_mismatch "data size " (length data)
                          " exceeds allocation size " (alloc_size a)))
  else
    req_id <- with_io (issue now IoWrite (offset_chunk a) Simulation) ;;
    simulate_latency (Z.of_nat (length data)) ;;;
    fails <- should_fail "write" ;;
    if fails then
      upd_metrics record_failure ;;;
      modify (fun s => if corruption_on_failure (failure (config s))
                       then set_storage s (<[offset a := replicate (length data) Byte.xff]> (storage s))
                       else s) ;;;
      with_io (complete now req_id (Some "simulated write failure"%string)) ;;;
      throw (WriteFailed "simulated write failure")
    else
      modify (fun s => set_storage s (<[offset a := data]> (storage s))) ;;;
      with_io (complete now req_id None) ;;;
      upd_metrics (record_write (Z.of_nat (length data))).

Definition read (now : Z) (a : Allocation) (buf : list byte) : SM (list byte) :=
  if alloc_size a <? Z.of_nat (length buf) then
    throw (ReadFailed (size_mismatch "buffer size " (length buf)
                         " exceeds allocation size " (alloc_size a)))
  else
    req_id <- with_io (issue now IoRead (offset_chunk a) Simulation) ;;
    simulate_latency (Z.of_nat (length buf)) ;;;
    fails <- should_fail "read" ;;
    if fails then
      upd_metrics record_failure ;;;
      with_io (complete now req_id (Some "simulated read failure"%string)) ;;;
      throw (ReadFailed "simulated read failure")
    else
      s <- gets id ;;
      match storage s !! offset a with
      | Some data =>
          with_io (complete now req_id None) ;;;
          upd_metrics (record_read (Z.of_nat (Nat.min (length buf) (length data)))) ;;;
          ret (copy_prefix buf data)
      | None =>
          with_io (complete now req_id (Some "allocation not found"%string)) ;;;
          throw (AllocationNotFound (offset a))
      end.

Definition verify_integrity (a : Allocation) (expected : list byte) : SM unit :=
  simulate_latency 0 ;;;
  s <- gets id ;;
  match storage s !! offset a with
  | Some data =>
      if decide (blake3 data = expected) then ret tt
      else throw (IntegrityFailed ("checksum mismatch at offset " +:+ pretty (offset a)
             +:+ ": expected " +:+ hex_encode expected +:+ ", got " +:+ hex_encode (blake3 data)))
  | None => throw (AllocationNotFound (offset a))
  end.

Definition health_check : SM unit :=
  simulate_latency 0 ;;;
  s <- gets id ;;
  if fgt (sim_memory_pressure s) (lit f64 99 100)
  then throw (Unhealthy "memory pressure critical") else ret tt.

Definition sim_pressure (b : Build) (now : Z) : SM PressureState :=
  s <- gets id ;;
  io <- lift (sim_io_pressure b now s) ;;
  ret (mkPressure (cast f32 (sim_memory_pressure s)) f32_zero (cast f32 io) 0 0).

Definition sim_cost_model (b : Build) (now : Z) : SM PhysicalCost :=
  s <- gets id ;;
  io <- lift (sim_io_pressure b now s) ;;
  let l := latency (config s) in
  let latency_ms := fadd f64 (of_int f64 (base l / 1000000))
                      (fmul f64 (of_int f64 (per_byte l / 1000000)) (of_int f64 1024)) in
  ret (mkCost latency_ms (of_int f64 (bytes_per_second (bandwidth (config s))))
    (fsub f64 f64_one (write_failure_rate (failure (config s)))) (cast f32 io) 0).
End backend.
Arguments SimBackend {_}.

(** ** Effects of the injected latency and failures *)

Section facts.
Context `{R : Rng} `{B3 : Blake3}.

(** The parts of the state that latency and failure draws do not touch. *)
Definition same_core (s s' : SimBackend) : Prop :=
  config s' = config s /\ storage s' = storage s /\ next_offset s' = next_offset s /\
  used s' = used s /\ allocated_offsets s' = allocated_offsets s /\
  sim_created_at s' = sim_created_at s /\ io_scheduler s' = io_scheduler s.

#[global] Instance same_core_preorder : PreOrder same_core.
Proof. split; [done|]. unfold same_core. intros x y z H1 H2. naive_solver congruence. Qed.

Lemma simulate_latency_core bytes s :
  exists s', simulate_latency bytes s = (Ok tt, s') /\ same_core s s'.
Proof.
  unfold simulate_latency, upd_metrics, bind, gets, modify, ret. cbv zeta.
  repeat (case_match; simplify_eq/=); by eexists.
Qed.

Lemma should_fail_core op s :
  exists f s', should_fail op s = (Ok f, s') /\ same_core s s' /\
    (f = true -> fle (failure_rate (config s) op) f64_zero = false).
Proof.
  unfold should_fail, bind, gets, modify, ret, id. cbv zeta.
  repeat (case_match; simplify_eq/=); eexists _, _; split_and!; done.
Qed.

(** ** The scheduler is idle between calls *)

Definition io_idle (i : IoScheduler) : Prop :=
  sched_inv i /\ pending i = ∅ /\ max_pending i = 64.

Lemma io_round now op c t i :
  io_idle i -> next_id i + 1 < 2 ^ 64 ->
  exists i1, issue now op c t i = (Ok (next_id i), i1) /\
    forall res, exists i2, complete now (next_id i) res i1 = (Ok tt, i2) /\ io_idle i2 /\
      next_id i2 = next_id i + 1.
Proof.
  intros (Hi & He & Hm) Hw.
  assert (pending_count i < max_pending i) as Hroom.
  { unfold pending_count. rewrite He, map_size_empty, Hm. lia. }
  pose proof (sched_inv_issue now op c t i Hi Hw) as Hi1.
  destruct (issue_room now op c t i Hroom) as [em Hiss]. rewrite Hiss in *.
  eexists. split; [reflexivity|]. intros res.
  set (i1 := mkSched _ _ _ _ _) in *.
  assert (pending i1 !! next_id i = Some (mkReq (next_id i) op c t now IoPending)) as Hl
    by (simpl; apply lookup_insert_eq).
  pose proof (sched_inv_complete now (next_id i) res i1 Hi1) as Hi2.
  destruct (complete_known now (next_id i) res _ i1 Hl) as (em' & c' & Hc & _).
  rewrite Hc in *. eexists. split; [reflexivity|]. split.
  - split_and!; [done| |done]. simpl. by rewrite He, insert_empty, delete_singleton_eq.
  - simpl. apply wrap_in. destruct Hi. unfold in_u in *. lia.
Qed.

(** ** What each call does *)

(** [s'] is [s] with storage [m], and one I/O request more behind it. *)
Definition stored_as (s s' : SimBackend) (m : gmap Z (list byte)) : Prop :=
  config s' = config s /\ storage s' = m /\ next_offset s' = next_offset s /\
  used s' = used s /\ allocated_offsets s' = allocated_offsets s /\ io_idle (io_scheduler s') /\
  next_id (io_scheduler s') = next_id (io_scheduler s) + 1.

Definition ready (s : SimBackend) : Prop :=
  io_idle (io_scheduler s) /\ next_id (io_scheduler s) + 1 < 2 ^ 64.

Definition fits (a : Allocation) (d : list byte) : bool := Z.of_nat (length d) <=? alloc_size a.

Definition garbled (s : SimBackend) (a : Allocation) (d : list byte) : gmap Z (list byte) :=
  if corruption_on_failure (failure (config s))
  then <[offset a := replicate (length d) Byte.xff]> (storage s) else storage s.

Lemma write_cases now a d s :
  ready s ->
  exists o s', write now a d s = (o, s') /\
    if fits a d then
      (o = Ok tt /\ stored_as s s' (<[offset a := d]> (storage s))) \/
      (o = Err (WriteFailed "simulated write failure") /\ stored_as s s' (garbled s a d) /\
       fle (write_failure_rate (failure (config s))) f64_zero = false)
    else s' = s /\ exists m, o = Err (WriteFailed m).
Proof.
  intros [Hidle Hw]. unfold write, fits. rewrite Z.leb_antisym.
  case_match; simpl; [eexists _, s; split_and!; eauto|].
  destruct (io_round now IoWrite (offset_chunk a) Simulation _ Hidle Hw) as (i1 & Hiss & Hcomp).
  unfold with_io at 1, bind at 1. rewrite Hiss. cbn [map_err]. set (s1 := set_io s i1).
  destruct (simulate_latency_core (Z.of_nat (length d)) s1) as (s2 & Hlat & C2).
  erewrite bind_Ok by exact Hlat.
  destruct (should_fail_core "write" s2) as (f & s3 & Hf & C3 & Hnf).
  erewrite bind_Ok by exact Hf.
  assert (same_core s1 s3) as (E1 & E2 & E3 & E4 & E5 & _ & E7) by (by etrans).
  assert (config s2 = config s) as Ecfg by apply C2.
  destruct f.
  - destruct (Hcomp (Some "simulated write failure"%string)) as (i2 & Hc & Hi2 & Hn2).
    unfold upd_metrics, bind, modify, throw, with_io. simpl in *.
    rewrite E1. destruct (corruption_on_failure (failure (config s))) eqn:Ec; simpl;
      rewrite E7, Hc; simpl; eexists _, _; (split; [reflexivity|]); right; unfold stored_as, garbled; rewrite ?Ec;
      split_and!; simpl; try congruence; try done; rewrite <- Ecfg; by apply Hnf.
  - destruct (Hcomp None) as (i2 & Hc & Hi2 & Hn2).
    unfold upd_metrics, bind, modify, with_io. simpl in *. rewrite E7, Hc. simpl.
    eexists _, _. split; [reflexivity|]. left. split; [done|].
    split_and!; simpl; try congruence; done.
Qed.

Lemma read_cases now a buf s :
  ready s ->
  exists o s', read now a buf s = (o, s') /\
    if fits a buf then
      stored_as s s' (storage s) /\
      ((o = Err (ReadFailed "simulated read failure") /\
        fle (read_failure_rate (failure (config s))) f64_zero = false) \/
       o = from_option (fun d => Ok (copy_prefix buf d)) (Err (AllocationNotFound (offset a)))
             (storage s !! offset a))
    else s' = s /\ exists m, o = Err (ReadFailed m).
Proof.
  intros [Hidle Hw]. unfold read, fits. rewrite Z.leb_antisym.
  case_match; simpl; [eexists _, s; split_and!; eauto|].
  destruct (io_round now IoRead (offset_chunk a) Simulation _ Hidle Hw) as (i1 & Hiss & Hcomp).
  unfold with_io at 1, bind at 1. rewrite Hiss. cbn [map_err]. set (s1 := set_io s i1).
  destruct (simulate_latency_core (Z.of_nat (length buf)) s1) as (s2 & Hlat & C2).
  erewrite bind_Ok by exact Hlat.
  destruct (should_fail_core "read" s2) as (f & s3 & Hf & C3 & Hnf).
  erewrite bind_Ok by exact Hf.
  assert (same_core s1 s3) as (E1 & E2 & E3 & E4 & E5 & _ & E7) by (by etrans).
  assert (config s2 = config s) as Ecfg by apply C2. rewrite Ecfg in Hnf.
  destruct f.
  - destruct (Hcomp (Some "simulated read failure"%string)) as (i2 & Hc & Hi2 & Hn2).
    unfold upd_metrics, bind, modify, throw, with_io. simpl in *. rewrite E7, Hc. simpl.
    eexists _, _. split; [reflexivity|]. split; [done|]. left. split; [done|].
    by apply Hnf.
  - unfold gets, bind at 1, id. simpl in *. rewrite E2.
    destruct (storage s !! offset a) as [d|] eqn:Ed.
    + destruct (Hcomp None) as (i2 & Hc & Hi2 & Hn2).
      unfold upd_metrics, bind, modify, with_io. simpl. rewrite E7, Hc. simpl.
      eexists _, _. split; [reflexivity|]. split; [|by right]. by split_and!.
    + destruct (Hcomp (Some "allocation not found"%string)) as (i2 & Hc & Hi2 & Hn2).
      unfold upd_metrics, bind, modify, throw, with_io. simpl. rewrite E7, Hc. simpl.
      eexists _, _. split; [reflexivity|]. split; [|by right]. by split_and!.
Qed.

(** ** Runs with ownership *)

Inductive SimOp :=
  | SAlloc (size : Z)
  | SDealloc (a : Allocation)
  | SWrite (now : Z) (a : Allocation) (data : list byte)
  | SRead (now : Z) (a : Allocation) (buf : list byte)
  | SHealth.

Definition may_call (o : SimOp) (s : SimBackend) (live : gmap Z Z) : Prop :=
  match o with
  | SAlloc size => 0 <= size /\ next_offset s + size < 2 ^ 64
  | SDealloc a => live !! offset a = Some (alloc_size a)
  | SWrite _ a _ | SRead _ a _ =>
      live !! offset a = Some (alloc_size a) /\ next_id (io_scheduler s) + 1 < 2 ^ 64
  | SHealth => True
  end.

Definition exec (o : SimOp) (s : SimBackend) (live : gmap Z Z) : SimBackend * gmap Z Z :=
  match o with
  | SAlloc size =>
      match allocate size s with
      | (Ok a, s') => (s', <[offset a := alloc_size a]> live)
      | (_, s') => (s', live)
      end
  | SDealloc a => ((deallocate a s).2, delete (offset a) live)
  | SWrite now a d => ((write now a d s).2, live)
  | SRead now a buf => ((read now a buf s).2, live)
  | SHealth => ((health_check s).2, live)
  end.

Inductive sim_reach (cfg : SimConfig) (t0 : Z) : SimBackend -> gmap Z Z -> Prop :=
  | sim_reach_new : sim_reach cfg t0 (Sim_new t0 cfg) ∅
  | sim_reach_step o s live s' live' :
      sim_reach cfg t0 s live -> may_call o s live ->
      exec o s live = (s', live') -> sim_reach cfg t0 s' live'.

(** Fragmentation is not simulated: the effective space is the raw space. *)
Definition no_fragmentation (c : SimConfig) : Prop :=
  negb (simulate_fragmentation c) || fle (fragmentation_factor c) f64_zero = true.

(** The fragmented space is computed in [f64]: exact enough for capacities
    below [2 ^ 53] (8 PiB), and not used at all without fragmentation. *)
Definition space_exact (c : SimConfig) : Prop := no_fragmentation c \/ capacity c < 2 ^ 53.

(** The effective space never exceeds the free space, whatever the
    fragmentation factor (NaN and infinities included). *)
Lemma effective_available_le s : space_exact (config s) -> 0 <= used s <= capacity (config s) ->
  effective_available s <= capacity (config s) - used s.
Proof.
  intros Hx Hu. unfold effective_available.
  assert (sat_sub (capacity (config s)) (used s) = capacity (config s) - used s) as E by (unfold sat_sub; lia).
  destruct (negb _ || _) eqn:Hf; [rewrite E; lia|].
  destruct Hx as [Hx|Hx]; [unfold no_fragmentation in Hx; congruence|].
  apply orb_false_iff in Hf as [_ Hf]. rewrite E.
  apply (FloatRound.floor_scaled (capacity (config s) - used s)); [lia|done].
Qed.

Record sim_inv (cfg : SimConfig) (s : SimBackend) (live : gmap Z Z) : Prop := {
  sv_cfg : config s = cfg;
  sv_bump : bump_inv (capacity cfg) (next_offset s) (used s) live;
  sv_offsets : allocated_offsets s = dom live;
  sv_stored : forall o d, storage s !! o = Some d ->
     exists n, live !! o = Some n /\ Z.of_nat (length d) <= n;
  sv_idle : io_idle (io_scheduler s);
}.

Lemma sim_inv_core cfg s s' live : same_core s s' -> sim_inv cfg s live -> sim_inv cfg s' live.
Proof.
  intros (E1 & E2 & E3 & E4 & E5 & _ & E7) [Hc Hb Ho Hs Hi].
  split; rewrite ?E1, ?E2, ?E3, ?E4, ?E5, ?E7; try done.
Qed.

Lemma sim_inv_new cfg t0 : in_u 64 (capacity cfg) -> sim_inv cfg (Sim_new t0 cfg) ∅.
Proof.
  intros Hc. split; simpl; try done; [by apply bump_new|]. split_and!; [apply sched_inv_new|done..].
Qed.

(** A granted request is placed at the bump pointer; every refusal leaves the
    core of the state unchanged. *)
Lemma allocate_cases cfg size s live :
  space_exact cfg -> sim_inv cfg s live -> 0 <= size -> next_offset s + size < 2 ^ 64 ->
  exists o s', allocate size s = (o, s') /\
    ((exists e, o = Err e /\ same_core s s' /\
        (e = BInternal "allocation size must be greater than zero" /\ size = 0 \/
         e = BInternal "simulated allocation failure" /\
           fle (alloc_failure_rate (failure cfg)) f64_zero = false \/
         e = InsufficientSpace size (effective_available s) /\ effective_available s < size)) \/
     (o = Ok (mkAllocation (next_offset s) size BDUnit) /\ 0 < size /\
        used s + size <= capacity cfg /\ sim_inv cfg s' (<[next_offset s := size]> live) /\
        next_offset s' = next_offset s + size /\ io_scheduler s' = io_scheduler s)).
Proof.
  intros Hnf Hi Hs Hw. unfold allocate.
  destruct (size =? 0) eqn:Hz; bool_to_prop.
  { eexists _, s. split; [reflexivity|]. left. eexists. split_and!; [done..|]. by left. }
  destruct (simulate_latency_core 0 s) as (s1 & Hlat & C1). erewrite bind_Ok by exact Hlat.
  destruct (should_fail_core "alloc" s1) as (f & s2 & Hf & C2 & Hfr).
  erewrite bind_Ok by exact Hf. assert (same_core s s2) as C by (by etrans).
  pose proof (sim_inv_core _ _ _ _ C1 Hi) as Hi1.
  pose proof (sim_inv_core _ _ _ _ C Hi) as Hi2.
  destruct C as (E1 & E2 & E3 & E4 & E5 & E6 & E7).
  pose proof (bump_used_nonneg _ _ _ _ (sv_bump _ _ _ Hi)) as Hu.
  destruct (sv_bump _ _ _ Hi) as [Hcap _ Hle _ Hnx _ _]. unfold in_u in Hcap, Hnx.
  assert (effective_available s2 = effective_available s) as Hav.
  { unfold effective_available. by rewrite E1, E4. }
  pose proof (effective_available_le s) as Hfree. rewrite (sv_cfg _ _ _ Hi) in Hfree.
  specialize (Hfree Hnf ltac:(lia)).
  destruct f.
  - eexists _, _. split; [reflexivity|]. left. eexists. split; [done|]. split; [done|].
    right; left. split; [done|]. rewrite <- (sv_cfg _ _ _ Hi1). by apply Hfr.
  - unfold gets, bind at 1. rewrite Hav. destruct (effective_available s <? size) eqn:Hc; bool_to_prop.
    + eexists _, _. split; [reflexivity|]. left. eexists. split; [done|]. split; [done|].
      right; right. split; [done|lia].
    + unfold upd_metrics, bind, modify, ret. eexists _, _. split; [reflexivity|]. right.
      rewrite E3. split_and!; [done|lia|lia| |simpl; apply wrap_in; unfold in_u; lia|done].
      assert (live !! next_offset s = None) as Hfresh by apply (bump_fresh _ _ _ _ (sv_bump _ _ _ Hi)).
      split; simpl.
      * apply Hi2.
      * rewrite E4, !wrap_in by (unfold in_u; lia).
        apply bump_alloc; [apply Hi|lia..].
      * rewrite E5, (sv_offsets _ _ _ Hi), dom_insert_L. done.
      * rewrite E2. intros o d E. apply (sv_stored _ _ _ Hi) in E as (n & E & ?).
        exists n. split; [|done]. rewrite lookup_insert_ne; [done|congruence].
      * rewrite E7. apply Hi.
Qed.

Lemma sim_deallocate_owned cfg a s live :
  sim_inv cfg s live -> live !! offset a = Some (alloc_size a) ->
  exists s', deallocate a s = (Ok tt, s') /\ sim_inv cfg s' (delete (offset a) live) /\
    next_offset s' = next_offset s /\ io_scheduler s' = io_scheduler s.
Proof.
  intros Hi Ha. unfold deallocate.
  destruct (simulate_latency_core 0 s) as (s1 & Hlat & C). erewrite bind_Ok by exact Hlat.
  destruct C as (E1 & E2 & E3 & E4 & E5 & E6 & E7).
  unfold gets, bind at 1, id. rewrite bool_decide_eq_true_2; simpl.
  2:{ rewrite E5, (sv_offsets _ _ _ Hi). apply elem_of_dom. by rewrite Ha. }
  unfold upd_metrics, bind, modify. eexists. split; [reflexivity|].
  pose proof (bump_live_le _ _ _ _ (sv_bump _ _ _ Hi) _ _ Ha).
  pose proof (bi_pos _ _ _ _ (sv_bump _ _ _ Hi) _ _ Ha).
  destruct (sv_bump _ _ _ Hi) as [Hcap _ Hle _ Hnx _ _]. unfold in_u in Hcap, Hnx.
  split_and!; [|done|done]. split; simpl.
  - rewrite E1. apply Hi.
  - rewrite E3, E4, wrap_in by (unfold in_u; lia). apply bump_free; [apply Hi|done].
  - rewrite E5, (sv_offsets _ _ _ Hi), dom_delete_L. done.
  - rewrite E2. intros o d [Hne E]%lookup_delete_Some.
    apply (sv_stored _ _ _ Hi) in E as (n & E & ?).
    exists n. split; [|done]. by rewrite lookup_delete_ne by congruence.
  - rewrite E7. apply Hi.
Qed.

Lemma sim_inv_stored_as cfg s s' m live :
  sim_inv cfg s live -> stored_as s s' m ->
  (forall o d, m !! o = Some d -> exists n, live !! o = Some n /\ Z.of_nat (length d) <= n) ->
  sim_inv cfg s' live.
Proof.
  intros [Hc Hb Ho Hs Hi] (E1 & E2 & E3 & E4 & E5 & E6 & _) Hm.
  split; rewrite ?E1, ?E2, ?E3, ?E4, ?E5; done.
Qed.

Lemma stored_insert cfg s live a d :
  sim_inv cfg s live -> live !! offset a = Some (alloc_size a) ->
  Z.of_nat (length d) <= alloc_size a ->
  forall o d', <[offset a := d]> (storage s) !! o = Some d' ->
  exists n, live !! o = Some n /\ Z.of_nat (length d') <= n.
Proof.
  intros Hi Ha Hl o d'. rewrite lookup_insert_Some. intros [[<- <-]|[_ E]]; [eauto|].
  by apply (sv_stored _ _ _ Hi).
Qed.

Lemma sim_exec_inv cfg o s live s' live' :
  space_exact cfg -> sim_inv cfg s live -> may_call o s live ->
  exec o s live = (s', live') -> sim_inv cfg s' live'.
Proof.
  intros Hnf Hi Hm He. destruct o as [size|a|now a d|now a buf|]; simpl in *.
  - destruct Hm as [Hs Hw].
    destruct (allocate_cases cfg size s live Hnf Hi Hs Hw) as (o & s1 & Hal & Hcases).
    rewrite Hal in He. destruct Hcases as [(e & -> & Hc & _)|(-> & _ & _ & Hi' & _)]; simplify_eq/=.
    + by apply (sim_inv_core cfg s).
    + done.
  - destruct (sim_deallocate_owned cfg a s live Hi Hm) as (s1 & Hd & Hi' & _).
    rewrite Hd in He. by simplify_eq/=.
  - destruct Hm as [Ha Hw]. destruct (write_cases now a d s) as (o & s1 & Hwr & Hcases).
    { split; [apply Hi|done]. }
    rewrite Hwr in He. simplify_eq/=. unfold fits in Hcases. case_match eqn:Hf; bool_to_prop.
    + destruct Hcases as [[_ Hst]|(_ & Hst & _)]; eapply sim_inv_stored_as; try done.
      * by apply (stored_insert cfg).
      * unfold garbled. case_match; [|apply Hi].
        apply (stored_insert cfg); [done..|]. by rewrite length_replicate.
    + by destruct Hcases as [-> _].
  - destruct Hm as [Ha Hw]. destruct (read_cases now a buf s) as (o & s1 & Hrd & Hcases).
    { split; [apply Hi|done]. }
    rewrite Hrd in He. simplify_eq/=. case_match.
    + destruct Hcases as [Hst _]. eapply sim_inv_stored_as; [done..|apply Hi].
    + by destruct Hcases as [-> _].
  - simplify_eq. unfold health_check.
    destruct (simulate_latency_core 0 s) as (s1 & Hlat & C). erewrite bind_Ok by exact Hlat.
    unfold gets, bind, throw, ret, id. apply (sim_inv_core cfg s); [|done]. by case_match.
Qed.

Lemma sim_reach_inv cfg t0 s live :
  in_u 64 (capacity cfg) -> space_exact cfg -> sim_reach cfg t0 s live -> sim_inv cfg s live.
Proof.
  intros Hc Hnf. induction 1 as [|o s live s' live' _ IH Hm He]; [by apply sim_inv_new|].
  by eapply sim_exec_inv.
Qed.

(** C13: the simulated backend keeps its books under injected failures and
    simulated fragmentation: after any sequence of calls that release, write
    and read live allocations only and wrap neither 64-bit counter, whatever
    the random draws decide, [used] is the sum of the live sizes and at most
    the capacity, live ranges are disjoint, the offset set is exactly the live
    offsets, data is stored only at live offsets, and no I/O request is left in
    flight.  With fragmentation simulated the capacity is assumed below
    [2 ^ 53] bytes ([space_exact]): the effective space is rounded in [f64],
    and beyond it can exceed the free space ([fragmentation_overbooks]). *)
Theorem sim_accounting cfg t0 s live :
  in_u 64 (capacity cfg) -> space_exact cfg -> sim_reach cfg t0 s live ->
  used s = sum_map id live /\ used s <= capacity cfg /\
  (forall o1 n1 o2 n2, live !! o1 = Some n1 -> live !! o2 = Some n2 -> o1 <> o2 ->
     o1 + n1 <= o2 \/ o2 + n2 <= o1) /\
  allocated_offsets s = dom live /\
  (forall o d, storage s !! o = Some d -> is_Some (live !! o)) /\
  pending (io_scheduler s) = ∅.
Proof.
  intros Hc Hnf Hr. destruct (sim_reach_inv cfg t0 s live Hc Hnf Hr) as [_ Hb Ho Hs (_ & Hp & _)].
  split_and!; try done; [apply Hb|apply Hb|by eapply bump_ranges_disjoint|].
  intros o d (n & E & _)%Hs. eauto.
Qed.

(** What a write and a read on the simulated backend do.  Longer data than
    the allocation is refused without effect.  Otherwise a write either stores
    the data, or, only when a write-failure rate is configured, fails leaving
    the stored bytes alone (or all 0xFF bytes when corruption is enabled); a
    read never changes what is stored and returns the stored prefix unless a
    configured failure strikes.  Neither ever panics. *)
Theorem sim_write_read_outcomes cfg t0 s live now a d buf :
  in_u 64 (capacity cfg) -> space_exact cfg -> sim_reach cfg t0 s live ->
  next_id (io_scheduler s) + 1 < 2 ^ 64 ->
  let '(ow, sw) := write now a d s in
  let '(o, sr) := read now a buf s in
  (if fits a d then
     ow = Ok tt /\ storage sw = <[offset a := d]> (storage s) \/
     is_ok ow = false /\ is_panic ow = false /\ storage sw = garbled s a d /\
       fle (write_failure_rate (failure cfg)) f64_zero = false
   else is_ok ow = false /\ is_panic ow = false /\ sw = s) /\
  storage sr = storage s /\
  (if fits a buf then
     o = Err (ReadFailed "simulated read failure") /\
       fle (read_failure_rate (failure cfg)) f64_zero = false \/
     o = from_option (fun d => Ok (copy_prefix buf d)) (Err (AllocationNotFound (offset a)))
           (storage s !! offset a)
   else is_ok o = false /\ is_panic o = false).
Proof.
  intros Hc Hnf Hr Hw. pose proof (sim_reach_inv cfg t0 s live Hc Hnf Hr) as Hi.
  assert (ready s) as Hrd by (split; [apply Hi|done]). rewrite <- (sv_cfg _ _ _ Hi).
  destruct (write_cases now a d s Hrd) as (ow & sw & -> & Hcw).
  destruct (read_cases now a buf s Hrd) as (o & sr & -> & Hcr).
  split; [|split].
  - destruct (fits a d); [|naive_solver].
    destruct Hcw as [[-> Hs]|(-> & Hs & ?)]; [left|right]; split_and!; try done; apply Hs.
  - destruct (fits a buf); [apply Hcr|by destruct Hcr as [-> _]].
  - destruct (fits a buf); [by destruct Hcr|naive_solver].
Qed.
End facts.

(** ** Instances for concrete runs *)

(** A generator that always draws zero. *)
Definition ex_rng : Rng.
Proof.
  refine {| rng_state := unit; seed_from_u64 := fun _ => tt;
            gen_f64 := fun u => (f64_zero, u); gen_range := fun _ u => (0, u) |}.
  intros. simpl. lia.
Defined.

Definition ex_failing : FailureConfig :=
  mkFailure f64_one f64_zero f64_zero true f64_zero f64_zero f64_zero FRandom.

Definition ex_cfg : SimConfig :=
  with_fragmentation (with_failure (with_capacity 100) ex_failing) (lit f64 1 2).

Definition ex_alloc : Allocation := mkAllocation 0 40 BDUnit.

(** Half of the free space is lost to fragmentation.  One allocation of 40
    bytes, then a write that the configuration fails with
    corruption. *)
Definition ex_run : @SimBackend ex_rng * gmap Z Z :=
  @exec ex_rng ex_blake3 (SAlloc 40) (@Sim_new ex_rng 0 ex_cfg) ∅.
Definition ex_run2 : @SimBackend ex_rng * gmap Z Z :=
  @exec ex_rng ex_blake3 (SWrite 7 ex_alloc [Byte.x01; Byte.x02]) ex_run.1 ex_run.2.

Lemma ex_reach : @sim_reach ex_rng ex_blake3 ex_cfg 0 ex_run2.1 ex_run2.2.
Proof.
  eapply (@sim_reach_step ex_rng ex_blake3 ex_cfg 0 (SWrite 7 ex_alloc [Byte.x01; Byte.x02]) ex_run.1 ex_run.2).
  - eapply (@sim_reach_step ex_rng ex_blake3 ex_cfg 0 (SAlloc 40) (@Sim_new ex_rng 0 ex_cfg) ∅); [constructor|simpl; lia|].
    apply surjective_pairing.
  - split; vm_compute; reflexivity.
  - apply surjective_pairing.
Qed.

Lemma sim_accounting_witness :
  @used ex_rng ex_run2.1 = sum_map id ex_run2.2 /\ @used ex_rng ex_run2.1 = 40.
Proof.
  split; [|vm_compute; reflexivity].
  apply (@sim_accounting ex_rng ex_blake3 ex_cfg 0 ex_run2.1 ex_run2.2);
    [unfold in_u; simpl; lia|right; vm_compute; reflexivity|apply ex_reach].
Defined.

(** The second request of 40 bytes is refused with 60 bytes free. *)
Example fragmentation_refuses :
  (@allocate ex_rng 40 ex_run2.1).1 = Err (InsufficientSpace 40 30).
Proof. vm_compute. reflexivity. Qed.

(** At three bytes over 8 PiB, the effective space of an empty backend exceeds
    its capacity. *)
Example fragmentation_overbooks :
  let cfg := with_fragmentation (with_capacity (2 ^ 53 + 3)) (lit f64 1 (2 ^ 60)) in
  effective_available (@Sim_new ex_rng 0 cfg) = capacity cfg + 1.
Proof. vm_compute. reflexivity. Qed.

Lemma sim_write_read_outcomes_witness :
  is_ok (@write ex_rng ex_blake3 9 ex_alloc [Byte.x05] ex_run2.1).1 = false /\
  is_panic (@write ex_rng ex_blake3 9 ex_alloc [Byte.x05] ex_run2.1).1 = false /\
  @storage ex_rng (@write ex_rng ex_blake3 9 ex_alloc [Byte.x05] ex_run2.1).2 !! 0 = Some [Byte.xff].
Proof.
  pose proof (@sim_write_read_outcomes ex_rng ex_blake3 ex_cfg 0 ex_run2.1 ex_run2.2 9 ex_alloc
    [Byte.x05] [Byte.x00] ltac:(unfold in_u; simpl; lia) ltac:(right; vm_compute; reflexivity)
    ex_reach ltac:(vm_compute; reflexivity)) as H.
  destruct (write 9 ex_alloc [Byte.x05] ex_run2.1) as [ow sw] eqn:Ew.
  destruct (read 9 ex_alloc [Byte.x00] ex_run2.1) as [o sr].
  destruct H as [[[-> _]|(H1 & H2 & H3 & _)] _].
  - exfalso. vm_compute in Ew. discriminate Ew.
  - split; [exact H1|split; [exact H2|]]. change (storage sw !! 0 = Some [Byte.xff]).
    rewrite H3. vm_compute. reflexivity.
Defined.

(** ** The interface laws *)

#[export] Instance sim_backend `{Rng} `{Blake3} (now : Z) : StorageBackend SimBackend := {|
  be_id := fun _ => Simulation;
  be_capacity := fun s => capacity (config s);
  be_allocate := allocate;
  be_deallocate := deallocate;
  be_write := write now;
  be_read := read now;
|}.

(** Reads and writes through a ready scheduler are lawful; a failed write is
    allowed to destroy the contents, a successful one is readable back. *)
#[export] Instance sim_laws `{R : Rng} `{B3 : Blake3} (now : Z) :
  @BackendLaws SimBackend (sim_backend now).
Proof.
  refine {| be_inv := ready; owns := fun s a => offset a ∈ allocated_offsets s;
            contents := fun s a => storage s !! offset a |}; simpl.
  - intros a d s s' Hr Ho Hw. destruct (write_cases now a d s Hr) as (o & s1 & Hw' & Hc).
    rewrite Hw in Hw'. simplify_eq. unfold fits in Hc. case_match eqn:E; bool_to_prop; [|naive_solver].
    destruct Hc as [[_ (_ & Hs & _ & _ & Hal & _)]|(? & _)]; [|done].
    rewrite Hs, Hal, lookup_insert_eq. split_and!; [done|done|lia].
  - intros a buf s r s' Hr Ho Hw. destruct (read_cases now a buf s Hr) as (o & s1 & Hw' & Hc).
    rewrite Hw in Hw'. simplify_eq. case_match; [|naive_solver].
    destruct Hc as [(_ & Hs & _ & _ & Hal & _) [[? _]|Ho']]; [done|]. rewrite Hs, Hal.
    split_and!; [done..|]. destruct (storage s !! offset a); naive_solver.
Defined.

Definition sim_books `{Rng} (k : Z) (s : SimBackend) (live : gmap Z Z) : Prop :=
  sim_inv (config s) s live /\ space_exact (config s) /\
  next_offset s + k < 2 ^ 64 /\ next_id (io_scheduler s) + k < 2 ^ 64.

Lemma sim_books_stored `{Rng} k s s' m live :
  sim_books k s live -> stored_as s s' m ->
  (forall o d, m !! o = Some d -> exists n, live !! o = Some n /\ Z.of_nat (length d) <= n) ->
  sim_books (k - 1) s' live.
Proof.
  intros (Hi & Hf & Ho & Hn) Hst Hm. pose proof (sim_inv_stored_as _ _ _ _ _ Hi Hst Hm) as Hi'.
  destruct Hst as (E1 & _ & E3 & _ & _ & _ & E7).
  split_and!; [by rewrite E1|by rewrite E1|lia..].
Qed.

Lemma sim_books_weaken `{Rng} k k' s live : sim_books k s live -> k' <= k -> sim_books k' s live.
Proof. intros (Hi & Hf & ? & ?) Hk. split_and!; [done..|lia|lia]. Qed.

Lemma garbled_stored `{Rng} cfg s live a d :
  sim_inv cfg s live -> live !! offset a = Some (alloc_size a) -> fits a d = true ->
  forall o d', garbled s a d !! o = Some d' ->
  exists n, live !! o = Some n /\ Z.of_nat (length d') <= n.
Proof.
  intros Hi Ha Hf o d'. unfold fits in Hf. bool_to_prop. unfold garbled. case_match.
  - apply (stored_insert cfg s live a); [done..|]. by rewrite length_replicate.
  - apply (sv_stored _ _ _ Hi).
Qed.

#[export] Instance sim_keeps_books `{R : Rng} `{B3 : Blake3} (now : Z) :
  @BackendBooks SimBackend (sim_backend now).
Proof.
  refine {| books := sim_books; bytes_used := used |}; simpl.
  - intros k s live (Hi & _). apply (bi_used _ _ _ _ (sv_bump _ _ _ Hi)).
  - intros. by eapply sim_books_weaken.
  - intros k n s live (Hi & Hf & Ho & Hn) Hk.
    destruct (allocate_cases _ n s live Hf Hi) as (o & s' & -> & Hcases); [lia..|].
    pose proof (bump_fresh _ _ _ _ (sv_bump _ _ _ Hi)) as Hfresh.
    destruct Hcases as [(e & -> & Hsc & _)|(-> & _ & _ & Hi' & E3 & E7)]; simpl.
    + pose proof (sim_inv_core _ _ _ _ Hsc Hi) as Hi'.
      destruct Hsc as (E1 & _ & E3 & _ & _ & _ & E7). unfold sim_books.
      rewrite E1, E3, E7. split_and!; [done..|lia|lia].
    + split_and!; [done..|]. unfold sim_books. rewrite (sv_cfg _ _ _ Hi'), E3, E7.
      split_and!; [done..|lia|lia].
  - intros k a s live (Hi & Hf & Ho & Hn) Ha.
    destruct (sim_deallocate_owned _ a s live Hi Ha) as (s' & -> & Hi' & E3 & E7).
    eexists. split; [done|]. unfold sim_books. rewrite (sv_cfg _ _ _ Hi'), E3, E7. by split_and!.
  - intros k a d s live Hb Hk Ha. destruct Hb as (Hi & Hf & Ho & Hn) eqn:EHb.
    destruct (write_cases now a d s) as (o & s' & -> & Hcases); [split; [apply Hi|lia]|].
    destruct (fits a d) eqn:Hfit.
    + unfold fits in Hfit. bool_to_prop.
      destruct Hcases as [[-> Hst]|(-> & Hst & _)]; (split; [done|]); simpl;
        eapply sim_books_stored; eauto using garbled_stored, stored_insert.
      eapply garbled_stored; eauto. unfold fits. by apply Z.leb_le.
    + destruct Hcases as [-> [m ->]]. split; [done|]. simpl. eapply sim_books_weaken; [exact Hb|lia].
  - intros k a buf s live Hb Hk Ha. destruct Hb as (Hi & Hf & Ho & Hn) eqn:EHb.
    destruct (read_cases now a buf s) as (o & s' & -> & Hcases); [split; [apply Hi|lia]|].
    destruct (fits a buf) eqn:Hfit.
    + destruct Hcases as [Hst Ho']. simpl. split.
      * destruct Ho' as [[-> _]| ->]; [done|]. by destruct (storage s !! offset a).
      * eapply sim_books_stored; [exact Hb|exact Hst|]. apply (sv_stored _ _ _ Hi).
    + destruct Hcases as [-> [m ->]]. split; [done|]. simpl. eapply sim_books_weaken; [exact Hb|lia].
  - intros k a buf s live r s' (Hi & Hf & Ho & Hn) Hk Hr.
    destruct (read_cases now a buf s) as (o & s1 & Hr' & Hcases); [split; [apply Hi|lia]|].
    rewrite Hr in Hr'. simplify_eq. case_match; [|naive_solver].
    destruct Hcases as [_ [[? _]|Ho']]; [done|]. destruct (storage s !! offset a); simplify_eq/=.
    apply length_copy_prefix.
Defined.

(** ** Sub-microsecond costs per byte vanish

    [per_byte] is truncated to whole microseconds before it is multiplied by
    the size: with the default configuration (1 ns per byte) the simulated
    latency of a transfer does not depend on its size. *)
Lemma per_byte_latency_truncated `{Rng} s bytes :
  0 <= per_byte (latency (config s)) < 1000 ->
  sim_total_us s bytes = sim_total_us s 0.
Proof.
  intros Hp. unfold sim_total_us. rewrite (Z.div_small (per_byte _) 1000) by done.
  unfold sat_mul. rewrite (wrap_in 64 0) by (unfold in_u; lia). by rewrite !Z.mul_0_l.
Qed.

(** ** Concurrent allocations

    The space test of [allocate] and the two [fetch_add]s are separate atomic
    accesses.  A thread in [Checked size] has passed the test. *)
Module Race.

Inductive Thread := Start (size : Z) | Checked (size : Z) | Done (off size : Z) | Refused.

Section race.
Context `{Rng}.

Inductive race_step : SimBackend * Thread -> SimBackend * Thread -> Prop :=
  | race_check s size :
      size <= effective_available s -> race_step (s, Start size) (s, Checked size)
  | race_refuse s size :
      effective_available s < size -> race_step (s, Start size) (s, Refused)
  | race_commit s size :
      race_step (s, Checked size)
        (set_used (set_next_offset s (wrap 64 (next_offset s + size))) (wrap 64 (used s + size)),
         Done (next_offset s) size).

Inductive pair_step : SimBackend * Thread * Thread -> SimBackend * Thread * Thread -> Prop :=
  | pair_l s t u s' t' : race_step (s, t) (s', t') -> pair_step (s, t, u) (s', t', u)
  | pair_r s t u s' u' : race_step (s, u) (s', u') -> pair_step (s, t, u) (s', t, u').

(** Two requests that each fit but do not fit together can both be granted:
    the backend is then over its capacity. *)
Lemma allocate_race s n m :
  no_fragmentation (config s) -> 0 <= used s ->
  n <= capacity (config s) - used s -> m <= capacity (config s) - used s ->
  0 <= n -> 0 <= m -> capacity (config s) < used s + n + m < 2 ^ 64 ->
  exists s' o1 o2, rtc pair_step (s, Start n, Start m) (s', Done o1 n, Done o2 m) /\
    capacity (config s') < used s'.
Proof.
  intros Hnf Hu Hn Hm Hn0 Hm0 Hover.
  assert (effective_available s = capacity (config s) - used s) as Hav.
  { unfold effective_available. rewrite Hnf. unfold sat_sub. lia. }
  eexists _, _, _. split.
  - eapply rtc_l; [apply pair_l, race_check; lia|].
    eapply rtc_l; [apply pair_r, race_check; lia|].
    eapply rtc_l; [apply pair_l, race_commit|].
    eapply rtc_l; [apply pair_r, race_commit|]. apply rtc_refl.
  - simpl. rewrite (wrap_in 64 (used s + n)) by (unfold in_u; lia).
    rewrite wrap_in by (unfold in_u; lia). lia.
Qed.
End race.
End Race.
