(* ===== verification/DiskFormat.v ===== *)
(** * Chunk files: [ghost-tier/src/disk_persistence.rs] and
    [ghost-compress/src/engine.rs]

    A chunk file is a 51-byte header followed by the compressed data.  The
    file system is a map from paths to contents; every file operation takes a
    [Fault] argument saying whether, and after how many bytes, it fails.  A
    crash in the middle of a write leaves the files as a fault at that point
    does, since nothing is written after a fault.  zstd is a dependency:
    [ZstdLib] is its interface, with the documented round trip as its law. *)

From Stdlib Require Import ZArith Lia.
From Stdlib Require Strings.Byte.
From stdpp Require Import base gmap strings pretty numbers list.
From S2P Require Import Prelude Floats CoreTypes Pressure Backend.

Open Scope rust_scope.

(** ** Compression *)

Class ZstdLib := {
  zstd_compress : list byte -> Z -> outcome string (list byte);
  zstd_decompress : list byte -> Z -> outcome string (list byte);
  (** Decompressing into a buffer large enough gives the data back. *)
  zstd_roundtrip d level c n :
    zstd_compress d level = Ok c -> Z.of_nat (length d) <= n -> zstd_decompress c n = Ok d;
  zstd_no_panic d n : is_panic (zstd_compress d n) = false /\ is_panic (zstd_decompress d n) = false;
}.

Record CompressionConfig := mkComp { level : Z }.
Definition CompressionConfig_default : CompressionConfig := mkComp 3.

Section engine.
Context `{ZstdLib}.

Definition Zstd_compress (d : list byte) (c : CompressionConfig) : outcome GhostError (list byte) :=
  map_err (fun e => CompressionError ("zstd compression failed: " +:+ e))
    (zstd_compress d (level c)).

Definition Zstd_decompress (d : list byte) (expected : option Z) : outcome GhostError (list byte) :=
  let max_size := default (256 * 1024 * 1024) expected in
  map_err (fun e => CompressionError ("zstd decompression failed: " +:+ e))
    (zstd_decompress d max_size).

Definition Noop_compress (d : list byte) (c : CompressionConfig) : outcome GhostError (list byte) :=
  Ok d.
Definition Noop_decompress (d : list byte) (expected : option Z) : outcome GhostError (list byte) :=
  Ok d.

Definition compress (d : list byte) (a : CompressionAlgorithm) (c : CompressionConfig)
    : outcome GhostError (list byte) :=
  match a with CompNone => Noop_compress d c | Zstd => Zstd_compress d c end.

Definition decompress (d : list byte) (a : CompressionAlgorithm) (expected : option Z)
    : outcome GhostError (list byte) :=
  match a with CompNone => Noop_decompress d expected | Zstd => Zstd_decompress d expected end.

Lemma compress_roundtrip d a c z n :
  compress d a c = Ok z -> Z.of_nat (length d) <= n -> decompress z a (Some n) = Ok d.
Proof.
  destruct a; simpl; [by intros [= ->]|].
  unfold Zstd_compress, Zstd_decompress. intros Hc Hn.
  destruct (zstd_compress d (level c)) as [z'| |] eqn:E; simplify_eq/=.
  by rewrite (zstd_roundtrip d (level c) z n E Hn).
Qed.
End engine.

(** ** Paths and files *)

Definition CHUNK_MAGIC : list byte := bytes_of_string "GHOSTBLK".
Definition CHUNK_VERSION : Z := 1.
Definition HEADER_SIZE : nat := 51.

Definition prefix_of (hex : string) : string := String.substring 0 2 hex.

Definition chunk_path (base : Path) (c : ChunkId) : Path :=
  let hex := hex_encode (chunk_bytes c) in
  base ++ [prefix_of hex; hex +:+ ".blk"].

(** [file_path.with_extension("blk.tmp")] of a chunk path. *)
Definition temp_path (base : Path) (c : ChunkId) : Path :=
  let hex := hex_encode (chunk_bytes c) in
  base ++ [prefix_of hex; hex +:+ ".blk.tmp"].

Definition path_display (p : Path) : string :=
  fold_right (fun c r => c +:+ "/" +:+ r) EmptyString p.

Abbreviation Files := (gmap Path (list byte)).

Inductive Fault := NoFault | FailOpen (e : string) | FailAfter (k : nat) (e : string).

(** [fs::write]: create or truncate, then write everything. *)
Definition fs_write (f : Fault) (p : Path) (d : list byte) : M Files string unit := fun fs =>
  match f with
  | NoFault => (Ok tt, <[p := d]> fs)
  | FailOpen e => (Err e, fs)
  | FailAfter k e => (Err e, <[p := take k d]> fs)
  end.

(** Open for appending; the file must exist. *)
Definition fs_open_append (f : Fault) (p : Path) : M Files string unit := fun fs =>
  match f, fs !! p with
  | FailOpen e, _ => (Err e, fs)
  | _, None => (Err "No such file or directory"%string, fs)
  | _, Some _ => (Ok tt, fs)
  end.

(** [write_all] on a file opened for appending. *)
Definition fs_append (f : Fault) (p : Path) (d : list byte) : M Files string unit := fun fs =>
  let old := default [] (fs !! p) in
  match f with
  | FailAfter k e => (Err e, <[p := old ++ take k d]> fs)
  | _ => (Ok tt, <[p := old ++ d]> fs)
  end.

Definition fs_rename (f : Fault) (src dst : Path) : M Files string unit := fun fs =>
  match f, fs !! src with
  | NoFault, Some d => (Ok tt, <[dst := d]> (delete src fs))
  | NoFault, None => (Err "No such file or directory"%string, fs)
  | FailOpen e, _ | FailAfter _ e, _ => (Err e, fs)
  end.

Definition fs_read (f : Fault) (p : Path) : M Files string (list byte) := fun fs =>
  match f, fs !! p with
  | NoFault, Some d => (Ok d, fs)
  | NoFault, None => (Err "No such file or directory"%string, fs)
  | FailOpen e, _ | FailAfter _ e, _ => (Err e, fs)
  end.

Definition fs_remove (f : Fault) (p : Path) : M Files string unit := fun fs =>
  match f, fs !! p with
  | NoFault, Some _ => (Ok tt, delete p fs)
  | NoFault, None => (Err "No such file or directory"%string, fs)
  | FailOpen e, _ | FailAfter _ e, _ => (Err e, fs)
  end.

Definition exists_ (p : Path) (fs : Files) : bool := bool_decide (is_Some (fs !! p)).

(** [.map_err(f)] on a stateful call. *)
Definition mapping {S E F A} (f : E -> F) (m : M S E A) : M S F A := fun s =>
  let '(o, s') := m s in (map_err f o, s').

(** ** Chunk files *)

Definition algo_byte (a : CompressionAlgorithm) : byte :=
  match a with CompNone => Byte.x00 | Zstd => Byte.x01 end.

Definition build_header (hash : list byte) (orig comp : Z) (a : CompressionAlgorithm)
    : list byte :=
  CHUNK_MAGIC ++ to_le_bytes 2 CHUNK_VERSION ++ hash ++
  to_le_bytes 4 (wrap 32 orig) ++ to_le_bytes 4 (wrap 32 comp) ++ [algo_byte a].

(** The faults of the four file operations of [write_chunk]. *)
Record WriteFaults := mkFaults {
  f_header : Fault; f_open : Fault; f_data : Fault; f_rename : Fault }.
Definition no_faults : WriteFaults := mkFaults NoFault NoFault NoFault NoFault.

(** [bytes[a..b]], in bounds. *)
Definition slice (a b : nat) (l : list byte) : list byte := take (b - a) (drop a l).

Section persistence.
Context `{ZstdLib} `{Blake3} (base : Path).

Definition write_chunk (fl : WriteFaults) (c : ChunkId) (data hash : list byte)
    (a : CompressionAlgorithm) : M Files BackendError Z :=
  let file_path := chunk_path base c in
  compressed <- lift (map_err (fun e => WriteFailed ("compression failed: " +:+ ghost_error_display e))
                        (compress data a CompressionConfig_default)) ;;
  let header := build_header hash (Z.of_nat (length data)) (Z.of_nat (length compressed)) a in
  let tmp := temp_path base c in
  mapping (fun e => WriteFailed ("failed to write header to " +:+ path_display tmp +:+ ": " +:+ e))
    (fs_write (f_header fl) tmp header) ;;;
  mapping (fun e => WriteFailed ("failed to open temp file " +:+ path_display tmp +:+ ": " +:+ e))
    (fs_open_append (f_open fl) tmp) ;;;
  mapping (fun e => WriteFailed ("failed to write data to " +:+ path_display tmp +:+ ": " +:+ e))
    (fs_append (f_data fl) tmp compressed) ;;;
  mapping (fun e => WriteFailed ("failed to rename " +:+ path_display tmp +:+ " -> "
                      +:+ path_display file_path +:+ ": " +:+ e))
    (fs_rename (f_rename fl) tmp file_path) ;;;
  ret (Z.of_nat (length header + length compressed)).

Definition parse_algo (file_path : Path) (b : byte) : outcome BackendError CompressionAlgorithm :=
  if Z_of_byte b =? 0 then Ok CompNone
  else if Z_of_byte b =? 1 then Ok Zstd
  else Err (ReadFailed ("chunk file " +:+ path_display file_path
              +:+ " has unknown compression algorithm " +:+ pretty (Z_of_byte b))).

(** The part of [read_chunk] after [fs::read]. *)
Definition parse_chunk (file_path : Path) (bytes expected : list byte)
    : outcome BackendError (list byte) :=
  if (length bytes <? HEADER_SIZE)%nat then
    Err (ReadFailed ("chunk file " +:+ path_display file_path +:+ " is too small ("
           +:+ pretty (Z.of_nat (length bytes)) +:+ " bytes, expected at least 51)"))
  else if negb (bool_decide (slice 0 8 bytes = CHUNK_MAGIC)) then
    Err (ReadFailed ("chunk file " +:+ path_display file_path +:+ " has invalid magic bytes"))
  else
    let version := from_le_bytes (slice 8 10 bytes) in
    if negb (version =? CHUNK_VERSION) then
      Err (ReadFailed ("chunk file " +:+ path_display file_path
             +:+ " has unsupported version " +:+ pretty version +:+ " (expected 1)"))
    else
      let original_size := from_le_bytes (slice 42 46 bytes) in
      let compressed_size := from_le_bytes (slice 46 50 bytes) in
      let? compression := parse_algo file_path (default Byte.x00 (bytes !! 50%nat)) in
      let stop := (HEADER_SIZE + Z.to_nat compressed_size)%nat in
      if (length bytes <? stop)%nat then Panic "range end index out of range"
      else
        let? decompressed :=
          map_err (fun e => ReadFailed ("decompression failed for " +:+ path_display file_path
                     +:+ ": " +:+ ghost_error_display e))
            (decompress (slice HEADER_SIZE stop bytes) compression (Some original_size)) in
        let actual := blake3 decompressed in
        if negb (bool_decide (actual = expected)) then
          Err (IntegrityFailed ("hash mismatch for " +:+ path_display file_path +:+ ": expected "
                 +:+ hex_encode expected +:+ ", got " +:+ hex_encode actual))
        else Ok decompressed.

Definition read_chunk (fl : Fault) (c : ChunkId) (expected : list byte)
    : M Files BackendError (list byte) :=
  let file_path := chunk_path base c in
  bytes <- mapping (fun e => ReadFailed ("failed to read chunk file " +:+ path_display file_path
                               +:+ ": " +:+ e)) (fs_read fl file_path) ;;
  lift (parse_chunk file_path bytes expected).

Definition delete_chunk (fl : Fault) (c : ChunkId) : M Files BackendError unit :=
  let file_path := chunk_path base c in
  e <- gets (exists_ file_path) ;;
  if e then
    mapping (fun e => BInternal ("failed to delete chunk file " +:+ path_display file_path
                        +:+ ": " +:+ e)) (fs_remove fl file_path)
  else ret tt.

Definition chunk_exists (c : ChunkId) (fs : Files) : bool := exists_ (chunk_path base c) fs.

Definition compute_hash (d : list byte) : list byte := blake3 d.
End persistence.

(** ** Layout *)

Lemma slice_at a b p m q l :
  l = p ++ m ++ q -> length p = a -> (a + length m)%nat = b -> slice a b l = m.
Proof.
  intros -> <- <-. unfold slice. rewrite drop_app_length.
  replace (length p + length m - length p)%nat with (length m) by lia. apply take_app_length.
Qed.

Lemma length_build_header hash o z a :
  length hash = 32%nat -> length (build_header hash o z a) = HEADER_SIZE.
Proof.
  intros H. unfold build_header. rewrite !length_app, !length_to_le_bytes, H. reflexivity.
Qed.

(** Reading the fields of a header followed by anything. *)
Lemma header_fields hash o z a rest :
  length hash = 32%nat ->
  let l := build_header hash o z a ++ rest in
  slice 0 8 l = CHUNK_MAGIC /\ from_le_bytes (slice 8 10 l) = CHUNK_VERSION /\
  slice 10 42 l = hash /\
  from_le_bytes (slice 42 46 l) = wrap 32 o /\ from_le_bytes (slice 46 50 l) = wrap 32 z /\
  l !! 50%nat = Some (algo_byte a) /\ drop HEADER_SIZE l = rest.
Proof.
  intros H. cbv zeta. unfold build_header.
  assert (forall n, from_le_bytes (to_le_bytes 4 (wrap 32 n)) = wrap 32 n) as H32.
  { intros n. apply from_to_le_bytes_in. apply (wrap_range 32). lia. }
  split_and!.
  - by apply (slice_at _ _ [] _ (to_le_bytes 2 CHUNK_VERSION ++ hash ++
      to_le_bytes 4 (wrap 32 o) ++ to_le_bytes 4 (wrap 32 z) ++ [algo_byte a] ++ rest));
      rewrite <- ?app_assoc.
  - rewrite (slice_at _ _ CHUNK_MAGIC (to_le_bytes 2 CHUNK_VERSION) (hash ++
      to_le_bytes 4 (wrap 32 o) ++ to_le_bytes 4 (wrap 32 z) ++ [algo_byte a] ++ rest));
      rewrite <- ?app_assoc; done.
  - apply (slice_at _ _ (CHUNK_MAGIC ++ to_le_bytes 2 CHUNK_VERSION) hash
      (to_le_bytes 4 (wrap 32 o) ++ to_le_bytes 4 (wrap 32 z) ++ [algo_byte a] ++ rest));
      rewrite <- ?app_assoc; try done; by rewrite H.
  - rewrite (slice_at _ _ (CHUNK_MAGIC ++ to_le_bytes 2 CHUNK_VERSION ++ hash)
      (to_le_bytes 4 (wrap 32 o)) (to_le_bytes 4 (wrap 32 z) ++ [algo_byte a] ++ rest));
      rewrite <- ?app_assoc; try done; try apply H32; by rewrite !length_app, H.
  - rewrite (slice_at _ _ (CHUNK_MAGIC ++ to_le_bytes 2 CHUNK_VERSION ++ hash ++
      to_le_bytes 4 (wrap 32 o)) (to_le_bytes 4 (wrap 32 z)) ([algo_byte a] ++ rest));
      rewrite <- ?app_assoc; try done; try apply H32; by rewrite !length_app, H.
  - rewrite !app_assoc. rewrite <- (app_assoc _ [algo_byte a] rest). apply list_lookup_middle.
    rewrite !length_app, H, !length_to_le_bytes. reflexivity.
  - apply drop_app_length'. rewrite !length_app, H, !length_to_le_bytes. reflexivity.
Qed.

Definition wf_id (c : ChunkId) : Prop := length (chunk_bytes c) = 32%nat.

#[global] Instance chunk_path_inj base : Inj (=) (=) (chunk_path base).
Proof.
  intros [c1] [c2] E. unfold chunk_path in E. apply app_inv_head in E.
  injection E as _ E. apply string_app_inj_r in E. simpl in E. apply (inj hex_encode) in E. by subst.
Qed.

Lemma temp_path_ne base c c' : wf_id c -> wf_id c' -> temp_path base c <> chunk_path base c'.
Proof.
  unfold wf_id. intros H1 H2 E. unfold temp_path, chunk_path in E. apply app_inv_head in E.
  injection E as _ E. apply (f_equal String.length) in E.
  rewrite !string_app_length, !length_hex_encode, H1, H2 in E. simpl in E. lia.
Qed.

Section theorems.
Context `{ZL : ZstdLib} `{B : Blake3} (base : Path).

(** The complete contents of a chunk file. *)
Definition chunk_file (data hash compressed : list byte) (a : CompressionAlgorithm) : list byte :=
  build_header hash (Z.of_nat (length data)) (Z.of_nat (length compressed)) a ++ compressed.

Lemma parse_chunk_file p data hash compressed a :
  compress data a CompressionConfig_default = Ok compressed ->
  length hash = 32%nat -> Z.of_nat (length data) < 2 ^ 32 ->
  Z.of_nat (length compressed) < 2 ^ 32 ->
  parse_chunk p (chunk_file data hash compressed a) (blake3 data) = Ok data.
Proof.
  intros Hc Hh Hd Hz. unfold parse_chunk, chunk_file.
  destruct (header_fields hash (Z.of_nat (length data)) (Z.of_nat (length compressed)) a compressed Hh)
    as (F1 & F2 & _ & F4 & F5 & F6 & F7).
  set (l := _ ++ compressed) in *.
  assert (length l = (HEADER_SIZE + length compressed)%nat) as Hl.
  { unfold l. by rewrite length_app, length_build_header. }
  rewrite (proj2 (Nat.ltb_ge _ _)) by lia. rewrite F1, F2, F4, F5, F6.
  rewrite bool_decide_eq_true_2 by done. rewrite Z.eqb_refl. cbn [negb].
  change (default Byte.x00 (Some (algo_byte a))) with (algo_byte a).
  rewrite !wrap_in by (unfold in_u; lia). rewrite Nat2Z.id.
  assert (parse_algo p (algo_byte a) = Ok a) as -> by (by destruct a). cbn [obind].
  rewrite (proj2 (Nat.ltb_ge _ _)) by lia.
  unfold slice. rewrite F7, take_ge by lia.
  erewrite compress_roundtrip by (done || lia). cbn [map_err obind].
  by rewrite bool_decide_eq_true_2.
Qed.

(** The effect of a write that meets no fault. *)
Lemma write_chunk_ok c data hash a compressed fs :
  compress data a CompressionConfig_default = Ok compressed ->
  wf_id c -> length hash = 32%nat ->
  write_chunk base no_faults c data hash a fs =
    (Ok (Z.of_nat (HEADER_SIZE + length compressed)),
     <[chunk_path base c := chunk_file data hash compressed a]> (delete (temp_path base c) fs)).
Proof.
  intros Hc Hw Hh. unfold write_chunk. rewrite Hc. unfold lift, bind at 1. cbn [map_err].
  pose proof (length_build_header hash (Z.of_nat (length data)) (Z.of_nat (length compressed)) a Hh)
    as Hl. unfold chunk_file. revert Hl. generalize (build_header hash (Z.of_nat (length data))
      (Z.of_nat (length compressed)) a). intros h Hl. rewrite <- Hl.
  unfold mapping, bind, fs_write, fs_open_append, fs_append, fs_rename, ret.
  cbn [no_faults f_header f_open f_data f_rename map_err]. rewrite !lookup_insert_eq.
  simpl. rewrite ?lookup_insert_eq. simpl.
  by rewrite insert_insert_eq, delete_insert_eq.
Qed.

(** C6: chunk files survive the round trip.  Writing data without faults and
    reading it back with its hash returns exactly the data, for either
    compression algorithm, whatever was on disk before; files of other chunks
    are untouched, and the reported disk size is the size of the file. *)
Theorem chunk_write_read_roundtrip c c' data a compressed fs :
  wf_id c -> wf_id c' -> c' <> c ->
  compress data a CompressionConfig_default = Ok compressed ->
  Z.of_nat (length data) < 2 ^ 32 -> Z.of_nat (length compressed) < 2 ^ 32 ->
  exists n fs', write_chunk base no_faults c data (compute_hash data) a fs = (Ok n, fs') /\
    read_chunk base NoFault c (compute_hash data) fs' = (Ok data, fs') /\
    fs' !! chunk_path base c' = fs !! chunk_path base c' /\
    (exists file, fs' !! chunk_path base c = Some file /\ n = Z.of_nat (length file)).
Proof.
  intros Hw Hw' Hne Hc Hd Hz. unfold compute_hash.
  rewrite (write_chunk_ok c data _ a compressed) by (done || apply blake3_length).
  eexists _, _. split; [reflexivity|]. split_and!.
  - unfold read_chunk, mapping, bind, fs_read, lift. rewrite lookup_insert_eq. cbn [map_err].
    by rewrite parse_chunk_file by (done || apply blake3_length).
  - rewrite lookup_insert_ne by (intros ?%(inj _); congruence).
    rewrite lookup_delete_ne; [done|]. by apply temp_path_ne.
  - rewrite lookup_insert_eq. eexists. split; [done|]. unfold chunk_file.
    rewrite length_app, length_build_header by apply blake3_length. done.
Qed.

(** C8: corruption never goes unnoticed.  Whatever bytes are on disk, if a
    read succeeds then the data it returns hashes to the expected digest;
    the read changes no file. *)
Theorem read_chunk_integrity fl c expected fs d fs' :
  read_chunk base fl c expected fs = (Ok d, fs') -> blake3 d = expected /\ fs' = fs.
Proof.
  unfold read_chunk, mapping, bind, lift, fs_read.
  intros Hr. destruct fl, (fs !! chunk_path base c) as [bytes|]; simplify_eq/=.
  split; [|done]. revert H. unfold parse_chunk, obind.
  repeat (case_match; try done); simplify_eq/=. intros [= ->].
  by match goal with H : negb (bool_decide _) = false |- _ =>
    apply negb_false_iff, bool_decide_eq_true in H end.
Qed.

(** C7: writes are atomic.  Whichever file operation fails, and after however
    many bytes, the chunk file afterwards holds either what it held before or
    the complete new contents, the latter exactly when the write reports
    success; files of other chunks never change. *)
Theorem write_chunk_atomic fl c data hash a compressed fs :
  wf_id c -> length hash = 32%nat ->
  compress data a CompressionConfig_default = Ok compressed ->
  let '(o, fs') := write_chunk base fl c data hash a fs in
  is_panic o = false /\
  fs' !! chunk_path base c =
    (if is_ok o then Some (chunk_file data hash compressed a) else fs !! chunk_path base c) /\
  (forall c', wf_id c' -> c' <> c -> fs' !! chunk_path base c' = fs !! chunk_path base c').
Proof.
  intros Hw Hh Hc. unfold write_chunk. rewrite Hc. unfold lift, bind at 1. cbn [map_err].
  assert (forall x, <[temp_path base c := x]> fs !! chunk_path base c = fs !! chunk_path base c) as Hs.
  { intros x. apply lookup_insert_ne. by apply temp_path_ne. }
  assert (forall x c', wf_id c' -> <[temp_path base c := x]> fs !! chunk_path base c'
            = fs !! chunk_path base c') as Ho.
  { intros x c' Hc'. apply lookup_insert_ne. by apply temp_path_ne. }
  unfold mapping, bind, fs_write, fs_open_append, fs_append, fs_rename, ret.
  destruct (f_header fl); simpl; try (by split_and!); [|split_and!; auto].
  rewrite !lookup_insert_eq. destruct (f_open fl); simpl; try (split_and!; auto).
  all: destruct (f_data fl); simpl; rewrite ?insert_insert_eq, ?lookup_insert_eq;
    try (split_and!; auto); destruct (f_rename fl); simpl; try (split_and!; auto).
  all: try (rewrite lookup_insert_eq; done).
  all: intros c' Hc' Hne; rewrite lookup_insert_ne by (intros ?%(inj _); congruence);
    rewrite delete_insert_eq, lookup_delete_ne; [done|by apply temp_path_ne].
Qed.

(** A chunk file cut short after its header makes [read_chunk] panic: the
    slice of the payload is taken before its bounds are checked. *)
Lemma truncated_chunk_panics p data hash compressed a expected k :
  length hash = 32%nat -> Z.of_nat (length compressed) < 2 ^ 32 ->
  (k < length compressed)%nat ->
  parse_chunk p (take (HEADER_SIZE + k) (chunk_file data hash compressed a)) expected
  = Panic "range end index out of range".
Proof.
  intros Hh Hz Hk. unfold chunk_file.
  rewrite <- (length_build_header hash (Z.of_nat (length data)) (Z.of_nat (length compressed)) a Hh).
  rewrite take_app_add. unfold parse_chunk.
  destruct (header_fields hash (Z.of_nat (length data)) (Z.of_nat (length compressed)) a
    (take k compressed) Hh) as (F1 & F2 & _ & F4 & F5 & F6 & F7).
  set (l := _ ++ take k compressed) in *.
  assert (length l = (HEADER_SIZE + k)%nat) as Hl.
  { unfold l. rewrite length_app, length_build_header, length_take by done. lia. }
  rewrite (proj2 (Nat.ltb_ge _ _)) by lia. rewrite F1, F2, F5, F6.
  rewrite bool_decide_eq_true_2 by done. rewrite Z.eqb_refl. cbn [negb].
  change (default Byte.x00 (Some (algo_byte a))) with (algo_byte a).
  rewrite !wrap_in by (unfold in_u; lia). rewrite Nat2Z.id.
  assert (parse_algo p (algo_byte a) = Ok a) as -> by (by destruct a). cbn [obind].
  by rewrite (proj2 (Nat.ltb_lt _ _)) by lia.
Qed.
End theorems.

(** ** Concrete runs *)

(** A compressor that stores the data. *)
Definition ex_zstd : ZstdLib.
Proof.
  refine {| zstd_compress := fun d _ => Ok d; zstd_decompress := fun d _ => Ok d |}.
  - by intros d l c n [= ->] _.
  - done.
Defined.

Definition ex_id (b : byte) : ChunkId := mkChunkId (replicate 32 b).

Lemma chunk_write_read_roundtrip_witness :
  exists n fs',
    @write_chunk ex_zstd ["data"%string] no_faults (ex_id Byte.x07) [Byte.x01; Byte.x02]
      (@compute_hash ex_blake3 [Byte.x01; Byte.x02]) Zstd ∅ = (Ok n, fs') /\
    @read_chunk ex_zstd ex_blake3 ["data"%string] NoFault (ex_id Byte.x07)
      (@compute_hash ex_blake3 [Byte.x01; Byte.x02]) fs' = (Ok [Byte.x01; Byte.x02], fs').
Proof.
  destruct (@chunk_write_read_roundtrip ex_zstd ex_blake3 ["data"%string] (ex_id Byte.x07)
    (ex_id Byte.x08) [Byte.x01; Byte.x02] Zstd [Byte.x01; Byte.x02] ∅)
    as (n & fs' & Hw & Hr & _);
    [reflexivity|reflexivity|discriminate|reflexivity|simpl; lia|simpl; lia|].
  exists n, fs'. split; [exact Hw|exact Hr].
Defined.

(** The file the round trip above leaves behind. *)
Definition ex_file : list byte :=
  chunk_file [Byte.x01; Byte.x02] (@blake3 ex_blake3 [Byte.x01; Byte.x02]) [Byte.x01; Byte.x02] Zstd.
Definition ex_fs : Files := {[ chunk_path ["data"%string] (ex_id Byte.x07) := ex_file ]}.

Lemma read_chunk_integrity_witness :
  @read_chunk ex_zstd ex_blake3 ["data"%string] NoFault (ex_id Byte.x07)
    (@blake3 ex_blake3 [Byte.x01; Byte.x02]) ex_fs = (Ok [Byte.x01; Byte.x02], ex_fs) /\
  @blake3 ex_blake3 [Byte.x01; Byte.x02] = Byte.x01 :: Byte.x02 :: replicate 30 Byte.x00.
Proof.
  assert (H : @read_chunk ex_zstd ex_blake3 ["data"%string] NoFault (ex_id Byte.x07)
    (Byte.x01 :: Byte.x02 :: replicate 30 Byte.x00) ex_fs = (Ok [Byte.x01; Byte.x02], ex_fs))
    by (vm_compute; reflexivity).
  split; [exact H|].
  exact (proj1 (@read_chunk_integrity ex_zstd ex_blake3 ["data"%string] NoFault (ex_id Byte.x07)
    _ ex_fs _ ex_fs H)).
Defined.

Lemma write_chunk_atomic_witness :
  let fl := mkFaults NoFault NoFault (FailAfter 1 "ENOSPC") NoFault in
  let r := @write_chunk ex_zstd ["data"%string] fl (ex_id Byte.x07) [Byte.x09; Byte.x09]
             (replicate 32 Byte.x03) CompNone ex_fs in
  is_ok r.1 = false /\ r.2 !! chunk_path ["data"%string] (ex_id Byte.x07) = Some ex_file.
Proof.
  pose proof (@write_chunk_atomic ex_zstd ["data"%string]
    (mkFaults NoFault NoFault (FailAfter 1 "ENOSPC") NoFault) (ex_id Byte.x07)
    [Byte.x09; Byte.x09] (replicate 32 Byte.x03) CompNone [Byte.x09; Byte.x09] ex_fs
    eq_refl eq_refl eq_refl) as H.
  cbv zeta. destruct (write_chunk _ _ _ _ _ _ ex_fs) as [o fs'] eqn:E.
  destruct H as (_ & H & _). assert (is_ok o = false) as Ho.
  { apply (f_equal (fun x => is_ok x.1)) in E. simpl in E. rewrite <- E. vm_compute. reflexivity. }
  rewrite Ho in H. split; [exact Ho|]. simpl. rewrite H. vm_compute. reflexivity.
Defined.
