(* ===== verification/Disk.v ===== *)
(** * The disk backend: [ghost-tier/src/disk.rs] and [disk_config.rs]

    The backend keeps a map of allocations, an I/O scheduler, counters, an
    embedded simulated backend that only provides latency and failure draws,
    and the chunk files.  A call is one step; the faults of its file
    operations are arguments.  A panic inside [spawn_blocking] surfaces as a
    [JoinError], which the callers turn into an error. *)

From Stdlib Require Import ZArith Lia SpecFloat.
From Stdlib Require Strings.Byte.
From stdpp Require Import base gmap strings pretty numbers relations list.
From S2P Require Import Prelude Floats CoreTypes Pressure Backend Events EventBus.
From S2P Require Import IoScheduler SimBackend DiskFormat.

Open Scope rust_scope.

(** ** Configuration *)

Inductive DiskType := Hdd | Ssd | Nvme.

(** The latency and bandwidth structs have the fields of the simulated
    backend's. *)
Definition DiskLatency_default : LatencyConfig := mkLatency 500000 100 (lit f64 2 10).
Definition DiskBandwidth_default : BandwidthConfig := mkBandwidth (500 * 1024 * 1024).

Record DiskFailure := mkDiskFailure {
  df_write_failure_rate : float;
  df_read_failure_rate : float;
  df_corruption_rate : float;
}.
Definition DiskFailure_default : DiskFailure := mkDiskFailure f64_zero f64_zero f64_zero.

Definition default_latency (t : DiskType) : LatencyConfig :=
  match t with
  | Hdd => mkLatency 5000000 10000 (lit f64 5 10)
  | Ssd => mkLatency 500000 100 (lit f64 2 10)
  | Nvme => mkLatency 50000 10 (lit f64 1 10)
  end.

Definition default_bandwidth (t : DiskType) : BandwidthConfig :=
  match t with
  | Hdd => mkBandwidth (200 * 1024 * 1024)
  | Ssd => mkBandwidth (500 * 1024 * 1024)
  | Nvme => mkBandwidth (3 * 1024 * 1024 * 1024)
  end.

Record DiskConfig := mkDiskConfig {
  dc_base_path : Path;
  dc_capacity : Z;
  dc_latency : LatencyConfig;
  dc_bandwidth : BandwidthConfig;
  dc_failure : DiskFailure;
  dc_disk_type : DiskType;
  dc_max_concurrent_ops : Z;
  dc_max_queue_depth : Z;
  dc_fsync : bool;
  dc_atomic_writes : bool;
  dc_seed : option Z;
}.

Definition DiskConfig_default : DiskConfig :=
  mkDiskConfig ["/"; "var"; "lib"; "ghostpages"; "data"]%string (100 * 1024 * 1024 * 1024)
    DiskLatency_default DiskBandwidth_default DiskFailure_default Ssd 64 256 true true None.

Definition DiskConfig_new (p : Path) (cap : Z) : DiskConfig :=
  let d := DiskConfig_default in
  mkDiskConfig p cap (dc_latency d) (dc_bandwidth d) (dc_failure d) (dc_disk_type d)
    (dc_max_concurrent_ops d) (dc_max_queue_depth d) (dc_fsync d) (dc_atomic_writes d) (dc_seed d).

Definition with_disk_type (c : DiskConfig) (t : DiskType) : DiskConfig :=
  mkDiskConfig (dc_base_path c) (dc_capacity c) (default_latency t) (default_bandwidth t)
    (dc_failure c) t (dc_max_concurrent_ops c) (dc_max_queue_depth c) (dc_fsync c)
    (dc_atomic_writes c) (dc_seed c).

Definition build_sim_config (c : DiskConfig) : SimConfig :=
  let f := mkFailure (df_write_failure_rate (dc_failure c)) (df_read_failure_rate (dc_failure c))
             f64_zero false (df_corruption_rate (dc_failure c)) f64_zero f64_zero FRandom in
  with_failure
    (with_bandwidth
      (with_latency (with_seed (with_capacity (dc_capacity c)) (default 42 (dc_seed c)))
        (mkLatency (base (dc_latency c)) (per_byte (dc_latency c)) (jitter_fraction (dc_latency c))))
      (mkBandwidth (bytes_per_second (dc_bandwidth c)))) f.

(** [DiskAllocation::new]. *)
Definition DiskAllocation_new (c : ChunkId) (p : Path) (orig comp : Z) (a : CompressionAlgorithm)
    (h : list byte) : DiskAllocation :=
  mkDiskAlloc c p orig comp (Z.of_nat HEADER_SIZE + comp) orig a h.

(** ** The backend *)

Section backend.
Context `{R : Rng} `{B3 : Blake3} `{ZL : ZstdLib} (b : Build).

Record DiskBackend := mkDisk {
  dcfg : DiskConfig;
  dused : Z;
  allocations : gmap ChunkId DiskAllocation;
  dio : IoScheduler;
  dqueue_depth : Z;
  dbytes_written : Z;
  dbytes_read : Z;
  simulation : SimBackend;
  files : Files;
}.

Definition dcapacity (d : DiskBackend) : Z := dc_capacity (dcfg d).
Definition dbase (d : DiskBackend) : Path := dc_base_path (dcfg d).

Definition Disk_with_emitter (now : Z) (cfg : DiskConfig) (em : EventEmitter) (fs : Files)
    : DiskBackend :=
  mkDisk cfg 0 ∅ (Sched_new em 64) 0 0 0 (Sim_new now (build_sim_config cfg)) fs.

(** [DiskBackend::new] once the directories exist; the receiver of the event
    channel is dropped. *)
Definition Disk_new (now : Z) (cfg : DiskConfig) (fs : Files) : DiskBackend :=
  Disk_with_emitter now cfg (Emitter_new (mkChannel [] 256 false)) fs.

Definition set_dused d n := mkDisk (dcfg d) n (allocations d) (dio d) (dqueue_depth d)
  (dbytes_written d) (dbytes_read d) (simulation d) (files d).
Definition set_allocations d m := mkDisk (dcfg d) (dused d) m (dio d) (dqueue_depth d)
  (dbytes_written d) (dbytes_read d) (simulation d) (files d).
Definition set_dio d i := mkDisk (dcfg d) (dused d) (allocations d) i (dqueue_depth d)
  (dbytes_written d) (dbytes_read d) (simulation d) (files d).
Definition set_queue d n := mkDisk (dcfg d) (dused d) (allocations d) (dio d) n
  (dbytes_written d) (dbytes_read d) (simulation d) (files d).
Definition set_written d n := mkDisk (dcfg d) (dused d) (allocations d) (dio d) (dqueue_depth d)
  n (dbytes_read d) (simulation d) (files d).
Definition set_read d n := mkDisk (dcfg d) (dused d) (allocations d) (dio d) (dqueue_depth d)
  (dbytes_written d) n (simulation d) (files d).
Definition set_sim d s := mkDisk (dcfg d) (dused d) (allocations d) (dio d) (dqueue_depth d)
  (dbytes_written d) (dbytes_read d) s (files d).
Definition set_files d f := mkDisk (dcfg d) (dused d) (allocations d) (dio d) (dqueue_depth d)
  (dbytes_written d) (dbytes_read d) (simulation d) f.

Abbreviation DM := (M DiskBackend BackendError).

Definition on_sim {A} (m : M SimBackend BackendError A) : DM A := fun d =>
  let '(o, s) := m (simulation d) in (o, set_sim d s).
Definition on_io {A} (m : M IoScheduler GhostError A) : DM A := fun d =>
  let '(o, i) := m (dio d) in
  (map_err (fun e => BInternal (ghost_error_display e)) o, set_dio d i).
Definition on_files {A} (m : M Files BackendError A) : DM A := fun d =>
  let '(o, f) := m (files d) in (o, set_files d f).

Definition fetch_add_used (n : Z) : DM unit := modify (fun d => set_dused d (wrap 64 (dused d + n))).
Definition fetch_sub_used (n : Z) : DM unit := modify (fun d => set_dused d (wrap 64 (dused d - n))).
Definition fetch_add_queue (n : Z) : DM unit :=
  modify (fun d => set_queue d (wrap 32 (dqueue_depth d + n))).

(** [spawn_blocking(m).await.map_err(|e| err(..))?] *)
Definition spawn_blocking {A} (err : string -> BackendError) (m : M Files BackendError A)
    : DM (outcome BackendError A) := fun d =>
  let '(o, f) := m (files d) in
  match o with
  | Panic msg => (Err (err ("spawn_blocking failed: " +:+ msg)), set_files d f)
  | _ => (Ok o, set_files d f)
  end.

Definition disk_data (a : Allocation) : DM DiskAllocation :=
  lift (ok_or (BInternal "allocation is not a DiskAllocation") (downcast_disk (backend_data a))).

Definition d_available (d : DiskBackend) : Z := sat_sub (dcapacity d) (dused d).

Definition d_allocate (size : Z) : DM Allocation :=
  if size =? 0 then throw (BInternal "cannot allocate zero bytes")
  else
    on_sim (simulate_latency 0) ;;;
    fails <- on_sim (should_fail "alloc") ;;
    if fails then throw (BInternal "simulated allocation failure")
    else
      d <- gets id ;;
      total <- lift (arith b 64 (dused d + size)) ;;
      if dcapacity d <? total then
        avail <- lift (arith b 64 (dcapacity d - dused d)) ;;
        throw (InsufficientSpace size avail)
      else
        current <- gets dused ;;
        fetch_add_used size ;;;
        total' <- lift (arith b 64 (current + size)) ;;
        if dcapacity d <? total' then
          fetch_sub_used size ;;;
          avail <- lift (arith b 64 (dcapacity d - current)) ;;
          throw (InsufficientSpace size avail)
        else
          let c := from_data (to_le_bytes 8 size) in
          let alloc := DiskAllocation_new c (chunk_path (dbase d) c) size 0 CompNone
                         (replicate 32 Byte.x00) in
          modify (fun d => set_allocations d (<[c := alloc]> (allocations d))) ;;;
          ret (mkAllocation 0 size (BDDisk alloc)).

Definition delete_chunk_file (f : Fault) (p : Path) : DM unit :=
  on_files (mapping (fun e => BInternal ("failed to delete chunk file " +:+ path_display p
                                +:+ ": " +:+ e)) (fs_remove f p)).

Definition d_deallocate (f : Fault) (a : Allocation) : DM unit :=
  on_sim (simulate_latency 0) ;;;
  da <- disk_data a ;;
  let c := da_chunk_id da in
  d <- gets id ;;
  let removed := allocations d !! c in
  modify (fun d => set_allocations d (delete c (allocations d))) ;;;
  removed <- lift (ok_or (AllocationNotFound (offset a)) removed) ;;
  let p := file_path removed in
  e <- gets (fun d => exists_ p (files d)) ;;
  (if e then delete_chunk_file f p else ret tt) ;;;
  fetch_sub_used (reserved_size removed).

(** The block that completes the first pending request for a chunk. *)
Definition complete_first (now : Z) (c : ChunkId) (op : IoOperation) (res : option string)
    : DM unit :=
  i <- gets dio ;;
  match List.find (fun p => bool_decide (req_chunk p.2 = c) && bool_decide (req_operation p.2 = op))
          (btree_iter (pending i)) with
  | Some (id, _) => on_io (complete now id res)
  | None => ret tt
  end.

Definition written (disk_size : Z) (comp : CompressionAlgorithm) (hash : list byte) (len : Z)
    (al : DiskAllocation) : DiskAllocation :=
  mkDiskAlloc (da_chunk_id al) (file_path al) len (disk_size - Z.of_nat HEADER_SIZE) disk_size
    (reserved_size al) comp hash.

Definition write_compression (data : list byte) : CompressionAlgorithm :=
  if 1024 <? Z.of_nat (length data) then Zstd else CompNone.

Definition d_write (now : Z) (fl : WriteFaults) (a : Allocation) (data : list byte) : DM unit :=
  if alloc_size a <? Z.of_nat (length data) then
    throw (WriteFailed (size_mismatch "data size " (length data)
                          " exceeds allocation size " (alloc_size a)))
  else
    da <- disk_data a ;;
    let compression := write_compression data in
    let c := da_chunk_id da in
    on_io (issue now IoWrite c Disk) ;;;
    fetch_add_queue 1 ;;;
    on_sim (simulate_latency (Z.of_nat (length data))) ;;;
    fails <- on_sim (should_fail "write") ;;
    if fails then
      fetch_add_queue (-1) ;;;
      throw (WriteFailed "simulated write failure")
    else
      bp <- gets dbase ;;
      let hash := blake3 data in
      result <- spawn_blocking WriteFailed (write_chunk bp fl c data hash compression) ;;
      fetch_add_queue (-1) ;;;
      match result with
      | Ok disk_size =>
          d <- gets id ;;
          match allocations d !! c with
          | Some al =>
              fetch_sub_used (Backend.disk_size al) ;;;
              fetch_add_used disk_size ;;;
              modify (fun d => set_allocations d
                (<[c := written disk_size compression hash (Z.of_nat (length data)) al]> (allocations d)))
          | None => ret tt
          end ;;;
          modify (fun d => set_written d (wrap 64 (dbytes_written d + disk_size))) ;;;
          complete_first now c IoWrite None
      | Err e =>
          complete_first now c IoWrite (Some (backend_error_display e)) ;;;
          fetch_sub_used (alloc_size a) ;;;
          modify (fun d => set_allocations d (delete c (allocations d))) ;;;
          throw e
      | Panic m => panic m
      end.

Definition d_read (now : Z) (fl : Fault) (a : Allocation) (buf : list byte) : DM (list byte) :=
  if alloc_size a <? Z.of_nat (length buf) then
    throw (ReadFailed (size_mismatch "buffer size " (length buf)
                         " exceeds allocation size " (alloc_size a)))
  else
    da <- disk_data a ;;
    let c := da_chunk_id da in
    d <- gets id ;;
    da <- lift (ok_or (AllocationNotFound (offset a)) (allocations d !! c)) ;;
    let expected := content_hash da in
    on_io (issue now IoRead c Disk) ;;;
    fetch_add_queue 1 ;;;
    on_sim (simulate_latency (Z.of_nat (length buf))) ;;;
    fails <- on_sim (should_fail "read") ;;
    if fails then
      fetch_add_queue (-1) ;;;
      throw (ReadFailed "simulated read failure")
    else
      bp <- gets dbase ;;
      result <- spawn_blocking ReadFailed (read_chunk bp fl c expected) ;;
      fetch_add_queue (-1) ;;;
      match result with
      | Ok data =>
          modify (fun d => set_read d (wrap 64 (dbytes_read d + Z.of_nat (length data)))) ;;;
          complete_first now c IoRead None ;;;
          ret (copy_prefix buf data)
      | Err e =>
          complete_first now c IoRead (Some (backend_error_display e)) ;;;
          throw e
      | Panic m => panic m
      end.

Definition d_verify_integrity (fl : Fault) (a : Allocation) (expected : list byte) : DM unit :=
  on_sim (simulate_latency 0) ;;;
  da <- disk_data a ;;
  let c := da_chunk_id da in
  d <- gets id ;;
  da <- lift (ok_or (AllocationNotFound (offset a)) (allocations d !! c)) ;;
  if negb (bool_decide (content_hash da = expected)) then
    throw (IntegrityFailed ("stored hash " +:+ hex_encode (content_hash da)
             +:+ " does not match expected " +:+ hex_encode expected))
  else if negb (exists_ (file_path da) (files d)) then
    throw (IntegrityFailed ("chunk file " +:+ path_display (file_path da) +:+ " does not exist"))
  else
    result <- spawn_blocking IntegrityFailed (read_chunk (dbase d) fl c (content_hash da)) ;;
    match result with
    | Ok data =>
        if negb (bool_decide (blake3 data = expected)) then
          throw (IntegrityFailed ("content hash mismatch: expected " +:+ hex_encode expected
                   +:+ ", got " +:+ hex_encode (blake3 data)))
        else ret tt
    | Err e => throw (IntegrityFailed ("read failed during integrity check: "
                        +:+ backend_error_display e))
    | Panic m => panic m
    end.

(** [health_check] writes, reads and removes a probe file; [dir] says whether
    the base path is a directory. *)
Definition d_health_check (dir_exists is_dir : bool) (f1 f2 f3 : Fault) : DM unit :=
  on_sim (simulate_latency 0) ;;;
  p <- gets dbase ;;
  if negb dir_exists then
    throw (Unhealthy ("base directory " +:+ path_display p +:+ " does not exist"))
  else if negb is_dir then
    throw (Unhealthy ("base path " +:+ path_display p +:+ " is not a directory"))
  else
    let test_file := p ++ [".ghostpages_health_check"%string] in
    on_files (mapping (fun e => Unhealthy ("cannot write to base directory " +:+ path_display p
                                  +:+ ": " +:+ e))
      (fs_write f1 test_file (bytes_of_string "health_check"))) ;;;
    on_files (mapping (fun e => Unhealthy ("cannot read from base directory " +:+ path_display p
                                  +:+ ": " +:+ e)) (fs_read f2 test_file)) ;;;
    on_files (mapping (fun e => Unhealthy ("cannot delete from base directory " +:+ path_display p
                                  +:+ ": " +:+ e)) (fs_remove f3 test_file)).

Definition calculate_io_pressure (d : DiskBackend) : outcome BackendError float :=
  let used := of_int f32 (dused d) in
  let capacity := of_int f32 (dcapacity d) in
  let capacity_pressure :=
    if fgt capacity f32_zero then fmin (fdiv f32 used capacity) f32_one else f32_zero in
  let queue_depth := of_int f32 (dqueue_depth d) in
  let max_queue := of_int f32 (dc_max_queue_depth (dcfg d)) in
  let queue_pressure :=
    if fgt max_queue f32_zero then fmin (fdiv f32 queue_depth max_queue) f32_one else f32_zero in
  let bps := bytes_per_second (dc_bandwidth (dcfg d)) in
  let? bandwidth_utilization :=
    (if 0 <? bps then
       let? total := arith b 64 (dbytes_written d + dbytes_read d) in
       Ok (cast f32 (fmin (fdiv f64 (of_int f64 total) (of_int f64 bps)) f64_one))
     else Ok f32_zero) in
  Ok (fmin (fadd f32 (fadd f32 (fmul f32 (lit f32 4 10) capacity_pressure)
                               (fmul f32 (lit f32 3 10) queue_pressure))
                     (fmul f32 (lit f32 3 10) bandwidth_utilization)) f32_one).

Definition d_pressure : DM PressureState :=
  d <- gets id ;;
  io <- lift (calculate_io_pressure d) ;;
  throughput <- lift (arith b 64 (dbytes_written d + dbytes_read d)) ;;
  ret (mkPressure (cast f32 (sim_memory_pressure (simulation d))) f32_zero io
         (dqueue_depth d) throughput).

Definition d_cost_model : DM PhysicalCost :=
  d <- gets id ;;
  io <- lift (calculate_io_pressure d) ;;
  ret (mkCost (fmul f64 (as_secs_f64 (base (dc_latency (dcfg d)))) (of_int f64 1000))
         (of_int f64 (bytes_per_second (dc_bandwidth (dcfg d))))
         (fsub f64 f64_one (df_write_failure_rate (dc_failure (dcfg d)))) io (dqueue_depth d)).
End backend.

(** ** Sequential behaviour *)

Section facts.
Context `{R : Rng} `{B3 : Blake3} `{ZL : ZstdLib} (b : Build).

(** No failure is configured, so no draw ever fails a call. *)
Definition no_injection (d : DiskBackend) : Prop :=
  fle (write_failure_rate (failure (config (simulation d)))) f64_zero = true /\
  fle (read_failure_rate (failure (config (simulation d)))) f64_zero = true /\
  fle (alloc_failure_rate (failure (config (simulation d)))) f64_zero = true.

Definition disk_ready (d : DiskBackend) : Prop :=
  io_idle (dio d) /\ next_id (dio d) + 2 < 2 ^ 64 /\ in_u 32 (dqueue_depth d + 1) /\
  0 <= dqueue_depth d /\ no_injection d.

Lemma on_sim_latency n d :
  exists s, on_sim (simulate_latency n) d = (Ok tt, set_sim d s) /\ same_core (simulation d) s.
Proof.
  unfold on_sim. destruct (simulate_latency_core n (simulation d)) as (s & -> & Hs). eauto.
Qed.

Lemma on_sim_no_fail op d :
  fle (failure_rate (config (simulation d)) op) f64_zero = true ->
  exists s, on_sim (should_fail op) d = (Ok false, set_sim d s) /\ same_core (simulation d) s.
Proof.
  intros Hr. unfold on_sim.
  destruct (should_fail_core op (simulation d)) as ([] & s & -> & Hs & Hf); [|eauto].
  by rewrite (Hf eq_refl) in Hr.
Qed.

(** After one request is issued on an idle scheduler, it is the one that the
    search for the chunk finds. *)
Lemma btree_iter_singleton {V} (k : Z) (v : V) : btree_iter ({[k := v]} : gmap Z V) = [(k, v)].
Proof. unfold btree_iter. by rewrite map_to_list_singleton. Qed.

Lemma complete_first_issued now c op t res i d :
  io_idle i -> next_id i + 1 < 2 ^ 64 -> dio d = (issue now op c t i).2 ->
  exists i2, complete_first now c op res d = (Ok tt, set_dio d i2) /\ io_idle i2 /\
    next_id i2 = next_id i + 1.
Proof.
  intros (Hi & He & Hm) Hw Hd.
  assert (pending_count i < max_pending i) as Hroom.
  { unfold pending_count. rewrite He, map_size_empty, Hm. lia. }
  pose proof (sched_inv_issue now op c t i Hi Hw) as Hi1.
  destruct (issue_room now op c t i Hroom) as [em Hiss]. rewrite Hiss in *. simpl in Hd.
  rewrite He, insert_empty in *. unfold complete_first, gets, bind. rewrite Hd. simpl.
  rewrite btree_iter_singleton. simpl. rewrite !bool_decide_eq_true_2 by done. simpl.
  destruct (complete_known now (next_id i) res (mkReq (next_id i) op c t now IoPending) (dio d))
    as (em' & c' & Hc & _); [rewrite Hd; apply lookup_singleton_eq|].
  assert (sched_inv (dio d)) as Hi1' by (by rewrite Hd).
  pose proof (sched_inv_complete now (next_id i) res _ Hi1') as Hi2.
  unfold on_io. rewrite Hc in *. simpl in *.
  eexists. split; [reflexivity|]. rewrite Hd in *. simpl in *.
  split; [split_and!; [done|simpl; apply delete_singleton_eq|done]|].
  pose proof (si_next _ Hi). apply wrap_in. unfold in_u. lia.
Qed.

(** Entering and leaving the queue restores its depth. *)
Lemma queue_back n : in_u 32 (n + 1) -> 0 <= n -> wrap 32 (wrap 32 (n + 1) + -1) = n.
Proof.
  intros H1 H2. unfold in_u in H1. rewrite (wrap_in 32 (n + 1)) by (unfold in_u; lia).
  rewrite wrap_in by (unfold in_u; lia). lia.
Qed.

(** A fault-free write. *)
Lemma d_write_ok now a da al data z d :
  disk_ready d -> Z.of_nat (length data) <= alloc_size a ->
  backend_data a = BDDisk da -> wf_id (da_chunk_id da) ->
  allocations d !! da_chunk_id da = Some al ->
  compress data (write_compression data) CompressionConfig_default = Ok z ->
  let c := da_chunk_id da in
  let n := Z.of_nat (HEADER_SIZE + length z) in
  exists s i, d_write now no_faults a data d = (Ok tt,
      mkDisk (dcfg d) (wrap 64 (wrap 64 (dused d - Backend.disk_size al) + n))
        (<[c := written n (write_compression data) (blake3 data) (Z.of_nat (length data)) al]>
           (allocations d)) i (dqueue_depth d) (wrap 64 (dbytes_written d + n)) (dbytes_read d) s
        (<[chunk_path (dbase d) c := chunk_file data (blake3 data) z (write_compression data)]>
           (delete (temp_path (dbase d) c) (files d)))) /\
    same_core (simulation d) s /\ io_idle i /\ next_id i = next_id (dio d) + 1.
Proof.
  intros (Hidle & Hw & Hq & Hq0 & Hinj) Hlen Hbd Hwf Hal Hz. cbv zeta. set (c := da_chunk_id da) in *.
  unfold d_write. rewrite (proj2 (Z.ltb_ge _ _)) by lia.
  unfold disk_data. rewrite Hbd. cbn [downcast_disk ok_or]. unfold lift, bind at 1. fold c.
  destruct (io_round now IoWrite c Disk _ Hidle ltac:(lia)) as (i1 & Hiss & _).
  unfold on_io at 1, bind at 1. rewrite Hiss. cbn [map_err].
  unfold fetch_add_queue at 1, modify at 1, bind at 1.
  edestruct on_sim_latency as (s1 & Hs1 & C1). erewrite bind_Ok by exact Hs1.
  edestruct (on_sim_no_fail "write") as (s2 & Hs2 & C2).
  2:{ erewrite bind_Ok by exact Hs2. simpl in C1, C2.
      assert (same_core (simulation d) s2) as C by (by etrans).
      unfold gets, bind at 1, spawn_blocking, bind at 1.
      cbn [dbase dcfg files set_sim set_queue set_dio].
      rewrite (write_chunk_ok (dc_base_path (dcfg d)) c data (blake3 data) _ z)
        by (done || apply blake3_length).
      unfold fetch_add_queue, modify, bind at 1, bind at 1.
      cbn [allocations set_sim set_queue set_dio set_files id]. rewrite Hal.
      unfold fetch_sub_used, fetch_add_used, modify, bind at 1, bind at 1, bind at 1, bind at 1.
      edestruct (complete_first_issued now c IoWrite Disk None (dio d)) as (i2 & Hc & Hi2 & Hn2).
      4:{ rewrite Hc. cbn.
          exists s2, i2. split; [|done]. by rewrite queue_back. }
      - done.
      - lia.
      - simpl. by rewrite Hiss. }
  destruct C1 as (E & _). cbn [simulation set_sim] in *. rewrite E. apply Hinj.
Qed.

(** A fault-free read of what the allocation map says is there. *)
Lemma d_read_ok now a da al buf data d :
  disk_ready d -> Z.of_nat (length buf) <= alloc_size a ->
  backend_data a = BDDisk da -> allocations d !! da_chunk_id da = Some al ->
  read_chunk (dbase d) NoFault (da_chunk_id da) (content_hash al) (files d) = (Ok data, files d) ->
  exists d', d_read now NoFault a buf d = (Ok (copy_prefix buf data), d') /\ io_idle (dio d') /\
    dqueue_depth d' = dqueue_depth d /\ dused d' = dused d /\ files d' = files d /\
    allocations d' = allocations d.
Proof.
  intros (Hidle & Hw & Hq & Hq0 & Hinj) Hlen Hbd Hal Hrd. set (c := da_chunk_id da) in *.
  unfold d_read. rewrite (proj2 (Z.ltb_ge _ _)) by lia.
  unfold disk_data. rewrite Hbd. cbn [downcast_disk ok_or]. unfold lift, bind at 1. fold c.
  unfold gets, bind at 1, id. unfold bind at 1. rewrite Hal. cbn [ok_or].
  destruct (io_round now IoRead c Disk _ Hidle ltac:(lia)) as (i1 & Hiss & _).
  unfold on_io at 1, bind at 1. rewrite Hiss. cbn [map_err].
  unfold fetch_add_queue at 1, modify at 1, bind at 1.
  edestruct on_sim_latency as (s1 & Hs1 & C1). erewrite bind_Ok by exact Hs1.
  edestruct (on_sim_no_fail "read") as (s2 & Hs2 & C2).
  2:{ erewrite bind_Ok by exact Hs2.
      unfold bind at 1, spawn_blocking. unfold dbase in *. unfold bind at 1.
      cbn [dcfg files set_sim set_queue set_dio]. rewrite ?Hrd. unfold bind at 1.
      cbn [dcfg files set_sim set_queue set_dio]. rewrite Hrd.
      unfold fetch_add_queue, modify, bind at 1, bind at 1.
      edestruct (complete_first_issued now c IoRead Disk None (dio d)) as (i2 & Hc & Hi2 & Hn2).
      4:{ erewrite bind_Ok by exact Hc. eexists. split; [reflexivity|].
          split; [done|]. split; [|done]. simpl. by apply queue_back. }
      - done.
      - lia.
      - simpl. by rewrite Hiss. }
  destruct C1 as (E & _). cbn [simulation set_sim] in *. rewrite E. apply Hinj.
Qed.

(** C9: data written to a disk allocation is read back unchanged: with no
    failure configured and no file fault, a write of at most the allocation's
    size succeeds and an immediate read of the same length returns the data,
    through compression, header, file system and hash check. *)
Theorem disk_write_read now now' a da al data z d :
  disk_ready d -> next_id (dio d) + 3 < 2 ^ 64 ->
  Z.of_nat (length data) <= alloc_size a ->
  backend_data a = BDDisk da -> wf_id (da_chunk_id da) ->
  allocations d !! da_chunk_id da = Some al ->
  compress data (write_compression data) CompressionConfig_default = Ok z ->
  Z.of_nat (length data) < 2 ^ 32 -> Z.of_nat (length z) < 2 ^ 32 ->
  exists d1 d2, d_write now no_faults a data d = (Ok tt, d1) /\
    d_read now' NoFault a (replicate (length data) Byte.x00) d1 = (Ok data, d2) /\
    files d2 = files d1 /\ io_idle (dio d2) /\ dqueue_depth d2 = dqueue_depth d.
Proof.
  intros Hr Hn Hlen Hbd Hwf Hal Hz Hd32 Hz32.
  destruct (d_write_ok now a da al data z d Hr Hlen Hbd Hwf Hal Hz) as (s & i & Hw & C & Hi & Hi').
  destruct Hr as (_ & _ & Hq & Hq0 & Hinj).
  rewrite Hw. eexists. set (d1 := mkDisk _ _ _ _ _ _ _ _ _).
  destruct (d_read_ok now' a da (written (Z.of_nat (HEADER_SIZE + length z)) (write_compression data)
      (blake3 data) (Z.of_nat (length data)) al) (replicate (length data) Byte.x00) data d1)
    as (d2 & Hrd & Hidle & Hqd & _ & Hf & _).
  - unfold disk_ready, no_injection, d1. simpl. destruct C as (-> & _). rewrite Hi'.
    split_and!; try done; try lia; apply Hinj.
  - by rewrite length_replicate.
  - done.
  - simpl. apply lookup_insert_eq.
  - unfold read_chunk, mapping, bind, fs_read, lift, d1, dbase. simpl. rewrite lookup_insert_eq.
    simpl. by rewrite parse_chunk_file by (done || apply blake3_length).
  - rewrite copy_prefix_full in Hrd by (by rewrite length_replicate). eauto 10.
Qed.

(** The record an allocation of [size] bytes is given. *)
Definition placeholder (d : DiskBackend) (size : Z) : DiskAllocation :=
  let c := from_data (to_le_bytes 8 size) in
  DiskAllocation_new c (chunk_path (dbase d) c) size 0 CompNone (replicate 32 Byte.x00).

(** [allocate] when no failure is configured and the request fits. *)
Lemma d_allocate_ok size d :
  no_injection d -> 0 < size -> 0 <= dused d -> dused d + size <= dcapacity d ->
  in_u 64 (dcapacity d) ->
  exists s, d_allocate b size d =
    (Ok (mkAllocation 0 size (BDDisk (placeholder d size))),
     set_allocations (set_dused (set_sim d s) (dused d + size))
       (<[from_data (to_le_bytes 8 size) := placeholder d size]> (allocations d))) /\
    same_core (simulation d) s.
Proof.
  intros Hinj Hs Hu Hc Hcap. unfold placeholder. cbv zeta. unfold in_u in Hcap. unfold d_allocate.
  rewrite (proj2 (Z.eqb_neq _ _)) by lia.
  edestruct on_sim_latency as (s1 & Hs1 & C1). erewrite bind_Ok by exact Hs1.
  destruct (on_sim_no_fail "alloc" (set_sim d s1)) as (s2 & Hs2 & C2).
  { destruct C1 as (E & _). cbn [simulation set_sim]. rewrite E. apply Hinj. }
  erewrite bind_Ok by exact Hs2. exists s2. split; [|by etrans].
  unfold gets, lift, bind, fetch_add_used, modify, id. cbn [dused set_sim].
  rewrite arith_in by (unfold in_u; lia). unfold dcapacity, dbase in *. cbn [dcfg dused set_sim set_dused].
  rewrite (proj2 (Z.ltb_ge _ _)) by lia. cbn [dused set_sim].
  rewrite (wrap_in 64 (dused d + size)), arith_in by (unfold in_u; lia).
  by rewrite (proj2 (Z.ltb_ge _ _)) by lia.
Qed.

Lemma d_deallocate_ok a da al d :
  backend_data a = BDDisk da -> allocations d !! da_chunk_id da = Some al ->
  exists s, d_deallocate NoFault a d =
    (Ok tt, mkDisk (dcfg d) (wrap 64 (dused d - reserved_size al))
      (delete (da_chunk_id da) (allocations d)) (dio d) (dqueue_depth d) (dbytes_written d)
      (dbytes_read d) s (delete (file_path al) (files d))) /\ same_core (simulation d) s.
Proof.
  intros Hbd Hal. unfold d_deallocate.
  edestruct on_sim_latency as (s1 & Hs1 & C1). erewrite bind_Ok by exact Hs1.
  exists s1. split; [|done]. unfold disk_data. rewrite Hbd. cbn [downcast_disk ok_or].
  unfold gets, lift, bind, modify, id. cbn [allocations set_sim]. rewrite Hal.
  cbn [ok_or files set_sim set_allocations].
  unfold exists_, delete_chunk_file, on_files, mapping, fs_remove, fetch_sub_used, modify, ret.
  destruct (files d !! file_path al) as [f|] eqn:Ef.
  - rewrite bool_decide_eq_true_2 by eauto. cbn. by rewrite Ef.
  - rewrite bool_decide_eq_false_2 by (by intros []). cbn. by rewrite (delete_id (files d)) by done.
Qed.

(** Handles of equal size alias.  The placeholder identifier of an
    allocation is the hash of its size, so any two allocations of the same
    size are the same handle, backed by the same file: releasing both fails
    the second time, and the bytes reserved for it are never given back. *)
Theorem same_size_allocations_alias size d :
  no_injection d -> 0 < size -> 0 <= dused d -> dused d + 2 * size <= dcapacity d ->
  in_u 64 (dcapacity d) ->
  exists a d1 d2 d3 d4, d_allocate b size d = (Ok a, d1) /\ d_allocate b size d1 = (Ok a, d2) /\
    d_deallocate NoFault a d2 = (Ok tt, d3) /\
    d_deallocate NoFault a d3 = (Err (AllocationNotFound 0), d4) /\
    dused d4 = dused d + size.
Proof.
  intros Hinj Hs Hu Hc Hcap.
  destruct (d_allocate_ok size d) as (s & H1 & C1); [done..|lia|done|].
  set (d1 := set_allocations _ _) in H1.
  destruct (d_allocate_ok size d1) as (s2 & H2 & C2); unfold d1; try done; simpl; try lia.
  { unfold no_injection in *. simpl. destruct C1 as (-> & _). done. }
  { unfold dcapacity in *. simpl. lia. }
  set (d2 := set_allocations _ _) in H2.
  destruct (d_deallocate_ok (mkAllocation 0 size (BDDisk (placeholder d size))) (placeholder d size)
    (placeholder d1 size) d2) as (s3 & H3 & C3); [done|apply lookup_insert_eq|].
  set (d3 := mkDisk _ _ _ _ _ _ _ _ _) in H3.
  destruct (on_sim_latency 0 d3) as (s4 & Hs4 & C4).
  eexists _, d1, d2, d3, _. split_and!; [exact H1|exact H2|exact H3| |].
  - unfold d_deallocate, bind at 1. rewrite Hs4.
    unfold disk_data, lift, bind, gets, modify, id. cbn [backend_data downcast_disk ok_or].
    cbn [allocations set_sim d3 da_chunk_id DiskAllocation_new placeholder]. rewrite lookup_delete_eq. cbn [ok_or].
    reflexivity.
  - unfold d3, d2, d1. simpl. unfold in_u, dcapacity in *. rewrite wrap_in by (unfold in_u; lia). lia.
Qed.

Lemma wrap_add_idemp w x y : wrap w (wrap w x + y) = wrap w (x + y).
Proof. unfold wrap. apply Zplus_mod_idemp_l. Qed.

(** The space accounting of a write leaks.  Allocating, writing and
    releasing once succeeds and removes the file, but leaves [used] larger by
    the number of payload bytes written: a write trades the header size for
    the file size while a release gives back only the reservation. *)
Theorem disk_write_release_leaks now size data z d :
  disk_ready d -> 0 < size -> 0 <= dused d -> in_u 64 (dcapacity d) ->
  dused d + size + Z.of_nat (length z) <= dcapacity d ->
  Z.of_nat (length data) <= size ->
  compress data (write_compression data) CompressionConfig_default = Ok z ->
  exists a d1 d2 d3, d_allocate b size d = (Ok a, d1) /\ d_write now no_faults a data d1 = (Ok tt, d2) /\
    d_deallocate NoFault a d2 = (Ok tt, d3) /\
    dused d3 = dused d + Z.of_nat (length z) /\
    files d3 !! chunk_path (dbase d) (from_data (to_le_bytes 8 size)) = None.
Proof.
  intros Hr Hs Hu Hcap Hc Hlen Hz.
  pose proof Hr as (Hidle & Hn & Hq & Hq0 & Hinj).
  destruct (d_allocate_ok size d) as (s & H1 & C1); [done..|lia|done|].
  set (al := placeholder d size) in *. set (d1 := set_allocations _ _) in H1.
  destruct (d_write_ok now (mkAllocation 0 size (BDDisk al)) al al data z d1) as (s2 & i & H2 & _);
    try done.
  { unfold disk_ready, no_injection, d1. simpl. destruct C1 as (-> & _). done. }
  { apply blake3_length. }
  { simpl. apply lookup_insert_eq. }
  set (d2 := mkDisk _ _ _ _ _ _ _ _ _) in H2.
  destruct (d_deallocate_ok (mkAllocation 0 size (BDDisk al)) al
    (written (Z.of_nat (HEADER_SIZE + length z)) (write_compression data) (blake3 data)
       (Z.of_nat (length data)) al) d2) as (s3 & H3 & _);
    [done|apply lookup_insert_eq|].
  eexists _, d1, d2, _. split_and!; [exact H1|exact H2|exact H3| |].
  - unfold d2, d1. simpl. rewrite wrap_add_idemp. unfold in_u, dcapacity in *.
    replace (dused d + size - 51 + Z.of_nat (S _)) with (dused d + size + Z.of_nat (length z)) by lia.
    rewrite (wrap_in 64 (dused d + size + Z.of_nat (length z))) by (unfold in_u; lia).
    rewrite wrap_in by (unfold in_u; lia). lia.
  - simpl. apply lookup_delete_eq.
Qed.
Lemma should_fail_always op (s : SimBackend) :
  fle (failure_rate (config s) op) f64_zero = false ->
  fge (failure_rate (config s) op) f64_one = true -> should_fail op s = (Ok true, s).
Proof. intros H0 H1. unfold should_fail, bind, gets, ret, id. cbv zeta. by rewrite H0, H1. Qed.

(** A write hit by an injected failure leaves its I/O request in flight. *)
Lemma injected_write_failure_pending now fl a da data d :
  sched_inv (dio d) -> pending_count (dio d) < max_pending (dio d) ->
  next_id (dio d) + 1 < 2 ^ 64 ->
  fge (write_failure_rate (failure (config (simulation d)))) f64_one = true ->
  fle (write_failure_rate (failure (config (simulation d)))) f64_zero = false ->
  Z.of_nat (length data) <= alloc_size a -> backend_data a = BDDisk da ->
  exists d', d_write now fl a data d = (Err (WriteFailed "simulated write failure"), d') /\
    pending_count (dio d') = pending_count (dio d) + 1.
Proof.
  intros Hi Hroom Hw H1 H0 Hlen Hbd. unfold d_write. rewrite (proj2 (Z.ltb_ge _ _)) by lia.
  unfold disk_data. rewrite Hbd. cbn [downcast_disk ok_or]. unfold lift, bind at 1.
  destruct (issue_room now IoWrite (da_chunk_id da) Disk (dio d) Hroom) as [em Hiss].
  unfold on_io at 1, bind at 1. rewrite Hiss. cbn [map_err].
  unfold fetch_add_queue at 1, modify at 1, bind at 1.
  edestruct on_sim_latency as (s1 & Hs1 & C1). erewrite bind_Ok by exact Hs1.
  destruct C1 as (E & _). cbn [simulation set_queue set_dio] in E.
  unfold on_sim at 1, bind at 1. cbn [simulation set_sim].
  rewrite (should_fail_always "write" s1) by (unfold failure_rate; by rewrite E).
  unfold fetch_add_queue, modify, throw. eexists. split; [reflexivity|].
  unfold pending_count. simpl. rewrite map_size_insert_None; [lia|].
  destruct (pending (dio d) !! next_id (dio d)) eqn:Ep; [|done].
  apply (si_pending _ Hi) in Ep. lia.
Qed.
End facts.

(** ** Concrete runs *)

Definition ex_disk : @DiskBackend ex_rng :=
  @Disk_new ex_rng 0 (DiskConfig_new ["data"%string] 1000) ∅.

Definition ex_disk_alloc : Allocation * @DiskBackend ex_rng :=
  match @d_allocate ex_rng ex_blake3 Debug 16 ex_disk with
  | (Ok a, d) => (a, d)
  | (_, d) => (mkAllocation 0 0 BDUnit, d)
  end.

Lemma ex_disk_ready : @disk_ready ex_rng ex_disk /\ @disk_ready ex_rng ex_disk_alloc.2.
Proof.
  assert (forall d : @DiskBackend ex_rng, dio d = dio ex_disk -> dqueue_depth d = 0 ->
    no_injection d -> disk_ready d) as H.
  { intros d E Hq Hn. unfold disk_ready. rewrite E, Hq.
    split_and!; try done; try (unfold in_u; simpl; lia). split_and!; [apply sched_inv_new|done..]. }
  split; apply H; vm_compute; done.
Qed.

Definition ex_bytes : list byte := [Byte.x01; Byte.x02; Byte.x03].

Lemma disk_write_read_witness :
  exists d1 d2, @d_write ex_rng ex_blake3 ex_zstd 5 no_faults ex_disk_alloc.1 ex_bytes
      ex_disk_alloc.2 = (Ok tt, d1) /\
    @d_read ex_rng ex_blake3 ex_zstd 6 NoFault ex_disk_alloc.1 (replicate 3 Byte.x00) d1
      = (Ok ex_bytes, d2).
Proof.
  destruct (@disk_write_read ex_rng ex_blake3 ex_zstd 5 6 ex_disk_alloc.1
    (@placeholder ex_rng ex_blake3 ex_disk 16) (@placeholder ex_rng ex_blake3 ex_disk 16) ex_bytes
    ex_bytes ex_disk_alloc.2) as (d1 & d2 & Hw & Hr & _).
  - apply ex_disk_ready.
  - vm_compute. reflexivity.
  - vm_compute. discriminate.
  - vm_compute. reflexivity.
  - vm_compute. reflexivity.
  - vm_compute. reflexivity.
  - vm_compute. reflexivity.
  - vm_compute. reflexivity.
  - vm_compute. reflexivity.
  - exists d1, d2. split; [exact Hw|exact Hr].
Defined.

Lemma same_size_allocations_alias_witness :
  exists a d1 d2, @d_allocate ex_rng ex_blake3 Debug 16 ex_disk = (Ok a, d1) /\
    @d_allocate ex_rng ex_blake3 Debug 16 d1 = (Ok a, d2).
Proof.
  destruct (@same_size_allocations_alias ex_rng ex_blake3 Debug 16 ex_disk)
    as (a & d1 & d2 & d3 & d4 & H1 & H2 & _).
  - apply ex_disk_ready.
  - reflexivity.
  - vm_compute. discriminate.
  - vm_compute. discriminate.
  - split; vm_compute; [discriminate|reflexivity].
  - exists a, d1, d2. split; [exact H1|exact H2].
Defined.

Lemma disk_write_release_leaks_witness :
  exists a d1 d2 d3, @d_allocate ex_rng ex_blake3 Debug 16 ex_disk = (Ok a, d1) /\
    @d_write ex_rng ex_blake3 ex_zstd 5 no_faults a ex_bytes d1 = (Ok tt, d2) /\
    @d_deallocate ex_rng NoFault a d2 = (Ok tt, d3) /\ @dused ex_rng d3 = 3.
Proof.
  destruct (@disk_write_release_leaks ex_rng ex_blake3 ex_zstd Debug 5 16 ex_bytes ex_bytes ex_disk)
    as (a & d1 & d2 & d3 & H1 & H2 & H3 & H4 & _).
  - apply ex_disk_ready.
  - reflexivity.
  - vm_compute. discriminate.
  - split; vm_compute; [discriminate|reflexivity].
  - vm_compute. discriminate.
  - vm_compute. discriminate.
  - reflexivity.
  - exists a, d1, d2, d3. split; [exact H1|]. split; [exact H2|]. split; [exact H3|exact H4].
Defined.

(** Writing through one handle of a size changes what the other reads. *)
Example same_size_data_loss :
  let m := (a1 <- @d_allocate ex_rng ex_blake3 Debug 16 ;;
            a2 <- @d_allocate ex_rng ex_blake3 Debug 16 ;;
            @d_write ex_rng ex_blake3 ex_zstd 1 no_faults a1 [Byte.x01] ;;;
            @d_write ex_rng ex_blake3 ex_zstd 2 no_faults a2 [Byte.x02] ;;;
            @d_read ex_rng ex_blake3 ex_zstd 3 NoFault a1 [Byte.x00])%rust in
  (m ex_disk).1 = Ok [Byte.x02].
Proof. vm_compute. reflexivity. Qed.

(** ** Concurrent reservations

    The capacity part of [allocate] as its atomic accesses: a load and test, a
    [fetch_add] returning the old value, a test of that value, and a
    [fetch_sub] when it fails.  Any number of threads interleave.  A refusal
    computes what is available: in a debug build that subtraction panics when
    other threads have, for a moment, taken the counter over the capacity. *)
Module Reserve.

Inductive Thread :=
  | Start (n : Z) | Checked (n : Z) | Added (n current : Z) | Granted (n : Z) | Refused (n : Z)
  | Panicked (n : Z).

Record Shared := mkShared { sh_cap : Z; sh_used : Z; threads : list Thread }.

Definition request (t : Thread) : Z :=
  match t with Start n | Checked n | Added n _ | Granted n | Refused n | Panicked n => n end.

(** [Err(InsufficientSpace { available: self.capacity - used, .. })]. *)
Definition refuse (b : Build) (cap used n : Z) : Thread :=
  match arith (E := BackendError) b 64 (cap - used) with Ok _ => Refused n | _ => Panicked n end.

(** One access of a thread. *)
Definition advance (b : Build) (cap used : Z) (t : Thread) : option (Z * Thread) :=
  match t with
  | Start n =>
      match arith (E := BackendError) b 64 (used + n) with
      | Ok sum => Some (used, if cap <? sum then refuse b cap used n else Checked n)
      | _ => Some (used, Panicked n)
      end
  | Checked n => Some (wrap 64 (used + n), Added n used)
  | Added n current =>
      match arith (E := BackendError) b 64 (current + n) with
      | Ok sum =>
          if cap <? sum then Some (wrap 64 (used - n), refuse b cap current n) else Some (used, Granted n)
      | _ => Some (used, Panicked n)
      end
  | Granted _ | Refused _ | Panicked _ => None
  end.

Inductive step (b : Build) : Shared -> Shared -> Prop :=
  | step_at cap used ts i t used' t' :
      ts !! i = Some t -> advance b cap used t = Some (used', t') ->
      step b (mkShared cap used ts) (mkShared cap used' (<[i := t']> ts)).

Definition zsum (f : Thread -> Z) (ts : list Thread) : Z :=
  foldr (fun t acc => f t + acc) 0 ts.

Lemma zsum_insert f ts i t t' :
  ts !! i = Some t -> zsum f (<[i := t']> ts) = zsum f ts - f t + f t'.
Proof.
  revert i. induction ts as [|u ts IH]; intros [|i]; simpl; try done.
  - intros [= ->]. lia.
  - intros H. rewrite (IH i H). lia.
Qed.

Lemma zsum_mono f g ts :
  Forall (fun t => 0 <= f t <= g t) ts -> 0 <= zsum f ts <= zsum g ts.
Proof. induction 1 as [|t ts H _ IH]; simpl; [done|]. lia. Qed.

Lemma zsum_start f sizes : (forall n, f (Start n) = 0) -> zsum f (Start <$> sizes) = 0.
Proof.
  intros H. induction sizes as [|n l IH]; [done|]. rewrite fmap_cons. cbn [zsum foldr].
  rewrite H. exact IH.
Qed.

(** Bytes a thread currently has in the counter, and bytes it is entitled to. *)
Definition counted (t : Thread) : Z :=
  match t with Added n _ | Granted n => n | _ => 0 end.
Definition held (cap : Z) (t : Thread) : Z :=
  match t with
  | Granted n => n
  | Added n current => if cap <? current + n then 0 else n
  | _ => 0
  end.

(** [base] bytes were in use before; all requests together fit 64 bits; what a
    thread has read of the counter it read below that bound. *)
Definition read_ok (bound : Z) (t : Thread) : Prop :=
  match t with Added n current => 0 <= current /\ current + n <= bound | _ => True end.

Record reserve_inv (base total : Z) (s : Shared) : Prop := {
  rv_base : 0 <= base <= sh_cap s;
  rv_size : Forall (fun t => 0 <= request t) (threads s);
  rv_total : zsum request (threads s) = total;
  rv_width : base + total < 2 ^ 64;
  rv_used : sh_used s = base + zsum counted (threads s);
  rv_held : base + zsum (held (sh_cap s)) (threads s) <= sh_cap s;
  rv_read : Forall (read_ok (base + total)) (threads s);
}.

Lemma refuse_cases b cap used n : refuse b cap used n = Refused n \/ refuse b cap used n = Panicked n.
Proof. unfold refuse. destruct (arith _ _ _); auto. Qed.

Lemma held_counted cap ts :
  Forall (fun t => 0 <= request t) ts -> 0 <= zsum (held cap) ts <= zsum counted ts.
Proof.
  intros H. apply zsum_mono. eapply Forall_impl; [exact H|]. intros t Ht.
  destruct t; simpl in *; try case_match; lia.
Qed.

Lemma counted_request ts :
  Forall (fun t => 0 <= request t) ts -> 0 <= zsum counted ts <= zsum request ts.
Proof.
  intros H. apply zsum_mono. eapply Forall_impl; [exact H|]. intros t Ht.
  destruct t; simpl in *; lia.
Qed.

Lemma advance_request b cap used t used' t' :
  advance b cap used t = Some (used', t') -> request t' = request t.
Proof.
  destruct t; simpl; unfold refuse; repeat case_match; intros [= <- <-]; done.
Qed.

(** A thread that has read the counter within its width takes one of four
    steps: it is refused (or panics refusing), goes on, adds or is granted. *)
Lemma advance_cases b cap used t used' t' :
  0 <= used -> 0 <= request t ->
  match t with Added n current => 0 <= current /\ current + n < 2 ^ 64 | _ => used + request t < 2 ^ 64 end ->
  advance b cap used t = Some (used', t') ->
  match t with
  | Start n => used' = used /\ (cap < used + n /\ (t' = Refused n \/ t' = Panicked n) \/ used + n <= cap /\ t' = Checked n)
  | Checked n => used' = used + n /\ t' = Added n used
  | Added n current =>
      cap < current + n /\ used' = wrap 64 (used - n) /\ (t' = Refused n \/ t' = Panicked n) \/
      current + n <= cap /\ used' = used /\ t' = Granted n
  | _ => False
  end.
Proof.
  intros Hu Hn Hw. destruct t as [n|n|n current|n|n|n]; simpl in *; try done.
  - rewrite arith_in by (unfold in_u; lia). intros [= <- <-]. split; [done|].
    destruct (Z.ltb_spec cap (used + n)); [left; split; [done|apply refuse_cases]|right; split; [lia|done]].
  - intros [= <- <-]. rewrite wrap_in by (unfold in_u; lia). done.
  - rewrite arith_in by (unfold in_u; lia).
    destruct (Z.ltb_spec cap (current + n)); intros [= <- <-]; [left; split_and!; [done|done|apply refuse_cases]|right; split_and!; [lia|done|done]].
Qed.

(** What thread [i] has not added yet still fits. *)
Lemma counted_room ts i t :
  Forall (fun t => 0 <= request t) ts -> ts !! i = Some t ->
  zsum counted ts - counted t <= zsum request ts - request t.
Proof.
  intros H. revert i. induction H as [|x ts Hx Hts IH]; intros [|i] Hi; simpl in *; try done.
  - injection Hi as ->. pose proof (counted_request ts Hts). lia.
  - specialize (IH i Hi). destruct x; simpl in *; lia.
Qed.

Lemma reserve_step b base total s s' :
  reserve_inv base total s -> step b s s' -> reserve_inv base total s'.
Proof.
  intros [Hb Hsz Htot Hw Hu Hh Hrd] Hst. destruct Hst as [cap used ts i t used' t' Hi Ha].
  simpl in *. pose proof (advance_request _ _ _ _ _ _ Ha) as Hreq.
  assert (0 <= request t) as Ht by (by eapply Forall_lookup_1 in Hsz).
  pose proof (Forall_lookup_1 _ _ _ _ Hrd Hi) as Hrt. pose proof (counted_room ts i t Hsz Hi) as Hroom.
  assert (Forall (fun t => 0 <= request t) (<[i := t']> ts)) as Hsz'
    by (apply Forall_insert; [done|by rewrite Hreq]).
  pose proof (zsum_insert request ts i t t' Hi) as E1. rewrite Hreq in E1.
  pose proof (zsum_insert counted ts i t t' Hi) as E2.
  pose proof (zsum_insert (held cap) ts i t t' Hi) as E3.
  pose proof (counted_request ts Hsz). pose proof (counted_request _ Hsz'). pose proof (held_counted cap ts Hsz).
  apply advance_cases in Ha; [|lia|done|].
  2:{ destruct t; simpl in *; first [discriminate Ha|lia]. }
  destruct t as [n|n|n current|n|n|n]; simpl in *; try done;
    destruct_and?; destruct_or?; destruct_and?; destruct_or?; subst; simpl in *; split; simpl; try done;
    try lia.
  all: try (apply Forall_insert; [done|simpl; lia || done]).
  all: rewrite ?wrap_in by (unfold in_u; lia); try lia.
  all: case_match; bool_to_prop; lia.
Qed.

(** C10: the disk backend never overcommits, however concurrent allocations
    interleave.  From any state where [base] bytes are in use and all threads
    are about to call [allocate], in every reachable state the bytes of the
    granted requests fit in the capacity; once every thread has finished, be it
    in a panic while reporting a refusal, the counter is exactly [base] plus the
    granted bytes. *)
Theorem reserve_never_overcommits b base cap sizes s :
  0 <= base <= cap -> Forall (fun n => 0 <= n) sizes ->
  base + zsum request (Start <$> sizes) < 2 ^ 64 ->
  rtc (step b) (mkShared cap base (Start <$> sizes)) s ->
  base + zsum (fun t => match t with Granted n => n | _ => 0 end) (threads s) <= cap /\
  (Forall (fun t => match t with Granted _ | Refused _ | Panicked _ => True | _ => False end) (threads s) ->
   sh_used s = base + zsum (fun t => match t with Granted n => n | _ => 0 end) (threads s)).
Proof.
  intros Hb Hs Hw Hr.
  assert (reserve_inv base (zsum request (Start <$> sizes)) (mkShared cap base (Start <$> sizes))) as Hi.
  { split; simpl; try done.
    - apply Forall_fmap. eapply Forall_impl; [exact Hs|done].
    - rewrite zsum_start by done. lia.
    - rewrite zsum_start by done. lia.
    - apply Forall_fmap, Forall_true. done. }
  assert (reserve_inv base (zsum request (Start <$> sizes)) s /\ sh_cap s = cap) as [Hi' Hcap].
  { clear - Hr Hi. remember (mkShared _ _ _) as s0 eqn:E0.
    assert (sh_cap s0 = cap) as Hc0 by (by subst). clear E0.
    revert Hi Hc0. induction Hr as [|s0 s1 s2 Hst _ IH]; [done|]. intros Hi Hc0.
    apply IH; [by eapply reserve_step|]. by destruct Hst. }
  destruct Hi' as [_ Hsz _ _ Hu Hh _]. rewrite Hcap in *.
  set (g := fun t => match t with Granted n => n | _ => 0 end).
  assert (zsum g (threads s) <= zsum (held cap) (threads s)) as Hle.
  { apply zsum_mono. eapply Forall_impl; [exact Hsz|]. intros t Ht.
    unfold g. destruct t; simpl in *; try case_match; lia. }
  split; [lia|]. intros Hdone. rewrite Hu. f_equal. clear - Hdone.
  induction Hdone as [|t ts Ht _ IH]; simpl; [done|]. rewrite IH. by destruct t.
Qed.

Lemma reserve_never_overcommits_witness :
  let s := mkShared 100 90 [Granted 60; Refused 60] in
  30 + zsum (fun t => match t with Granted n => n | _ => 0 end) (threads s) <= 100 /\ sh_used s = 90.
Proof.
  cbv zeta. destruct (reserve_never_overcommits Debug 30 100 [60; 60]
    (mkShared 100 90 [Granted 60; Refused 60])) as [H1 H2].
  - lia.
  - repeat constructor; lia.
  - simpl. lia.
  - eapply rtc_l; [apply (step_at Debug 100 30 [Start 60; Start 60] 0 (Start 60)); reflexivity|].
    eapply rtc_l; [apply (step_at Debug 100 30 [Checked 60; Start 60] 1 (Start 60)); reflexivity|].
    eapply rtc_l; [apply (step_at Debug 100 30 [Checked 60; Checked 60] 0 (Checked 60)); reflexivity|].
    eapply rtc_l; [apply (step_at Debug 100 90 [Added 60 30; Checked 60] 1 (Checked 60)); reflexivity|].
    eapply rtc_l; [apply (step_at Debug 100 150 [Added 60 30; Added 60 90] 0 (Added 60 30)); reflexivity|].
    eapply rtc_l; [apply (step_at Debug 100 150 [Granted 60; Added 60 90] 1 (Added 60 90)); reflexivity|].
    apply rtc_refl.
  - split; [exact H1|]. rewrite H2; [reflexivity|]. repeat constructor.
Defined.

(** A refusal can panic in a debug build: while two other threads hold 120 of
    100 bytes, the third computes [100 - 120]. *)
Lemma refusal_panics :
  rtc (step Debug) (mkShared 100 0 (Start <$> [60; 60; 10])) (mkShared 100 120 [Added 60 0; Added 60 60; Panicked 10]).
Proof.
  eapply rtc_l; [apply (step_at Debug 100 0 [Start 60; Start 60; Start 10] 0 (Start 60)); reflexivity|].
  eapply rtc_l; [apply (step_at Debug 100 0 [Checked 60; Start 60; Start 10] 1 (Start 60)); reflexivity|].
  eapply rtc_l; [apply (step_at Debug 100 0 [Checked 60; Checked 60; Start 10] 0 (Checked 60)); reflexivity|].
  eapply rtc_l; [apply (step_at Debug 100 60 [Added 60 0; Checked 60; Start 10] 1 (Checked 60)); reflexivity|].
  eapply rtc_l; [apply (step_at Debug 100 120 [Added 60 0; Added 60 60; Start 10] 2 (Start 10)); reflexivity|].
  apply rtc_refl.
Qed.
End Reserve.

(** ** The chunk file helpers

    [write_chunk_file] and [read_chunk_file] take the path of a file, of which
    they use only the directory. *)
Module ChunkFiles.
Section files.
Context `{ZL : ZstdLib} `{B : Blake3}.

(** [file_path.parent().unwrap()]: the empty path has no parent. *)
Definition parent {E} (p : Path) : outcome E Path :=
  match p with [] => Panic "called `Option::unwrap()` on a `None` value" | _ => Ok (removelast p) end.

(** [to_string_lossy]; the first component of an absolute path is empty. *)
Definition path_text (p : Path) : list byte := bytes_of_string (String.concat "/" p).

Definition write_chunk_file (fl : WriteFaults) (file_path : Path) (data : list byte)
    (a : CompressionAlgorithm) : M Files BackendError (Z * list byte) :=
  let content_hash := compute_hash data in
  dir <- lift (parent file_path) ;;
  disk_size <- write_chunk dir fl (from_data data) data content_hash a ;;
  ret (disk_size, content_hash).

Definition read_chunk_file (fl : Fault) (file_path : Path) (expected_hash : list byte)
    : M Files BackendError (list byte) :=
  dir <- lift (parent file_path) ;;
  let chunk_id := from_data (path_text file_path) in
  read_chunk dir fl chunk_id expected_hash.

(** The two helpers do not fit together.  A write that meets no fault stores
    the data in the directory of [dir/name], under the name of its hash: the
    file [dir/name] itself is as before.  A read of [dir/name] looks for a
    chunk named by the hash of that path: when there was none and the two
    hashes differ, it fails, although the data has just been written. *)
Theorem chunk_file_helpers_disagree dir name data a compressed fs :
  let p := dir ++ [name] in
  compress data a CompressionConfig_default = Ok compressed ->
  from_data (path_text p) <> from_data data ->
  fs !! chunk_path dir (from_data (path_text p)) = None ->
  exists n fs' msg,
    write_chunk_file no_faults p data a fs = (Ok (n, compute_hash data), fs') /\
    fs' !! p = fs !! p /\
    read_chunk_file NoFault p (compute_hash data) fs' = (Err (ReadFailed msg), fs').
Proof.
  cbv zeta. intros Hc Hne Hno.
  assert (parent (E:=BackendError) (dir ++ [name]) = Ok dir) as Hp.
  { unfold parent. rewrite removelast_last. by destruct dir. }
  assert (forall x y, dir ++ [x; y] <> dir ++ [name]) as Hlen
    by (intros x y [=]%(f_equal (@length _)); rewrite !length_app in *; simpl in *; lia).
  unfold write_chunk_file, read_chunk_file. rewrite Hp. unfold lift, bind, ret.
  erewrite write_chunk_ok by (done || apply from_data_length || apply blake3_length).
  eexists _, _, _. split_and!; [reflexivity| |].
  - rewrite lookup_insert_ne, lookup_delete_ne; [done|..]; apply Hlen.
  - unfold read_chunk, mapping, bind, fs_read.
    rewrite lookup_insert_ne by (intros ?%(inj _); congruence).
    rewrite lookup_delete_ne, Hno by (apply temp_path_ne; apply from_data_length).
    reflexivity.
Qed.
End files.

Lemma chunk_file_helpers_disagree_witness :
  let p := ["tmp"; "test.blk"]%string in
  exists n fs' msg,
    @write_chunk_file ex_zstd ex_blake3 no_faults p [Byte.x01; Byte.x02] CompNone ∅
      = (Ok (n, @compute_hash ex_blake3 [Byte.x01; Byte.x02]), fs') /\
    @read_chunk_file ex_zstd ex_blake3 NoFault p (@compute_hash ex_blake3 [Byte.x01; Byte.x02]) fs'
      = (Err (ReadFailed msg), fs').
Proof.
  destruct (@chunk_file_helpers_disagree ex_zstd ex_blake3 ["tmp"%string] "test.blk"
    [Byte.x01; Byte.x02] CompNone [Byte.x01; Byte.x02] ∅) as (n & fs' & msg & Hw & _ & Hr);
    [reflexivity|discriminate|reflexivity|].
  exists n, fs', msg. split; [exact Hw|exact Hr].
Defined.
End ChunkFiles.
