(* ===== verification/Frame.v ===== *)
(** * IPC framing: [ghost-ipc/src/frame.rs]

    A frame is a 4-byte big-endian length and the payload.  A reader is the
    bytes still to arrive and how the stream ends; a writer is the bytes
    accepted so far and an optional fault after a number of further bytes. *)

From Stdlib Require Import ZArith Lia.
From Stdlib Require Strings.Byte.
From stdpp Require Import base strings pretty numbers list.
From S2P Require Import Prelude CoreTypes.

Open Scope rust_scope.

Definition MAX_FRAME_SIZE : Z := 256 * 1024 * 1024.

(** [ending] is [None] for end of file, [Some e] for an I/O error. *)
Record Reader := mkReader { incoming : list byte; ending : option string }.

Inductive ReadError := UnexpectedEof | OtherError (e : string).

Definition read_exact (n : nat) : M Reader ReadError (list byte) := fun r =>
  if (length (incoming r) <? n)%nat then
    (Err (match ending r with None => UnexpectedEof | Some e => OtherError e end),
     mkReader [] (ending r))
  else (Ok (take n (incoming r)), mkReader (drop n (incoming r)) (ending r)).

Definition on_read (what : string) (m : M Reader ReadError (list byte))
    : M Reader GhostError (list byte) := fun r =>
  let '(o, r') := m r in
  (map_err (fun e => match e with
     | UnexpectedEof => IpcError ("connection closed while reading frame " +:+ what)
     | OtherError e => IpcError ("failed to read frame " +:+ what +:+ ": " +:+ e)
     end) o, r').

Definition read_frame : M Reader GhostError (list byte) :=
  len_buf <- on_read "length" (read_exact 4) ;;
  let len := from_be_bytes len_buf in
  if MAX_FRAME_SIZE <? len then
    throw (IpcError ("frame size " +:+ pretty len +:+ " exceeds maximum allowed size "
                     +:+ pretty MAX_FRAME_SIZE))
  else on_read "payload" (read_exact (Z.to_nat len)).

Record Writer := mkWriter { sent : list byte; fault : option (nat * string) }.

Definition write_all (d : list byte) : M Writer string unit := fun w =>
  match fault w with
  | None => (Ok tt, mkWriter (sent w ++ d) None)
  | Some (k, e) =>
      if (length d <=? k)%nat then (Ok tt, mkWriter (sent w ++ d) (Some ((k - length d)%nat, e)))
      else (Err e, mkWriter (sent w ++ take k d) (Some (0%nat, e)))
  end.

(** A flush fails once the fault has been reached. *)
Definition flush : M Writer string unit := fun w =>
  match fault w with Some (0%nat, e) => (Err e, w) | _ => (Ok tt, w) end.

Definition on_write (what : string) (m : M Writer string unit) : M Writer GhostError unit := fun w =>
  let '(o, w') := m w in (map_err (fun e => IpcError (what +:+ ": " +:+ e)) o, w').

Definition write_frame (data : list byte) : M Writer GhostError unit :=
  let len := wrap 32 (Z.of_nat (length data)) in
  on_write "failed to write frame length" (write_all (to_be_bytes 4 len)) ;;;
  on_write "failed to write frame payload" (write_all data) ;;;
  on_write "failed to flush frame" flush.

(** ** Facts *)

Lemma read_exact_app n a b e :
  length a = n -> read_exact n (mkReader (a ++ b) e) = (Ok a, mkReader b e).
Proof.
  intros <-. unfold read_exact. simpl. rewrite (proj2 (Nat.ltb_ge _ _)).
  2:{ rewrite length_app. lia. }
  by rewrite take_app_length, drop_app_length.
Qed.

(** The bytes of a frame. *)
Definition frame (data : list byte) : list byte :=
  to_be_bytes 4 (wrap 32 (Z.of_nat (length data))) ++ data.

Lemma write_frame_ok data out :
  write_frame data (mkWriter out None) = (Ok tt, mkWriter (out ++ frame data) None).
Proof.
  unfold write_frame, on_write, write_all, flush, bind. simpl. unfold frame.
  by rewrite <- app_assoc.
Qed.

(** Whatever the fault, the bytes sent are a prefix of the frame; all of it
    when the call succeeds. *)
Lemma write_frame_prefix data w :
  exists n, sent (write_frame data w).2 = sent w ++ take n (frame data) /\
    ((write_frame data w).1 = Ok tt -> take n (frame data) = frame data).
Proof.
  destruct w as [out [[k e]|]].
  2:{ rewrite write_frame_ok. exists (length (frame data)). rewrite firstn_all. done. }
  unfold write_frame, on_write, write_all, flush, bind, frame. cbv zeta.
  generalize (to_be_bytes 4 (wrap 32 (Z.of_nat (length data)))). intros h. simpl. destruct (length h <=? k)%nat eqn:E1.
  2:{ simpl. exists k. apply Nat.leb_gt in E1. split; [|done]. f_equal.
      rewrite take_app_le by lia. done. }
  apply Nat.leb_le in E1. simpl. destruct (length data <=? k - length h)%nat eqn:E2.
  - exists (length (h ++ data)). rewrite firstn_all. simpl.
    destruct (k - length h - length data)%nat; simpl; by rewrite <- app_assoc.
  - apply Nat.leb_gt in E2. exists k. simpl. rewrite <- app_assoc, take_app_ge by lia. done.
Qed.

Lemma read_frame_ok data rest e :
  Z.of_nat (length data) <= MAX_FRAME_SIZE ->
  read_frame (mkReader (frame data ++ rest) e) = (Ok data, mkReader rest e).
Proof.
  intros Hd. unfold MAX_FRAME_SIZE in Hd. unfold read_frame, on_read, bind, frame.
  rewrite <- app_assoc, read_exact_app by apply length_to_be_bytes. cbn [map_err].
  rewrite from_to_be_bytes_in by (apply (wrap_range 32); lia).
  rewrite wrap_in by (unfold in_u; lia).
  rewrite (proj2 (Z.ltb_ge _ _)) by (unfold MAX_FRAME_SIZE; lia).
  by rewrite read_exact_app by lia.
Qed.

(** Send a list of payloads; receive [n] frames. *)
Fixpoint send_all (l : list (list byte)) : M Writer GhostError unit :=
  match l with [] => ret tt | d :: l => write_frame d ;;; send_all l end.
Fixpoint recv_n (n : nat) : M Reader GhostError (list (list byte)) :=
  match n with
  | O => ret []
  | S n => d <- read_frame ;; l <- recv_n n ;; ret (d :: l)
  end.

Lemma send_all_ok l out :
  send_all l (mkWriter out None) = (Ok tt, mkWriter (out ++ (l ≫= frame)) None).
Proof.
  revert out. induction l as [|d l IH]; intros out; simpl.
  - by rewrite app_nil_r.
  - erewrite bind_Ok by apply write_frame_ok. rewrite IH. by rewrite <- app_assoc.
Qed.

(** C16: framing round trip.  Any sequence of payloads within the size limit,
    sent over one connection, is received as exactly that sequence, with
    nothing left over and whatever follows on the stream untouched. *)
Theorem frames_roundtrip l rest e :
  Forall (fun d => Z.of_nat (length d) <= MAX_FRAME_SIZE) l ->
  exists w, send_all l (mkWriter [] None) = (Ok tt, w) /\
    recv_n (length l) (mkReader (sent w ++ rest) e) = (Ok l, mkReader rest e).
Proof.
  intros Hl. rewrite send_all_ok. eexists. split; [reflexivity|]. simpl.
  induction Hl as [|d l Hd _ IH]; simpl; [done|].
  rewrite <- app_assoc. erewrite bind_Ok by (by apply read_frame_ok).
  by erewrite bind_Ok by exact IH.
Qed.

Lemma frames_roundtrip_witness :
  exists w, send_all [[Byte.x01; Byte.x02]; []; [Byte.xff]] (mkWriter [] None) = (Ok tt, w) /\
    recv_n 3 (mkReader (sent w ++ [Byte.x07]) None)
    = (Ok [[Byte.x01; Byte.x02]; []; [Byte.xff]], mkReader [Byte.x07] None).
Proof.
  apply (frames_roundtrip [[Byte.x01; Byte.x02]; []; [Byte.xff]] [Byte.x07] None).
  repeat constructor; unfold MAX_FRAME_SIZE; simpl; lia.
Defined.

(** [read_frame] on an arbitrary byte stream never panics and never
    returns a payload longer than the limit: it fails on fewer than four
    bytes, on a declared length above the limit before reading any of the
    payload, and on a payload cut short; otherwise it returns exactly the
    declared number of bytes and leaves the rest of the stream. *)
Theorem read_frame_total bytes e :
  let '(o, r) := read_frame (mkReader bytes e) in
  let declared := from_be_bytes (take 4 bytes) in
  match o with
  | Ok d =>
      (4 <= length bytes)%nat /\ Z.of_nat (length d) = declared /\ declared <= MAX_FRAME_SIZE /\
      bytes = take 4 bytes ++ d ++ incoming r
  | Err (IpcError _) =>
      (length bytes < 4)%nat \/
      MAX_FRAME_SIZE < declared /\ incoming r = drop 4 bytes \/
      Z.of_nat (length bytes) < 4 + declared
  | _ => False
  end.
Proof.
  unfold read_frame, on_read, bind, read_exact. simpl incoming. simpl ending.
  destruct (length bytes <? 4)%nat eqn:E4.
  { apply Nat.ltb_lt in E4. destruct e; simpl; auto. }
  apply Nat.ltb_ge in E4. cbn [map_err]. set (n := from_be_bytes (take 4 bytes)).
  assert (0 <= n) as Hn by (unfold n, from_be_bytes; apply from_le_bytes_range).
  destruct (MAX_FRAME_SIZE <? n) eqn:Em; bool_to_prop; [simpl; auto|]. simpl.
  rewrite length_drop. destruct (length bytes - 4 <? Z.to_nat n)%nat eqn:Es.
  - apply Nat.ltb_lt in Es. destruct e; simpl; right; right; lia.
  - apply Nat.ltb_ge in Es. simpl. split_and!; [done| |done|].
    + rewrite length_take, length_drop. lia.
    + by rewrite !take_drop.
Qed.

(** The writer does not apply the limit the reader enforces: a payload above
    it is sent without error and refused at the other end. *)
Lemma oversized_frame_sent_not_received data :
  MAX_FRAME_SIZE < Z.of_nat (length data) < 2 ^ 32 ->
  exists w m r, write_frame data (mkWriter [] None) = (Ok tt, w) /\
    read_frame (mkReader (sent w) None) = (Err (IpcError m), r).
Proof.
  intros [H1 H2]. rewrite write_frame_ok. eexists _, _, _. split; [reflexivity|].
  unfold read_frame, on_read, bind, frame. cbn [sent]. rewrite app_nil_l.
  rewrite read_exact_app by apply length_to_be_bytes. cbn [map_err].
  rewrite from_to_be_bytes_in by (apply (wrap_range 32); lia).
  rewrite wrap_in by (unfold in_u; lia). by rewrite (proj2 (Z.ltb_lt _ _)) by done.
Qed.
