(* ===== verification/Trace.v ===== *)
(** * Trace events and the trace log: [ghost-core/src/trace.rs] and
    [ghost-daemon/src/trace_log.rs]

    Every variant of [TraceEvent] with its fields and tabulated accessors,
    then the bounded in-memory log, behind whose mutex a call is one step. *)

From Stdlib Require Import ZArith Lia.
From stdpp Require Import base strings list.
From S2P Require Import Prelude Floats CoreTypes Pressure.

Open Scope rust_scope.

Inductive EvictionReason := ByCapacity | ByPressure | ByPolicy | ByManual.

Definition eviction_reason_display (r : EvictionReason) : string :=
  match r with
  | ByCapacity => "capacity" | ByPressure => "pressure" | ByPolicy => "policy"
  | ByManual => "manual"
  end.

Module Tr.

Inductive TraceEvent :=
  | ChunkCreated (chunk_id : ChunkId) (size_ : Z) (tier : TierId) (timestamp : Z)
  | ChunkDeleted (chunk_id : ChunkId) (tier : TierId) (timestamp : Z)
  | ChunkStateChanged (chunk_id : ChunkId) (from : ChunkState) (to : ChunkState) (timestamp : Z)
  | TransferQueued (chunk_id : ChunkId) (from : TierId) (to : TierId) (priority : TransferPriority) (timestamp : Z)
  | TransferStarted (job : TransferJob) (timestamp : Z)
  | TransferCompleted (chunk_id : ChunkId) (from : TierId) (to : TierId) (size_ : Z) (duration_ms : Z) (timestamp : Z)
  | TransferFailed (chunk_id : ChunkId) (from : TierId) (to : TierId) (error : string) (attempt : Z) (timestamp : Z)
  | TransferRetry (chunk_id : ChunkId) (from : TierId) (to : TierId) (attempt : Z) (timestamp : Z)
  | TransferCancelled (chunk_id : ChunkId) (from : TierId) (to : TierId) (timestamp : Z)
  | PressureSample (state : PressureState) (timestamp : Z)
  | PressureAlert (memory_pressure : float) (vram_pressure : float) (io_pressure : float) (timestamp : Z)
  | Eviction (chunk_id : ChunkId) (tier : TierId) (reason : EvictionReason) (timestamp : Z)
  | PolicyDecision (chunk_id : ChunkId) (from : TierId) (to : TierId) (reason : string) (timestamp : Z)
  | DaemonStarted (timestamp : Z)
  | DaemonStopping (timestamp : Z)
  | BackendRegistered (tier : TierId) (timestamp : Z)
  | WorkerSpawned (worker_id : Z) (timestamp : Z)
  | WorkerStopped (worker_id : Z) (timestamp : Z)
  | IpcRequestReceived (request_type : string) (timestamp : Z)
  | IpcResponseSent (request_type : string) (success : bool) (timestamp : Z)
  | IpcConnectionAccepted (timestamp : Z)
  | IpcConnectionClosed (timestamp : Z)
  | CompressionStarted (chunk_id : ChunkId) (original_size : Z) (timestamp : Z)
  | CompressionCompleted (chunk_id : ChunkId) (original_size : Z) (compressed_size : Z) (timestamp : Z)
  | DecompressionStarted (chunk_id : ChunkId) (compressed_size : Z) (timestamp : Z)
  | DecompressionCompleted (chunk_id : ChunkId) (compressed_size : Z) (decompressed_size : Z) (timestamp : Z)
  | BackendDegraded (tier : TierId) (reason : string) (timestamp : Z)
  | BackendRecovered (tier : TierId) (timestamp : Z)
  | MigrationRolledBack (chunk_id : ChunkId) (from : TierId) (to : TierId) (reason : string) (timestamp : Z)
  | RetryExhausted (chunk_id : ChunkId) (from : TierId) (to : TierId) (attempts : Z) (timestamp : Z)
  | PressureEscalated (memory_pressure : float) (vram_pressure : float) (io_pressure : float) (timestamp : Z)
  | AllocationFailed (tier : TierId) (size_ : Z) (reason : string) (timestamp : Z)
  | QueueThrottled (queue_depth : Z) (capacity : Z) (timestamp : Z)
  | PromotionQueued (chunk_id : ChunkId) (from : TierId) (to : TierId) (timestamp : Z)
  | EvictionQueued (chunk_id : ChunkId) (tier : TierId) (reason : EvictionReason) (timestamp : Z)
  | BackpressureActivated (memory_pressure : float) (vram_pressure : float) (io_pressure : float) (timestamp : Z)
  | BackpressureReleased (memory_pressure : float) (vram_pressure : float) (io_pressure : float) (timestamp : Z)
  | MetricsExported (metrics_count : Z) (timestamp : Z).

Definition timestamp (e : TraceEvent) : Z :=
  match e with
  | ChunkCreated _ _ _ timestamp => timestamp
  | ChunkDeleted _ _ timestamp => timestamp
  | ChunkStateChanged _ _ _ timestamp => timestamp
  | TransferQueued _ _ _ _ timestamp => timestamp
  | TransferStarted _ timestamp => timestamp
  | TransferCompleted _ _ _ _ _ timestamp => timestamp
  | TransferFailed _ _ _ _ _ timestamp => timestamp
  | TransferRetry _ _ _ _ timestamp => timestamp
  | TransferCancelled _ _ _ timestamp => timestamp
  | PressureSample _ timestamp => timestamp
  | PressureAlert _ _ _ timestamp => timestamp
  | Eviction _ _ _ timestamp => timestamp
  | PolicyDecision _ _ _ _ timestamp => timestamp
  | DaemonStarted timestamp => timestamp
  | DaemonStopping timestamp => timestamp
  | BackendRegistered _ timestamp => timestamp
  | WorkerSpawned _ timestamp => timestamp
  | WorkerStopped _ timestamp => timestamp
  | IpcRequestReceived _ timestamp => timestamp
  | IpcResponseSent _ _ timestamp => timestamp
  | IpcConnectionAccepted timestamp => timestamp
  | IpcConnectionClosed timestamp => timestamp
  | CompressionStarted _ _ timestamp => timestamp
  | CompressionCompleted _ _ _ timestamp => timestamp
  | DecompressionStarted _ _ timestamp => timestamp
  | DecompressionCompleted _ _ _ timestamp => timestamp
  | BackendDegraded _ _ timestamp => timestamp
  | BackendRecovered _ timestamp => timestamp
  | MigrationRolledBack _ _ _ _ timestamp => timestamp
  | RetryExhausted _ _ _ _ timestamp => timestamp
  | PressureEscalated _ _ _ timestamp => timestamp
  | AllocationFailed _ _ _ timestamp => timestamp
  | QueueThrottled _ _ timestamp => timestamp
  | PromotionQueued _ _ _ timestamp => timestamp
  | EvictionQueued _ _ _ timestamp => timestamp
  | BackpressureActivated _ _ _ timestamp => timestamp
  | BackpressureReleased _ _ _ timestamp => timestamp
  | MetricsExported _ timestamp => timestamp
  end.

Definition trace_chunk_id (e : TraceEvent) : option ChunkId :=
  match e with
  | ChunkCreated chunk_id _ _ _ => Some chunk_id
  | ChunkDeleted chunk_id _ _ => Some chunk_id
  | ChunkStateChanged chunk_id _ _ _ => Some chunk_id
  | TransferQueued chunk_id _ _ _ _ => Some chunk_id
  | TransferStarted job _ => Some (job_chunk job)
  | TransferCompleted chunk_id _ _ _ _ _ => Some chunk_id
  | TransferFailed chunk_id _ _ _ _ _ => Some chunk_id
  | TransferRetry chunk_id _ _ _ _ => Some chunk_id
  | TransferCancelled chunk_id _ _ _ => Some chunk_id
  | PressureSample _ _ => None
  | PressureAlert _ _ _ _ => None
  | Eviction chunk_id _ _ _ => Some chunk_id
  | PolicyDecision chunk_id _ _ _ _ => Some chunk_id
  | DaemonStarted _ => None
  | DaemonStopping _ => None
  | BackendRegistered _ _ => None
  | WorkerSpawned _ _ => None
  | WorkerStopped _ _ => None
  | IpcRequestReceived _ _ => None
  | IpcResponseSent _ _ _ => None
  | IpcConnectionAccepted _ => None
  | IpcConnectionClosed _ => None
  | CompressionStarted chunk_id _ _ => Some chunk_id
  | CompressionCompleted chunk_id _ _ _ => Some chunk_id
  | DecompressionStarted chunk_id _ _ => Some chunk_id
  | DecompressionCompleted chunk_id _ _ _ => Some chunk_id
  | BackendDegraded _ _ _ => None
  | BackendRecovered _ _ => None
  | MigrationRolledBack chunk_id _ _ _ _ => Some chunk_id
  | RetryExhausted chunk_id _ _ _ _ => Some chunk_id
  | PressureEscalated _ _ _ _ => None
  | AllocationFailed _ _ _ _ => None
  | QueueThrottled _ _ _ => None
  | PromotionQueued chunk_id _ _ _ => Some chunk_id
  | EvictionQueued chunk_id _ _ _ => Some chunk_id
  | BackpressureActivated _ _ _ _ => None
  | BackpressureReleased _ _ _ _ => None
  | MetricsExported _ _ => None
  end.

Definition event_type (e : TraceEvent) : string :=
  match e with
  | ChunkCreated _ _ _ _ => "chunk_created"
  | ChunkDeleted _ _ _ => "chunk_deleted"
  | ChunkStateChanged _ _ _ _ => "chunk_state_changed"
  | TransferQueued _ _ _ _ _ => "transfer_queued"
  | TransferStarted _ _ => "transfer_started"
  | TransferCompleted _ _ _ _ _ _ => "transfer_completed"
  | TransferFailed _ _ _ _ _ _ => "transfer_failed"
  | TransferRetry _ _ _ _ _ => "transfer_retry"
  | TransferCancelled _ _ _ _ => "transfer_cancelled"
  | PressureSample _ _ => "pressure_sample"
  | PressureAlert _ _ _ _ => "pressure_alert"
  | Eviction _ _ _ _ => "eviction"
  | PolicyDecision _ _ _ _ _ => "policy_decision"
  | DaemonStarted _ => "daemon_started"
  | DaemonStopping _ => "daemon_stopping"
  | BackendRegistered _ _ => "backend_registered"
  | WorkerSpawned _ _ => "worker_spawned"
  | WorkerStopped _ _ => "worker_stopped"
  | IpcRequestReceived _ _ => "ipc_request_received"
  | IpcResponseSent _ _ _ => "ipc_response_sent"
  | IpcConnectionAccepted _ => "ipc_connection_accepted"
  | IpcConnectionClosed _ => "ipc_connection_closed"
  | CompressionStarted _ _ _ => "compression_started"
  | CompressionCompleted _ _ _ _ => "compression_completed"
  | DecompressionStarted _ _ _ => "decompression_started"
  | DecompressionCompleted _ _ _ _ => "decompression_completed"
  | BackendDegraded _ _ _ => "backend_degraded"
  | BackendRecovered _ _ => "backend_recovered"
  | MigrationRolledBack _ _ _ _ _ => "migration_rolled_back"
  | RetryExhausted _ _ _ _ _ => "retry_exhausted"
  | PressureEscalated _ _ _ _ => "pressure_escalated"
  | AllocationFailed _ _ _ _ => "allocation_failed"
  | QueueThrottled _ _ _ => "queue_throttled"
  | PromotionQueued _ _ _ _ => "promotion_queued"
  | EvictionQueued _ _ _ _ => "eviction_queued"
  | BackpressureActivated _ _ _ _ => "backpressure_activated"
  | BackpressureReleased _ _ _ _ => "backpressure_released"
  | MetricsExported _ _ => "metrics_exported"
  end.

(** [set_timestamp] of [ghost-daemon/src/trace_log.rs]. *)
Definition set_timestamp (e : TraceEvent) (ts : Z) : TraceEvent :=
  match e with
  | ChunkCreated chunk_id size_ tier _ => ChunkCreated chunk_id size_ tier ts
  | ChunkDeleted chunk_id tier _ => ChunkDeleted chunk_id tier ts
  | ChunkStateChanged chunk_id from to _ => ChunkStateChanged chunk_id from to ts
  | TransferQueued chunk_id from to priority _ => TransferQueued chunk_id from to priority ts
  | TransferStarted job _ => TransferStarted job ts
  | TransferCompleted chunk_id from to size_ duration_ms _ => TransferCompleted chunk_id from to size_ duration_ms ts
  | TransferFailed chunk_id from to error attempt _ => TransferFailed chunk_id from to error attempt ts
  | TransferRetry chunk_id from to attempt _ => TransferRetry chunk_id from to attempt ts
  | TransferCancelled chunk_id from to _ => TransferCancelled chunk_id from to ts
  | PressureSample state _ => PressureSample state ts
  | PressureAlert memory_pressure vram_pressure io_pressure _ => PressureAlert memory_pressure vram_pressure io_pressure ts
  | Eviction chunk_id tier reason _ => Eviction chunk_id tier reason ts
  | PolicyDecision chunk_id from to reason _ => PolicyDecision chunk_id from to reason ts
  | DaemonStarted _ => DaemonStarted ts
  | DaemonStopping _ => DaemonStopping ts
  | BackendRegistered tier _ => BackendRegistered tier ts
  | WorkerSpawned worker_id _ => WorkerSpawned worker_id ts
  | WorkerStopped worker_id _ => WorkerStopped worker_id ts
  | IpcRequestReceived request_type _ => IpcRequestReceived request_type ts
  | IpcResponseSent request_type success _ => IpcResponseSent request_type success ts
  | IpcConnectionAccepted _ => IpcConnectionAccepted ts
  | IpcConnectionClosed _ => IpcConnectionClosed ts
  | CompressionStarted chunk_id original_size _ => CompressionStarted chunk_id original_size ts
  | CompressionCompleted chunk_id original_size compressed_size _ => CompressionCompleted chunk_id original_size compressed_size ts
  | DecompressionStarted chunk_id compressed_size _ => DecompressionStarted chunk_id compressed_size ts
  | DecompressionCompleted chunk_id compressed_size decompressed_size _ => DecompressionCompleted chunk_id compressed_size decompressed_size ts
  | BackendDegraded tier reason _ => BackendDegraded tier reason ts
  | BackendRecovered tier _ => BackendRecovered tier ts
  | MigrationRolledBack chunk_id from to reason _ => MigrationRolledBack chunk_id from to reason ts
  | RetryExhausted chunk_id from to attempts _ => RetryExhausted chunk_id from to attempts ts
  | PressureEscalated memory_pressure vram_pressure io_pressure _ => PressureEscalated memory_pressure vram_pressure io_pressure ts
  | AllocationFailed tier size_ reason _ => AllocationFailed tier size_ reason ts
  | QueueThrottled queue_depth capacity _ => QueueThrottled queue_depth capacity ts
  | PromotionQueued chunk_id from to _ => PromotionQueued chunk_id from to ts
  | EvictionQueued chunk_id tier reason _ => EvictionQueued chunk_id tier reason ts
  | BackpressureActivated memory_pressure vram_pressure io_pressure _ => BackpressureActivated memory_pressure vram_pressure io_pressure ts
  | BackpressureReleased memory_pressure vram_pressure io_pressure _ => BackpressureReleased memory_pressure vram_pressure io_pressure ts
  | MetricsExported metrics_count _ => MetricsExported metrics_count ts
  end.

(** [event_type_index] of [ghost-replay/src/writer.rs]. *)
Definition event_type_index (e : TraceEvent) : Z :=
  match e with
  | ChunkCreated _ _ _ _ => 0
  | ChunkDeleted _ _ _ => 1
  | ChunkStateChanged _ _ _ _ => 2
  | TransferQueued _ _ _ _ _ => 3
  | TransferStarted _ _ => 4
  | TransferCompleted _ _ _ _ _ _ => 5
  | TransferFailed _ _ _ _ _ _ => 6
  | TransferRetry _ _ _ _ _ => 7
  | TransferCancelled _ _ _ _ => 8
  | PressureSample _ _ => 9
  | PressureAlert _ _ _ _ => 10
  | Eviction _ _ _ _ => 11
  | PolicyDecision _ _ _ _ _ => 12
  | DaemonStarted _ => 13
  | DaemonStopping _ => 14
  | BackendRegistered _ _ => 15
  | WorkerSpawned _ _ => 16
  | WorkerStopped _ _ => 17
  | IpcRequestReceived _ _ => 18
  | IpcResponseSent _ _ _ => 19
  | IpcConnectionAccepted _ => 20
  | IpcConnectionClosed _ => 21
  | CompressionStarted _ _ _ => 22
  | CompressionCompleted _ _ _ _ => 23
  | DecompressionStarted _ _ _ => 24
  | DecompressionCompleted _ _ _ _ => 25
  | BackendDegraded _ _ _ => 26
  | BackendRecovered _ _ => 27
  | MigrationRolledBack _ _ _ _ _ => 28
  | RetryExhausted _ _ _ _ _ => 29
  | PressureEscalated _ _ _ _ => 30
  | AllocationFailed _ _ _ _ => 31
  | QueueThrottled _ _ _ => 32
  | PromotionQueued _ _ _ _ => 33
  | EvictionQueued _ _ _ _ => 34
  | BackpressureActivated _ _ _ _ => 35
  | BackpressureReleased _ _ _ _ => 36
  | MetricsExported _ _ => 37
  end.
(** The event a reader gets back: the creation [Instant] of a job is not
    serialized, deserialization takes a fresh reading. *)
Definition restamp_job (now : Z) (e : TraceEvent) : TraceEvent :=
  match e with
  | TransferStarted job ts =>
      TransferStarted (mkJob (job_chunk job) (from_tier job) (to_tier job) (job_size job)
        (job_priority job) (job_state job) now (created_at_secs job) (attempts job)) ts
  | _ => e
  end.

(** [trace_event!] of [ghost-core/src/trace.rs]: the event with the timestamp of
    the moment.  [ts] is the reading of [current_timestamp]. *)
Definition trace_event (ts : Z) (e : TraceEvent) : TraceEvent :=
  match e with
  | ChunkCreated chunk_id size_ tier _ => ChunkCreated chunk_id size_ tier ts
  | ChunkDeleted chunk_id tier _ => ChunkDeleted chunk_id tier ts
  | ChunkStateChanged chunk_id from to _ => ChunkStateChanged chunk_id from to ts
  | TransferQueued chunk_id from to priority _ => TransferQueued chunk_id from to priority ts
  | TransferStarted job _ => TransferStarted job ts
  | TransferCompleted chunk_id from to size_ duration_ms _ => TransferCompleted chunk_id from to size_ duration_ms ts
  | TransferFailed chunk_id from to error attempt _ => TransferFailed chunk_id from to error attempt ts
  | TransferRetry chunk_id from to attempt _ => TransferRetry chunk_id from to attempt ts
  | TransferCancelled chunk_id from to _ => TransferCancelled chunk_id from to ts
  | PressureSample state _ => PressureSample state ts
  | PressureAlert memory_pressure vram_pressure io_pressure _ => PressureAlert memory_pressure vram_pressure io_pressure ts
  | Eviction chunk_id tier reason _ => Eviction chunk_id tier reason ts
  | PolicyDecision chunk_id from to reason _ => PolicyDecision chunk_id from to reason ts
  | DaemonStarted _ => DaemonStarted ts
  | DaemonStopping _ => DaemonStopping ts
  | BackendRegistered tier _ => BackendRegistered tier ts
  | WorkerSpawned worker_id _ => WorkerSpawned worker_id ts
  | WorkerStopped worker_id _ => WorkerStopped worker_id ts
  | IpcRequestReceived request_type _ => IpcRequestReceived request_type ts
  | IpcResponseSent request_type success _ => IpcResponseSent request_type success ts
  | IpcConnectionAccepted _ => IpcConnectionAccepted ts
  | IpcConnectionClosed _ => IpcConnectionClosed ts
  | CompressionStarted chunk_id original_size _ => CompressionStarted chunk_id original_size ts
  | CompressionCompleted chunk_id original_size compressed_size _ => CompressionCompleted chunk_id original_size compressed_size ts
  | DecompressionStarted chunk_id compressed_size _ => DecompressionStarted chunk_id compressed_size ts
  | DecompressionCompleted chunk_id compressed_size decompressed_size _ => DecompressionCompleted chunk_id compressed_size decompressed_size ts
  | BackendDegraded tier reason _ => BackendDegraded tier reason ts
  | BackendRecovered tier _ => BackendRecovered tier ts
  | MigrationRolledBack chunk_id from to reason _ => MigrationRolledBack chunk_id from to reason ts
  | RetryExhausted chunk_id from to attempts _ => RetryExhausted chunk_id from to attempts ts
  | PressureEscalated memory_pressure vram_pressure io_pressure _ => PressureEscalated memory_pressure vram_pressure io_pressure ts
  | AllocationFailed tier size_ reason _ => AllocationFailed tier size_ reason ts
  | QueueThrottled queue_depth capacity _ => QueueThrottled queue_depth capacity ts
  | PromotionQueued chunk_id from to _ => PromotionQueued chunk_id from to ts
  | EvictionQueued chunk_id tier reason _ => EvictionQueued chunk_id tier reason ts
  | BackpressureActivated memory_pressure vram_pressure io_pressure _ => BackpressureActivated memory_pressure vram_pressure io_pressure ts
  | BackpressureReleased memory_pressure vram_pressure io_pressure _ => BackpressureReleased memory_pressure vram_pressure io_pressure ts
  | MetricsExported metrics_count _ => MetricsExported metrics_count ts
  end.

(** The events [trace_lifecycle!] can build. *)
Inductive LifecycleName := LcStarted | LcStopping | LcAccepted | LcClosed.

Definition trace_lifecycle (ts : Z) (n : LifecycleName) : TraceEvent :=
  match n with
  | LcStarted => DaemonStarted ts
  | LcStopping => DaemonStopping ts
  | LcAccepted => IpcConnectionAccepted ts
  | LcClosed => IpcConnectionClosed ts
  end.

(** Milliseconds since the epoch; a clock before the epoch ([None]) reads 0. *)
Definition current_timestamp (since_epoch_ns : option Z) : Z :=
  wrap 64 (default 0 since_epoch_ns / 1000000).
Definition timestamp_now : option Z -> Z := current_timestamp.

(** The macro of the core crate and the function of the log agree. *)
Lemma trace_event_is_set_timestamp ts e : trace_event ts e = set_timestamp e ts.
Proof. by destruct e. Qed.

Lemma trace_lifecycle_stamped ts n :
  timestamp (trace_lifecycle ts n) = ts /\ trace_chunk_id (trace_lifecycle ts n) = None.
Proof. by destruct n. Qed.

Lemma timestamp_set e ts : timestamp (set_timestamp e ts) = ts.
Proof. by destruct e. Qed.

Lemma set_timestamp_frame e ts :
  trace_chunk_id (set_timestamp e ts) = trace_chunk_id e /\
  event_type (set_timestamp e ts) = event_type e /\
  event_type_index (set_timestamp e ts) = event_type_index e.
Proof. by destruct e. Qed.

Lemma event_type_index_range e : 0 <= event_type_index e < 38.
Proof. by destruct e. Qed.

Lemma restamp_frame now e :
  timestamp (restamp_job now e) = timestamp e /\ event_type_index (restamp_job now e) = event_type_index e.
Proof. by destruct e. Qed.

End Tr.

(** ** The log *)

Record TraceLog := mkLog { log_events : list Tr.TraceEvent; max_events : Z }.

Definition Log_new (max : Z) : TraceLog := mkLog [] max.

Definition record {E} (e : Tr.TraceEvent) : M TraceLog E unit := fun l =>
  if max_events l <=? Z.of_nat (length (log_events l)) then
    match log_events l with
    | [] => (Panic "removal index (is 0) should be < len (is 0)", l)
    | _ :: rest => (Ok tt, mkLog (rest ++ [e]) (max_events l))
    end
  else (Ok tt, mkLog (log_events l ++ [e]) (max_events l)).

(** [clock] is the reading of the injected clock, when there is one. *)
Definition record_now {E} (clock : option Z) (e : Tr.TraceEvent) : M TraceLog E unit :=
  record (match clock with Some ts => Tr.set_timestamp e ts | None => e end).

Definition get_events (l : TraceLog) : list Tr.TraceEvent := log_events l.
Definition get_events_since (ts : Z) (l : TraceLog) : list Tr.TraceEvent :=
  filter (fun e => ts <= Tr.timestamp e) (log_events l).
Definition log_len (l : TraceLog) : Z := Z.of_nat (length (log_events l)).
Definition log_is_empty (l : TraceLog) : bool :=
  match log_events l with [] => true | _ => false end.
Definition log_clear (l : TraceLog) : TraceLog := mkLog [] (max_events l).
Definition log_capacity (l : TraceLog) : Z := max_events l.

Fixpoint record_all {E} (es : list Tr.TraceEvent) : M TraceLog E unit :=
  match es with [] => ret tt | e :: es => record e ;;; record_all es end.

(** The last [n] elements of a list. *)
Definition last_n {A} (n : nat) (l : list A) : list A := drop (length l - n) l.

Lemma last_n_all {A} n (l : list A) : (length l <= n)%nat -> last_n n l = l.
Proof. intros H. unfold last_n. by replace (length l - n)%nat with 0%nat by lia. Qed.

Lemma last_n_app {A} n (l1 l2 : list A) :
  last_n n (last_n n l1 ++ l2) = last_n n (l1 ++ l2).
Proof.
  unfold last_n. rewrite !length_app, length_drop.
  destruct (decide (length l1 <= n)%nat).
  - by replace (length l1 - n)%nat with 0%nat by lia; rewrite drop_0, Nat.sub_0_r.
  - rewrite <- (take_drop (length l1 - n) l1) at 6. rewrite <- app_assoc.
    rewrite (drop_app_ge (take _ _)).
    + f_equal. rewrite length_take. lia.
    + rewrite length_take. lia.
Qed.

Lemma record_last_n {E} e l :
  0 < max_events l -> log_len l <= max_events l ->
  record (E := E) e l =
  (Ok tt, mkLog (last_n (Z.to_nat (max_events l)) (log_events l ++ [e])) (max_events l)).
Proof.
  intros Hm Hl. unfold record, log_len in *. destruct (max_events l <=? _) eqn:H; bool_to_prop.
  - destruct (log_events l) as [|x rest] eqn:El; simpl in *; [lia|].
    unfold last_n. simpl. rewrite length_app. simpl.
    by replace (S (length rest + 1) - Z.to_nat (max_events l))%nat with 1%nat by lia.
  - rewrite last_n_all; [done|]. rewrite length_app. simpl. lia.
Qed.

Lemma length_last_n {A} n (l : list A) : (length (last_n n l) <= n)%nat.
Proof. unfold last_n. rewrite length_drop. lia. Qed.

(** A log that accepts events: positive capacity, not overfull. *)
Definition healthy_log (l : TraceLog) : Prop := 0 < max_events l /\ log_len l <= max_events l.

Lemma record_healthy {E} e l :
  healthy_log l ->
  exists l', record (E := E) e l = (Ok tt, l') /\ healthy_log l' /\ last (log_events l') = Some e.
Proof.
  intros [H1 H2]. unfold log_len in H2. unfold record, healthy_log, log_len.
  case_match eqn:E1; bool_to_prop.
  - destruct (log_events l) as [|x rest] eqn:E2; [simpl in *; lia|].
    eexists. split; [done|]. simpl in *. rewrite length_app, last_snoc. simpl. split_and!; [lia..|done].
  - eexists. split; [done|]. simpl. rewrite length_app, last_snoc. simpl. split_and!; [lia..|done].
Qed.

Lemma record_last {E} e l l' :
  record (E := E) e l = (Ok tt, l') -> last (log_events l') = Some e.
Proof.
  unfold record. repeat case_match; intros [= <-]; simpl; apply last_snoc.
Qed.

(** The trace log keeps exactly the most recent events.  With a positive
    limit, recording any sequence of events never panics and leaves the last
    [max] of them, in order; as long as no more than [max] were recorded,
    asking for the events since a time stamp misses none. *)
Theorem trace_log_keeps_suffix {E} max es ts :
  0 < max ->
  let l := last_n (Z.to_nat max) es in
  record_all (E := E) es (Log_new max) = (Ok tt, mkLog l max) /\
  (Z.of_nat (length es) <= max ->
   get_events_since ts (mkLog l max) = filter (fun e => ts <= Tr.timestamp e) es) /\
  log_len (mkLog l max) = Z.min max (Z.of_nat (length es)).
Proof.
  intros Hm. cbv zeta. split_and!.
  2:{ intros Hle. unfold get_events_since. simpl. by rewrite last_n_all by lia. }
  2:{ unfold log_len, last_n. simpl. rewrite length_drop. lia. }
  assert (forall es l, log_len l <= max_events l -> max_events l = max ->
    record_all (E := E) es l = (Ok tt, mkLog (last_n (Z.to_nat max) (log_events l ++ es)) max)) as H.
  { clear es. induction es as [|e es IH]; intros l Hl Hmax; simpl.
    - rewrite app_nil_r, last_n_all by (unfold log_len in *; lia). subst. by destruct l.
    - erewrite bind_Ok by (apply record_last_n; lia). rewrite IH; simpl.
      + rewrite Hmax, last_n_app. by rewrite <- app_assoc.
      + unfold log_len. simpl. pose proof (length_last_n (Z.to_nat (max_events l)) (log_events l ++ [e])).
        lia.
      + done. }
  rewrite H; [done|unfold log_len; simpl; lia|done].
Qed.

Lemma trace_log_keeps_suffix_witness :
  record_all (E := GhostError) [Tr.DaemonStarted 1; Tr.DaemonStopping 2; Tr.DaemonStarted 3] (Log_new 2)
  = (Ok tt, mkLog [Tr.DaemonStopping 2; Tr.DaemonStarted 3] 2).
Proof.
  apply (trace_log_keeps_suffix (E := GhostError) 2
    [Tr.DaemonStarted 1; Tr.DaemonStopping 2; Tr.DaemonStarted 3] 0). lia.
Defined.

(** A log created with a limit of zero panics on its first event. *)
Lemma zero_capacity_log_panics {E} e : is_panic (record (E := E) e (Log_new 0)).1 = true.
Proof. done. Qed.
