(* ===== verification/TraceFile.v ===== *)
(** * Trace files: [ghost-replay/src/format.rs], [writer.rs] and [reader.rs]

    A trace file is a header, the records and a metadata block; closing the
    writer rewrites the header in place.  The reader is a [BufReader] over a
    file: unread buffered bytes and the position of the file descriptor, which
    the metadata reader shares.  bincode, serde_json and crc32 are
    dependencies, given by the interface [Codec]; I/O errors other than end of
    file are not modelled. *)

From Stdlib Require Import ZArith Lia.
From Stdlib Require Strings.Byte.
From stdpp Require Import base strings pretty numbers list.
From S2P Require Import Prelude Floats CoreTypes Pressure Trace.

Open Scope rust_scope.

(** ** Data *)

Definition TRACE_MAGIC : list byte := bytes_of_string "GHOSTTRC".
Definition TRACE_VERSION : Z := 1.
Definition TRACE_VERSION_WITH_DOMAINS : Z := 2.
Definition COMPRESSED : Z := 1.
Definition HAS_CHECKSUM : Z := 2.

Inductive Domain := CpuSimulation | DiskIo | FailureInjected | Deterministic | RealIo.

Definition to_byte (d : Domain) : byte :=
  match d with
  | CpuSimulation => Byte.x00 | DiskIo => Byte.x01 | FailureInjected => Byte.x02
  | Deterministic => Byte.x03 | RealIo => Byte.x04
  end.

Definition from_byte (b : byte) : option Domain :=
  match b with
  | Byte.x00 => Some CpuSimulation | Byte.x01 => Some DiskIo | Byte.x02 => Some FailureInjected
  | Byte.x03 => Some Deterministic | Byte.x04 => Some RealIo
  | _ => None
  end.

Definition domain_display (d : Domain) : string :=
  match d with
  | CpuSimulation => "cpu-simulation" | DiskIo => "disk-io"
  | FailureInjected => "failure-injected" | Deterministic => "deterministic"
  | RealIo => "real-io"
  end.

Record TraceFileHeader := mkHeader {
  h_magic : list byte;
  h_version : Z;
  h_flags : Z;
  chunk_count : Z;
  h_created_at : Z;
  metadata_offset : Z;
  domains : list Domain;
}.

Definition SIZE : nat := 8 + 2 + 2 + 8 + 8 + 8 + 2.

Definition Header_new (flags count created offset : Z) : TraceFileHeader :=
  mkHeader TRACE_MAGIC TRACE_VERSION flags count created offset [].
Definition with_domains (flags count created offset : Z) (ds : list Domain) : TraceFileHeader :=
  mkHeader TRACE_MAGIC TRACE_VERSION_WITH_DOMAINS flags count created offset ds.

Definition is_compressed (h : TraceFileHeader) : bool := negb (Z.land (h_flags h) COMPRESSED =? 0).
Definition has_checksum (h : TraceFileHeader) : bool := negb (Z.land (h_flags h) HAS_CHECKSUM =? 0).

Record TraceRecord := mkRec {
  r_timestamp : Z;
  r_event_type : Z;
  payload_len : Z;
  payload : list byte;
  crc32 : Z;
}.

Record TraceMetadata := mkMeta {
  total_events : Z;
  total_chunks : Z;
  tier_ids : list TierId;
  time_range : Z * Z;
  policy_name : string;
  config_summary : string;
}.

(** ** The dependencies *)

Class Codec := {
  bincode_serialize : Tr.TraceEvent -> outcome string (list byte);
  bincode_deserialize : Z -> list byte -> outcome string Tr.TraceEvent;
  json_to_vec : TraceMetadata -> outcome string (list byte);
  json_from_slice : list byte -> outcome string TraceMetadata;
  crc32_hash : list byte -> Z;
  (** A serialized event is read back, its job restamped at the time of
      reading; serialized metadata is read back; a CRC has 32 bits. *)
  bincode_roundtrip e b now :
    bincode_serialize e = Ok b -> bincode_deserialize now b = Ok (Tr.restamp_job now e);
  json_roundtrip m b : json_to_vec m = Ok b -> json_from_slice b = Ok m;
  crc32_range b : in_u 32 (crc32_hash b);
  codec_no_panic e b now m :
    is_panic (bincode_serialize e) = false /\ is_panic (bincode_deserialize now b) = false /\
    is_panic (json_to_vec m) = false /\ is_panic (json_from_slice b) = false;
}.

(** ** Encoding *)

Definition header_bytes (h : TraceFileHeader) : list byte :=
  let domain_bytes := to_byte <$> domains h in
  h_magic h ++ to_le_bytes 2 (h_version h) ++ to_le_bytes 2 (h_flags h) ++
  to_le_bytes 8 (chunk_count h) ++ to_le_bytes 8 (h_created_at h) ++
  to_le_bytes 8 (metadata_offset h) ++
  to_le_bytes 2 (wrap 16 (Z.of_nat (length domain_bytes))) ++ domain_bytes.

Definition record_bytes (r : TraceRecord) : list byte :=
  to_le_bytes 8 (r_timestamp r) ++ to_le_bytes 2 (r_event_type r) ++
  to_le_bytes 4 (payload_len r) ++ payload r ++ to_le_bytes 4 (crc32 r).

Definition metadata_bytes `{Codec} (m : TraceMetadata) : outcome GhostError (list byte) :=
  let? json := map_err (fun e => ReplayError ("failed to serialize metadata: " +:+ e))
                 (json_to_vec m) in
  Ok (to_le_bytes 8 (Z.of_nat (length json)) ++ json).

(** ** The writer *)

Record TraceWriter := mkTW {
  tw_file : list byte;
  tw_header : TraceFileHeader;
  record_count : Z;
  current_time_secs : Z;
}.

Definition create_with_domains (flags : Z) (ds : list Domain) : TraceWriter :=
  let h := with_domains flags 0 0 0 ds in
  mkTW (header_bytes h) h 0 0.

Definition create (flags : Z) : TraceWriter := create_with_domains flags [].

Section writer.
Context `{C : Codec} (b : Build).

Definition write_event (e : Tr.TraceEvent) : M TraceWriter GhostError unit :=
  pl <- lift (map_err (fun e => ReplayError ("failed to serialize event: " +:+ e))
                (bincode_serialize e)) ;;
  let r := mkRec (Tr.timestamp e) (Tr.event_type_index e) (wrap 32 (Z.of_nat (length pl))) pl
             (crc32_hash pl) in
  modify (fun w => mkTW (tw_file w ++ record_bytes r) (tw_header w) (record_count w)
                     (current_time_secs w)) ;;;
  w <- gets id ;;
  n <- lift (arith b 64 (record_count w + 1)) ;;
  modify (fun w => mkTW (tw_file w) (tw_header w) n (current_time_secs w)).

Fixpoint write_events (es : list Tr.TraceEvent) : M TraceWriter GhostError unit :=
  match es with [] => ret tt | e :: es => write_event e ;;; write_events es end.

(** Overwrite the beginning of a file. *)
Definition overwrite (prefix file : list byte) : list byte :=
  prefix ++ drop (length prefix) file.

(** [close] consumes the writer; the result is the finished file. *)
Definition close (w : TraceWriter) (m : TraceMetadata) : outcome GhostError (list byte) :=
  let offset := Z.of_nat (length (tw_file w)) in
  let? md := metadata_bytes m in
  let final_header := with_domains (h_flags (tw_header w)) (record_count w) (current_time_secs w)
                        offset (domains (tw_header w)) in
  Ok (overwrite (header_bytes final_header) (tw_file w ++ md)).
End writer.

(** ** The buffered reader

    [buffered] is what has been read from the file and not consumed yet;
    [cursor] is the position of the file descriptor. *)

Record BufReader := mkBuf { file : list byte; buffered : list byte; cursor : nat }.

Definition eof_error : GhostError := EIo "failed to fill whole buffer".

Section reader.
Context (cap : nat).   (* capacity of the buffer *)

(** [read_exact]: consume the buffer, then either read directly (a request at
    least as large as the buffer) or refill it.  [false] on end of file. *)
Definition read_exact (n : nat) (r : BufReader) : option (list byte) * BufReader :=
  if (n <=? length (buffered r))%nat then
    (Some (take n (buffered r)), mkBuf (file r) (drop n (buffered r)) (cursor r))
  else
    let rest := (n - length (buffered r))%nat in
    let ahead := drop (cursor r) (file r) in
    if (cap <=? rest)%nat then
      if (length ahead <? rest)%nat then (None, mkBuf (file r) [] (Nat.max (cursor r) (length (file r))))
      else (Some (buffered r ++ take rest ahead), mkBuf (file r) [] (cursor r + rest))
    else
      let chunk := take cap ahead in
      if (length chunk <? rest)%nat then (None, mkBuf (file r) [] (cursor r + length chunk))
      else (Some (buffered r ++ take rest chunk),
            mkBuf (file r) (drop rest chunk) (cursor r + length chunk)).

Definition seek_start (n : nat) (r : BufReader) : BufReader := mkBuf (file r) [] n.

(** [SeekFrom::Current(-k)] accounts for the buffered bytes. *)
Definition seek_back (k : nat) (r : BufReader) : option BufReader :=
  if (cursor r <? length (buffered r) + k)%nat then None
  else Some (mkBuf (file r) [] (cursor r - length (buffered r) - k)).

Abbreviation RM := (M BufReader GhostError).

Definition read_bytes (n : nat) : RM (list byte) := fun r =>
  match read_exact n r with
  | (Some d, r') => (Ok d, r')
  | (None, r') => (Err eof_error, r')
  end.

(** [read_exact_or_eof]: [None] on end of file. *)
Definition read_or_eof (n : nat) : RM (option (list byte)) := fun r =>
  let '(o, r') := read_exact n r in (Ok o, r').

Definition read_header : RM TraceFileHeader :=
  magic <- read_bytes 8 ;;
  if negb (bool_decide (magic = TRACE_MAGIC)) then
    throw (ReplayError "invalid trace file magic: expected GHOSTTRC")
  else
    v <- read_bytes 2 ;;
    f <- read_bytes 2 ;;
    n <- read_bytes 8 ;;
    c <- read_bytes 8 ;;
    o <- read_bytes 8 ;;
    dl <- read_or_eof 2 ;;
    ds <- match dl with
          | None => ret []
          | Some buf2 =>
              db <- read_bytes (Z.to_nat (from_le_bytes buf2)) ;;
              ret (omap from_byte db)
          end ;;
    ret (mkHeader magic (from_le_bytes v) (from_le_bytes f) (from_le_bytes n) (from_le_bytes c)
           (from_le_bytes o) ds).

Definition read_record : RM (option TraceRecord) :=
  t <- read_or_eof 8 ;;
  match t with
  | None => ret None
  | Some ts =>
      et <- read_bytes 2 ;;
      pl <- read_bytes 4 ;;
      p <- read_bytes (Z.to_nat (from_le_bytes pl)) ;;
      c <- read_bytes 4 ;;
      ret (Some (mkRec (from_le_bytes ts) (from_le_bytes et) (from_le_bytes pl) p (from_le_bytes c)))
  end.

Context `{C : Codec}.

(** [vec![0u8; len]] panics above [isize::MAX]. *)
Definition read_metadata : RM TraceMetadata :=
  l <- read_bytes 8 ;;
  let len := from_le_bytes l in
  if 2 ^ 63 - 1 <? len then panic "capacity overflow"
  else
    json <- read_bytes (Z.to_nat len) ;;
    lift (map_err (fun e => ReplayError ("failed to deserialize metadata: " +:+ e))
            (json_from_slice json)).

(** ** The trace reader *)

Record TraceReader := mkTR {
  tr_reader : BufReader;
  tr_header : TraceFileHeader;
  current_index : Z;
  header_size : nat;
}.

Abbreviation TM := (M TraceReader GhostError).

Definition open (f : list byte) : outcome GhostError TraceReader :=
  match read_header (mkBuf f [] 0) with
  | (Ok h, r) => Ok (mkTR r h 0 (SIZE + 2 + length (domains h)))
  | (Err e, _) => Err e
  | (Panic m, _) => Panic m
  end.

Definition on_reader {A} (m : RM A) : TM A := fun t =>
  let '(o, r) := m (tr_reader t) in
  (o, mkTR r (tr_header t) (current_index t) (header_size t)).

Definition set_index (n : Z) (t : TraceReader) : TraceReader :=
  mkTR (tr_reader t) (tr_header t) n (header_size t).

Definition read_next (b : Build) (now : Z) : TM (option Tr.TraceEvent) :=
  t <- gets id ;;
  if chunk_count (tr_header t) <=? current_index t then ret None
  else
    ro <- on_reader read_record ;;
    r <- lift (ok_or (ReplayError ("unexpected EOF at record " +:+ pretty (current_index t)
                 +:+ " of " +:+ pretty (chunk_count (tr_header t)))) ro) ;;
    (if has_checksum (tr_header t) && negb (crc32_hash (payload r) =? crc32 r)
     then throw (ReplayError ("CRC32 mismatch at record " +:+ pretty (current_index t)))
     else ret tt) ;;;
    e <- lift (map_err (fun m => ReplayError ("failed to deserialize event at record "
                 +:+ pretty (current_index t) +:+ ": " +:+ m)) (bincode_deserialize now (payload r))) ;;
    n <- lift (arith b 64 (current_index t + 1)) ;;
    modify (set_index n) ;;;
    ret (Some e).

(** The [while let] of [read_all]; one more iteration than there are records
    left is always enough. *)
Fixpoint read_loop (b : Build) (now : Z) (fuel : nat) : TM (list Tr.TraceEvent) :=
  match fuel with
  | O => panic "out of fuel"
  | S fuel =>
      o <- read_next b now ;;
      match o with
      | None => ret []
      | Some e => es <- read_loop b now fuel ;; ret (e :: es)
      end
  end.

(** [Vec::with_capacity(n)] for elements of [event_size] bytes. *)
Definition read_all (event_size : Z) (b : Build) (now : Z) : TM (list Tr.TraceEvent) :=
  t <- gets id ;;
  if 2 ^ 63 - 1 <? chunk_count (tr_header t) * event_size then panic "capacity overflow"
  else read_loop b now (S (Z.to_nat (chunk_count (tr_header t) - current_index t))).

(** The scanning loop of [seek_to_timestamp]. *)
Fixpoint seek_loop (b : Build) (ts : Z) (fuel : nat) : TM unit :=
  match fuel with
  | O => panic "out of fuel"
  | S fuel =>
      t <- gets id ;;
      if chunk_count (tr_header t) <=? current_index t then ret tt
      else
        ro <- on_reader read_record ;;
        r <- lift (ok_or (ReplayError "unexpected EOF during seek") ro) ;;
        if ts <=? r_timestamp r then
          t <- gets id ;;
          match seek_back (8 + 2 + 4 + length (payload r) + 4) (tr_reader t) with
          | Some r' => modify (fun t => mkTR r' (tr_header t) (current_index t) (header_size t))
          | None => throw (ReplayError "seek back failed")
          end
        else
          n <- lift (arith b 64 (current_index t + 1)) ;;
          modify (set_index n) ;;;
          seek_loop b ts fuel
  end.

Definition seek_to_timestamp (b : Build) (ts : Z) : TM unit :=
  t <- gets id ;;
  (if 0 <? current_index t then
     modify (fun t => mkTR (seek_start (header_size t) (tr_reader t)) (tr_header t) 0 (header_size t))
   else ret tt) ;;;
  t <- gets id ;;
  seek_loop b ts (S (Z.to_nat (chunk_count (tr_header t) - current_index t))).

(** A second buffered reader over the same descriptor: the bytes buffered by
    the trace reader stay, the shared cursor moves. *)
Definition metadata : TM TraceMetadata := fun t =>
  let r := tr_reader t in
  let '(o, r') := read_metadata (seek_start (Z.to_nat (metadata_offset (tr_header t)))
                                   (mkBuf (file r) [] (cursor r))) in
  (o, mkTR (mkBuf (file r) (buffered r) (cursor r')) (tr_header t) (current_index t) (header_size t)).
End reader.

(** ** The reader as a stream *)

(** The bytes the reader will deliver from here on. *)
Definition remaining (r : BufReader) : list byte := buffered r ++ drop (cursor r) (file r).

(** Reading a prefix of what remains delivers it, whatever the buffering. *)
Lemma buf_read_exact_app cap n a s r :
  remaining r = a ++ s -> length a = n ->
  exists r', read_exact cap n r = (Some a, r') /\ remaining r' = s /\ file r' = file r.
Proof.
  intros Hr Ha. assert (a = take n (remaining r)) as Ea by (by rewrite Hr, <- Ha, take_app_length).
  assert (s = drop n (remaining r)) as Es by (by rewrite Hr, <- Ha, drop_app_length).
  assert (n <= length (remaining r))%nat as Hn by (rewrite Hr, length_app; lia).
  clear Hr Ha. subst a s. unfold remaining in *. rewrite length_app in Hn. unfold read_exact.
  destruct (n <=? length (buffered r))%nat eqn:E1.
  { apply Nat.leb_le in E1. eexists. rewrite take_app_le, drop_app_le by done.
    split; [reflexivity|done]. }
  apply Nat.leb_gt in E1. rewrite take_app_ge, drop_app_ge by lia.
  set (rest := (n - length (buffered r))%nat) in *. set (ahead := drop (cursor r) (file r)) in *.
  destruct (cap <=? rest)%nat eqn:E2.
  - rewrite (proj2 (Nat.ltb_ge _ _)) by lia. eexists. split; [reflexivity|]. simpl.
    unfold ahead. by rewrite drop_drop.
  - apply Nat.leb_gt in E2. rewrite length_take, (proj2 (Nat.ltb_ge _ _)) by lia.
    eexists. rewrite take_take, Nat.min_l by lia. split; [reflexivity|]. simpl. split; [|done].
    rewrite <- drop_drop. fold ahead.
    trans (drop rest (take cap ahead ++ drop cap ahead)); [|by rewrite take_drop].
    rewrite drop_app_le by (rewrite length_take; lia).
    f_equal. destruct (decide (cap <= length ahead)%nat).
    + by rewrite Nat.min_l by lia.
    + by rewrite !drop_ge by lia.
Qed.

Section codec_facts.
Context (cap : nat).

Lemma read_bytes_app n a s r :
  remaining r = a ++ s -> length a = n ->
  exists r', read_bytes cap n r = (Ok a, r') /\ remaining r' = s /\ file r' = file r.
Proof.
  intros H1 H2. destruct (buf_read_exact_app cap n a s r H1 H2) as (r' & Hr & ? & ?).
  exists r'. unfold read_bytes. by rewrite Hr.
Qed.

Lemma read_or_eof_app n a s r :
  remaining r = a ++ s -> length a = n ->
  exists r', read_or_eof cap n r = (Ok (Some a), r') /\ remaining r' = s /\ file r' = file r.
Proof.
  intros H1 H2. destruct (buf_read_exact_app cap n a s r H1 H2) as (r' & Hr & ? & ?).
  exists r'. unfold read_or_eof. by rewrite Hr.
Qed.

Lemma omap_domains (ds : list Domain) : omap from_byte (to_byte <$> ds) = ds.
Proof. induction ds as [|d ds IH]; [done|]. by destruct d; csimpl; rewrite IH. Qed.

Definition wf_header (h : TraceFileHeader) : Prop :=
  h_magic h = TRACE_MAGIC /\ in_u 16 (h_version h) /\ in_u 16 (h_flags h) /\
  in_u 64 (chunk_count h) /\ in_u 64 (h_created_at h) /\ in_u 64 (metadata_offset h) /\
  Z.of_nat (length (domains h)) < 2 ^ 16.

Ltac next_field :=
  match goal with
  | H : remaining ?r = ?a ++ ?s |- context [bind (read_bytes cap ?n) _ ?r] =>
      let r' := fresh "r" in let E := fresh "E" in let H' := fresh "Hr" in let F := fresh "F" in
      destruct (read_bytes_app n a s r H) as (r' & E & H' & F);
      [|erewrite bind_Ok by exact E; clear E; cbv beta iota]
  | H : remaining ?r = ?a ++ ?s |- context [bind (read_or_eof cap ?n) _ ?r] =>
      let r' := fresh "r" in let E := fresh "E" in let H' := fresh "Hr" in let F := fresh "F" in
      destruct (read_or_eof_app n a s r H) as (r' & E & H' & F);
      [|erewrite bind_Ok by exact E; clear E; cbv beta iota]
  end.

Lemma read_header_app h s r :
  wf_header h -> remaining r = header_bytes h ++ s ->
  exists r', read_header cap r = (Ok h, r') /\ remaining r' = s /\ file r' = file r.
Proof.
  intros (Hm & Hv & Hf & Hc & Ht & Ho & Hd) Hr. unfold header_bytes in Hr.
  rewrite <- !app_assoc in Hr. unfold read_header.
  next_field; [by rewrite Hm|]. rewrite bool_decide_eq_true_2 by done. cbn [negb].
  do 5 (next_field; [apply length_to_le_bytes|]).
  next_field; [apply length_to_le_bytes|]. rewrite length_fmap, wrap_in in * by (unfold in_u; lia).
  rewrite (from_to_le_bytes_in 2 (Z.of_nat _)) by (unfold in_u; lia). rewrite Nat2Z.id.
  unfold bind at 1. next_field; [apply length_fmap|]. unfold ret. rewrite omap_domains, !from_to_le_bytes_in by done.
  eexists. split; [destruct h; reflexivity|]. split; [done|congruence].
Qed.

(** The record written for an event. *)
Definition event_record `{Codec} (e : Tr.TraceEvent) (pl : list byte) : TraceRecord :=
  mkRec (Tr.timestamp e) (Tr.event_type_index e) (wrap 32 (Z.of_nat (length pl))) pl (crc32_hash pl).

Definition wf_record (r : TraceRecord) : Prop :=
  in_u 64 (r_timestamp r) /\ in_u 16 (r_event_type r) /\ in_u 32 (crc32 r) /\
  payload_len r = Z.of_nat (length (payload r)) /\ payload_len r < 2 ^ 32.

Lemma read_record_app x s r :
  wf_record x -> remaining r = record_bytes x ++ s ->
  exists r', read_record cap r = (Ok (Some x), r') /\ remaining r' = s /\ file r' = file r.
Proof.
  intros (Ht & He & Hc & Hl & Hw) Hr. unfold record_bytes in Hr. rewrite <- !app_assoc in Hr.
  unfold read_record. next_field; [apply length_to_le_bytes|].
  do 2 (next_field; [apply length_to_le_bytes|]).
  rewrite (from_to_le_bytes_in 4 (payload_len x)) by (unfold in_u; lia).
  next_field; [lia|]. next_field; [apply length_to_le_bytes|].
  unfold ret. rewrite !from_to_le_bytes_in by (done || unfold in_u; lia).
  eexists. split; [destruct x; reflexivity|]. split; [done|congruence].
Qed.
End codec_facts.

(** ** Whole files *)

Section files.
Context `{C : Codec} (b : Build) (cap : nat) (now : Z).

(** Events that fit the format: serializable, with a payload below 4 GiB and a
    64-bit time stamp. *)
Definition storable (e : Tr.TraceEvent) (pl : list byte) : Prop :=
  bincode_serialize e = Ok pl /\ Z.of_nat (length pl) < 2 ^ 32 /\ in_u 64 (Tr.timestamp e).

Lemma storable_wf e pl : storable e pl -> wf_record (event_record e pl).
Proof.
  intros (_ & Hl & Ht). unfold wf_record, event_record. simpl.
  rewrite wrap_in by (unfold in_u; lia). split_and!; try done; try apply crc32_range.
  pose proof (Tr.event_type_index_range e). unfold in_u. lia.
Qed.

(** The bytes of a list of records. *)
Definition records (l : list (Tr.TraceEvent * list byte)) : list byte :=
  l ≫= (fun p => record_bytes (event_record p.1 p.2)).

Lemma write_events_ok l w :
  Forall (fun p => storable p.1 p.2) l ->
  0 <= record_count w -> record_count w + Z.of_nat (length l) < 2 ^ 64 ->
  write_events b l.*1 w =
  (Ok tt, mkTW (tw_file w ++ records l) (tw_header w) (record_count w + Z.of_nat (length l))
            (current_time_secs w)).
Proof.
  revert w. induction l as [|[e pl] l IH]; intros w Hl Hc Hw.
  - simpl. rewrite app_nil_r. unfold ret. do 2 f_equal. destruct w. f_equal. simpl. lia.
  - apply Forall_cons in Hl as [(Hs & Hp & Ht) Hl]. simpl in Hw, Hs, Hp.
    rewrite fmap_cons. cbn [write_events fst]. unfold write_event. rewrite Hs. cbn [map_err].
    unfold lift, modify, gets, id, bind. cbn [record_count].
    rewrite arith_in by (unfold in_u; lia).
    rewrite IH; cbn [record_count tw_file tw_header current_time_secs]; [|done|lia|lia].
    unfold records. cbn [mbind list_bind]. f_equal. f_equal; [by rewrite <- app_assoc|simpl; lia].
Qed.

Lemma length_header_bytes h :
  h_magic h = TRACE_MAGIC -> length (header_bytes h) = (SIZE + length (domains h))%nat.
Proof.
  intros Hm. unfold header_bytes. rewrite !length_app, !length_to_le_bytes, length_fmap, Hm.
  unfold SIZE. simpl. lia.
Qed.

Lemma read_next_ok e pl s t :
  storable e pl -> 0 <= current_index t < chunk_count (tr_header t) ->
  in_u 64 (chunk_count (tr_header t)) ->
  remaining (tr_reader t) = record_bytes (event_record e pl) ++ s ->
  exists t', read_next cap b now t = (Ok (Some (Tr.restamp_job now e)), t') /\
    remaining (tr_reader t') = s /\ file (tr_reader t') = file (tr_reader t) /\
    tr_header t' = tr_header t /\ current_index t' = current_index t + 1.
Proof.
  intros Hs Hi Hc Hr. unfold in_u in Hc.
  destruct (read_record_app cap _ s _ (storable_wf e pl Hs) Hr) as (r' & Hrec & Hr' & Hf).
  unfold read_next, gets, bind at 1, id. rewrite (proj2 (Z.leb_gt _ _)) by lia.
  unfold on_reader, bind at 1. rewrite Hrec. cbn [ok_or]. unfold lift, bind at 1.
  cbn [payload crc32 event_record]. rewrite Z.eqb_refl, andb_false_r.
  unfold ret, bind at 1, bind at 1. destruct Hs as (Hs & _).
  rewrite (bincode_roundtrip e pl now Hs). cbn [map_err].
  unfold bind at 1. rewrite arith_in by (unfold in_u; lia).
  unfold bind, modify. eexists. split; [reflexivity|]. by split_and!.
Qed.

Lemma read_loop_ok l s t fuel :
  Forall (fun p => storable p.1 p.2) l -> (length l < fuel)%nat ->
  0 <= current_index t -> in_u 64 (chunk_count (tr_header t)) ->
  chunk_count (tr_header t) = current_index t + Z.of_nat (length l) ->
  remaining (tr_reader t) = records l ++ s ->
  exists t', read_loop cap b now fuel t = (Ok (Tr.restamp_job now <$> l.*1), t') /\
    remaining (tr_reader t') = s /\ file (tr_reader t') = file (tr_reader t) /\
    tr_header t' = tr_header t.
Proof.
  intros Hl. revert t fuel. induction Hl as [|[e pl] l Hs _ IH]; intros t fuel Hfu Hi Hcu Hcnt Hr.
  - destruct fuel as [|fuel]; [lia|]. simpl in Hcnt. exists t. cbn [read_loop].
    unfold read_next, gets, bind, id, ret. rewrite (proj2 (Z.leb_le _ _)) by lia. done.
  - destruct fuel as [|fuel]; [simpl in Hfu; lia|]. simpl in Hcnt, Hfu.
    unfold records in Hr. cbn [mbind list_bind fst snd] in Hr. rewrite <- app_assoc in Hr.
    destruct (read_next_ok e pl (records l ++ s) t Hs ltac:(lia) Hcu Hr)
      as (t1 & H1 & Hr1 & Hf1 & Hh1 & Hi1).
    destruct (IH t1 fuel) as (t2 & H2 & Hr2 & Hf2 & Hh2); [lia|lia|by rewrite Hh1|rewrite Hh1; lia|done|].
    exists t2. cbn [read_loop]. erewrite bind_Ok by exact H1. cbv beta iota.
    erewrite bind_Ok by exact H2. split_and!; try done; congruence.
Qed.

(** The finished file: final header, records, metadata. *)
Definition trace_file (flags : Z) (ds : list Domain) (l : list (Tr.TraceEvent * list byte))
    (j : list byte) : list byte :=
  header_bytes (with_domains flags (Z.of_nat (length l)) 0
    (Z.of_nat (SIZE + length ds + length (records l))) ds)
  ++ records l ++ to_le_bytes 8 (Z.of_nat (length j)) ++ j.

Lemma write_close flags ds l m j :
  Forall (fun p => storable p.1 p.2) l -> Z.of_nat (length l) < 2 ^ 64 ->
  json_to_vec m = Ok j ->
  exists w, write_events b l.*1 (create_with_domains flags ds) = (Ok tt, w) /\
    close w m = Ok (trace_file flags ds l j).
Proof.
  intros Hl Hn Hj. rewrite write_events_ok by (done || simpl; lia).
  eexists. split; [reflexivity|]. unfold close, metadata_bytes. rewrite Hj.
  cbn [map_err obind tw_header tw_file record_count current_time_secs create_with_domains].
  unfold trace_file, overwrite. f_equal. cbn [with_domains domains h_flags].
  rewrite length_app, !length_header_bytes by done. cbn [domains with_domains].
  f_equal. rewrite <- !app_assoc. rewrite drop_app_length'; [done|]. by rewrite length_header_bytes.
Qed.

Lemma open_file flags ds l j :
  in_u 16 flags -> Z.of_nat (length ds) < 2 ^ 16 -> Z.of_nat (length l) < 2 ^ 64 ->
  Z.of_nat (length (trace_file flags ds l j)) < 2 ^ 64 ->
  exists t, open cap (trace_file flags ds l j) = Ok t /\
    remaining (tr_reader t) = records l ++ to_le_bytes 8 (Z.of_nat (length j)) ++ j /\
    file (tr_reader t) = trace_file flags ds l j /\ current_index t = 0 /\
    header_size t = (SIZE + 2 + length ds)%nat /\
    tr_header t = with_domains flags (Z.of_nat (length l)) 0
      (Z.of_nat (SIZE + length ds + length (records l))) ds.
Proof.
  intros Hf Hd Hn Hlen. unfold open.
  assert (Z.of_nat (SIZE + length ds + length (records l)) < 2 ^ 64) as Ho.
  { unfold trace_file in Hlen. rewrite !length_app, length_header_bytes in Hlen by done.
    simpl domains in Hlen. lia. }
  edestruct (read_header_app cap (with_domains flags (Z.of_nat (length l)) 0
      (Z.of_nat (SIZE + length ds + length (records l))) ds)) as (r' & Hr & Hrem & Hfile).
  3:{ rewrite Hr. eexists. split; [reflexivity|]. split_and!; done. }
  - unfold in_u in Hf. unfold wf_header, with_domains, in_u. simpl h_magic. cbn [h_version h_flags chunk_count h_created_at metadata_offset domains].
    unfold TRACE_VERSION_WITH_DOMAINS. split_and!; try done; try lia.
  - reflexivity.
Qed.

(** C15: trace files survive the round trip.  Writing any list of storable
    events and closing the writer gives a file from which the reader, whatever
    its buffer size, gets back the header (the flags and domains it was created
    with, the number of events, the creation time 0 that the writer keeps, and
    the place of the metadata), exactly those events in order (the jobs in them restamped at
    reading time), and then the metadata. *)
Theorem trace_file_roundtrip flags ds l m j event_size :
  Forall (fun p => storable p.1 p.2) l -> json_to_vec m = Ok j ->
  in_u 16 flags -> Z.of_nat (length ds) < 2 ^ 16 ->
  0 < event_size -> Z.of_nat (length l) * event_size < 2 ^ 63 ->
  Z.of_nat (length (trace_file flags ds l j)) < 2 ^ 63 ->
  exists w f t t' t'', write_events b l.*1 (create_with_domains flags ds) = (Ok tt, w) /\
    close w m = Ok f /\ open cap f = Ok t /\
    tr_header t = with_domains flags (Z.of_nat (length l)) 0 (Z.of_nat (SIZE + length ds + length (records l))) ds /\
    read_all cap event_size b now t = (Ok (Tr.restamp_job now <$> l.*1), t') /\
    metadata cap t' = (Ok m, t'').
Proof.
  intros Hl Hj Hf Hd Hes Hcap Hlen.
  destruct (write_close flags ds l m j) as (w & Hw & Hc); [done|nia|done|].
  destruct (open_file flags ds l j) as (t & Ht & Hrem & Hfile & Hidx & _ & Hh); [done..|nia|lia|].
  destruct (read_loop_ok l (to_le_bytes 8 (Z.of_nat (length j)) ++ j) t
    (S (Z.to_nat (chunk_count (tr_header t) - current_index t)))) as (t' & Hr & _ & Hf' & Hh');
    try done; rewrite ?Hh, ?Hidx; simpl; try lia; [unfold in_u; nia|].
  destruct (read_bytes_app cap 8 (to_le_bytes 8 (Z.of_nat (length j))) j
    (mkBuf (file (tr_reader t')) [] (SIZE + length ds + length (records l)))) as (r1 & H1 & Hr1 & _);
    [|apply length_to_le_bytes|].
  { unfold remaining. simpl buffered. simpl cursor. simpl file. rewrite app_nil_l, Hf', Hfile.
    unfold trace_file. rewrite app_assoc. apply drop_app_length'.
    rewrite length_app, length_header_bytes by done. done. }
  destruct (read_bytes_app cap (length j) j [] r1) as (r2 & H2 & _); [by rewrite app_nil_r|done|].
  eexists w, _, t, t', _. split_and!; [done|done|done|done| |].
  - unfold read_all, gets, bind, id. rewrite (proj2 (Z.ltb_ge _ _)); [done|].
    rewrite Hh. simpl. lia.
  - unfold metadata, read_metadata, seek_start. rewrite Hh', Hh. cbn [with_domains metadata_offset file].
    rewrite Nat2Z.id. unfold bind at 1. rewrite H1.
    assert (Z.of_nat (length j) < 2 ^ 63) as Hj63.
    { unfold trace_file in Hlen. rewrite !length_app in Hlen. lia. }
    rewrite from_to_le_bytes_in by (unfold in_u; lia). rewrite (proj2 (Z.ltb_ge _ _)) by lia.
    rewrite Nat2Z.id. unfold bind. rewrite H2. unfold lift. rewrite (json_roundtrip m j Hj). reflexivity.
Qed.

(** Checksums are enforced: when the header announces checksums, an event
    is returned only if the CRC of its payload is the one stored in its
    record, whatever the file contains; a failing call leaves the record
    counter where it was. *)
Theorem read_next_checked t o t' :
  read_next cap b now t = (o, t') ->
  match o with
  | Ok (Some e) => exists r, (read_record cap (tr_reader t)).1 = Ok (Some r) /\
      (has_checksum (tr_header t) = true -> crc32_hash (payload r) = crc32 r) /\
      bincode_deserialize now (payload r) = Ok e /\
      current_index t < chunk_count (tr_header t)
  | Ok None => chunk_count (tr_header t) <= current_index t /\ t' = t
  | _ => current_index t' = current_index t
  end.
Proof.
  unfold read_next, gets, bind at 1, id. destruct (_ <=? _) eqn:Ei; bool_to_prop.
  { intros [= <- <-]. done. }
  unfold on_reader, bind at 1.
  destruct (read_record cap (tr_reader t)) as [[[r|]|e|m] r'] eqn:Er.
  2:{ intros [= <- <-]. done. } 2:{ intros [= <- <-]. done. } 2:{ intros [= <- <-]. done. }
  cbn [ok_or]. unfold lift, bind at 1.
  destruct (has_checksum (tr_header t) && negb (crc32_hash (payload r) =? crc32 r)) eqn:Ec.
  { intros [= <- <-]. done. }
  unfold ret, bind at 1, bind at 1.
  destruct (bincode_deserialize now (payload r)) as [e|e|m] eqn:Ed; cbn [map_err].
  2:{ intros [= <- <-]. done. } 2:{ intros [= <- <-]. done. }
  unfold bind at 1, arith. destruct (in_ub 64 (current_index t + 1)) eqn:Eu; [|destruct b].
  2:{ intros [= <- <-]. done. }
  all: unfold bind, modify; intros [= <- <-]; exists r; split_and!; try done.
  all: intros Hc; rewrite Hc in Ec; simpl in Ec; apply negb_false_iff in Ec; by bool_to_prop.
Qed.

(** ** Totality of the reading loops *)

Lemma read_bytes_total n r : is_panic (read_bytes cap n r).1 = false.
Proof. unfold read_bytes. by destruct (read_exact cap n r) as [[]]. Qed.

Lemma total_bind {X A B} (m : M BufReader X A) (k : A -> M BufReader X B) :
  (forall r, is_panic (m r).1 = false) -> (forall a r, is_panic (k a r).1 = false) ->
  forall r, is_panic (bind m k r).1 = false.
Proof.
  intros Hm Hk r. specialize (Hm r). unfold bind. destruct (m r) as [[a|e|p] r']; [apply Hk|done|done].
Qed.

Lemma read_record_total r : is_panic (read_record cap r).1 = false.
Proof.
  revert r. apply total_bind; [intros r; unfold read_or_eof; by destruct (read_exact cap 8 r)|].
  intros [ts|]; [|done]. repeat (apply total_bind; [apply read_bytes_total|intros ?]). done.
Qed.

(** A record read advances the counter; nothing else about the position of
    the reader matters for termination. *)
Lemma read_next_progress t :
  0 <= current_index t -> chunk_count (tr_header t) < 2 ^ 64 ->
  wp (read_next cap b now) (fun o t' =>
    match o with
    | Ok (Some _) => current_index t < chunk_count (tr_header t) /\
        current_index t' = current_index t + 1 /\ tr_header t' = tr_header t
    | Panic _ => False
    | _ => True
    end) t.
Proof.
  intros H0 Hc. unfold read_next. repeat wp_step. unfold id.
  destruct (chunk_count (tr_header t) <=? current_index t) eqn:E; bool_to_prop; [by wp_step|].
  wp_step. unfold wp at 1, on_reader. pose proof (read_record_total (tr_reader t)) as Hp.
  destruct (read_record cap (tr_reader t)) as [[ro|e|p] r]; simpl in *; [|done..].
  repeat wp_step. destruct ro as [x|]; simpl; [|done]. wp_step. case_match; wp_step; [done|].
  repeat wp_step.
  destruct (codec_no_panic (Tr.DaemonStarted 0) (payload x) now (mkMeta 0 0 [] (0, 0) "" "")) as (_ & Hd & _).
  destruct (bincode_deserialize now (payload x)) as [e|e|p]; simpl; [|done|done].
  repeat wp_step. rewrite arith_in by (unfold in_u; lia). repeat wp_step. done.
Qed.

Lemma read_loop_total fuel t :
  0 <= current_index t -> chunk_count (tr_header t) < 2 ^ 64 ->
  (Z.to_nat (chunk_count (tr_header t) - current_index t) < fuel)%nat ->
  wp (read_loop cap b now fuel) (fun o _ => is_panic o = false) t.
Proof.
  revert t. induction fuel as [|fuel IH]; intros t H0 Hc Hf; [lia|]. simpl. wp_step.
  eapply wp_mono; [by apply read_next_progress|]. intros [[e|]|e|p] t'; [| |done|done].
  - intros (Hlt & Hi & Hh). wp_step. eapply wp_mono; [apply IH; rewrite ?Hh; lia|].
    by intros [es|e'|p] t''.
  - intros _. by wp_step.
Qed.

(** Reading all the records of any file ends, and panics only if the header
    announces more records than an allocation can hold. *)
Lemma read_all_enough_fuel event_size t :
  0 <= current_index t -> chunk_count (tr_header t) < 2 ^ 64 ->
  chunk_count (tr_header t) * event_size <= 2 ^ 63 - 1 ->
  is_panic (read_all cap event_size b now t).1 = false.
Proof.
  intros H0 Hc Hs. change (wp (read_all cap event_size b now) (fun o _ => is_panic o = false) t).
  unfold read_all. repeat wp_step. unfold id. rewrite (proj2 (Z.ltb_ge _ _)) by lia.
  apply read_loop_total; lia.
Qed.
End files.

(** ** Concrete runs *)

Definition empty_meta : TraceMetadata :=
  mkMeta 0 0 [] (0, 0) EmptyString EmptyString.

#[global] Instance TraceMetadata_eq_dec : EqDecision TraceMetadata.
Proof. solve_decision. Defined.

(** The capacity of a [BufReader::new]. *)
Definition DEFAULT_BUF_SIZE : nat := Z.to_nat 8192.

(** A codec that can only store [DaemonStarted] events and empty metadata. *)
Definition ex_codec : Codec.
Proof.
  refine {|
    bincode_serialize := fun e => match e with
      | Tr.DaemonStarted ts => if in_ub 64 ts then Ok (to_le_bytes 8 ts) else Err "range"%string
      | _ => Err "unsupported"%string end;
    bincode_deserialize := fun _ d => if decide (length d = 8%nat) then Ok (Tr.DaemonStarted (from_le_bytes d))
      else Err "length"%string;
    json_to_vec := fun m => if decide (m = empty_meta) then Ok [] else Err "unsupported"%string;
    json_from_slice := fun d => Ok empty_meta;
    crc32_hash := fun d => wrap 32 (from_le_bytes d);
  |}.
  - intros e d now. destruct e; try done. destruct (in_ub 64 timestamp) eqn:E; [|done].
    intros Hd. assert (d = to_le_bytes 8 timestamp) as -> by congruence.
    rewrite decide_True by apply length_to_le_bytes.
    rewrite from_to_le_bytes_in by (by apply in_ub_spec in E). done.
  - intros m d. case_decide; [|done]. intros [= <-]. by subst.
  - intros d. apply wrap_range. lia.
  - intros e d now m. split_and!; try done; repeat case_match; try done.
Defined.

Definition ex_events : list (Tr.TraceEvent * list byte) :=
  [(Tr.DaemonStarted 5, to_le_bytes 8 5); (Tr.DaemonStarted 9, to_le_bytes 8 9)].

Lemma trace_file_roundtrip_witness :
  exists w f t t' t'',
    @write_events ex_codec Debug [Tr.DaemonStarted 5; Tr.DaemonStarted 9]
      (create_with_domains HAS_CHECKSUM [DiskIo]) = (Ok tt, w) /\
    @close ex_codec w empty_meta = Ok f /\ open DEFAULT_BUF_SIZE f = Ok t /\
    h_flags (tr_header t) = HAS_CHECKSUM /\ chunk_count (tr_header t) = 2 /\ domains (tr_header t) = [DiskIo] /\
    @read_all DEFAULT_BUF_SIZE ex_codec 200 Debug 77 t = (Ok [Tr.DaemonStarted 5; Tr.DaemonStarted 9], t') /\
    @metadata DEFAULT_BUF_SIZE ex_codec t' = (Ok empty_meta, t'').
Proof.
  destruct (@trace_file_roundtrip ex_codec Debug DEFAULT_BUF_SIZE 77 HAS_CHECKSUM [DiskIo] ex_events empty_meta [] 200)
    as (w & f & t & t' & t'' & H1 & H2 & H3 & Hh & H4 & H5).
  - repeat constructor; vm_compute; discriminate.
  - reflexivity.
  - split; vm_compute; [discriminate|reflexivity].
  - reflexivity.
  - reflexivity.
  - reflexivity.
  - vm_compute. reflexivity.
  - exists w, f, t, t', t''. rewrite Hh. split_and!; [exact H1|exact H2|exact H3|reflexivity..|exact H4|exact H5].
Defined.

(** A reader over the file of [ex_events], and the same after one event. *)
Definition ex_trace : list byte := @trace_file ex_codec HAS_CHECKSUM [DiskIo] ex_events [].
Definition ex_reader : TraceReader :=
  match open DEFAULT_BUF_SIZE ex_trace with Ok t => t | _ => mkTR (mkBuf [] [] 0) (Header_new 0 0 0 0) 0 0 end.
Definition ex_reader1 : TraceReader := (@read_next DEFAULT_BUF_SIZE ex_codec Debug 77 ex_reader).2.

Lemma read_next_checked_witness :
  exists r, (read_record DEFAULT_BUF_SIZE (tr_reader ex_reader)).1 = Ok (Some r) /\
    (has_checksum (tr_header ex_reader) = true -> @crc32_hash ex_codec (payload r) = crc32 r) /\
    @bincode_deserialize ex_codec 77 (payload r) = Ok (Tr.DaemonStarted 5) /\
    current_index ex_reader < chunk_count (tr_header ex_reader).
Proof.
  apply (@read_next_checked ex_codec Debug DEFAULT_BUF_SIZE 77 ex_reader (Ok (Some (Tr.DaemonStarted 5))) ex_reader1).
  vm_compute. reflexivity.
Defined.

(** The recorded header size is two bytes more than the header written, so a
    backwards seek lands inside the first record. *)
Lemma header_size_off_by_two `{Codec} cap flags ds l j t :
  in_u 16 flags -> Z.of_nat (length ds) < 2 ^ 16 -> Z.of_nat (length l) < 2 ^ 64 ->
  Z.of_nat (length (trace_file flags ds l j)) < 2 ^ 64 ->
  open cap (trace_file flags ds l j) = Ok t ->
  header_size t = (length (header_bytes (tr_header t)) + 2)%nat.
Proof.
  intros H1 H2 H3 H4 Ho. destruct (open_file cap flags ds l j H1 H2 H3 H4) as (t' & Ho' & _ & _ & _ & Hs & Hh).
  rewrite Ho in Ho'. injection Ho' as <-. rewrite Hs, Hh, length_header_bytes by done. simpl. lia.
Qed.

(** Seeking to the first event of a fresh reader works; after one event has
    been read, the same seek lands two bytes late and fails. *)
Example seek_forward_ok :
  let '(o, t) := @seek_to_timestamp DEFAULT_BUF_SIZE Debug 5 ex_reader in
  o = Ok tt /\ (@read_next DEFAULT_BUF_SIZE ex_codec Debug 77 t).1 = Ok (Some (Tr.DaemonStarted 5)).
Proof. vm_compute. done. Qed.

Example seek_backward_broken :
  is_ok (@seek_to_timestamp DEFAULT_BUF_SIZE Debug 5 ex_reader1).1 = false.
Proof. vm_compute. reflexivity. Qed.

(** [metadata] moves the descriptor it shares with the event reader: with
    unread records beyond the buffer, the next event is lost. *)
Example metadata_disturbs_reader :
  let t := match open 40 ex_trace with Ok t => t | _ => ex_reader end in
  let t' := (@metadata 40 ex_codec t).2 in
  (@read_next 40 ex_codec Debug 77 t).1 = Ok (Some (Tr.DaemonStarted 5)) /\
  is_ok (@read_next 40 ex_codec Debug 77 t').1 = false.
Proof. vm_compute. done. Qed.
