(* ===== verification/Queue.v ===== *)
(** * The transfer queue: [ghost-daemon/src/queue.rs]

    A bounded queue in which urgent jobs overtake the others.  The abstract
    specification is a pair of FIFO queues; the first part proves that the
    single [VecDeque] of the source implements it.  The second part models the
    waiting consumer and tokio's [Notify] as a step relation. *)

From Stdlib Require Import ZArith Lia.
From stdpp Require Import base strings pretty relations list.
From S2P Require Import Prelude Floats CoreTypes Pressure Trace.

Open Scope rust_scope.

Record TransferQueue := mkQueue {
  jobs : list TransferJob;
  current_depth : Z;
  shut : bool;
  q_capacity : Z;
  q_log : TraceLog;
}.

Definition Queue_new (capacity : Z) (log : TraceLog) : TransferQueue :=
  mkQueue [] 0 false capacity log.
Definition Queue_default : TransferQueue := Queue_new 1024 (Log_new 1000).

Definition set_jobs (q : TransferQueue) js n :=
  mkQueue js n (shut q) (q_capacity q) (q_log q).

Abbreviation QM := (M TransferQueue GhostError).

Definition log_record (e : Tr.TraceEvent) : QM unit := fun q =>
  let '(o, l) := record e (q_log q) in
  (o, mkQueue (jobs q) (current_depth q) (shut q) (q_capacity q) l).

Definition queued_event (now : Z) (j : TransferJob) : Tr.TraceEvent :=
  Tr.TransferQueued (job_chunk j) (from_tier j) (to_tier j) (job_priority j) now.

Definition urgent_job (j : TransferJob) : bool := is_higher_than (job_priority j) PNorm.

(** [iter().position(P).unwrap_or(len)]. *)
Fixpoint position_or_len {A} (P : A -> bool) (l : list A) : nat :=
  match l with [] => 0 | x :: l => if P x then 0 else S (position_or_len P l) end.

Definition insert_at {A} (n : nat) (x : A) (l : list A) : list A := take n l ++ x :: drop n l.

Section ops.
Context (b : Build).

Definition submit_priority (now : Z) (j : TransferJob) : QM unit :=
  q <- gets id ;;
  if shut q then throw ECancelled
  else if q_capacity q <=? current_depth q then
    log_record (queued_event now j) ;;;
    throw (EInternal ("transfer queue is full (capacity: " +:+ pretty (q_capacity q) +:+ ")"))
  else
    d <- lift (arith b 64 (current_depth q + 1)) ;;
    modify (fun q => set_jobs q (jobs q) d) ;;;
    (if urgent_job j then
       modify (fun q => set_jobs q
         (insert_at (position_or_len (fun x => negb (urgent_job x)) (jobs q)) j (jobs q))
         (current_depth q))
     else modify (fun q => set_jobs q (jobs q ++ [j]) (current_depth q))) ;;;
    log_record (queued_event now j) ;;;
    _ <- lift (arith b 64 (q_capacity q * 3)) ;;   (* [capacity * 3 / 4], only logged *)
    ret tt.

Definition submit (now : Z) (j : TransferJob) : QM unit := submit_priority now j.

Definition try_dequeue : QM (option TransferJob) :=
  q <- gets id ;;
  match jobs q with
  | j :: rest =>
      modify (fun q => set_jobs q rest (current_depth q)) ;;;
      d <- lift (arith b 64 (current_depth q - 1)) ;;
      modify (fun q => set_jobs q (jobs q) d) ;;;
      ret (Some j)
  | [] => ret None
  end.
End ops.

Definition depth (q : TransferQueue) : Z := current_depth q.
Definition is_full (q : TransferQueue) : bool := q_capacity q <=? current_depth q.
Definition is_empty (q : TransferQueue) : bool := current_depth q =? 0.
Definition shutdown (q : TransferQueue) : TransferQueue :=
  mkQueue (jobs q) (current_depth q) true (q_capacity q) (q_log q).
Definition is_shutdown (q : TransferQueue) : bool := shut q.

(** ** Specification: two FIFO queues *)

Record TwoFifo := mkTwo { fast : list TransferJob; slow : list TransferJob; closed : bool }.

Inductive Result := RDone | RJob (o : option TransferJob) | RCancelled | RFull.

Inductive QCall := QSubmit (now : Z) (j : TransferJob) | QDequeue | QShutdown.

Definition spec_step (cap : Z) (c : QCall) (s : TwoFifo) : Result * TwoFifo :=
  match c with
  | QSubmit _ j =>
      if closed s then (RCancelled, s)
      else if cap <=? Z.of_nat (length (fast s) + length (slow s)) then (RFull, s)
      else if urgent_job j then (RDone, mkTwo (fast s ++ [j]) (slow s) false)
      else (RDone, mkTwo (fast s) (slow s ++ [j]) false)
  | QDequeue =>
      match fast s, slow s with
      | j :: f, sl => (RJob (Some j), mkTwo f sl (closed s))
      | [], j :: sl => (RJob (Some j), mkTwo [] sl (closed s))
      | [], [] => (RJob None, s)
      end
  | QShutdown => (RDone, mkTwo (fast s) (slow s) true)
  end.

(** The queue's calls, with their results classified. *)
Definition impl_step (b : Build) (c : QCall) (q : TransferQueue) : option Result * TransferQueue :=
  match c with
  | QSubmit now j =>
      match submit b now j q with
      | (Ok _, q') => (Some RDone, q')
      | (Err ECancelled, q') => (Some RCancelled, q')
      | (Err (EInternal _), q') => (Some RFull, q')
      | (_, q') => (None, q')
      end
  | QDequeue =>
      match try_dequeue b q with
      | (Ok o, q') => (Some (RJob o), q')
      | (_, q') => (None, q')
      end
  | QShutdown => (Some RDone, shutdown q)
  end.

Record refines (cap : Z) (q : TransferQueue) (s : TwoFifo) : Prop := {
  rf_jobs : jobs q = fast s ++ slow s;
  rf_fast : Forall (fun j => urgent_job j = true) (fast s);
  rf_slow : Forall (fun j => urgent_job j = false) (slow s);
  rf_depth : current_depth q = Z.of_nat (length (jobs q));
  rf_bound : current_depth q <= cap;
  rf_shut : shut q = closed s;
  rf_cap : q_capacity q = cap;
  rf_log : 0 < max_events (q_log q) /\ log_len (q_log q) <= max_events (q_log q);
}.

Lemma position_urgent f s :
  Forall (fun j => urgent_job j = true) f -> Forall (fun j => urgent_job j = false) s ->
  position_or_len (fun x => negb (urgent_job x)) (f ++ s) = length f.
Proof.
  intros Hf Hs. induction Hf as [|j f Hj _ IH]; simpl.
  - destruct Hs as [|j s Hj _]; [done|]. simpl. by rewrite Hj.
  - by rewrite Hj, IH.
Qed.

Lemma log_record_ok e q :
  0 < max_events (q_log q) -> log_len (q_log q) <= max_events (q_log q) ->
  exists l, log_record e q = (Ok tt, mkQueue (jobs q) (current_depth q) (shut q) (q_capacity q) l) /\
    0 < max_events l /\ log_len l <= max_events l.
Proof.
  intros H1 H2. unfold log_record. rewrite record_last_n by done. eexists. split; [reflexivity|].
  split; [done|]. unfold log_len. simpl.
  pose proof (length_last_n (Z.to_nat (max_events (q_log q))) (log_events (q_log q) ++ [e])). lia.
Qed.

Lemma refines_submit b cap now j q s :
  0 < cap -> cap * 3 < 2 ^ 64 -> refines cap q s ->
  let '(r, q') := impl_step b (QSubmit now j) q in
  let '(r', s') := spec_step cap (QSubmit now j) s in
  r = Some r' /\ refines cap q' s'.
Proof.
  intros Hc0 Hc3 Hr. pose proof Hr as [Hj Hf Hs Hd Hb Hsh Hcap [Hl1 Hl2]]. simpl.
  unfold submit, submit_priority, gets, bind at 1, id. rewrite Hsh.
  destruct (closed s) eqn:Ecl; [by split|]. rewrite Hcap.
  assert (Z.of_nat (length (fast s) + length (slow s)) = current_depth q) as ->
    by (rewrite Hd, Hj, length_app; lia).
  destruct (cap <=? current_depth q) eqn:Efull; bool_to_prop.
  - destruct (log_record_ok (queued_event now j) q Hl1 Hl2) as (l & Hl & ? & ?).
    unfold bind, throw. rewrite Hl. split; [done|]. split; simpl; try done. congruence.
  - unfold lift, bind at 1. rewrite arith_in by (unfold in_u; lia).
    unfold modify, bind at 1, bind at 1. destruct (urgent_job j) eqn:Eu; cbn [set_jobs jobs].
    + edestruct (log_record_ok (queued_event now j)) as (l & Hl & ? & ?); [| |].
      3:{ erewrite bind_Ok by exact Hl. unfold bind. rewrite arith_in by (unfold in_u; lia).
          unfold ret. split; [done|]. cbn. rewrite Hj, position_urgent by done.
          unfold insert_at. rewrite take_app_length, drop_app_length.
          split; simpl; try done.
          - by rewrite <- app_assoc.
          - apply Forall_app. split; [done|]. by constructor.
          - rewrite Hd, Hj, !length_app. simpl. lia.
          - lia. }
      all: done.
    + edestruct (log_record_ok (queued_event now j)) as (l & Hl & ? & ?); [| |].
      3:{ erewrite bind_Ok by exact Hl. unfold bind. rewrite arith_in by (unfold in_u; lia).
          unfold ret. split; [done|]. cbn. rewrite Hj.
          split; simpl; try done.
          - by rewrite <- app_assoc.
          - apply Forall_app. split; [done|]. by constructor.
          - rewrite Hd, Hj, !length_app. simpl. lia.
          - lia. }
      all: done.
Qed.

Lemma refines_dequeue b cap q s :
  0 < cap -> cap < 2 ^ 64 -> refines cap q s ->
  let '(r, q') := impl_step b QDequeue q in
  let '(r', s') := spec_step cap QDequeue s in
  r = Some r' /\ refines cap q' s'.
Proof.
  intros Hc0 Hc3 [Hj Hf Hs Hd Hb Hsh Hcap Hl]. simpl.
  unfold try_dequeue, gets, bind at 1, id. rewrite Hj.
  destruct (fast s) as [|j f] eqn:Ef; [destruct (slow s) as [|j sl] eqn:Es|]; simpl.
  - split; [done|]. split; rewrite ?Ef, ?Es; done.
  - rewrite Hj in Hd. simpl in Hd. apply Forall_cons in Hs as [? ?].
    unfold modify, lift, bind. cbn [set_jobs current_depth]. rewrite arith_in by (unfold in_u; lia).
    unfold ret. split; [done|]. split; simpl; try done; lia.
  - rewrite Hj in Hd. simpl in Hd. rewrite length_app in Hd. apply Forall_cons in Hf as [? ?].
    unfold modify, lift, bind. cbn [set_jobs current_depth]. rewrite arith_in by (unfold in_u; lia).
    unfold ret. split; [done|]. split; simpl; rewrite ?length_app; try done; lia.
Qed.

(** The results and final states of a sequence of calls. *)
Fixpoint impl_run (b : Build) (cs : list QCall) (q : TransferQueue)
    : list (option Result) * TransferQueue :=
  match cs with
  | [] => ([], q)
  | c :: cs => let '(r, q') := impl_step b c q in
               let '(rs, q'') := impl_run b cs q' in (r :: rs, q'')
  end.
Fixpoint spec_run (cap : Z) (cs : list QCall) (s : TwoFifo) : list Result * TwoFifo :=
  match cs with
  | [] => ([], s)
  | c :: cs => let '(r, s') := spec_step cap c s in
               let '(rs, s'') := spec_run cap cs s' in (r :: rs, s'')
  end.

Lemma refines_step b cap c q s :
  0 < cap -> cap * 3 < 2 ^ 64 -> refines cap q s ->
  let '(r, q') := impl_step b c q in
  let '(r', s') := spec_step cap c s in
  r = Some r' /\ refines cap q' s'.
Proof.
  intros H1 H2 Hr. destruct c as [now j| |].
  - by apply refines_submit.
  - apply refines_dequeue; [done|lia|done].
  - simpl. split; [done|]. by destruct Hr; split.
Qed.

(** C3: the queue implements two FIFO queues.  For every sequence of submit,
    dequeue and shutdown calls on a fresh queue, in either build profile, the
    results are those of the specification: urgent jobs (High and Critical)
    leave in submission order before all others, the others in submission
    order among themselves; submissions are refused exactly after a shutdown
    or at capacity; no call panics and no job is lost or duplicated. *)
Theorem queue_refines_two_fifos b cap log calls :
  0 < cap -> cap * 3 < 2 ^ 64 -> 0 < max_events log -> log_len log <= max_events log ->
  let '(rs, q) := impl_run b calls (Queue_new cap log) in
  let '(rs', s) := spec_run cap calls (mkTwo [] [] false) in
  rs = Some <$> rs' /\ jobs q = fast s ++ slow s /\ depth q = Z.of_nat (length (jobs q)) /\
  depth q <= cap.
Proof.
  intros Hc Hc3 Hl1 Hl2.
  assert (forall q s, refines cap q s ->
    let '(rs, q') := impl_run b calls q in let '(rs', s') := spec_run cap calls s in
    rs = Some <$> rs' /\ refines cap q' s') as H.
  { induction calls as [|c calls IH]; intros q s Hr; simpl; [done|].
    pose proof (refines_step b cap c q s Hc Hc3 Hr) as Hst.
    destruct (impl_step b c q) as [r q1], (spec_step cap c s) as [r' s1]. destruct Hst as [-> Hr1].
    specialize (IH q1 s1 Hr1).
    destruct (impl_run b calls q1) as [rs q2], (spec_run cap calls s1) as [rs' s2].
    destruct IH as [-> Hr2]. done. }
  specialize (H (Queue_new cap log) (mkTwo [] [] false)).
  destruct (impl_run b calls (Queue_new cap log)) as [rs q].
  destruct (spec_run cap calls (mkTwo [] [] false)) as [rs' s].
  destruct H as [-> [Hj _ _ Hd Hb _ _ _]]; [|done]. split; simpl; try done; lia.
Qed.

Definition ex_job (n : Z) (p : TransferPriority) : TransferJob :=
  mkJob (mkChunkId [byte_of_Z n]) Ram Disk n p Queued 0 0 0.

Definition ex_calls : list QCall :=
  [QSubmit 1 (ex_job 1 PLow); QSubmit 2 (ex_job 2 PHigh); QSubmit 3 (ex_job 3 PCrit);
   QSubmit 4 (ex_job 4 PNorm); QDequeue; QDequeue; QDequeue; QShutdown; QSubmit 5 (ex_job 5 PCrit)].

Lemma queue_refines_two_fifos_witness :
  (impl_run Debug ex_calls (Queue_new 3 (Log_new 10))).1 =
    Some <$> [RDone; RDone; RDone; RFull; RJob (Some (ex_job 2 PHigh)); RJob (Some (ex_job 3 PCrit));
              RJob (Some (ex_job 1 PLow)); RDone; RCancelled].
Proof.
  pose proof (queue_refines_two_fifos Debug 3 (Log_new 10) ex_calls ltac:(lia) ltac:(lia)
    ltac:(simpl; lia) ltac:(vm_compute; discriminate)) as H.
  destruct (impl_run Debug ex_calls (Queue_new 3 (Log_new 10))) as [rs q].
  assert (Hs : spec_run 3 ex_calls (mkTwo [] [] false) =
    ([RDone; RDone; RDone; RFull; RJob (Some (ex_job 2 PHigh)); RJob (Some (ex_job 3 PCrit));
      RJob (Some (ex_job 1 PLow)); RDone; RCancelled], mkTwo [] [] true)) by (vm_compute; reflexivity).
  rewrite Hs in H. destruct H as [H _]. exact H.
Defined.

(** ** Waiting for jobs

    [dequeue_wait] checks the queue under the lock and otherwise waits on a
    [Notify].  [notify_one] leaves a permit when nobody waits;
    [notify_waiters] wakes only who already waits.  Both notifications are
    sent after the lock is released: [signals] counts the submissions whose
    [notify_one] is still to come, [closing] says the same of a shutdown.  One
    consumer, any number of producers. *)
Module Wait.

Inductive Pc :=
  | Check          (* about to take the lock *)
  | Park           (* found nothing; lock released, not waiting yet *)
  | Waiting        (* [notified().await] *)
  | GotJob         (* returned [Some] *)
  | GotNone.       (* returned [None] *)

Record State := mkState {
  n_jobs : nat;
  down : bool;
  permit : bool;
  signals : nat;
  closing : bool;
  pc : Pc;
}.

(** A notification reaches the consumer or leaves a permit. *)
Definition notify_one (s : State) : State :=
  match pc s with
  | Waiting => mkState (n_jobs s) (down s) (permit s) (signals s - 1) (closing s) Check
  | _ => mkState (n_jobs s) (down s) true (signals s - 1) (closing s) (pc s)
  end.

Definition notify_waiters (s : State) : State :=
  mkState (n_jobs s) (down s) (permit s) (signals s) false
    (match pc s with Waiting => Check | p => p end).

(** One iteration of the loop of [dequeue_wait] up to the wait. *)
Definition check (s : State) : State :=
  match n_jobs s with
  | S n => mkState n (down s) (permit s) (signals s) (closing s) GotJob
  | O => mkState 0 (down s) (permit s) (signals s) (closing s) (if down s then GotNone else Park)
  end.

Definition await (s : State) : State :=
  mkState (n_jobs s) (down s) false (signals s) (closing s) (if permit s then Check else Waiting).

Inductive step : State -> State -> Prop :=
  | st_submit s : down s = false ->
      step s (mkState (S (n_jobs s)) false (permit s) (S (signals s)) (closing s) (pc s))
  | st_notify s : signals s <> 0%nat -> step s (notify_one s)
  | st_shutdown s : down s = false ->
      step s (mkState (n_jobs s) true (permit s) (signals s) true (pc s))
  | st_wake s : closing s = true -> step s (notify_waiters s)
  | st_check s : pc s = Check -> step s (check s)
  | st_await s : pc s = Park -> step s (await s)
  | st_again s : pc s = GotJob ->
      step s (mkState (n_jobs s) (down s) (permit s) (signals s) (closing s) Check).

Definition start : State := mkState 0 false false 0 false Check.

(** A parked or waiting consumer never overlooks a job for good. *)
Definition covered (s : State) : Prop :=
  match pc s with
  | Waiting => permit s = false /\ (n_jobs s <> 0%nat -> signals s <> 0%nat)
  | Park => n_jobs s <> 0%nat -> signals s <> 0%nat \/ permit s = true
  | _ => True
  end.

Lemma covered_step s s' : covered s -> step s s' -> covered s'.
Proof.
  unfold covered. intros Hc Hst. destruct Hst as [s H|s H|s H|s H|s H|s H|s H]; simpl in *.
  - destruct (pc s); simpl; try done; [left; lia|]. destruct Hc. split; [done|lia].
  - unfold notify_one. destruct (pc s) eqn:E; simpl; rewrite ?E; auto.
  - destruct (pc s); done.
  - destruct (pc s); done.
  - unfold check. destruct (n_jobs s) eqn:E; simpl; [|done]. by destruct (down s).
  - unfold await. simpl. rewrite H in Hc. destruct (permit s) eqn:E; [done|]. split; [done|].
    intros Hn. by destruct (Hc Hn).
  - done.
Qed.

(** C31: no submission is overlooked.  In every reachable state, if the
    consumer waits while jobs are queued, a notification is still on its way;
    so once all pending notifications are delivered a waiting consumer means
    an empty queue. *)
Theorem no_job_stranded s :
  rtc step start s -> pc s = Waiting -> signals s = 0%nat -> n_jobs s = 0%nat.
Proof.
  intros Hr Hp Hs. assert (covered s) as Hc.
  { assert (forall x y, rtc step x y -> covered x -> covered y) as H.
    { induction 1; [done|]. intros. eauto using covered_step. }
    by apply (H start s Hr). }
  unfold covered in Hc. rewrite Hp in Hc. destruct Hc as [_ Hc].
  destruct (n_jobs s); [done|]. exfalso. by apply Hc.
Qed.

Definition waiting_empty : State := mkState 0 false false 0 false Waiting.

Lemma no_job_stranded_witness : n_jobs waiting_empty = 0%nat.
Proof.
  apply no_job_stranded; [|reflexivity|reflexivity].
  eapply rtc_l; [apply (st_check start); reflexivity|].
  eapply rtc_l; [apply st_await; reflexivity|]. apply rtc_refl.
Defined.

(** The consumer asleep after a shutdown whose wake-up it missed. *)
Definition asleep : State := mkState 0 true false 0 false Waiting.

(** A shutdown can be missed.  If the queue is shut down after the consumer
    found it empty and before it waits, the wake-up is lost: the consumer then
    waits forever, since no step at all is possible any more. *)
Theorem shutdown_wakeup_lost :
  rtc step start asleep /\ (forall s, ~ step asleep s).
Proof.
  split.
  - eapply rtc_l; [apply (st_check start); reflexivity|].
    eapply rtc_l; [apply st_shutdown; reflexivity|].
    eapply rtc_l; [apply st_wake; reflexivity|].
    eapply rtc_l; [apply st_await; reflexivity|]. apply rtc_refl.
  - intros s Hst. inversion Hst; subst; simpl in *; congruence.
Qed.
End Wait.
