(* ===== verification/Scheduler.v ===== *)
(** * The transfer scheduler: [ghost-daemon/src/scheduler.rs]

    The loop of [run] takes a job off the queue, decides whether pressure
    forbids it, and otherwise hands it to the workers' channel.  The scheduler
    shares the trace log with its queue. *)

From Stdlib Require Import ZArith Lia.
From stdpp Require Import base strings pretty list.
From S2P Require Import Prelude Floats CoreTypes Pressure Events EventBus Trace Queue.

Open Scope rust_scope.

Record SchedulerConfig := mkSchedConfig {
  max_concurrent_transfers : Z;
  priority_ordering : bool;
  disk_aware_scheduling : bool;
  disk_queue_threshold : Z;
}.
Definition SchedulerConfig_default : SchedulerConfig := mkSchedConfig 8 true true 64.

(** The bounded channel to the workers. *)
Record JobChannel := mkJobChan { sent_jobs : list TransferJob; jc_cap : nat; jc_open : bool }.

Record TransferScheduler := mkScheduler {
  sc_queue : TransferQueue;
  sc_config : SchedulerConfig;
  sc_io_queue : option Z;            (* [io_metrics.get_queue_depth() as u32], when set *)
  sc_emitter : option EventEmitter;
  sc_depth_metric : Z;
  sc_workers : JobChannel;
}.

Definition should_throttle (s : TransferScheduler) (j : TransferJob) (p : PressureState) : bool :=
  if is_critical p then negb (bool_decide (job_priority j = PCrit))
  else if fgt (io_pressure p) (lit f32 8 10) && bool_decide (job_priority j = PLow) then true
  else if is_under_pressure p && (bool_decide (job_priority j = PLow) && (1024 * 1024 <? job_size j))
  then true
  else if disk_aware_scheduling (sc_config s) then
    match sc_io_queue s with
    | Some disk_queue =>
        if disk_queue_threshold (sc_config s) <? disk_queue
        then bool_decide (to_tier j = Disk) && negb (bool_decide (job_priority j = PCrit))
        else false
    | None => false
    end
  else false.

Abbreviation SchM := (M TransferScheduler GhostError).

Definition set_queue (s : TransferScheduler) q :=
  mkScheduler q (sc_config s) (sc_io_queue s) (sc_emitter s) (sc_depth_metric s) (sc_workers s).
Definition set_workers (s : TransferScheduler) w :=
  mkScheduler (sc_queue s) (sc_config s) (sc_io_queue s) (sc_emitter s) (sc_depth_metric s) w.
Definition set_depth_metric (s : TransferScheduler) n :=
  mkScheduler (sc_queue s) (sc_config s) (sc_io_queue s) (sc_emitter s) n (sc_workers s).

Definition on_queue {A} (m : M TransferQueue GhostError A) : SchM A := fun s =>
  let '(o, q) := m (sc_queue s) in (o, set_queue s q).

(** [self.trace_log.record(..)] on the shared log. *)
Definition sched_log (e : Tr.TraceEvent) : SchM unit := on_queue (log_record e).

Definition sched_emit (now : Z) (e : Ev.Event) : SchM unit :=
  modify (fun s => mkScheduler (sc_queue s) (sc_config s) (sc_io_queue s)
    (match sc_emitter s with Some em => Some (try_emit now e em).2 | None => None end)
    (sc_depth_metric s) (sc_workers s)).

(** [worker_tx.try_send(job)], [false] when full or closed. *)
Definition try_send_job (j : TransferJob) : SchM bool := fun s =>
  let w := sc_workers s in
  if jc_open w && (length (sent_jobs w) <? jc_cap w)%nat
  then (Ok true, set_workers s (mkJobChan (sent_jobs w ++ [j]) (jc_cap w) (jc_open w)))
  else (Ok false, s).

Definition dispatch_job (now : Z) (j : TransferJob) : SchM unit :=
  let j := transition_state Queued j in
  sched_log (Tr.PolicyDecision (job_chunk j) (from_tier j) (to_tier j)
    ("from=" +:+ tier_debug (from_tier j) +:+ " to=" +:+ tier_debug (to_tier j)) now) ;;;
  sched_log (Tr.TransferStarted j now) ;;;
  ok <- try_send_job j ;;
  if ok then ret tt else throw (PipelineError "worker channel closed").

(** The branch of [run] that takes a job: what [dequeue_wait] returns when the
    queue holds one.  The result of [dispatch_job] is only logged. *)
Definition run_once (b : Build) (now : Z) (p : PressureState) : SchM unit :=
  jo <- on_queue (try_dequeue b) ;;
  match jo with
  | None => ret tt
  | Some j =>
      modify (fun s => set_depth_metric s (depth (sc_queue s))) ;;;
      sched_emit now (Ev.QueueDequeue 0 (attempts j)) ;;;
      s <- gets id ;;
      if should_throttle s j p then
        sched_log (Tr.PolicyDecision (job_chunk j) (from_tier j) (to_tier j) "pressure" now)
      else
        fun s => match dispatch_job now j s with
                 | (Panic m, s') => (Panic m, s')
                 | (_, s') => (Ok tt, s')
                 end
  end.

(** ** Throttling *)

(** Critical jobs always pass, and throttling never favours a less
    important job: if a job is held back under some pressure, so is every job
    of lower or equal priority with the same size and destination.  Without
    pressure and disk congestion nothing is held back. *)
Theorem throttle_respects_priority s j j' p :
  (job_priority j = PCrit -> should_throttle s j p = false) /\
  (value (job_priority j') <= value (job_priority j) -> job_size j' = job_size j ->
   to_tier j' = to_tier j -> should_throttle s j p = true -> should_throttle s j' p = true) /\
  (is_critical p = false -> is_under_pressure p = false -> fgt (io_pressure p) (lit f32 8 10) = false ->
   disk_aware_scheduling (sc_config s) = false -> should_throttle s j p = false).
Proof.
  split_and!.
  - intros Hc. unfold should_throttle. rewrite Hc.
    rewrite (bool_decide_eq_true_2 (PCrit = PCrit)), (bool_decide_eq_false_2 (PCrit = PLow)) by done.
    cbn [andb negb]. rewrite !andb_false_r. destruct (is_critical p); [done|].
    by destruct (disk_aware_scheduling _), (sc_io_queue s) as [n|]; try destruct (_ <? n).
  - intros Hv Hs Ht. unfold should_throttle. rewrite Hs, Ht.
    generalize (is_critical p), (fgt (io_pressure p) (lit f32 8 10)), (is_under_pressure p),
      (1024 * 1024 <? job_size j), (disk_aware_scheduling (sc_config s)), (bool_decide (to_tier j = Disk)).
    intros c io u big aware disk.
    destruct c, io, u, (job_priority j), (job_priority j'); simpl in Hv; try lia; simpl;
      destruct big, aware, disk; simpl; try done; repeat (case_match; try done).
  - intros H1 H2 H3 H4. unfold should_throttle. by rewrite H1, H2, H3, H4.
Qed.

Definition ex_sched : TransferScheduler :=
  mkScheduler (Queue_new 4 (Log_new 10)) SchedulerConfig_default (Some 100) None 0 (mkJobChan [] 1 true).

Lemma throttle_respects_priority_witness :
  should_throttle ex_sched (ex_job 7 PCrit) PressureState_new = false /\
  should_throttle ex_sched (ex_job 7 PLow) PressureState_new = true.
Proof.
  destruct (throttle_respects_priority ex_sched (ex_job 7 PCrit) (ex_job 7 PCrit) PressureState_new)
    as (H1 & _).
  destruct (throttle_respects_priority ex_sched (ex_job 7 PHigh) (ex_job 7 PLow) PressureState_new)
    as (_ & H2 & _).
  split; [exact (H1 eq_refl)|].
  apply H2; [vm_compute; discriminate|reflexivity|reflexivity|vm_compute; reflexivity].
Defined.

(** ** One iteration *)


Lemma sched_log_ok e s :
  healthy_log (q_log (sc_queue s)) ->
  exists l, sched_log e s = (Ok tt, set_queue s (mkQueue (jobs (sc_queue s)) (current_depth (sc_queue s))
      (shut (sc_queue s)) (q_capacity (sc_queue s)) l)) /\ healthy_log l.
Proof.
  intros [H1 H2]. unfold sched_log, on_queue.
  destruct (log_record_ok e (sc_queue s) H1 H2) as (l & -> & ? & ?). by exists l.
Qed.

Definition accepts (w : JobChannel) : bool := jc_open w && (length (sent_jobs w) <? jc_cap w)%nat.

(** The fate of a dequeued job.  One iteration of the scheduler never
    panics, and takes exactly the first job off the queue.  The job is handed
    to the workers exactly when it is not throttled and their channel accepts
    it; otherwise it is dropped: it is neither queued again nor sent. *)
Theorem run_once_fate b now p s j rest :
  jobs (sc_queue s) = j :: rest -> current_depth (sc_queue s) = Z.of_nat (length (j :: rest)) ->
  current_depth (sc_queue s) < 2 ^ 64 -> healthy_log (q_log (sc_queue s)) ->
  exists s', run_once b now p s = (Ok tt, s') /\
    jobs (sc_queue s') = rest /\ current_depth (sc_queue s') = Z.of_nat (length rest) /\
    sent_jobs (sc_workers s') =
      (if negb (should_throttle s j p) && accepts (sc_workers s)
       then sent_jobs (sc_workers s) ++ [transition_state Queued j] else sent_jobs (sc_workers s)) /\
    shut (sc_queue s') = shut (sc_queue s) /\ q_capacity (sc_queue s') = q_capacity (sc_queue s) /\
    healthy_log (q_log (sc_queue s')) /\ jc_cap (sc_workers s') = jc_cap (sc_workers s) /\
    jc_open (sc_workers s') = jc_open (sc_workers s).
Proof.
  intros Hj Hd Hw Hl. simpl in Hd. unfold run_once.
  unfold on_queue at 1, bind at 1. unfold try_dequeue, gets, bind at 1, id. rewrite Hj.
  unfold modify, lift, bind. cbn [Queue.set_jobs current_depth jobs]. rewrite arith_in by (unfold in_u; lia).
  unfold ret. cbn [sched_emit modify].
  unfold sched_emit, modify.
  set (s1 := mkScheduler _ _ _ _ _ _).
  assert (should_throttle s1 j p = should_throttle s j p) as -> by done.
  assert (healthy_log (q_log (sc_queue s1))) as Hl1 by done.
  destruct (should_throttle s j p) eqn:Et.
  - destruct (sched_log_ok (Tr.PolicyDecision (job_chunk j) (from_tier j) (to_tier j) "pressure" now) s1 Hl1)
      as (l & -> & ?). eexists. split; [reflexivity|]. cbn. split_and!; [done|lia|done..].
  - unfold dispatch_job, bind.
    destruct (sched_log_ok (Tr.PolicyDecision (job_chunk (transition_state Queued j))
      (from_tier (transition_state Queued j)) (to_tier (transition_state Queued j))
      ("from=" +:+ tier_debug (from_tier (transition_state Queued j)) +:+ " to=" +:+
       tier_debug (to_tier (transition_state Queued j))) now) s1 Hl1) as (l1 & -> & Hl2).
    set (s2 := set_queue _ _).
    destruct (sched_log_ok (Tr.TransferStarted (transition_state Queued j) now) s2 Hl2) as (l3 & -> & Hl3).
    set (s3 := set_queue s2 _). unfold try_send_job.
    assert (sc_workers s3 = sc_workers s) as Ew by done. rewrite Ew. fold (accepts (sc_workers s)).
    destruct (accepts (sc_workers s)); eexists; (split; [reflexivity|]);
      cbn; split_and!; try done; lia.
Qed.

Definition ex_sched1 : TransferScheduler :=
  mkScheduler (mkQueue [ex_job 7 PLow; ex_job 8 PNorm] 2 false 4 (Log_new 10)) SchedulerConfig_default
    (Some 100) None 0 (mkJobChan [] 1 true).

Lemma run_once_fate_witness :
  exists s', run_once Debug 5 PressureState_new ex_sched1 = (Ok tt, s') /\
    jobs (sc_queue s') = [ex_job 8 PNorm] /\ sent_jobs (sc_workers s') = [].
Proof.
  destruct (run_once_fate Debug 5 PressureState_new ex_sched1 (ex_job 7 PLow) [ex_job 8 PNorm])
    as (s' & H1 & H2 & _ & H3 & _);
    [reflexivity|reflexivity|vm_compute; reflexivity|split; vm_compute; [reflexivity|discriminate]|].
  exists s'. split; [exact H1|]. split; [exact H2|]. rewrite H3. vm_compute. reflexivity.
Defined.
