(* ===== verification/Worker.v ===== *)
(** * The worker pool: [ghost-daemon/src/worker.rs]

    A worker takes a job off the channel, moves its payload from the source
    tier to the target tier with retries and exponential backoff, and reports.
    [Arc<dyn StorageBackend>] is any type [S] with a [StorageBackend] instance;
    a pool of different backends is such a type too ([sum_backend]).  Every
    [current_timestamp()] reads the next value of an arbitrary [clock]; the
    sleeps are recorded in [w_slept]. *)

From Stdlib Require Import ZArith Lia.
From stdpp Require Import base gmap strings pretty list.
From S2P Require Import Prelude Floats CoreTypes Pressure Backend Ram SimBackend Events EventBus Trace.

Open Scope rust_scope.

Record WorkerPoolConfig := mkPoolConfig {
  worker_count : Z;
  max_retries : Z;
  retry_base_delay_ms : Z;
  max_retry_delay_ms : Z;
  enable_compression : bool;
}.
Definition WorkerPoolConfig_default : WorkerPoolConfig := mkPoolConfig 4 3 1000 30000 true.

Record WorkerCompletion := mkCompletion {
  wc_chunk : ChunkId;
  wc_from : TierId;
  wc_to : TierId;
  wc_success : bool;
  wc_error : option string;
  wc_worker : Z;
  wc_timestamp : Z;
}.

(** [TransferMetrics] of [metrics.rs]; the counters wrap as atomics do. *)
Record TransferMetrics := mkTM {
  jobs_submitted : Z;
  jobs_completed : Z;
  jobs_failed : Z;
  jobs_cancelled : Z;
  bytes_transferred : Z;
  total_transfer_time_ms : Z;
  queue_depth : Z;
  active_workers : Z;
}.
Definition TM_new : TransferMetrics := mkTM 0 0 0 0 0 0 0 0.

Definition record_completion (m : TransferMetrics) : TransferMetrics :=
  mkTM (jobs_submitted m) (wrap 64 (jobs_completed m + 1)) (jobs_failed m) (jobs_cancelled m)
    (bytes_transferred m) (total_transfer_time_ms m) (queue_depth m) (active_workers m).
Definition record_job_failure (m : TransferMetrics) : TransferMetrics :=
  mkTM (jobs_submitted m) (jobs_completed m) (wrap 64 (jobs_failed m + 1)) (jobs_cancelled m)
    (bytes_transferred m) (total_transfer_time_ms m) (queue_depth m) (active_workers m).
Definition record_cancellation (m : TransferMetrics) : TransferMetrics :=
  mkTM (jobs_submitted m) (jobs_completed m) (jobs_failed m) (wrap 64 (jobs_cancelled m + 1))
    (bytes_transferred m) (total_transfer_time_ms m) (queue_depth m) (active_workers m).
Definition record_bytes (n : Z) (m : TransferMetrics) : TransferMetrics :=
  mkTM (jobs_submitted m) (jobs_completed m) (jobs_failed m) (jobs_cancelled m)
    (wrap 64 (bytes_transferred m + n)) (total_transfer_time_ms m) (queue_depth m) (active_workers m).

(** ** Backoff *)

(** [1u64 << n]: a shift by 64 or more panics in a debug build and uses the
    low six bits of [n] in a release build. *)
Definition shl_one {E} (b : Build) (n : Z) : outcome E Z :=
  if n <? 64 then Ok (2 ^ n)
  else match b with Debug => Panic "attempt to shift left with overflow" | Release => Ok (2 ^ (n mod 64)) end.

Definition backoff {E} (b : Build) (base cap attempt : Z) : outcome E Z :=
  let? f := shl_one b (attempt - 1) in
  let? d := arith b 64 (base * f) in
  Ok (Z.min d cap).

(** ** The transfer *)

Section worker.
Context {S : Type} `{SB : StorageBackend S}.

Record Worker := mkWorker {
  w_job : TransferJob;                 (* the job in hand *)
  w_tiers : gmap TierId S;
  w_log : TraceLog;
  w_emitter : option EventEmitter;
  w_clock : nat -> Z;
  w_ticks : nat;
  w_slept : list Z;
  w_inbox : list TransferJob;
  w_active : Z;
  w_metrics : TransferMetrics;
  w_reports : list WorkerCompletion;
}.

Abbreviation WM := (M Worker GhostError).

Definition set_job (w : Worker) j := mkWorker j (w_tiers w) (w_log w) (w_emitter w) (w_clock w)
  (w_ticks w) (w_slept w) (w_inbox w) (w_active w) (w_metrics w) (w_reports w).
Definition set_tiers (w : Worker) t := mkWorker (w_job w) t (w_log w) (w_emitter w) (w_clock w)
  (w_ticks w) (w_slept w) (w_inbox w) (w_active w) (w_metrics w) (w_reports w).
Definition set_log (w : Worker) l := mkWorker (w_job w) (w_tiers w) l (w_emitter w) (w_clock w)
  (w_ticks w) (w_slept w) (w_inbox w) (w_active w) (w_metrics w) (w_reports w).
Definition set_emitter (w : Worker) e := mkWorker (w_job w) (w_tiers w) (w_log w) e (w_clock w)
  (w_ticks w) (w_slept w) (w_inbox w) (w_active w) (w_metrics w) (w_reports w).
Definition set_ticks (w : Worker) n := mkWorker (w_job w) (w_tiers w) (w_log w) (w_emitter w) (w_clock w)
  n (w_slept w) (w_inbox w) (w_active w) (w_metrics w) (w_reports w).
Definition set_slept (w : Worker) l := mkWorker (w_job w) (w_tiers w) (w_log w) (w_emitter w) (w_clock w)
  (w_ticks w) l (w_inbox w) (w_active w) (w_metrics w) (w_reports w).
Definition set_inbox (w : Worker) l := mkWorker (w_job w) (w_tiers w) (w_log w) (w_emitter w) (w_clock w)
  (w_ticks w) (w_slept w) l (w_active w) (w_metrics w) (w_reports w).
Definition set_active (w : Worker) n := mkWorker (w_job w) (w_tiers w) (w_log w) (w_emitter w) (w_clock w)
  (w_ticks w) (w_slept w) (w_inbox w) n (w_metrics w) (w_reports w).
Definition set_metrics (w : Worker) m := mkWorker (w_job w) (w_tiers w) (w_log w) (w_emitter w) (w_clock w)
  (w_ticks w) (w_slept w) (w_inbox w) (w_active w) m (w_reports w).
Definition set_reports (w : Worker) l := mkWorker (w_job w) (w_tiers w) (w_log w) (w_emitter w) (w_clock w)
  (w_ticks w) (w_slept w) (w_inbox w) (w_active w) (w_metrics w) l.

Definition current_timestamp : WM Z := fun w => (Ok (w_clock w (w_ticks w)), set_ticks w (Nat.succ (w_ticks w))).
Definition trace (e : Z -> Tr.TraceEvent) : WM unit :=
  now <- current_timestamp ;;
  fun w => let '(o, l) := record (e now) (w_log w) in (o, set_log w l).
Definition emit_event (e : Ev.Event) : WM unit :=
  fun w => match w_emitter w with
           | Some em => let now := w_clock w (w_ticks w) in
               (Ok tt, set_emitter (set_ticks w (Nat.succ (w_ticks w))) (Some (try_emit now e em).2))
           | None => (Ok tt, w)
           end.
Definition goto (st : TransferState) : WM unit :=
  modify (fun w => set_job w (transition_state st (w_job w))).
Definition on_job {A} (m : M TransferJob GhostError A) : WM A := fun w =>
  let '(o, j) := m (w_job w) in (o, set_job w j).

(** [.map_err(|e| GhostError::BackendError(e.to_string()))]. *)
Definition be_call {A} (m : M S BackendError A) : M S GhostError A := fun s =>
  let '(o, s') := m s in (map_err (fun e => EBackendError (backend_error_display e)) o, s').

Definition read_from_backend (size : Z) : M S GhostError (list byte) :=
  a <- be_call (be_allocate size) ;;
  be_call (be_write a (replicate (Z.to_nat size) Byte.x00)) ;;;
  buf <- be_call (be_read a (replicate (Z.to_nat size) Byte.x00)) ;;
  be_call (be_deallocate a) ;;;
  ret buf.

Definition write_to_backend (data : list byte) : M S GhostError unit :=
  a <- be_call (be_allocate (Z.of_nat (length data))) ;;
  be_call (be_write a data) ;;;
  be_call (be_deallocate a).

(** Run a call on the backend of tier [t], [TierUnavailable] when there is
    none. *)
Definition on_tier {A} (t : TierId) (m : M S GhostError A) : WM A := fun w =>
  match w_tiers w !! t with
  | None => (Err (TierUnavailable t), w)
  | Some s => let '(o, s') := m s in (o, set_tiers w (<[t := s']> (w_tiers w)))
  end.

(** [if let Err(e) = m { last_error = ..; continue }]. *)
Definition caught {A} (m : WM A) : WM (option GhostError) := fun w =>
  match m w with
  | (Ok _, w') => (Ok None, w')
  | (Err e, w') => (Ok (Some e), w')
  | (Panic p, w') => (Panic p, w')
  end.

Section transfer.
Context (b : Build) (c : WorkerPoolConfig) (elapsed_ms : Z).

Definition before_retry (attempt : Z) : WM unit :=
  if 0 <? attempt then
    on_job (record_attempt b) ;;;
    w <- gets id ;;
    let j := w_job w in
    emit_event (Ev.RetryAttempted 0 (job_chunk j) attempt (max_retries c)) ;;;
    trace (Tr.TransferRetry (job_chunk j) (from_tier j) (to_tier j) attempt) ;;;
    d <- lift (backoff b (retry_base_delay_ms c) (max_retry_delay_ms c) attempt) ;;
    modify (fun w => set_slept w (w_slept w ++ [d]))
  else ret tt.

(** Step 2 passes the data through and only records that it did. *)
Definition compress_step (j : TransferJob) : WM unit :=
  if enable_compression c && (0 <? job_size j) then
    goto Compressing ;;;
    trace (Tr.CompressionStarted (job_chunk j) (job_size j)) ;;;
    trace (Tr.CompressionCompleted (job_chunk j) (job_size j) (job_size j))
  else ret tt.

(** [backends.get(&t).ok_or(..)?]. *)
Definition need_tier (t : TierId) : WM unit := fun w =>
  match w_tiers w !! t with
  | None => (Err (TierUnavailable t), w)
  | Some _ => (Ok tt, w)
  end.

(** The body of the retry loop: [None] when the transfer is complete, the
    error to remember when the write failed. *)
Definition attempt_once (attempt : Z) : WM (option GhostError) :=
  before_retry attempt ;;;
  w <- gets id ;;
  let j := w_job w in
  goto Transferring ;;;
  trace (Tr.ChunkStateChanged (job_chunk j) Stored Migrating) ;;;
  data <- on_tier (from_tier j) (read_from_backend (job_size j)) ;;
  compress_step j ;;;
  goto Writing ;;;
  need_tier (to_tier j) ;;;
  r <- caught (on_tier (to_tier j) (write_to_backend data)) ;;
  match r with
  | Some e => ret (Some (EBackendError (ghost_error_display e)))
  | None =>
      goto Verifying ;;;
      goto TComplete ;;;
      trace (Tr.TransferCompleted (job_chunk j) (from_tier j) (to_tier j) (job_size j) elapsed_ms) ;;;
      ret None
  end.

Fixpoint retry_loop (n : nat) (attempt : Z) (last_error : option GhostError) : WM unit :=
  match n with
  | O =>
      goto TFailed ;;;
      throw (default (EInternal "transfer failed after max retries") last_error)
  | Datatypes.S n =>
      r <- attempt_once attempt ;;
      match r with
      | None => ret tt
      | Some e => retry_loop n (attempt + 1) (Some e)
      end
  end.

Definition execute_transfer : WM unit :=
  w <- gets id ;;
  trace (Tr.TransferStarted (w_job w)) ;;;
  retry_loop (Z.to_nat (max_retries c + 1)) 0 None.
End transfer.

(** ** The worker loop *)

Definition report (worker_id : Z) (timestamp : Z) (err : option GhostError) : WM unit :=
  w <- gets id ;;
  let j := w_job w in
  if decide (from_tier j = to_tier j) then ret tt
  else modify (fun w => set_reports w (w_reports w ++
         [mkCompletion (job_chunk j) (from_tier j) (to_tier j)
            (match err with None => true | Some _ => false end)
            (ghost_error_display <$> err) worker_id timestamp])).

Definition update_metrics (f : TransferMetrics -> TransferMetrics) : WM unit :=
  modify (fun w => set_metrics w (f (w_metrics w))).

(** [trace_log.record] with a timestamp read earlier. *)
Definition trace_at (e : Tr.TraceEvent) : WM unit :=
  fun w => let '(o, l) := record e (w_log w) in (o, set_log w l).

(** The [match result] of the loop. *)
Definition conclude (worker_id timestamp : Z) (result : option GhostError) : WM unit :=
  w <- gets id ;;
  let j := w_job w in
  match result with
  | None =>
      update_metrics record_completion ;;;
      emit_event (Ev.TransferCompleted 0 (job_chunk j) (from_tier j) (to_tier j) 0) ;;;
      (if decide (from_tier j = to_tier j) then ret tt
       else emit_event (Ev.MigrationCompleted 0 (job_chunk j) (from_tier j) (to_tier j) 0)) ;;;
      report worker_id timestamp None
  | Some ECancelled =>
      update_metrics record_cancellation ;;;
      trace_at (Tr.TransferCancelled (job_chunk j) (from_tier j) (to_tier j) timestamp)
  | Some e =>
      update_metrics record_job_failure ;;;
      emit_event (Ev.TransferFailed 0 (job_chunk j) (from_tier j) (to_tier j)
        (ghost_error_display e)) ;;;
      trace_at (Tr.TransferFailed (job_chunk j) (from_tier j) (to_tier j)
        (ghost_error_display e) (attempts j) timestamp) ;;;
      report worker_id timestamp (Some e)
  end.

(** One turn of the loop of a worker: the [Ok(job)] branch of [try_recv] when
    the channel holds a job; [false] when it is empty and the worker sleeps. *)
Definition work_once (b : Build) (c : WorkerPoolConfig) (elapsed_ms worker_id : Z) : WM bool :=
  w <- gets id ;;
  match w_inbox w with
  | [] => ret false
  | j :: rest =>
      modify (fun w => set_active (set_job (set_inbox w rest) j) (wrap 64 (w_active w + 1))) ;;;
      result <- caught (execute_transfer b c elapsed_ms) ;;
      timestamp <- current_timestamp ;;
      conclude worker_id timestamp result ;;;
      size <- gets (fun w => job_size (w_job w)) ;;
      update_metrics (record_bytes size) ;;;
      modify (fun w => set_active w (wrap 64 (w_active w - 1))) ;;;
      ret true
  end.

(** ** Backoff *)

Lemma backoff_exact {E} b base cap attempt :
  0 <= base -> 1 <= attempt <= 64 -> base * 2 ^ (attempt - 1) < 2 ^ 64 ->
  backoff (E := E) b base cap attempt = Ok (Z.min (base * 2 ^ (attempt - 1)) cap).
Proof.
  intros Hb Ha Hw. unfold backoff, shl_one. rewrite (proj2 (Z.ltb_lt _ _)) by lia. simpl.
  rewrite arith_in; [done|]. unfold in_u. nia.
Qed.

(** The delay grows with the attempt until the cap, as long as the product
    fits 64 bits; beyond that a debug build panics, and a release build sleeps
    for an unrelated but still capped time. *)
Lemma backoff_spec {E} b base cap attempt :
  0 < base < 2 ^ 64 -> 0 <= cap -> 1 <= attempt ->
  (attempt <= 64 /\ base * 2 ^ (attempt - 1) < 2 ^ 64 ->
     backoff (E := E) b base cap attempt = Ok (Z.min (base * 2 ^ (attempt - 1)) cap)) /\
  (~ (attempt <= 64 /\ base * 2 ^ (attempt - 1) < 2 ^ 64) ->
     match b with
     | Debug => is_panic (backoff (E := E) b base cap attempt) = true
     | Release => exists d, backoff (E := E) b base cap attempt = Ok d /\ 0 <= d <= cap
     end).
Proof.
  intros Hb Hc Ha. split; [intros [? ?]; apply backoff_exact; lia|].
  intros Hn. unfold backoff, shl_one. destruct (attempt - 1 <? 64) eqn:E1; bool_to_prop; simpl.
  - unfold arith.
    destruct (in_ub 64 (base * 2 ^ (attempt - 1))) eqn:E2.
    { apply in_ub_spec in E2. unfold in_u in E2. lia. }
    destruct b; simpl; [done|]. eexists. split; [done|].
    pose proof (wrap_range 64 (base * 2 ^ (attempt - 1))). unfold in_u in *. lia.
  - destruct b; simpl; [done|]. unfold arith.
    pose proof (Z.pow_nonneg 2 ((attempt - 1) mod 64)).
    pose proof (wrap_range 64 (base * 2 ^ ((attempt - 1) mod 64))). unfold in_u in *.
    case_match; simpl; eexists; (split; [done|]); nia.
Qed.

(** ** Rules for the worker's steps *)

Definition next_now (w : Worker) : Z := w_clock w (w_ticks w).

Lemma wp_trace (e : Z -> Tr.TraceEvent) Q w :
  (forall l n, last (log_events l) = Some (e (next_now w)) ->
     (healthy_log (w_log w) -> healthy_log l) -> Q (Ok tt) (set_log (set_ticks w n) l)) ->
  (forall p w', ~ healthy_log (w_log w) -> Q (Panic p) w') -> wp (trace e) Q w.
Proof.
  intros H1 H2. unfold wp, trace, bind, current_timestamp. simpl.
  destruct (record (e (w_clock w (w_ticks w))) (w_log w)) as [o l] eqn:E. simpl.
  assert (healthy_log (w_log w) -> o = Ok tt /\ healthy_log l) as Hh.
  { intros Hh. destruct (record_healthy (E := GhostError) (e (w_clock w (w_ticks w))) (w_log w) Hh)
      as (l' & E' & ? & _). rewrite E in E'. by simplify_eq. }
  destruct o as [[]|e'|p].
  - apply record_last in E. apply H1; [done|]. by intros []%Hh.
  - revert E. unfold record. by repeat case_match.
  - apply H2. intros []%Hh. done.
Qed.

Lemma wp_now Q w : Q (Ok (next_now w)) (set_ticks w (Nat.succ (w_ticks w))) -> wp current_timestamp Q w.
Proof. done. Qed.

Lemma wp_emit e Q w :
  (forall em n, Q (Ok tt) (set_emitter (set_ticks w n) em)) -> wp (emit_event e) Q w.
Proof.
  intros H. unfold wp, emit_event. destruct (w_emitter w) as [em|] eqn:E; simpl; [apply H|].
  specialize (H None (w_ticks w)). rewrite <- E in H. by destruct w.
Qed.

Lemma wp_on_tier {A} t (m : M S GhostError A) Q w :
  (w_tiers w !! t = None -> Q (Err (TierUnavailable t)) w) ->
  (forall s o s', w_tiers w !! t = Some s -> m s = (o, s') ->
     Q o (set_tiers w (<[t := s']> (w_tiers w)))) ->
  wp (on_tier t m) Q w.
Proof.
  intros H1 H2. unfold wp, on_tier. destruct (w_tiers w !! t) as [s|]; [|by apply H1].
  destruct (m s) as [o s'] eqn:E. by apply (H2 s).
Qed.

Lemma wp_caught {A} (m : WM A) Q w :
  wp m (fun o w' => match o with
                    | Ok _ => Q (Ok None) w'
                    | Err e => Q (Ok (Some e)) w'
                    | Panic p => Q (Panic p) w'
                    end) w -> wp (caught m) Q w.
Proof. unfold wp, caught. by destruct (m w) as [[a|e|p] w']. Qed.

(** Every error of the two helpers is a [BackendError]. *)
Definition backend_errors {A} (m : M S GhostError A) : Prop :=
  forall s e s', m s = (Err e, s') -> exists msg, e = EBackendError msg.

Lemma backend_errors_call {A} (m : M S BackendError A) : backend_errors (be_call m).
Proof. intros s e s'. unfold be_call. destruct (m s) as [[a|e'|p] s1]; simpl; intros; simplify_eq; eauto. Qed.

Lemma backend_errors_bind {A B} (m : M S GhostError A) (k : A -> M S GhostError B) :
  backend_errors m -> (forall a, backend_errors (k a)) -> backend_errors (bind m k).
Proof.
  intros Hm Hk s e s'. unfold bind. destruct (m s) as [[a|e'|p] s1] eqn:E; intros; simplify_eq; eauto.
  by eapply Hk.
Qed.

Lemma backend_errors_ret {A} (a : A) : backend_errors (ret a).
Proof. by intros s e s'. Qed.

Lemma read_errors n : backend_errors (read_from_backend n).
Proof.
  repeat (apply backend_errors_bind; [apply backend_errors_call|intros ?]). apply backend_errors_ret.
Qed.

Lemma write_errors d : backend_errors (write_to_backend d).
Proof.
  repeat (apply backend_errors_bind; [apply backend_errors_call|intros ?]). apply backend_errors_call.
Qed.

(** ** How an attempt ends *)

Definition job_at (j : TransferJob) (n : Z) (st : TransferState) : TransferJob :=
  set_state (set_attempts j n) st.

Definition completed_entry (j : TransferJob) (ms : Z) (w : Worker) : Prop :=
  exists t, last (log_events (w_log w)) =
    Some (Tr.TransferCompleted (job_chunk j) (from_tier j) (to_tier j) (job_size j) ms t).

Definition attempt_post (j : TransferJob) (n ms : Z) (o : outcome GhostError (option GhostError))
    (w : Worker) : Prop :=
  match o with
  | Panic _ => True
  | Ok None => w_job w = job_at j n TComplete /\ completed_entry j ms w
  | Ok (Some e) => w_job w = job_at j n Writing /\ exists m, e = EBackendError m
  | Err e =>
      w_job w = job_at j n Transferring /\
        (e = TierUnavailable (from_tier j) \/ exists m, e = EBackendError m) \/
      w_job w = job_at j n Writing /\ e = TierUnavailable (to_tier j)
  end.

Lemma wp_record_attempt b Q w :
  0 <= attempts (w_job w) -> attempts (w_job w) + 1 < 2 ^ 32 ->
  Q (Ok tt) (set_job w (set_attempts (w_job w) (attempts (w_job w) + 1))) ->
  wp (on_job (record_attempt b)) Q w.
Proof.
  intros H1 H2 HQ. unfold wp, on_job, record_attempt, bind, gets, lift, modify, id.
  by rewrite arith_in by (unfold in_u; lia).
Qed.

(** The delay before the last retry does not fit 64 bits, in a debug build. *)
Definition delay_overflows (b : Build) (c : WorkerPoolConfig) : Prop :=
  b = Debug /\ (64 < max_retries c \/ 2 ^ 64 <= retry_base_delay_ms c * 2 ^ (max_retries c - 1)).

Lemma backoff_panics b c a :
  0 <= retry_base_delay_ms c -> 1 <= a <= max_retries c ->
  is_panic (backoff (E := GhostError) b (retry_base_delay_ms c) (max_retry_delay_ms c) a) = true ->
  delay_overflows b c.
Proof.
  intros Hb Ha. destruct (decide (a <= 64 /\ retry_base_delay_ms c * 2 ^ (a - 1) < 2 ^ 64)) as [[H1 H2]|Hn].
  { rewrite backoff_exact by lia. done. }
  destruct b.
  - intros _. split; [done|]. destruct (decide (64 < max_retries c)) as [H|H]; [by left|right].
    assert (2 ^ (a - 1) <= 2 ^ (max_retries c - 1)) by (apply Z.pow_le_mono_r; lia). nia.
  - unfold backoff, shl_one, arith, obind. by repeat case_match.
Qed.

Lemma wp_before_retry b c attempt Q w :
  0 <= attempts (w_job w) -> (0 < attempt -> attempts (w_job w) + 1 < 2 ^ 32) ->
  let n := attempts (w_job w) + (if 0 <? attempt then 1 else 0) in
  (forall w', w_job w' = set_attempts (w_job w) n -> w_tiers w' = w_tiers w ->
     (healthy_log (w_log w) -> healthy_log (w_log w')) -> Q (Ok tt) w') ->
  (forall p w', (healthy_log (w_log w) ->
     w_tiers w' = w_tiers w /\ healthy_log (w_log w') /\
     (0 <= retry_base_delay_ms c -> delay_overflows b c)) -> Q (Panic p) w') ->
  attempt <= max_retries c -> wp (before_retry b c attempt) Q w.
Proof.
  intros H1 H2 n HQ HP Hmax. unfold before_retry. subst n. destruct (0 <? attempt) eqn:Hat; bool_to_prop.
  2:{ wp_step. apply HQ; [|done..]. rewrite Z.add_0_r. by destruct (w_job w). }
  wp_step. apply wp_record_attempt; [done|by apply H2|]. repeat wp_step.
  apply wp_emit. intros em k. wp_step. apply wp_trace; [|naive_solver].
  intros l k' _ Hl. repeat wp_step. destruct (backoff _ _ _ _) as [d|e|p] eqn:E; [|exfalso|].
  - wp_step. by apply HQ.
  - revert E. unfold backoff, shl_one, arith, obind. by repeat case_match.
  - apply HP. intros Hlog. split_and!; [done|by apply Hl|]. intros Hb.
    apply (backoff_panics b c attempt Hb); [lia|by rewrite E].
Qed.

Lemma wp_compress c j Q w :
  (forall w' st, w_job w' = set_state (w_job w) st -> w_tiers w' = w_tiers w ->
     (healthy_log (w_log w) -> healthy_log (w_log w')) -> Q (Ok tt) w') ->
  (forall p w', ~ healthy_log (w_log w) -> Q (Panic p) w') -> wp (compress_step c j) Q w.
Proof.
  intros HQ HP. unfold compress_step, goto. case_match.
  - repeat wp_step. apply wp_trace; [|by auto]. intros l k _ H1.
    apply wp_trace; [|simpl; by auto]. intros l' k' _ H2. eapply HQ; simpl; by auto.
  - wp_step. apply (HQ w (job_state (w_job w))); [|done..]. by destruct (w_job w).
Qed.

Lemma wp_need_tier t (Q : outcome GhostError unit -> Worker -> Prop) w :
  (w_tiers w !! t = None -> Q (Err (TierUnavailable t)) w) -> (is_Some (w_tiers w !! t) -> Q (Ok tt) w) ->
  wp (need_tier t) Q w.
Proof. intros H1 H2. unfold wp, need_tier. destruct (w_tiers w !! t); [by apply H2|by apply H1]. Qed.

Lemma attempt_once_post b c ms attempt w :
  0 <= attempts (w_job w) -> (0 < attempt -> attempts (w_job w) + 1 < 2 ^ 32) ->
  attempt <= max_retries c ->
  wp (attempt_once b c ms attempt)
    (attempt_post (w_job w) (attempts (w_job w) + (if 0 <? attempt then 1 else 0)) ms) w.
Proof.
  intros H1 H2 H3. set (n := _ + _). set (j := w_job w) in *. unfold attempt_once. wp_step.
  apply wp_before_retry; [done..| |done|done]. intros w1 Hj1 _ _. fold j in Hj1. fold n in Hj1.
  unfold goto. repeat wp_step.
  apply wp_trace; [|done]. intros l k _ _. unfold id. rewrite Hj1. simpl. repeat wp_step.
  apply wp_on_tier.
  { intros _. left. eauto. }
  simpl. intros s o s' _ Hr. destruct o as [data|e|p]; [|left; split; [done|right]|done].
  2:{ by eapply read_errors. }
  wp_step. apply wp_compress; [|done]. intros w2 st Hj2 _ _. simpl in Hj2.
  repeat wp_step. apply wp_need_tier; simpl; rewrite ?Hj2; [by right|]. intros Hsome.
  wp_step. apply wp_caught, wp_on_tier; [simpl; intros Hnone; rewrite Hnone in Hsome; by destruct Hsome|].
  simpl. intros s2 o s2' _ Hw. destruct o as [[]|e|p]; repeat wp_step;
    [|split; [by simpl; rewrite ?Hj2|by eauto]|done].
  apply wp_trace; [|done]. intros l' k' Hl _. repeat wp_step. split; [by simpl; rewrite ?Hj2|].
  eexists. exact Hl.
Qed.

(** What a transfer as a whole ends in. *)
Definition transfer_post (j : TransferJob) (max ms : Z) (o : outcome GhostError unit) (w : Worker) : Prop :=
  match o with
  | Panic _ => True
  | Ok _ => exists k, 0 <= k <= max /\ w_job w = job_at j (attempts j + k) TComplete /\ completed_entry j ms w
  | Err e =>
      w_job w = job_at j (attempts j + max) TFailed /\ (exists m, e = EBackendError m) \/
      (exists k, 0 <= k <= max /\
         (w_job w = job_at j (attempts j + k) Transferring /\
            (e = TierUnavailable (from_tier j) \/ exists m, e = EBackendError m) \/
          w_job w = job_at j (attempts j + k) Writing /\ e = TierUnavailable (to_tier j)))
  end.

Lemma retry_loop_post b c ms j n attempt last w st :
  let k := Z.max 0 (attempt - 1) in
  w_job w = job_at j (attempts j + k) st ->
  0 <= attempts j -> 0 <= attempt -> attempt + Z.of_nat n = max_retries c + 1 ->
  attempts j + max_retries c < 2 ^ 32 -> 0 <= max_retries c ->
  (attempt = 0 /\ last = None /\ (0 < n)%nat \/ 0 < attempt /\ exists m, last = Some (EBackendError m)) ->
  wp (retry_loop b c ms n attempt last) (transfer_post j (max_retries c) ms) w.
Proof.
  revert attempt last w st. induction n as [|n IH]; intros attempt last w st k Hj Ha Hat Hn Hmax Hm Hlast; simpl.
  - unfold goto. repeat wp_step. left. simpl. rewrite Hj.
    destruct Hlast as [(_ & _ & ?)|(? & m & ->)]; [lia|]. simpl. split; [|by eauto].
    assert (max_retries c = k) as -> by (unfold k; lia). done.
  - wp_step. eapply wp_mono; [apply attempt_once_post; rewrite ?Hj; simpl; lia|].
    rewrite Hj. simpl. intros o w' Hp.
    assert (attempts j + k + (if 0 <? attempt then 1 else 0) = attempts j + attempt) as E.
    { unfold k. destruct (0 <? attempt) eqn:?; bool_to_prop; lia. }
    rewrite E in Hp. destruct o as [[e|]|e|p]; simpl in Hp; [| | |done].
    + destruct Hp as [Hj' [m ->]]. eapply IH; try lia; [|by eauto with lia].
      rewrite Hj'. replace (Z.max 0 (attempt + 1 - 1)) with attempt by lia. done.
    + wp_step. exists attempt. destruct Hp as [Hj' Hl]. split_and!; [lia..|done|done].
    + right. exists attempt. split; [lia|]. exact Hp.
Qed.

Lemma execute_transfer_post b c ms w :
  0 <= attempts (w_job w) -> 0 <= max_retries c ->
  attempts (w_job w) + max_retries c < 2 ^ 32 ->
  wp (execute_transfer b c ms) (transfer_post (w_job w) (max_retries c) ms) w.
Proof.
  intros H1 H2 H3. unfold execute_transfer. repeat wp_step.
  apply wp_trace; [|done]. intros l k _ _.
  eapply (retry_loop_post _ _ _ _ _ _ _ _ (job_state (w_job w))); try lia; simpl.
  - rewrite Z.add_0_r. unfold id. by destruct (w_job w).
  - left. split_and!; [done..|lia].
Qed.

(** C5: how a transfer ends, whatever the backends do.  If it reports success
    the job is complete and the completion is the last trace entry; if every
    write failed the job is marked failed after exactly the configured number
    of retries; any other error (a missing tier, a failed read) aborts at once
    and leaves the job in a state that is not terminal.  Nothing else about the
    job changes. *)
Theorem transfer_outcomes b c ms w o w' :
  0 <= attempts (w_job w) -> 0 <= max_retries c ->
  attempts (w_job w) + max_retries c < 2 ^ 32 ->
  execute_transfer b c ms w = (o, w') ->
  transfer_post (w_job w) (max_retries c) ms o w'.
Proof. intros H1 H2 H3. apply wp_run. by apply execute_transfer_post. Qed.

(** ** What a transfer leaves behind in the tiers *)

Section accounts.
Context `{BB : !BackendBooks S}.

(** [s] keeps its books, has [u] bytes handed out and room for [k] units. *)
Definition holds (k : Z) (s : S) (u : Z) : Prop :=
  exists live, books k s live /\ sum_map id live = u.

Lemma wp_be_call {A} (m : M S BackendError A) (Q : outcome GhostError A -> S -> Prop) s :
  wp m (fun o => Q (map_err (fun e => EBackendError (backend_error_display e)) o)) s ->
  wp (be_call m) Q s.
Proof. unfold wp, be_call. by destruct (m s). Qed.

(** An allocation in flight: [live] before it, [a] handed out since. *)
Lemma wp_allocate k n s u (Q : outcome GhostError Allocation -> S -> Prop) :
  holds k s u -> 0 <= n <= k ->
  (forall a s' live, books (k - n) s' (<[offset a := n]> live) -> live !! offset a = None ->
     alloc_size a = n -> sum_map id live = u -> Q (Ok a) s') ->
  (forall e s', holds (k - n) s' u -> Q (Err e) s') ->
  wp (be_call (be_allocate n)) Q s.
Proof.
  intros (live & Hb & Hu) Hn H1 H2. apply wp_be_call. unfold wp.
  pose proof (books_allocate k n s live Hb Hn) as Ha.
  destruct (be_allocate n s) as [[a|e|p] s']; simpl; [| |done].
  - destruct Ha as (Hs & Hf & Hb'). by apply (H1 a s' live).
  - apply H2. by exists live.
Qed.

Lemma holds_weaken k k' s u : holds k s u -> k' <= k -> holds k' s u.
Proof. intros (live & Hb & Hu) Hk. exists live. split; [by eapply books_weaken|done]. Qed.

(** What is left behind: at most one allocation of [n] bytes. *)
Definition leaves (k : Z) (s : S) (u n : Z) : Prop :=
  exists l, 0 <= l <= 1 /\ holds k s (u + l * n).

Lemma leaves_none k k' s u n : holds k s u -> k' <= k -> leaves k' s u n.
Proof. intros Hh Hk. exists 0. rewrite Z.add_0_r. split; [lia|by eapply holds_weaken]. Qed.

Lemma leaves_one k k' s live u a n :
  books k s (<[offset a := n]> live) -> live !! offset a = None -> sum_map id live = u ->
  k' <= k -> leaves k' s u n.
Proof.
  intros Hb Hf <- Hk. exists 1. split; [lia|]. eexists. split; [by eapply books_weaken|].
  rewrite sum_map_insert by done. unfold id at 1. lia.
Qed.

Lemma wp_write_owned k a d s live n (Q : outcome GhostError unit -> S -> Prop) :
  books k s live -> 1 <= k -> live !! offset a = Some n -> alloc_size a = n ->
  (forall o s', books (k - 1) s' live -> is_panic o = false -> Q o s') ->
  wp (be_call (be_write a d)) Q s.
Proof.
  intros Hb Hk Ha <- HQ. apply wp_be_call. unfold wp.
  destruct (books_write k a d s live Hb Hk Ha) as [Hp Hb'].
  apply HQ; [done|]. by destruct (be_write a d s) as [[]].
Qed.

Lemma wp_read_owned k a buf s live n (Q : outcome GhostError (list byte) -> S -> Prop) :
  books k s live -> 1 <= k -> live !! offset a = Some n -> alloc_size a = n ->
  (forall o s', books (k - 1) s' live -> is_panic o = false ->
     (forall r, o = Ok r -> length r = length buf) -> Q o s') ->
  wp (be_call (be_read a buf)) Q s.
Proof.
  intros Hb Hk Ha <- HQ. apply wp_be_call. unfold wp.
  destruct (books_read k a buf s live Hb Hk Ha) as [Hp Hb'].
  pose proof (books_read_length k a buf s live) as Hl.
  destruct (be_read a buf s) as [o s'] eqn:E. apply HQ; [done|by destruct o|].
  destruct o; intros r ?; simplify_eq/=. eapply Hl; [done..|]. reflexivity.
Qed.

Lemma wp_return k a s live n (Q : outcome GhostError unit -> S -> Prop) :
  books k s (<[offset a := n]> live) -> live !! offset a = None -> alloc_size a = n ->
  (forall s', books k s' live -> Q (Ok tt) s') ->
  wp (be_call (be_deallocate a)) Q s.
Proof.
  intros Hb Hf <- HQ. apply wp_be_call. unfold wp.
  destruct (books_deallocate k a s _ Hb) as (s' & -> & Hb'); [apply lookup_insert_eq|].
  rewrite delete_insert_id in Hb' by done. by apply HQ.
Qed.

(** A read that fails after its allocation leaves the allocation behind. *)
Lemma read_books k n s u :
  holds k s u -> 0 <= n -> n + 2 <= k ->
  wp (read_from_backend n) (fun o s' =>
    match o with
    | Ok d => holds (k - n - 2) s' u /\ length d = Z.to_nat n
    | Err _ => leaves (k - n - 2) s' u n
    | Panic _ => False
    end) s.
Proof.
  intros Hh Hn Hk. unfold read_from_backend. wp_step. eapply wp_allocate; [exact Hh|lia|..].
  2:{ intros e s' Hh'. eapply leaves_none; [exact Hh'|lia]. }
  intros a s1 live Hb1 Hf Hs Hu. wp_step.
  eapply wp_write_owned; [exact Hb1|lia|apply lookup_insert_eq|done|].
  intros o s2 Hb2 Hp. destruct o as [[]|e|p]; [| |done].
  2:{ eapply leaves_one; [exact Hb2|done|done|lia]. }
  wp_step. eapply wp_read_owned; [exact Hb2|lia|apply lookup_insert_eq|done|].
  intros o s3 Hb3 Hp' Hl. destruct o as [d|e|p]; [| |done].
  2:{ eapply leaves_one; [exact Hb3|done|done|lia]. }
  wp_step. eapply wp_return; [exact Hb3|done|done|]. intros s4 Hb4. wp_step.
  split; [|by rewrite (Hl d), length_replicate]. exists live.
  split; [eapply books_weaken; [exact Hb4|lia]|done].
Qed.

Lemma write_books k d s u :
  holds k s u -> Z.of_nat (length d) + 1 <= k ->
  wp (write_to_backend d) (fun o s' =>
    match o with
    | Ok _ => holds (k - Z.of_nat (length d) - 1) s' u
    | Err _ => leaves (k - Z.of_nat (length d) - 1) s' u (Z.of_nat (length d))
    | Panic _ => False
    end) s.
Proof.
  intros Hh Hk. set (n := Z.of_nat (length d)) in *. unfold write_to_backend. wp_step.
  eapply wp_allocate; [exact Hh|lia|..].
  2:{ intros e s' Hh'. eapply leaves_none; [exact Hh'|lia]. }
  intros a s1 live Hb1 Hf Hs Hu. wp_step.
  eapply wp_write_owned; [exact Hb1|lia|apply lookup_insert_eq|done|].
  intros o s2 Hb2 Hp. destruct o as [[]|e|p]; [| |done].
  2:{ eapply leaves_one; [exact Hb2|done|done|lia]. }
  eapply wp_return; [exact Hb2|done|done|]. intros s3 Hb3. exists live.
  split; [eapply books_weaken; [exact Hb3|lia]|done].
Qed.

(** The two tiers of job [j]: the log accepts entries, the source holds [u]
    bytes and the target [v], both with room for [k] units. *)
Definition tiers_hold (j : TransferJob) (k : Z) (w : Worker) (u v : Z) : Prop :=
  healthy_log (w_log w) /\
  (exists s, w_tiers w !! from_tier j = Some s /\ holds k s u) /\
  (exists t, w_tiers w !! to_tier j = Some t /\ holds k t v).

Lemma tiers_weaken j k k' w u v : tiers_hold j k w u v -> k' <= k -> tiers_hold j k' w u v.
Proof.
  intros (Hl & (s & Hs & Hu) & (t & Ht & Hv)) Hk.
  split_and!; [done|exists s|exists t]; eauto using holds_weaken.
Qed.

Lemma tiers_after j k ks kt w (m : gmap TierId S) s t u v :
  healthy_log (w_log w) ->
  w_tiers w = <[to_tier j := t]> (<[from_tier j := s]> m) -> from_tier j <> to_tier j ->
  holds ks s u -> holds kt t v -> k <= ks -> k <= kt -> tiers_hold j k w u v.
Proof.
  intros Hl E Hne Hu Hv H1 H2. split_and!; [done|exists s|exists t]; rewrite E.
  - rewrite lookup_insert_ne, lookup_insert_eq by done. split; [done|by eapply holds_weaken].
  - rewrite lookup_insert_eq. split; [done|by eapply holds_weaken].
Qed.

Lemma attempt_books b c ms attempt w k u v :
  let j := w_job w in
  0 <= attempts j -> (0 < attempt -> attempts j + 1 < 2 ^ 32) -> attempt <= max_retries c ->
  0 <= retry_base_delay_ms c -> from_tier j <> to_tier j -> 0 <= job_size j -> job_size j + 2 <= k ->
  tiers_hold j k w u v ->
  let k' := k - job_size j - 2 in
  wp (attempt_once b c ms attempt) (fun o w' =>
    match o with
    | Ok None => tiers_hold j k' w' u v
    | Ok (Some _) => exists l, 0 <= l <= 1 /\ tiers_hold j k' w' u (v + l * job_size j)
    | Err _ => exists l, 0 <= l <= 1 /\ tiers_hold j k' w' (u + l * job_size j) v
    | Panic _ => delay_overflows b c /\ tiers_hold j k' w' u v
    end) w.
Proof.
  intros j Ha Hat Hmax Hd Hne Hsz Hk (Hlog & (s & Hs & Hu) & (t & Ht & Hv)) k'.
  unfold attempt_once. wp_step. apply wp_before_retry; [done..| | |done].
  2:{ intros p w' Hp. destruct (Hp Hlog) as (E & Hl & Ho). split; [by apply Ho|].
      apply (tiers_weaken j k); [|lia]. unfold tiers_hold. rewrite E. split_and!; [done|by exists s|by exists t]. }
  intros w1 Hj1 Ht1 Hl1. specialize (Hl1 Hlog). unfold goto. repeat wp_step.
  apply wp_trace; [|naive_solver]. intros l0 k0 _ Hl. specialize (Hl Hl1). unfold id. rewrite Hj1. simpl.
  fold j. repeat wp_step. apply wp_on_tier; simpl; rewrite Ht1, Hs; [done|].
  intros s0 o s1 [= <-] Hr. pose proof (wp_run _ _ _ _ _ (read_books k (job_size j) s u Hu Hsz Hk) Hr) as Hread.
  destruct o as [data|e|p]; [| |done].
  2:{ destruct Hread as (l & Hl01 & Hh). exists l. split; [done|]. split_and!; [done|..]; simpl.
      - exists s1. by rewrite lookup_insert_eq.
      - exists t. rewrite lookup_insert_ne by done. split; [done|]. eapply holds_weaken; [done|lia]. }
  destruct Hread as [Hu1 Hlen]. wp_step. apply wp_compress; simpl; [|naive_solver].
  intros w2 st Hj2 Ht2 Hl2. specialize (Hl2 Hl). simpl in Ht2. repeat wp_step.
  apply wp_need_tier; simpl; rewrite Ht2, lookup_insert_ne, Ht by done; [done|]. intros _.
  wp_step. apply wp_caught, wp_on_tier; simpl; rewrite Ht2, lookup_insert_ne, Ht by done; [done|].
  intros t0 o t1 [= <-] Hw.
  pose proof (wp_run _ _ _ _ _ (write_books k data t v Hv ltac:(lia)) Hw) as Hwrite.
  rewrite Hlen, Z2Nat.id in Hwrite by done.
  destruct o as [[]|e|p]; repeat wp_step; [| |done].
  - apply wp_trace; simpl; [|naive_solver]. intros l1 k1 _ Hl3. repeat wp_step.
    eapply tiers_after; simpl; [by auto|by rewrite ?Ht2|done|exact Hu1|exact Hwrite|lia..].
  - destruct Hwrite as (l & Hl01 & Hv'). exists l. split; [done|].
    eapply tiers_after; simpl; [by auto|by rewrite ?Ht2|done|exact Hu1|exact Hv'|lia..].
Qed.

(** The whole loop: the target keeps at most one allocation per failed write,
    the source one only if its own read failed. *)
Lemma retry_loop_books b c ms j n attempt last w st k u v :
  w_job w = job_at j (attempts j + Z.max 0 (attempt - 1)) st ->
  0 <= attempts j -> 0 <= attempt -> attempt + Z.of_nat n = max_retries c + 1 ->
  attempts j + max_retries c < 2 ^ 32 -> 0 <= max_retries c ->
  0 <= retry_base_delay_ms c -> from_tier j <> to_tier j -> 0 <= job_size j ->
  Z.of_nat n * (job_size j + 2) <= k -> tiers_hold j k w u v ->
  wp (retry_loop b c ms n attempt last) (fun o w' =>
    exists ls lt, 0 <= ls /\ 0 <= lt /\
    tiers_hold j 0 w' (u + ls * job_size j) (v + lt * job_size j) /\
    match o with
    | Ok _ => ls = 0 /\ lt <= attempts (w_job w') - attempts j - attempt
    | Err _ => ls + lt <= Z.of_nat n
    | Panic _ => delay_overflows b c /\ ls = 0 /\ lt < Z.of_nat n
    end) w.
Proof.
  revert attempt last w st k v. induction n as [|n IH];
    intros attempt last w st k v Hj Ha Hat Hn Hmax Hm Hd Hne Hsz Hk Hth; simpl.
  - unfold goto. repeat wp_step. exists 0, 0. rewrite !Z.add_0_r. split_and!; [done..| |done].
    by eapply tiers_weaken.
  - wp_step. assert (from_tier (w_job w) = from_tier j /\ to_tier (w_job w) = to_tier j /\
      job_size (w_job w) = job_size j) as (E1 & E2 & E3) by (by rewrite Hj).
    assert (attempts (w_job w) = attempts j + Z.max 0 (attempt - 1)) as E4 by (by rewrite Hj).
    assert (tiers_hold (w_job w) k w u v) as Hth' by (unfold tiers_hold in *; by rewrite E1, E2).
    eapply wp_mono; [apply wp_and; [apply attempt_once_post|apply (attempt_books b c ms attempt w k u v)];
      rewrite ?E1, ?E2, ?E3, ?E4; try done; try lia; nia|].
    rewrite E3, E4. intros o w' [Hp Hb].
    assert (attempts j + Z.max 0 (attempt - 1) + (if 0 <? attempt then 1 else 0)
            = attempts j + attempt) as E by (destruct (0 <? attempt) eqn:?; bool_to_prop; lia).
    rewrite E in Hp. unfold tiers_hold in Hb. rewrite E1, E2 in Hb. fold (tiers_hold j) in Hb.
    destruct o as [[e|]|e|p]; simpl in Hp, Hb.
    + destruct Hp as [Hj' _], Hb as (l & Hl & Hth2).
      eapply wp_mono; [eapply (IH (attempt + 1) _ w' Writing (k - job_size j - 2) (v + l * job_size j)); try done; try lia|].
      * rewrite Hj', Hj. replace (Z.max 0 (attempt + 1 - 1)) with attempt by lia. done.
      * intros o w3 (ls & lt & H1 & H2 & H3 & H4). exists ls, (l + lt).
        split_and!; [done|lia| |destruct o; [lia|lia|split_and!; [apply H4|apply H4|lia]]].
        by replace (v + (l + lt) * job_size j) with (v + l * job_size j + lt * job_size j) by lia.
    + wp_step. exists 0, 0. rewrite !Z.add_0_r. destruct Hp as [-> _]. simpl.
      split_and!; [done..|by eapply tiers_weaken; [exact Hb|nia]|done|lia].
    + destruct Hb as (l & Hl & Hb). exists l, 0. rewrite !Z.add_0_r.
      split_and!; [lia|done|by eapply tiers_weaken; [exact Hb|nia]|lia].
    + destruct Hb as [Ho Hb]. exists 0, 0. rewrite !Z.add_0_r.
      split_and!; [done..|by eapply tiers_weaken; [exact Hb|nia]|done|done|lia].
Qed.

(** C4: a transfer between two different tiers of the pool that keep their
    books and have room for one allocation of the job's size per attempt, with
    a trace log that accepts entries, leaves bounded traces whatever fails: a
    completed transfer leaves the source as it was and the target with at most
    one stray allocation of the job's size per retry, so none when the first
    attempt succeeds; a failed one leaves at most one stray allocation per
    attempt.  It panics only in a debug build whose last backoff delay does not
    fit 64 bits, and then leaves at most one stray allocation per retry in the
    target. *)
Theorem transfer_accounts b c ms w k u v :
  let j := w_job w in
  0 <= attempts j -> 0 <= max_retries c -> attempts j + max_retries c < 2 ^ 32 ->
  0 <= retry_base_delay_ms c -> from_tier j <> to_tier j -> 0 <= job_size j ->
  (max_retries c + 1) * (job_size j + 2) <= k -> tiers_hold j k w u v ->
  let '(o, w') := execute_transfer b c ms w in
  exists ls lt, 0 <= ls /\ 0 <= lt /\
  tiers_hold j 0 w' (u + ls * job_size j) (v + lt * job_size j) /\
  match o with
  | Ok _ => ls = 0 /\ lt <= attempts (w_job w') - attempts j
  | Err _ => ls + lt <= max_retries c + 1
  | Panic _ => delay_overflows b c /\ ls = 0 /\ lt <= max_retries c
  end.
Proof.
  intros j Ha Hm Hmax Hd Hne Hsz Hk Hth. destruct (execute_transfer b c ms w) as [o w'] eqn:E.
  pattern o, w'. eapply wp_run; [|exact E]. unfold execute_transfer. repeat wp_step.
  apply wp_trace; [|intros p w3 []; apply Hth]. intros l n _ Hl.
  eapply wp_mono; [eapply (retry_loop_books b c ms j _ 0 None _ (job_state j) k u v); try done; try lia|].
  - simpl. rewrite Z.add_0_r. unfold id. fold j. by destruct j.
  - destruct Hth as (Hlog & Hs & Ht). split_and!; simpl; auto.
  - intros o' w3 (ls & lt & H1 & H2 & H3 & H4). exists ls, lt. split_and!; try done.
    destruct o'; [lia|lia|split_and!; [apply H4|apply H4|lia]].
Qed.
End accounts.

(** ** The worker loop reports each job once *)

(** What a transfer does not touch. *)
Definition same_desk (w w' : Worker) : Prop :=
  w_inbox w' = w_inbox w /\ w_active w' = w_active w /\ w_metrics w' = w_metrics w /\
  w_reports w' = w_reports w.

Section desk.
Context (w0 : Worker).
Let I := same_desk w0.

Lemma desk_trace e : preserves I (trace e).
Proof.
  intros w Hw. unfold trace, bind, current_timestamp. simpl. by destruct (record _ _).
Qed.
Lemma desk_emit e : preserves I (emit_event e).
Proof. intros w Hw. unfold emit_event. by destruct (w_emitter w). Qed.
Lemma desk_goto st : preserves I (goto st).
Proof. by intros w Hw. Qed.
Lemma desk_job {A} (m : M TransferJob GhostError A) : preserves I (on_job m).
Proof. intros w Hw. unfold on_job. by destruct (m (w_job w)). Qed.
Lemma desk_tier {A} t (m : M S GhostError A) : preserves I (on_tier t m).
Proof. intros w Hw. unfold on_tier. destruct (w_tiers w !! t) as [s|]; [by destruct (m s)|done]. Qed.
Lemma desk_need t : preserves I (need_tier t).
Proof. intros w Hw. unfold need_tier. by destruct (w_tiers w !! t). Qed.
Lemma desk_caught {A} (m : WM A) : preserves I m -> preserves I (caught m).
Proof. intros Hm w Hw. specialize (Hm w Hw). unfold caught. by destruct (m w) as [[]]. Qed.

Lemma desk_attempt b c ms a : preserves I (attempt_once b c ms a).
Proof.
  unfold attempt_once, before_retry, compress_step.
  repeat first [apply desk_trace | apply desk_emit | apply desk_goto | apply desk_job
    | apply desk_need | apply desk_caught | apply desk_tier | apply preserves_ret
    | apply preserves_gets | apply preserves_lift | by intros w Hw
    | apply preserves_bind; [|intros ?] | case_match].
Qed.

Lemma desk_loop b c ms n a last : preserves I (retry_loop b c ms n a last).
Proof.
  revert a last. induction n as [|n IH]; intros a last; simpl; [by intros w Hw|].
  apply preserves_bind; [apply desk_attempt|]. intros [e|]; [apply IH|apply preserves_ret].
Qed.

Lemma desk_transfer b c ms : preserves I (execute_transfer b c ms).
Proof.
  apply preserves_bind; [apply preserves_gets|]. intros w.
  apply preserves_bind; [apply desk_trace|]. intros _. apply desk_loop.
Qed.
End desk.

Lemma desk_wp b c ms w : wp (execute_transfer b c ms) (fun _ => same_desk w) w.
Proof. by apply desk_transfer. Qed.

Lemma wp_trace_at e (Q : outcome GhostError unit -> Worker -> Prop) w :
  (forall l, Q (Ok tt) (set_log w l)) -> (forall p w', Q (Panic p) w') -> wp (trace_at e) Q w.
Proof.
  intros H1 H2. unfold wp, trace_at. destruct (record e (w_log w)) as [[[]|e'|p] l] eqn:E; simpl; [done| |done].
  revert E. unfold record. by repeat case_match.
Qed.

(** The report of a finished job. *)
Definition completion (j : TransferJob) (err : option GhostError) (wid ts : Z) : WorkerCompletion :=
  mkCompletion (job_chunk j) (from_tier j) (to_tier j)
    (match err with None => true | Some _ => false end) (ghost_error_display <$> err) wid ts.

Lemma wp_report wid ts err (Q : outcome GhostError unit -> Worker -> Prop) w :
  Q (Ok tt) (if decide (from_tier (w_job w) = to_tier (w_job w)) then w
             else set_reports w (w_reports w ++ [completion (w_job w) err wid ts])) ->
  wp (report wid ts err) Q w.
Proof. intros HQ. unfold report. repeat wp_step. unfold id. by case_match. Qed.

Definition reports_of (j : TransferJob) (err : option GhostError) (wid ts : Z) : list WorkerCompletion :=
  if decide (from_tier j = to_tier j) then [] else [completion j err wid ts].

Lemma wp_conclude wid ts err (Q : outcome GhostError unit -> Worker -> Prop) w :
  err <> Some ECancelled ->
  (forall w', w_job w' = w_job w -> w_inbox w' = w_inbox w -> w_active w' = w_active w ->
     w_metrics w' = (match err with None => record_completion | Some _ => record_job_failure end) (w_metrics w) ->
     w_reports w' = w_reports w ++ reports_of (w_job w) err wid ts -> Q (Ok tt) w') ->
  (forall p w', Q (Panic p) w') -> wp (conclude wid ts err) Q w.
Proof.
  intros Hc HQ HP. unfold conclude, update_metrics. repeat wp_step. unfold id.
  assert (forall w1, w_job w1 = w_job w -> w_inbox w1 = w_inbox w -> w_active w1 = w_active w ->
     w_metrics w1 = (match err with None => record_completion | Some _ => record_job_failure end) (w_metrics w) ->
     w_reports w1 = w_reports w -> wp (report wid ts err) Q w1) as Hrep.
  { intros w1 E1 E2 E3 E4 E5. apply wp_report. rewrite E1, E5. unfold reports_of in HQ.
    destruct (decide (from_tier (w_job w) = to_tier (w_job w))); apply HQ; simpl; rewrite ?app_nil_r; done. }
  destruct err as [e|].
  - assert (forall A (x y : A), match e with ECancelled => x | _ => y end = y) as -> by (by destruct e).
    repeat wp_step. apply wp_emit. intros em k. wp_step. apply wp_trace_at; [|done]. intros l. by apply Hrep.
  - repeat wp_step. apply wp_emit. intros em k. wp_step. case_match; [by wp_step; apply Hrep|].
    apply wp_emit. intros em' k'. by apply Hrep.
Qed.

(** [w'] is [w] with the job [j] settled: counted once, and reported once when
    it crosses tiers. *)
Definition settled (j : TransferJob) (wid : Z) (w w' : Worker) : Prop :=
  exists err ts, err <> Some ECancelled /\
    (err = None <-> job_state (w_job w') = TComplete) /\
    w_metrics w' = record_bytes (job_size j)
      (match err with None => record_completion | Some _ => record_job_failure end (w_metrics w)) /\
    w_reports w' = w_reports w ++ reports_of j err wid ts.

Lemma transfer_post_job j max ms o w :
  transfer_post j max ms o w -> is_panic o = false ->
  exists n st, w_job w = job_at j n st /\
    match o with Ok _ => st = TComplete | Err e => st <> TComplete /\ e <> ECancelled | Panic _ => True end.
Proof.
  intros Hp Ho. destruct o as [[]|e|p]; simpl in Hp; [| |done].
  - destruct Hp as (k & _ & Hj & _). eauto.
  - destruct Hp as [[Hj [m ->]]|(k & _ & [[Hj [-> |[m ->]]]|[Hj ->]])]; eexists _, _; (split; [exact Hj|]); done.
Qed.

(** One turn of a worker with a job in its channel either panics or takes
    exactly that job, leaves the count of active workers as it was, counts the
    job once as completed or failed, and tells the orchestrator exactly once
    when the job crosses tiers, with the outcome.  A cancellation is never
    recorded, and the bytes of failed jobs are counted as transferred. *)
Theorem work_once_settles b c ms wid w j rest o w' :
  w_inbox w = j :: rest -> in_u 64 (w_active w) ->
  0 <= attempts j -> 0 <= max_retries c -> attempts j + max_retries c < 2 ^ 32 ->
  work_once b c ms wid w = (o, w') ->
  match o with
  | Ok more => more = true /\ w_inbox w' = rest /\ w_active w' = w_active w /\ settled j wid w w'
  | Err _ => False
  | Panic _ => True
  end.
Proof.
  intros Hin Hact Ha Hm Hmax E. pattern o, w'. eapply wp_run; [|exact E]. clear E o w'.
  unfold work_once. repeat wp_step. unfold id. rewrite Hin. repeat wp_step.
  set (w1 := set_active _ _). apply wp_caught.
  eapply wp_mono; [apply wp_and; [by apply (execute_transfer_post b c ms w1)|apply desk_wp]|].
  intros o w2 [Hp (D1 & D2 & D3 & D4)]. simpl in D1, D2, D3, D4, Hp.
  destruct (is_panic o) eqn:Ho; [by destruct o|].
  destruct (transfer_post_job _ _ _ _ _ Hp Ho) as (n & st & Hj & Hst).
  assert (wrap 64 (w_active w2 - 1) = w_active w) as Hact'.
  { rewrite D2. simpl. unfold wrap in *. rewrite Zminus_mod_idemp_l, Z.add_simpl_r.
    by apply (wrap_in 64). }
  assert (exists err, o = match err with None => Ok tt | Some e => Err e end /\ err <> Some ECancelled /\
    (err = None <-> st = TComplete)) as (err & -> & Hnc & Hiff).
  { destruct o as [[]|e|p]; [exists None|exists (Some e)|done]; naive_solver. }
  assert (wp (timestamp <- current_timestamp ;; conclude wid timestamp err ;;;
      size <- gets (fun w => job_size (w_job w)) ;; update_metrics (record_bytes size) ;;;
      modify (fun w => set_active w (wrap 64 (w_active w - 1))) ;;; ret true)
    (fun o w' => match o with
                 | Ok more => more = true /\ w_inbox w' = rest /\ w_active w' = w_active w /\ settled j wid w w'
                 | Err _ => False
                 | Panic _ => True
                 end) w2) as Hfin; [|by destruct err].
  wp_step. apply wp_now. wp_step. apply wp_conclude; [done| |done]. simpl.
  intros w3 E1 E2 E3 E4 E5. unfold update_metrics. repeat wp_step. simpl.
  split_and!; [done|congruence|by rewrite E3|]. exists err. eexists. simpl.
  rewrite E1, E4, E5, Hj, D3, D4. split_and!; done.
Qed.

End worker.
Arguments Worker : clear implicits.

(** ** Pools of different backends *)

Section sum.
Context {S T : Type} `{SS : StorageBackend S} `{ST : StorageBackend T}.

Definition on_either {E A} (f : M S E A) (g : M T E A) : M (S + T) E A := fun st =>
  match st with
  | inl s => let '(o, s') := f s in (o, inl s')
  | inr t => let '(o, t') := g t in (o, inr t')
  end.

#[export] Instance sum_backend : StorageBackend (S + T) := {
  be_id st := match st with inl s => be_id s | inr t => be_id t end;
  be_capacity st := match st with inl s => be_capacity s | inr t => be_capacity t end;
  be_allocate n := on_either (be_allocate n) (be_allocate n);
  be_deallocate a := on_either (be_deallocate a) (be_deallocate a);
  be_write a d := on_either (be_write a d) (be_write a d);
  be_read a buf := on_either (be_read a buf) (be_read a buf);
}.

#[export] Instance sum_books `{BS : !BackendBooks S} `{BT : !BackendBooks T} : BackendBooks (S + T).
Proof.
  refine {| books k st live := match st with inl s => books k s live | inr t => books k t live end;
            bytes_used st := match st with inl s => bytes_used s | inr t => bytes_used t end |};
    simpl; unfold on_either.
  - intros k [s|t] live; apply books_used.
  - intros k k' [s|t] live; apply books_weaken.
  - intros k n [s|t] live Hb Hn; [pose proof (books_allocate k n s live Hb Hn) as H
      |pose proof (books_allocate k n t live Hb Hn) as H];
      destruct (be_allocate n _) as [[a|e|p] s']; done.
  - intros k a [s|t] live Hb Ha; destruct (books_deallocate k a _ live Hb Ha) as (s' & -> & H); eauto.
  - intros k a d [s|t] live Hb Hk Ha; [pose proof (books_write k a d s live Hb Hk Ha) as H
      |pose proof (books_write k a d t live Hb Hk Ha) as H];
      destruct (be_write a d _) as [o s']; done.
  - intros k a d [s|t] live Hb Hk Ha; [pose proof (books_read k a d s live Hb Hk Ha) as H
      |pose proof (books_read k a d t live Hb Hk Ha) as H];
      destruct (be_read a d _) as [o s']; done.
  - intros k a buf [s|t] live r s' Hb Hk Hr; [destruct (be_read a buf s) as [o s1] eqn:E
      |destruct (be_read a buf t) as [o t1] eqn:E]; simplify_eq;
      [exact (books_read_length k a buf s live r s1 Hb Hk E)|exact (books_read_length k a buf t live r t1 Hb Hk E)].
Defined.
End sum.

(** ** Instances *)

(** A pool of a RAM tier with room for 100 bytes and a simulated tier whose
    writes all fail, or none. *)
Abbreviation ExBackend := (RamBackend + @SimBackend ex_rng)%type.

#[local] Existing Instance ex_rng.
#[local] Existing Instance ex_blake3.

Definition ex_target (failing : bool) : @SimBackend ex_rng :=
  Sim_new 0 (if failing then ex_cfg else SimBackend.with_capacity 100).

#[local] Instance ex_ops : StorageBackend ExBackend :=
  @sum_backend RamBackend (@SimBackend ex_rng) (ram_backend Debug) (sim_backend 0).
#[local] Instance ex_books : BackendBooks ExBackend :=
  @sum_books RamBackend (@SimBackend ex_rng) (ram_backend Debug) (sim_backend 0)
    (ram_keeps_books Debug) (sim_keeps_books 0).

Definition ex_transfer : TransferJob := mkJob (mkChunkId [Byte.x01]) Ram Simulation 8 PHigh Queued 7 1700000000 0.

Definition ex_worker (failing : bool) : Worker ExBackend :=
  mkWorker ex_transfer (<[Ram := inl (Ram_new 100)]> {[Simulation := inr (ex_target failing)]})
    (Log_new 100) None (fun n => Z.of_nat n) 0 [] [ex_transfer] 0 TM_new [].

Definition ex_pool : WorkerPoolConfig := mkPoolConfig 4 2 1000 30000 true.

(** With a failing target the job fails after two retries and each of the
    three attempts leaves its allocation of 8 bytes behind in the target. *)
Example failed_writes_leak :
  let '(o, w) := execute_transfer Debug ex_pool 5 (ex_worker true) in
  is_ok o = false /\ job_state (w_job w) = TFailed /\ attempts (w_job w) = 2 /\
  w_slept w = [1000; 2000] /\
  bytes_used <$> (w_tiers w !! Ram) = Some 0 /\ bytes_used <$> (w_tiers w !! Simulation) = Some 24.
Proof. vm_compute. done. Qed.

Lemma ex_hold failing : tiers_hold ex_transfer 1000 (ex_worker failing) 0 0.
Proof.
  split_and!; [vm_compute; split; [reflexivity|discriminate]|..].
  - exists (inl (Ram_new 100)). split; [done|]. exists ∅. split; [|vm_compute; reflexivity].
    split; [apply ram_inv_new; unfold in_u; lia|]. vm_compute. done.
  - exists (inr (ex_target failing)). split; [done|]. exists ∅. split; [|vm_compute; reflexivity].
    split; [apply sim_inv_new; unfold in_u; destruct failing; simpl; lia|].
    split_and!; [right; by destruct failing|by destruct failing..].
Qed.

Lemma transfer_outcomes_witness :
  transfer_post ex_transfer 2 5 (execute_transfer Debug ex_pool 5 (ex_worker false)).1
    (execute_transfer Debug ex_pool 5 (ex_worker false)).2 /\
  job_state (w_job (execute_transfer Debug ex_pool 5 (ex_worker false)).2) = TComplete.
Proof.
  split; [|vm_compute; reflexivity].
  apply (transfer_outcomes Debug ex_pool 5 (ex_worker false)); [simpl; lia..|apply surjective_pairing].
Defined.

Lemma transfer_accounts_witness :
  exists ls lt, ls = 0 /\ lt = 0 /\
  tiers_hold ex_transfer 0 (execute_transfer Debug ex_pool 5 (ex_worker false)).2
    (0 + ls * 8) (0 + lt * 8).
Proof.
  pose proof (transfer_accounts Debug ex_pool 5 (ex_worker false) 1000 0 0
    ltac:(simpl; lia) ltac:(simpl; lia) ltac:(simpl; lia) ltac:(simpl; lia) ltac:(done) ltac:(simpl; lia)
    ltac:(simpl; lia) (ex_hold false)) as H.
  destruct (execute_transfer Debug ex_pool 5 (ex_worker false)) as [o w] eqn:E.
  assert (o = Ok tt) as Ho by (change o with (o, w).1; rewrite <- E; vm_compute; reflexivity).
  assert (attempts (w_job w) = 0) as Hat by (change w with (o, w).2; rewrite <- E; vm_compute; reflexivity).
  destruct H as (ls & lt & H1 & H2 & H3 & H4). rewrite Ho in H4. exists ls, lt.
  destruct H4 as [-> H4]. rewrite Hat in H4. simpl in H4. split_and!; [done|lia|exact H3].
Defined.

Lemma work_once_settles_witness :
  settled ex_transfer 3 (ex_worker true) (work_once Debug ex_pool 5 3 (ex_worker true)).2.
Proof.
  pose proof (work_once_settles Debug ex_pool 5 3 (ex_worker true) ex_transfer []
    (work_once Debug ex_pool 5 3 (ex_worker true)).1 (work_once Debug ex_pool 5 3 (ex_worker true)).2
    eq_refl ltac:(unfold in_u; simpl; lia) ltac:(simpl; lia) ltac:(simpl; lia) ltac:(simpl; lia)
    (surjective_pairing _)) as H.
  assert ((work_once Debug ex_pool 5 3 (ex_worker true)).1 = Ok true) as E by (vm_compute; reflexivity).
  rewrite E in H. apply H.
Defined.
