(* ===== verification/Health.v ===== *)
(** * Backend health: [ghost-daemon/src/health.rs]

    Failures push a tier from healthy to degraded to unavailable; successes
    bring a degraded tier back, and an unavailable one only after a recovery
    was begun.  The daemon's [BackendHealth] and the one of [ghost-core] have
    the same four values; both are [Events.BackendHealth].  [Instant::now()]
    is an argument. *)

From Stdlib Require Import ZArith Lia.
From stdpp Require Import base gmap strings list.
From S2P Require Import Prelude Floats CoreTypes Pressure Events EventBus.

Open Scope rust_scope.

#[global] Instance BackendHealth_eq_dec : EqDecision BackendHealth.
Proof. solve_decision. Defined.

Record HealthConfig := mkHealthConfig {
  degraded_threshold : Z;
  unavailable_threshold : Z;
  failure_window : Z;
  recovery_probe_interval : Z;
  recovery_success_threshold : Z;
}.
(** Durations in nanoseconds. *)
Definition HealthConfig_default : HealthConfig :=
  mkHealthConfig 3 10 (60 * 1000000000) (5 * 1000000000) 3.

Record HealthTracker := mkHealth {
  states : gmap TierId BackendHealth;
  failure_counts : gmap TierId Z;
  last_failure : gmap TierId Z;
  recovery_successes : gmap TierId Z;
  h_config : HealthConfig;
  h_emitter : option EventEmitter;
}.

Definition Health_new (c : HealthConfig) : HealthTracker := mkHealth ∅ ∅ ∅ ∅ c None.

Definition set_states (h : HealthTracker) m := mkHealth m (failure_counts h) (last_failure h)
  (recovery_successes h) (h_config h) (h_emitter h).
Definition set_counts (h : HealthTracker) m := mkHealth (states h) m (last_failure h)
  (recovery_successes h) (h_config h) (h_emitter h).
Definition set_last (h : HealthTracker) m := mkHealth (states h) (failure_counts h) m
  (recovery_successes h) (h_config h) (h_emitter h).
Definition set_successes (h : HealthTracker) m := mkHealth (states h) (failure_counts h) (last_failure h)
  m (h_config h) (h_emitter h).

Abbreviation HM := (M HealthTracker unit).

Definition h_emit (now : Z) (e : Ev.Event) : HM unit :=
  modify (fun h => mkHealth (states h) (failure_counts h) (last_failure h) (recovery_successes h)
    (h_config h) (match h_emitter h with Some em => Some (try_emit now e em).2 | None => None end)).

(** [map.entry(k).or_insert(v)]. *)
Definition or_insert {A} (k : TierId) (v : A) (m : gmap TierId A) : gmap TierId A :=
  match m !! k with Some _ => m | None => <[k := v]> m end.

Definition register (t : TierId) : HM unit :=
  modify (fun h => set_states h (or_insert t Healthy (states h))) ;;;
  modify (fun h => set_counts h (or_insert t 0 (failure_counts h))) ;;;
  modify (fun h => set_successes h (or_insert t 0 (recovery_successes h))).

(** The health reported in the event of [record_failure]. *)
Definition failure_event_new (s : BackendHealth) : BackendHealth :=
  match s with Degraded => Degraded | Unavailable => Unavailable | _ => Healthy end.

Definition record_failure (b : Build) (now : Z) (t : TierId) : HM unit :=
  modify (fun h => set_counts h (or_insert t 0 (failure_counts h))) ;;;
  count <- gets (fun h => default 0 (failure_counts h !! t)) ;;
  modify (fun h => set_counts h (<[t := wrap 64 (count + 1)]> (failure_counts h))) ;;;
  failures <- lift (arith b 64 (count + 1)) ;;
  modify (fun h => set_last h (<[t := now]> (last_failure h))) ;;;
  old_state <- gets (fun h => states h !! t) ;;
  modify (fun h => set_states h (or_insert t Healthy (states h))) ;;;
  prev <- gets (fun h => default Healthy (states h !! t)) ;;
  c <- gets h_config ;;
  let new_state :=
    if unavailable_threshold c <=? failures then Unavailable
    else if degraded_threshold c <=? failures then Degraded
    else prev in
  modify (fun h => set_states h (<[t := new_state]> (states h))) ;;;
  if decide (prev = new_state) then ret tt
  else h_emit now (Ev.BackendHealthChanged 0 t (default Healthy old_state) (failure_event_new new_state)).

Definition record_success (b : Build) (now : Z) (t : TierId) : HM unit :=
  st <- gets (fun h => states h !! t) ;;
  match st with
  | None => ret tt
  | Some prev =>
      c <- gets h_config ;;
      match prev with
      | Degraded =>
          co <- gets (fun h => failure_counts h !! t) ;;
          match co with
          | None => ret tt
          | Some current =>
              (if 0 <? current
               then modify (fun h => set_counts h (<[t := wrap 64 (current - 1)]> (failure_counts h)))
               else ret tt) ;;;
              if current <=? degraded_threshold c
              then modify (fun h => set_states h (<[t := Healthy]> (states h)))
              else ret tt
          end
      | Recovering =>
          modify (fun h => set_successes h (or_insert t 0 (recovery_successes h))) ;;;
          n <- gets (fun h => default 0 (recovery_successes h !! t)) ;;
          modify (fun h => set_successes h (<[t := wrap 64 (n + 1)]> (recovery_successes h))) ;;;
          s <- lift (arith b 64 (n + 1)) ;;
          if recovery_success_threshold c <=? s then
            modify (fun h => set_states h (<[t := Healthy]> (states h))) ;;;
            modify (fun h => match failure_counts h !! t with
                             | Some _ => set_counts h (<[t := 0]> (failure_counts h))
                             | None => h
                             end) ;;;
            modify (fun h => set_successes h (<[t := 0]> (recovery_successes h)))
          else ret tt
      | _ => ret tt
      end ;;;
      new_state <- gets (fun h => default prev (states h !! t)) ;;
      if decide (prev <> new_state /\ new_state = Healthy)
      then h_emit now (Ev.BackendHealthChanged 0 t prev Healthy)
      else ret tt
  end.

Definition health (t : TierId) (h : HealthTracker) : option BackendHealth := states h !! t.
Definition failure_count (t : TierId) (h : HealthTracker) : Z := default 0 (failure_counts h !! t).
Definition is_available (t : TierId) (h : HealthTracker) : bool :=
  match states h !! t with Some Healthy | Some Degraded => true | _ => false end.

Definition begin_recovery (now : Z) (t : TierId) : HM unit :=
  st <- gets (fun h => states h !! t) ;;
  match st with
  | Some Unavailable =>
      modify (fun h => set_states h (<[t := Recovering]> (states h))) ;;;
      modify (fun h => match recovery_successes h !! t with
                       | Some _ => set_successes h (<[t := 0]> (recovery_successes h))
                       | None => h
                       end) ;;;
      h_emit now (Ev.BackendHealthChanged 0 t Unavailable Recovering)
  | _ => ret tt
  end.

Definition health_reset (t : TierId) : HM unit :=
  modify (fun h => set_states h (<[t := Healthy]> (states h))) ;;;
  modify (fun h => match failure_counts h !! t with
                   | Some _ => set_counts h (<[t := 0]> (failure_counts h))
                   | None => h
                   end) ;;;
  modify (fun h => match recovery_successes h !! t with
                   | Some _ => set_successes h (<[t := 0]> (recovery_successes h))
                   | None => h
                   end) ;;;
  modify (fun h => set_last h (delete t (last_failure h))).

(** ** Abstract view: one small machine per tier *)

Record Tier := mkTier { t_health : option BackendHealth; t_fails : Z; t_succ : Z }.

Definition view (t : TierId) (h : HealthTracker) : Tier :=
  mkTier (states h !! t) (default 0 (failure_counts h !! t)) (default 0 (recovery_successes h !! t)).

Inductive Op := ORegister | OFail | OOk | OBegin | OReset.

Definition tier_step (c : HealthConfig) (o : Op) (v : Tier) : Tier :=
  let 'mkTier st f s := v in
  match o, st with
  | ORegister, _ => mkTier (Some (default Healthy st)) f s
  | OFail, _ =>
      mkTier (Some (if unavailable_threshold c <=? f + 1 then Unavailable
                    else if degraded_threshold c <=? f + 1 then Degraded
                    else default Healthy st)) (f + 1) s
  | OOk, Some Degraded =>
      mkTier (Some (if f <=? degraded_threshold c then Healthy else Degraded)) (f - 1) s
  | OOk, Some Recovering =>
      if recovery_success_threshold c <=? s + 1 then mkTier (Some Healthy) 0 0
      else mkTier (Some Recovering) f (s + 1)
  | OBegin, Some Unavailable => mkTier (Some Recovering) f 0
  | OReset, _ => mkTier (Some Healthy) 0 0
  | _, _ => v
  end.

(** Calls on the tracker. *)
Definition call (b : Build) (now : Z) (o : Op) (t : TierId) : HM unit :=
  match o with
  | ORegister => register t
  | OFail => record_failure b now t
  | OOk => record_success b now t
  | OBegin => begin_recovery now t
  | OReset => health_reset t
  end.

(** A degraded tier has a positive failure count. *)
Definition degraded_counted (h : HealthTracker) : Prop :=
  forall t, states h !! t = Some Degraded -> exists n, failure_counts h !! t = Some n /\ 0 < n.

Definition in_range (h : HealthTracker) (t : TierId) : Prop :=
  in_u 64 (t_fails (view t h)) /\ t_fails (view t h) + 1 < 2 ^ 64 /\
  in_u 64 (t_succ (view t h)) /\ t_succ (view t h) + 1 < 2 ^ 64.

Lemma lookup_or_insert {A} k v (m : gmap TierId A) k' :
  or_insert k v m !! k' = if decide (k = k') then Some (default v (m !! k)) else m !! k'.
Proof.
  unfold or_insert. destruct (m !! k) eqn:E; case_decide; subst; simpl; try done.
  - apply lookup_insert_eq.
  - by apply lookup_insert_ne.
Qed.

Lemma lookup_insert_if {A} k (v : A) (m : gmap TierId A) k' :
  <[k := v]> m !! k' = if decide (k = k') then Some v else m !! k'.
Proof. case_decide; subst; [apply lookup_insert_eq|by apply lookup_insert_ne]. Qed.

(** What the tracker shows of its tiers: everything but the emitter and the
    failure times. *)
Definition shows (h h' : HealthTracker) (t : TierId) (v : Tier) : Prop :=
  h_config h' = h_config h /\
  forall t', view t' h' = if decide (t = t') then v else view t' h.

Ltac view_solve :=
  intros ?t'; unfold view; simpl;
  rewrite ?lookup_insert_if, ?lookup_or_insert; case_decide; subst; simpl;
  rewrite ?decide_True by done; rewrite ?decide_False by done; simpl.

Lemma h_emit_view now e h : (h_emit now e h).1 = Ok tt /\ h_config (h_emit now e h).2 = h_config h /\
  forall t, view t (h_emit now e h).2 = view t h.
Proof. done. Qed.

Lemma register_shows b now t h :
  exists h', call b now ORegister t h = (Ok tt, h') /\
    shows h h' t (tier_step (h_config h) ORegister (view t h)).
Proof.
  eexists. split; [reflexivity|]. split; [done|]. view_solve; [|done].
  destruct (failure_counts h !! t'), (recovery_successes h !! t'); done.
Qed.

Lemma fail_shows b now t h :
  in_range h t ->
  exists h', call b now OFail t h = (Ok tt, h') /\
    shows h h' t (tier_step (h_config h) OFail (view t h)).
Proof.
  intros (Hf & Hf1 & _). unfold view in Hf, Hf1. simpl in Hf, Hf1. unfold in_u in Hf.
  unfold call, record_failure, h_emit, bind, gets, modify, lift, ret. simpl.
  rewrite !lookup_or_insert, decide_True by done. simpl. unfold id in *.
  rewrite arith_in by (unfold in_u; lia). simpl.
  destruct (decide (t = t)) as [_|]; [simpl|done].
  rewrite (wrap_in 64) by (unfold in_u; lia).
  case_decide as Hd; (eexists; split; [reflexivity|]); (split; [done|]); view_solve; try done;
    unfold id in *; by rewrite ?Hd.
Qed.

Lemma ok_shows b now t h :
  in_range h t -> degraded_counted h ->
  exists h', call b now OOk t h = (Ok tt, h') /\
    shows h h' t (tier_step (h_config h) OOk (view t h)).
Proof.
  intros (Hf & Hf1 & Hs & Hs1) Hd. unfold view in Hf, Hf1, Hs, Hs1. simpl in *. unfold in_u in *.
  unfold record_success, h_emit, view, bind, gets, modify, lift, ret.
  specialize (Hd t). destruct (states h !! t) as [[]|] eqn:Est; simpl.
  1,3,5: rewrite ?Est; simpl; rewrite ?decide_False by naive_solver;
    (eexists; split; [reflexivity|]); (split; [done|]);
    intros t'; unfold view; case_decide; subst; rewrite ?Est; done.
  - destruct (Hd eq_refl) as (n & Hn & Hpos). rewrite Hn in *. simpl in *.
    rewrite (proj2 (Z.ltb_lt 0 n)) by done. simpl.
    rewrite (wrap_in 64) by (unfold in_u; lia).
    destruct (n <=? degraded_threshold (h_config h)); simpl; case_decide;
      (eexists; split; [reflexivity|]); (split; [done|]); view_solve; rewrite ?Est; done.
  - rewrite lookup_or_insert, decide_True by done. simpl. unfold id in *.
    rewrite arith_in by (unfold in_u; lia). simpl. rewrite (wrap_in 64) by (unfold in_u; lia).
    destruct (recovery_success_threshold (h_config h) <=? _); simpl.
    + destruct (failure_counts h !! t) eqn:Ec; simpl; case_decide; (eexists; split; [reflexivity|]);
        (split; [done|]); view_solve; rewrite ?Est, ?Ec; done.
    + case_decide; (eexists; split; [reflexivity|]); (split; [done|]); view_solve; rewrite ?Est; done.
Qed.

Lemma begin_shows b now t h :
  exists h', call b now OBegin t h = (Ok tt, h') /\
    shows h h' t (tier_step (h_config h) OBegin (view t h)).
Proof.
  unfold call, begin_recovery, h_emit, bind, gets, modify, ret, view.
  destruct (states h !! t) as [[]|] eqn:Est; simpl.
  1,2,4,5: (eexists; split; [reflexivity|]); (split; [done|]);
    intros t'; unfold view; case_decide; subst; rewrite ?Est; done.
  destruct (recovery_successes h !! t) eqn:Er; (eexists; split; [reflexivity|]); (split; [done|]);
    view_solve; rewrite ?Er; done.
Qed.

Lemma reset_shows b now t h :
  exists h', call b now OReset t h = (Ok tt, h') /\
    shows h h' t (tier_step (h_config h) OReset (view t h)).
Proof.
  unfold call, health_reset, bind, modify, view. simpl.
  destruct (failure_counts h !! t) eqn:Ec; simpl;
  destruct (recovery_successes h !! t) eqn:Er; (eexists; split; [reflexivity|]); (split; [done|]);
    view_solve; rewrite ?Ec, ?Er; done.
Qed.

Lemma call_shows b now o t h :
  in_range h t -> degraded_counted h ->
  exists h', call b now o t h = (Ok tt, h') /\
    shows h h' t (tier_step (h_config h) o (view t h)).
Proof.
  intros Hr Hd. destruct o; eauto using register_shows, fail_shows, ok_shows, begin_shows, reset_shows.
Qed.

(** ** Runs *)

Record Event := mkCall { c_now : Z; c_op : Op; c_tier : TierId }.

Fixpoint run (b : Build) (cs : list Event) : HM unit :=
  match cs with
  | [] => ret tt
  | c :: cs => call b (c_now c) (c_op c) (c_tier c) ;;; run b cs
  end.

(** What tier [t] alone goes through. *)
Fixpoint tier_run (cfg : HealthConfig) (t : TierId) (cs : list Event) (v : Tier) : Tier :=
  match cs with
  | [] => v
  | c :: cs => tier_run cfg t cs (if decide (c_tier c = t) then tier_step cfg (c_op c) v else v)
  end.

Definition sane (cfg : HealthConfig) : Prop :=
  0 < degraded_threshold cfg <= unavailable_threshold cfg.

(** The health of a tier is determined by its failure count, up to a recovery
    in progress; [n] bounds the counters. *)
Record tier_inv (cfg : HealthConfig) (n : Z) (v : Tier) : Prop := {
  ti_fails : 0 <= t_fails v <= n;
  ti_succ : 0 <= t_succ v <= n;
  ti_health :
    match t_health v with
    | None => t_fails v = 0
    | Some Healthy => t_fails v < degraded_threshold cfg
    | Some Degraded => degraded_threshold cfg <= t_fails v < unavailable_threshold cfg
    | Some Unavailable | Some Recovering => unavailable_threshold cfg <= t_fails v
    end;
}.

Lemma tier_inv_step cfg n o v :
  sane cfg -> 0 <= n -> tier_inv cfg n v -> tier_inv cfg (n + 1) (tier_step cfg o v).
Proof.
  intros [Hd Hu] Hn [Hf Hs Hh]. destruct v as [st f s]. simpl in *.
  destruct o, st as [[]|]; simpl in *; repeat case_match; bool_to_prop; split; simpl; lia.
Qed.

Lemma tier_inv_weaken cfg n v : tier_inv cfg n v -> tier_inv cfg (n + 1) v.
Proof. intros [Hf Hs Hh]. split; [lia..|done]. Qed.

Lemma view_new cfg t : view t (Health_new cfg) = mkTier None 0 0.
Proof. unfold view. simpl. by rewrite !lookup_empty. Qed.

Definition tracker_inv (cfg : HealthConfig) (n : Z) (h : HealthTracker) : Prop :=
  h_config h = cfg /\ forall t, tier_inv cfg n (view t h).

Lemma tracker_inv_new cfg : sane cfg -> tracker_inv cfg 0 (Health_new cfg).
Proof. intros Hs. split; [done|]. intros t. rewrite view_new. split; simpl; lia. Qed.

Lemma tracker_inv_counted cfg n h : sane cfg -> tracker_inv cfg n h -> degraded_counted h.
Proof.
  intros [Hd _] [_ Ht] t Hst. destruct (Ht t) as [_ _ Hh]. unfold view in Hh. simpl in Hh.
  rewrite Hst in Hh. destruct (failure_counts h !! t) as [m|]; simpl in *; [|lia].
  exists m. unfold id in *. split; [done|lia].
Qed.

Lemma tracker_step cfg n b now o t h :
  sane cfg -> 0 <= n < 2 ^ 64 - 1 -> tracker_inv cfg n h ->
  exists h', call b now o t h = (Ok tt, h') /\ tracker_inv cfg (n + 1) h' /\
    forall t', view t' h' = if decide (t = t') then tier_step cfg o (view t' h) else view t' h.
Proof.
  intros Hs Hn Hi. pose proof (tracker_inv_counted _ _ _ Hs Hi) as Hd. destruct Hi as [Hc Ht].
  destruct (call_shows b now o t h) as (h' & E & Hc' & Hv); [|done|].
  { destruct (Ht t) as [Hf Hsu _]. unfold in_range, in_u. lia. }
  rewrite Hc in Hc', Hv. exists h'. split; [done|].
  assert (forall t', view t' h' = if decide (t = t') then tier_step cfg o (view t' h) else view t' h) as Hv'.
  { intros t'. rewrite Hv. by case_decide; subst. }
  split; [|done]. split; [done|]. intros t'. rewrite Hv'.
  case_decide; [apply tier_inv_step; [done|lia|apply Ht]|apply tier_inv_weaken, Ht].
Qed.

Lemma run_shows cfg n b cs h :
  sane cfg -> 0 <= n -> n + Z.of_nat (length cs) < 2 ^ 64 -> tracker_inv cfg n h ->
  exists h', run b cs h = (Ok tt, h') /\ tracker_inv cfg (n + Z.of_nat (length cs)) h' /\
    forall t, view t h' = tier_run cfg t cs (view t h).
Proof.
  intros Hs. revert n h. induction cs as [|c cs IH]; intros n h Hn Hl Hi; simpl.
  { exists h. rewrite Z.add_0_r. done. }
  simpl in Hl. destruct (tracker_step cfg n b (c_now c) (c_op c) (c_tier c) h) as (h1 & E & Hi1 & Hv1);
    [done|lia|done|].
  destruct (IH (n + 1) h1) as (h' & E' & Hi' & Hv'); [lia|lia|done|].
  exists h'. erewrite bind_Ok by exact E. split_and!; [done| |].
  - by replace (n + Z.of_nat (S (length cs))) with (n + 1 + Z.of_nat (length cs)) by lia.
  - intros t. by rewrite Hv', Hv1.
Qed.

(** C32: the tracker is one small machine per tier.  No sequence of calls
    panics, what happens to a tier depends on the calls for that tier alone,
    and its health is exactly what its failure count says: healthy below the
    first threshold, degraded below the second, otherwise unavailable or
    recovering; it accepts work exactly when it is known and its count is below
    the second threshold. *)
Theorem health_tracks_failures cfg b cs :
  sane cfg -> Z.of_nat (length cs) < 2 ^ 64 ->
  exists h, run b cs (Health_new cfg) = (Ok tt, h) /\
  forall t, view t h = tier_run cfg t cs (mkTier None 0 0) /\
    match health t h with
    | None => failure_count t h = 0
    | Some Healthy => failure_count t h < degraded_threshold cfg
    | Some Degraded => degraded_threshold cfg <= failure_count t h < unavailable_threshold cfg
    | Some Unavailable | Some Recovering => unavailable_threshold cfg <= failure_count t h
    end /\
    (is_available t h = true <-> health t h <> None /\ failure_count t h < unavailable_threshold cfg).
Proof.
  intros Hs Hl. destruct (run_shows cfg 0 b cs (Health_new cfg)) as (h & E & [_ Hi] & Hv);
    [done|lia|lia|by apply tracker_inv_new|].
  exists h. split; [done|]. intros t. rewrite Hv. split; [done|].
  destruct (Hi t) as [Hf _ Hh]. unfold health, failure_count, is_available. unfold view in Hf, Hh. simpl in *.
  split; [done|]. destruct Hs. destruct (states h !! t) as [[]|]; naive_solver lia.
Qed.

(** ** Recovery *)

(** Successes of [t] since its last failure. *)
Fixpoint streak_from (n : Z) (t : TierId) (cs : list Event) : Z :=
  match cs with
  | [] => n
  | c :: cs =>
      streak_from (if decide (c_tier c = t)
                   then match c_op c with OOk => n + 1 | OFail => 0 | _ => n end else n) t cs
  end.
Definition streak : TierId -> list Event -> Z := streak_from 0.

Lemma streak_snoc n t cs c :
  streak_from n t (cs ++ [c]) =
  if decide (c_tier c = t)
  then match c_op c with OOk => streak_from n t cs + 1 | OFail => 0 | _ => streak_from n t cs end
  else streak_from n t cs.
Proof. revert n. induction cs as [|c' cs IH]; intros n; simpl; [done|apply IH]. Qed.

Lemma tier_run_snoc cfg t cs c v :
  tier_run cfg t (cs ++ [c]) v =
  if decide (c_tier c = t) then tier_step cfg (c_op c) (tier_run cfg t cs v) else tier_run cfg t cs v.
Proof. revert v. induction cs as [|c' cs IH]; intros v; simpl; [done|apply IH]. Qed.

(** During a recovery the counter never exceeds the successes since the last
    failure. *)
Lemma recovering_streak cfg t cs :
  sane cfg ->
  let v := tier_run cfg t cs (mkTier None 0 0) in
  0 <= streak t cs /\ tier_inv cfg (Z.of_nat (length cs)) v /\
  (t_health v = Some Recovering -> t_succ v <= streak t cs).
Proof.
  intros Hs. unfold streak. induction cs as [|c cs IH] using rev_ind; simpl.
  { split_and!; [lia| |done]. split; simpl; lia. }
  rewrite streak_snoc, tier_run_snoc, length_app, Nat2Z.inj_add. simpl in IH |- *.
  destruct IH as (H1 & H2 & H3). case_decide; [|auto using tier_inv_weaken].
  split_and!; [destruct (c_op c); lia|apply tier_inv_step; [done|lia|done]|].
  destruct H2 as [_ _ Hh], Hs as [Hd Hu].
  destruct (tier_run cfg t cs _) as [st f s]. simpl in *.
  destruct (c_op c), st as [[]|]; simpl in *; repeat case_match; bool_to_prop; simpl in *;
    intros; simplify_eq; try lia; specialize (H3 eq_refl); lia.
Qed.

(** The way back.  When a known tier that was refusing work accepts it
    again, and not through [reset], the call that did it was a success of that
    tier during a recovery, and the tier has had at least the configured number
    of successes since its last failure. *)
Theorem recovery_needs_successes cfg b cs c h h' :
  let t := c_tier c in
  sane cfg -> Z.of_nat (length cs) + 1 < 2 ^ 64 ->
  run b cs (Health_new cfg) = (Ok tt, h) -> run b (cs ++ [c]) (Health_new cfg) = (Ok tt, h') ->
  health t h <> None -> is_available t h = false -> is_available t h' = true -> c_op c <> OReset ->
  c_op c = OOk /\ health t h = Some Recovering /\
  recovery_success_threshold cfg <= streak t (cs ++ [c]).
Proof.
  intros t Hs Hl E E' Hk Hno Hyes Hr.
  destruct (run_shows cfg 0 b cs (Health_new cfg)) as (h1 & E1 & _ & Hv); [done|lia|lia|by apply tracker_inv_new|].
  destruct (run_shows cfg 0 b (cs ++ [c]) (Health_new cfg)) as (h2 & E2 & _ & Hv2);
    [done|lia|rewrite length_app; simpl; lia|by apply tracker_inv_new|].
  rewrite E in E1. rewrite E' in E2. injection E1 as <-. injection E2 as <-. destruct (recovering_streak cfg t cs Hs) as (Hst & [_ _ Hh] & Hrs).
  specialize (Hv t). specialize (Hv2 t). rewrite view_new in Hv, Hv2. rewrite tier_run_snoc, decide_True in Hv2 by done.
  unfold streak. rewrite streak_snoc, decide_True by done. unfold streak in *.
  rewrite <- Hv in Hv2, Hh, Hrs. unfold health, is_available in *.
  assert (states h' !! t = t_health (tier_step cfg (c_op c) (view t h))) as Est by (by rewrite <- Hv2).
  rewrite Est in Hyes. clear Hv2 Est E E' Hv. unfold view in *. simpl in *.
  destruct Hs as [Hd Hu].
  destruct (states h !! t) as [[]|], (c_op c); simpl in *; repeat case_match; bool_to_prop; simplify_eq/=; try done; try lia.
  split_and!; [done|done|]. specialize (Hrs eq_refl). lia.
Qed.

(** ** Instances *)

Definition ex_cfg : HealthConfig := mkHealthConfig 1 2 0 0 2.
Definition ex_calls : list Event :=
  [mkCall 0 ORegister Disk; mkCall 1 OFail Disk; mkCall 2 OFail Disk; mkCall 3 OBegin Disk; mkCall 4 OOk Disk].

Lemma health_tracks_failures_witness :
  exists h, run Debug ex_calls (Health_new ex_cfg) = (Ok tt, h) /\ is_available Disk h = false.
Proof.
  destruct (health_tracks_failures ex_cfg Debug ex_calls) as (h & E & H);
    [unfold sane; simpl; lia|simpl; lia|].
  exists h. split; [exact E|]. destruct (H Disk) as (_ & _ & Ha).
  apply not_true_is_false. intros [_ Hc]%Ha. revert Hc.
  replace h with (run Debug ex_calls (Health_new ex_cfg)).2 by (by rewrite E).
  vm_compute. discriminate.
Defined.

Lemma recovery_needs_successes_witness : 2 <= streak Disk (ex_calls ++ [mkCall 5 OOk Disk]).
Proof.
  apply (recovery_needs_successes ex_cfg Debug ex_calls (mkCall 5 OOk Disk)
    (run Debug ex_calls (Health_new ex_cfg)).2
    (run Debug (ex_calls ++ [mkCall 5 OOk Disk]) (Health_new ex_cfg)).2);
    [unfold sane; simpl; lia|simpl; lia|vm_compute; reflexivity|vm_compute; reflexivity
    |vm_compute; discriminate|vm_compute; reflexivity|vm_compute; reflexivity|discriminate].
Defined.
