(* ===== verification/Backpressure.v ===== *)
(** * Backpressure: [ghost-daemon/src/backpressure.rs]

    The controller maps pressure and disk congestion to an action and keeps
    the last one for the transfer path.  [Instant::now()] and
    [current_timestamp()] are arguments (nanoseconds and milliseconds), and the
    two readings it takes from [IoMetrics] are [bp_io]. *)

From Stdlib Require Import ZArith Lia.
From stdpp Require Import base strings list.
From S2P Require Import Prelude Floats CoreTypes Pressure Events EventBus Trace.

Open Scope rust_scope.

Record BackpressureConfig := mkBpConfig {
  throttle_threshold : float;       (* f32 *)
  reject_threshold : float;         (* f32 *)
  critical_threshold : float;       (* f32 *)
  evaluation_interval_ms : Z;
  bp_enabled : bool;
  cooldown_secs : Z;
  io_pressure_soft_limit : float;   (* f32 *)
  io_pressure_hard_limit : float;   (* f32 *)
  queue_depth_threshold : Z;        (* u32 *)
  disk_queue_soft_limit : Z;        (* u32 *)
  disk_queue_hard_limit : Z;        (* u32 *)
  disk_latency_threshold_us : Z;    (* u64 *)
}.
Definition BackpressureConfig_default : BackpressureConfig :=
  mkBpConfig (lit f32 7 10) (lit f32 85 100) (lit f32 95 100) 1000 true 10
    (lit f32 6 10) (lit f32 85 100) 32 64 128 5000000.

Inductive BackpressureAction := Allow | Throttle | Reject | CriticalOnly.

#[global] Instance BackpressureAction_eq_dec : EqDecision BackpressureAction.
Proof. solve_decision. Defined.

(** [action as u8], the discriminant. *)
Definition action_byte (a : BackpressureAction) : Z :=
  match a with Allow => 0 | Throttle => 1 | Reject => 2 | CriticalOnly => 3 end.

Definition allows (a : BackpressureAction) (p : TransferPriority) : bool :=
  match a with
  | Allow => true
  | Throttle => match p with PCrit | PHigh => true | _ => false end
  | Reject | CriticalOnly => match p with PCrit => true | _ => false end
  end.

Definition action_display (a : BackpressureAction) : string :=
  match a with
  | Allow => "allow" | Throttle => "throttle" | Reject => "reject" | CriticalOnly => "critical-only"
  end.

Record BackpressureStats := mkBpStats {
  evaluations : Z;
  allow_count : Z;
  throttle_count : Z;
  reject_count : Z;
  critical_only_count : Z;
  transfers_rejected : Z;
  transfers_throttled : Z;
  last_action_change : Z;
  consecutive_same_action : Z;
  disk_congestion_escalations : Z;
}.
Definition stats_default : BackpressureStats := mkBpStats 0 0 0 0 0 0 0 0 0 0.

Record BackpressureController := mkBp {
  bp_config : BackpressureConfig;
  bp_log : TraceLog;
  bp_emitter : option EventEmitter;
  bp_current : Z;                   (* AtomicU8 *)
  bp_stats : BackpressureStats;
  last_evaluation : Z;
  pressure_since : option Z;
  bp_io : option (Z * Z);           (* queue depth, rolling latency *)
}.

Definition Bp_new (c : BackpressureConfig) (l : TraceLog) (now : Z) : BackpressureController :=
  mkBp c l None 0 stats_default now None None.

Definition set_since (s : BackpressureController) o := mkBp (bp_config s) (bp_log s) (bp_emitter s)
  (bp_current s) (bp_stats s) (last_evaluation s) o (bp_io s).
Definition set_current (s : BackpressureController) n := mkBp (bp_config s) (bp_log s) (bp_emitter s)
  n (bp_stats s) (last_evaluation s) (pressure_since s) (bp_io s).
Definition set_stats (s : BackpressureController) x := mkBp (bp_config s) (bp_log s) (bp_emitter s)
  (bp_current s) x (last_evaluation s) (pressure_since s) (bp_io s).
Definition set_log (s : BackpressureController) l := mkBp (bp_config s) l (bp_emitter s)
  (bp_current s) (bp_stats s) (last_evaluation s) (pressure_since s) (bp_io s).
Definition set_emitter (s : BackpressureController) e := mkBp (bp_config s) (bp_log s) e
  (bp_current s) (bp_stats s) (last_evaluation s) (pressure_since s) (bp_io s).
Definition set_last (s : BackpressureController) n := mkBp (bp_config s) (bp_log s) (bp_emitter s)
  (bp_current s) (bp_stats s) n (pressure_since s) (bp_io s).

Abbreviation BM := (M BackpressureController unit).

Definition evaluate_disk_congestion (s : BackpressureController) : option BackpressureAction :=
  match bp_io s with
  | None => None
  | Some (queue, latency) =>
      let c := bp_config s in
      if disk_queue_hard_limit c <=? queue then Some Reject
      else if (disk_queue_soft_limit c <=? queue) || (disk_latency_threshold_us c <=? latency)
      then Some Throttle
      else None
  end.

(** [queue_depth_threshold * 2] is a [u32] product, computed only when the
    first test fails. *)
Definition io_escalation (b : Build) (c : BackpressureConfig) (p : PressureState)
    : outcome unit (option BackpressureAction) :=
  let? hard :=
    (if fge (io_pressure p) (io_pressure_hard_limit c) then Ok true
     else let? twice := arith b 32 (queue_depth_threshold c * 2) in Ok (twice <? queue_depth p)) in
  Ok (if hard then Some Reject
      else if fge (io_pressure p) (io_pressure_soft_limit c) || (queue_depth_threshold c <? queue_depth p)
      then Some Throttle
      else None).

Definition overall_action (c : BackpressureConfig) (max_pressure : float) : BackpressureAction :=
  if fge max_pressure (critical_threshold c) then CriticalOnly
  else if fge max_pressure (reject_threshold c) then Reject
  else if fge max_pressure (throttle_threshold c) then Throttle
  else Allow.

(** [if x as u8 > y as u8 { x } else { y }]. *)
Definition stricter (x y : BackpressureAction) : BackpressureAction :=
  if action_byte y <? action_byte x then x else y.

Definition combine (d i : option BackpressureAction) : option BackpressureAction :=
  match d, i with
  | Some disk, Some io => Some (stricter disk io)
  | Some disk, None => Some disk
  | None, io => io
  end.

(** The action, before anything is recorded. *)
Definition choose_action (b : Build) (now : Z) (p : PressureState) : BM BackpressureAction :=
  s <- gets id ;;
  let c := bp_config s in
  let max := max_pressure p in
  io <- lift (io_escalation b c p) ;;
  match combine (evaluate_disk_congestion s) io with
  | Some io_action => ret (stricter io_action (overall_action c max))
  | None =>
      match overall_action c max with
      | Allow =>
          match pressure_since s with
          | Some start =>
              if sat_sub now start <? cooldown_secs c * 1000000000 then ret Throttle
              else modify (fun s => set_since s None) ;;; ret Allow
          | None => ret Allow
          end
      | a => ret a
      end
  end.

(** [n += 1] on a [u64]. *)
Definition incr (b : Build) (n : Z) : BM Z := lift (arith b 64 (n + 1)).

(** A panicking increment leaves the statistics as they were: their mutex is
    poisoned, so no later call reads them. *)
Definition update_stats (b : Build) (ts : Z) (a : BackpressureAction) (changed : bool)
    (disk : option BackpressureAction) : BM unit :=
  s <- gets id ;;
  let st := bp_stats s in
  ev <- incr b (evaluations st) ;;
  al <- (match a with Allow => incr b (allow_count st) | _ => ret (allow_count st) end) ;;
  th <- (match a with Throttle => incr b (throttle_count st) | _ => ret (throttle_count st) end) ;;
  re <- (match a with Reject => incr b (reject_count st) | _ => ret (reject_count st) end) ;;
  cr <- (match a with CriticalOnly => incr b (critical_only_count st) | _ => ret (critical_only_count st) end) ;;
  co <- (if changed then ret 0 else incr b (consecutive_same_action st)) ;;
  di <- (match disk with
         | Some d => if action_byte Allow <? action_byte d then incr b (disk_congestion_escalations st)
                     else ret (disk_congestion_escalations st)
         | None => ret (disk_congestion_escalations st)
         end) ;;
  modify (fun s => set_stats s (mkBpStats ev al th re cr (transfers_rejected st) (transfers_throttled st)
    (if changed then ts else last_action_change st) co di)).

Definition bp_emit (ts : Z) (e : Ev.Event) : BM unit :=
  modify (fun s => set_emitter s
    (match bp_emitter s with Some em => Some (try_emit ts e em).2 | None => None end)).

Definition bp_trace (e : Tr.TraceEvent) : BM unit := fun s =>
  let '(o, l) := record e (bp_log s) in (o, set_log s l).

Definition evaluate (b : Build) (now ts : Z) (p : PressureState) : BM BackpressureAction :=
  disk <- gets evaluate_disk_congestion ;;
  action <- choose_action b now p ;;
  modify (fun s => match pressure_since s with
                   | None => if decide (action = Allow) then s else set_since s (Some now)
                   | Some _ => s
                   end) ;;;
  prev_action <- gets bp_current ;;
  modify (fun s => set_current s (action_byte action)) ;;;
  update_stats b ts action (negb (prev_action =? action_byte action)) disk ;;;
  (if negb (prev_action =? action_byte action) then
     bp_trace (Tr.PressureEscalated (memory_pressure p) (vram_pressure p) (io_pressure p) ts) ;;;
     bp_emit ts (Ev.BackpressureActivated 0 Ram (action_display action))
   else if bool_decide (action = Allow) && negb (prev_action =? 0) then
     bp_emit ts (Ev.BackpressureDeactivated 0 Ram)
   else ret tt) ;;;
  modify (fun s => set_last s now) ;;;
  ret action.

Definition current_action (s : BackpressureController) : BackpressureAction :=
  let n := bp_current s in
  if n =? 0 then Allow else if n =? 1 then Throttle else if n =? 2 then Reject
  else if n =? 3 then CriticalOnly else Allow.

Definition should_allow (b : Build) (p : TransferPriority) : BM bool :=
  action <- gets current_action ;;
  let allowed := allows action p in
  (if allowed then ret tt
   else
     s <- gets id ;;
     let st := bp_stats s in
     n <- incr b (transfers_rejected st) ;;
     modify (fun s => set_stats s (mkBpStats (evaluations st) (allow_count st) (throttle_count st)
       (reject_count st) (critical_only_count st) n (transfers_throttled st) (last_action_change st)
       (consecutive_same_action st) (disk_congestion_escalations st)))) ;;;
  ret allowed.

(** ** What an evaluation decides *)

(** Nothing in the state makes the next evaluation panic. *)
Record ready (s : BackpressureController) : Prop := {
  rd_log : healthy_log (bp_log s);
  rd_current : 0 <= bp_current s <= 3;
  rd_queue : 0 <= queue_depth_threshold (bp_config s) < 2 ^ 31;
  rd_stats : Forall (fun n => 0 <= n < 2 ^ 64 - 1)
    [evaluations (bp_stats s); allow_count (bp_stats s); throttle_count (bp_stats s);
     reject_count (bp_stats s); critical_only_count (bp_stats s); transfers_rejected (bp_stats s);
     consecutive_same_action (bp_stats s); disk_congestion_escalations (bp_stats s)];
}.

(** The I/O escalation as the documentation has it. *)
Definition io_limit (c : BackpressureConfig) (p : PressureState) : option BackpressureAction :=
  if fge (io_pressure p) (io_pressure_hard_limit c) || (queue_depth_threshold c * 2 <? queue_depth p)
  then Some Reject
  else if fge (io_pressure p) (io_pressure_soft_limit c) || (queue_depth_threshold c <? queue_depth p)
  then Some Throttle
  else None.

Definition in_cooldown (now : Z) (s : BackpressureController) : bool :=
  match pressure_since s with
  | Some start => sat_sub now start <? cooldown_secs (bp_config s) * 1000000000
  | None => false
  end.

Definition level_of (o : option BackpressureAction) : Z := from_option action_byte 0 o.

(** The specification: the strictest of what overall pressure, disk
    congestion and I/O limits ask for, and at least a throttle while cooling
    down. *)
Definition wanted (now : Z) (p : PressureState) (s : BackpressureController) : Z :=
  Z.max (if in_cooldown now s then 1 else 0)
    (Z.max (action_byte (overall_action (bp_config s) (max_pressure p)))
      (Z.max (level_of (evaluate_disk_congestion s)) (level_of (io_limit (bp_config s) p)))).

Lemma io_escalation_ok b c p :
  0 <= queue_depth_threshold c < 2 ^ 31 -> io_escalation b c p = Ok (io_limit c p).
Proof.
  intros Hq. unfold io_escalation, io_limit.
  destruct (fge (io_pressure p) (io_pressure_hard_limit c)); simpl; [done|].
  rewrite arith_in by (unfold in_u; lia). done.
Qed.

Lemma disk_levels s : evaluate_disk_congestion s <> Some Allow.
Proof. unfold evaluate_disk_congestion. repeat case_match; congruence. Qed.

Lemma io_levels c p : io_limit c p <> Some Allow.
Proof. unfold io_limit. repeat case_match; congruence. Qed.

Lemma choose_action_ok b now p s :
  ready s ->
  exists a s', choose_action b now p s = (Ok a, s') /\ action_byte a = wanted now p s /\
    s' = (if decide (a = Allow) then set_since s None else s).
Proof.
  intros Hr. unfold choose_action, bind, gets, lift, id. rewrite io_escalation_ok by apply Hr.
  unfold wanted, in_cooldown. pose proof (disk_levels s). pose proof (io_levels (bp_config s) p).
  generalize (overall_action (bp_config s) (max_pressure p)). intros ov.
  destruct (evaluate_disk_congestion s) as [d|], (io_limit (bp_config s) p) as [i|]; simpl.
  1-3: eexists _, s; (split; [reflexivity|]); unfold stricter, level_of; simpl;
    destruct ov; try destruct d; try destruct i; simpl; try congruence; by repeat case_match.
  destruct ov; simpl; try (eexists _, s; split; [reflexivity|]; by repeat case_match).
  destruct (pressure_since s) as [start|] eqn:E.
  - destruct (sat_sub now start <? _); eexists _, _; split; [reflexivity|done|reflexivity|done].
  - exists Allow, s. split_and!; [done..|]. destruct s; simpl in *. by subst.
Qed.

(** ** What it records *)

Definition stats_sum (st : BackpressureStats) : Prop :=
  evaluations st = allow_count st + throttle_count st + reject_count st + critical_only_count st.

Lemma incr_ok b n (Q : outcome unit Z -> BackpressureController -> Prop) s :
  0 <= n < 2 ^ 64 - 1 -> Q (Ok (n + 1)) s -> wp (incr b n) Q s.
Proof. intros Hn HQ. unfold wp, incr, lift. by rewrite arith_in by (unfold in_u; lia). Qed.

Lemma update_stats_ok b ts a ch d s :
  ready s ->
  exists st, update_stats b ts a ch d s = (Ok tt, set_stats s st) /\
    evaluations st = evaluations (bp_stats s) + 1 /\
    (stats_sum (bp_stats s) -> stats_sum st) /\
    Forall2 (fun n n' => 0 <= n' <= n + 1)
      [evaluations (bp_stats s); allow_count (bp_stats s); throttle_count (bp_stats s);
       reject_count (bp_stats s); critical_only_count (bp_stats s); transfers_rejected (bp_stats s);
       consecutive_same_action (bp_stats s); disk_congestion_escalations (bp_stats s)]
      [evaluations st; allow_count st; throttle_count st; reject_count st; critical_only_count st;
       transfers_rejected st; consecutive_same_action st; disk_congestion_escalations st].
Proof.
  intros Hr. pose proof (rd_stats _ Hr) as Hs. rewrite !Forall_cons in Hs. destruct Hs as (H1 & H2 & H3 & H4 & H5 & H6 & H7 & H8 & _).
  unfold update_stats, incr, bind, gets, lift, modify, ret, id.
  rewrite !arith_in by (unfold in_u; lia).
  destruct a, ch, d as [[]|]; simpl; eexists; (split; [reflexivity|]); simpl; unfold stats_sum; simpl;
    (split_and!; [done|intros; lia|repeat constructor; lia]).
Qed.

Lemma current_action_byte s a : bp_current s = action_byte a -> current_action s = a.
Proof. intros E. unfold current_action. rewrite E. by destruct a. Qed.

Definition announce (ts : Z) (a : BackpressureAction) (em : EventEmitter) : EventEmitter :=
  (try_emit ts (Ev.BackpressureActivated 0 Ram (action_display a)) em).2.

(** An evaluation that finds room in its counters never panics and
    decides the strictest of what overall pressure, disk congestion, the I/O
    limits and a running cooldown ask for; the decision is what the transfer
    path reads afterwards, the start of the pressure episode is kept until
    everything is calm and the cooldown is over, and a change of action, and
    nothing else, is announced. *)
Theorem evaluate_decides b now ts p s :
  ready s ->
  exists a s', evaluate b now ts p s = (Ok a, s') /\
    action_byte a = wanted now p s /\ current_action s' = a /\
    pressure_since s' = (if decide (a = Allow) then None else Some (default now (pressure_since s))) /\
    bp_emitter s' = (if decide (bp_current s = action_byte a) then bp_emitter s
                     else announce ts a <$> bp_emitter s) /\
    evaluations (bp_stats s') = evaluations (bp_stats s) + 1.
Proof.
  intros Hr. destruct (choose_action_ok b now p s Hr) as (a & s1 & E1 & Ha & ->).
  unfold evaluate. unfold gets at 1, bind at 1. erewrite bind_Ok by exact E1.
  set (since := if decide (a = Allow) then None else Some (default now (pressure_since s))).
  set (s2 := set_since s since). unfold modify at 1, bind at 1.
  replace (match pressure_since _ with Some _ => _ | None => _ end) with s2.
  2:{ unfold s2, since. destruct (decide (a = Allow)); simpl; [done|].
      destruct s as [? ? ? ? ? ? [start|] ?]; done. }
  unfold gets at 1, bind at 1. unfold modify at 1, bind at 1.
  set (s3 := set_current s2 (action_byte a)).
  assert (ready s3) as Hr3 by (destruct Hr; split; simpl; [done|destruct a; simpl; lia|done..]).
  destruct (update_stats_ok b ts a (negb (bp_current s2 =? action_byte a)) (evaluate_disk_congestion s) s3 Hr3)
    as (st & Es & Hev & _). erewrite bind_Ok by exact Es.
  assert (0 <= action_byte a <= 3) by (destruct a; simpl; lia).
  change (bp_current s2) with (bp_current s). destruct (bp_current s =? action_byte a) eqn:En; bool_to_prop; simpl.
  - assert (bool_decide (a = Allow) && negb (bp_current s =? 0) = false) as ->.
    { rewrite En. by destruct a. }
    eexists a, _. split; [reflexivity|]. destruct (decide (bp_current s = action_byte a)); [|done].
    split_and!; try done. by apply current_action_byte.
  - destruct (record_healthy (E := unit) (Tr.PressureEscalated (memory_pressure p) (vram_pressure p) (io_pressure p) ts)
      (bp_log s) (rd_log _ Hr)) as (l & El & _ & _).
    unfold bp_trace, bp_emit, bind, modify, ret. simpl. rewrite El. simpl.
    eexists a, _. split; [reflexivity|]. destruct (decide (bp_current s = action_byte a)); [done|].
    split_and!; try done. by apply current_action_byte.
Qed.

(** ** Runs *)

Inductive BpCall := BEvaluate (now ts : Z) (p : PressureState) | BAllow (p : TransferPriority).

Definition bp_call (b : Build) (c : BpCall) (s : BackpressureController) : BackpressureController :=
  match c with
  | BEvaluate now ts p => (evaluate b now ts p s).2
  | BAllow p => (should_allow b p s).2
  end.

Definition bp_run (b : Build) (cs : list BpCall) (s : BackpressureController) : BackpressureController :=
  fold_left (fun s c => bp_call b c s) cs s.

Definition sent_events (s : BackpressureController) : list Ev.EventRecord :=
  match bp_emitter s with Some em => chan (tx em) | None => [] end.

Definition is_deactivation (r : Ev.EventRecord) : bool :=
  match Ev.rec_event r with Ev.BackpressureDeactivated _ _ => true | _ => false end.

(** The byte holds an action, and no deactivation is in the channel. *)
Definition quiet (s : BackpressureController) : Prop :=
  0 <= bp_current s <= 3 /\ Forall (fun r => is_deactivation r = false) (sent_events s).

Lemma emit_quiet ts a s : quiet s -> quiet (bp_emit ts (Ev.BackpressureActivated 0 Ram a) s).2.
Proof.
  intros [Hc Hf]. split; [done|]. unfold bp_emit, modify, sent_events in *. simpl.
  destruct (bp_emitter s) as [em|]; [|done]. unfold try_emit, make_record, next_sequence_id, try_send.
  simpl. repeat case_match; simplify_eq/=; try done; try (apply Forall_app; split; [done|by constructor]).
Qed.

Lemma update_stats_keeps b ts a ch d s :
  exists st, (update_stats b ts a ch d s).2 = set_stats s st.
Proof.
  assert (s = set_stats s (bp_stats s)) as Es by (by destruct s).
  unfold update_stats, incr, bind, gets, lift, modify, ret, id.
  repeat (case_match; simplify_eq/=); eauto.
Qed.

(** Steps that touch neither the emitter nor the current action. *)
Definition silent {A} (m : BM A) : Prop :=
  forall s, bp_emitter (m s).2 = bp_emitter s /\ bp_current (m s).2 = bp_current s.

Lemma quiet_silent {A} (m : BM A) : silent m -> preserves quiet m.
Proof. intros Hm s [Hc Hf]. destruct (Hm s) as [E1 E2]. split; unfold sent_events in *; by rewrite ?E1, ?E2. Qed.

Lemma silent_choose b now p : silent (choose_action b now p).
Proof.
  intros s. unfold choose_action, bind, gets, lift, modify, ret, id.
  repeat (case_match; simplify_eq/=); done.
Qed.

Lemma silent_stats b ts a ch d : silent (update_stats b ts a ch d).
Proof. intros s. destruct (update_stats_keeps b ts a ch d s) as [st ->]. done. Qed.

Lemma silent_trace e : silent (bp_trace e).
Proof. intros s. unfold bp_trace. by destruct (record e (bp_log s)). Qed.

Lemma evaluate_quiet b now ts p : preserves quiet (evaluate b now ts p).
Proof.
  apply preserves_bind; [apply preserves_gets|]. intros disk.
  apply preserves_bind; [apply quiet_silent, silent_choose|]. intros a.
  apply preserves_bind; [apply quiet_silent; intros s; simpl; by repeat case_match|]. intros _.
  intros s [Hc Hf]. unfold gets at 1, bind at 1. unfold modify at 1, bind at 1.
  set (s1 := set_current s (action_byte a)).
  assert (quiet s1) as Hq by (split; [simpl; destruct a; simpl; lia|done]). revert Hq. generalize s1. clear s1.
  apply preserves_bind; [apply quiet_silent, silent_stats|]. intros _.
  apply preserves_bind; [|intros _; apply preserves_bind; [by apply quiet_silent|intros _; apply preserves_ret]].
  destruct (bp_current s =? action_byte a) eqn:E; bool_to_prop; simpl.
  - assert (bool_decide (a = Allow) && negb (bp_current s =? 0) = false) as -> by (rewrite E; by destruct a).
    apply preserves_ret.
  - apply preserves_bind; [apply quiet_silent, silent_trace|]. intros _ s2. apply emit_quiet.
Qed.

Lemma should_allow_quiet b p : preserves quiet (should_allow b p).
Proof.
  apply quiet_silent. intros s. unfold should_allow, incr, bind, gets, lift, modify, ret, id.
  repeat (case_match; simplify_eq/=); done.
Qed.

(** No deactivation is ever announced.  Along any sequence of evaluations
    and admission checks, panics included, the controller sends no
    [BackpressureDeactivated] event: the test that guards it asks for a previous
    action that both equals and differs from the new one. *)
Theorem deactivation_never_sent b cs s :
  quiet s -> quiet (bp_run b cs s).
Proof.
  intros Hq. unfold bp_run. revert s Hq. induction cs as [|c cs IH]; intros s Hq; simpl; [done|].
  apply IH. destruct c as [now ts p|p]; simpl; [by apply evaluate_quiet|by apply should_allow_quiet].
Qed.

(** ** Admission *)

(** Admission is monotone: a stricter action admits no more, a more urgent
    priority is admitted whenever a less urgent one is, critical transfers
    always are, and the check counts exactly the refusals. *)
Theorem admission_monotone b s p :
  0 <= transfers_rejected (bp_stats s) < 2 ^ 64 - 1 ->
  (forall a a' q, action_byte a <= action_byte a' -> allows a' q = true -> allows a q = true) /\
  (forall a q q', value q <= value q' -> allows a q = true -> allows a q' = true) /\
  (forall a, allows a PCrit = true) /\
  exists s', should_allow b p s = (Ok (allows (current_action s) p), s') /\
    current_action s' = current_action s /\
    transfers_rejected (bp_stats s') =
      transfers_rejected (bp_stats s) + (if allows (current_action s) p then 0 else 1).
Proof.
  intros Hr. split_and!.
  - intros [] [] []; simpl; intros; done || lia.
  - intros [] [] []; simpl; intros; done || lia.
  - by intros [].
  - unfold should_allow, incr, bind, gets, lift, modify, ret, id.
    destruct (allows (current_action s) p) eqn:E; simpl; [exists s; by rewrite Z.add_0_r|].
    rewrite arith_in by (unfold in_u; lia). by eexists.
Qed.

(** ** The cooldown counts from the start of the pressure *)

(** If the pressure episode began at least a cooldown ago, the first calm
    evaluation resumes at once, however recently the pressure ended. *)
Lemma long_pressure_no_cooldown b now p s start :
  ready s -> pressure_since s = Some start ->
  cooldown_secs (bp_config s) * 1000000000 <= now - start ->
  overall_action (bp_config s) (max_pressure p) = Allow ->
  evaluate_disk_congestion s = None -> io_limit (bp_config s) p = None ->
  exists s', choose_action b now p s = (Ok Allow, s').
Proof.
  intros Hr Hs Hc Ho Hd Hi. destruct (choose_action_ok b now p s Hr) as (a & s' & E & Ha & _).
  exists s'. rewrite E. revert Ha. unfold wanted, in_cooldown. rewrite Hs, Ho, Hd, Hi.
  rewrite (proj2 (Z.ltb_ge _ _)) by (unfold sat_sub; lia). simpl. by destruct a.
Qed.

(** ** Instances *)

Definition calm : PressureState := mkPressure f32_zero f32_zero f32_zero 0 0.
Definition busy : PressureState := mkPressure (lit f32 9 10) f32_zero f32_zero 0 0.
Definition ex_bp : BackpressureController :=
  mkBp BackpressureConfig_default (Log_new 10) (Some (Emitter_new (mkChannel [] 8 true))) 0 stats_default 0 None None.

Lemma ex_ready : ready ex_bp.
Proof.
  split; simpl; [vm_compute; split; [reflexivity|discriminate]|lia|lia|repeat constructor; lia].
Qed.

Lemma evaluate_decides_witness :
  exists a s', evaluate Debug 5 6 busy ex_bp = (Ok a, s') /\ a = Reject.
Proof.
  destruct (evaluate_decides Debug 5 6 busy ex_bp ex_ready) as (a & s' & E & Ha & _).
  exists a, s'. split; [exact E|]. assert (wanted 5 busy ex_bp = 2) as Hw by (vm_compute; reflexivity).
  rewrite Hw in Ha. clear -Ha. by destruct a.
Defined.

Lemma deactivation_never_sent_witness :
  quiet (bp_run Debug [BEvaluate 5 6 busy; BEvaluate (20 * 1000000000) 7 calm] ex_bp) /\
  length (sent_events (bp_run Debug [BEvaluate 5 6 busy; BEvaluate (20 * 1000000000) 7 calm] ex_bp)) = 2%nat.
Proof.
  split; [|vm_compute; reflexivity].
  apply (deactivation_never_sent Debug [BEvaluate 5 6 busy; BEvaluate (20 * 1000000000) 7 calm] ex_bp).
  split; simpl; [lia|constructor].
Defined.

Lemma admission_monotone_witness :
  exists s', should_allow Debug PLow (bp_call Debug (BEvaluate 5 6 busy) ex_bp) = (Ok false, s').
Proof.
  destruct (admission_monotone Debug (bp_call Debug (BEvaluate 5 6 busy) ex_bp) PLow) as (_ & _ & _ & s' & E & _).
  - vm_compute. split; [discriminate|reflexivity].
  - exists s'. rewrite E. vm_compute. reflexivity.
Defined.
