(* ===== verification/Policy.v ===== *)
(** * Placement policies: [ghost-policy/src/policy.rs], [weights.rs], [lru.rs]
    and [pressure.rs]

    [PlacementPolicy] is the trait and [PolicyLaws] what its documentation
    promises the migration engine: a policy names an available tier, evicts one
    of the candidates, and does not migrate a chunk to the tier it is in.  The
    clock readings of the policies are arguments ([now], in seconds). *)

From Stdlib Require Import ZArith Lia.
From stdpp Require Import base strings list sets.
From S2P Require Import Prelude Floats CoreTypes Pressure.

Open Scope rust_scope.

(** ** The trait *)

Class PlacementPolicy (P : Type) := {
  policy_label : P -> string;
  select_target_tier : Z -> P -> ChunkMeta -> PressureState -> list TierId -> TierId;
  select_viction : Z -> P -> list (ChunkId * ChunkMeta) -> PressureState -> option ChunkId;
  should_migrate : Z -> P -> ChunkMeta -> TierId -> PressureState -> option TierId;
  migration_priority : Z -> P -> ChunkMeta -> PressureState -> TransferPriority;
}.

Class PolicyLaws (P : Type) `{PlacementPolicy P} := {
  target_available now p meta pr tiers :
    tiers <> [] -> select_target_tier now p meta pr tiers ∈ tiers;
  victim_candidate now p cs pr :
    match select_viction now p cs pr with
    | Some c => c ∈ cs.*1
    | None => cs = []
    end;
  migrate_elsewhere now p meta cur pr t :
    should_migrate now p meta cur pr = Some t -> t <> cur;
}.

(** ** Weights *)

Definition tier_weight (t : TierId) : float :=
  match t with
  | Ram => of_int f32 1
  | GpuVram => lit f32 8 10
  | Disk => lit f32 3 10
  | Simulation => lit f32 1 10
  end.

Definition tier_pressure_score (p : PressureState) (t : TierId) : float :=
  let weight := tier_weight t in
  let pressure_factor :=
    match t with
    | Ram => fsub f32 (of_int f32 1) (memory_pressure p)
    | GpuVram => fsub f32 (of_int f32 1) (vram_pressure p)
    | Disk => fsub f32 (of_int f32 1) (io_pressure p)
    | Simulation => of_int f32 1
    end in
  fmul f32 weight (fclamp pressure_factor (of_int f32 0) (of_int f32 1)).

(** The comparison of two tiers by score that every selection uses. *)
Definition score_cmp (p : PressureState) (a b : TierId) : comparison :=
  fcmp (tier_pressure_score p a) (tier_pressure_score p b).

Definition best_tier (tiers : list TierId) (p : PressureState) : option TierId :=
  match tiers with
  | [] => None
  | _ => max_by (score_cmp p) tiers
  end.

(** [iter.min_by_key(k)]. *)
Definition min_by_key {A} (k : A -> Z) (l : list A) : option A :=
  min_by (fun x y => k x ?= k y) l.

(** ** LRU *)

Module Lru.

Record LruConfig := mkLru {
  hotness_threshold_secs : Z;
  min_residence_secs : Z;
  preferred_tier : TierId;
  fallback_tier : TierId;
  current_time_secs : Z;
}.
Definition LruConfig_default : LruConfig := mkLru 300 60 Ram Disk 0.

(** The configured time, or the clock when it is zero. *)
Definition lru_now (now : Z) (c : LruConfig) : Z :=
  if negb (current_time_secs c =? 0) then current_time_secs c else now.

Definition is_hot (now : Z) (c : LruConfig) (m : ChunkMeta) : bool :=
  sat_sub (lru_now now c) (last_accessed m) <? hotness_threshold_secs c.

Definition is_resident (now : Z) (c : LruConfig) (m : ChunkMeta) : bool :=
  min_residence_secs c <=? sat_sub (lru_now now c) (created_at m).

Definition lru_select_target_tier (now : Z) (c : LruConfig) (m : ChunkMeta) (p : PressureState)
    (tiers : list TierId) : TierId :=
  match tiers with
  | [] => preferred_tier c
  | t0 :: _ =>
      match (if is_hot now c m then best_tier tiers p else None) with
      | Some t => t
      | None =>
          if bool_decide (fallback_tier c ∈ tiers) then fallback_tier c
          else if bool_decide (preferred_tier c ∈ tiers) then preferred_tier c
          else t0
      end
  end.

Definition lru_select_viction (now : Z) (c : LruConfig) (cs : list (ChunkId * ChunkMeta))
    : option ChunkId :=
  match cs with
  | [] => None
  | _ =>
      let resident := filter (fun x => is_resident now c x.2 = true) cs in
      match resident with
      | [] => fst <$> min_by_key (fun x => last_accessed x.2) cs
      | _ => fst <$> min_by_key (fun x => last_accessed x.2) resident
      end
  end.

Definition lru_should_migrate (now : Z) (c : LruConfig) (m : ChunkMeta) (cur : TierId)
    (p : PressureState) : option TierId :=
  let hot := is_hot now c m in
  if hot && bool_decide (cur = Disk) then best_tier [Ram; GpuVram] p
  else if negb hot && bool_decide (cur = Ram) then best_tier [Disk; GpuVram] p
  else if fgt (memory_pressure p) (lit f32 7 10) && negb hot && bool_decide (cur = Ram) then Some Disk
  else if fgt (vram_pressure p) (lit f32 7 10) && negb hot && bool_decide (cur = GpuVram) then Some Disk
  else None.

Definition lru_migration_priority (now : Z) (c : LruConfig) (m : ChunkMeta) (p : PressureState)
    : TransferPriority :=
  if is_hot now c m && fgt (memory_pressure p) (lit f32 9 10) then PCrit
  else if is_hot now c m || fgt (memory_pressure p) (lit f32 7 10) then PHigh
  else if fgt (memory_pressure p) (lit f32 5 10) then PNorm
  else PLow.

#[global] Instance lru_policy : PlacementPolicy LruConfig := {|
  policy_label := fun _ => "lru";
  select_target_tier := lru_select_target_tier;
  select_viction := fun now c cs _ => lru_select_viction now c cs;
  should_migrate := lru_should_migrate;
  migration_priority := lru_migration_priority;
|}.

End Lru.

(** ** Pressure-aware *)

Module Pa.

Record PressureAwareConfig := mkPa {
  ram_high_watermark : float;
  ram_critical_watermark : float;
  vram_high_watermark : float;
  vram_critical_watermark : float;
  io_high_watermark : float;
  io_critical_watermark : float;
  critical_pressure : float;
  high_pressure : float;
  normal_pressure : float;
  current_time_secs : Z;
}.
Definition PressureAwareConfig_default : PressureAwareConfig :=
  mkPa (lit f32 7 10) (lit f32 9 10) (lit f32 7 10) (lit f32 9 10) (lit f32 7 10) (lit f32 9 10)
    (lit f32 9 10) (lit f32 7 10) (lit f32 5 10) 0.

Definition is_tier_pressured (c : PressureAwareConfig) (p : PressureState) (t : TierId) : bool :=
  match t with
  | Ram => fge (memory_pressure p) (ram_high_watermark c)
  | GpuVram => fge (vram_pressure p) (vram_high_watermark c)
  | Disk => fge (io_pressure p) (io_high_watermark c)
  | Simulation => false
  end.

Definition is_tier_critical (c : PressureAwareConfig) (p : PressureState) (t : TierId) : bool :=
  match t with
  | Ram => fge (memory_pressure p) (ram_critical_watermark c)
  | GpuVram => fge (vram_pressure p) (vram_critical_watermark c)
  | Disk => fge (io_pressure p) (io_critical_watermark c)
  | Simulation => false
  end.

Definition pa_select_target_tier (c : PressureAwareConfig) (p : PressureState) (tiers : list TierId)
    : TierId :=
  match tiers with
  | [] => Disk
  | t0 :: _ =>
      let viable := filter (fun t => is_tier_critical c p t = false) tiers in
      match viable with
      | [] => default t0 (min_by (score_cmp p) tiers)
      | v0 :: _ => default v0 (max_by (score_cmp p) viable)
      end
  end.

(** Pressured tiers first, then the least recently accessed. *)
Definition victim_cmp (c : PressureAwareConfig) (p : PressureState) (a b : ChunkId * ChunkMeta)
    : comparison :=
  match is_tier_pressured c p (meta_tier a.2), is_tier_pressured c p (meta_tier b.2) with
  | true, false => Gt
  | false, true => Lt
  | _, _ => CompOpp (last_accessed a.2 ?= last_accessed b.2)
  end.

Definition pa_select_viction (c : PressureAwareConfig) (cs : list (ChunkId * ChunkMeta))
    (p : PressureState) : option ChunkId :=
  match cs with
  | [] => None
  | _ => fst <$> max_by (victim_cmp c p) cs
  end.

Definition pa_should_migrate (c : PressureAwareConfig) (m : ChunkMeta) (cur : TierId)
    (p : PressureState) : option TierId :=
  let away :=
    if is_tier_critical c p cur then
      max_by (score_cmp p)
        (filter (fun t => t <> cur /\ is_tier_critical c p t = false) [Ram; GpuVram; Disk])
    else None in
  match away with
  | Some t => Some t
  | None =>
      if is_tier_pressured c p cur && (300 <? sat_sub (current_time_secs c) (last_accessed m)) then
        max_by (score_cmp p) (filter (fun t => t <> cur) [Ram; GpuVram; Disk])
      else None
  end.

Definition pa_migration_priority (c : PressureAwareConfig) (p : PressureState) : TransferPriority :=
  let max := max_pressure p in
  if fge max (critical_pressure c) then PCrit
  else if fge max (high_pressure c) then PHigh
  else if fge max (normal_pressure c) then PNorm
  else PLow.

#[global] Instance pa_policy : PlacementPolicy PressureAwareConfig := {|
  policy_label := fun _ => "pressure-aware";
  select_target_tier := fun _ c _ p tiers => pa_select_target_tier c p tiers;
  select_viction := fun _ c cs p => pa_select_viction c cs p;
  should_migrate := fun _ c m cur p => pa_should_migrate c m cur p;
  migration_priority := fun _ c _ p => pa_migration_priority c p;
|}.

End Pa.

(** ** Scores *)

Lemma weight_finite t : is_finite (tier_weight t) = true.
Proof. destruct t; vm_compute; reflexivity. Qed.

Lemma score_numeric p t : numeric p -> is_nan (tier_pressure_score p t) = false.
Proof.
  intros (Hm & Hv & Hi). unfold tier_pressure_score. apply FloatNaN.fmul_nan; [apply weight_finite|].
  apply FloatNaN.fclamp_finite; [|vm_compute; reflexivity..].
  assert (is_finite (of_int f32 1) = true) as H1 by (vm_compute; reflexivity).
  destruct t; auto using FloatNaN.fsub_nan.
Qed.

Lemma score_antisym p a b : numeric p -> score_cmp p b a = CompOpp (score_cmp p a b).
Proof. intros Hp. apply FloatOrder.fcmp_antisym; by apply score_numeric. Qed.

Lemma score_trans p a b c :
  numeric p -> score_cmp p a b <> Gt -> score_cmp p b c <> Gt -> score_cmp p a c <> Gt.
Proof. intros Hp. apply FloatOrder.fcmp_trans; by apply score_numeric. Qed.

Definition score_le (p : PressureState) (a b : TierId) : Prop :=
  fle (tier_pressure_score p a) (tier_pressure_score p b) = true.

Lemma score_cmp_le p a b : numeric p -> score_cmp p a b <> Gt -> score_le p a b.
Proof.
  intros Hp. unfold score_cmp, score_le. pose proof (score_numeric p a Hp). pose proof (score_numeric p b Hp).
  rewrite FloatOrder.fcmp_key, FloatOrder.fle_key by done.
  by destruct (FloatOrder.lex _ _).
Qed.

Lemma max_score p l t : numeric p -> max_by (score_cmp p) l = Some t -> Forall (fun t' => score_le p t' t) l.
Proof.
  intros Hp Hm. apply Forall_forall. intros t' Ht'. apply score_cmp_le; [done|].
  apply (max_by_ge (score_cmp p) (fun _ => True)) with l; try done.
  - intros x y _ _. by apply score_antisym.
  - intros x y z _ _ _. by apply score_trans.
  - by apply Forall_forall.
Qed.

Lemma min_score p l t : numeric p -> min_by (score_cmp p) l = Some t -> Forall (fun t' => score_le p t t') l.
Proof.
  intros Hp Hm. apply Forall_forall. intros t' Ht'. apply score_cmp_le; [done|].
  apply (min_by_le (score_cmp p) (fun _ => True)) with l; try done.
  - intros x y _ _. by apply score_antisym.
  - intros x y z _ _ _. by apply score_trans.
  - by apply Forall_forall.
Qed.

Lemma best_tier_elem tiers p t : best_tier tiers p = Some t -> t ∈ tiers.
Proof. unfold best_tier. destruct tiers; [done|]. apply max_by_elem. Qed.

Lemma best_tier_is_Some tiers p : tiers <> [] -> is_Some (best_tier tiers p).
Proof. by destruct tiers. Qed.

Lemma min_by_key_spec {A} (k : A -> Z) l x :
  min_by_key k l = Some x -> x ∈ l /\ Forall (fun y => k x <= k y) l.
Proof.
  intros Hm. split; [by eapply min_by_elem|]. apply Forall_forall. intros y Hy.
  assert (Z.compare (k x) (k y) <> Gt) as Hc.
  { apply (min_by_le (fun a b => k a ?= k b) (fun _ => True)) with l; try done.
    - intros a b _ _. apply Z.compare_antisym.
    - intros a b c _ _ _ H1 H2. rewrite Z.compare_gt_iff in *. lia.
    - by apply Forall_forall. }
  rewrite Z.compare_gt_iff in Hc. lia.
Qed.

(** ** LRU *)

Lemma lru_target_available now c m p tiers :
  tiers <> [] -> Lru.lru_select_target_tier now c m p tiers ∈ tiers.
Proof.
  intros Hne. unfold Lru.lru_select_target_tier. destruct tiers as [|t0 tiers]; [done|].
  destruct (if Lru.is_hot now c m then _ else _) as [t|] eqn:E.
  - destruct (Lru.is_hot now c m); [|done]. by apply best_tier_elem in E.
  - repeat case_bool_decide; [done|done|by left].
Qed.

Lemma min_by_key_id (k : ChunkId * ChunkMeta -> Z) l l' :
  l ⊆ l' -> l <> [] -> exists c, fst <$> min_by_key k l = Some c /\ c ∈ l'.*1.
Proof.
  intros Hsub Hne. destruct (min_by_key k l) as [x|] eqn:E.
  - exists x.1. split; [done|]. apply list_elem_of_fmap_2, Hsub. by apply min_by_elem in E.
  - by apply min_by_None in E.
Qed.

Lemma lru_victim_candidate now c cs :
  match Lru.lru_select_viction now c cs with Some x => x ∈ cs.*1 | None => cs = [] end.
Proof.
  unfold Lru.lru_select_viction. destruct cs as [|x0 cs]; [done|].
  destruct (filter _ _) as [|y res] eqn:E.
  - destruct (min_by_key_id (fun x => last_accessed x.2) (x0 :: cs) (x0 :: cs)) as (v & -> & Hv); done.
  - destruct (min_by_key_id (fun x => last_accessed x.2) (y :: res) (x0 :: cs)) as (v & -> & Hv); try done.
    rewrite <- E. intros z Hz. by apply list_elem_of_filter in Hz as [_ Hz].
Qed.

Lemma lru_migrate_elsewhere now c m cur p t :
  Lru.lru_should_migrate now c m cur p = Some t -> t <> cur.
Proof.
  unfold Lru.lru_should_migrate. intros E Heq. subst t. revert E.
  pose proof (best_tier_elem [Ram; GpuVram] p cur) as H1. pose proof (best_tier_elem [Disk; GpuVram] p cur) as H2.
  revert H1 H2. generalize (best_tier [Ram; GpuVram] p) (best_tier [Disk; GpuVram] p). intros b1 b2 H1 H2.
  destruct (Lru.is_hot now c m), cur; simpl; rewrite ?andb_false_r; simpl;
    repeat case_match; intros; simplify_eq; set_solver.
Qed.

#[export] Instance lru_laws : PolicyLaws Lru.LruConfig.
Proof.
  split; simpl; [apply lru_target_available|intros; apply lru_victim_candidate|apply lru_migrate_elsewhere].
Qed.

(** ** Pressure-aware *)

Lemma pa_target_cases c p tiers :
  tiers <> [] ->
  let t := Pa.pa_select_target_tier c p tiers in
  let viable := filter (fun t => Pa.is_tier_critical c p t = false) tiers in
  (viable = [] /\ min_by (score_cmp p) tiers = Some t) \/
  (viable <> [] /\ max_by (score_cmp p) viable = Some t).
Proof.
  intros Hne. unfold Pa.pa_select_target_tier. destruct tiers as [|t0 tiers]; [done|].
  destruct (filter _ _) as [|v0 vs]; simpl; auto.
Qed.

Lemma pa_migrate_cases c m cur p t :
  Pa.pa_should_migrate c m cur p = Some t ->
  (Pa.is_tier_critical c p cur = true /\
   max_by (score_cmp p) (filter (fun t => t <> cur /\ Pa.is_tier_critical c p t = false) [Ram; GpuVram; Disk]) = Some t) \/
  (Pa.is_tier_pressured c p cur = true /\ 300 < sat_sub (Pa.current_time_secs c) (last_accessed m) /\
   max_by (score_cmp p) (filter (fun t => t <> cur) [Ram; GpuVram; Disk]) = Some t).
Proof.
  unfold Pa.pa_should_migrate. cbv zeta. destruct (Pa.is_tier_critical c p cur) eqn:Ec.
  - destruct (max_by _ _) as [t'|] eqn:E; [intros [= <-]; auto|].
    case_match eqn:Eg; [|done]. bool_to_prop. auto.
  - case_match eqn:Eg; [|done]. bool_to_prop. auto.
Qed.

#[export] Instance pa_laws : PolicyLaws Pa.PressureAwareConfig.
Proof.
  split; simpl.
  - intros _ c _ p tiers Hne. destruct (pa_target_cases c p tiers Hne) as [[_ H]|[_ H]].
    + by apply min_by_elem in H.
    + apply max_by_elem in H. by apply list_elem_of_filter in H as [_ H].
  - intros _ c cs p. unfold Pa.pa_select_viction. destruct cs as [|x cs]; [done|].
    destruct (max_by _ (x :: cs)) as [y|] eqn:E; [|by apply max_by_None in E].
    apply list_elem_of_fmap_2. by apply max_by_elem in E.
  - intros _ c m cur p t [[_ H]|(_ & _ & H)]%pa_migrate_cases;
      apply max_by_elem, list_elem_of_filter in H; naive_solver.
Qed.

(** What the LRU policy evicts: one of the candidates, none only when
    there is none; a chunk that has been resident long enough when any has, and
    then the least recently accessed of those, otherwise the least recently
    accessed of all. *)
Theorem lru_evicts_oldest now c cs :
  match Lru.lru_select_viction now c cs with
  | None => cs = []
  | Some v => exists m, (v, m) ∈ cs /\
      (forall v' m', (v', m') ∈ cs -> Lru.is_resident now c m' = true ->
         Lru.is_resident now c m = true /\ last_accessed m <= last_accessed m') /\
      ((forall v' m', (v', m') ∈ cs -> Lru.is_resident now c m' = false) ->
       forall v' m', (v', m') ∈ cs -> last_accessed m <= last_accessed m')
  end.
Proof.
  unfold Lru.lru_select_viction. destruct cs as [|x0 cs]; [done|].
  set (all := x0 :: cs). set (res := filter _ all).
  assert (forall z, z ∈ res <-> Lru.is_resident now c z.2 = true /\ z ∈ all) as Hres
    by (intros z; unfold res; by rewrite list_elem_of_filter).
  destruct res as [|y res'] eqn:E.
  - destruct (min_by_key _ all) as [[v m]|] eqn:Em; [|by apply min_by_None in Em].
    apply min_by_key_spec in Em as [Hin Hmin]. rewrite Forall_forall in Hmin.
    exists m. split; [done|]. split.
    + intros v' m' Hm' Hr. destruct (Hres (v', m')) as [_ H]. set_solver.
    + intros _ v' m' Hm'. by apply (Hmin (v', m')).
  - destruct (min_by_key _ (y :: res')) as [[v m]|] eqn:Em; [|done].
    apply min_by_key_spec in Em as [Hin Hmin]. rewrite Forall_forall in Hmin.
    apply Hres in Hin as [Hr Hin]. exists m. split; [done|]. split.
    + intros v' m' Hm' Hr'. split; [done|]. apply (Hmin (v', m')). by apply Hres.
    + intros Hno. specialize (Hno v m Hin). simpl in Hr. congruence.
Qed.

(** Where the pressure-aware policy puts a chunk.  Among tiers that are
    not critical it picks one of the best score.  When all are critical it picks
    one of the worst score: the comment promises the least pressured tier, but
    the score grows as pressure falls and the code takes its minimum. *)
Theorem pa_target_choice c p tiers :
  numeric p -> tiers <> [] ->
  let t := Pa.pa_select_target_tier c p tiers in
  t ∈ tiers /\
  ((exists t', t' ∈ tiers /\ Pa.is_tier_critical c p t' = false) ->
     Pa.is_tier_critical c p t = false /\
     forall t', t' ∈ tiers -> Pa.is_tier_critical c p t' = false -> score_le p t' t) /\
  ((forall t', t' ∈ tiers -> Pa.is_tier_critical c p t' = true) ->
     forall t', t' ∈ tiers -> score_le p t t').
Proof.
  intros Hp Hne t. destruct (pa_target_cases c p tiers Hne) as [[Hv Hm]|[Hv Hm]]; fold t in Hm.
  - split; [by apply min_by_elem in Hm|]. apply (min_score p _ _ Hp) in Hm. rewrite Forall_forall in Hm.
    split; [|by auto]. intros (t' & Hin & Hc). exfalso.
    assert (t' ∈ filter (fun t => Pa.is_tier_critical c p t = false) tiers) as H
      by (by apply list_elem_of_filter). rewrite Hv in H. set_solver.
  - pose proof (max_by_elem _ _ _ Hm) as [Hc Hin]%list_elem_of_filter.
    apply (max_score p _ _ Hp) in Hm. rewrite Forall_forall in Hm. split_and!; [done| |].
    + intros _. split; [done|]. intros t' Hin' Hc'. apply Hm. by apply list_elem_of_filter.
    + intros Hall. by rewrite Hall in Hc.
Qed.

(** A policy that is given no time never finds a chunk cold: with the default
    configuration a tier that is pressured but not critical is never relieved. *)
Lemma pa_cold_needs_time c m cur p :
  Pa.current_time_secs c = 0 -> 0 <= last_accessed m -> Pa.is_tier_critical c p cur = false ->
  Pa.pa_should_migrate c m cur p = None.
Proof.
  intros Ht Hl Hc. destruct (Pa.pa_should_migrate c m cur p) as [t|] eqn:E; [|done].
  apply pa_migrate_cases in E as [[H _]|(_ & H & _)]; [congruence|].
  rewrite Ht in H. unfold sat_sub in H. lia.
Qed.

(** With access times in milliseconds and a clock in seconds every chunk that
    was ever accessed is hot. *)
Lemma lru_hot_if_milliseconds now_s c m :
  Lru.current_time_secs c = 0 -> now_s <= last_accessed m -> 0 < Lru.hotness_threshold_secs c ->
  Lru.is_hot now_s c m = true.
Proof.
  intros H1 H2 H3. unfold Lru.is_hot, Lru.lru_now. rewrite H1. simpl. apply Z.ltb_lt. unfold sat_sub. lia.
Qed.

(** ** Instances *)

Definition saturated : PressureState := mkPressure (lit f32 95 100) (lit f32 92 100) (lit f32 99 100) 0 0.

Lemma pa_target_choice_witness :
  Pa.pa_select_target_tier Pa.PressureAwareConfig_default saturated [Ram; Disk] ∈ [Ram; Disk] /\
  Pa.pa_select_target_tier Pa.PressureAwareConfig_default saturated [Ram; Disk] = Disk.
Proof.
  split; [|vm_compute; reflexivity].
  apply (pa_target_choice Pa.PressureAwareConfig_default saturated [Ram; Disk]);
    [split_and!; vm_compute; reflexivity|done].
Defined.
