(* ===== verification/Hotness.v ===== *)
(** * Hotness of chunks: [ghost-core/src/hotness.rs] and the access map of
    [ghost-daemon/src/hotness_tracker.rs]

    The exponential of the C library is an interface ([Libm]).  Timestamps are
    arguments.  The sampling side of the tracker, which polls a kernel
    provider, is not modelled. *)

From Stdlib Require Import ZArith Lia SpecFloat Sorted.
From stdpp Require Import base gmap strings list sorting.
From S2P Require Import Prelude Floats CoreTypes Pressure Trace.

Open Scope rust_scope.

Class Libm := { libm_exp : float -> float }.

Record ChunkHotness := mkHot {
  hot_chunk : ChunkId;
  hot_count : Z;            (* u64 *)
  hot_last : Z;             (* u64 *)
  hot_first : Z;            (* u64 *)
  score : float;            (* f32 *)
  frequency_score : float;  (* f32 *)
  recency_score : float;    (* f32 *)
  regularity_score : float; (* f32 *)
  total_bytes : Z;          (* u64 *)
}.

Definition Hot_new (c : ChunkId) (now : Z) : ChunkHotness :=
  mkHot c 0 now now f32_zero f32_zero f32_zero f32_zero 0.

Definition recompute_score (h : ChunkHotness) : ChunkHotness :=
  let freq := fsub f32 f32_one
    (fdiv f32 f32_one (fadd f32 f32_one (fdiv f32 (of_int f32 (hot_count h)) (of_int f32 10)))) in
  let reg := if 2 <? hot_count h then lit f32 5 10 else lit f32 1 10 in
  let raw := fadd f32 (fadd f32 (fmul f32 (lit f32 4 10) freq) (fmul f32 (lit f32 4 10) (recency_score h)))
               (fmul f32 (lit f32 2 10) reg) in
  mkHot (hot_chunk h) (hot_count h) (hot_last h) (hot_first h) (fclamp raw f32_zero f32_one)
    freq (recency_score h) reg (total_bytes h).

Section hotness.
Context `{Libm}.

(** [(-0.693 * age as f64 / 60.0).exp() as f32], 1 at age zero. *)
Definition recency (age : Z) : float :=
  if age =? 0 then f32_one
  else cast f32 (libm_exp (fdiv f64 (fmul f64 (SFopp (lit f64 693 1000)) (of_int f64 age)) (of_int f64 60))).

Definition set_recency (h : ChunkHotness) (r : float) : ChunkHotness :=
  mkHot (hot_chunk h) (hot_count h) (hot_last h) (hot_first h) (score h) (frequency_score h)
    r (regularity_score h) (total_bytes h).

Definition hot_record_access {E} (b : Build) (now size : Z) : M ChunkHotness E unit :=
  h <- gets id ;;
  n <- lift (arith b 64 (hot_count h + 1)) ;;
  modify (fun h => mkHot (hot_chunk h) n now (hot_first h) (score h) (frequency_score h)
    (recency_score h) (regularity_score h) (total_bytes h)) ;;;
  t <- lift (arith b 64 (total_bytes h + size)) ;;
  modify (fun h => mkHot (hot_chunk h) n now (if n =? 1 then now else hot_first h) (score h)
    (frequency_score h) (recency_score h) (regularity_score h) t) ;;;
  modify (fun h => recompute_score (set_recency h (recency (sat_sub now (hot_last h))))).

Definition update_recency (now : Z) (h : ChunkHotness) : ChunkHotness :=
  recompute_score (set_recency h (recency (sat_sub now (hot_last h)))).

Definition is_hot (h : ChunkHotness) : bool := fge (score h) (lit f32 5 10).
Definition is_cold (h : ChunkHotness) : bool := flt (score h) (lit f32 2 10).

Definition access_frequency (now : Z) (h : ChunkHotness) : float :=
  let elapsed := sat_sub now (hot_first h) in
  if elapsed =? 0 then f64_zero else fdiv f64 (of_int f64 (hot_count h)) (of_int f64 elapsed).

(** ** The tracker *)

Record HotnessTracker := mkHotTracker {
  hotness_map : gmap ChunkId ChunkHotness;
  ht_log : TraceLog;
  max_tracked : Z;
}.

Definition HotTracker_new (max : Z) (l : TraceLog) : HotnessTracker := mkHotTracker ∅ l max.

Abbreviation HtM := (M HotnessTracker unit).

Definition ht_record_access (b : Build) (now : Z) (c : ChunkId) (size : Z) : HtM unit :=
  t <- gets id ;;
  (match hotness_map t !! c with
   | Some _ => ret tt
   | None =>
       (fun t => let '(o, l) := record (Tr.ChunkCreated c 0 Ram now) (ht_log t) in
                 (o, mkHotTracker (hotness_map t) l (max_tracked t))) ;;;
       modify (fun t => mkHotTracker (<[c := Hot_new c now]> (hotness_map t)) (ht_log t) (max_tracked t))
   end) ;;;
  fun t =>
    match hotness_map t !! c with
    | None => (Panic "unreachable", t)
    | Some h =>
        let '(o, h') := hot_record_access b now size h in
        (o, mkHotTracker (<[c := h']> (hotness_map t)) (ht_log t) (max_tracked t))
    end.

Definition get_hotness (t : HotnessTracker) (c : ChunkId) : option ChunkHotness := hotness_map t !! c.

(** Iteration is in the order of the [BTreeMap]. *)
Definition all_hotness (t : HotnessTracker) : list (ChunkId * ChunkHotness) :=
  btree_iter (hotness_map t).
Definition find_hot_chunks (threshold : float) (t : HotnessTracker) : list (ChunkId * ChunkHotness) :=
  filter (fun x => fge (score x.2) threshold = true) (all_hotness t).
Definition find_cold_chunks (threshold : float) (t : HotnessTracker) : list (ChunkId * ChunkHotness) :=
  filter (fun x => flt (score x.2) threshold = true) (all_hotness t).

Definition decay_all (now : Z) (t : HotnessTracker) : HotnessTracker :=
  mkHotTracker (update_recency now <$> hotness_map t) (ht_log t) (max_tracked t).
Definition ht_remove (c : ChunkId) (t : HotnessTracker) : option ChunkHotness * HotnessTracker :=
  (hotness_map t !! c, mkHotTracker (delete c (hotness_map t)) (ht_log t) (max_tracked t)).
Definition ht_len (t : HotnessTracker) : Z := Z.of_nat (size (hotness_map t)).
Definition ht_clear (t : HotnessTracker) : HotnessTracker := mkHotTracker ∅ (ht_log t) (max_tracked t).

Definition top_n (n : nat) (t : HotnessTracker) : list (ChunkId * ChunkHotness) :=
  take n (sort_by (fun a b => fcmp (score b.2) (score a.2)) (all_hotness t)).
Definition bottom_n (n : nat) (t : HotnessTracker) : list (ChunkId * ChunkHotness) :=
  take n (sort_by (fun a b => fcmp (score a.2) (score b.2)) (all_hotness t)).
End hotness.

(** ** Theorems *)

Section scores.
Context `{Libm}.

Definition unit_score (h : ChunkHotness) : Prop :=
  fle f32_zero (score h) = true /\ fle (score h) f32_one = true.

Lemma unit_score_number h : unit_score h -> is_nan (score h) = false.
Proof. intros [H1 _]. by apply FloatOrder.fle_not_nan in H1 as [_ ?]. Qed.

Lemma frequency_number n :
  is_nan (fsub f32 f32_one (fdiv f32 f32_one
    (fadd f32 f32_one (fdiv f32 (of_int f32 n) (of_int f32 10))))) = false.
Proof.
  apply FloatNaN.fsub_nan; [done|]. apply FloatNaN.fdiv_nan; [done| |done].
  apply FloatNaN.fadd_nan_r; [done|].
  apply FloatNaN.fdiv_nan; [apply FloatNaN.of_int_nan|done|apply orb_true_r].
Qed.

(** With the recency of a chunk just accessed the score is in the unit interval. *)
Lemma recompute_fresh h : recency_score h = f32_one -> unit_score (recompute_score h).
Proof.
  intros Hr. unfold unit_score, recompute_score. cbn -[f32_zero f32_one fle fclamp fadd fmul fsub fdiv lit of_int f32].
  rewrite Hr. apply FloatOrder.fclamp_range; [|done].
  apply FloatNaN.fadd_nan; [|by case_match].
  apply FloatNaN.fadd_nan; [|done]. apply FloatNaN.fmul_nonzero_nan; [done|].
  apply frequency_number.
Qed.
End scores.

Section tracker.
Context `{Libm}.

(** Entries are filed under their own chunk, were accessed at least once, and
    have a score between 0 and 1. *)
Definition entry_ok (c : ChunkId) (h : ChunkHotness) : Prop :=
  hot_chunk h = c /\ 1 <= hot_count h /\ unit_score h.
Definition tracker_ok (t : HotnessTracker) : Prop := map_Forall entry_ok (hotness_map t).

Definition fits (h : ChunkHotness) (size : Z) : Prop :=
  in_u 64 (hot_count h + 1) /\ in_u 64 (total_bytes h + size).

Lemma hot_record_access_ok {E} b now size h :
  fits h size ->
  exists h', hot_record_access (E := E) b now size h = (Ok tt, h') /\
    hot_chunk h' = hot_chunk h /\ hot_count h' = hot_count h + 1 /\ hot_last h' = now /\
    hot_first h' = (if hot_count h =? 0 then now else hot_first h) /\
    total_bytes h' = total_bytes h + size /\ recency_score h' = f32_one /\ unit_score h'.
Proof.
  intros [H1 H2]. unfold hot_record_access, modify, lift, bind, gets, id.
  rewrite !arith_in by done. eexists. split; [done|].
  unfold recency, sat_sub. cbn [hot_last]. rewrite Z.sub_diag, Z.max_id.
  replace (hot_count h + 1 =? 1) with (hot_count h =? 0) by (destruct (Z.eqb_spec (hot_count h) 0), (Z.eqb_spec (hot_count h + 1) 1); lia || done).
  split_and!; [done..|]. by apply recompute_fresh.
Qed.

(** Recording an access.  With a trace log that has room and counters that
    do not overflow, [HotnessTracker::record_access] succeeds: the chunk's
    entry has one more access and is dated now with full recency, a chunk seen
    for the first time is announced in the log, no other entry changes, and
    every entry keeps a score in the unit interval. *)
Theorem access_recorded b now c size t :
  tracker_ok t -> healthy_log (ht_log t) ->
  fits (default (Hot_new c now) (hotness_map t !! c)) size ->
  exists t' h', ht_record_access b now c size t = (Ok tt, t') /\
    tracker_ok t' /\ healthy_log (ht_log t') /\
    get_hotness t' c = Some h' /\
    hot_count h' = default 0 (hot_count <$> get_hotness t c) + 1 /\
    total_bytes h' = default 0 (total_bytes <$> get_hotness t c) + size /\
    hot_last h' = now /\ recency_score h' = f32_one /\
    (forall c', c' <> c -> get_hotness t' c' = get_hotness t c') /\
    match get_hotness t c with
    | Some _ => ht_log t' = ht_log t
    | None => last (log_events (ht_log t')) = Some (Tr.ChunkCreated c 0 Ram now)
    end.
Proof.
  intros Hok Hlog Hfit. unfold ht_record_access, get_hotness, bind, gets, id.
  destruct (hotness_map t !! c) as [h|] eqn:Eh; cbn [ret modify].
  - rewrite Eh. simpl in Hfit.
    destruct (hot_record_access_ok (E := unit) b now size h Hfit)
      as (h' & -> & Hc & Hn & Hl & _ & Hb & Hr & Hu).
    pose proof (Hok _ _ Eh) as (Hc0 & Hn0 & _).
    exists (mkHotTracker (<[c:=h']> (hotness_map t)) (ht_log t) (max_tracked t)), h'.
    split_and!; try done; cbn [hotness_map].
    + apply map_Forall_insert_2; [|done]. split_and!; [congruence|lia|done].
    + by rewrite lookup_insert_eq.
    + intros c' Hne. by rewrite lookup_insert_ne.
  - destruct (record_healthy (E := unit) (Tr.ChunkCreated c 0 Ram now) (ht_log t) Hlog)
      as (l' & -> & Hl' & Hlast). cbn [modify hotness_map ht_log max_tracked].
    rewrite lookup_insert_eq.
    destruct (hot_record_access_ok (E := unit) b now size (Hot_new c now) Hfit)
      as (h' & -> & Hc & Hn & Hl & _ & Hb & Hr & Hu).
    exists (mkHotTracker (<[c:=h']> (<[c:=Hot_new c now]> (hotness_map t))) l' (max_tracked t)), h'.
    rewrite insert_insert_eq. split_and!; try done; cbn [hotness_map].
    + apply map_Forall_insert_2; [|done]. split_and!; [done|rewrite Hn; done|done].
    + by rewrite lookup_insert_eq.
    + intros c' Hne. by rewrite lookup_insert_ne.
Qed.

(** Ranking by score. *)
Lemma rank_sorted (sgn : bool) (l : list (ChunkId * ChunkHotness)) :
  Forall (fun x => is_nan (score x.2) = false) l ->
  StronglySorted (fun a b => (if sgn then fcmp (score b.2) (score a.2) else fcmp (score a.2) (score b.2)) <> Gt)
    (sort_by (fun a b => if sgn then fcmp (score b.2) (score a.2) else fcmp (score a.2) (score b.2)) l).
Proof.
  apply sort_by_sorted.
  - intros x y Hx Hy. destruct sgn; by apply FloatOrder.fcmp_antisym.
  - intros x y z Hx Hy Hz ??. destruct sgn; eapply (FloatOrder.fcmp_trans _ (score y.2)); done.
Qed.

Lemma tracker_scores t :
  tracker_ok t -> Forall (fun x => is_nan (score x.2) = false) (all_hotness t).
Proof.
  intros Hok. apply Forall_forall. intros [c h] Hin. apply elem_of_btree_iter in Hin.
  apply unit_score_number. by apply (Hok c h).
Qed.

Lemma ranked_prefix {A} (R : A -> A -> Prop) (l : list A) n x y :
  StronglySorted R l -> x ∈ take n l -> y ∈ drop n l -> R x y.
Proof.
  intros Hs Hx Hy. rewrite <- (take_drop n l) in Hs.
  by eapply StronglySorted_app_1_elem_of.
Qed.

(** The hottest chunks.  [top_n] returns the [n] hottest chunks (all of
    them when there are fewer), hottest first: the result is a part of the
    tracked entries, is sorted by falling score, and no entry left out has a
    higher score than one returned. *)
Theorem top_n_hottest n t :
  tracker_ok t ->
  length (top_n n t) = Nat.min n (size (hotness_map t)) /\
  StronglySorted (fun a b => fle (score b.2) (score a.2) = true) (top_n n t) /\
  (forall c h, (c, h) ∈ top_n n t -> get_hotness t c = Some h) /\
  (forall c h x, get_hotness t c = Some h -> (c, h) ∉ top_n n t -> x ∈ top_n n t ->
     fle (score h) (score x.2) = true).
Proof.
  intros Hok. pose proof (tracker_scores t Hok) as Hnum.
  pose proof (rank_sorted true _ Hnum) as Hs. cbv beta iota in Hs.
  pose proof (sort_by_permutation (fun a b : ChunkId * ChunkHotness => fcmp (score b.2) (score a.2)) (all_hotness t)) as Hp.
  assert (forall x, x ∈ sort_by (fun a b => fcmp (score b.2) (score a.2)) (all_hotness t) ->
    is_nan (score x.2) = false) as Hn.
  { intros x Hx. rewrite Hp in Hx. by eapply Forall_forall in Hnum. }
  unfold top_n, get_hotness. set (l := sort_by _ _) in *. split_and!.
  - rewrite length_take, Hp. unfold all_hotness. by rewrite length_btree_iter.
  - rewrite <- (take_drop n l) in Hs. apply StronglySorted_app_1_l in Hs.
    assert (Forall (fun x : ChunkId * ChunkHotness => is_nan (score x.2) = false) (take n l)) as Ht.
    { apply Forall_take, Forall_forall. auto. }
    clear -Hs Ht. induction Hs as [|x k Hk IH Hx]; [constructor|].
    apply Forall_cons in Ht as [Hx1 Ht]. constructor; [auto|].
    rewrite Forall_forall in *. intros y Hy. apply FloatOrder.fcmp_fle; auto.
  - intros c h Hin. apply elem_of_btree_iter. fold (all_hotness t). rewrite <- Hp.
    eapply elem_of_sublist; [done|apply sublist_take].
  - intros c h x Hc Hout Hx. apply elem_of_btree_iter in Hc. fold (all_hotness t) in Hc.
    rewrite <- Hp in Hc. fold l in Hc. rewrite <- (take_drop n l) in Hc.
    apply elem_of_app in Hc as [?|Hc]; [done|].
    pose proof (ranked_prefix _ _ n _ _ Hs Hx Hc) as Hle. apply FloatOrder.fcmp_fle; [| |done].
    + apply (Hn (c, h)). rewrite <- (take_drop n l). apply elem_of_app. auto.
    + apply Hn. rewrite <- (take_drop n l). apply elem_of_app. auto.
Qed.
End tracker.

(** ** Witnesses *)

Module HotnessExample.
Definition libm : Libm := {| libm_exp := fun _ => of_int f64 0 |}.
Definition c1 : ChunkId := mkChunkId (repeat Byte.x01 32).
Definition t0 : HotnessTracker := HotTracker_new 10 (Log_new 10).

Lemma t0_ok : tracker_ok t0.
Proof. apply map_Forall_empty. Qed.
Lemma access_recorded_witness :
  exists t' h', ht_record_access (H := libm) Debug 5 c1 64 t0 = (Ok tt, t') /\
    get_hotness t' c1 = Some h' /\ hot_count h' = 1 /\ hot_last h' = 5.
Proof.
  assert (healthy_log (ht_log t0)) as Hl by (unfold healthy_log, log_len; simpl; lia).
  assert (fits (default (Hot_new c1 5) (hotness_map t0 !! c1)) 64) as Hf by (unfold fits, in_u; cbn [t0 HotTracker_new hotness_map]; rewrite lookup_empty; simpl; lia).
  pose proof (access_recorded (H := libm) Debug 5 c1 64 t0 t0_ok Hl Hf) as (t' & h' & E & _ & _ & G & N & _ & L & _).
  exists t', h'. by split_and!.
Defined.

(** A tracker with one chunk accessed once. *)
Definition h1 : ChunkHotness := (hot_record_access (E := unit) (H := libm) Debug 5 64 (Hot_new c1 5)).2.
Definition t1 : HotnessTracker := mkHotTracker {[c1 := h1]} (Log_new 10) 10.

Lemma top_n_hottest_witness : length (top_n 3 t1) = 1%nat.
Proof.
  assert (tracker_ok t1) as Hok.
  { apply map_Forall_singleton. split_and!; [done|done|]. by split; vm_compute. }
  apply (top_n_hottest 3 t1 Hok).
Defined.
End HotnessExample.
