(* ===== verification/Migration.v ===== *)
(** * The migration engine: [ghost-daemon/src/migration.rs]

    The engine asks a placement policy which stored chunks to move, holds back
    chunks that moved recently, and gates each proposed move by backpressure,
    I/O cost and capacity.  It is a client of the interface [PolicyLaws]: the
    theorems hold for every policy that keeps it.  The hotness tracker, the
    chunk states and the cost models of the registered backends are read only
    and are fields of the state; each reading of the clock is an argument
    ([now] in milliseconds, [now_s] the policy's own reading in seconds, [ts]
    the time stamped on events). *)

From Stdlib Require Import ZArith Lia Sorted.
From stdpp Require Import base gmap strings pretty list sorting.
From S2P Require Import Prelude Floats CoreTypes ChunkState Pressure Events EventBus Trace Policy Hotness Backpressure.

Open Scope rust_scope.

(** ** Configuration and data *)

Record MigrationConfig := mkMigConfig {
  max_concurrent_migrations : Z;
  hot_threshold : float;                 (* f32 *)
  cold_threshold : float;                (* f32 *)
  min_migration_interval_secs : Z;
  max_migrations_per_cycle : nat;
  enable_promotion : bool;
  enable_eviction : bool;
  eviction_pressure_threshold : float;   (* f32 *)
  max_chunk_size_for_migration : Z;
  migration_timeout_secs : Z;
  io_cost_threshold : float;             (* f64 *)
}.

Definition MigrationConfig_default : MigrationConfig :=
  mkMigConfig 2 (lit f32 5 10) (lit f32 2 10) 60 16 true true (lit f32 7 10)
    (256 * 1024 * 1024) 120 (of_int f64 100).

Record MigrationStats := mkMigStats {
  evaluation_cycles : Z;
  promotions : Z;
  evictions : Z;
  skipped : Z;
  failures : Z;
  bytes_migrated : Z;
  last_evaluation : Z;
  active_migrations : Z;
  cooldown_blocks : Z;
  anti_oscillation_blocks : Z;
}.

Record PendingMigration := mkPending {
  pm_chunk : ChunkId;
  pm_from : TierId;
  pm_to : TierId;
  pm_priority : TransferPriority;
  pm_size : Z;
  hotness_score : float;                 (* f32 *)
  identified_at : Z;
}.

(** ** The eviction cooldown *)

Record EvictionCooldown := mkCooldown {
  last_eviction : gmap ChunkId Z;
  last_promotion : gmap ChunkId Z;
  cooldown_us : Z;
}.

Definition Cooldown_new {E} (b : Build) (cooldown_secs : Z) : outcome E EvictionCooldown :=
  obind (arith b 64 (cooldown_secs * 1000000)) (fun us => Ok (mkCooldown ∅ ∅ us)).

(** Whether less than the cooldown passed since the chunk's entry. *)
Definition recent (cd : Z) (m : gmap ChunkId Z) (c : ChunkId) (now : Z) : bool :=
  match m !! c with Some t => sat_sub now t <? cd | None => false end.

Definition can_evict (cd : EvictionCooldown) (c : ChunkId) (now : Z) : bool :=
  if recent (cooldown_us cd) (last_eviction cd) c now then false
  else if recent (cooldown_us cd) (last_promotion cd) c now then false
  else true.

Definition record_eviction (c : ChunkId) (now : Z) (cd : EvictionCooldown) : EvictionCooldown :=
  mkCooldown (<[c := now]> (last_eviction cd)) (last_promotion cd) (cooldown_us cd).
Definition record_promotion (c : ChunkId) (now : Z) (cd : EvictionCooldown) : EvictionCooldown :=
  mkCooldown (last_eviction cd) (<[c := now]> (last_promotion cd)) (cooldown_us cd).

(** ** The engine *)

Record MigrationEngine (P : Type) := mkEngine {
  mg_config : MigrationConfig;
  mg_policy : P;
  mg_hotness : HotnessTracker;
  mg_states : StateMachine;
  mg_log : TraceLog;
  mg_backends : gmap TierId PhysicalCost;  (* what [cost_model] of each backend returns *)
  mg_stats : MigrationStats;
  mg_active : gset ChunkId;
  mg_last : gmap ChunkId Z;
  mg_cooldown : EvictionCooldown;
  mg_emitter : option EventEmitter;
}.
Arguments mkEngine {P}.
Arguments mg_config {P}.
Arguments mg_policy {P}.
Arguments mg_hotness {P}.
Arguments mg_states {P}.
Arguments mg_log {P}.
Arguments mg_backends {P}.
Arguments mg_stats {P}.
Arguments mg_active {P}.
Arguments mg_last {P}.
Arguments mg_cooldown {P}.
Arguments mg_emitter {P}.

Section engine.
Context {P : Type} `{PlacementPolicy P}.
Local Abbreviation Engine := (MigrationEngine P).
Local Abbreviation MgM := (M Engine unit).

Definition mg_set_stats (e : Engine) (st : MigrationStats) : Engine :=
  mkEngine (mg_config e) (mg_policy e) (mg_hotness e) (mg_states e) (mg_log e) (mg_backends e) st
    (mg_active e) (mg_last e) (mg_cooldown e) (mg_emitter e).
Definition mg_set_log (e : Engine) (l : TraceLog) : Engine :=
  mkEngine (mg_config e) (mg_policy e) (mg_hotness e) (mg_states e) l (mg_backends e) (mg_stats e)
    (mg_active e) (mg_last e) (mg_cooldown e) (mg_emitter e).
Definition mg_set_active (e : Engine) (a : gset ChunkId) : Engine :=
  mkEngine (mg_config e) (mg_policy e) (mg_hotness e) (mg_states e) (mg_log e) (mg_backends e)
    (mg_stats e) a (mg_last e) (mg_cooldown e) (mg_emitter e).
Definition mg_set_last (e : Engine) (l : gmap ChunkId Z) : Engine :=
  mkEngine (mg_config e) (mg_policy e) (mg_hotness e) (mg_states e) (mg_log e) (mg_backends e)
    (mg_stats e) (mg_active e) l (mg_cooldown e) (mg_emitter e).
Definition mg_set_cooldown (e : Engine) (c : EvictionCooldown) : Engine :=
  mkEngine (mg_config e) (mg_policy e) (mg_hotness e) (mg_states e) (mg_log e) (mg_backends e)
    (mg_stats e) (mg_active e) (mg_last e) c (mg_emitter e).
Definition mg_set_emitter (e : Engine) (o : option EventEmitter) : Engine :=
  mkEngine (mg_config e) (mg_policy e) (mg_hotness e) (mg_states e) (mg_log e) (mg_backends e)
    (mg_stats e) (mg_active e) (mg_last e) (mg_cooldown e) o.

Definition MigrationStats_default : MigrationStats := mkMigStats 0 0 0 0 0 0 0 0 0 0.

Definition Engine_new {E} (b : Build) (c : MigrationConfig) (p : P) (ht : HotnessTracker)
    (sm : StateMachine) (l : TraceLog) (bs : gmap TierId PhysicalCost) : outcome E Engine :=
  obind (Cooldown_new b (Z.max (min_migration_interval_secs c) 5)) (fun cd =>
  Ok (mkEngine c p ht sm l bs MigrationStats_default ∅ ∅ cd None)).

Definition mg_trace (ev : Tr.TraceEvent) : MgM unit := fun e =>
  let '(o, l) := record ev (mg_log e) in (o, mg_set_log e l).

Definition mg_emit (ts : Z) (ev : Ev.Event) : MgM unit :=
  modify (fun e => mg_set_emitter e
    (match mg_emitter e with Some em => Some (try_emit ts ev em).2 | None => None end)).

Definition skip (b : Build) : MgM unit :=
  st <- gets mg_stats ;;
  n <- lift (arith b 64 (skipped st + 1)) ;;
  modify (fun e => mg_set_stats e (mkMigStats (evaluation_cycles st) (promotions st) (evictions st) n
    (failures st) (bytes_migrated st) (last_evaluation st) (active_migrations st)
    (cooldown_blocks st) (anti_oscillation_blocks st))).

Definition block (b : Build) : MgM unit :=
  st <- gets mg_stats ;;
  n <- lift (arith b 64 (cooldown_blocks st + 1)) ;;
  modify (fun e => mg_set_stats e (mkMigStats (evaluation_cycles st) (promotions st) (evictions st)
    (skipped st) (failures st) (bytes_migrated st) (last_evaluation st) (active_migrations st)
    n (anti_oscillation_blocks st))).

(** The bodies of the [for] loops push at most one element each. *)
Fixpoint collect {A B} (f : A -> MgM (option B)) (l : list A) : MgM (list B) :=
  match l with
  | [] => ret []
  | x :: l => r <- f x ;; rs <- collect f l ;; ret (match r with Some y => y :: rs | None => rs end)
  end.

Definition zero_sum : list byte := repeat Byte.x00 32.

Definition stored_meta (ht : HotnessTracker) (c : ChunkId) : ChunkMeta :=
  mkChunkMeta c 0 0 Ram Stored 0 (default 0 (hot_last <$> get_hotness ht c))
    (default 0 (hot_count <$> get_hotness ht c)) CompNone zero_sum.

Definition hot_meta (c : ChunkId) (h : ChunkHotness) : ChunkMeta :=
  mkChunkMeta c 0 0 Ram Stored (hot_first h) (hot_last h) (hot_count h) CompNone zero_sum.

Definition reason_of (label : string) (x : float) : string := label +:+ fixed 2 x.

(** One iteration of the loop of [evaluate]. *)
Definition evaluate_chunk (b : Build) (now now_s ts : Z) (pr : PressureState)
    (x : ChunkId * ChunkMeta) : MgM (option PendingMigration) :=
  let '(c, meta) := x in
  e <- gets id ;;
  if bool_decide (c ∈ mg_active e) then ret None
  else if recent (min_migration_interval_secs (mg_config e)) (mg_last e) c now then ret None
  else
    match should_migrate now_s (mg_policy e) meta (meta_tier meta) pr with
    | None => skip b ;;; ret None
    | Some target =>
        if bool_decide (target = meta_tier meta) then skip b ;;; ret None
        else if max_chunk_size_for_migration (mg_config e) <? meta_size meta then skip b ;;; ret None
        else
          let m := mkPending c (meta_tier meta) target (migration_priority now_s (mg_policy e) meta pr)
            (meta_size meta) (default f32_zero (score <$> get_hotness (mg_hotness e) c)) now in
          mg_trace (Tr.PolicyDecision c (meta_tier meta) target
            (reason_of "pressure=" (max_pressure pr)) now) ;;;
          mg_emit ts (Ev.MigrationDecision 0 c (meta_tier meta) target
            (reason_of "pressure=" (max_pressure pr))) ;;;
          ret (Some m)
    end.

Definition migration_cmp (a b : PendingMigration) : comparison :=
  match value (pm_priority b) ?= value (pm_priority a) with
  | Eq => fcmp (hotness_score b) (hotness_score a)
  | o => o
  end.

Definition mig_evaluate (b : Build) (now now_s ts : Z) (pr : PressureState)
    : MgM (list PendingMigration) :=
  st <- gets mg_stats ;;
  n <- lift (arith b 64 (evaluation_cycles st + 1)) ;;
  modify (fun e => mg_set_stats e (mkMigStats n (promotions st) (evictions st) (skipped st)
    (failures st) (bytes_migrated st) now (active_migrations st) (cooldown_blocks st)
    (anti_oscillation_blocks st))) ;;;
  e <- gets id ;;
  let stored := (fun c => (c, stored_meta (mg_hotness e) c)) <$> chunks_in_state (mg_states e) Stored in
  ms <- collect (evaluate_chunk b now now_s ts pr) stored ;;
  ret (take (max_migrations_per_cycle (mg_config e)) (sort_by migration_cmp ms)).

(** One iteration of the loop of [evaluate_promotions]. *)
Definition promote_chunk (now now_s ts : Z) (pr : PressureState) (x : ChunkId * ChunkHotness)
    : MgM (option PendingMigration) :=
  let '(c, h) := x in
  e <- gets id ;;
  if negb (bool_decide (get_state (mg_states e) c = Some Stored)) then ret None
  else
    let meta := hot_meta c h in
    let target := select_target_tier now_s (mg_policy e) meta pr (btree_keys (mg_backends e)) in
    if bool_decide (target = meta_tier meta) then ret None
    else
      mg_emit ts (Ev.MigrationDecision 0 c (meta_tier meta) target
        (reason_of "promotion hotness=" (score h))) ;;;
      ret (Some (mkPending c (meta_tier meta) target (migration_priority now_s (mg_policy e) meta pr)
        (meta_size meta) (score h) now)).

Definition evaluate_promotions (now now_s ts : Z) (pr : PressureState) : MgM (list PendingMigration) :=
  e <- gets id ;;
  if negb (enable_promotion (mg_config e)) then ret []
  else collect (promote_chunk now now_s ts pr) (find_hot_chunks (hot_threshold (mg_config e)) (mg_hotness e)).

(** One iteration of the loop of [evaluate_evictions]. *)
Definition evict_chunk (b : Build) (now now_s ts : Z) (pr : PressureState) (x : ChunkId * ChunkHotness)
    : MgM (option PendingMigration) :=
  let '(c, h) := x in
  e <- gets id ;;
  if negb (bool_decide (get_state (mg_states e) c = Some Stored)) then ret None
  else if negb (can_evict (mg_cooldown e) c now) then block b ;;; ret None
  else
    let meta := hot_meta c h in
    match select_viction now_s (mg_policy e) [(c, meta)] pr with
    | None => ret None
    | Some evict_id =>
        let target := select_target_tier now_s (mg_policy e) meta pr (btree_keys (mg_backends e)) in
        if bool_decide (target = meta_tier meta) then ret None
        else
          let m := mkPending evict_id (meta_tier meta) target
            (migration_priority now_s (mg_policy e) meta pr) (meta_size meta) (score h) now in
          modify (fun e => mg_set_cooldown e (record_eviction evict_id now (mg_cooldown e))) ;;;
          mg_trace (Tr.Eviction evict_id (meta_tier meta) ByPressure now) ;;;
          mg_emit ts (Ev.MigrationDecision 0 evict_id (meta_tier meta) target
            (reason_of "eviction pressure=" (max_pressure pr))) ;;;
          ret (Some m)
    end.

Definition evaluate_evictions (b : Build) (now now_s ts : Z) (pr : PressureState)
    : MgM (list PendingMigration) :=
  e <- gets id ;;
  if negb (enable_eviction (mg_config e)) then ret []
  else if flt (max_pressure pr) (eviction_pressure_threshold (mg_config e)) then ret []
  else collect (evict_chunk b now now_s ts pr)
         (find_cold_chunks (cold_threshold (mg_config e)) (mg_hotness e)).

(** ** Costs *)

Definition cost_of (e : Engine) (t : TierId) : PhysicalCost :=
  default PhysicalCost_new (mg_backends e !! t).

(** [u32::saturating_add]. *)
Definition sat_add32 (x y : Z) : Z := Z.min (x + y) (2 ^ 32 - 1).

Definition estimate_promotion_cost (e : Engine) (from to : TierId) (size : Z) : PhysicalCost :=
  let from_cost := cost_of e from in
  let to_cost := cost_of e to in
  let base_latency := fadd f64 (latency_ms from_cost) (latency_ms to_cost) in
  let base_bandwidth := fmin (bandwidth_bps from_cost) (bandwidth_bps to_cost) in
  let disk := bool_decide (from = Disk) || bool_decide (to = Disk) in
  let '(overhead_latency, overhead_reliability) :=
    if disk then
      let compression :=
        if 0 <? size then
          fmul f64 (fdiv f64 (of_int f64 size)
            (fmul f64 (fmul f64 (of_int f64 100) (of_int f64 1024)) (of_int f64 1024))) (of_int f64 1000)
        else f64_zero in
      let fsync := if bool_decide (to = Disk) then f64_one else f64_zero in
      (fadd f64 compression fsync, lit f64 999 1000)
    else (f64_zero, f64_one) in
  let total_bandwidth :=
    if disk then
      fmin base_bandwidth
        (if bool_decide (from = Disk) then bandwidth_bps from_cost else bandwidth_bps to_cost)
    else base_bandwidth in
  mkCost (fadd f64 base_latency overhead_latency) total_bandwidth
    (fmul f64 (fmul f64 (reliability from_cost) (reliability to_cost)) overhead_reliability)
    (fmax (cost_io_pressure from_cost) (cost_io_pressure to_cost))
    (sat_add32 (cost_queue_depth from_cost) (cost_queue_depth to_cost)).

Definition estimate_io_cost (e : Engine) (from to : TierId) : PhysicalCost :=
  let from_cost := cost_of e from in
  let to_cost := cost_of e to in
  mkCost (fadd f64 (latency_ms from_cost) (latency_ms to_cost))
    (fmin (bandwidth_bps from_cost) (bandwidth_bps to_cost))
    (fmul f64 (reliability from_cost) (reliability to_cost))
    (fmax (cost_io_pressure from_cost) (cost_io_pressure to_cost))
    (sat_add32 (cost_queue_depth from_cost) (cost_queue_depth to_cost)).

(** ** Jobs and their bookkeeping *)

Definition create_transfer_job (now_secs now_instant : Z) (m : PendingMigration) : TransferJob :=
  TransferJob_new now_secs now_instant (pm_chunk m) (pm_from m) (pm_to m) (pm_size m) (pm_priority m).

Definition set_active_count (st : MigrationStats) (n : Z) : MigrationStats :=
  mkMigStats (evaluation_cycles st) (promotions st) (evictions st) (skipped st) (failures st)
    (bytes_migrated st) (last_evaluation st) n (cooldown_blocks st) (anti_oscillation_blocks st).

Definition sync_active : MgM unit :=
  modify (fun e => mg_set_stats e (set_active_count (mg_stats e) (Z.of_nat (size (mg_active e))))).

Definition mark_active (c : ChunkId) : MgM unit :=
  modify (fun e => mg_set_active e ({[c]} ∪ mg_active e)) ;;; sync_active.

Definition set_done (st : MigrationStats) (pro fail bytes : Z) : MigrationStats :=
  mkMigStats (evaluation_cycles st) pro (evictions st) (skipped st) fail bytes
    (last_evaluation st) (active_migrations st) (cooldown_blocks st) (anti_oscillation_blocks st).

(** [now1] and [now2] are the two readings of the clock. *)
Definition mark_complete (b : Build) (now1 now2 ts : Z) (c : ChunkId) (bytes : Z) (success : bool)
    : MgM unit :=
  modify (fun e => mg_set_active e (mg_active e ∖ {[c]})) ;;;
  sync_active ;;;
  st <- gets mg_stats ;;
  (if success then
     n <- lift (arith b 64 (promotions st + 1)) ;;
     modify (fun e => mg_set_stats e (set_done st n (failures st) (bytes_migrated st))) ;;;
     t <- lift (arith b 64 (bytes_migrated st + bytes)) ;;
     modify (fun e => mg_set_stats e (set_done st n (failures st) t))
   else
     n <- lift (arith b 64 (failures st + 1)) ;;
     modify (fun e => mg_set_stats e (set_done st (promotions st) n (bytes_migrated st)))) ;;;
  modify (fun e => mg_set_last e (<[c := now1]> (mg_last e))) ;;;
  (if success then
     modify (fun e => mg_set_cooldown e (record_promotion c now2 (mg_cooldown e)))
   else ret tt) ;;;
  mg_emit ts (Ev.MigrationCompleted 0 c Ram Disk 0).

Definition is_migrating_chunk (e : Engine) (c : ChunkId) : bool := bool_decide (c ∈ mg_active e).
Definition active_count (e : Engine) : Z := Z.of_nat (size (mg_active e)).
Definition has_capacity (e : Engine) : bool :=
  active_count e <? max_concurrent_migrations (mg_config e).

(** ** The gate *)

Definition decide_migration (now ts : Z) (m : PendingMigration) (io_cost : PhysicalCost)
    (action : BackpressureAction) : MgM (option PendingMigration) :=
  e <- gets id ;;
  if negb (allows action (pm_priority m)) then
    mg_emit ts (Ev.MigrationRejected now (pm_chunk m) (pm_from m) (pm_to m) (cost_score io_cost)
      (io_cost_threshold (mg_config e))) ;;; ret None
  else if is_too_pressured io_cost then
    mg_emit ts (Ev.MigrationDeferred now (pm_chunk m) (pm_from m) (pm_to m)
      ("I/O pressure too high: pressure=" +:+ fixed 2 (cost_io_pressure io_cost)
       +:+ ", queue_depth=" +:+ pretty (cost_queue_depth io_cost))) ;;; ret None
  else if fgt (cost_score io_cost) (io_cost_threshold (mg_config e)) then
    mg_emit ts (Ev.MigrationDeferred now (pm_chunk m) (pm_from m) (pm_to m)
      ("I/O cost exceeds threshold: cost=" +:+ fixed 2 (cost_score io_cost)
       +:+ ", threshold=" +:+ fixed 2 (io_cost_threshold (mg_config e)))) ;;; ret None
  else if negb (has_capacity e) then
    mg_emit ts (Ev.MigrationDeferred now (pm_chunk m) (pm_from m) (pm_to m)
      "migration engine at capacity") ;;; ret None
  else
    mg_emit ts (Ev.MigrationDecided now (pm_chunk m) (pm_from m) (pm_to m) (cost_score io_cost)) ;;;
    ret (Some m).
End engine.

(** ** Loops *)

Section collect_rules.
Context {P : Type}.
Local Abbreviation Engine := (MigrationEngine P).

(** A loop whose body is known: [I done rest] holds between iterations. *)
Lemma collect_wp {A B} (f : A -> M Engine unit (option B)) (g : A -> option B)
    (I : list A -> list A -> Engine -> Prop) :
  (forall d x l e, I d (x :: l) e -> wp (f x) (fun o e' => o = Ok (g x) /\ I (d ++ [x]) l e') e) ->
  forall l d e, I d l e -> wp (collect f l) (fun o e' => o = Ok (omap g l) /\ I (d ++ l) [] e') e.
Proof.
  intros Hf l. induction l as [|x l IH]; intros d e HI; cbn [collect].
  - apply wp_ret. by rewrite app_nil_r.
  - wp_step. eapply wp_mono; [by apply Hf|]. intros o e1 [-> HI1]. wp_step.
    eapply wp_mono; [by apply IH|]. intros o e2 [-> HI2]. wp_step.
    rewrite <- app_assoc in HI2. split; [|done]. simpl. by destruct (g x).
Qed.

(** A loop of which only what it returned matters. *)
Lemma collect_safe {A B} (f : A -> M Engine unit (option B)) (I : list B -> Engine -> Prop) :
  (forall x h e, I h e ->
    wp (f x) (fun o e' => match o with Ok r => I (h ++ option_list r) e' | _ => True end) e) ->
  forall l h e, I h e ->
    wp (collect f l) (fun o e' => match o with Ok ys => I (h ++ ys) e' | _ => True end) e.
Proof.
  intros Hf l. induction l as [|x l IH]; intros h e HI; cbn [collect].
  - apply wp_ret. by rewrite app_nil_r.
  - wp_step. eapply wp_mono; [by apply Hf|]. intros [r|err|m] e1 HI1; [|done..]. wp_step.
    eapply wp_mono; [by apply IH|]. intros [ys|err|m] e2 HI2; [|done..]. wp_step.
    rewrite <- app_assoc in HI2. by destruct r.
Qed.
End collect_rules.

(** ** Evaluation *)

Section evaluation.
Context {P : Type} `{HP : PlacementPolicy P} `{HL : !PolicyLaws P}.
Local Abbreviation Engine := (MigrationEngine P).
Implicit Types (e : MigrationEngine P).

(** What an evaluation leaves alone. *)
Record same_inputs (e e' : Engine) : Prop := {
  si_config : mg_config e' = mg_config e;
  si_policy : mg_policy e' = mg_policy e;
  si_hotness : mg_hotness e' = mg_hotness e;
  si_states : mg_states e' = mg_states e;
  si_backends : mg_backends e' = mg_backends e;
  si_active : mg_active e' = mg_active e;
  si_last : mg_last e' = mg_last e;
}.

(** The migration the source documents for a stored chunk, if any. *)
Definition proposal (e : Engine) (now now_s : Z) (pr : PressureState) (x : ChunkId * ChunkMeta)
    : option PendingMigration :=
  if bool_decide (x.1 ∈ mg_active e) then None
  else if recent (min_migration_interval_secs (mg_config e)) (mg_last e) x.1 now then None
  else if max_chunk_size_for_migration (mg_config e) <? meta_size x.2 then None
  else (fun t => mkPending x.1 (meta_tier x.2) t (migration_priority now_s (mg_policy e) x.2 pr)
         (meta_size x.2) (default f32_zero (score <$> get_hotness (mg_hotness e) x.1)) now)
       <$> should_migrate now_s (mg_policy e) x.2 (meta_tier x.2) pr.

Definition room (e : Engine) (n : nat) : Prop :=
  healthy_log (mg_log e) /\ 0 <= skipped (mg_stats e) /\ skipped (mg_stats e) + Z.of_nat n < 2 ^ 64.

Lemma skip_wp b e n (Q : outcome unit unit -> Engine -> Prop) :
  room e (S n) ->
  (forall e', same_inputs e e' -> mg_cooldown e' = mg_cooldown e -> room e' n -> Q (Ok tt) e') ->
  wp (skip b) Q e.
Proof.
  intros (Hl & H1 & H2) HQ. unfold skip. wp_step. wp_step. wp_step. wp_step.
  rewrite arith_in by (unfold in_u; lia). wp_step. apply HQ; [done|done|].
  split; [done|]. simpl. lia.
Qed.

Lemma mg_trace_wp ev e (Q : outcome unit unit -> Engine -> Prop) :
  healthy_log (mg_log e) ->
  (forall l, healthy_log l -> Q (Ok tt) (mg_set_log e l)) -> wp (mg_trace ev) Q e.
Proof.
  intros Hl HQ. unfold wp, mg_trace. destruct (record_healthy (E := unit) ev _ Hl) as (l & -> & Hl' & _).
  by apply HQ.
Qed.

Lemma evaluate_chunk_wp b now now_s ts pr e0 e x n :
  same_inputs e0 e -> mg_cooldown e = mg_cooldown e0 -> room e (S n) ->
  wp (evaluate_chunk b now now_s ts pr x)
    (fun o e' => o = Ok (proposal e0 now now_s pr x) /\
       same_inputs e0 e' /\ mg_cooldown e' = mg_cooldown e0 /\ room e' n) e.
Proof.
  intros Hs Hcd Hr. destruct x as [c meta]. unfold evaluate_chunk, proposal. cbn [fst snd].
  assert (room e n) as Hr' by (destruct Hr as (? & ? & ?); split_and!; [done..|lia]).
  wp_step. wp_step. unfold id. rewrite (si_active _ _ Hs), (si_config _ _ Hs), (si_last _ _ Hs), (si_policy _ _ Hs), (si_hotness _ _ Hs).
  assert (forall e', same_inputs e e' -> same_inputs e0 e') as Htr.
  { intros e' Hs'. destruct Hs, Hs'. split; congruence. }
  case_bool_decide; [by apply wp_ret|]. case_match; [by apply wp_ret|].
  destruct (should_migrate now_s (mg_policy e0) meta (meta_tier meta) pr) as [t|] eqn:Et; cycle 1.
  { wp_step. apply (skip_wp _ _ n); [done|]. intros e' ???. apply wp_ret. rewrite <- Hcd. by case_match; auto. }
  apply migrate_elsewhere in Et as Hne. rewrite bool_decide_eq_false_2 by done.
  case_match.
  { wp_step. apply (skip_wp _ _ n); [done|]. intros e' ???. apply wp_ret. rewrite <- Hcd. auto. }
  wp_step. apply mg_trace_wp; [apply Hr|]. intros l Hl. unfold mg_emit. wp_step. wp_step. apply wp_ret.
  split_and!; [done|by apply Htr|done|]. destruct Hr' as (? & ? & ?). by split_and!.
Qed.

(** *** Urgency *)

Definition scored (m : PendingMigration) : Prop := is_nan (hotness_score m) = false.

Lemma migration_cmp_antisym a b :
  scored a -> scored b -> migration_cmp b a = CompOpp (migration_cmp a b).
Proof.
  intros Ha Hb. unfold migration_cmp.
  rewrite (Z.compare_antisym (value (pm_priority b))), (FloatOrder.fcmp_antisym (hotness_score b)) by done.
  by destruct (value (pm_priority b) ?= value (pm_priority a)).
Qed.

Lemma migration_cmp_trans a b c :
  scored a -> scored b -> scored c ->
  migration_cmp a b <> Gt -> migration_cmp b c <> Gt -> migration_cmp a c <> Gt.
Proof.
  intros Ha Hb Hc. unfold migration_cmp.
  pose proof (FloatOrder.fcmp_trans _ _ _ Hc Hb Ha).
  destruct (Z.compare_spec (value (pm_priority b)) (value (pm_priority a))),
    (Z.compare_spec (value (pm_priority c)) (value (pm_priority b))),
    (Z.compare_spec (value (pm_priority c)) (value (pm_priority a))); try done; try lia; auto.
Qed.

(** [at_least_as_urgent a b]: [a] is served no later than [b]. *)
Definition at_least_as_urgent (a b : PendingMigration) : Prop := migration_cmp a b <> Gt.

(** The move of chunk [c] to [t] at [now]: out of RAM, with the priority the
    policy gives the recorded metadata and the tracker's score. *)
Definition move_of (e : Engine) (now now_s : Z) (pr : PressureState) (c : ChunkId) (t : TierId) : PendingMigration :=
  mkPending c Ram t (migration_priority now_s (mg_policy e) (stored_meta (mg_hotness e) c) pr)
    0 (default f32_zero (score <$> get_hotness (mg_hotness e) c)) now.

Definition ready_to_evaluate (e : Engine) : Prop :=
  room e (size (states (mg_states e))) /\ tracker_ok (mg_hotness e) /\
  (0 <= evaluation_cycles (mg_stats e) < 2 ^ 64 - 1) /\
  0 <= max_chunk_size_for_migration (mg_config e).

(** The chunks an evaluation may move. *)
Definition eligible (e : Engine) (now : Z) (c : ChunkId) : Prop :=
  get_state (mg_states e) c = Some Stored /\ (c ∉ mg_active e) /\
  recent (min_migration_interval_secs (mg_config e)) (mg_last e) c now = false.

Definition wants (e : Engine) (now_s : Z) (pr : PressureState) (c : ChunkId) (t : TierId) : Prop :=
  should_migrate now_s (mg_policy e) (stored_meta (mg_hotness e) c) Ram pr = Some t.

Lemma proposal_spec e now now_s pr c m :
  0 <= max_chunk_size_for_migration (mg_config e) -> get_state (mg_states e) c = Some Stored ->
  proposal e now now_s pr (c, stored_meta (mg_hotness e) c) = Some m <->
  eligible e now c /\ wants e now_s pr c (pm_to m) /\
  m = move_of e now now_s pr c (pm_to m).
Proof.
  intros Hmax Hst. unfold proposal, eligible, wants. cbn [fst snd stored_meta meta_size meta_tier].
  case_bool_decide; [naive_solver|]. destruct (recent _ _ _ _); [naive_solver|].
  replace (_ <? 0) with false by lia.
  destruct (should_migrate _ _ _ _ _) as [t|]; simpl; [|naive_solver].
  split; [by intros [= <-]|]. intros (_ & [= ->] & ->). done.
Qed.

Lemma stored_list e c :
  c ∈ chunks_in_state (mg_states e) Stored <-> get_state (mg_states e) c = Some Stored.
Proof. unfold chunks_in_state. rewrite elem_of_btree_select. unfold get_state. naive_solver. Qed.

Lemma stored_length e : (length (chunks_in_state (mg_states e) Stored) <= size (states (mg_states e)))%nat.
Proof.
  unfold chunks_in_state, btree_select. rewrite length_fmap. rewrite <- (length_btree_iter (states (mg_states e))).
  apply length_filter.
Qed.

Definition proposals (e : Engine) (now now_s : Z) (pr : PressureState) : list PendingMigration :=
  omap (fun c => proposal e now now_s pr (c, stored_meta (mg_hotness e) c))
    (chunks_in_state (mg_states e) Stored).

Lemma elem_of_proposals e now now_s pr m :
  0 <= max_chunk_size_for_migration (mg_config e) ->
  m ∈ proposals e now now_s pr <->
  eligible e now (pm_chunk m) /\ wants e now_s pr (pm_chunk m) (pm_to m) /\
  m = move_of e now now_s pr (pm_chunk m) (pm_to m).
Proof.
  intros Hmax. unfold proposals. rewrite list_elem_of_omap. split.
  - intros (c & Hc & Hm). apply stored_list in Hc. apply proposal_spec in Hm as (H1 & H2 & Hm); [|done..].
    assert (pm_chunk m = c) as -> by (by rewrite Hm). done.
  - intros (H1 & H2 & Hm). exists (pm_chunk m). rewrite stored_list. split; [apply H1|].
    by apply proposal_spec; [|apply H1|].
Qed.

Lemma proposals_NoDup e now now_s pr :
  0 <= max_chunk_size_for_migration (mg_config e) -> NoDup (pm_chunk <$> proposals e now now_s pr).
Proof.
  intros Hmax. eapply sublist_NoDup; [apply (btree_select_NoDup (fun p => p.2 = Stored) (states (mg_states e)))|].
  unfold proposals. fold (chunks_in_state (mg_states e) Stored).
  assert (forall c, c ∈ chunks_in_state (mg_states e) Stored -> get_state (mg_states e) c = Some Stored)
    as Hst by (intros c; apply stored_list).
  induction (chunks_in_state (mg_states e) Stored) as [|c l IH]; [constructor|].
  simpl. destruct (proposal _ _ _ _ _) as [m|] eqn:E; simpl.
  - apply proposal_spec in E as (_ & _ & ->); [|done|apply Hst; left]. simpl. constructor.
    apply IH. intros c' Hc'. apply Hst. by right.
  - constructor. apply IH. intros c' Hc'. apply Hst. by right.
Qed.

Lemma proposals_scored e now now_s pr m :
  0 <= max_chunk_size_for_migration (mg_config e) -> tracker_ok (mg_hotness e) ->
  m ∈ proposals e now now_s pr -> scored m.
Proof.
  intros Hmax Hok Hm. apply elem_of_proposals in Hm as (_ & _ & Hm); [|done]. rewrite Hm. unfold scored. simpl.
  destruct (get_hotness (mg_hotness e) (pm_chunk m)) as [h|] eqn:E; [|done]. simpl.
  apply unit_score_number. by apply (Hok _ _ E).
Qed.

Lemma mig_evaluate_runs b now now_s ts pr e :
  ready_to_evaluate e ->
  exists e', mig_evaluate b now now_s ts pr e =
    (Ok (take (max_migrations_per_cycle (mg_config e)) (sort_by migration_cmp (proposals e now now_s pr))), e') /\
    same_inputs e e' /\ mg_cooldown e' = mg_cooldown e.
Proof.
  intros (Hr & Hok & Hn & Hmax). enough (wp (mig_evaluate b now now_s ts pr) (fun o e' =>
    o = Ok (take (max_migrations_per_cycle (mg_config e)) (sort_by migration_cmp (proposals e now now_s pr))) /\
    same_inputs e e' /\ mg_cooldown e' = mg_cooldown e) e) as Hwp.
  { unfold wp in Hwp. destruct (mig_evaluate _ _ _ _ _ e) as [o e']. simpl in Hwp.
    destruct Hwp as [-> Hwp]. by exists e'. }
  unfold mig_evaluate. do 4 wp_step. rewrite arith_in by (unfold in_u; lia). do 5 wp_step. unfold id.
  cbn [mg_config mg_hotness mg_states mg_set_stats].
  eapply wp_mono; [apply (collect_wp _ (proposal e now now_s pr)
    (fun _ rest e' => same_inputs e e' /\ mg_cooldown e' = mg_cooldown e /\ room e' (length rest)) )
    with (d := [])|].
  - intros _ x l e' (H1 & H2 & H3). by apply evaluate_chunk_wp.
  - split; [done|]. split; [done|]. rewrite length_fmap. destruct Hr as (Hl & Hs & Hb). split; [done|].
    pose proof (stored_length e). simpl. lia.
  - intros o e' (-> & H1 & H2 & _). wp_step. split; [|done]. unfold proposals. do 3 f_equal.
    generalize (chunks_in_state (mg_states e) Stored). intros l. induction l as [|c l IH]; [done|].
    simpl. destruct (proposal _ _ _ _ _); [f_equal|]; apply IH.
Qed.

(** C33: an evaluation cycle.  With any policy that keeps its laws and with
    room in the log and the counters, [evaluate] succeeds and proposes moves
    of distinct chunks: each proposed chunk is stored, is not being migrated,
    did not migrate within the configured interval and is one the policy wants
    moved, and its move leads out of RAM to the tier the policy names, with the
    priority the policy gives and the tracker's score.  At most
    [max_migrations_per_cycle] moves are returned, the most urgent first, and
    a move the policy wants is left out only when the limit is reached by moves
    that are at least as urgent as that move, with the priority and the score
    it would have. *)
Theorem evaluate_proposes b now now_s ts pr e :
  ready_to_evaluate e ->
  exists ms e', mig_evaluate b now now_s ts pr e = (Ok ms, e') /\
    same_inputs e e' /\ mg_cooldown e' = mg_cooldown e /\
    (length ms <= max_migrations_per_cycle (mg_config e))%nat /\
    NoDup (pm_chunk <$> ms) /\ StronglySorted at_least_as_urgent ms /\
    (forall m, m ∈ ms -> eligible e now (pm_chunk m) /\ wants e now_s pr (pm_chunk m) (pm_to m) /\
       pm_to m <> Ram /\ m = move_of e now now_s pr (pm_chunk m) (pm_to m)) /\
    (forall c t, eligible e now c -> wants e now_s pr c t ->
       c ∈ pm_chunk <$> ms \/
       length ms = max_migrations_per_cycle (mg_config e) /\
       Forall (fun m => at_least_as_urgent m (move_of e now now_s pr c t)) ms).
Proof.
  intros Hr. destruct (mig_evaluate_runs b now now_s ts pr e Hr) as (e' & E & Hs & Hcd).
  destruct Hr as (_ & Hok & _ & Hmax).
  pose proof (sort_by_permutation migration_cmp (proposals e now now_s pr)) as Hp.
  assert (StronglySorted at_least_as_urgent (sort_by migration_cmp (proposals e now now_s pr))) as Hsort.
  { apply (sort_by_sorted _ scored); eauto using migration_cmp_antisym, migration_cmp_trans.
    apply Forall_forall. intros m Hm. by eapply proposals_scored. }
  rewrite E. set (l := sort_by _ _) in *. set (n := max_migrations_per_cycle _).
  exists (take n l), e'. rewrite length_take. split_and!; [done..|lia| | | |].
  - eapply sublist_NoDup; [|apply fmap_sublist, sublist_take]. rewrite Hp. by apply proposals_NoDup.
  - rewrite <- (take_drop n l) in Hsort. by apply StronglySorted_app_1_l in Hsort.
  - intros m Hm. assert (m ∈ proposals e now now_s pr) as Hin.
    { rewrite <- Hp. eapply elem_of_sublist; [done|apply sublist_take]. }
    apply elem_of_proposals in Hin as (H1 & H2 & Hm'); [|done]. split_and!; [done..| |done].
    by apply migrate_elsewhere in H2.
  - intros c t Hc Ht.
    set (m' := move_of e now now_s pr c t).
    assert (m' ∈ l) as Hin by (rewrite Hp; by apply elem_of_proposals).
    rewrite <- (take_drop n l) in Hin. apply elem_of_app in Hin as [Hin|Hin].
    + left. apply list_elem_of_fmap. by exists m'.
    + right. split.
      * assert (length l > n)%nat; [|lia]. apply list_elem_of_lookup in Hin as [i Hi].
        rewrite lookup_drop in Hi. apply lookup_lt_Some in Hi. lia.
      * apply Forall_forall. intros m Hm. by eapply ranked_prefix.
Qed.
End evaluation.

(** ** Runs of the engine *)

Section runs.
Context {P : Type} `{HP : PlacementPolicy P} `{HL : !PolicyLaws P}.
Implicit Types (e : MigrationEngine P).

Inductive HistoryItem := HEvict (c : ChunkId) (t : Z) | HDone (c : ChunkId) (t : Z).
Definition item_chunk (x : HistoryItem) : ChunkId := match x with HEvict c _ | HDone c _ => c end.
Definition item_time (x : HistoryItem) : Z := match x with HEvict _ t | HDone _ t => t end.

(** The components the engine reads may change between its calls. *)
Definition set_inputs (ht : HotnessTracker) (sm : StateMachine) (bs : gmap TierId PhysicalCost)
    (l : TraceLog) (em : option EventEmitter) e : MigrationEngine P :=
  mkEngine (mg_config e) (mg_policy e) ht sm l bs (mg_stats e) (mg_active e) (mg_last e)
    (mg_cooldown e) em.

(** [reach b e0 clock h e]: calls on [e0] that did not panic, at times that do
    not decrease, lead to [e]; [h] lists the evictions returned and the
    successful completions, in order. *)
Inductive reach (b : Build) (e0 : MigrationEngine P) : Z -> list HistoryItem -> MigrationEngine P -> Prop :=
  | R_start clock : reach b e0 clock [] e0
  | R_inputs clock h e ht sm bs l em :
      reach b e0 clock h e -> reach b e0 clock h (set_inputs ht sm bs l em e)
  | R_evaluate clock h e now now_s ts pr ms e' :
      reach b e0 clock h e -> clock <= now ->
      mig_evaluate b now now_s ts pr e = (Ok ms, e') -> reach b e0 now h e'
  | R_promotions clock h e now now_s ts pr ms e' :
      reach b e0 clock h e -> clock <= now ->
      evaluate_promotions now now_s ts pr e = (Ok ms, e') -> reach b e0 now h e'
  | R_evictions clock h e now now_s ts pr ms e' :
      reach b e0 clock h e -> clock <= now ->
      evaluate_evictions b now now_s ts pr e = (Ok ms, e') ->
      reach b e0 now (h ++ ((fun m => HEvict (pm_chunk m) now) <$> ms)) e'
  | R_decide clock h e now ts m cost a r e' :
      reach b e0 clock h e -> clock <= now ->
      decide_migration now ts m cost a e = (Ok r, e') -> reach b e0 now h e'
  | R_active clock h e c e' :
      reach b e0 clock h e -> mark_active c e = (Ok tt, e') -> reach b e0 clock h e'
  | R_complete clock h e now1 now2 ts c bytes (success : bool) e' :
      reach b e0 clock h e -> clock <= now1 -> now1 <= now2 ->
      mark_complete b now1 now2 ts c bytes success e = (Ok tt, e') ->
      reach b e0 now2 (h ++ if success then [HDone c now2] else []) e'.

(** An eviction comes no earlier than [cd] after the items of the same chunk
    before it. *)
Definition spaced (cd : Z) (h : list HistoryItem) : Prop :=
  forall i j x c t, (i < j)%nat -> h !! i = Some x -> h !! j = Some (HEvict c t) ->
    item_chunk x = c -> cd <= t - item_time x.

Definition noted (clock : Z) (m : gmap ChunkId Z) (c : ChunkId) (t : Z) : Prop :=
  exists t', m !! c = Some t' /\ t <= t' <= clock.

Record inv (cd clock : Z) (h : list HistoryItem) (e : MigrationEngine P) : Prop := {
  inv_cd : cooldown_us (mg_cooldown e) = cd;
  inv_noted : Forall (fun x => match x with
    | HEvict c t => noted clock (last_eviction (mg_cooldown e)) c t
    | HDone c t => noted clock (last_promotion (mg_cooldown e)) c t end) h;
  inv_spaced : spaced cd h;
  inv_count : active_migrations (mg_stats e) = active_count e;
}.

(** Nothing the invariant speaks of changed. *)
Definition quiet_engine e e' : Prop :=
  mg_cooldown e' = mg_cooldown e /\ mg_active e' = mg_active e /\
  active_migrations (mg_stats e') = active_migrations (mg_stats e).

Lemma inv_quiet cd clock h e e' : quiet_engine e e' -> inv cd clock h e -> inv cd clock h e'.
Proof.
  intros (H1 & H2 & H3) [? ? ? ?]. unfold active_count in *. split; rewrite ?H1; try done.
  unfold active_count. congruence.
Qed.

Lemma inv_clock cd clock now h e : clock <= now -> inv cd clock h e -> inv cd now h e.
Proof.
  intros Hle [? Hn ? ?]. split; [done| |done..]. eapply Forall_impl; [exact Hn|].
  intros [c t|c t] (t' & ? & ?); exists t'; (split; [done|lia]).
Qed.

(** A chunk that passes [can_evict] had none of its items within the cooldown. *)
Lemma can_evict_late cd now h e c x :
  inv cd now h e -> can_evict (mg_cooldown e) c now = true -> x ∈ h -> item_chunk x = c ->
  cd <= now - item_time x.
Proof.
  intros [Hcd Hn _ _] Hc Hx <-. rewrite Forall_forall in Hn. specialize (Hn x Hx).
  unfold can_evict, recent in Hc. rewrite Hcd in Hc.
  destruct x as [c t|c t]; destruct Hn as (t' & Ht & ?); simpl in *; rewrite Ht in Hc;
    unfold sat_sub in Hc; repeat case_match; try done; lia.
Qed.

Lemma spaced_snoc cd h c t :
  spaced cd h -> (forall x, x ∈ h -> item_chunk x = c -> cd <= t - item_time x) ->
  spaced cd (h ++ [HEvict c t]).
Proof.
  intros Hs Hx i j x c' t' Hij Hi Hj Hc. pose proof (lookup_lt_Some _ _ _ Hj) as Hl.
  rewrite length_app in Hl. simpl in Hl. rewrite lookup_app_l in Hi by lia.
  destruct (decide (j < length h)%nat).
  - rewrite lookup_app_l in Hj by lia. exact (Hs i j x c' t' Hij Hi Hj Hc).
  - rewrite lookup_app_r in Hj by lia. replace (j - length h)%nat with 0%nat in Hj by lia.
    injection Hj as -> ->. apply Hx; [|done]. by eapply list_elem_of_lookup_2.
Qed.

Lemma spaced_done cd h c t : spaced cd h -> spaced cd (h ++ [HDone c t]).
Proof.
  intros Hs i j x c' t' Hij Hi Hj Hc. pose proof (lookup_lt_Some _ _ _ Hj) as Hl.
  rewrite length_app in Hl. simpl in Hl. rewrite lookup_app_l in Hi by lia.
  destruct (decide (j < length h)%nat).
  - rewrite lookup_app_l in Hj by lia. exact (Hs i j x c' t' Hij Hi Hj Hc).
  - rewrite lookup_app_r in Hj by lia. by replace (j - length h)%nat with 0%nat in Hj by lia.
Qed.

Lemma noted_insert now m c t c' t' :
  noted now m c t -> t' = now -> noted now (<[c' := t']> m) c t.
Proof.
  intros (t1 & H1 & H2) ->. destruct (decide (c = c')) as [->|].
  - exists now. rewrite lookup_insert_eq. split; [done|lia].
  - exists t1. by rewrite lookup_insert_ne.
Qed.

(** Recording an eviction that was allowed. *)
Lemma inv_evict cd now h e c :
  inv cd now h e -> can_evict (mg_cooldown e) c now = true ->
  inv cd now (h ++ [HEvict c now]) (mg_set_cooldown e (record_eviction c now (mg_cooldown e))).
Proof.
  intros Hi Hc. pose proof (fun x => can_evict_late _ _ _ _ _ x Hi Hc) as Hlate.
  destruct Hi as [? Hn ? ?]. split; simpl; [done| |by apply spaced_snoc|done].
  apply Forall_app. split.
  - eapply Forall_impl; [exact Hn|]. intros [c' t|c' t] ?; [by apply noted_insert|done].
  - constructor; [|done]. exists now. rewrite lookup_insert_eq. split; [done|lia].
Qed.

Lemma quiet_refl e : quiet_engine e e.
Proof. done. Qed.

Lemma quiet_skip b e0 e : quiet_engine e0 e ->
  wp (skip b) (fun _ e' => quiet_engine e0 e') e.
Proof. intros Hq. unfold skip. do 4 wp_step. by destruct (arith _ _ _). Qed.

Lemma quiet_block b e0 e : quiet_engine e0 e ->
  wp (block b) (fun _ e' => quiet_engine e0 e') e.
Proof. intros Hq. unfold block. do 4 wp_step. by destruct (arith _ _ _). Qed.

Lemma quiet_trace ev e0 e : quiet_engine e0 e ->
  wp (mg_trace ev) (fun _ e' => quiet_engine e0 e') e.
Proof. intros Hq. unfold wp, mg_trace. by destruct (record ev _). Qed.

Ltac quiet :=
  repeat first
    [ progress unfold mg_emit, id
    | wp_step
    | (eapply wp_mono; [first [by apply quiet_skip | by apply quiet_block | by apply quiet_trace]|];
       intros [?|?|?] ? ?; [|done..])
    | case_match | case_bool_decide | done ].

Lemma quiet_evaluate b now now_s ts pr e ms e' :
  mig_evaluate b now now_s ts pr e = (Ok ms, e') -> quiet_engine e e'.
Proof.
  intros E. eapply (wp_ok _ (fun _ => quiet_engine e)); [|exact E].
  unfold mig_evaluate. do 4 wp_step. destruct (arith _ _ _); [|done..]. do 5 wp_step.
  eapply wp_mono; [apply (collect_safe _ (fun _ => quiet_engine e)) with (h := [])|].
  - intros [c m] h e1 Hq. unfold evaluate_chunk. quiet.
  - done.
  - intros [ys|?|?] e1 Hq; [|done..]. by wp_step.
Qed.

Lemma quiet_promotions now now_s ts pr e ms e' :
  evaluate_promotions now now_s ts pr e = (Ok ms, e') -> quiet_engine e e'.
Proof.
  intros E. eapply (wp_ok _ (fun _ => quiet_engine e)); [|exact E].
  unfold evaluate_promotions. do 2 wp_step. case_match; [by wp_step|].
  eapply wp_mono; [apply (collect_safe _ (fun _ => quiet_engine e)) with (h := [])|].
  - intros [c m] h e1 Hq. unfold promote_chunk. quiet.
  - done.
  - by intros [ys|?|?] e1 Hq.
Qed.

Lemma quiet_decide now ts m cost a e r e' :
  decide_migration now ts m cost a e = (Ok r, e') -> quiet_engine e e'.
Proof.
  intros E. eapply (wp_ok _ (fun _ => quiet_engine e)); [|exact E].
  unfold decide_migration. wp_step. wp_step. repeat case_match; unfold mg_emit; by do 3 wp_step.
Qed.

Lemma victim_is_chunk now p c meta pr v :
  select_viction now p [(c, meta)] pr = Some v -> v = c.
Proof.
  intros E. pose proof (victim_candidate now p [(c, meta)] pr) as Hv. rewrite E in Hv.
  by apply list_elem_of_singleton in Hv.
Qed.

Lemma inv_evictions b cd now now_s ts pr h e ms e' :
  inv cd now h e -> evaluate_evictions b now now_s ts pr e = (Ok ms, e') ->
  inv cd now (h ++ ((fun m => HEvict (pm_chunk m) now) <$> ms)) e'.
Proof.
  intros Hi E. eapply (wp_ok _ (fun ms e' => inv cd now (h ++ ((fun m => HEvict (pm_chunk m) now) <$> ms)) e')); [|exact E].
  unfold evaluate_evictions. do 2 wp_step. case_match; [wp_step; by rewrite app_nil_r|].
  case_match; [wp_step; by rewrite app_nil_r|].
  eapply wp_mono; [apply (collect_safe _ (fun ys e1 => inv cd now (h ++ ((fun m => HEvict (pm_chunk m) now) <$> ys)) e1))
    with (h := [])|].
  - clear -HL. intros [c hot] ys e Hi. unfold evict_chunk. do 2 wp_step. unfold id.
    destruct (negb (bool_decide _)); [wp_step; by rewrite app_nil_r|].
    destruct (can_evict (mg_cooldown e) c now) eqn:Ec; cbn [negb]; cycle 1.
    { wp_step. eapply wp_mono; [apply quiet_block, quiet_refl|]. intros [?|?|?] e1 Hq; [|done..].
      wp_step. rewrite app_nil_r. by eapply inv_quiet. }
    destruct (select_viction _ _ _ _) as [v|] eqn:Ev; [|wp_step; by rewrite app_nil_r].
    apply victim_is_chunk in Ev as ->. cbv zeta. case_bool_decide; [wp_step; by rewrite app_nil_r|].
    do 2 wp_step. wp_step. eapply wp_mono; [apply quiet_trace, quiet_refl|]. intros [?|?|?] e1 Hq; [|done..].
    unfold mg_emit. do 3 wp_step. cbn [option_list]. rewrite fmap_app, app_assoc. cbn [fmap list_fmap pm_chunk].
    eapply (inv_quiet _ _ _ e1); [done|]. eapply inv_quiet; [exact Hq|]. by apply inv_evict.
  - by rewrite app_nil_r.
  - by intros [ys|?|?] e1 Hq.
Qed.

Lemma inv_active cd clock h e c e' :
  inv cd clock h e -> mark_active c e = (Ok tt, e') -> inv cd clock h e'.
Proof.
  intros [? ? ? ?] E. unfold mark_active, sync_active, bind, modify in E. injection E as <-.
  by split.
Qed.

Lemma inv_complete b cd clock now1 now2 ts c bytes (success : bool) h e e' :
  inv cd clock h e -> clock <= now2 ->
  mark_complete b now1 now2 ts c bytes success e = (Ok tt, e') ->
  inv cd now2 (h ++ if success then [HDone c now2] else []) e'.
Proof.
  intros Hi Hle E. eapply inv_clock in Hi as [? Hn ? ?]; [|exact Hle].
  unfold mark_complete, sync_active, mg_emit, bind, modify, gets, lift, ret in E.
  destruct success; cbn [mg_stats mg_set_stats mg_set_active set_active_count promotions failures bytes_migrated] in E.
  - destruct (arith b 64 (promotions (mg_stats e) + 1)); try done.
    destruct (arith b 64 (bytes_migrated (mg_stats e) + bytes)); try done. injection E as <-.
    split; simpl; [done| |by apply spaced_done|done]. apply Forall_app. split.
    + eapply Forall_impl; [exact Hn|]. intros [c' t|c' t] ?; [done|by apply noted_insert].
    + constructor; [|done]. exists now2. simpl. rewrite lookup_insert_eq. split; [done|lia].
  - destruct (arith b 64 (failures (mg_stats e) + 1)); try done. injection E as <-.
    rewrite app_nil_r. by split.
Qed.

Lemma reach_inv b e0 clock h e :
  mg_active e0 = ∅ -> active_migrations (mg_stats e0) = 0 ->
  reach b e0 clock h e -> inv (cooldown_us (mg_cooldown e0)) clock h e.
Proof.
  intros Ha Hs Hr. induction Hr as [clock|clock h e ht sm bs l em Hr IH|clock h e now now_s ts pr ms e' Hr IH Hle E
    |clock h e now now_s ts pr ms e' Hr IH Hle E|clock h e now now_s ts pr ms e' Hr IH Hle E
    |clock h e now ts m cost a r e' Hr IH Hle E|clock h e c e' Hr IH E
    |clock h e now1 now2 ts c bytes success e' Hr IH Hle1 Hle2 E].
  - split; [done|done|by intros i j x c t ??|]. unfold active_count. by rewrite Ha, Hs.
  - by eapply inv_quiet; [|exact IH].
  - eapply inv_quiet; [by eapply quiet_evaluate|]. by eapply inv_clock.
  - eapply inv_quiet; [by eapply quiet_promotions|]. by eapply inv_clock.
  - eapply inv_evictions; [|exact E]. by eapply inv_clock.
  - eapply inv_quiet; [by eapply quiet_decide|]. by eapply inv_clock.
  - by eapply inv_active.
  - eapply inv_complete; [exact IH|lia|exact E].
Qed.

(** No thrashing.  In every run of a new engine, however its calls are
    ordered and whatever happens to hotness, chunk states, backends, log and
    emitter in between, as long as the clock does not run backwards: an
    eviction of a chunk is returned only when at least the cooldown has passed
    since every earlier eviction and every earlier successful completion of
    the same chunk; and the published number of active migrations is the
    number of chunks marked active. *)
Theorem evictions_respect_cooldown b c p ht sm l bs e0 clock h e :
  Engine_new (E := unit) b c p ht sm l bs = Ok e0 -> reach b e0 clock h e ->
  spaced (cooldown_us (mg_cooldown e0)) h /\
  active_migrations (mg_stats e) = active_count e.
Proof.
  intros E0 Hr. unfold Engine_new in E0.
  destruct (Cooldown_new (E := unit) b _) as [cd|?|?]; try done. injection E0 as <-.
  apply reach_inv in Hr as []; done.
Qed.

(** The event a decision publishes. *)
Definition verdict_event (now : Z) (m : PendingMigration) (cost : PhysicalCost) (a : BackpressureAction) e : Ev.Event :=
  if negb (allows a (pm_priority m)) then
    Ev.MigrationRejected now (pm_chunk m) (pm_from m) (pm_to m) (cost_score cost) (io_cost_threshold (mg_config e))
  else if is_too_pressured cost then
    Ev.MigrationDeferred now (pm_chunk m) (pm_from m) (pm_to m)
      ("I/O pressure too high: pressure=" +:+ fixed 2 (cost_io_pressure cost)
       +:+ ", queue_depth=" +:+ pretty (cost_queue_depth cost))
  else if fgt (cost_score cost) (io_cost_threshold (mg_config e)) then
    Ev.MigrationDeferred now (pm_chunk m) (pm_from m) (pm_to m)
      ("I/O cost exceeds threshold: cost=" +:+ fixed 2 (cost_score cost)
       +:+ ", threshold=" +:+ fixed 2 (io_cost_threshold (mg_config e)))
  else if negb (has_capacity e) then
    Ev.MigrationDeferred now (pm_chunk m) (pm_from m) (pm_to m) "migration engine at capacity"
  else Ev.MigrationDecided now (pm_chunk m) (pm_from m) (pm_to m) (cost_score cost).

Definition admitted (m : PendingMigration) (cost : PhysicalCost) (a : BackpressureAction) e : bool :=
  allows a (pm_priority m) && negb (is_too_pressured cost) &&
  negb (fgt (cost_score cost) (io_cost_threshold (mg_config e))) && has_capacity e.

Lemma decide_migration_eq now ts m cost a e :
  decide_migration now ts m cost a e =
  (Ok (if admitted m cost a e then Some m else None),
   mg_set_emitter e (match mg_emitter e with
     Some em => Some (try_emit ts (verdict_event now m cost a e) em).2 | None => None end)).
Proof.
  unfold decide_migration, admitted, verdict_event, bind, gets, modify, mg_emit, ret, id.
  destruct (allows a (pm_priority m)); simpl; [|done]. destruct (is_too_pressured cost); simpl; [done|].
  destruct (fgt _ _); simpl; [done|]. by destruct (has_capacity e).
Qed.

(** The gate.  [decide_migration] lets a move through exactly when the
    backpressure action admits its priority, the I/O path is not too
    pressured, its cost is within the threshold and fewer moves are active
    than allowed; it changes nothing but the emitter, on which it publishes
    exactly one event.  A move that is let through and then marked active
    leaves the engine within its limit. *)
Theorem gate_admits now ts m cost a e :
  exists r e', decide_migration now ts m cost a e = (Ok r, e') /\
    (r = Some m <-> admitted m cost a e = true) /\ (r = None \/ r = Some m) /\
    e' = mg_set_emitter e (match mg_emitter e with
      Some em => Some (try_emit ts (verdict_event now m cost a e) em).2 | None => None end) /\
    (r = Some m ->
       active_count (mark_active (pm_chunk m) e').2 <= max_concurrent_migrations (mg_config e)).
Proof.
  rewrite decide_migration_eq. eexists _, _. split; [reflexivity|].
  split; [by destruct (admitted _ _ _ _)|]. split; [destruct (admitted _ _ _ _); auto|].
  split; [done|]. destruct (admitted m cost a e) eqn:E; [|done]. intros _.
  unfold admitted, has_capacity, active_count in E. bool_to_prop.
  unfold mark_active, sync_active, bind, modify, active_count. simpl.
  assert (size ({[pm_chunk m]} ∪ mg_active e) <= S (size (mg_active e)))%nat as Hs.
  { rewrite size_union_alt. rewrite size_singleton.
    pose proof (subseteq_size (mg_active e ∖ {[pm_chunk m]}) (mg_active e)). set_solver by lia. }
  lia.
Qed.

(** Promotions never bring a chunk into RAM: the engine takes every chunk to
    be in RAM already, so what it calls a promotion moves the chunk out. *)
Lemma promotions_leave_ram now now_s ts pr e ms e' m :
  evaluate_promotions now now_s ts pr e = (Ok ms, e') -> m ∈ ms -> pm_from m = Ram /\ pm_to m <> Ram.
Proof.
  intros E Hm. revert m Hm. rewrite <- Forall_forall.
  eapply (wp_ok _ (fun ms _ => Forall (fun m => pm_from m = Ram /\ pm_to m <> Ram) ms)); [|exact E].
  unfold evaluate_promotions. do 2 wp_step. case_match; [by wp_step|].
  eapply wp_mono; [apply (collect_safe _ (fun ys _ => Forall (fun m => pm_from m = Ram /\ pm_to m <> Ram) ys)) with (h := [])|].
  - clear. intros [c hot] ys e Hi. unfold promote_chunk. do 2 wp_step. unfold id.
    destruct (negb (bool_decide _)); [wp_step; by rewrite app_nil_r|]. cbv zeta.
    case_bool_decide; [wp_step; by rewrite app_nil_r|].
    unfold mg_emit. do 3 wp_step. apply Forall_app. split; [done|]. by constructor.
  - done.
  - by intros [ys|?|?] e1 Hq.
Qed.
End runs.

(** ** Witnesses *)

Module MigrationExample.
Definition c1 : ChunkId := mkChunkId (repeat Byte.x01 32).
Definition tracker : HotnessTracker := mkHotTracker {[c1 := Hot_new c1 0]} (Log_new 10) 10.
Definition stored : StateMachine := mkSM {[c1 := Stored]}.
Definition high : PressureState := mkPressure (lit f32 9 10) f32_zero f32_zero 0 0.
Definition engine : MigrationEngine Lru.LruConfig :=
  mkEngine MigrationConfig_default Lru.LruConfig_default tracker stored (Log_new 10)
    {[Ram := PhysicalCost_new; Disk := PhysicalCost_new]} MigrationStats_default ∅ ∅
    (mkCooldown ∅ ∅ 60000000) None.

Lemma engine_is_new :
  Engine_new (E := unit) Debug MigrationConfig_default Lru.LruConfig_default tracker stored (Log_new 10)
    {[Ram := PhysicalCost_new; Disk := PhysicalCost_new]} = Ok engine.
Proof. reflexivity. Qed.

Definition idle : MigrationEngine Lru.LruConfig :=
  mg_set_log (set_inputs HotnessExample.t0 stored ∅ (Log_new 10) None engine) (Log_new 10).

Lemma evaluate_proposes_witness :
  exists ms e', mig_evaluate Debug 100 1000 100 high idle = (Ok ms, e') /\ pm_chunk <$> ms = [c1].
Proof.
  assert (ready_to_evaluate idle) as Hr.
  { split_and!; [split_and!; by vm_compute|apply HotnessExample.t0_ok|by vm_compute..]. }
  destruct (evaluate_proposes Debug 100 1000 100 high idle Hr)
    as (ms & e' & E & _ & _ & _ & _ & _ & H1 & H2).
  exists ms, e'. split; [done|].
  assert (ms = (match mig_evaluate Debug 100 1000 100 high idle with (Ok l, _) => l | _ => [] end)) as ->
    by (by rewrite E). by vm_compute.
Defined.

Lemma evictions_respect_cooldown_witness :
  exists e, reach Debug engine 100 [HEvict c1 100] e /\ spaced 60000000 [HEvict c1 100].
Proof.
  assert (exists e, reach Debug engine 100 [HEvict c1 100] e) as [e Hr].
  { exists (evaluate_evictions Debug 100 1000 100 high engine).2.
    apply (R_evictions Debug engine 0 [] engine 100 1000 100 high
      [mkPending c1 Ram Disk PHigh 0 f32_zero 100]); [constructor|lia|by vm_compute]. }
  exists e. split; [done|]. apply (evictions_respect_cooldown _ _ _ _ _ _ _ _ _ _ _ engine_is_new Hr).
Defined.
End MigrationExample.
