(* ===== verification/Monitor.v ===== *)
(** * Pressure monitoring: [ghost-daemon/src/pressure.rs] and [io_metrics.rs]

    The monitor samples the pressure of every backend, blends in the disk
    pressure computed from the I/O counters, smooths the result, keeps a ring
    of samples and publishes what it saw.  The ring is proved against the
    list of everything pushed; the lock-free latency average is proved to act
    as a sequence of single updates. *)

From Stdlib Require Import ZArith Lia SpecFloat.
From stdpp Require Import base gmap strings list relations.
From S2P Require Import Prelude Floats CoreTypes Pressure Events EventBus Trace.

Open Scope rust_scope.

(** ** The ring of samples *)

Inductive PressureTrend := Rising | Falling | Stable.

Definition trend_display (t : PressureTrend) : string :=
  match t with Rising => "rising" | Falling => "falling" | Stable => "stable" end.

Record PressureHistoryEntry := mkEntry {
  pe_timestamp : Z;
  global : PressureState;
  per_tier : gmap TierId PressureState;
}.

Record PressureHistory := mkHistory {
  entries : list PressureHistoryEntry;
  ph_capacity : nat;
  head_ : nat;
  ph_count : nat;
}.

Definition History_new (capacity : nat) : PressureHistory := mkHistory [] capacity 0 0.

Definition ph_push {E} (entry : PressureHistoryEntry) : M PressureHistory E unit := fun h =>
  let cap := ph_capacity h in
  let finish es :=
    (Ok tt, mkHistory es cap ((head_ h + 1) mod cap) (Nat.min (ph_count h + 1) cap)) in
  if (length (entries h) <? cap)%nat then finish (entries h ++ [entry])
  else match entries h !! head_ h with
       | Some _ => finish (<[head_ h := entry]> (entries h))
       | None => (Panic "index out of bounds", h)
       end.

(** The index of the [i]-th entry from the newest. *)
Definition ring_index (h : PressureHistory) (i : nat) : nat :=
  if (ph_count h <? ph_capacity h)%nat then ph_count h - 1 - i
  else (head_ h + ph_capacity h - 1 - i) mod ph_capacity h.

Fixpoint index_all {E} (h : PressureHistory) (ks : list nat) : outcome E (list PressureHistoryEntry) :=
  match ks with
  | [] => Ok []
  | i :: ks =>
      match entries h !! ring_index h i with
      | None => Panic "index out of bounds"
      | Some x => let? xs := index_all h ks in Ok (x :: xs)
      end
  end.

Definition ph_recent {E} (h : PressureHistory) (n : nat) : outcome E (list PressureHistoryEntry) :=
  let n := Nat.min n (ph_count h) in
  let? xs := index_all h (seq 0 n) in Ok (reverse xs).

(** The sums of [average], which check their integer additions. *)
Definition sum_step {E} (b : Build) (acc : float * float * float * Z * Z) (x : PressureHistoryEntry)
    : outcome E (float * float * float * Z * Z) :=
  let '(m, v, i, q, t) := acc in
  let g := global x in
  let? q' := arith b 32 (q + queue_depth g) in
  let? t' := arith b 64 (t + throughput_bps g) in
  Ok (fadd f32 m (memory_pressure g), fadd f32 v (vram_pressure g), fadd f32 i (io_pressure g), q', t').

Fixpoint ofold {E A B} (f : A -> B -> outcome E A) (l : list B) (a : A) : outcome E A :=
  match l with [] => Ok a | x :: l => let? a' := f a x in ofold f l a' end.

Definition ph_average {E} (b : Build) (h : PressureHistory) (n : nat) : outcome E (option PressureState) :=
  let? recent := ph_recent h n in
  match recent with
  | [] => Ok None
  | _ =>
      let len := of_int f32 (Z.of_nat (length recent)) in
      let? acc := ofold (sum_step b) recent (f32_zero, f32_zero, f32_zero, 0, 0) in
      let '(m, v, i, q, t) := acc in
      Ok (Some (mkPressure (fdiv f32 m len) (fdiv f32 v len) (fdiv f32 i len)
        (q / wrap 32 (Z.of_nat (length recent))) (t / Z.of_nat (length recent))))
  end.

Definition mean_max (l : list PressureHistoryEntry) : float :=
  fdiv f32 (fold_left (fun a x => fadd f32 a (max_pressure (global x))) l f32_zero)
    (of_int f32 (Z.of_nat (length l))).

Definition ph_trend {E} (h : PressureHistory) (n : nat) : outcome E PressureTrend :=
  let? recent := ph_recent h n in
  if (length recent <? 4)%nat then Ok Stable
  else
    let mid := (length recent / 2)%nat in
    let diff := fsub f32 (mean_max (drop mid recent)) (mean_max (take mid recent)) in
    Ok (if fgt diff (lit f32 5 100) then Rising
        else if flt diff (SFopp (lit f32 5 100)) then Falling
        else Stable).

Definition ph_len (h : PressureHistory) : nat := ph_count h.
Definition ph_is_empty (h : PressureHistory) : bool := (ph_count h =? 0)%nat.

(** ** The I/O counters: every access is one atomic operation *)

Record IoMetrics := mkIo {
  rolling_latency : Z;
  io_queue_depth : Z;
  flush_duration : Z;
  read_count : Z;
  write_count : Z;
  error_count : Z;
  amplification_factor : Z;
  total_bytes_read : Z;
  total_bytes_written : Z;
  total_bytes_physical : Z;
  io_smoothing : Z;
}.

Definition Io_new : IoMetrics := mkIo 0 0 0 0 0 0 1000 0 0 0 300000.

Definition set_smoothing_factor (factor : float) (m : IoMetrics) : IoMetrics :=
  mkIo (rolling_latency m) (io_queue_depth m) (flush_duration m) (read_count m) (write_count m)
    (error_count m) (amplification_factor m) (total_bytes_read m) (total_bytes_written m)
    (total_bytes_physical m)
    (as_u 64 (fmul f32 (fclamp factor f32_zero f32_one) (of_int f32 1000000))).

(** The value one round of the [compare_exchange] loop tries to store. *)
Definition smooth_latency (smoothing current sample : Z) : Z :=
  let alpha := fdiv f64 (of_int f64 smoothing) (of_int f64 1000000) in
  if current =? 0 then sample
  else as_u 64 (fadd f64 (fmul f64 alpha (of_int f64 sample))
    (fmul f64 (fsub f64 f64_one alpha) (of_int f64 current))).

Definition update_rolling_latency (sample : Z) (m : IoMetrics) : IoMetrics :=
  mkIo (smooth_latency (io_smoothing m) (rolling_latency m) sample) (io_queue_depth m)
    (flush_duration m) (read_count m) (write_count m) (error_count m) (amplification_factor m)
    (total_bytes_read m) (total_bytes_written m) (total_bytes_physical m) (io_smoothing m).

Definition record_read (us : Z) (m : IoMetrics) : IoMetrics :=
  update_rolling_latency us
    (mkIo (rolling_latency m) (io_queue_depth m) (flush_duration m) (wrap 64 (read_count m + 1))
      (write_count m) (error_count m) (amplification_factor m) (total_bytes_read m)
      (total_bytes_written m) (total_bytes_physical m) (io_smoothing m)).

Definition record_write (us size : Z) (m : IoMetrics) : IoMetrics :=
  update_rolling_latency us
    (mkIo (rolling_latency m) (io_queue_depth m) (flush_duration m) (read_count m)
      (wrap 64 (write_count m + 1)) (error_count m) (amplification_factor m) (total_bytes_read m)
      (wrap 64 (total_bytes_written m + size)) (total_bytes_physical m) (io_smoothing m)).

Definition record_flush (us : Z) (m : IoMetrics) : IoMetrics :=
  mkIo (rolling_latency m) (io_queue_depth m) us (read_count m) (write_count m) (error_count m)
    (amplification_factor m) (total_bytes_read m) (total_bytes_written m) (total_bytes_physical m)
    (io_smoothing m).

Definition record_error (m : IoMetrics) : IoMetrics :=
  mkIo (rolling_latency m) (io_queue_depth m) (flush_duration m) (read_count m) (write_count m)
    (wrap 64 (error_count m + 1)) (amplification_factor m) (total_bytes_read m)
    (total_bytes_written m) (total_bytes_physical m) (io_smoothing m).

Definition io_set_queue (n : Z) (m : IoMetrics) : IoMetrics :=
  mkIo (rolling_latency m) n (flush_duration m) (read_count m) (write_count m) (error_count m)
    (amplification_factor m) (total_bytes_read m) (total_bytes_written m) (total_bytes_physical m)
    (io_smoothing m).
Definition increment_queue_depth (m : IoMetrics) : IoMetrics :=
  io_set_queue (wrap 64 (io_queue_depth m + 1)) m.
Definition decrement_queue_depth (m : IoMetrics) : IoMetrics :=
  io_set_queue (wrap 64 (io_queue_depth m - 1)) m.

Definition update_amplification_factor (m : IoMetrics) : IoMetrics :=
  let factor :=
    if total_bytes_written m =? 0 then 1000
    else as_u 64 (fclamp (fmul f64 (fdiv f64 (of_int f64 (total_bytes_physical m))
      (of_int f64 (total_bytes_written m))) (of_int f64 1000)) (of_int f64 0) (of_int f64 10000)) in
  mkIo (rolling_latency m) (io_queue_depth m) (flush_duration m) (read_count m) (write_count m)
    (error_count m) factor (total_bytes_read m) (total_bytes_written m) (total_bytes_physical m)
    (io_smoothing m).

Definition record_physical_write (bytes : Z) (m : IoMetrics) : IoMetrics :=
  update_amplification_factor
    (mkIo (rolling_latency m) (io_queue_depth m) (flush_duration m) (read_count m) (write_count m)
      (error_count m) (amplification_factor m) (total_bytes_read m) (total_bytes_written m)
      (wrap 64 (total_bytes_physical m + bytes)) (io_smoothing m)).

Definition record_bytes_read (bytes : Z) (m : IoMetrics) : IoMetrics :=
  mkIo (rolling_latency m) (io_queue_depth m) (flush_duration m) (read_count m) (write_count m)
    (error_count m) (amplification_factor m) (wrap 64 (total_bytes_read m + bytes))
    (total_bytes_written m) (total_bytes_physical m) (io_smoothing m).

Definition get_read_amplification (m : IoMetrics) : float :=
  if total_bytes_physical m =? 0 then f64_one
  else fdiv f64 (of_int f64 (total_bytes_read m)) (of_int f64 (total_bytes_physical m)).

Definition get_write_amplification (m : IoMetrics) : float :=
  if total_bytes_written m =? 0 then f64_one
  else fdiv f64 (of_int f64 (total_bytes_physical m)) (of_int f64 (total_bytes_written m)).

Definition get_error_rate {E} (b : Build) (m : IoMetrics) : outcome E float :=
  let? total := arith b 64 (read_count m + write_count m) in
  Ok (if total =? 0 then f64_zero
      else fdiv f64 (of_int f64 (error_count m)) (of_int f64 total)).

Definition calculate_io_pressure {E} (b : Build) (max_queue max_latency_us : Z) (m : IoMetrics)
    : outcome E float :=
  let queue_pressure :=
    if 0 <? max_queue then fmin (fdiv f32 (of_int f32 (io_queue_depth m)) (of_int f32 max_queue)) f32_one
    else f32_zero in
  let latency_pressure :=
    if 0 <? max_latency_us then
      fmin (fdiv f32 (of_int f32 (rolling_latency m)) (of_int f32 max_latency_us)) f32_one
    else f32_zero in
  let? error_rate := get_error_rate b m in
  Ok (fmin (fadd f32 (fadd f32 (fmul f32 queue_pressure (lit f32 4 10))
    (fmul f32 latency_pressure (lit f32 4 10))) (fmul f32 (cast f32 error_rate) (lit f32 2 10))) f32_one).

Definition io_reset (m : IoMetrics) : IoMetrics :=
  mkIo 0 0 0 0 0 0 1000 0 0 0 (io_smoothing m).

(** ** The monitor *)

Record PressureMonitorConfig := mkMonConfig {
  sample_interval_ms : Z;
  smoothing_factor : float;           (* f32 *)
  pressure_spike_threshold : float;   (* f32 *)
  disk_max_queue : Z;
  disk_max_latency_us : Z;
  disk_pressure_weight : float;       (* f32 *)
}.

Definition MonConfig_default : PressureMonitorConfig :=
  mkMonConfig 1000 (lit f32 3 10) (lit f32 1 10) 256 10000000 (lit f32 5 10).

Record PressureMonitor := mkMonitor {
  mon_config : PressureMonitorConfig;
  mon_history : PressureHistory;
  smoothed : PressureState;
  mon_log : TraceLog;
  mon_emitter : option EventEmitter;
  mon_io : option IoMetrics;
  disk_io_pressure : float;           (* f32 *)
}.

Definition Monitor_new (c : PressureMonitorConfig) (history_size : nat) (l : TraceLog) : PressureMonitor :=
  mkMonitor c (History_new history_size) PressureState_new l None None f32_zero.

(** One backend's contribution. *)
Definition merge {E} (b : Build) (acc : float * float * float * Z * Z) (p : PressureState)
    : outcome E (float * float * float * Z * Z) :=
  let '(m, v, i, q, t) := acc in
  let? q' := arith b 32 (q + queue_depth p) in
  let? t' := arith b 64 (t + throughput_bps p) in
  Ok (fmax m (memory_pressure p), fmax v (vram_pressure p), fmax i (io_pressure p), q', t').

Definition disk_pressure {E} (b : Build) (s : PressureMonitor) : outcome E float :=
  match mon_io s with
  | Some io => calculate_io_pressure b (disk_max_queue (mon_config s)) (disk_max_latency_us (mon_config s)) io
  | None => Ok f32_zero
  end.

Definition blend (c : PressureMonitorConfig) (disk max_io : float) : float :=
  if fgt disk f32_zero then
    let w := disk_pressure_weight c in
    fmax max_io (fadd f32 (fmul f32 disk w) (fmul f32 max_io (fsub f32 f32_one w)))
  else max_io.

Definition ema (alpha raw old : float) : float :=
  fadd f32 (fmul f32 alpha raw) (fmul f32 (fsub f32 f32_one alpha) old).

Definition smooth (alpha : float) (raw old : PressureState) : PressureState :=
  clamp (mkPressure (ema alpha (memory_pressure raw) (memory_pressure old))
    (ema alpha (vram_pressure raw) (vram_pressure old))
    (ema alpha (io_pressure raw) (io_pressure old))
    (as_u 32 (ema alpha (of_int f32 (queue_depth raw)) (of_int f32 (queue_depth old))))
    (as_u 64 (ema alpha (of_int f32 (throughput_bps raw)) (of_int f32 (throughput_bps old))))).

Local Abbreviation MonM := (M PressureMonitor unit).

Definition set_disk (s : PressureMonitor) (d : float) : PressureMonitor :=
  mkMonitor (mon_config s) (mon_history s) (smoothed s) (mon_log s) (mon_emitter s) (mon_io s) d.
Definition set_smoothed (s : PressureMonitor) (p : PressureState) : PressureMonitor :=
  mkMonitor (mon_config s) (mon_history s) p (mon_log s) (mon_emitter s) (mon_io s) (disk_io_pressure s).

Definition mon_trace (ev : Tr.TraceEvent) : MonM unit := fun s =>
  let '(o, l) := record ev (mon_log s) in
  (o, mkMonitor (mon_config s) (mon_history s) (smoothed s) l (mon_emitter s) (mon_io s) (disk_io_pressure s)).

Definition mon_push (x : PressureHistoryEntry) : MonM unit := fun s =>
  let '(o, h) := ph_push x (mon_history s) in
  (o, mkMonitor (mon_config s) h (smoothed s) (mon_log s) (mon_emitter s) (mon_io s) (disk_io_pressure s)).

Definition mon_emit (ts : Z) (ev : Ev.Event) : MonM unit :=
  modify (fun s => mkMonitor (mon_config s) (mon_history s) (smoothed s) (mon_log s)
    (match mon_emitter s with Some em => Some (try_emit ts ev em).2 | None => None end)
    (mon_io s) (disk_io_pressure s)).

Definition alert (p : PressureState) (now : Z) (over : bool) : MonM unit :=
  if over then mon_trace (Tr.PressureAlert (memory_pressure p) (vram_pressure p) (io_pressure p) now)
  else ret tt.

Definition announcement (raw : PressureState) : Ev.Event :=
  if is_critical raw then
    Ev.BackpressureActivated 0 Ram ("critical: " +:+ fixed 2 (max_pressure raw))
  else if is_under_pressure raw then Ev.PressureChanged 0 Ram PressureState_new raw
  else Ev.BackpressureDeactivated 0 Ram.

Definition sample_and_update (b : Build) (now ts : Z) (backends : gmap TierId PressureState) : MonM unit :=
  s <- gets id ;;
  acc <- lift (ofold (merge b) (btree_values backends) (f32_zero, f32_zero, f32_zero, 0, 0)) ;;
  let '(max_mem, max_vram, max_io, total_queue, total_throughput) := acc in
  disk <- lift (disk_pressure b s) ;;
  modify (fun s => match mon_io s with Some _ => set_disk s disk | None => s end) ;;;
  let raw := mkPressure max_mem max_vram (blend (mon_config s) disk max_io) total_queue total_throughput in
  modify (fun s => set_smoothed s (smooth (smoothing_factor (mon_config s)) raw (smoothed s))) ;;;
  mon_push (mkEntry now raw backends) ;;;
  mon_trace (Tr.PressureSample raw now) ;;;
  alert raw now (fgt (memory_pressure raw) (lit f32 9 10)) ;;;
  alert raw now (fgt (vram_pressure raw) (lit f32 9 10)) ;;;
  alert raw now (fgt (io_pressure raw) (lit f32 9 10)) ;;;
  h <- gets mon_history ;;
  recent <- lift (ph_recent h 2) ;;
  mon_emit ts (announcement raw).

(** ** The ring keeps the newest samples *)

Fixpoint push_all {E} (xs : list PressureHistoryEntry) : M PressureHistory E unit :=
  match xs with [] => ret tt | x :: xs => ph_push x ;;; push_all xs end.

(** Entry [i] of everything pushed sits at [i mod capacity]. *)
Record ring_of (cap : nat) (xs : list PressureHistoryEntry) (h : PressureHistory) : Prop := {
  ring_cap : ph_capacity h = cap;
  ring_count : ph_count h = Nat.min (length xs) cap;
  ring_length : length (entries h) = Nat.min (length xs) cap;
  ring_head : head_ h = (length xs mod cap)%nat;
  ring_at : forall i, (i < length xs)%nat -> (length xs <= i + cap)%nat ->
    entries h !! (i mod cap)%nat = xs !! i;
}.

Lemma mod_apart cap i n : (i < n)%nat -> (n < i + cap)%nat -> (i mod cap)%nat <> (n mod cap)%nat.
Proof.
  intros H1 H2 E. pose proof (Nat.div_mod_eq i cap). pose proof (Nat.div_mod_eq n cap).
  assert (n - i = cap * (n / cap - i / cap))%nat by nia. nia.
Qed.

Lemma ph_push_ring {E} cap xs h x :
  (0 < cap)%nat -> ring_of cap xs h ->
  exists h', ph_push (E := E) x h = (Ok tt, h') /\ ring_of cap (xs ++ [x]) h'.
Proof.
  intros Hc [H1 H2 H3 H4 H5]. unfold ph_push. rewrite H1, H2, H4.
  assert (forall n, (Nat.min (n + 1) cap = Nat.min (Nat.min n cap + 1) cap)%nat) as Hmin by lia.
  assert ((length xs mod cap + 1) mod cap = (length xs + 1) mod cap)%nat as Hhead
    by (by rewrite Nat.Div0.add_mod_idemp_l).
  destruct (Nat.ltb_spec (length (entries h)) cap) as [Hl|Hl].
  - eexists. split; [done|]. split; simpl; rewrite ?length_app; simpl; try lia.
    intros i Hi _. rewrite Nat.mod_small by lia. destruct (decide (i < length xs)%nat).
    + rewrite !lookup_app_l by lia. rewrite <- H5 by lia. by rewrite Nat.mod_small by lia.
    + replace i with (length xs) by lia. replace (length xs) with (length (entries h)) at 1 by lia.
      by rewrite !list_lookup_middle.
  - pose proof (Nat.mod_upper_bound (length xs) cap ltac:(lia)).
    destruct (entries h !! (length xs mod cap)%nat) as [y|] eqn:Ey; cycle 1.
    { apply lookup_ge_None in Ey. lia. }
    eexists. split; [done|]. split; simpl; rewrite ?length_app, ?length_insert; simpl; try lia.
    intros i Hi Hi'. destruct (decide (i = length xs)) as [->|].
    + rewrite list_lookup_insert_eq by lia. by rewrite list_lookup_middle.
    + rewrite list_lookup_insert_ne by (apply not_eq_sym, mod_apart; lia).
      rewrite lookup_app_l by lia. apply H5; lia.
Qed.

Lemma push_all_ring {E} cap ys xs h :
  (0 < cap)%nat -> ring_of cap xs h ->
  exists h', push_all (E := E) ys h = (Ok tt, h') /\ ring_of cap (xs ++ ys) h'.
Proof.
  intros Hc. revert xs h. induction ys as [|y ys IH]; intros xs h Hr; simpl.
  - exists h. by rewrite app_nil_r.
  - destruct (ph_push_ring (E := E) cap xs h y Hc Hr) as (h1 & E1 & Hr1).
    destruct (IH _ _ Hr1) as (h2 & E2 & Hr2). exists h2. rewrite (bind_Ok _ _ _ _ _ E1), E2.
    by rewrite <- app_assoc in Hr2.
Qed.

Lemma index_all_Forall2 {E} h ks ys :
  Forall2 (fun i y => entries h !! ring_index h i = Some y) ks ys -> index_all (E := E) h ks = Ok ys.
Proof. induction 1 as [|i y ks ys Hi _ IH]; simpl; [done|]. by rewrite Hi, IH. Qed.

Lemma ring_index_lookup cap xs h i :
  (0 < cap)%nat -> ring_of cap xs h -> (i < Nat.min (length xs) cap)%nat ->
  entries h !! ring_index h i = xs !! (length xs - 1 - i)%nat.
Proof.
  intros Hc [H1 H2 H3 H4 H5] Hi. unfold ring_index. rewrite H1, H2, H4. case_match eqn:E.
  - apply Nat.ltb_lt in E. rewrite <- H5 by lia. rewrite Nat.mod_small by lia. f_equal. lia.
  - apply Nat.ltb_ge in E. rewrite <- H5 by lia. f_equal.
    replace (length xs mod cap + cap - 1 - i)%nat with (length xs mod cap + (cap - 1 - i))%nat by lia.
    rewrite Nat.Div0.add_mod_idemp_l.
    replace (length xs + (cap - 1 - i))%nat with (length xs - 1 - i + 1 * cap)%nat by lia.
    apply Nat.Div0.mod_add.
Qed.

Lemma recent_ring {E} cap xs h n :
  (0 < cap)%nat -> ring_of cap xs h -> ph_recent (E := E) h n = Ok (last_n (Nat.min n cap) xs).
Proof.
  intros Hc Hr. unfold ph_recent. rewrite (ring_count _ _ _ Hr).
  replace (Nat.min n (Nat.min (length xs) cap)) with (Nat.min (Nat.min n cap) (length xs)) by lia.
  set (k := Nat.min n cap). assert (length (last_n k xs) = Nat.min k (length xs)) as Hl
    by (unfold last_n; rewrite length_drop; lia).
  rewrite (index_all_Forall2 h (seq 0 (Nat.min k (length xs))) (reverse (last_n k xs))); simpl.
  { by rewrite reverse_involutive. }
  apply Forall2_same_length_lookup_2; [rewrite length_seq, length_reverse; lia|].
  intros j i y Hj Hy. apply lookup_seq in Hj as [-> Hj]. simpl.
  rewrite (ring_index_lookup cap xs h) by (done || (unfold k in *; lia)).
  rewrite reverse_lookup, Hl in Hy by lia. unfold last_n in Hy. rewrite lookup_drop in Hy.
  rewrite <- Hy. f_equal. lia.
Qed.

(** The ring buffer of samples is the list of what was pushed, cut to its
    capacity.  With a positive capacity no sequence of pushes panics, [recent]
    never indexes out of bounds, and it returns the newest entries, oldest
    first: the last [min n capacity] of everything ever pushed. *)
Theorem history_is_suffix {E} cap xs n :
  (0 < cap)%nat ->
  exists h, push_all (E := E) xs (History_new cap) = (Ok tt, h) /\
    ph_len h = Nat.min (length xs) cap /\
    ph_recent (E := E) h n = Ok (last_n (Nat.min n cap) xs).
Proof.
  intros Hc. assert (ring_of cap [] (History_new cap)) as H0.
  { split; simpl; [done..| |intros; lia]. by rewrite Nat.Div0.mod_0_l. }
  destruct (push_all_ring (E := E) cap xs [] _ Hc H0) as (h & E1 & Hr).
  exists h. split_and!; [done|apply Hr|by apply recent_ring].
Qed.

Lemma history_is_suffix_witness :
  exists h, push_all (E := unit) (replicate 5 (mkEntry 7 PressureState_new ∅)) (History_new 3) = (Ok tt, h) /\
    ph_len h = 3%nat.
Proof.
  destruct (history_is_suffix (E := unit) 3 (replicate 5 (mkEntry 7 PressureState_new ∅)) 2 ltac:(lia)) as (h & E & L & _).
  by exists h.
Defined.

(** A ring of capacity zero panics on its first push. *)
Lemma zero_history_panics {E} x : is_panic (ph_push (E := E) x (History_new 0)).1 = true.
Proof. done. Qed.

(** ** What a sample does *)

Definition unit_pressure (p : PressureState) : Prop :=
  in_unit (memory_pressure p) /\ in_unit (vram_pressure p) /\ in_unit (io_pressure p).

Definition nonneg_pressure (p : PressureState) : Prop :=
  FloatSign.nonneg (memory_pressure p) = true /\ FloatSign.nonneg (vram_pressure p) = true /\
  FloatSign.nonneg (io_pressure p) = true.

Lemma unit_nonneg x : in_unit x -> FloatSign.nonneg x = true.
Proof. intros [H _]. by rewrite FloatSign.nonneg_fle. Qed.

Lemma ema_unit alpha raw old :
  FloatSign.positive_finite alpha = true ->
  FloatSign.positive_finite (fsub f32 f32_one alpha) = true ->
  FloatSign.nonneg raw = true -> FloatSign.nonneg old = true ->
  in_unit (fclamp (ema alpha raw old) f32_zero f32_one).
Proof.
  intros Ha Hb Hr Ho. apply FloatOrder.fclamp_range; [|done]. apply FloatSign.nonneg_number.
  apply FloatSign.fadd_nonneg; by apply FloatSign.fmul_nonneg.
Qed.

(** [dominates raw p]: [raw] is at least each pressure of [p] that is a number. *)
Definition dominates (raw p : PressureState) : Prop :=
  forall f, f ∈ [memory_pressure; vram_pressure; io_pressure] ->
    is_nan (f p) = false -> fle (f p) (f raw) = true.

Lemma merge_fold {E} b ps acc acc' :
  ofold (E := E) (merge b) ps acc = Ok acc' ->
  let pr (a : float * float * float * Z * Z) := mkPressure a.1.1.1.1 a.1.1.1.2 a.1.1.2 a.1.2 a.2 in
  nonneg_pressure (pr acc) ->
  nonneg_pressure (pr acc') /\ dominates (pr acc') (pr acc) /\ Forall (dominates (pr acc')) ps.
Proof.
  revert acc. induction ps as [|p ps IH]; intros [[[[m v] i] q] t]; simpl.
  - intros [= <-] Hn. split_and!; [done| |done]. intros f _ Hf. by apply FloatSign.fle_refl.
  - destruct (arith b 32 _) as [q'|?|?]; simpl; try done.
    destruct (arith b 64 _) as [t'|?|?]; simpl; try done. intros Hf (H1 & H2 & H3).
    destruct (IH _ Hf) as (IH1 & IH2 & IH3).
    { unfold nonneg_pressure in *; simpl in *. auto using FloatSign.fmax_nonneg. }
    assert (forall f a b : float, FloatSign.nonneg a = true -> is_nan f = false ->
      fle f a = true \/ fle f b = true -> forall c, (is_nan (fmax a b) = false -> fle (fmax a b) c = true) -> fle f c = true) as Htr.
    { intros f x y Hx Hf' Hor c Hc. apply FloatSign.nonneg_number in Hx.
      specialize (Hc (FloatSign.fmax_number x y Hx)).
      destruct (FloatOrder.fle_not_nan _ _ Hc). eapply (FloatOrder.fle_trans f); [..|exact Hc]; auto.
      by apply FloatSign.fmax_ge. }
    assert (forall f, f ∈ [memory_pressure; vram_pressure; io_pressure] -> f = memory_pressure \/ f = vram_pressure \/ f = io_pressure) as Hcase.
    { intros f. rewrite !elem_of_cons, elem_of_nil. tauto. }
    pose proof (IH2 memory_pressure ltac:(set_solver)) as D1.
    pose proof (IH2 vram_pressure ltac:(set_solver)) as D2.
    pose proof (IH2 io_pressure ltac:(set_solver)) as D3. simpl in *.
    split_and!; [done| |constructor; [|done]]; intros f [-> | [-> | ->]]%Hcase Hnan; simpl in *.
    all: first [eapply (Htr _ m); [exact H1|done| |exact D1] | eapply (Htr _ v); [exact H2|done| |exact D2]
      | eapply (Htr _ i); [exact H3|done| |exact D3]]; auto using FloatSign.fle_refl.
Qed.

Record sample_ready (b : Build) (backends : gmap TierId PressureState) (cap : nat)
    (xs : list PressureHistoryEntry) (s : PressureMonitor) : Prop := {
  sr_cap : (0 < cap)%nat;
  sr_ring : ring_of cap xs (mon_history s);
  sr_log : healthy_log (mon_log s);
  sr_alpha : FloatSign.positive_finite (smoothing_factor (mon_config s)) = true;
  sr_beta : FloatSign.positive_finite (fsub f32 f32_one (smoothing_factor (mon_config s))) = true;
  sr_unit : unit_pressure (smoothed s);
  sr_sums : is_ok (ofold (E := unit) (merge b) (btree_values backends) (f32_zero, f32_zero, f32_zero, 0, 0)) = true;
  sr_disk : is_ok (disk_pressure (E := unit) b s) = true;
}.

Lemma mon_trace_wp ev s (Q : outcome unit unit -> PressureMonitor -> Prop) :
  healthy_log (mon_log s) ->
  (forall l, healthy_log l -> Q (Ok tt) (mkMonitor (mon_config s) (mon_history s) (smoothed s) l
     (mon_emitter s) (mon_io s) (disk_io_pressure s))) -> wp (mon_trace ev) Q s.
Proof.
  intros Hl HQ. unfold wp, mon_trace. destruct (record_healthy (E := unit) ev _ Hl) as (l & -> & Hl' & _).
  by apply HQ.
Qed.

Lemma alert_wp raw now over s (Q : outcome unit unit -> PressureMonitor -> Prop) :
  healthy_log (mon_log s) ->
  (forall l, healthy_log l -> Q (Ok tt) (mkMonitor (mon_config s) (mon_history s) (smoothed s) l
     (mon_emitter s) (mon_io s) (disk_io_pressure s))) -> wp (alert raw now over) Q s.
Proof.
  intros Hl HQ. unfold alert. destruct over; [by apply mon_trace_wp|]. apply wp_ret.
  specialize (HQ (mon_log s) Hl). by destruct s.
Qed.

Lemma blend_nonneg c disk i : FloatSign.nonneg i = true -> FloatSign.nonneg (blend c disk i) = true.
Proof. intros Hi. unfold blend. destruct (fgt _ _); [|done]. by apply FloatSign.fmax_nonneg. Qed.

Lemma blend_ge c disk i x :
  FloatSign.nonneg i = true -> is_nan x = false -> fle x i = true -> fle x (blend c disk i) = true.
Proof.
  intros Hi Hx Hle. unfold blend. destruct (fgt _ _); [|done].
  apply FloatSign.fmax_ge; [by apply FloatSign.nonneg_number|done|by left].
Qed.

(** One sample.  Whatever the backends report (NaN, infinities and
    negative values included), a sample that finds room in the log and does
    not overflow its sums succeeds: the pressure it computes is a number, not
    negative, and at least what every backend reported; the smoothed pressure
    stays between 0 and 1; the history gains exactly this sample; and exactly
    one event is published, chosen by the level of pressure. *)
Theorem sample_recorded b now ts backends cap xs s :
  sample_ready b backends cap xs s ->
  exists raw s', sample_and_update b now ts backends s = (Ok tt, s') /\
    nonneg_pressure raw /\ (forall t p, backends !! t = Some p -> dominates raw p) /\
    ring_of cap (xs ++ [mkEntry now raw backends]) (mon_history s') /\
    unit_pressure (smoothed s') /\ healthy_log (mon_log s') /\
    mon_emitter s' = (fun em => (try_emit ts (announcement raw) em).2) <$> mon_emitter s.
Proof.
  intros [Hc Hr Hl Ha Hb Hu Hs Hd].
  destruct (ofold (merge b) _ _) as [acc|?|?] eqn:Eacc; try done.
  destruct (disk_pressure b s) as [disk|?|?] eqn:Ed; try done.
  destruct (merge_fold _ _ _ _ Eacc) as ((N1 & N2 & N3) & _ & Hdom); [done|].
  set (raw := mkPressure acc.1.1.1.1 acc.1.1.1.2 (blend (mon_config s) disk acc.1.1.2) acc.1.2 acc.2).
  assert (nonneg_pressure raw) as Hn by (split_and!; [done..|by apply blend_nonneg]).
  enough (wp (sample_and_update b now ts backends) (fun o s' => o = Ok tt /\
    ring_of cap (xs ++ [mkEntry now raw backends]) (mon_history s') /\
    unit_pressure (smoothed s') /\ healthy_log (mon_log s') /\
    mon_emitter s' = (fun em => (try_emit ts (announcement raw) em).2) <$> mon_emitter s) s) as Hwp.
  { unfold wp in Hwp. destruct (sample_and_update b now ts backends s) as [o s'].
    destruct Hwp as (Ho & Hwp). simpl in Ho. subst o. exists raw, s'. split_and!; try apply Hwp; [done..|].
    intros t p Hp. rewrite Forall_forall in Hdom. specialize (Hdom p).
    assert (p ∈ btree_values backends) as Hin.
    { apply list_elem_of_fmap. exists (t, p). split; [done|]. by apply elem_of_btree_iter. }
    specialize (Hdom Hin). intros f Hf Hnan. specialize (Hdom f Hf Hnan).
    rewrite !elem_of_cons, elem_of_nil in Hf. destruct Hf as [-> | [-> | [-> | []]]]; [done..|].
    by apply blend_ge. }
  unfold sample_and_update. do 4 wp_step. rewrite Eacc. destruct acc as [[[[m v] i] q] t].
  do 2 wp_step. unfold id. rewrite Ed. do 4 wp_step. wp_step. cbv zeta in raw.
  change (mkPressure m v (blend (mon_config s) disk i) q t) with raw. clearbody raw.
  set (s1 := set_smoothed _ _).
  assert (mon_history s1 = mon_history s /\ mon_log s1 = mon_log s /\ mon_emitter s1 = mon_emitter s
    /\ unit_pressure (smoothed s1)) as (Hh1 & Hl1 & He1 & Hu1).
  { destruct Hu as (U1 & U2 & U3). destruct Hn as (M1 & M2 & M3).
    unfold s1. destruct (mon_io s); (split_and!; [done..|]); split_and!; apply ema_unit; auto using unit_nonneg. }
  clearbody s1. destruct (ph_push_ring (E := unit) cap xs (mon_history s) (mkEntry now raw backends) Hc Hr) as (h & Eh & Hrh).
  unfold wp at 1, mon_push. rewrite Hh1, Eh. cbn [fst snd].
  wp_step. apply mon_trace_wp; [by rewrite Hl1|]. intros l1 L1. wp_step. apply alert_wp; [done|]. intros l2 L2.
  wp_step. apply alert_wp; [done|]. intros l3 L3. wp_step. apply alert_wp; [done|]. intros l4 L4.
  do 4 wp_step. cbn [mon_history]. rewrite (recent_ring cap _ h 2 Hc Hrh).
  unfold mon_emit. wp_step. cbn [mon_history smoothed mon_log mon_emitter]. rewrite He1.
  split_and!; done.
Qed.

Lemma sample_recorded_witness :
  exists raw s', sample_and_update Debug 5 5 {[Ram := mkPressure S754_nan (lit f32 5 10) f32_zero 1 1]}
    (Monitor_new MonConfig_default 4 (Log_new 10)) = (Ok tt, s') /\ nonneg_pressure raw /\ unit_pressure (smoothed s').
Proof.
  assert (sample_ready Debug {[Ram := mkPressure S754_nan (lit f32 5 10) f32_zero 1 1]} 4 []
    (Monitor_new MonConfig_default 4 (Log_new 10))) as Hr.
  { split; [lia| | |by vm_compute..]; [split; simpl; [done..| |intros; lia]; done|]. split; simpl; [lia|]. unfold log_len. simpl. lia. }
  destruct (sample_recorded Debug 5 5 _ 4 [] _ Hr) as (raw & s' & E & Hn & _ & _ & Hu & _).
  exists raw, s'. done.
Defined.

(** ** The latency average under concurrency *)

Module LatencyCas.

(** A thread inside [update_rolling_latency]: about to load, or holding the
    value it loaded and about to compare and exchange. *)
Inductive thread := Start (sample : Z) | Loaded (sample current : Z) | Finished (sample : Z).

Record world := mkWorld { cell : Z; threads : list thread; landed : list Z }.

(** [landed] lists the samples in the order their exchange succeeded. *)
Inductive step (smoothing : Z) : world -> world -> Prop :=
  | s_load i v c ts l :
      ts !! i = Some (Start v) ->
      step smoothing (mkWorld c ts l) (mkWorld c (<[i := Loaded v c]> ts) l)
  | s_exchange i v c ts l :
      ts !! i = Some (Loaded v c) ->
      step smoothing (mkWorld c ts l)
        (mkWorld (smooth_latency smoothing c v) (<[i := Finished v]> ts) (l ++ [v]))
  | s_retry i v cur c ts l :
      ts !! i = Some (Loaded v cur) -> cur <> c ->
      step smoothing (mkWorld c ts l) (mkWorld c (<[i := Start v]> ts) l).

Definition sample_of (t : thread) : Z :=
  match t with Start v | Loaded v _ | Finished v => v end.
Definition finished (t : thread) : bool := match t with Finished _ => true | _ => false end.

Definition inv (smoothing c0 : Z) (vs : list Z) (w : world) : Prop :=
  cell w = fold_left (smooth_latency smoothing) (landed w) c0 /\
  (sample_of <$> threads w) = vs /\
  landed w ≡ₚ sample_of <$> filter (fun t => finished t = true) (threads w).

Lemma sample_insert (ts : list thread) i t t' :
  ts !! i = Some t -> sample_of t' = sample_of t -> sample_of <$> <[i := t']> ts = sample_of <$> ts.
Proof.
  intros Ht E. rewrite list_fmap_insert, E. apply list_insert_id. by rewrite list_lookup_fmap, Ht.
Qed.

(** Replacing a thread that has not finished. *)
Lemma finished_insert (ts : list thread) i t t' :
  ts !! i = Some t -> finished t = false ->
  sample_of <$> filter (fun t => finished t = true) (<[i := t']> ts) ≡ₚ
  (if finished t' then [sample_of t'] else []) ++ (sample_of <$> filter (fun t => finished t = true) ts).
Proof.
  intros Ht Hf. pose proof (take_drop_middle _ _ _ Ht) as E.
  rewrite (insert_take_drop ts i t') by (by eapply lookup_lt_Some). rewrite <- E at 3.
  rewrite !filter_app, !filter_cons, Hf. simpl. rewrite !fmap_app.
  destruct (finished t'); simpl; [by rewrite Permutation_middle|done].
Qed.

Lemma step_inv smoothing c0 vs w w' : inv smoothing c0 vs w -> step smoothing w w' -> inv smoothing c0 vs w'.
Proof.
  intros (H1 & H2 & H3) Hs. destruct Hs as [i v c ts l Ht|i v c ts l Ht|i v cur c ts l Ht Hne];
    unfold inv in *; simpl in *.
  - rewrite (sample_insert ts i _ (Loaded v c) Ht), (finished_insert ts i _ (Loaded v c) Ht) by done. auto.
  - rewrite (sample_insert ts i _ (Finished v) Ht), (finished_insert ts i _ (Finished v) Ht) by done.
    simpl. split_and!; [by rewrite fold_left_app, <- H1|done|]. rewrite <- Permutation_cons_append. by constructor.
  - rewrite (sample_insert ts i _ (Start v) Ht), (finished_insert ts i _ (Start v) Ht) by done. auto.
Qed.

(** C29: concurrent latency samples are neither lost nor applied twice.  In
    every interleaving of the compare-and-exchange loops of any number of
    threads, the average is the result of applying the samples of the finished
    threads one after the other, in some order, each exactly once; and while a
    thread has not finished some step is possible. *)
Theorem latency_linearizes smoothing c0 vs w :
  rtc (step smoothing) (mkWorld c0 (Start <$> vs) []) w ->
  (exists order, order ≡ₚ sample_of <$> filter (fun t => finished t = true) (threads w) /\
     cell w = fold_left (smooth_latency smoothing) order c0) /\
  sample_of <$> threads w = vs /\
  (Forall (fun t => finished t = true) (threads w) \/ exists w', step smoothing w w').
Proof.
  intros Hr. assert (inv smoothing c0 vs w) as (H1 & H2 & H3).
  { revert Hr. apply (rtc_ind_r (fun w => inv smoothing c0 vs w)); [|intros; by eapply step_inv].
    split_and!; [done| |]; simpl.
    - rewrite <- list_fmap_compose. apply list_fmap_id.
    - induction vs as [|v vs IH]; [done|]. simpl. by rewrite filter_cons. }
  split_and!; [by exists (landed w)|done|].
  destruct (decide (Forall (fun t => finished t = true) (threads w))) as [|Hn]; [by left|right].
  apply not_Forall_Exists in Hn; [|apply _]. apply Exists_exists in Hn as (t & Hin & Hf).
  apply list_elem_of_lookup in Hin as [i Hi]. destruct w as [c ts l]. simpl in *.
  destruct t as [v|v cur|v]; [eexists; by eapply s_load| |by destruct Hf].
  destruct (decide (cur = c)) as [->|]; eexists; [by eapply s_exchange|by eapply s_retry].
Qed.

Lemma latency_linearizes_witness :
  exists w, rtc (step 300000) (mkWorld 0 (Start <$> [7]) []) w /\ cell w = 7 /\
    sample_of <$> threads w = [7].
Proof.
  exists (mkWorld 7 [Finished 7] [7]).
  assert (rtc (step 300000) (mkWorld 0 (Start <$> [7]) []) (mkWorld 7 [Finished 7] [7])) as Hr.
  { eapply rtc_l; [by apply (s_load _ 0)|]. eapply rtc_l; [by apply (s_exchange _ 0 7 0 [Loaded 7 0])|].
    vm_compute. apply rtc_refl. }
  split; [done|]. split; [done|]. apply (latency_linearizes 300000 0 [7] _ Hr).
Defined.
End LatencyCas.

(** The I/O pressure is a number of at most 1, whatever the counters hold. *)
Lemma io_pressure_at_most_one {E} b mq ml m :
  in_u 64 (read_count m + write_count m) ->
  exists p, calculate_io_pressure (E := E) b mq ml m = Ok p /\ fle p f32_one = true.
Proof.
  intros H. unfold calculate_io_pressure, get_error_rate. rewrite arith_in by done. simpl.
  eexists. split; [reflexivity|]. by apply FloatSign.fmin_le.
Qed.

(** A decrement without a matching increment wraps around to the largest
    depth, which reads as full queue pressure. *)
Lemma queue_depth_underflow : io_queue_depth (decrement_queue_depth Io_new) = 2 ^ 64 - 1.
Proof. reflexivity. Qed.
