(* ===== verification/Dma.v ===== *)
(** * The DMA pipeline: [ghost-core/src/dma_pipeline.rs] and the transfer
    description of [hardware.rs]

    Transfers are submitted, move through the stages of [DmaStage] and are
    handed out by [poll] once they reached a terminal stage.  Host pointers are
    opaque numbers: the pipeline never dereferences them.  [get_mut], which
    hands out a mutable reference that nothing in the repository uses to
    change a stage, is not an operation of the model. *)

From Stdlib Require Import ZArith Lia.
From stdpp Require Import base gmap strings pretty list.
From S2P Require Import Prelude CoreTypes Events EventBus.

Open Scope rust_scope.

Inductive BufferLocation :=
  | Host (ptr size : Z)
  | Device (handle offset : Z).

Record TransferSubmission := mkSubmission {
  source : BufferLocation;
  destination : BufferLocation;
  sub_size : Z;
  fence_id : option Z;
}.

Inductive DmaStage :=
  | DPending
  | DSubmitted
  | DInProgress
  | DCompleted
  | DFailed (reason : string).

#[global] Instance DmaStage_eq_dec : EqDecision DmaStage.
Proof. solve_decision. Defined.

Definition stage_is_terminal (s : DmaStage) : bool :=
  match s with DCompleted | DFailed _ => true | _ => false end.
Definition stage_is_active (s : DmaStage) : bool :=
  match s with DSubmitted | DInProgress => true | _ => false end.

Definition quote_char : string := String.String (Ascii.ascii_of_nat 34) EmptyString.

(** Derived [Debug]; characters of the reason are not escaped. *)
Definition stage_debug (s : DmaStage) : string :=
  match s with
  | DPending => "Pending"
  | DSubmitted => "Submitted"
  | DInProgress => "InProgress"
  | DCompleted => "Completed"
  | DFailed r => "Failed(" +:+ quote_char +:+ r +:+ quote_char +:+ ")"
  end.

Record DmaTransfer := mkDma {
  dt_id : Z;
  dt_stage : DmaStage;
  dt_submission : TransferSubmission;
  dt_submitted_at : Z;      (* milliseconds *)
}.

Definition set_stage (t : DmaTransfer) (s : DmaStage) : DmaTransfer :=
  mkDma (dt_id t) s (dt_submission t) (dt_submitted_at t).

Record DmaPipeline := mkPipe {
  transfers : gmap Z DmaTransfer;
  dma_next_id : Z;
  dma_emitter : EventEmitter;
}.

Definition Dma_new (em : EventEmitter) : DmaPipeline := mkPipe ∅ 1 em.

Local Abbreviation PM := (M DmaPipeline GhostError).

Definition set_transfers (m : gmap Z DmaTransfer) (p : DmaPipeline) : DmaPipeline :=
  mkPipe m (dma_next_id p) (dma_emitter p).

Definition dma_emit (ts : Z) (e : Ev.Event) : PM unit :=
  modify (fun p => mkPipe (transfers p) (dma_next_id p) (try_emit ts e (dma_emitter p)).2).

Definition dma_submit (now ts : Z) (sub : TransferSubmission) : PM Z :=
  i <- gets dma_next_id ;;
  modify (fun p => mkPipe (<[i := mkDma i DPending sub now]> (transfers p)) (wrap 64 (i + 1)) (dma_emitter p)) ;;;
  dma_emit ts (Ev.QueueEnqueue 0 i) ;;;
  ret i.

Fixpoint dma_take (ts : Z) (ids : list Z) : PM (list DmaTransfer) :=
  match ids with
  | [] => ret []
  | i :: ids =>
      p <- gets id ;;
      match transfers p !! i with
      | None => dma_take ts ids
      | Some t =>
          modify (fun p => set_transfers (delete i (transfers p)) p) ;;;
          dma_emit ts (Ev.QueueDequeue 0 i) ;;;
          done <- dma_take ts ids ;;
          ret (t :: done)
      end
  end.

Definition dma_poll (ts : Z) : PM (list DmaTransfer) :=
  ids <- gets (fun p => btree_select (fun x => stage_is_terminal (dt_stage x.2) = true) (transfers p)) ;;
  dma_take ts ids.

Definition dma_get (p : DmaPipeline) (i : Z) : option DmaTransfer := transfers p !! i.

Definition not_found (i : Z) : GhostError :=
  EInternal ("DMA transfer " +:+ pretty i +:+ " not found").
Definition wrong_stage (i : Z) (want : string) (s : DmaStage) : GhostError :=
  EInternal ("DMA transfer " +:+ pretty i +:+ " is not in " +:+ want +:+ " stage (current: "
             +:+ stage_debug s +:+ ")").

(** The shape of every [mark_*] call: look up, guard, store the next stage. *)
Definition mark (i : Z) (want : string) (guard : DmaStage -> bool) (next : DmaStage) : PM DmaTransfer :=
  p <- gets id ;;
  t <- lift (ok_or (not_found i) (transfers p !! i)) ;;
  if negb (guard (dt_stage t)) then throw (wrong_stage i want (dt_stage t))
  else modify (fun p => set_transfers (<[i := set_stage t next]> (transfers p)) p) ;;; ret t.

Definition mark_submitted (i : Z) : PM unit :=
  mark i "Pending" (fun s => bool_decide (s = DPending)) DSubmitted ;;; ret tt.

Definition mark_in_progress (i : Z) : PM unit :=
  mark i "Submitted" (fun s => bool_decide (s = DSubmitted)) DInProgress ;;; ret tt.

Section chunk_names.
Context `{Blake3}.

Definition dma_chunk (i : Z) : ChunkId := from_data (bytes_of_string ("dma-" +:+ pretty i)).

Definition mark_completed (now ts : Z) (i : Z) : PM unit :=
  t <- mark i "an active" stage_is_active DCompleted ;;
  dma_emit ts (Ev.TransferCompleted 0 (dma_chunk i) Ram GpuVram (wrap 64 (sat_sub now (dt_submitted_at t)))) ;;;
  ret tt.

Definition mark_failed (ts : Z) (i : Z) (reason : string) : PM unit :=
  mark i "an active" stage_is_active (DFailed reason) ;;;
  dma_emit ts (Ev.TransferFailed 0 (dma_chunk i) Ram GpuVram reason) ;;;
  ret tt.
End chunk_names.

Definition dma_len (p : DmaPipeline) : Z := Z.of_nat (size (transfers p)).
Definition count_in_stage (p : DmaPipeline) (s : DmaStage) : Z :=
  Z.of_nat (length (filter (fun t => dt_stage t = s) (btree_values (transfers p)))).

(** ** Runs of the pipeline *)

Inductive DmaCall :=
  | CSubmit (now ts : Z) (sub : TransferSubmission)
  | CMarkSubmitted (i : Z)
  | CMarkInProgress (i : Z)
  | CMarkCompleted (now ts i : Z)
  | CMarkFailed (ts i : Z) (reason : string)
  | CPoll (ts : Z).

(** [handed] lists what [poll] returned, [marks] counts the [mark_*] calls that
    succeeded, [submits] the submissions. *)
Record DmaRun := mkRun { pipe : DmaPipeline; handed : list DmaTransfer; marks : Z; submits : Z }.

Section runs.
Context `{Blake3}.

Definition marked (r : DmaRun) (x : outcome GhostError unit * DmaPipeline) : DmaRun :=
  mkRun x.2 (handed r) (marks r + if is_ok x.1 then 1 else 0) (submits r).

Definition dma_step (r : DmaRun) (c : DmaCall) : DmaRun :=
  match c with
  | CSubmit now ts sub => mkRun (dma_submit now ts sub (pipe r)).2 (handed r) (marks r) (submits r + 1)
  | CMarkSubmitted i => marked r (mark_submitted i (pipe r))
  | CMarkInProgress i => marked r (mark_in_progress i (pipe r))
  | CMarkCompleted now ts i => marked r (mark_completed now ts i (pipe r))
  | CMarkFailed ts i why => marked r (mark_failed ts i why (pipe r))
  | CPoll ts =>
      let '(o, p) := dma_poll ts (pipe r) in
      mkRun p (handed r ++ match o with Ok l => l | _ => [] end) (marks r) (submits r)
  end.

Definition dma_run (calls : list DmaCall) (r : DmaRun) : DmaRun := fold_left dma_step calls r.

(** How many more marks a transfer can take. *)
Definition rank (t : DmaTransfer) : Z :=
  match dt_stage t with DPending => 3 | DSubmitted => 2 | DInProgress => 1 | _ => 0 end.

Record dma_inv (r : DmaRun) : Prop := {
  di_next : dma_next_id (pipe r) = submits r + 1 /\ 0 <= submits r;
  di_live : forall i t, transfers (pipe r) !! i = Some t -> dt_id t = i /\ 1 <= i <= submits r;
  di_nodup : NoDup (dt_id <$> handed r);
  di_terminal : Forall (fun t => stage_is_terminal (dt_stage t) = true) (handed r);
  di_handed : forall i, i ∈ dt_id <$> handed r -> 1 <= i <= submits r /\ transfers (pipe r) !! i = None;
  di_all : forall i, 1 <= i <= submits r -> is_Some (transfers (pipe r) !! i) \/ i ∈ dt_id <$> handed r;
  di_rank : marks r + sum_map rank (transfers (pipe r)) <= 3 * submits r;
}.

Lemma mark_cases i want (guard : DmaStage -> bool) next p :
  match transfers p !! i with
  | Some t =>
      if guard (dt_stage t) then
        mark i want guard next p = (Ok t, set_transfers (<[i := set_stage t next]> (transfers p)) p)
      else mark i want guard next p = (Err (wrong_stage i want (dt_stage t)), p)
  | None => mark i want guard next p = (Err (not_found i), p)
  end.
Proof.
  unfold mark, bind, gets, lift, ok_or, throw, modify, ret, id.
  destruct (transfers p !! i) as [t|]; [|done]. by destruct (guard (dt_stage t)).
Qed.

(** A call that stores a stage of smaller rank for a live transfer. *)
Lemma dma_inv_update r i t s em k :
  dma_inv r -> transfers (pipe r) !! i = Some t -> rank (set_stage t s) + k <= rank t ->
  dma_inv (mkRun (mkPipe (<[i := set_stage t s]> (transfers (pipe r))) (dma_next_id (pipe r)) em)
    (handed r) (marks r + k) (submits r)).
Proof.
  intros [[Hn Hs] Hl Hnd Ht Hh Ha Hr] Hi Hk. split; simpl; try done.
  - intros j u. rewrite lookup_insert_Some. intros [[<- <-]|[_ E]]; [exact (Hl i t Hi)|by apply Hl].
  - intros j Hj. destruct (Hh j Hj) as [? E]. split; [done|].
    rewrite lookup_insert_ne; [done|]. intros ->. congruence.
  - intros j Hj. destruct (decide (i = j)) as [<-|Hne].
    + left. rewrite lookup_insert_eq. by eexists.
    + rewrite lookup_insert_ne by done. by apply Ha.
  - erewrite sum_map_update by exact Hi. lia.
Qed.

Lemma dma_inv_same r m : dma_inv r -> m = marks r -> dma_inv (mkRun (pipe r) (handed r) m (submits r)).
Proof. intros Hi ->. by destruct r. Qed.

Lemma dma_inv_submit r now ts sub :
  dma_inv r -> submits r + 2 < 2 ^ 64 -> dma_inv (dma_step r (CSubmit now ts sub)).
Proof.
  intros [[Hn Hs] Hl Hnd Ht Hh Ha Hr] Hw. unfold dma_step, dma_submit, dma_emit, bind, gets, modify, ret.
  cbn [fst snd pipe transfers dma_next_id]. rewrite Hn.
  assert (transfers (pipe r) !! (submits r + 1) = None) as Hf.
  { destruct (transfers (pipe r) !! (submits r + 1)) as [t|] eqn:E; [|done]. apply Hl in E. lia. }
  split; simpl; try done.
  - rewrite wrap_in by (unfold in_u; lia). lia.
  - intros j t. rewrite lookup_insert_Some. intros [[<- <-]|[_ E]]; [simpl; lia|].
    apply Hl in E. naive_solver lia.
  - intros j Hj. destruct (Hh j Hj). split; [lia|]. rewrite lookup_insert_ne by lia. done.
  - intros j Hj. destruct (decide (j = submits r + 1)) as [->|].
    + left. rewrite lookup_insert_eq. by eexists.
    + rewrite lookup_insert_ne by lia. apply Ha. lia.
  - rewrite sum_map_insert by done. change (rank (mkDma _ DPending _ _)) with 3. lia.
Qed.

(** Handing out a live terminal transfer. *)
Lemma dma_inv_hand p hs m n i t em :
  dma_inv (mkRun p hs m n) -> transfers p !! i = Some t -> stage_is_terminal (dt_stage t) = true ->
  dma_inv (mkRun (mkPipe (delete i (transfers p)) (dma_next_id p) em) (hs ++ [t]) m n).
Proof.
  intros [[Hn Hs] Hl Hnd Ht Hh Ha Hr] Hi Hterm. simpl in *. destruct (Hl i t Hi) as [Hid Hrange].
  assert (rank t = 0) as Hrank by (unfold rank; by destruct (dt_stage t)).
  split; simpl; try done.
  - intros j u [_ E]%lookup_delete_Some. by apply Hl.
  - rewrite fmap_app. apply NoDup_app. split_and!; [done| |apply NoDup_singleton].
    intros j Hj. simpl. rewrite list_elem_of_singleton, Hid. intros ->. apply Hh in Hj as [_ ?]. congruence.
  - apply Forall_app. by rewrite Forall_singleton.
  - intros j. rewrite fmap_app, elem_of_app. simpl. rewrite list_elem_of_singleton, Hid. intros [Hj| ->].
    + destruct (Hh j Hj). split; [done|]. rewrite lookup_delete_None. by right.
    + split; [done|]. apply lookup_delete_eq.
  - intros j Hj. rewrite fmap_app, elem_of_app. simpl. rewrite list_elem_of_singleton, Hid.
    destruct (decide (j = i)) as [->|]; [by right; right|]. rewrite lookup_delete_ne by done.
    destruct (Ha j Hj); auto.
  - rewrite (sum_map_delete _ _ i t Hi). lia.
Qed.

Lemma dma_take_inv ts ids p hs m n :
  dma_inv (mkRun p hs m n) ->
  (forall i t, i ∈ ids -> transfers p !! i = Some t -> stage_is_terminal (dt_stage t) = true) ->
  exists l p', dma_take ts ids p = (Ok l, p') /\ dma_inv (mkRun p' (hs ++ l) m n) /\
    (forall i, i ∈ ids -> transfers p' !! i = None) /\
    (forall i, i ∉ ids -> transfers p' !! i = transfers p !! i).
Proof.
  revert p hs. induction ids as [|i ids IH]; intros p hs Hi Hterm.
  - exists [], p. rewrite app_nil_r. split_and!; [done..| |done]. intros i Hin. by apply not_elem_of_nil in Hin.
  - cbn [dma_take]. unfold bind, gets, id. destruct (transfers p !! i) as [t|] eqn:Et.
    + set (p1 := mkPipe (delete i (transfers p)) (dma_next_id p)
        (try_emit ts (Ev.QueueDequeue 0 i) (dma_emitter p)).2).
      destruct (IH p1 (hs ++ [t])) as (l & p' & E & Hi' & Hgone & Hrest).
      { apply dma_inv_hand; [done..|]. eapply Hterm; [by left|done]. }
      { intros j u Hj Hu. cbn in Hu. apply lookup_delete_Some in Hu as [_ Hu]. eapply Hterm; [by right|done]. }
      exists (t :: l), p'. rewrite <- app_assoc in Hi'. change ([t] ++ l) with (t :: l) in Hi'.
      unfold modify, dma_emit, modify. cbn [fst snd set_transfers transfers dma_next_id dma_emitter].
      fold p1. rewrite E. split_and!; [done..| |].
      * intros j [-> |Hj]%elem_of_cons; [|auto]. destruct (decide (i ∈ ids)) as [|Hni]; [auto|].
        rewrite (Hrest i Hni). apply lookup_delete_eq.
      * intros j Hj%not_elem_of_cons. rewrite Hrest by tauto. apply lookup_delete_ne. naive_solver.
    + destruct (IH p hs Hi) as (l & p' & E & Hi' & Hgone & Hrest).
      { intros j u Hj. apply Hterm. by right. }
      exists l, p'. rewrite E. split_and!; [done..| |].
      * intros j [-> |Hj]%elem_of_cons; [|auto]. destruct (decide (i ∈ ids)) as [|Hni]; [auto|].
        by rewrite (Hrest i Hni).
      * intros j Hj%not_elem_of_cons. apply Hrest. tauto.
Qed.

Lemma dma_poll_inv r ts :
  dma_inv r ->
  exists l p', dma_poll ts (pipe r) = (Ok l, p') /\
    dma_inv (mkRun p' (handed r ++ l) (marks r) (submits r)) /\
    (forall i t, transfers p' !! i = Some t -> stage_is_terminal (dt_stage t) = false).
Proof.
  intros Hi. unfold dma_poll, bind, gets.
  set (ids := btree_select (fun x => stage_is_terminal (dt_stage x.2) = true) (transfers (pipe r))).
  assert (forall i, i ∈ ids <-> exists t, transfers (pipe r) !! i = Some t /\ stage_is_terminal (dt_stage t) = true) as Hids.
  { intros i. unfold ids. by rewrite elem_of_btree_select. }
  destruct (dma_take_inv ts ids (pipe r) (handed r) (marks r) (submits r)) as (l & p' & E & Hi' & Hgone & Hrest).
  { by destruct r. }
  { intros i t Hin Ht. apply Hids in Hin as (t' & Ht' & ?). congruence. }
  exists l, p'. split_and!; [done..|]. intros i t Ht. destruct (decide (i ∈ ids)) as [Hin|Hin].
  - rewrite Hgone in Ht by done. done.
  - rewrite Hrest in Ht by done. destruct (stage_is_terminal (dt_stage t)) eqn:Es; [|done].
    destruct Hin. apply Hids. by exists t.
Qed.

Lemma dma_inv_mark {A} r i want (guard : DmaStage -> bool) next (k : DmaTransfer -> DmaPipeline -> outcome GhostError A * DmaPipeline) :
  dma_inv r ->
  (forall t, guard (dt_stage t) = true -> rank (set_stage t next) + 1 <= rank t) ->
  (forall t p, is_ok (k t p).1 = true /\ exists em, (k t p).2 = mkPipe (transfers p) (dma_next_id p) em) ->
  let x := bind (mark i want guard next) k (pipe r) in
  dma_inv (mkRun x.2 (handed r) (marks r + if is_ok x.1 then 1 else 0) (submits r)).
Proof.
  intros Hi Hrank Hk. cbv zeta. pose proof (mark_cases i want guard next (pipe r)) as Hm. unfold bind.
  destruct (transfers (pipe r) !! i) as [t|] eqn:Et; [|rewrite Hm; apply dma_inv_same; [done|simpl; lia]].
  destruct (guard (dt_stage t)) eqn:Eg; rewrite Hm; [|apply dma_inv_same; [done|simpl; lia]].
  destruct (Hk t (set_transfers (<[i:=set_stage t next]> (transfers (pipe r))) (pipe r))) as [Hok [em Ep]].
  rewrite Hok, Ep. apply dma_inv_update; auto.
Qed.

Lemma dma_step_inv r c :
  dma_inv r -> submits r + 2 < 2 ^ 64 ->
  dma_inv (dma_step r c) /\ submits (dma_step r c) <= submits r + 1.
Proof.
  intros Hi Hw. destruct c as [now ts sub|i|i|now ts i|ts i why|ts].
  - split; [by apply dma_inv_submit|done].
  - split; [|simpl; lia]. apply dma_inv_mark; [done| |intros; split; [done|by exists (dma_emitter p); destruct p]].
    intros t Hg. apply bool_decide_eq_true in Hg. unfold rank. by rewrite Hg.
  - split; [|simpl; lia]. apply dma_inv_mark; [done| |intros; split; [done|by exists (dma_emitter p); destruct p]].
    intros t Hg. apply bool_decide_eq_true in Hg. unfold rank. by rewrite Hg.
  - split; [|simpl; lia]. apply dma_inv_mark; [done| |intros; split; [done|by eexists]].
    intros t Hg. unfold rank. by destruct (dt_stage t).
  - split; [|simpl; lia]. apply (dma_inv_mark r i _ _ _ (fun _ => _)); [done| |intros; split; [done|by eexists]].
    intros t Hg. unfold rank. by destruct (dt_stage t).
  - unfold dma_step. destruct (dma_poll_inv r ts Hi) as (l & p' & -> & ? & _). split; [done|simpl; lia].
Qed.

Lemma dma_run_inv calls r :
  dma_inv r -> submits r + Z.of_nat (length calls) + 1 < 2 ^ 64 -> dma_inv (dma_run calls r).
Proof.
  revert r. induction calls as [|c calls IH]; intros r Hi Hw; simpl; [done|]. simpl in Hw.
  destruct (dma_step_inv r c Hi) as [? ?]; [lia|]. apply IH; [done|lia].
Qed.

Lemma dma_inv_new em : dma_inv (mkRun (Dma_new em) [] 0 0).
Proof.
  split; simpl; try done; try lia.
  - constructor.
  - intros i Hi. by apply not_elem_of_nil in Hi.
Qed.

(** C30: every transfer is handed out exactly once, in a final stage.  After
    any sequence of calls on a new pipeline the identifiers of the submitted
    transfers are split between the pipeline and what [poll] returned; nothing
    is returned twice or before it completed or failed; a [poll] leaves no
    finished transfer behind; and the stages only move forward, so at most
    three [mark_*] calls per submitted transfer ever succeed. *)
Theorem dma_exactly_once em calls ts :
  Z.of_nat (length calls) + 1 < 2 ^ 64 ->
  let r := dma_run calls (mkRun (Dma_new em) [] 0 0) in
  (forall i, 1 <= i <= submits r <-> is_Some (transfers (pipe r) !! i) \/ i ∈ dt_id <$> handed r) /\
  (forall i, is_Some (transfers (pipe r) !! i) -> i ∉ dt_id <$> handed r) /\
  NoDup (dt_id <$> handed r) /\
  Forall (fun t => stage_is_terminal (dt_stage t) = true) (handed r) /\
  marks r <= 3 * submits r /\
  (forall i t, transfers (pipe (dma_step r (CPoll ts))) !! i = Some t -> stage_is_terminal (dt_stage t) = false).
Proof.
  intros Hlen. cbv zeta. pose proof (dma_run_inv calls _ (dma_inv_new em) ltac:(simpl; lia)) as Hi.
  set (r := dma_run _ _) in *. pose proof Hi as [[Hn Hs] Hl Hnd Ht Hh Ha Hr]. split_and!; [| |done|done| |].
  - intros i. split; [apply Ha|]. intros [[t E]|E]; [apply (Hl i t E)|apply (Hh i E)].
  - intros i [t E] Hin. apply Hh in Hin as [_ ?]. congruence.
  - pose proof (sum_map_nonneg rank (transfers (pipe r))) as Hpos.
    assert (0 <= sum_map rank (transfers (pipe r))); [|lia]. apply Hpos. intros k v _. unfold rank. by destruct (dt_stage v).
  - unfold dma_step. destruct (dma_poll_inv r ts Hi) as (l & p' & -> & _ & Hp). done.
Qed.
End runs.

Definition ex_submission : TransferSubmission := mkSubmission (Host 0 64) (Device 1 0) 64 None.

Lemma dma_exactly_once_witness :
  let r := dma_run (H := ex_blake3) [CSubmit 0 0 ex_submission; CMarkSubmitted 1; CMarkCompleted 5 5 1; CPoll 6]
    (mkRun (Dma_new (Emitter_new (mkChannel [] 8 true))) [] 0 0) in
  dt_id <$> handed r = [1] /\ marks r <= 3 * submits r.
Proof.
  cbv zeta. split; [by vm_compute|].
  apply (dma_exactly_once (H := ex_blake3) (Emitter_new (mkChannel [] 8 true))
    [CSubmit 0 0 ex_submission; CMarkSubmitted 1; CMarkCompleted 5 5 1; CPoll 6] 7). by vm_compute.
Defined.
