(* ===== verification/TransferPool.v ===== *)
(** * The pool of transfer workers: [ghost-daemon/src/transfer_worker.rs]

    A worker copies between buffers of the host's memory; transfers that
    involve a device are refused.  The pool takes tasks on a bounded channel
    and starts worker tasks.  The memory of the host is a function from
    addresses to bytes; copying between overlapping regions, which is undefined
    behaviour in Rust, is a panic of the model. *)

From Stdlib Require Import ZArith Lia.
From stdpp Require Import base gmap strings pretty list.
From S2P Require Import Prelude CoreTypes Events EventBus Trace Dma.

Open Scope rust_scope.

Record TransferTask := mkTask { task_id : Z; submission : TransferSubmission; task_priority : TransferPriority }.
Record TransferCompletion := mkCompletion { tc_task_id : Z; tc_result : outcome GhostError unit; tc_duration : Z }.
Record TransferWorkerPoolConfig := mkPoolConfig { worker_count : nat; max_pending : nat; max_completed : nat }.
Definition TransferWorkerPoolConfig_default : TransferWorkerPoolConfig := mkPoolConfig 2 1024 1024.

(** ** Copies *)

Definition memory := Z -> byte.
Definition overlap (a b n : Z) : bool := (a <? b + n) && (b <? a + n).
Definition copy (m : memory) (src dst n : Z) : memory := fun x => if (dst <=? x) && (x <? dst + n) then m (src + (x - dst)) else m x.

Definition worker_execute_transfer (s : TransferSubmission) (m : memory) : outcome GhostError unit * memory :=
  match source s, destination s with
  | Host src src_size, Host dst dst_size =>
      let n := Z.min (Z.min (sub_size s) src_size) dst_size in
      if n =? 0 then (Ok tt, m)
      else if overlap src dst n then (Panic "undefined behaviour", m) else (Ok tt, copy m src dst n)
  | Device _ _, Device _ _ => (Err (EInternal "Device-to-device transfers not yet implemented — requires Vulkan GPU integration"), m)
  | Host _ _, Device _ _ => (Err (EInternal "Host-to-device transfers not yet implemented — requires Vulkan GPU integration"), m)
  | Device _ _, Host _ _ => (Err (EInternal "Device-to-host transfers not yet implemented — requires Vulkan GPU integration"), m)
  end.

(** [elapsed] is the time the transfer took. *)
Definition process_task (elapsed : Z) (t : TransferTask) (m : memory) : TransferCompletion * memory :=
  let '(r, m) := worker_execute_transfer (submission t) m in (mkCompletion (task_id t) r elapsed, m).

(** ** The pool *)

Inductive Phase := NotStarted | Polling | Stopped.
#[global] Instance Phase_eq_dec : EqDecision Phase.
Proof. solve_decision. Defined.

(** The two channels, that of tasks with its capacity, the workers, and the
    log.  The sender of completions is dropped when the pool is made. *)
Record TransferWorkerPool := mkPool {
  tasks : list TransferTask;
  tasks_capacity : nat;
  completions : list TransferCompletion;
  workers : list (nat * Phase);
  pool_log : TraceLog;
  pipeline : DmaPipeline;
}.

(** [mpsc::channel(0)] panics. *)
Definition Pool_new (c : TransferWorkerPoolConfig) (em : EventEmitter) (log : TraceLog) : outcome GhostError TransferWorkerPool :=
  if ((max_pending c =? 0) || (max_completed c =? 0))%nat then Panic "mpsc bounded channel requires buffer > 0"
  else Ok (mkPool [] (max_pending c) [] ((fun i => (i, NotStarted)) <$> seq 0 (worker_count c)) log (Dma_new em)).

Definition pool_submit (t : TransferTask) (p : TransferWorkerPool) : outcome GhostError unit * TransferWorkerPool :=
  if (length (tasks p) <? tasks_capacity p)%nat
  then (Ok tt, mkPool (tasks p ++ [t]) (tasks_capacity p) (completions p) (workers p) (pool_log p) (pipeline p))
  else (Err (EInternal "transfer worker pool full or closed: no available capacity"), p).

Definition try_recv_completion (p : TransferWorkerPool) : option TransferCompletion * TransferWorkerPool :=
  match completions p with
  | [] => (None, p)
  | c :: l => (Some c, mkPool (tasks p) (tasks_capacity p) l (workers p) (pool_log p) (pipeline p))
  end.

Definition pool_worker_count (p : TransferWorkerPool) : nat := length (workers p).

Definition set_phase (i : nat) (ph : Phase) (e : Tr.TraceEvent) (p : TransferWorkerPool) : TransferWorkerPool :=
  mkPool (tasks p) (tasks_capacity p) (completions p) ((fun x => if decide (x.1 = i) then (i, ph) else x) <$> workers p)
    (record (E := GhostError) e (pool_log p)).2 (pipeline p).

(** What happens to a started pool, in any order: a task is submitted, a
    completion asked for, a worker starts, wakes up after 10 ms or on a change of the shutdown signal,
    or stops. *)
Inductive PoolOp :=
  | OSubmit (t : TransferTask)
  | ORecv
  | OSpawn (i : nat) (ts : Z)
  | OWake (i : nat)
  | OStop (i : nat) (ts : Z).

Definition pool_step (p : TransferWorkerPool) (o : PoolOp) : TransferWorkerPool :=
  match o with
  | OSubmit t => (pool_submit t p).2
  | ORecv => (try_recv_completion p).2
  | OSpawn i ts => if decide ((i, NotStarted) ∈ workers p) then set_phase i Polling (Tr.WorkerSpawned (Z.of_nat i) ts) p else p
  | OWake _ => p
  | OStop i ts => if decide ((i, Polling) ∈ workers p) then set_phase i Stopped (Tr.WorkerStopped (Z.of_nat i) ts) p else p
  end.
Definition pool_run (ops : list PoolOp) (p : TransferWorkerPool) : TransferWorkerPool := fold_left pool_step ops p.

Inductive TransferDeviceType := CpuMemory | GpuLocal | GpuHostVisible | DiskIo.
Definition supports_device (d : TransferDeviceType) : bool := match d with CpuMemory | DiskIo => true | GpuLocal | GpuHostVisible => false end.

(** ** Properties *)

(** A worker's transfer.  Between two buffers of the host that do not overlap
    it copies as many bytes as the request and both buffers have, and changes
    nothing else; a transfer of no bytes and every transfer that involves a
    device leave the memory alone, the latter with an error. *)
Theorem transfer_copies elapsed t m : let '(c, m') := process_task elapsed t m in
  tc_task_id c = task_id t /\
  match source (submission t), destination (submission t) with
  | Host src src_size, Host dst dst_size =>
      let n := Z.min (Z.min (sub_size (submission t)) src_size) dst_size in
      0 <= n -> (0 < n -> src + n <= dst \/ dst + n <= src) ->
      tc_result c = Ok tt /\ (forall i, 0 <= i < n -> m' (dst + i) = m (src + i)) /\ (forall x, ~ dst <= x < dst + n -> m' x = m x)
  | _, _ => is_ok (tc_result c) = false /\ m' = m
  end.
Proof.
  unfold process_task. destruct (worker_execute_transfer (submission t) m) as [r m'] eqn:E. cbn [tc_task_id tc_result]. split; [done|].
  unfold worker_execute_transfer in E. destruct (source (submission t)) as [src ss|h o], (destination (submission t)) as [dst ds|h' o']; [|by injection E as <- <-..].
  set (n := Z.min _ ds) in *. intros Hn Ho. destruct (Z.eqb_spec n 0) as [H0|H0].
  - injection E as <- <-. split; [done|]. split; [lia|done].
  - destruct (overlap src dst n) eqn:Eo; [unfold overlap in Eo; lia|]. injection E as <- <-. split; [done|]. unfold copy. split.
    + intros i Hi. replace (_ && _) with true by lia. f_equal. lia.
    + intros x Hx. replace (_ && _) with false by lia. done.
Qed.

Definition submitted (o : PoolOp) : option TransferTask := match o with OSubmit t => Some t | _ => None end.

Lemma pool_run_state ops p : completions p = [] -> (length (tasks p) <= tasks_capacity p)%nat ->
  completions (pool_run ops p) = [] /\ tasks_capacity (pool_run ops p) = tasks_capacity p /\
  tasks (pool_run ops p) = take (tasks_capacity p) (tasks p ++ omap submitted ops) /\
  pipeline (pool_run ops p) = pipeline p.
Proof.
  unfold pool_run. revert p. induction ops as [|o ops IH]; intros p Hc Hl; cbn [fold_left].
  { split_and!; try done. cbn [omap list_omap]. by rewrite app_nil_r, take_ge. }
  destruct o as [t| |i ts|i|i ts]; cbn [pool_step omap list_omap submitted].
  - unfold pool_submit. destruct (Nat.ltb_spec (length (tasks p)) (tasks_capacity p)); cbn [snd].
    + destruct (IH (mkPool (tasks p ++ [t]) (tasks_capacity p) (completions p) (workers p) (pool_log p) (pipeline p))) as (-> & -> & -> & ->);
        cbn [completions tasks tasks_capacity pipeline]; [done|rewrite length_app; cbn; lia|]. split_and!; try done. by rewrite <- app_assoc.
    + destruct (IH p Hc Hl) as (-> & -> & -> & ->). split_and!; try done. rewrite !take_app_ge by lia.
      replace (tasks_capacity p - length (tasks p))%nat with 0%nat by lia. by rewrite !take_0.
  - unfold try_recv_completion. rewrite Hc. by apply IH.
  - case_decide; [|by apply IH]. by apply (IH (set_phase i Polling (Tr.WorkerSpawned (Z.of_nat i) ts) p)).
  - by apply IH.
  - case_decide; [|by apply IH]. by apply (IH (set_phase i Stopped (Tr.WorkerStopped (Z.of_nat i) ts) p)).
Qed.

(** The pool never does a task.  Whatever is submitted to it and whatever its
    workers do, no completion is ever delivered; the tasks accepted, the first
    [max_pending] of all, stay in the channel, and once that is full every
    further submission is refused. *)
Theorem pool_never_completes c em log p ops : Pool_new c em log = Ok p ->
  (try_recv_completion (pool_run ops p)).1 = None /\
  tasks (pool_run ops p) = take (max_pending c) (omap submitted ops) /\
  pipeline (pool_run ops p) = Dma_new em /\
  forall t, is_ok (pool_submit t (pool_run ops p)).1 = bool_decide (length (omap submitted ops) < max_pending c)%nat.
Proof.
  intros E. unfold Pool_new in E. destruct ((max_pending c =? 0) || (max_completed c =? 0))%nat; [done|]. injection E as <-.
  destruct (pool_run_state ops (mkPool [] (max_pending c) [] ((fun i => (i, NotStarted)) <$> seq 0 (worker_count c)) log (Dma_new em))) as (H1 & H2 & H3 & H4);
    cbn [completions tasks tasks_capacity]; [done|cbn; lia|]. cbn [tasks_capacity tasks app pipeline] in *. split_and!; [|done|done|].
  - unfold try_recv_completion. by rewrite H1.
  - intros t. unfold pool_submit. rewrite H2, H3, length_take. destruct (Nat.ltb_spec (Nat.min (max_pending c) (length (omap submitted ops))) (max_pending c)); cbn [fst is_ok].
    + rewrite bool_decide_eq_true_2; [done|lia].
    + rewrite bool_decide_eq_false_2; [done|lia].
Qed.

Definition ex_transfer : TransferTask := mkTask 1 (mkSubmission (Host 0 8) (Host 64 8) 8 None) PNorm.
Lemma pool_never_completes_witness :
  exists p, Pool_new (mkPoolConfig 2 1 1) (Emitter_new (mkChannel [] 8 true)) (Log_new 10) = Ok p /\
    tasks (pool_run [OSpawn 0 5; OSubmit ex_transfer; OWake 0; OSubmit ex_transfer; ORecv] p) = [ex_transfer] /\
    (try_recv_completion (pool_run [OSpawn 0 5; OSubmit ex_transfer; OWake 0; OSubmit ex_transfer; ORecv] p)).1 = None.
Proof.
  eexists. split; [reflexivity|].
  destruct (pool_never_completes (mkPoolConfig 2 1 1) (Emitter_new (mkChannel [] 8 true)) (Log_new 10) _ [OSpawn 0 5; OSubmit ex_transfer; OWake 0; OSubmit ex_transfer; ORecv] eq_refl)
    as (H1 & H2 & _). split; [exact H2|exact H1].
Defined.
