(* ===== verification/Invariants.v ===== *)
(** * Runtime invariants and state ownership:
    [ghost-core/src/invariant_registry.rs] and [state_ownership.rs]

    The registry is a list of checks run in order.  The I/O checks are modelled
    whole and confronted with the I/O scheduler they watch: which of them can
    never fire on a state the scheduler reaches, and which one fires on legal
    states.  The first six checks of the file return [Ok] whatever the state. *)

From Stdlib Require Import ZArith Lia.
From stdpp Require Import base gmap strings pretty list sorting.
From S2P Require Import Prelude CoreTypes Pressure Events EventBus IoScheduler.

Open Scope rust_scope.

Record GhostState := mkGhost {
  chunks : gmap ChunkId ChunkMeta;
  gs_health : BackendHealth;
  gs_pressure : PressureState;
  io_pending : gmap Z IoRequest;
  io_completed : list IoRequest;
  io_in_flight : Z;
}.

Definition check := GhostState -> outcome GhostError unit.

(** ** The registry, with the feature [runtime-invariants] *)

Record InvariantRegistry := mkRegistry { invariants : list check }.

Definition Registry_new : InvariantRegistry := mkRegistry [].
Definition register_check (f : check) (r : InvariantRegistry) : InvariantRegistry :=
  mkRegistry (invariants r ++ [f]).

Fixpoint check_list (fs : list check) (g : GhostState) : outcome GhostError unit :=
  match fs with [] => Ok tt | f :: fs => let? _ := f g in check_list fs g end.
Definition check_all (r : InvariantRegistry) (g : GhostState) : outcome GhostError unit :=
  check_list (invariants r) g.

(** Without the feature the registry holds nothing and accepts everything. *)
Definition check_all_disabled (g : GhostState) : outcome GhostError unit := Ok tt.

(** ** The I/O checks *)

Definition violation (msg : string) : outcome GhostError unit :=
  Err (EInternal ("I/O invariant violation: " +:+ msg)).

Fixpoint no_double (pend : gmap Z IoRequest) (l : list IoRequest) : outcome GhostError unit :=
  match l with
  | [] => Ok tt
  | r :: l =>
      match pend !! req_id r with
      | Some _ => violation ("request " +:+ pretty (req_id r) +:+ " is both completed and pending")
      | None => no_double pend l
      end
  end.
Definition io_no_double_complete : check := fun g => no_double (io_pending g) (io_completed g).

Definition pending_len (g : GhostState) : Z := Z.of_nat (size (io_pending g)).

Definition io_flush_completeness : check := fun g =>
  if (io_in_flight g =? 0) && negb (pending_len g =? 0) then
    violation (pretty (pending_len g) +:+ " pending requests but io_in_flight is 0")
  else Ok tt.

Definition io_completion_bounded : check := fun g =>
  if negb (io_in_flight g =? pending_len g) then
    violation ("io_in_flight (" +:+ pretty (io_in_flight g) +:+ ") != io_pending.len() ("
               +:+ pretty (pending_len g) +:+ ")")
  else Ok tt.

Definition MAX_CONCURRENT_IO : Z := 4096.

Definition io_buffer_within_capacity : check := fun g =>
  if MAX_CONCURRENT_IO <? pending_len g then
    violation (pretty (pending_len g) +:+ " pending requests exceeds capacity bound of "
               +:+ pretty MAX_CONCURRENT_IO)
  else Ok tt.

Definition io_request_id_monotonic : check := fun g =>
  match io_completed g, btree_keys (io_pending g) with
  | [], _ | _, [] => Ok tt
  | r :: l, min_pending :: _ =>
      let max_completed := fold_left Z.max (req_id <$> l) (req_id r) in
      if min_pending <=? max_completed then
        violation ("min pending ID (" +:+ pretty min_pending +:+ ") <= max completed ID ("
                   +:+ pretty max_completed +:+ ")")
      else Ok tt
  end.

Definition MAX_CONSECUTIVE_FAILURES : Z := 256.
Definition is_failed (r : IoRequest) : bool :=
  match completion r with IoFailed _ => true | _ => false end.

Definition io_failure_eventual : check := fun g =>
  let n := Z.of_nat (length (filter (fun r => is_failed r = true) (io_completed g))) in
  if MAX_CONSECUTIVE_FAILURES <? n then
    violation (pretty n +:+ " completed failures exceeds bound of " +:+ pretty MAX_CONSECUTIVE_FAILURES)
  else Ok tt.

Definition register_io_invariants (r : InvariantRegistry) : InvariantRegistry :=
  register_check io_failure_eventual
    (register_check io_request_id_monotonic
      (register_check io_buffer_within_capacity
        (register_check io_completion_bounded
          (register_check io_flush_completeness
            (register_check io_no_double_complete r))))).

(** ** The ownership log *)

Record StateChange := mkChange {
  sc_module : string;
  sc_action : string;
  sc_timestamp : Z;
  sc_chunk : option ChunkId;
}.

Definition Change_new (m a : string) (t : Z) : StateChange := mkChange m a t None.
Definition Change_with_chunk (m a : string) (t : Z) (c : ChunkId) : StateChange := mkChange m a t (Some c).

Record StateOwnershipLog := mkOwnLog { mutations : list StateChange }.

Definition OwnLog_new : StateOwnershipLog := mkOwnLog [].
Definition own_record (c : StateChange) (l : StateOwnershipLog) : StateOwnershipLog :=
  mkOwnLog (mutations l ++ [c]).
Definition own_record_simple (m a : string) (t : Z) (l : StateOwnershipLog) : StateOwnershipLog :=
  own_record (Change_new m a t) l.
Definition own_record_chunk (m a : string) (t : Z) (c : ChunkId) (l : StateOwnershipLog) : StateOwnershipLog :=
  own_record (Change_with_chunk m a t c) l.
Definition mutations_by_module (m : string) (l : StateOwnershipLog) : list StateChange :=
  filter (fun c => sc_module c = m) (mutations l).
Definition mutations_for_chunk (c : ChunkId) (l : StateOwnershipLog) : list StateChange :=
  filter (fun x => sc_chunk x = Some c) (mutations l).
Definition has_unauthorized_mutations (allowed : list string) (l : StateOwnershipLog) : bool :=
  existsb (fun c => negb (bool_decide (sc_module c ∈ allowed))) (mutations l).
Definition own_clear (l : StateOwnershipLog) : StateOwnershipLog := mkOwnLog [].

(** ** The checks against the scheduler *)

(** What the daemon passes: the scheduler's pending map, completion log and
    count. *)
Definition ghost_of (s : IoScheduler) (ch : gmap ChunkId ChunkMeta) (h : BackendHealth) (p : PressureState)
    : GhostState :=
  mkGhost ch h p (pending s) (completed s) (pending_count s).

Lemma check_list_ok fs g : check_list fs g = Ok tt <-> Forall (fun f => f g = Ok tt) fs.
Proof.
  induction fs as [|f fs IH]; simpl; [by split|]. rewrite Forall_cons, <- IH.
  destruct (f g) as [[]|?|?]; simpl; naive_solver.
Qed.

Lemma no_double_ok pend l :
  no_double pend l = Ok tt <-> forall r, r ∈ l -> pend !! req_id r = None.
Proof.
  induction l as [|r l IH]; simpl; [by split; [intros _ r ?%not_elem_of_nil|]|].
  destruct (pend !! req_id r) eqn:E.
  - split; [done|]. intros H. specialize (H r (list_elem_of_here _ _)). congruence.
  - rewrite IH. split.
    + intros H x [-> |Hx]%elem_of_cons; [done|by apply H].
    + intros H x Hx. apply H. by right.
Qed.

Lemma fold_max_ge l x y : y ∈ x :: l -> y <= fold_left Z.max l x.
Proof.
  revert x y. induction l as [|z l IH]; intros x y Hy; simpl.
  - apply list_elem_of_singleton in Hy. lia.
  - pose proof (IH (x `max` z) (x `max` z) (list_elem_of_here _ _)).
    rewrite !elem_of_cons in Hy. destruct Hy as [-> |[-> |Hy]]; [lia..|]. apply IH. by right.
Qed.

Lemma fold_max_elem l x : fold_left Z.max l x ∈ x :: l.
Proof.
  revert x. induction l as [|z l IH]; intros x; simpl; [by left|].
  specialize (IH (x `max` z)). apply elem_of_cons in IH as [E|E]; [|by right; right].
  rewrite E. destruct (Z.max_spec x z) as [[_ ->]|[_ ->]]; [by right; left|by left].
Qed.

Lemma min_key_le (m : gmap Z IoRequest) k ks i :
  btree_keys m = k :: ks -> is_Some (m !! i) -> k <= i.
Proof.
  intros E Hi. apply elem_of_btree_keys in Hi. rewrite E in Hi.
  pose proof (btree_iter_sorted m) as Hs. unfold btree_keys in E.
  destruct (btree_iter m) as [|[k' v] l]; [done|]. simpl in E. injection E as -> <-.
  inversion Hs as [|? ? _ Hall]; subst. apply elem_of_cons in Hi as [-> |Hi]; [lia|].
  apply list_elem_of_fmap in Hi as ([k2 v2] & -> & Hin). rewrite Forall_forall in Hall.
  apply (Hall _ Hin).
Qed.

(** The check on identifiers passes exactly when every completed identifier is
    smaller than every pending one. *)
Lemma monotonic_check_iff g :
  io_request_id_monotonic g = Ok tt <->
  forall i r, is_Some (io_pending g !! i) -> r ∈ io_completed g -> req_id r < i.
Proof.
  unfold io_request_id_monotonic. destruct (io_completed g) as [|r l] eqn:Ec.
  { split; [|done]. intros _ i r _ Hr. by apply not_elem_of_nil in Hr. }
  destruct (btree_keys (io_pending g)) as [|k ks] eqn:Ek.
  { split; [|done]. intros _ i x Hi. apply elem_of_btree_keys in Hi. rewrite Ek in Hi. by apply not_elem_of_nil in Hi. }
  destruct (Z.leb_spec k (fold_left Z.max (req_id <$> l) (req_id r))) as [Hle|Hlt].
  - split; [done|]. intros H. pose proof (fold_max_elem (req_id <$> l) (req_id r)) as Hin.
    change (req_id r :: (req_id <$> l)) with (req_id <$> r :: l) in Hin.
    apply list_elem_of_fmap in Hin as (x & Ex & Hx).
    assert (is_Some (io_pending g !! k)) as Hk by (apply elem_of_btree_keys; rewrite Ek; by left).
    specialize (H k x Hk Hx). lia.
  - split; [|done]. intros _ i x Hi Hx. pose proof (min_key_le _ _ _ _ Ek Hi).
    assert (req_id x ∈ req_id r :: (req_id <$> l)) as Hin.
    { change (req_id r :: (req_id <$> l)) with (req_id <$> r :: l). apply list_elem_of_fmap. eauto. }
    apply fold_max_ge in Hin. lia.
Qed.

(** The I/O checks against the I/O scheduler.  On every state that any
    sequence of scheduler calls reaches: the checks for double completion,
    missed flushes and the in-flight count always pass; the capacity check
    passes when the scheduler's own limit is at most its bound; and the whole
    suite passes exactly when, besides, few enough requests failed and the
    requests completed in the order they were issued. *)
Theorem io_checks_on_scheduler em limit calls ch h p :
  0 <= limit <= MAX_CONCURRENT_IO -> Z.of_nat (length calls) < 2 ^ 63 ->
  let s := sched_run calls (Sched_new em limit) in
  let g := ghost_of s ch h p in
  io_no_double_complete g = Ok tt /\ io_flush_completeness g = Ok tt /\
  io_completion_bounded g = Ok tt /\ io_buffer_within_capacity g = Ok tt /\
  (check_all (register_io_invariants Registry_new) g = Ok tt <->
   Z.of_nat (length (filter (fun r => is_failed r = true) (completed s))) <= MAX_CONSECUTIVE_FAILURES /\
   forall i r, is_Some (pending s !! i) -> r ∈ completed s -> req_id r < i).
Proof.
  intros Hlim Hlen. cbv zeta.
  destruct (sched_run_inv calls (Sched_new em limit)) as (Hi & Hl & Hm); [apply sched_inv_new|apply Hlim|simpl; lia|].
  set (s := sched_run _ _) in *. set (g := ghost_of s ch h p). unfold within_limit in Hl. rewrite Hm in Hl. simpl in Hl.
  assert (io_no_double_complete g = Ok tt) as H1.
  { apply no_double_ok. intros r Hr. apply (si_done _ Hi). apply list_elem_of_fmap. eauto. }
  assert (io_flush_completeness g = Ok tt) as H2.
  { unfold io_flush_completeness, pending_len, g. simpl. unfold pending_count.
    by destruct (Z.of_nat (size (pending s)) =? 0). }
  assert (io_completion_bounded g = Ok tt) as H3.
  { unfold io_completion_bounded, pending_len, g. simpl. unfold pending_count. by rewrite Z.eqb_refl. }
  assert (io_buffer_within_capacity g = Ok tt) as H4.
  { unfold io_buffer_within_capacity, pending_len, g. simpl. unfold pending_count in Hl.
    destruct (Z.ltb_spec MAX_CONCURRENT_IO (Z.of_nat (size (pending s)))); [lia|done]. }
  split_and!; [done..|]. unfold check_all. rewrite check_list_ok. simpl. rewrite !Forall_cons, Forall_nil.
  rewrite monotonic_check_iff. unfold io_failure_eventual. simpl.
  destruct (Z.ltb_spec MAX_CONSECUTIVE_FAILURES (Z.of_nat (length (filter (fun r => is_failed r = true) (completed s))))).
  - split; [intros (_ & _ & _ & _ & _ & ? & _); done|lia].
  - tauto.
Qed.

Definition ex_ghost (s : IoScheduler) : GhostState := ghost_of s ∅ Healthy PressureState_new.

Lemma io_checks_on_scheduler_witness :
  io_no_double_complete (ex_ghost (sched_run ex_calls (Sched_new ex_emitter 2))) = Ok tt.
Proof.
  destruct (io_checks_on_scheduler ex_emitter 2 ex_calls ∅ Healthy PressureState_new) as (H & _);
    [unfold MAX_CONCURRENT_IO; lia|by vm_compute|exact H].
Defined.

(** Two requests, of which the second completes first. *)
Definition out_of_order : list SchedCall :=
  [SIssue 1 IoRead (mkChunkId []) Disk; SIssue 2 IoRead (mkChunkId []) Disk; SComplete 3 2 None].

(** A legal run that the suite rejects.  Requests may complete in any
    order; completing the second of two issued requests makes the check on
    identifiers report a violation although no identifier was allocated out of
    order. *)
Theorem out_of_order_completion_flagged em :
  let s := sched_run out_of_order (Sched_new em 8) in
  sched_inv s /\ pending_count s = 1 /\ done_ids s = [2] /\
  io_request_id_monotonic (ex_ghost s) =
    violation "min pending ID (1) <= max completed ID (2)" /\
  check_all (register_io_invariants Registry_new) (ex_ghost s) <> Ok tt.
Proof.
  cbv zeta. split.
  { apply sched_run_inv; [apply sched_inv_new|done|vm_compute; congruence]. }
  split_and!; [done..|]. by vm_compute.
Qed.

(** An audit finds a mutation outside the allowed modules exactly when one was
    recorded since the log was last cleared. *)
Lemma unauthorized_iff allowed l :
  has_unauthorized_mutations allowed l = true <->
  exists c, c ∈ mutations l /\ sc_module c ∉ allowed.
Proof.
  unfold has_unauthorized_mutations. rewrite existsb_exists. split; intros (c & Hc & H); exists c.
  - rewrite negb_true_iff, bool_decide_eq_false in H. by rewrite list_elem_of_In.
  - rewrite negb_true_iff, bool_decide_eq_false. by rewrite <- list_elem_of_In.
Qed.
