(* ===== verification/Diagnostics.v ===== *)
(** * Diagnostic snapshots: [ghost-daemon/src/diagnostics.rs] *)

From Stdlib Require Import ZArith.
From stdpp Require Import base gmap strings.
From S2P Require Import Prelude Pressure.

Inductive HealthStatus := HsHealthy | HsDegraded | HsUnhealthy.

Definition health_status_display (h : HealthStatus) : string :=
  match h with HsHealthy => "healthy" | HsDegraded => "degraded" | HsUnhealthy => "unhealthy" end.

Record QueueDiagnostics := mkQueueDiag {
  qd_depth : Z;
  qd_capacity : Z;
  qd_is_full : bool;
  qd_is_shutdown : bool;
  submitted_total : Z;
  dequeued_total : Z;
  priority_insertions_total : Z;
  rejected_total : Z;
}.

Record MigrationDiagnostics := mkMigDiag {
  evaluation_cycles_total : Z;
  promotions_total : Z;
  evictions_total : Z;
  skipped_total : Z;
  md_failures_total : Z;
  bytes_migrated_total : Z;
  md_active_migrations : Z;
  pending_identified_total : Z;
}.

Record AllocatorDiagnostics := mkAllocDiag {
  allocations_total : Z;
  deallocations_total : Z;
  allocation_failures_total : Z;
  allocated_bytes : Z;
  peak_allocated_bytes : Z;
  bytes_allocated_total : Z;
  bytes_deallocated_total : Z;
  active_allocations : Z;
}.

Record BackendDiagnostics := mkBackendDiag {
  bd_tier_id : string;
  bd_health : string;
  health_check_successes_total : Z;
  health_check_failures_total : Z;
  degradation_events_total : Z;
  recovery_events_total : Z;
  recovery_attempts_total : Z;
  recovery_successes_total : Z;
  consecutive_failures : Z;
}.

Record ReplayDiagnostics := mkReplayDiag {
  replay_ops_total : Z;
  events_replayed_total : Z;
  validation_errors_total : Z;
  rd_failures_total : Z;
  active_replays : Z;
  determinism_checks_total : Z;
  determinism_failures_total : Z;
}.

Record DiagnosticSnapshot := mkSnapshot {
  ds_timestamp : Z;
  ds_uptime_secs : Z;
  overall_health : HealthStatus;
  ds_queue : QueueDiagnostics;
  ds_migration : MigrationDiagnostics;
  ds_allocator : AllocatorDiagnostics;
  ds_backends : gmap string BackendDiagnostics;
  ds_replay : ReplayDiagnostics;
  ds_pressure : PressureState;
}.

Definition QueueDiagnostics_default : QueueDiagnostics := mkQueueDiag 0 0 false false 0 0 0 0.
Definition MigrationDiagnostics_default : MigrationDiagnostics := mkMigDiag 0 0 0 0 0 0 0 0.
Definition AllocatorDiagnostics_default : AllocatorDiagnostics := mkAllocDiag 0 0 0 0 0 0 0 0.
Definition ReplayDiagnostics_default : ReplayDiagnostics := mkReplayDiag 0 0 0 0 0 0 0.
Definition BackendDiagnostics_default : BackendDiagnostics :=
  mkBackendDiag EmptyString "unknown" 0 0 0 0 0 0 0.

Definition DiagnosticSnapshot_default : DiagnosticSnapshot :=
  mkSnapshot 0 0 HsHealthy QueueDiagnostics_default MigrationDiagnostics_default
    AllocatorDiagnostics_default ∅ ReplayDiagnostics_default PressureState_new.

(** [build_default] of a builder created at [start_time]; [ts] is the wall
    clock in seconds, [elapsed] the seconds since [start_time]. *)
Definition build_default (ts elapsed : Z) : DiagnosticSnapshot :=
  mkSnapshot ts elapsed HsHealthy QueueDiagnostics_default MigrationDiagnostics_default
    AllocatorDiagnostics_default ∅ ReplayDiagnostics_default PressureState_new.
