(* ===== verification/Orchestrator.v ===== *)
(** * The daemon: [ghost-daemon/src/orchestrator.rs] and [main.rs]

    [TransferOrchestrator] owns the chunk states, the transfer queue, the trace
    log and the configuration of every other part of the daemon.  Its methods
    take [&self]: what they change is behind locks and atomics and is the record
    [Shared].  The tasks that [start] spawns (scheduler, workers, completion
    handler, backpressure controller, auto-migration) are the rules of the step
    relation [Run.step], over the models of those components.

    A panic that unwinds while the state mutex is held poisons it, and every
    later [lock().unwrap()] panics: [on_states].  The [runtime-invariants]
    feature is off: with it the crate does not build, because [check_invariants]
    calls methods that do not exist. *)

From Stdlib Require Import ZArith Lia.
From stdpp Require Import base gmap strings pretty list relations.
From S2P Require Import Prelude Floats CoreTypes Pressure Backend Ram Events EventBus Trace TraceFile Health Policy Hotness Backpressure Migration Monitor Diagnostics Scheduler Worker Queue ChunkState.

Open Scope rust_scope.

(** ** Configuration and status *)

Record OrchestratorConfig := mkOrchConfig {
  queue_capacity : Z;
  worker_count : Z;
  oc_max_retries : Z;
  oc_retry_base_delay_ms : Z;
  oc_max_retry_delay_ms : Z;
  oc_enable_compression : bool;
  trace_max_events : Z;
  shutdown_timeout_secs : Z;
  pressure_sample_interval_ms : Z;
  pressure_smoothing_factor : float;      (* f32 *)
  auto_migration_interval_ms : Z;
  pressure_history_size : Z;
  enable_auto_migration : bool;
  deterministic_mode : bool;
  rng_seed : option Z;
}.

Definition OrchestratorConfig_default : OrchestratorConfig :=
  mkOrchConfig 1024 4 3 1000 30000 true 10000 30 1000 (lit f32 3 10) 5000 256 true false (Some 42).

Record OrchestratorStatus := mkStatus {
  st_queue_depth : Z;
  st_queue_full : bool;
  st_active_workers : Z;
  st_jobs_submitted : Z;
  st_jobs_completed : Z;
  st_jobs_failed : Z;
  st_jobs_cancelled : Z;
  st_bytes_transferred : Z;
  st_total_transfer_time_ms : Z;
  st_trace_event_count : Z;
  st_shutting_down : bool;
}.

(** Derived [Debug] of [ChunkId]. *)
Definition chunk_debug (c : ChunkId) : string :=
  "ChunkId([" +:+ String.concat ", " (pretty <$> (Z_of_byte <$> chunk_bytes c)) +:+ "])".

(** [TransferMetrics::record_submission]. *)
Definition record_submission (m : TransferMetrics) : TransferMetrics :=
  mkTM (wrap 64 (jobs_submitted m + 1)) (jobs_completed m) (jobs_failed m) (jobs_cancelled m)
    (bytes_transferred m) (total_transfer_time_ms m) (queue_depth m) (active_workers m).

(** ** What the methods share

    The queue carries the trace log that all components share.  The clock is
    read once for each time stamp. *)

Record Shared := mkShared {
  sh_queue : TransferQueue;
  sh_sm : StateMachine;
  sh_poisoned : bool;
  sh_metrics : TransferMetrics;
  sh_emitter : option EventEmitter;
  sh_clock : nat -> Z;
  sh_ticks : nat;
}.

Definition set_queue (s : Shared) q :=
  mkShared q (sh_sm s) (sh_poisoned s) (sh_metrics s) (sh_emitter s) (sh_clock s) (sh_ticks s).
Definition set_sm (s : Shared) sm p :=
  mkShared (sh_queue s) sm p (sh_metrics s) (sh_emitter s) (sh_clock s) (sh_ticks s).
Definition set_metrics (s : Shared) m :=
  mkShared (sh_queue s) (sh_sm s) (sh_poisoned s) m (sh_emitter s) (sh_clock s) (sh_ticks s).
Definition set_emitter (s : Shared) e :=
  mkShared (sh_queue s) (sh_sm s) (sh_poisoned s) (sh_metrics s) e (sh_clock s) (sh_ticks s).
Definition set_ticks (s : Shared) n :=
  mkShared (sh_queue s) (sh_sm s) (sh_poisoned s) (sh_metrics s) (sh_emitter s) (sh_clock s) n.
Definition sh_log (s : Shared) : TraceLog := q_log (sh_queue s).
Definition set_log (s : Shared) l :=
  set_queue s (mkQueue (jobs (sh_queue s)) (current_depth (sh_queue s)) (shut (sh_queue s))
                 (q_capacity (sh_queue s)) l).

Abbreviation OM := (M Shared GhostError).

Definition now : OM Z := fun s => (Ok (sh_clock s (sh_ticks s)), set_ticks s (S (sh_ticks s))).

(** [self.trace_log.record(..)] of an event stamped with [current_timestamp()]. *)
Definition trace_now (e : Z -> Tr.TraceEvent) : OM unit :=
  t <- now ;;
  fun s => let '(o, q) := log_record (e t) (sh_queue s) in (o, set_queue s q).

(** [if let Some(ref emitter) = self.event_emitter { let _ = emitter.try_emit(..) }]. *)
Definition emit (e : Ev.Event) : OM unit := fun s =>
  match sh_emitter s with
  | Some em =>
      (Ok tt, set_emitter (set_ticks s (S (sh_ticks s))) (Some (try_emit (sh_clock s (sh_ticks s)) e em).2))
  | None => (Ok tt, s)
  end.

(** A block that holds the lock of the state machine. *)
Definition on_states {A} (m : M StateMachine GhostError A) : OM A := fun s =>
  if sh_poisoned s then (Panic "called Result::unwrap() on an Err value: PoisonError", s)
  else let '(o, sm) := m (sh_sm s) in (o, set_sm s sm (is_panic o)).

Definition check_invariants (operation : string) (c : ChunkId) : OM unit := ret tt.

Definition new_job (c : ChunkId) (from to : TierId) (size : Z) (p : TransferPriority) : OM TransferJob :=
  secs <- now ;; instant <- now ;; ret (TransferJob_new secs instant c from to size p).

(** ** The operations of clients *)

Section client.
Context (b : Build).

Definition submit_job (j : TransferJob) : OM unit :=
  modify (fun s => set_metrics s (record_submission (sh_metrics s))) ;;;
  trace_now (Tr.TransferStarted j) ;;;
  t <- now ;;
  fun s => let '(o, q) := submit b t j (sh_queue s) in (o, set_queue s q).

Definition goto (c : ChunkId) (next : ChunkState) : M StateMachine GhostError unit :=
  transition b false c next ;;; ret tt.

Definition store_states (c : ChunkId) : M StateMachine GhostError unit :=
  sm <- gets id ;;
  match get_state sm c with
  | None => register c ;;; goto c Stored
  | Some Allocated => goto c Stored
  | Some Evicted | Some Cached => goto c Stored
  | Some st => throw (InvalidStateTransition (state_debug st) "Stored")
  end.

Definition store_prepare (c : ChunkId) (tier : TierId) (data : list byte) : OM TransferJob :=
  on_states (store_states c) ;;;
  check_invariants "store" c ;;;
  trace_now (Tr.ChunkCreated c (Z.of_nat (length data)) tier) ;;;
  emit (Ev.Store 0 (chunk_debug c) (Z.of_nat (length data))) ;;;
  new_job c tier tier (Z.of_nat (length data)) PNorm.

Definition store (c : ChunkId) (tier : TierId) (data : list byte) : OM unit :=
  j <- store_prepare c tier data ;; submit_job j.

Definition retrieve_states (c : ChunkId) : M StateMachine GhostError unit :=
  sm <- gets id ;;
  match get_state sm c with
  | Some Stored | Some Cached => ret tt
  | Some Migrating => throw (EInternal ("chunk " +:+ chunk_debug c +:+ " is currently migrating"))
  | Some st => throw (InvalidStateTransition (state_debug st) "Readable")
  | None => throw (ChunkNotFound (chunk_debug c))
  end.

Definition retrieve_prepare (c : ChunkId) (tier : TierId) : OM TransferJob :=
  on_states (retrieve_states c) ;;;
  check_invariants "retrieve" c ;;;
  emit (Ev.Retrieve 0 (chunk_debug c) true) ;;;
  new_job c tier tier 0 PHigh.

Definition retrieve (c : ChunkId) (tier : TierId) : OM unit :=
  j <- retrieve_prepare c tier ;; submit_job j.

Definition migrate_states (c : ChunkId) : M StateMachine GhostError unit :=
  sm <- gets id ;;
  match get_state sm c with
  | Some Stored | Some Cached => goto c Migrating
  | Some Failed => goto c Stored ;;; goto c Migrating
  | Some Allocated => goto c Stored ;;; goto c Migrating
  | Some st => throw (InvalidStateTransition (state_debug st) "Migrating")
  | None => throw (ChunkNotFound (chunk_debug c))
  end.

Definition migrate_prepare (c : ChunkId) (from to : TierId) (size : Z) : OM TransferJob :=
  on_states (migrate_states c) ;;;
  check_invariants "migrate" c ;;;
  let priority := if 1024 * 1024 <? size then PNorm else PHigh in
  j <- new_job c from to size priority ;;
  emit (Ev.MigrationDecision 0 c from to "started") ;;;
  emit (Ev.MigrationStarted 0 c from to) ;;;
  ret j.

Definition migrate (c : ChunkId) (from to : TierId) (size : Z) : OM unit :=
  j <- migrate_prepare c from to size ;; submit_job j.

(** The invariant check of [evict] is inside the locked block. *)
Definition evict_states (c : ChunkId) : M StateMachine GhostError unit :=
  sm <- gets id ;;
  match get_state sm c with
  | Some Stored | Some Cached => goto c Evicted
  | Some st => throw (InvalidStateTransition (state_debug st) "Evicted")
  | None => throw (ChunkNotFound (chunk_debug c))
  end.

Definition evict (c : ChunkId) (tier : TierId) : OM unit :=
  on_states (evict_states c) ;;;
  check_invariants "evict" c ;;;
  trace_now (Tr.ChunkStateChanged c Stored Evicted) ;;;
  trace_now (Tr.Eviction c tier ByManual) ;;;
  emit (Ev.Eviction 0 c tier "manual").

(** The body of the completion handler's loop. *)
Definition handle_completion (x : WorkerCompletion) : OM unit :=
  let to := if wc_success x then Stored else Failed in
  (fun s => match on_states (transition b false (wc_chunk x) to) s with
            | (Panic m, s') => (Panic m, s')
            | (_, s') => (Ok tt, s')
            end) ;;;
  fun s => let '(o, q) := log_record (Tr.ChunkStateChanged (wc_chunk x) Migrating to (wc_timestamp x)) (sh_queue s) in
           (o, set_queue s q).
End client.

Definition status (s : Shared) : OrchestratorStatus :=
  let m := sh_metrics s in
  mkStatus (depth (sh_queue s)) (is_full (sh_queue s)) (active_workers m) (jobs_submitted m)
    (jobs_completed m) (jobs_failed m) (jobs_cancelled m) (bytes_transferred m)
    (total_transfer_time_ms m) (log_len (sh_log s)) (is_shutdown (sh_queue s)).

(** ** The orchestrator *)

Record Orchestrator (P : Type) := mkOrch {
  or_config : OrchestratorConfig;
  or_shared : Shared;
  or_backends : gmap TierId PhysicalCost;  (* the registered tiers, with what [cost_model] returns *)
  or_policy : P;
  or_scheduler_config : SchedulerConfig;
  or_worker_config : WorkerPoolConfig;
  or_shutdown_tx : option bool;            (* the sender and the value of its channel *)
  or_pressure : PressureState;             (* the value of the pressure channel *)
  or_monitor : option PressureMonitor;
  or_health : HealthTracker;
  or_hotness : HotnessTracker;
  or_engine : MigrationEngine P;
  or_bp : BackpressureController;
}.
Arguments mkOrch {P}.
Arguments or_config {P}.
Arguments or_shared {P}.
Arguments or_backends {P}.
Arguments or_policy {P}.
Arguments or_scheduler_config {P}.
Arguments or_worker_config {P}.
Arguments or_shutdown_tx {P}.
Arguments or_pressure {P}.
Arguments or_monitor {P}.
Arguments or_health {P}.
Arguments or_hotness {P}.
Arguments or_engine {P}.
Arguments or_bp {P}.

Section orchestrator.
Context {P : Type} `{PlacementPolicy P} `{Libm}.
Local Abbreviation Orch := (Orchestrator P).

Definition set_shared (o : Orch) (s : Shared) : Orch :=
  mkOrch (or_config o) s (or_backends o) (or_policy o) (or_scheduler_config o) (or_worker_config o)
    (or_shutdown_tx o) (or_pressure o) (or_monitor o) (or_health o) (or_hotness o) (or_engine o) (or_bp o).
Definition set_engine (o : Orch) (e : MigrationEngine P) : Orch :=
  mkOrch (or_config o) (or_shared o) (or_backends o) (or_policy o) (or_scheduler_config o)
    (or_worker_config o) (or_shutdown_tx o) (or_pressure o) (or_monitor o) (or_health o)
    (or_hotness o) e (or_bp o).
Definition set_bp (o : Orch) (c : BackpressureController) : Orch :=
  mkOrch (or_config o) (or_shared o) (or_backends o) (or_policy o) (or_scheduler_config o)
    (or_worker_config o) (or_shutdown_tx o) (or_pressure o) (or_monitor o) (or_health o)
    (or_hotness o) (or_engine o) c.
Definition set_hotness (o : Orch) (h : HotnessTracker) : Orch :=
  mkOrch (or_config o) (or_shared o) (or_backends o) (or_policy o) (or_scheduler_config o)
    (or_worker_config o) (or_shutdown_tx o) (or_pressure o) (or_monitor o) (or_health o)
    h (or_engine o) (or_bp o).
Definition set_shutdown_tx (o : Orch) (tx : option bool) : Orch :=
  mkOrch (or_config o) (or_shared o) (or_backends o) (or_policy o) (or_scheduler_config o)
    (or_worker_config o) tx (or_pressure o) (or_monitor o) (or_health o)
    (or_hotness o) (or_engine o) (or_bp o).
Definition set_monitor (o : Orch) (m : option PressureMonitor) : Orch :=
  mkOrch (or_config o) (or_shared o) (or_backends o) (or_policy o) (or_scheduler_config o)
    (or_worker_config o) (or_shutdown_tx o) (or_pressure o) m (or_health o)
    (or_hotness o) (or_engine o) (or_bp o).

Definition on_shared {A} (m : OM A) : M Orch GhostError A := fun o =>
  let '(r, s) := m (or_shared o) in (r, set_shared o s).

(** The loop of [new] over the backends, in key order. *)
Fixpoint register_backends (tiers : list TierId) (h : HealthTracker) : OM HealthTracker :=
  match tiers with
  | [] => ret h
  | t :: tiers => trace_now (Tr.BackendRegistered t) ;;; register_backends tiers (Health.register t h).2
  end.

Definition scheduler_config_of (c : OrchestratorConfig) : SchedulerConfig :=
  mkSchedConfig (worker_count c) true true 64.
Definition worker_config_of (c : OrchestratorConfig) : WorkerPoolConfig :=
  mkPoolConfig (worker_count c) (oc_max_retries c) (oc_retry_base_delay_ms c)
    (oc_max_retry_delay_ms c) (oc_enable_compression c).
Definition monitor_config_of (c : OrchestratorConfig) : PressureMonitorConfig :=
  mkMonConfig (pressure_sample_interval_ms c) (pressure_smoothing_factor c) (lit f32 1 10) 256
    10000000 (lit f32 5 10).

(** [clock] gives the readings of the clock. *)
Definition Orchestrator_new (b : Build) (clock : nat -> Z) (c : OrchestratorConfig)
    (backends : gmap TierId PhysicalCost) (policy : P) : outcome GhostError Orch :=
  let s0 := mkShared (Queue_new (queue_capacity c) (Log_new (trace_max_events c))) SM_new false
              TM_new None clock 0 in
  let '(r, s) := register_backends (btree_keys backends) (Health_new HealthConfig_default) s0 in
  let? health := r in
  let hotness := HotTracker_new (pressure_history_size c) (sh_log s) in
  let? engine := Engine_new b MigrationConfig_default policy hotness (sh_sm s) (sh_log s) backends in
  Ok (mkOrch c s backends policy (scheduler_config_of c) (worker_config_of c) None
        PressureState_new
        (Some (Monitor_new (monitor_config_of c) (Z.to_nat (pressure_history_size c)) (sh_log s)))
        health hotness engine (Bp_new BackpressureConfig_default (sh_log s) (clock 0%nat))).

Definition set_event_emitter (em : EventEmitter) (o : Orch) : Orch :=
  set_shared o (set_emitter (or_shared o) (Some em)).

Definition current_pressure (o : Orch) : PressureState := or_pressure o.
Definition pressure_history (o : Orch) : option PressureHistory := None.

(** The loop of [find_migration_candidates]; [now_s] is the policy's clock. *)
Definition minimal_meta (c : ChunkId) : ChunkMeta :=
  mkChunkMeta c 0 0 Ram Stored 0 0 0 CompNone zero_sum.

Fixpoint candidate_loop (now_s : Z) (p : P) (pr : PressureState) (cs : list ChunkId)
    : OM (list (ChunkId * TierId * TierId)) :=
  match cs with
  | [] => ret []
  | c :: cs =>
      match should_migrate now_s p (minimal_meta c) Ram pr with
      | Some target =>
          trace_now (Tr.PolicyDecision c Ram target "memory_pressure") ;;;
          rest <- candidate_loop now_s p pr cs ;;
          ret ((c, Ram, target) :: rest)
      | None =>
          trace_now (Tr.PolicyDecision c Ram Ram "policy_rejected") ;;;
          candidate_loop now_s p pr cs
      end
  end.

Definition find_migration_candidates (now_s : Z) (p : P) (pr : PressureState)
    : OM (list (ChunkId * TierId * TierId)) :=
  if fgt (memory_pressure pr) (lit f32 7 10) then
    stored <- on_states (gets (fun sm => chunks_in_state sm Stored)) ;;
    candidate_loop now_s p pr stored
  else ret [].

Definition run_pressure_check (now_s : Z) : M Orch GhostError (list (ChunkId * TierId * TierId)) :=
  o <- gets id ;;
  let pr := current_pressure o in
  if negb (is_under_pressure pr) then ret []
  else on_shared (find_migration_candidates now_s (or_policy o) pr).

Definition diagnostic_snapshot (ts elapsed_secs : Z) (o : Orch) : DiagnosticSnapshot :=
  let pr := current_pressure o in
  let d := build_default ts elapsed_secs in
  mkSnapshot ts elapsed_secs (if is_under_pressure pr then HsDegraded else overall_health d)
    (ds_queue d) (ds_migration d) (ds_allocator d) (ds_backends d) (ds_replay d) pr.

(** [receivers] tells whether a task still listens to the shutdown channel.
    What follows only waits for the queue to drain. *)
Definition begin_shutdown (receivers : bool) : M Orch GhostError unit :=
  on_shared (trace_now Tr.DaemonStopping) ;;;
  modify (fun o => set_shared o (set_queue (or_shared o) (shutdown (sh_queue (or_shared o))))) ;;;
  o <- gets id ;;
  match or_shutdown_tx o with
  | None => ret tt
  | Some _ =>
      modify (fun o => set_shutdown_tx o None) ;;;
      if receivers then ret tt else throw (EInternal "shutdown signal already sent")
  end.

(** The waiting loop, over what it observes at each turn: whether the queue is
    empty and the milliseconds since it began.  [Some true] when it drained,
    [Some false] when it timed out, [None] while it waits. *)
Fixpoint wait_drained (timeout_ms : Z) (obs : list (bool * Z)) : option bool :=
  match obs with
  | [] => None
  | (empty, elapsed) :: obs =>
      if empty then Some true
      else if timeout_ms <? elapsed then Some false
      else wait_drained timeout_ms obs
  end.

(** *** Exporting the trace *)

Definition export_metadata (o : Orch) (name summary : string) : TraceMetadata :=
  let events := get_events (sh_log (or_shared o)) in
  mkMeta (Z.of_nat (length events)) (Z.of_nat (size (snapshot (sh_sm (or_shared o)))))
    (btree_keys (or_backends o))
    (match events, last events with
     | e :: _, Some e' => (Tr.timestamp e, Tr.timestamp e')
     | _, _ => (0, 0)
     end) name summary.

(** The contents of the exported file; creating it is assumed to succeed. *)
Definition export_trace_log `{Codec} (b : Build) (name summary : string) (o : Orch)
    : outcome GhostError (list byte) :=
  let events := get_events (sh_log (or_shared o)) in
  let '(r, w) := write_events b events (create HAS_CHECKSUM) in
  let? _ := map_err (fun e => ReplayError ("failed to write events: " +:+ ghost_error_display e)) r in
  if sh_poisoned (or_shared o) then Panic "called Result::unwrap() on an Err value: PoisonError"
  else map_err (fun e => ReplayError ("failed to close trace file: " +:+ ghost_error_display e))
         (close w (export_metadata o name summary)).

(** *** Auto-migration

    A call of the engine or of the backpressure controller, on the shared trace
    log; [evaluate] locks the chunk states. *)

Definition on_engine {A} (m : M (MigrationEngine P) unit A) : M Orch unit A := fun o =>
  let s := or_shared o in
  if sh_poisoned s then (Panic "called Result::unwrap() on an Err value: PoisonError", o)
  else
    let '(r, e) := m (set_inputs (or_hotness o) (sh_sm s) (or_backends o) (sh_log s)
                        (mg_emitter (or_engine o)) (or_engine o)) in
    (r, set_engine (set_shared o (set_log s (mg_log e))) e).

Definition on_bp {A} (m : M BackpressureController unit A) : M Orch unit A := fun o =>
  let '(r, c) := m (Backpressure.set_log (or_bp o) (sh_log (or_shared o))) in
  (r, set_bp (set_shared o (set_log (or_shared o) (bp_log c))) c).

(** [queue.submit_priority(job)] for a candidate: whether it was accepted. *)
Definition try_submit (b : Build) (m : PendingMigration) : M Orch unit bool := fun o =>
  let job := j <- new_job (pm_chunk m) (pm_from m) (pm_to m) (pm_size m) (pm_priority m) ;;
             t <- now ;;
             fun s => let '(r, q) := submit_priority b t j (sh_queue s) in (r, set_queue s q) in
  match job (or_shared o) with
  | (Ok _, s) => (Ok true, set_shared o s)
  | (Err _, s) => (Ok false, set_shared o s)
  | (Panic p, s) => (Panic p, set_shared o s)
  end.

Definition on_marks (m : M (MigrationEngine P) unit unit) : M Orch unit unit := fun o =>
  let '(r, e) := m (or_engine o) in (r, set_engine o e).

Fixpoint auto_submit (b : Build) (ms : list PendingMigration) : M Orch unit unit :=
  match ms with
  | [] => ret tt
  | m :: ms =>
      allowed <- on_bp (should_allow b (pm_priority m)) ;;
      if negb allowed then auto_submit b ms
      else
        room <- gets (fun o => has_capacity (or_engine o)) ;;
        if negb room then ret tt
        else
          ok <- try_submit b m ;;
          (if ok then on_marks (mark_active (pm_chunk m)) else ret tt) ;;;
          auto_submit b ms
  end.

(** One tick of the auto-migration task.  [t] is the engine's clock, [t_s] the
    policy's, [ts] the stamp of events. *)
Definition auto_tick (b : Build) (t t_s ts : Z) : M Orch unit unit :=
  o <- gets id ;;
  ms <- on_engine (mig_evaluate b t t_s ts (or_pressure o)) ;;
  auto_submit b ms ;;;
  modify (fun o => set_hotness o (decay_all t (or_hotness o))).
End orchestrator.

(** ** The calls of clients *)

Inductive Call :=
  | CStore (c : ChunkId) (t : TierId) (data : list byte)
  | CRetrieve (c : ChunkId) (t : TierId)
  | CMigrate (c : ChunkId) (from to : TierId) (size : Z)
  | CEvict (c : ChunkId) (t : TierId).

Definition call_chunk (k : Call) : ChunkId :=
  match k with CStore c _ _ | CRetrieve c _ | CMigrate c _ _ _ | CEvict c _ => c end.

(** A call up to the submission of its job, if it has one, and a whole call. *)
Definition prepare (b : Build) (k : Call) : OM (option TransferJob) :=
  match k with
  | CStore c t d => j <- store_prepare b c t d ;; ret (Some j)
  | CRetrieve c t => j <- retrieve_prepare c t ;; ret (Some j)
  | CMigrate c f t n => j <- migrate_prepare b c f t n ;; ret (Some j)
  | CEvict c t => evict b c t ;;; ret None
  end.
Definition call (b : Build) (k : Call) : OM unit :=
  match k with
  | CStore c t d => store b c t d
  | CRetrieve c t => retrieve b c t
  | CMigrate c f t n => migrate b c f t n
  | CEvict c t => evict b c t
  end.

(** What the lifecycle allows: the state a call moves its chunk to, [None] when
    the call is refused. *)
Definition verdict (k : Call) (st : option ChunkState) : option ChunkState :=
  match k, st with
  | CStore _ _ _, (None | Some (Allocated | Cached)) => Some Stored
  | CRetrieve _ _, Some Stored => Some Stored
  | CRetrieve _ _, Some Cached => Some Cached
  | CMigrate _ _ _ _, Some (Stored | Cached | Failed | Allocated) => Some Migrating
  | CEvict _ _, Some Stored => Some Evicted
  | _, _ => None
  end.

(** The calls that the orchestrator admits and the lifecycle refuses. *)
Definition oversight (k : Call) (st : option ChunkState) : bool :=
  match k, st with
  | CStore _ _ _, Some Evicted | CEvict _ _, Some Cached => true
  | _, _ => false
  end.

(** Chunk, tiers, size and priority of the job of a call. *)
Definition job_fields (j : TransferJob) : ChunkId * TierId * TierId * Z * TransferPriority :=
  (job_chunk j, from_tier j, to_tier j, job_size j, job_priority j).
Definition call_job (k : Call) : option (ChunkId * TierId * TierId * Z * TransferPriority) :=
  match k with
  | CStore c t d => Some (c, t, t, Z.of_nat (length d), PNorm)
  | CRetrieve c t => Some (c, t, t, 0, PHigh)
  | CMigrate c f t n => Some (c, f, t, n, if 1024 * 1024 <? n then PNorm else PHigh)
  | CEvict _ _ => None
  end.

(** ** Well-formed queues *)

Record qwf (q : TransferQueue) : Prop := {
  qw_refines : exists s, refines (q_capacity q) q s;
  qw_cap : 0 < q_capacity q;
  qw_room : q_capacity q * 3 < 2 ^ 64;
}.

Lemma qwf_log q : qwf q -> healthy_log (q_log q).
Proof. intros [[s []] _ _]. done. Qed.

Lemma qwf_with_log q l :
  qwf q -> healthy_log l -> qwf (mkQueue (jobs q) (current_depth q) (shut q) (q_capacity q) l).
Proof. intros [[s []] H1 H2] Hl. split; [exists s; by split|done..]. Qed.

Lemma qwf_shutdown q : qwf q -> qwf (shutdown q).
Proof. intros [[s []] H1 H2]. split; [exists (mkTwo (fast s) (slow s) true); by split|done..]. Qed.

(** What a submission does to a well-formed queue. *)
Definition submitted (j : TransferJob) (q : TransferQueue) (r : outcome GhostError unit)
    (q' : TransferQueue) : Prop :=
  qwf q' /\ shut q' = shut q /\ q_capacity q' = q_capacity q /\
  match r with
  | Ok _ => shut q = false /\ is_full q = false /\ jobs q' ≡ₚ j :: jobs q
  | Err e => jobs q' = jobs q /\
      (shut q = true /\ e = ECancelled \/ shut q = false /\ is_full q = true /\ exists m, e = EInternal m)
  | Panic _ => False
  end.

Lemma submit_effect b t j q :
  qwf q -> submitted j q (submit b t j q).1 (submit b t j q).2.
Proof.
  intros [[s Hr] H1 H2]. pose proof (refines_submit b (q_capacity q) t j q s H1 H2 Hr) as H.
  cbn [impl_step] in H. destruct Hr as [Hj Hf Hs Hd Hb Hsh _ _]. cbn [spec_step] in H.
  assert (Z.of_nat (length (fast s) + length (slow s)) = current_depth q) as El
    by (rewrite Hd, Hj, length_app; lia).
  rewrite El in H. unfold submitted, is_full. rewrite Hsh.
  destruct (submit b t j q) as [r q'].
  destruct (closed s) eqn:Ec; [|destruct (q_capacity q <=? current_depth q) eqn:Ef;
    [|destruct (urgent_job j)]];
    destruct r as [[]|[] |]; destruct H as [? Hr']; simplify_eq;
    pose proof Hr' as [Hj' _ _ _ _ Hsh' Hc' _]; cbn [fst snd] in *;
    (split; [split; [rewrite Hc'; by eexists|by rewrite Hc'..]|]);
    (split; [rewrite Hsh'; simpl; congruence|split; [exact Hc'|]]);
    rewrite ?Hj', ?Hj; cbn [fast slow]; try (split; [done|]); eauto 6.
  - split; [done|]. solve_Permutation.
  - split; [done|]. solve_Permutation.
Qed.

(** ** The effect of a call *)

Record swf (s : Shared) : Prop := { sw_queue : qwf (sh_queue s); sw_lock : sh_poisoned s = false }.

(** What [s'] keeps of [s] when only the log, the events and the clock moved. *)
Record quiet (s s' : Shared) : Prop := {
  qt_jobs : jobs (sh_queue s') = jobs (sh_queue s);
  qt_shut : shut (sh_queue s') = shut (sh_queue s);
  qt_cap : q_capacity (sh_queue s') = q_capacity (sh_queue s);
  qt_full : is_full (sh_queue s') = is_full (sh_queue s);
  qt_queue : qwf (sh_queue s');
  qt_sm : sh_sm s' = sh_sm s;
  qt_lock : sh_poisoned s' = sh_poisoned s;
}.

Lemma quiet_self s : qwf (sh_queue s) -> quiet s s.
Proof. by split. Qed.
Lemma quiet_trans s1 s2 s3 : quiet s1 s2 -> quiet s2 s3 -> quiet s1 s3.
Proof. intros [] []. split; congruence. Qed.

Lemma shared_now_wp (Q : outcome GhostError Z -> Shared -> Prop) s :
  qwf (sh_queue s) -> (forall n s', quiet s s' -> Q (Ok n) s') -> wp now Q s.
Proof. intros Hq HQ. apply HQ. by split. Qed.

Lemma wp_log_record e s (Q : outcome GhostError unit -> Shared -> Prop) :
  qwf (sh_queue s) -> (forall s', quiet s s' -> Q (Ok tt) s') ->
  wp (fun s => let '(o, q) := log_record e (sh_queue s) in (o, set_queue s q)) Q s.
Proof.
  intros Hq HQ. unfold wp. destruct (log_record_ok e (sh_queue s)) as (l & -> & Hl); [apply qwf_log, Hq..|].
  apply HQ. split; try done. by apply qwf_with_log.
Qed.

Lemma wp_trace_now e (Q : outcome GhostError unit -> Shared -> Prop) s :
  qwf (sh_queue s) -> (forall s', quiet s s' -> Q (Ok tt) s') -> wp (trace_now e) Q s.
Proof.
  intros Hq HQ. unfold trace_now. wp_step. apply shared_now_wp; [done|]. intros n s1 H1.
  apply wp_log_record; [apply H1|]. intros s2 H2. apply HQ. by eapply quiet_trans.
Qed.

Lemma shared_emit_wp e (Q : outcome GhostError unit -> Shared -> Prop) s :
  qwf (sh_queue s) -> (forall s', quiet s s' -> Q (Ok tt) s') -> wp (emit e) Q s.
Proof. intros Hq HQ. unfold wp, emit. destruct (sh_emitter s); apply HQ; by split. Qed.

Lemma wp_new_job c f t n p (Q : outcome GhostError TransferJob -> Shared -> Prop) s :
  qwf (sh_queue s) ->
  (forall j s', quiet s s' -> job_fields j = (c, f, t, n, p) -> attempts j = 0 -> Q (Ok j) s') ->
  wp (new_job c f t n p) Q s.
Proof.
  intros Hq HQ. unfold new_job. wp_step. apply shared_now_wp; [done|]. intros n1 s1 H1. wp_step.
  apply shared_now_wp; [apply H1|]. intros n2 s2 H2. wp_step. apply HQ; [by eapply quiet_trans|done..].
Qed.

(** The locked block of a call. *)
Definition states_block (b : Build) (k : Call) : M StateMachine GhostError unit :=
  match k with
  | CStore c _ _ => store_states b c
  | CRetrieve c _ => retrieve_states c
  | CMigrate c _ _ _ => migrate_states b c
  | CEvict c _ => evict_states b c
  end.

Lemma goto_valid b c s next sm :
  states sm !! c = Some s -> edge s next ->
  goto b c next sm = (Ok tt, mkSM (<[c := next]> (states sm))).
Proof. intros H1 H2. unfold goto, bind. by rewrite (transition_valid b false c s next sm). Qed.

(** The outcome of the locked block: the chunk moves as [verdict] says, or
    nothing changes and the call fails. *)
Definition block_post (b : Build) (k : Call) (sm : StateMachine) (r : outcome GhostError unit)
    (sm' : StateMachine) : Prop :=
  match verdict k (get_state sm (call_chunk k)) with
  | Some next => r = Ok tt /\ sm' = mkSM (<[call_chunk k := next]> (states sm))
  | None => sm' = sm /\
      match oversight k (get_state sm (call_chunk k)), b with
      | true, Debug => is_panic r = true
      | _, _ => exists e, r = Err e
      end
  end.

Lemma states_block_effect b k sm r sm' :
  states_block b k sm = (r, sm') -> block_post b k sm r sm'.
Proof.
  unfold block_post, get_state.
  destruct k as [c t d|c t|c f t n|c t]; cbn [states_block call_chunk];
    unfold store_states, retrieve_states, migrate_states, evict_states, get_state, gets, id;
    unfold bind at 1; destruct (states sm !! c) as [[]|] eqn:E; cbn [verdict oversight];
    try (by intros [= <- <-]; split; [|eexists]);
    try (erewrite goto_valid by done; by intros [= <- <-]);
    try (unfold bind at 1; erewrite goto_valid by done; cbn [states];
         erewrite goto_valid; [|by apply lookup_insert_eq|done]; cbn [states];
         intros [= <- <-]; by rewrite insert_insert_eq).
  - unfold goto, bind. rewrite (transition_invalid b false c Evicted Stored) by (by unfold edge).
    destruct b; intros [= <- <-]; eauto.
  - unfold bind at 1. rewrite register_new by done. erewrite goto_valid; [|by apply lookup_insert_eq|done].
    cbn [states]. intros [= <- <-]. by rewrite insert_insert_eq.
  - intros [= <- <-]. split; [done|]. destruct sm. cbn in *. by rewrite insert_id.
  - intros [= <- <-]. split; [done|]. destruct sm. cbn in *. by rewrite insert_id.
  - unfold goto, bind. rewrite (transition_invalid b false c Cached Evicted) by (by unfold edge).
    destruct b; intros [= <- <-]; eauto.
Qed.

(** A call up to its submission: the chunk moves as [verdict] says and the
    expected job is made, or the call fails and nothing changes. *)
Definition prepare_post (b : Build) (k : Call) (s : Shared) (r : outcome GhostError (option TransferJob))
    (s' : Shared) : Prop :=
  let st := get_state (sh_sm s) (call_chunk k) in
  qwf (sh_queue s') /\ jobs (sh_queue s') = jobs (sh_queue s) /\
  shut (sh_queue s') = shut (sh_queue s) /\ is_full (sh_queue s') = is_full (sh_queue s) /\
  q_capacity (sh_queue s') = q_capacity (sh_queue s) /\
  match verdict k st with
  | Some next => exists jo, r = Ok jo /\ job_fields <$> jo = call_job k /\
      (forall j, jo = Some j -> attempts j = 0) /\
      sh_sm s' = mkSM (<[call_chunk k := next]> (states (sh_sm s))) /\ sh_poisoned s' = false
  | None => sh_sm s' = sh_sm s /\
      match oversight k st, b with
      | true, Debug => is_panic r = true /\ sh_poisoned s' = true
      | _, _ => (exists e, r = Err e) /\ sh_poisoned s' = false
      end
  end.

Lemma wp_on_states {A} (m : M StateMachine GhostError A) (Q : outcome GhostError A -> Shared -> Prop) s :
  sh_poisoned s = false ->
  (forall r sm, m (sh_sm s) = (r, sm) -> Q r (set_sm s sm (is_panic r))) -> wp (on_states m) Q s.
Proof. intros Hp HQ. unfold wp, on_states. rewrite Hp. destruct (m (sh_sm s)) as [r sm]. by apply HQ. Qed.

(** The locked block of a call that goes on with [rest]. *)
Lemma wp_block {A} b k s (Q : outcome GhostError A -> Shared -> Prop) (rest : OM A) :
  swf s ->
  (forall next, verdict k (get_state (sh_sm s) (call_chunk k)) = Some next ->
     wp rest Q (set_sm s (mkSM (<[call_chunk k := next]> (states (sh_sm s)))) false)) ->
  (forall r, verdict k (get_state (sh_sm s) (call_chunk k)) = None ->
     match oversight k (get_state (sh_sm s) (call_chunk k)), b with
     | true, Debug => is_panic r = true
     | _, _ => exists e, r = Err e
     end -> Q r (set_sm s (sh_sm s) (is_panic r))) ->
  wp (on_states (states_block b k) ;;; rest) Q s.
Proof.
  intros [Hq Hp] H1 H2. wp_step. apply wp_on_states; [done|]. intros r sm E.
  apply states_block_effect in E. unfold block_post in E. destruct (verdict k _) as [next|].
  - destruct E as [-> ->]. by apply H1.
  - destruct E as [-> E]. destruct r as [u|e|p]; [destruct (oversight k _), b; naive_solver| |].
    + apply (H2 (Err e)); [done|]. destruct (oversight k _), b; naive_solver.
    + apply (H2 (Panic p)); [done|]. destruct (oversight k _), b; naive_solver.
Qed.

(** What is left of a call after its locked block. *)
Definition rest_ok (k : Call) (rest : OM (option TransferJob)) : Prop :=
  forall s, qwf (sh_queue s) -> wp rest (fun r s' => quiet s s' /\ exists jo, r = Ok jo /\
    job_fields <$> jo = call_job k /\ forall j, jo = Some j -> attempts j = 0) s.

Lemma prepare_by_block b k rest s :
  swf s -> rest_ok k rest -> wp (on_states (states_block b k) ;;; rest) (prepare_post b k s) s.
Proof.
  intros Hs Hrest. apply wp_block; [done| |]; unfold prepare_post.
  - intros next ->. eapply wp_mono; [by apply Hrest, Hs|]. intros r s2 [[] (jo & -> & Hj & Ha)].
    split_and!; try done. exists jo. split_and!; try done; congruence.
  - intros r -> Hr. split_and!; try done; [apply Hs|].
    destruct (oversight k _), b; [done|destruct Hr as [e ->]; eauto..].
Qed.

Lemma bind_assoc {St E A B C} (m : M St E A) (f : A -> M St E B) (g : B -> M St E C) s :
  bind (bind m f) g s = bind m (fun x => bind (f x) g) s.
Proof. unfold bind. by destruct (m s) as [[]]. Qed.

Lemma prepare_effect b k s : swf s -> wp (prepare b k) (prepare_post b k s) s.
Proof.
  intros Hs. unfold wp.
  destruct k as [c t d|c t|c f t n|c t]; cbn [prepare];
    unfold store_prepare, retrieve_prepare, migrate_prepare, evict, check_invariants;
    rewrite bind_assoc;
    match goal with |- prepare_post b ?k _ _ _ => apply (prepare_by_block b k _ s); [exact Hs|] end;
    intros s1 H1; repeat (wp_step || (first [apply wp_trace_now | apply shared_emit_wp | apply wp_new_job];
      [by eauto using qt_queue|]; intros));
    (split; [eauto using quiet_trans|]); eexists; (split; [done|]); cbn; split; try congruence.
Qed.

Lemma poisoned_prepare b k s :
  sh_poisoned s = true -> exists p, prepare b k s = (Panic p, s).
Proof.
  intros Hp. destruct k; cbn [prepare];
    unfold store_prepare, retrieve_prepare, migrate_prepare, evict; rewrite bind_assoc;
    unfold bind, on_states; rewrite Hp; eauto.
Qed.

(** Submission: the job joins the queue, or nothing but the log changes. *)
Definition submit_post (j : TransferJob) (s : Shared) (r : outcome GhostError unit) (s' : Shared) : Prop :=
  sh_sm s' = sh_sm s /\ sh_poisoned s' = sh_poisoned s /\ submitted j (sh_queue s) r (sh_queue s').

Lemma submitted_quiet j q q1 r q' :
  jobs q1 = jobs q -> shut q1 = shut q -> q_capacity q1 = q_capacity q -> is_full q1 = is_full q ->
  submitted j q1 r q' -> submitted j q r q'.
Proof. intros E1 E2 E3 E4. unfold submitted. by rewrite E1, E2, E3, E4. Qed.

Lemma submit_job_effect b j s : qwf (sh_queue s) -> wp (submit_job b j) (submit_post j s) s.
Proof.
  intros Hq. unfold submit_job. repeat wp_step. apply wp_trace_now; [done|]. intros s1 H1. wp_step.
  apply shared_now_wp; [apply H1|]. intros t s2 H2. pose proof (quiet_trans _ _ _ H1 H2) as H3.
  pose proof (submit_effect b t j (sh_queue s2) (qt_queue _ _ H3)) as Hs. unfold wp.
  destruct (submit b t j (sh_queue s2)) as [r q']. destruct H3 as [E1 E2 E3 E4 _ E5 E6]. cbn in *.
  split_and!; [done..|]. by eapply submitted_quiet.
Qed.

Lemma call_prepare b k s :
  call b k s = (jo <- prepare b k ;; match jo with Some j => submit_job b j | None => ret tt end) s.
Proof.
  destruct k as [c t d|c t|c f t n|c t]; cbn [call prepare]; unfold store, retrieve, migrate, bind, ret.
  - by destruct (store_prepare b c t d s) as [[]].
  - by destruct (retrieve_prepare c t s) as [[]].
  - by destruct (migrate_prepare b c f t n s) as [[]].
  - by destruct (evict b c t s) as [[[]| |]].
Qed.

(** C18: Every client call, on every state of its chunk, from a well-formed state.
    When the lifecycle allows the call, the chunk moves to the state [verdict]
    names and no other chunk moves; the call then succeeds exactly when the
    queue takes its job (or it has none), and otherwise reports [Cancelled]
    after a shutdown and an internal error at capacity, without undoing the
    move.  When the lifecycle refuses, neither the chunk states nor the queue
    change, and the call returns an error; in a debug build the two calls the
    orchestrator admits against the lifecycle (storing an evicted chunk,
    evicting a cached one) panic and poison the lock instead. *)
Theorem call_outcome b k s :
  swf s ->
  let st := get_state (sh_sm s) (call_chunk k) in
  let '(r, s') := call b k s in
  qwf (sh_queue s') /\
  match verdict k st with
  | Some next =>
      sh_sm s' = mkSM (<[call_chunk k := next]> (states (sh_sm s))) /\ sh_poisoned s' = false /\
      match call_job k with
      | None => r = Ok tt /\ jobs (sh_queue s') = jobs (sh_queue s)
      | Some fields =>
          if shut (sh_queue s) then r = Err ECancelled /\ jobs (sh_queue s') = jobs (sh_queue s)
          else if is_full (sh_queue s)
          then (exists m, r = Err (EInternal m)) /\ jobs (sh_queue s') = jobs (sh_queue s)
          else r = Ok tt /\ exists j, job_fields j = fields /\ jobs (sh_queue s') ≡ₚ j :: jobs (sh_queue s)
      end
  | None =>
      sh_sm s' = sh_sm s /\ jobs (sh_queue s') = jobs (sh_queue s) /\
      match oversight k st, b with
      | true, Debug => is_panic r = true /\ sh_poisoned s' = true
      | _, _ => (exists e, r = Err e) /\ sh_poisoned s' = false
      end
  end.
Proof.
  intros Hs. rewrite call_prepare. pose proof (prepare_effect b k s Hs) as H. unfold wp in H. unfold bind.
  destruct (prepare b k s) as [r s1]. unfold prepare_post in H. cbn [fst snd] in H. cbv zeta.
  destruct H as (Hq & Ej & Esh & Ef & _ & H). destruct (verdict k _) as [next|].
  - destruct H as (jo & -> & Hjo & _ & Hsm & Hp). destruct jo as [j|].
    + pose proof (submit_job_effect b j s1 Hq) as H. unfold wp in H.
      destruct (submit_job b j s1) as [r s2]. destruct H as (E1 & E2 & Hq2 & _ & _ & H). cbn [fst snd] in *.
      rewrite <- Hjo. cbn [fmap option_fmap option_map]. rewrite Esh, Ef, Ej in H.
      split; [done|]. split; [congruence|]. split; [congruence|].
      destruct r as [[]|e|]; [|destruct H as [E [[-> ->]|(-> & -> & m & ->)]]; split; eauto|done].
      destruct H as (-> & -> & H). split; eauto.
    + rewrite <- Hjo. cbn. split_and!; done.
  - destruct H as [Hsm H]. destruct (oversight k _), b, r as [jo|e|p]; cbn [fst snd is_panic] in *;
      destruct H as [H Hp]; try discriminate; try (by destruct H); cbv beta iota; split_and!; try done;
      by eexists.
Qed.

(** ** Components on the shared log *)

(** Whatever a worker does, a healthy log stays healthy. *)
Section worker_log.
Context {S : Type} `{StorageBackend S}.

Let I (w : Worker S) : Prop := healthy_log (w_log w).

Lemma record_keeps_healthy {E} e l : healthy_log l -> healthy_log (record (E := E) e l).2.
Proof. intros Hl. by destruct (record_healthy (E := E) e l Hl) as (l' & -> & ? & _). Qed.

Lemma log_trace e : preserves I (Worker.trace e).
Proof.
  intros w Hw. unfold Worker.trace, bind, current_timestamp.
  pose proof (record_keeps_healthy (E := GhostError) (e (w_clock w (w_ticks w))) _ Hw) as Hr.
  cbn. by destruct (record _ _).
Qed.
Lemma log_trace_at e : preserves I (trace_at e).
Proof.
  intros w Hw. unfold trace_at.
  pose proof (record_keeps_healthy (E := GhostError) e _ Hw) as Hr. by destruct (record _ _).
Qed.
Lemma log_emit e : preserves I (emit_event e).
Proof. intros w Hw. unfold emit_event. by destruct (w_emitter w). Qed.
Lemma log_job {A} (m : M TransferJob GhostError A) : preserves I (on_job m).
Proof. intros w Hw. unfold on_job. by destruct (m (w_job w)). Qed.
Lemma log_tier {A} t (m : M S GhostError A) : preserves I (on_tier t m).
Proof. intros w Hw. unfold on_tier. destruct (w_tiers w !! t) as [s|]; [by destruct (m s)|done]. Qed.
Lemma log_need t : preserves I (need_tier t).
Proof. intros w Hw. unfold need_tier. by destruct (w_tiers w !! t). Qed.
Lemma log_caught {A} (m : M (Worker S) GhostError A) : preserves I m -> preserves I (caught m).
Proof. intros Hm w Hw. specialize (Hm w Hw). unfold caught. by destruct (m w) as [[]]. Qed.

Ltac keeps_log :=
  repeat first [apply log_trace | apply log_trace_at | apply log_emit | apply log_job
    | apply log_need | apply log_caught | apply log_tier | apply preserves_ret
    | apply preserves_gets | apply preserves_lift | by intros w Hw
    | apply preserves_bind; [|intros ?] | case_match].

Lemma work_once_log b c ms wid : preserves I (work_once b c ms wid).
Proof.
  assert (forall n a last, preserves I (retry_loop b c ms n a last)) as Hl.
  { induction n as [|n IH]; intros a last; cbn [retry_loop]; [by intros w Hw|].
    apply preserves_bind; [unfold attempt_once, before_retry, compress_step, Worker.goto; keeps_log|].
    intros [e|]; [apply IH|apply preserves_ret]. }
  unfold work_once, execute_transfer, conclude, report, update_metrics.
  repeat first [apply Hl | progress keeps_log].
Qed.
End worker_log.

(** What an evaluation of the engine may change, and what it proposes. *)
Section engine_log.
Context {P : Type} `{PlacementPolicy P}.
Local Abbreviation Engine := (MigrationEngine P).

Lemma collect_inv {A B} (f : A -> M Engine unit (option B)) (I : Engine -> Prop) (R : B -> Prop) l :
  (forall x e, x ∈ l -> I e ->
     wp (f x) (fun r e' => I e' /\ match r with Ok (Some y) => R y | _ => True end) e) ->
  forall e, I e -> wp (collect f l) (fun r e' => I e' /\ match r with Ok ys => Forall R ys | _ => True end) e.
Proof.
  induction l as [|x l IH]; intros Hf e He; cbn [collect]; [by apply wp_ret|].
  wp_step. eapply wp_mono; [apply Hf; [left|done]|]. intros [r|err|m] e1 [H1 Hr]; [|done..]. wp_step.
  eapply wp_mono; [apply IH; [intros y e' Hy; apply Hf; by right|done]|].
  intros [ys|err|m] e2 [H2 Hy]; [|done..]. wp_step. split; [done|]. destruct r; [by constructor|done].
Qed.

(** Same chunk states, active set and configuration, and a healthy log. *)
Definition steady (e e' : Engine) : Prop :=
  mg_states e' = mg_states e /\ mg_active e' = mg_active e /\ mg_config e' = mg_config e /\
  healthy_log (mg_log e').

Definition fresh_move (e : Engine) (m : PendingMigration) : Prop :=
  get_state (mg_states e) (pm_chunk m) = Some Stored /\ pm_chunk m ∉ mg_active e.

Lemma steady_skip b e0 e :
  steady e0 e -> wp (skip b ;;; ret None)
    (fun r e' => steady e0 e' /\ match r with Ok (Some y) => fresh_move e0 y | _ => True end) e.
Proof. intros He. unfold skip. repeat wp_step. by destruct (arith b 64 _). Qed.

Lemma mig_evaluate_steady b t t_s ts pr e :
  healthy_log (mg_log e) ->
  wp (mig_evaluate b t t_s ts pr)
    (fun r e' => steady e e' /\ match r with Ok ms => Forall (fresh_move e) ms | _ => True end) e.
Proof.
  intros Hl. unfold mig_evaluate. repeat wp_step. destruct (arith b 64 _) as [n|[]|m]; [|by split..].
  repeat wp_step. unfold id. cbn [mg_hotness mg_states mg_set_stats mg_config].
  eapply wp_mono; [apply (collect_inv _ (steady e) (fresh_move e)); [|by split]|].
  - intros [c meta] e1 Hc H1. apply list_elem_of_fmap in Hc as (c' & [= -> ->] & Hc).
    apply (stored_list e) in Hc. unfold evaluate_chunk. repeat wp_step. unfold id.
    case_bool_decide as Ha; [by wp_step|]. case_goal; [by wp_step|].
    destruct (should_migrate _ _ _ _ _) as [target|]; [|by apply steady_skip].
    case_bool_decide; [by apply steady_skip|]. case_goal; [by apply steady_skip|].
    wp_step. unfold wp, mg_trace. destruct H1 as (E1 & E2 & E3 & Hl1).
    destruct (record_healthy (E := unit) (Tr.PolicyDecision c' (meta_tier (stored_meta (mg_hotness e) c')) target
      (reason_of "pressure=" (max_pressure pr)) t) (mg_log e1) Hl1) as (l' & -> & Hl' & _).
    cbn. split; [by split_and!|]. split; [done|]. by rewrite <- E2.
  - intros [ms|err|m] e1 [H1 H2]; [|done..]. wp_step. split; [done|]. apply Forall_take.
    by rewrite sort_by_permutation.
Qed.
End engine_log.

(** ** The running daemon *)

Module Run.
Section run.
Context {P : Type} `{PlacementPolicy P} `{Libm} {S : Type} `{StorageBackend S} (b : Build).

Record Daemon := mkDaemon {
  d_orch : Orchestrator P;
  d_calls : list TransferJob;          (* prepared by a call, not submitted yet *)
  d_chan : JobChannel;
  d_hands : list TransferJob;          (* taken by a worker *)
  d_reports : list WorkerCompletion;
  d_handler : bool;                    (* the completion handler is running *)
  d_lost : list ChunkId;               (* chunks of jobs that vanished without a report *)
}.

Definition shared (d : Daemon) : Shared := or_shared (d_orch d).
Definition with_shared (d : Daemon) (s : Shared) : Daemon :=
  mkDaemon (set_shared (d_orch d) s) (d_calls d) (d_chan d) (d_hands d) (d_reports d) (d_handler d) (d_lost d).
Definition with_orch (d : Daemon) (o : Orchestrator P) : Daemon :=
  mkDaemon o (d_calls d) (d_chan d) (d_hands d) (d_reports d) (d_handler d) (d_lost d).

(** What [start] leaves behind. *)
Definition start (o : Orchestrator P) : outcome GhostError Daemon :=
  let '(r, o1) := on_shared (trace_now Tr.DaemonStarted) (set_shutdown_tx o (Some false)) in
  let? _ := r in
  Ok (mkDaemon (set_monitor o1 None) []
        (mkJobChan [] (Z.to_nat (2 * worker_count (or_config o))) true) [] [] true []).

Definition scheduler_of (d : Daemon) : TransferScheduler :=
  mkScheduler (sh_queue (shared d)) (or_scheduler_config (d_orch d)) None None
    (queue_depth (sh_metrics (shared d))) (d_chan d).
Definition set_depth_of (m : TransferMetrics) (n : Z) : TransferMetrics :=
  mkTM (jobs_submitted m) (jobs_completed m) (jobs_failed m) (jobs_cancelled m)
    (bytes_transferred m) (total_transfer_time_ms m) n (active_workers m).

(** The job an iteration of the scheduler took and did not pass on. *)
Definition dropped (d : Daemon) (sc : TransferScheduler) : list ChunkId :=
  match jobs (sh_queue (shared d)) with
  | j :: _ => if decide (sent_jobs (sc_workers sc) = sent_jobs (d_chan d)) then [job_chunk j] else []
  | [] => []
  end.

Inductive step : Daemon -> Daemon -> Prop :=
  | S_call d k r s :
      prepare b k (shared d) = (r, s) ->
      step d (mkDaemon (set_shared (d_orch d) s)
        (d_calls d ++ match r with Ok (Some j) => [j] | _ => [] end)
        (d_chan d) (d_hands d) (d_reports d) (d_handler d) (d_lost d))
  | S_submit d l1 j l2 r s :
      d_calls d = l1 ++ j :: l2 -> submit_job b j (shared d) = (r, s) ->
      step d (mkDaemon (set_shared (d_orch d) s) (l1 ++ l2) (d_chan d) (d_hands d) (d_reports d)
        (d_handler d) (if is_ok r then d_lost d else job_chunk j :: d_lost d))
  | S_schedule d t r sc :
      run_once b t (or_pressure (d_orch d)) (scheduler_of d) = (r, sc) ->
      step d (mkDaemon (set_shared (d_orch d) (set_metrics (set_queue (shared d) (sc_queue sc))
          (set_depth_of (sh_metrics (shared d)) (sc_depth_metric sc))))
        (d_calls d) (sc_workers sc) (d_hands d) (d_reports d) (d_handler d)
        (dropped d sc ++ d_lost d))
  | S_take d j rest :
      sent_jobs (d_chan d) = j :: rest ->
      step d (mkDaemon (d_orch d) (d_calls d) (mkJobChan rest (jc_cap (d_chan d)) (jc_open (d_chan d)))
        (d_hands d ++ [j]) (d_reports d) (d_handler d) (d_lost d))
  | S_finish d l1 j l2 (w w' : Worker S) ms wid r :
      d_hands d = l1 ++ j :: l2 ->
      w_inbox w = [j] -> w_log w = sh_log (shared d) -> w_metrics w = sh_metrics (shared d) ->
      w_emitter w = sh_emitter (shared d) -> w_reports w = [] -> in_u 64 (w_active w) ->
      work_once b (or_worker_config (d_orch d)) ms wid w = (r, w') ->
      step d (mkDaemon (set_shared (d_orch d) (set_emitter (set_metrics
            (set_log (shared d) (w_log w')) (w_metrics w')) (w_emitter w')))
        (d_calls d) (d_chan d) (l1 ++ l2) (d_reports d ++ if is_ok r then w_reports w' else []) (d_handler d)
        (match r, w_reports w' with Ok _, _ :: _ => d_lost d | _, _ => job_chunk j :: d_lost d end))
  | S_complete d x rest r s :
      d_handler d = true -> d_reports d = x :: rest ->
      handle_completion b x (shared d) = (r, s) ->
      step d (mkDaemon (set_shared (d_orch d) s) (d_calls d) (d_chan d) (d_hands d) rest
        (negb (is_panic r)) (if is_panic r then wc_chunk x :: d_lost d else d_lost d))
  | S_auto d t t_s ts r o :
      enable_auto_migration (or_config (d_orch d)) = true ->
      auto_tick b t t_s ts (d_orch d) = (r, o) -> step d (with_orch d o)
  | S_backpressure d t ts r o :
      on_bp (evaluate b t ts (or_pressure (d_orch d))) (d_orch d) = (r, o) -> step d (with_orch d o)
  | S_log d e r q :
      log_record e (sh_queue (shared d)) = (r, q) -> step d (with_shared d (set_queue (shared d) q))
  | S_shutdown d receivers r o :
      begin_shutdown receivers (d_orch d) = (r, o) -> step d (with_orch d o)
  | S_stop d :
      is_shutdown (sh_queue (shared d)) = true ->
      step d (mkDaemon (d_orch d) (d_calls d) (d_chan d) (d_hands d) (d_reports d) false (d_lost d)).

(** *** The invariant *)

Definition jobs_of (d : Daemon) : list TransferJob :=
  d_calls d ++ jobs (sh_queue (shared d)) ++ sent_jobs (d_chan d) ++ d_hands d.

(** The chunks with a job on its way or a report to be handled. *)
Definition in_flight (d : Daemon) : list ChunkId :=
  (job_chunk <$> jobs_of d) ++ (wc_chunk <$> d_reports d).

(** Every chunk being migrated has a job on its way, or lost its job. *)
Definition accounted (d : Daemon) : Prop :=
  forall c, get_state (sh_sm (shared d)) c = Some Migrating -> c ∈ in_flight d \/ c ∈ d_lost d.

Record inv (d : Daemon) : Prop := {
  iv_queue : qwf (sh_queue (shared d));
  iv_fresh : Forall (fun j => attempts j = 0) (jobs_of d);
  iv_account : accounted d;
  iv_pressure : or_pressure (d_orch d) = PressureState_new;
  iv_retries : 0 <= max_retries (or_worker_config (d_orch d)) < 2 ^ 32;
  iv_chan : (length (sent_jobs (d_chan d)) <= jc_cap (d_chan d))%nat;
}.

Lemma verdict_migrating k st : verdict k st = Some Migrating -> call_job k <> None.
Proof. by destruct k, st as [[]|]. Qed.

Lemma call_job_chunk k j : job_fields <$> Some j = call_job k -> job_chunk j = call_chunk k.
Proof. destruct k; cbn; unfold job_fields; intros [=]; done. Qed.

Lemma inv_call d k r s :
  inv d -> prepare b k (shared d) = (r, s) ->
  inv (mkDaemon (set_shared (d_orch d) s) (d_calls d ++ match r with Ok (Some j) => [j] | _ => [] end)
    (d_chan d) (d_hands d) (d_reports d) (d_handler d) (d_lost d)).
Proof.
  intros [Hq Hf Ha Hp Hm Hc] E. destruct (sh_poisoned (shared d)) eqn:Ep.
  { destruct (poisoned_prepare b k _ Ep) as [p E']. rewrite E in E'. simplify_eq. rewrite app_nil_r.
    by split. }
  pose proof (prepare_effect b k (shared d) (Build_swf _ Hq Ep)) as H'. unfold wp in H'. rewrite E in H'.
  destruct H' as (Hq' & Ej & _ & _ & _ & H'). cbn [fst snd] in *.
  assert (forall l, jobs_of (mkDaemon (set_shared (d_orch d) s) (d_calls d ++ l) (d_chan d) (d_hands d)
    (d_reports d) (d_handler d) (d_lost d)) ≡ₚ l ++ jobs_of d) as Hperm.
  { intros l. unfold jobs_of, shared. cbn. unfold shared in Ej. rewrite Ej. solve_Permutation. }
  split; try done; cbn [d_orch d_lost]; unfold accounted, in_flight.
  - rewrite Hperm. apply Forall_app. split; [|done].
    destruct r as [[j|]| |]; try constructor; [|done].
    destruct (verdict k _); [|destruct H' as [_ H'], (oversight k _), b; naive_solver].
    destruct H' as (jo & [= <-] & _ & H' & _). by apply H'.
  - intros c Hst. cbn in Hst. setoid_rewrite Hperm. rewrite fmap_app, !elem_of_app.
    specialize (Ha c). unfold in_flight in Ha. rewrite elem_of_app in Ha.
    destruct (verdict k _) as [next|] eqn:Ev.
    + destruct H' as (jo & -> & Hjo & _ & Hsm & _). rewrite Hsm in Hst. unfold get_state in Hst. cbn in Hst.
      destruct (decide (c = call_chunk k)) as [->|Hne].
      * rewrite lookup_insert_eq in Hst. simplify_eq. apply verdict_migrating in Ev.
        destruct jo as [j|]; [|by rewrite <- Hjo in Ev]. left. left. left.
        rewrite <- (call_job_chunk k j Hjo). apply list_elem_of_here.
      * rewrite lookup_insert_ne in Hst by done. naive_solver.
    + destruct H' as [Hsm _]. rewrite Hsm in Hst. naive_solver.
Qed.

Lemma account_kept d d' :
  sh_sm (shared d') = sh_sm (shared d) -> in_flight d ⊆ in_flight d' ++ d_lost d' ->
  d_lost d ⊆ d_lost d' -> accounted d -> accounted d'.
Proof.
  intros Hsm Hf Hl Ha c Hc. rewrite Hsm in Hc. destruct (Ha c Hc) as [H'|H'].
  - apply elem_of_app. by apply Hf.
  - right. by apply Hl.
Qed.

Lemma inv_submit d l1 j l2 r s :
  inv d -> d_calls d = l1 ++ j :: l2 -> submit_job b j (shared d) = (r, s) ->
  inv (mkDaemon (set_shared (d_orch d) s) (l1 ++ l2) (d_chan d) (d_hands d) (d_reports d)
    (d_handler d) (if is_ok r then d_lost d else job_chunk j :: d_lost d)).
Proof.
  intros [Hq Hf Ha Hp Hm Hc] Hd E.
  pose proof (submit_job_effect b j (shared d) Hq) as H'. unfold wp in H'. rewrite E in H'.
  destruct H' as (Hsm & _ & Hq' & _ & _ & Hr). cbn [fst snd] in *.
  assert (exists l, jobs (sh_queue s) ≡ₚ l ++ jobs (sh_queue (shared d)) /\ l = if is_ok r then [j] else [])
    as (l & Hperm & ->).
  { eexists. split; [|done]. destruct r as [[]| |]; [by destruct Hr as (_ & _ & ->)|by destruct Hr as [-> _]|done]. }
  split; try done; cbn.
  - unfold jobs_of in *. cbn in *. rewrite Hd in Hf. rewrite Hperm. destruct (is_ok r);
      revert Hf; rewrite !Forall_app, ?Forall_cons; naive_solver.
  - apply (account_kept d); [exact Hsm| | |done].
    + unfold in_flight, jobs_of. cbn. intros c. rewrite Hd, Hperm.
      destruct (is_ok r); rewrite ?fmap_app, ?fmap_cons; set_solver.
    + cbn. destruct (is_ok r); set_solver.
Qed.

Lemma qwf_rest q q' j rest :
  qwf q -> jobs q = j :: rest -> jobs q' = rest -> current_depth q' = Z.of_nat (length rest) ->
  shut q' = shut q -> q_capacity q' = q_capacity q -> healthy_log (q_log q') -> qwf q'.
Proof.
  intros [[s [Hj Hf Hs Hd Hb Hsh _ _]] H2 H3] Ej Ej' Ed' Esh Ec Hl.
  rewrite Ej in Hj, Hd. cbn [length] in Hd. split; rewrite ?Ec; try done.
  destruct (fast s) as [|j' f] eqn:Ef; cbn in Hj.
  - exists (mkTwo [] rest (closed s)). rewrite <- Hj in Hs. apply Forall_cons in Hs as [_ Hs].
    split; cbn; try done; try congruence; lia.
  - exists (mkTwo f (slow s) (closed s)). simplify_eq. apply Forall_cons in Hf as [_ Hf].
    split; cbn; try done; try congruence; lia.
Qed.

Lemma run_once_idle t p (sc : TransferScheduler) :
  jobs (sc_queue sc) = [] -> run_once b t p sc = (Ok tt, sc).
Proof.
  intros E. unfold run_once, bind, on_queue, try_dequeue, gets, id, bind. rewrite E. unfold ret.
  by destruct sc.
Qed.

Lemma inv_schedule d t r sc :
  inv d -> run_once b t (or_pressure (d_orch d)) (scheduler_of d) = (r, sc) ->
  inv (mkDaemon (set_shared (d_orch d) (set_metrics (set_queue (shared d) (sc_queue sc))
      (set_depth_of (sh_metrics (shared d)) (sc_depth_metric sc))))
    (d_calls d) (sc_workers sc) (d_hands d) (d_reports d) (d_handler d) (dropped d sc ++ d_lost d)).
Proof.
  intros [Hq Hf Ha Hp Hm Hc] E. unfold dropped.
  destruct (jobs (sh_queue (shared d))) as [|j rest] eqn:Ej.
  { rewrite run_once_idle in E by done. simplify_eq. by split. }
  destruct (run_once_fate b t (or_pressure (d_orch d)) (scheduler_of d) j rest)
    as (sc' & E' & Ej' & Ed' & Es & Esh & Ec & Hl & Ecap & _).
  { done. }
  { rewrite <- Ej. by destruct Hq as [[s []] _ _]. }
  { destruct Hq as [[s []] _ ?]. cbn. lia. }
  { apply qwf_log, Hq. }
  rewrite E in E'. injection E' as -> <-. cbn [scheduler_of sc_workers sc_queue] in *.
  set (sent := negb _ && accepts _) in Es.
  assert (length (sent_jobs (sc_workers sc)) <= jc_cap (sc_workers sc))%nat as Hc'.
  { rewrite Es, Ecap. destruct sent eqn:Esent; [|done]. subst sent. apply andb_true_iff in Esent as [_ Ha'].
    unfold accepts in Ha'. apply andb_true_iff in Ha' as [_ Ha']. apply Nat.ltb_lt in Ha'.
    rewrite length_app. cbn. lia. }
  assert (forall c, c = job_chunk j ->
    c ∈ (job_chunk <$> sent_jobs (sc_workers sc)) \/
    c ∈ if decide (sent_jobs (sc_workers sc) = sent_jobs (d_chan d)) then [job_chunk j] else []) as Hj.
  { intros c ->. case_decide as Hd; [right; apply list_elem_of_here|left]. destruct sent; [|done]. rewrite Es, fmap_app.
    set_solver. }
  assert (sent_jobs (d_chan d) ⊆ sent_jobs (sc_workers sc)) as Hsub
    by (rewrite Es; destruct sent; set_solver).
  split; try done; cbn.
  - by eapply qwf_rest.
  - unfold jobs_of in *. cbn in *. rewrite Ej, Ej', Es in *. destruct sent;
      revert Hf; rewrite !Forall_app, !Forall_cons; naive_solver.
  - apply (account_kept d); [done| |intros c Hl'; apply elem_of_app; by right|done].
    unfold in_flight, jobs_of. cbn. rewrite Ej, Ej'. intros c Hin.
    assert (c ∈ job_chunk <$> sent_jobs (d_chan d) -> c ∈ job_chunk <$> sent_jobs (sc_workers sc))
      by (intros (x & -> & Hx)%list_elem_of_fmap; apply list_elem_of_fmap; eauto).
    rewrite !fmap_app, !elem_of_app, fmap_cons, elem_of_cons in Hin. rewrite !fmap_app, !elem_of_app.
    specialize (Hj c). tauto.
Qed.

Lemma inv_take d j rest :
  inv d -> sent_jobs (d_chan d) = j :: rest ->
  inv (mkDaemon (d_orch d) (d_calls d) (mkJobChan rest (jc_cap (d_chan d)) (jc_open (d_chan d)))
    (d_hands d ++ [j]) (d_reports d) (d_handler d) (d_lost d)).
Proof.
  intros [Hq Hf Ha Hp Hm Hc] E. rewrite E in Hc. cbn in Hc.
  assert (forall d', d' = mkDaemon (d_orch d) (d_calls d) (mkJobChan rest (jc_cap (d_chan d)) (jc_open (d_chan d)))
    (d_hands d ++ [j]) (d_reports d) (d_handler d) (d_lost d) -> jobs_of d' ≡ₚ jobs_of d) as Hperm.
  { intros d' ->. unfold jobs_of, shared. cbn. rewrite E. solve_Permutation. }
  split; try done; [by rewrite (Hperm _ eq_refl)| |cbn; lia].
  apply (account_kept d); try done. unfold in_flight. rewrite (Hperm _ eq_refl). set_solver.
Qed.

Lemma inv_finish d l1 j l2 (w w' : Worker S) ms wid r :
  inv d -> d_hands d = l1 ++ j :: l2 ->
  w_inbox w = [j] -> w_log w = sh_log (shared d) -> w_reports w = [] -> in_u 64 (w_active w) ->
  work_once b (or_worker_config (d_orch d)) ms wid w = (r, w') ->
  inv (mkDaemon (set_shared (d_orch d) (set_emitter (set_metrics
        (set_log (shared d) (w_log w')) (w_metrics w')) (w_emitter w')))
    (d_calls d) (d_chan d) (l1 ++ l2) (d_reports d ++ if is_ok r then w_reports w' else []) (d_handler d)
    (match r, w_reports w' with Ok _, _ :: _ => d_lost d | _, _ => job_chunk j :: d_lost d end)).
Proof.
  intros [Hq Hf Ha Hp Hm Hc] Hh Hi Hl Hr Hu E.
  assert (healthy_log (w_log w')) as Hl'.
  { change w' with (r, w').2. rewrite <- E. apply work_once_log. unfold sh_log in Hl. rewrite Hl. by apply qwf_log. }
  assert (attempts j = 0) as Hat.
  { unfold jobs_of in Hf. rewrite Hh in Hf. revert Hf. rewrite !Forall_app, Forall_cons. tauto. }
  pose proof (work_once_settles b (or_worker_config (d_orch d)) ms wid w j [] r w' Hi Hu ltac:(lia) ltac:(lia) ltac:(lia) E) as Hs.
  split; try done; cbn.
  - by apply qwf_with_log.
  - unfold jobs_of in *. cbn in *. rewrite Hh in Hf. revert Hf. rewrite !Forall_app, Forall_cons. tauto.
  - apply (account_kept d); [done| |cbn; repeat case_match; set_solver|done].
    assert (job_chunk j ∈ (wc_chunk <$> if is_ok r then w_reports w' else []) \/
      job_chunk j ∈ match r, w_reports w' with Ok _, _ :: _ => d_lost d | _, _ => job_chunk j :: d_lost d end) as Hj.
    { destruct r as [more|e|p]; [|done|right; set_solver].
      destruct Hs as (_ & _ & _ & err & ts & _ & _ & _ & ->). rewrite Hr. unfold reports_of.
      case_decide; [right; set_solver|left; cbn; set_solver]. }
    unfold in_flight, jobs_of. cbn. intros c Hin.
    rewrite Hh, !fmap_app, fmap_cons, !elem_of_app, elem_of_cons in Hin.
    rewrite !fmap_app, !elem_of_app. destruct (decide (c = job_chunk j)) as [->|Hne]; tauto.
Qed.

Lemma completion_leaves_migrating c next s r sm :
  next = Stored \/ next = Failed -> transition b false c next s = (r, sm) ->
  get_state sm c <> Some Migrating /\ forall c', c' <> c -> get_state sm c' = get_state s c'.
Proof.
  intros Hn E. unfold get_state. destruct (states s !! c) as [st|] eqn:Es.
  - destruct (decide (edge st next)) as [He|He].
    + rewrite (transition_valid b false c st next s Es He) in E. simplify_eq. cbn. split.
      * rewrite lookup_insert_eq. destruct Hn; naive_solver.
      * intros c' Hc. by rewrite lookup_insert_ne.
    + rewrite (transition_invalid b false c st next s Es He) in E. simplify_eq. split; [|done].
      rewrite Es. intros [= ->]. by destruct Hn as [-> | ->].
  - rewrite (transition_unregistered b false c next s Es) in E. simplify_eq. split; [congruence|done].
Qed.

(** What handling a report does; a poisoned lock makes it panic. *)
Definition completion_post (x : WorkerCompletion) (s : Shared) (r : outcome GhostError unit) (s' : Shared) : Prop :=
  qwf (sh_queue s') /\ jobs (sh_queue s') = jobs (sh_queue s) /\
  if sh_poisoned s then is_panic r = true /\ sh_sm s' = sh_sm s
  else get_state (sh_sm s') (wc_chunk x) <> Some Migrating /\
    forall c, c <> wc_chunk x -> get_state (sh_sm s') c = get_state (sh_sm s) c.

Lemma handle_completion_effect x s :
  qwf (sh_queue s) -> wp (handle_completion b x) (completion_post x s) s.
Proof.
  intros Hq. unfold handle_completion, completion_post.
  set (next := if wc_success x then Stored else Failed).
  assert (next = Stored \/ next = Failed) as Hn by (subst next; destruct (wc_success x); auto).
  wp_step. unfold wp at 1, on_states. destruct (sh_poisoned s) eqn:Ep; [done|].
  destruct (transition b false (wc_chunk x) next (sh_sm s)) as [o sm] eqn:Et.
  destruct (completion_leaves_migrating _ _ _ _ _ Hn Et) as [Hsm1 Hsm2].
  destruct o as [u|e|p]; [apply wp_log_record; [done|]; intros s' [E1 E2 E3 E4 E5 E6 E7]; rewrite E6; by split_and!..|].
  by split_and!.
Qed.

Lemma inv_completion d x rest r s :
  inv d -> d_reports d = x :: rest -> handle_completion b x (shared d) = (r, s) ->
  inv (mkDaemon (set_shared (d_orch d) s) (d_calls d) (d_chan d) (d_hands d) rest
    (negb (is_panic r)) (if is_panic r then wc_chunk x :: d_lost d else d_lost d)).
Proof.
  intros [Hq Hf Ha Hp Hm Hc] Hx E.
  pose proof (handle_completion_effect x (shared d) Hq) as H'. unfold wp in H'. rewrite E in H'. cbn [fst snd] in H'.
  destruct H' as (Hq' & Ej & H'). split; try done; cbn.
  { unfold jobs_of in *. cbn in *. by rewrite Ej. }
  destruct (sh_poisoned (shared d)) eqn:Ep.
  - destruct H' as [-> Hsm]. apply (account_kept d); try done; unfold in_flight, jobs_of; cbn; rewrite ?Hx, ?Ej; set_solver.
  - destruct H' as [H1' H2']. intros c Hst. cbn in Hst.
    destruct (decide (c = wc_chunk x)) as [->|Hne]; [done|]. rewrite H2' in Hst by done.
    destruct (Ha c Hst) as [Hin|Hin]; [left|right; cbn; case_match; set_solver].
    unfold in_flight, jobs_of in *. cbn. rewrite Ej. rewrite Hx, fmap_cons in Hin. set_solver.
Qed.

(** *** Background tasks that leave the chunk states alone *)

Local Abbreviation Orch := (Orchestrator P).

Record moves (o o' : Orch) : Prop := {
  mv_sm : sh_sm (or_shared o') = sh_sm (or_shared o);
  mv_pressure : or_pressure o' = or_pressure o;
  mv_workers : or_worker_config o' = or_worker_config o;
  mv_queue : qwf (sh_queue (or_shared o'));
  mv_jobs : exists l, jobs (sh_queue (or_shared o')) ≡ₚ l ++ jobs (sh_queue (or_shared o)) /\
    Forall (fun j => attempts j = 0 /\ get_state (sh_sm (or_shared o)) (job_chunk j) = Some Stored) l /\
    (has_capacity (or_engine o) = false -> l = []);
  mv_active : mg_active (or_engine o) ⊆ mg_active (or_engine o');
  mv_engine : mg_config (or_engine o') = mg_config (or_engine o);
}.

Lemma moves_refl o : qwf (sh_queue (or_shared o)) -> moves o o.
Proof. intros Hq. split; try done. by exists []. Qed.

Lemma moves_room o o' : moves o o' -> has_capacity (or_engine o) = false -> has_capacity (or_engine o') = false.
Proof.
  intros Hm. unfold has_capacity, active_count. rewrite (mv_engine _ _ Hm).
  pose proof (subseteq_size _ _ (mv_active _ _ Hm)). intros ?. bool_to_prop. apply Z.ltb_ge. lia.
Qed.

Lemma moves_trans o1 o2 o3 : moves o1 o2 -> moves o2 o3 -> moves o1 o3.
Proof.
  intros H12 H23. pose proof (moves_room _ _ H12) as Hroom. destruct H12 as [A1 A2 A3 A4 (l & A5 & A6 & A7) A8 A9].
  destruct H23 as [B1 B2 B3 B4 (l' & B5 & B6 & B7) B8 B9].
  split; try congruence; [|set_solver]. exists (l' ++ l). split_and!.
  - rewrite B5, A5. by rewrite app_assoc.
  - apply Forall_app. split; [|done]. by rewrite A1 in B6.
  - intros Hc. by rewrite A7, B7 by auto.
Qed.

(** A state that differs in the log, and in parts that do not matter here. *)
Lemma moves_log o o' l :
  qwf (sh_queue (or_shared o)) -> healthy_log l ->
  sh_queue (or_shared o') = mkQueue (jobs (sh_queue (or_shared o))) (current_depth (sh_queue (or_shared o)))
    (shut (sh_queue (or_shared o))) (q_capacity (sh_queue (or_shared o))) l ->
  sh_sm (or_shared o') = sh_sm (or_shared o) -> or_pressure o' = or_pressure o ->
  or_worker_config o' = or_worker_config o -> mg_active (or_engine o) ⊆ mg_active (or_engine o') ->
  mg_config (or_engine o') = mg_config (or_engine o) -> moves o o'.
Proof.
  intros Hq Hl E1 E2 E3 E4 E5 E6. split; try done; rewrite E1; [by apply qwf_with_log|]. by exists [].
Qed.

Lemma bp_keeps_log p (c : BackpressureController) : bp_log (should_allow b p c).2 = bp_log c.
Proof.
  unfold should_allow, incr, bind, gets, modify, lift, ret, id. destruct (allows _ _); [done|].
  by destruct (arith b 64 _).
Qed.

Lemma wp_allow p o (Q : outcome unit bool -> Orch -> Prop) :
  qwf (sh_queue (or_shared o)) -> (forall r o', moves o o' -> or_engine o' = or_engine o -> Q r o') ->
  wp (on_bp (should_allow b p)) Q o.
Proof.
  intros Hq HQ. unfold wp, on_bp.
  pose proof (bp_keeps_log p (Backpressure.set_log (or_bp o) (sh_log (or_shared o)))) as Hb.
  destruct (should_allow b p _) as [r c]. cbn [fst snd] in *. apply HQ; [|done].
  apply (moves_log _ _ (sh_log (or_shared o))); try done; [by apply qwf_log|]. cbn. by rewrite Hb.
Qed.

Lemma wp_try_submit m o (Q : outcome unit bool -> Orch -> Prop) :
  qwf (sh_queue (or_shared o)) -> get_state (sh_sm (or_shared o)) (pm_chunk m) = Some Stored ->
  has_capacity (or_engine o) = true ->
  (forall r o', moves o o' -> or_engine o' = or_engine o -> Q r o') -> wp (try_submit b m) Q o.
Proof.
  intros Hq Hst Hroom HQ. unfold wp, try_submit.
  set (prog := bind (new_job _ _ _ _ _) _).
  assert (wp prog (fun r s' => moves o (set_shared o s')) (or_shared o)) as Hwp.
  { subst prog. wp_step. apply wp_new_job; [done|]. intros j s1 H1' Hj Ha. wp_step. apply shared_now_wp; [apply H1'|].
    intros t s2 H2'. pose proof (quiet_trans _ _ _ H1' H2') as H3'.
    pose proof (submit_effect b t j (sh_queue s2) (qt_queue _ _ H3')) as Hs. unfold wp. unfold submit in Hs.
    destruct (submit_priority b t j (sh_queue s2)) as [r q']. destruct Hs as (Hq' & _ & _ & Hr). cbn [fst snd] in *.
    destruct H3' as [E1 E2 E3 E4 _ E5 E6]. split; try done. cbn [or_shared set_shared set_queue sh_queue].
    rewrite E1 in Hr. destruct r as [u|e|p]; [|exists []; destruct Hr as [-> _]; by split_and!|done].
    exists [j]. destruct Hr as (_ & _ & ->). split_and!; [done| |by rewrite Hroom]. repeat constructor; [done|].
    injection Hj as -> _. done. }
  unfold wp in Hwp. destruct (prog (or_shared o)) as [[u|e|p] s']; by apply HQ.
Qed.

Lemma wp_auto_submit ms o :
  qwf (sh_queue (or_shared o)) ->
  Forall (fun m => get_state (sh_sm (or_shared o)) (pm_chunk m) = Some Stored) ms ->
  wp (auto_submit b ms) (fun _ o' => moves o o') o.
Proof.
  revert o. induction ms as [|m ms IH]; intros o Hq Hms; cbn [auto_submit]; [by apply moves_refl|].
  apply Forall_cons in Hms as [Hm Hms].
  assert (forall o', moves o o' -> wp (auto_submit b ms) (fun _ o'' => moves o o'') o') as Hnext.
  { intros o' Hmv. eapply wp_mono; [apply IH; [apply Hmv|by rewrite (mv_sm _ _ Hmv)]|].
    intros r' o'' H'. by eapply moves_trans. }
  wp_step. apply wp_allow; [done|]. intros r o1 H1' Ee. destruct r as [[]|[]|p]; cbn [negb]; [|by apply Hnext|done..].
  repeat wp_step. destruct (has_capacity (or_engine o1)) eqn:Er; cbn [negb]; [|by wp_step].
  wp_step. apply wp_try_submit; [apply H1'|by rewrite (mv_sm _ _ H1')|done|]. intros r o2 H2' Ee2.
  pose proof (moves_trans _ _ _ H1' H2') as H3'. destruct r as [[]|[]|p]; [| |done..]; wp_step; [|wp_step; by apply Hnext].
  unfold wp at 1, on_marks, mark_active, sync_active, bind, modify. cbn [fst snd]. apply Hnext.
  eapply moves_trans; [exact H3'|]. apply (moves_log _ _ (sh_log (or_shared o2))); try done; [apply H3'|apply qwf_log, H3'| |].
  - cbn. unfold sh_log. by destruct (sh_queue (or_shared o2)).
  - cbn. set_solver.
Qed.

Lemma auto_tick_moves t t_s ts o :
  qwf (sh_queue (or_shared o)) -> wp (auto_tick b t t_s ts) (fun _ o' => moves o o') o.
Proof.
  intros Hq. unfold auto_tick. repeat wp_step. unfold wp at 1, on_engine, id.
  destruct (sh_poisoned (or_shared o)); [by apply moves_refl|].
  set (e := set_inputs _ _ _ _ _ _).
  pose proof (mig_evaluate_steady b t t_s ts (or_pressure o) e (qwf_log _ Hq)) as He. unfold wp in He.
  destruct (mig_evaluate b t t_s ts (or_pressure o) e) as [r e']. destruct He as [(E1 & E2 & E3 & Hl) Hr].
  cbn [fst snd] in *. set (o1 := set_engine _ _).
  assert (moves o o1) as H1'.
  { apply (moves_log _ _ (mg_log e')); try done. subst o1. cbn. by rewrite E2. }
  destruct r as [ms|[]|p]; [|done..]. wp_step. eapply wp_mono; [apply wp_auto_submit|].
  - apply H1'.
  - eapply Forall_impl; [exact Hr|]. by intros m [Hm _].
  - intros r o2 H2'. pose proof (moves_trans _ _ _ H1' H2') as H3'. destruct r as [u|[]|p]; [|done..].
    wp_step. eapply moves_trans; [exact H3'|]. eapply (moves_log _ _ (sh_log (or_shared o2))); try done;
      [apply H3'|apply qwf_log, H3'|].
    cbn. unfold sh_log. by destruct (sh_queue (or_shared o2)).
Qed.

Lemma inv_moves d o : inv d -> moves (d_orch d) o -> inv (with_orch d o).
Proof.
  intros [Hq Hf Ha Hp Hm Hc] [A1 A2 A3 A4 (l & A5 & A6 & _) A8 A9].
  split; try done; cbn; [|unfold accounted|congruence|by rewrite A3].
  - unfold jobs_of, shared in *. cbn. rewrite A5. revert Hf. rewrite !Forall_app. intros (? & ? & ? & ?).
    split_and!; try done. eapply Forall_impl; [exact A6|]. by intros j [].
  - apply (account_kept d); [done| |done|done]. unfold in_flight, jobs_of, shared. cbn. rewrite A5.
    rewrite !fmap_app. set_solver.
Qed.

Lemma bp_evaluate_log t ts p : preserves (fun c => healthy_log (bp_log c)) (evaluate b t ts p).
Proof.
  assert (forall e, preserves (fun c => healthy_log (bp_log c)) (bp_trace e)) as Ht.
  { intros e c Hc. unfold bp_trace. pose proof (record_keeps_healthy (E := unit) e _ Hc) as Hr.
    by destruct (record _ _). }
  unfold evaluate, choose_action, update_stats, bp_emit, incr.
  repeat first [apply Ht | apply preserves_ret | apply preserves_gets | apply preserves_lift
    | by intros c Hc | apply preserves_bind; [|intros ?] | case_match].
  all: intros c Hc; cbn; by destruct (pressure_since c).
Qed.

Lemma backpressure_moves t ts o :
  qwf (sh_queue (or_shared o)) ->
  wp (on_bp (evaluate b t ts (or_pressure o))) (fun _ o' => moves o o') o.
Proof.
  intros Hq. unfold wp, on_bp.
  pose proof (bp_evaluate_log t ts (or_pressure o) (Backpressure.set_log (or_bp o) (sh_log (or_shared o)))
    (qwf_log _ Hq)) as Hl.
  destruct (evaluate b t ts _ _) as [r c]. by apply (moves_log _ _ (bp_log c)).
Qed.

Lemma shutdown_moves receivers o :
  qwf (sh_queue (or_shared o)) -> wp (begin_shutdown receivers) (fun _ o' => moves o o') o.
Proof.
  intros Hq. unfold begin_shutdown. wp_step. unfold wp at 1, on_shared.
  assert (wp (trace_now Tr.DaemonStopping) (fun r s' => r = Ok tt /\ quiet (or_shared o) s') (or_shared o)) as Ht
    by (apply wp_trace_now; auto).
  unfold wp in Ht. destruct (trace_now _ _) as [r s1]. cbn [fst snd] in *.
  destruct Ht as [-> [E1 E2 E3 E4 E5 E6 E7]].
  repeat wp_step. set (o1 := set_shared _ _).
  assert (moves o o1) as H1'.
  { split; try done; cbn; [by apply qwf_shutdown|]. exists []. by rewrite E1. }
  destruct (or_shutdown_tx (id o1)); [|by wp_step]. repeat wp_step.
  assert (moves o (set_shutdown_tx o1 None)) by (by destruct H1'; split).
  by destruct receivers; wp_step.
Qed.

Lemma inv_daemon_step d d' : inv d -> step d d' -> inv d'.
Proof.
  intros Hi Hs. pose proof (iv_queue _ Hi) as Hq. destruct Hs.
  - by eapply inv_call.
  - by eapply inv_submit.
  - by eapply inv_schedule.
  - by eapply inv_take.
  - by eapply inv_finish.
  - by eapply inv_completion.
  - apply inv_moves; [done|]. eapply (wp_run _ (fun _ o' => moves (d_orch d) o')); [|done]. by apply auto_tick_moves.
  - apply inv_moves; [done|]. eapply (wp_run _ (fun _ o' => moves (d_orch d) o')); [|done]. by apply backpressure_moves.
  - apply inv_moves; [done|]. destruct (log_record_ok e (sh_queue (shared d))) as (l & El & Hl); [by apply qwf_log..|].
    rewrite El in *. simplify_eq. by apply (moves_log _ _ l).
  - apply inv_moves; [done|]. eapply (wp_run _ (fun _ o' => moves (d_orch d) o')); [|done]. by apply shutdown_moves.
  - destruct Hi. by split.
Qed.

(** *** From the start of the daemon *)

Definition sane_config (c : OrchestratorConfig) : Prop :=
  0 < queue_capacity c /\ queue_capacity c * 3 < 2 ^ 64 /\ 0 < trace_max_events c /\
  0 <= oc_max_retries c < 2 ^ 32.

Lemma register_backends_quiet tiers h s :
  qwf (sh_queue s) -> wp (register_backends tiers h) (fun r s' => quiet s s' /\ is_ok r = true) s.
Proof.
  revert h s. induction tiers as [|t tiers IH]; intros h s Hq; cbn [register_backends].
  - wp_step. split; [by apply quiet_self|done].
  - wp_step. apply wp_trace_now; [done|]. intros s1 H1'. eapply wp_mono; [apply IH, H1'|].
    intros r s2 [H2' Hr]. split; [by eapply quiet_trans|done].
Qed.

Lemma qwf_new cap l : 0 < cap -> cap * 3 < 2 ^ 64 -> healthy_log l -> qwf (Queue_new cap l).
Proof. intros H1' H2' H3'. split; [|done..]. exists (mkTwo [] [] false). split; cbn; try done; lia. Qed.

Lemma inv_daemon_start clock c backends policy o d :
  sane_config c -> Orchestrator_new b clock c backends policy = Ok o -> start o = Ok d -> inv d.
Proof.
  intros (Hc1 & Hc2 & Hc3 & Hc4) Ho Hd. unfold Orchestrator_new in Ho.
  set (s0 := mkShared _ _ _ _ _ _ _) in Ho.
  assert (qwf (sh_queue s0)) as Hq0 by (apply qwf_new; [done..|]; split; [done|]; unfold log_len; cbn; lia).
  pose proof (register_backends_quiet (btree_keys backends) (Health_new HealthConfig_default) s0 Hq0) as Hr.
  unfold wp in Hr. destruct (register_backends _ _ s0) as [[h|e|p] s1]; destruct Hr as [Hr Hok]; [|done..].
  cbn [obind fst snd] in *. apply obind_ok in Ho as (e & _ & Ho). injection Ho as <-. unfold start in Hd.
  unfold on_shared in Hd. cbn [or_shared set_shutdown_tx] in Hd.
  assert (wp (trace_now Tr.DaemonStarted) (fun r s' => r = Ok tt /\ quiet s1 s') s1) as Ht
    by (apply wp_trace_now; [apply Hr|auto]).
  unfold wp in Ht. destruct (trace_now _ _) as [r s2]. cbn [fst snd obind] in *. destruct Ht as [-> Hs2].
  injection Hd as <-. pose proof (quiet_trans _ _ _ Hr Hs2) as [E1 E2 E3 E4 E5 E6 E7].
  split; cbn; try done.
  - unfold jobs_of. cbn. by rewrite E1.
  - intros ch. cbn. rewrite E6. unfold get_state. cbn. by rewrite lookup_empty.
  - lia.
Qed.

Lemma inv_run d d' : inv d -> rtc step d d' -> inv d'.
Proof. intros Hi Hr. induction Hr; eauto using inv_daemon_step. Qed.

(** C17: The daemon stays well formed.  From a fresh start with a sane
    configuration, after any interleaving of client calls, submissions,
    scheduler and worker turns, completions, auto-migration and backpressure
    ticks and a shutdown: the depth counter is the number of queued jobs, at
    most the capacity, urgent jobs in front; the workers' channel is within its
    bound; every chunk in state [Migrating] has a job on its way, a report to
    be handled, or is one whose job was dropped; and the pressure the
    orchestrator sees is still the initial one, so that a pressure check finds
    nothing to move. *)
Theorem daemon_well_formed clock c backends policy o d d' now_s :
  sane_config c -> Orchestrator_new b clock c backends policy = Ok o -> start o = Ok d ->
  rtc step d d' ->
  (exists urgent others, jobs (sh_queue (shared d')) = urgent ++ others /\
     Forall (fun j => urgent_job j = true) urgent /\ Forall (fun j => urgent_job j = false) others) /\
  depth (sh_queue (shared d')) = Z.of_nat (length (jobs (sh_queue (shared d')))) /\
  depth (sh_queue (shared d')) <= q_capacity (sh_queue (shared d')) /\
  (length (sent_jobs (d_chan d')) <= jc_cap (d_chan d'))%nat /\
  accounted d' /\
  run_pressure_check now_s (d_orch d') = (Ok [], d_orch d').
Proof.
  intros Hc Ho Hd Hr. pose proof (inv_run _ _ (inv_daemon_start _ _ _ _ _ _ Hc Ho Hd) Hr) as [[[s Hs] _ _] _ Ha Hp _ Hch].
  destruct Hs. split_and!; eauto 6.
  unfold run_pressure_check, bind, gets, current_pressure, id. rewrite Hp. reflexivity.
Qed.

(** *** Lost migrations *)

Lemma verdict_none k : verdict k (Some Migrating) = None.
Proof. by destruct k. Qed.

Lemma refused_or_other d k r s c :
  inv d -> prepare b k (shared d) = (r, s) -> get_state (sh_sm (shared d)) c = Some Migrating ->
  c ∉ in_flight d ->
  let d' := mkDaemon (set_shared (d_orch d) s) (d_calls d ++ match r with Ok (Some j) => [j] | _ => [] end)
    (d_chan d) (d_hands d) (d_reports d) (d_handler d) (d_lost d) in
  get_state (sh_sm (shared d')) c = Some Migrating /\ c ∉ in_flight d'.
Proof.
  intros Hi E Hst Hn. cbn. destruct (sh_poisoned (shared d)) eqn:Ep.
  { destruct (poisoned_prepare b k _ Ep) as [p E']. rewrite E in E'. simplify_eq. rewrite app_nil_r. by split. }
  pose proof (prepare_effect b k (shared d) (Build_swf _ (iv_queue _ Hi) Ep)) as H'. unfold wp in H'. rewrite E in H'.
  destruct H' as (_ & Ej & _ & _ & _ & H'). cbn [fst snd] in *.
  assert (forall l, c ∉ job_chunk <$> l -> c ∉ in_flight (mkDaemon (set_shared (d_orch d) s) (d_calls d ++ l)
    (d_chan d) (d_hands d) (d_reports d) (d_handler d) (d_lost d))) as Hl.
  { intros l Hl. unfold in_flight, jobs_of, shared in *. cbn. rewrite Ej, !fmap_app in *. set_solver. }
  destruct (decide (call_chunk k = c)) as [Hk|Hk].
  - rewrite Hk, Hst, verdict_none in H'. destruct H' as [Hsm H']. rewrite Hsm. split; [done|]. apply Hl.
    destruct (oversight _ _), b, H' as [H' _]; destruct r; (done || (by destruct H') || set_solver).
  - destruct (verdict k _) as [next|].
    + destruct H' as (jo & -> & Hjo & _ & Hsm & _). rewrite Hsm. split.
      * unfold get_state in *. cbn. by rewrite lookup_insert_ne.
      * apply Hl. destruct jo as [j|]; [|set_solver]. cbn. rewrite (call_job_chunk k j Hjo). set_solver.
    + destruct H' as [Hsm H']. rewrite Hsm. split; [done|]. apply Hl.
      destruct (oversight _ _), b, H' as [H' _]; destruct r; (done || (by destruct H') || set_solver).
Qed.

Lemma schedule_flight d t r sc :
  inv d -> run_once b t (or_pressure (d_orch d)) (scheduler_of d) = (r, sc) ->
  in_flight (mkDaemon (set_shared (d_orch d) (set_metrics (set_queue (shared d) (sc_queue sc))
      (set_depth_of (sh_metrics (shared d)) (sc_depth_metric sc))))
    (d_calls d) (sc_workers sc) (d_hands d) (d_reports d) (d_handler d) (dropped d sc ++ d_lost d)) ⊆ in_flight d.
Proof.
  intros [Hq _ _ _ _ _] E. unfold in_flight, jobs_of. cbn.
  destruct (jobs (sh_queue (shared d))) as [|j rest] eqn:Ej.
  { rewrite run_once_idle in E by done. injection E as <- <-. cbn. by rewrite Ej. }
  destruct (run_once_fate b t (or_pressure (d_orch d)) (scheduler_of d) j rest)
    as (sc' & E' & Ej' & _ & Es & _).
  { done. }
  { rewrite <- Ej. by destruct Hq as [[s []] _ _]. }
  { destruct Hq as [[s []] _ ?]. cbn. lia. }
  { apply qwf_log, Hq. }
  rewrite E in E'. injection E' as -> <-. cbn [scheduler_of sc_workers] in Es. rewrite Ej', Es.
  destruct (negb _ && _); rewrite !fmap_app, !fmap_cons; set_solver.
Qed.

Lemma finish_flight d l1 j l2 (w w' : Worker S) ms wid r :
  inv d -> d_hands d = l1 ++ j :: l2 -> w_inbox w = [j] -> w_reports w = [] -> in_u 64 (w_active w) ->
  work_once b (or_worker_config (d_orch d)) ms wid w = (r, w') ->
  in_flight (mkDaemon (set_shared (d_orch d) (set_emitter (set_metrics
        (set_log (shared d) (w_log w')) (w_metrics w')) (w_emitter w')))
    (d_calls d) (d_chan d) (l1 ++ l2) (d_reports d ++ if is_ok r then w_reports w' else []) (d_handler d)
    (match r, w_reports w' with Ok _, _ :: _ => d_lost d | _, _ => job_chunk j :: d_lost d end)) ⊆ in_flight d.
Proof.
  intros [_ Hf _ _ Hm _] Hh Hi Hr Hu E.
  assert (attempts j = 0) as Hat.
  { unfold jobs_of in Hf. rewrite Hh in Hf. revert Hf. rewrite !Forall_app, Forall_cons. tauto. }
  pose proof (work_once_settles b (or_worker_config (d_orch d)) ms wid w j [] r w' Hi Hu
    ltac:(lia) ltac:(lia) ltac:(lia) E) as Hs.
  assert ((wc_chunk <$> if is_ok r then w_reports w' else []) ⊆ [job_chunk j]) as Hrep.
  { destruct r as [more|e|p]; cbn; [|set_solver..]. destruct Hs as (_ & _ & _ & err & ts & _ & _ & _ & ->).
    rewrite Hr. unfold reports_of. case_decide; cbn; set_solver. }
  unfold in_flight, jobs_of. cbn. rewrite Hh, !fmap_app, !fmap_cons. set_solver.
Qed.

Lemma completion_other d x rest r s c :
  inv d -> d_reports d = x :: rest -> handle_completion b x (shared d) = (r, s) ->
  get_state (sh_sm (shared d)) c = Some Migrating -> (c ∉ in_flight d) -> c <> wc_chunk x ->
  let d' := mkDaemon (set_shared (d_orch d) s) (d_calls d) (d_chan d) (d_hands d) rest
    (negb (is_panic r)) (if is_panic r then wc_chunk x :: d_lost d else d_lost d) in
  get_state (sh_sm (shared d')) c = Some Migrating /\ c ∉ in_flight d'.
Proof.
  intros [Hq _ _ _ _ _] Hx E Hst Hn Hne. cbn.
  pose proof (handle_completion_effect x (shared d) Hq) as H'. unfold wp in H'. rewrite E in H'. cbn [fst snd] in H'.
  destruct H' as (_ & Ej & H'). split.
  - destruct (sh_poisoned (shared d)); [by destruct H' as [_ ->]|]. destruct H' as [_ H']. by rewrite H'.
  - unfold in_flight, jobs_of in *. cbn in *. rewrite Ej. rewrite Hx, fmap_cons in Hn. set_solver.
Qed.

(** A step gives a job only to chunks that are not being migrated, and a chunk
    being migrated leaves that state only through its own report. *)
Lemma step_effect d d' c :
  inv d -> step d d' -> get_state (sh_sm (shared d)) c = Some Migrating -> (c ∉ in_flight d) ->
  get_state (sh_sm (shared d')) c = Some Migrating /\ c ∉ in_flight d'.
Proof.
  intros Hi Hs Hst Hn. pose proof (iv_queue _ Hi) as Hq.
  assert (forall o, moves (d_orch d) o -> get_state (sh_sm (shared (with_orch d o))) c = Some Migrating /\
    c ∉ in_flight (with_orch d o)) as Hmoves.
  { intros o [A1 _ _ _ (l & A5 & A6 & _) _ _]. unfold shared. cbn. rewrite A1. split; [done|].
    unfold in_flight, jobs_of, shared in *. cbn. rewrite A5, !fmap_app. rewrite !fmap_app in Hn.
    assert (c ∉ job_chunk <$> l); [|set_solver]. intros (j & -> & Hj)%list_elem_of_fmap.
    rewrite Forall_forall in A6. destruct (A6 j Hj) as [_ Hj']. unfold shared in Hst. congruence. }
  destruct Hs as [d k r s E|d l1 j l2 r s Hd E|d t r sc E|d j rest E|d l1 j l2 w w' ms wid r Hh Hin Hl _ _ Hrep Hu E
    |d x rest r s _ Hx E|d t t_s ts r o _ E|d t ts r o E|d e r q E|d rcv r o E|d _].
  - by apply (refused_or_other d k r s c).
  - pose proof (submit_job_effect b j (shared d) Hq) as H'. unfold wp in H'. rewrite E in H'.
    destruct H' as (Hsm & _ & _ & _ & _ & Hr). cbn in *. rewrite Hsm. split; [done|].
    unfold in_flight, jobs_of, shared in *. cbn in *. rewrite Hd in Hn. destruct r as [u|e|p]; [|destruct Hr as [Hr _]|done].
    + destruct Hr as (_ & _ & ->). rewrite !fmap_app, !fmap_cons in *. set_solver.
    + rewrite Hr. rewrite !fmap_app, !fmap_cons in *. set_solver.
  - split; [done|]. intros Hin. apply Hn. by apply (schedule_flight d t r sc).
  - split; [done|]. unfold in_flight, jobs_of, shared in *. cbn. rewrite E in Hn.
    rewrite !fmap_app, !fmap_cons in *. set_solver.
  - split; [done|]. intros Hc. apply Hn. by apply (finish_flight d l1 j l2 w w' ms wid r).
  - apply (completion_other d x rest r s); [done..|]. intros ->. apply Hn. unfold in_flight. rewrite Hx. set_solver.
  - apply Hmoves. eapply (wp_run _ (fun _ o' => moves (d_orch d) o')); [|done]. by apply auto_tick_moves.
  - apply Hmoves. eapply (wp_run _ (fun _ o' => moves (d_orch d) o')); [|done]. by apply backpressure_moves.
  - apply (Hmoves (set_shared (d_orch d) (set_queue (shared d) q))).
    destruct (log_record_ok e (sh_queue (shared d))) as (l & El & Hl); [by apply qwf_log..|].
    rewrite El in E. simplify_eq. by apply (moves_log _ _ l).
  - apply Hmoves. eapply (wp_run _ (fun _ o' => moves (d_orch d) o')); [|done]. by apply shutdown_moves.
  - done.
Qed.

(** C19: A migration whose job was refused or dropped is lost for good.  In any
    reachable state, a chunk in state [Migrating] with no job on its way and no
    report to come stays so in every continuation, and every client call on it
    (store, retrieve, migrate, evict) fails. *)
Theorem lost_migration_is_final clock cfg backends policy o d0 d d' c k :
  sane_config cfg -> Orchestrator_new b clock cfg backends policy = Ok o -> start o = Ok d0 ->
  rtc step d0 d -> get_state (sh_sm (shared d)) c = Some Migrating -> (c ∉ in_flight d) ->
  rtc step d d' -> call_chunk k = c ->
  get_state (sh_sm (shared d')) c = Some Migrating /\ (c ∉ in_flight d') /\
  is_ok (call b k (shared d')).1 = false /\ sh_sm (call b k (shared d')).2 = sh_sm (shared d').
Proof.
  intros Hc Ho Hs Hr Hst Hn Hr' Hk.
  pose proof (inv_run _ _ (inv_daemon_start _ _ _ _ _ _ Hc Ho Hs) Hr) as Hi.
  assert (get_state (sh_sm (shared d')) c = Some Migrating /\ (c ∉ in_flight d') /\ inv d') as (Hst' & Hn' & Hi').
  { clear Hr. induction Hr' as [d|d1 d2 d3 H12 _ IH]; [by split_and!|].
    destruct (step_effect d1 d2 c Hi H12 Hst Hn). apply IH; [done..|]. by eapply inv_daemon_step. }
  split_and!; [done..| |]; rewrite call_prepare; unfold bind.
  all: destruct (sh_poisoned (shared d')) eqn:Ep; [by destruct (poisoned_prepare b k _ Ep) as [p ->]|].
  all: pose proof (prepare_effect b k (shared d') (Build_swf _ (iv_queue _ Hi') Ep)) as H'; unfold wp in H'.
  all: destruct (prepare b k (shared d')) as [r s]; destruct H' as (_ & _ & _ & _ & _ & H').
  all: rewrite Hk, Hst', verdict_none in H'; destruct H' as [Hsm H']; destruct r as [jo|e|p]; try done.
  all: exfalso; destruct (oversight _ _), b, H' as [H' _]; first [discriminate H' | by destruct H'].
Qed.

(** Auto-migration has a budget for the life of the daemon.  Nothing removes a
    chunk from the engine's active set, so once it is full it stays full, and
    no later tick submits a job. *)
Theorem auto_migration_stops clock cfg backends policy o d0 d d' t t_s ts :
  sane_config cfg -> Orchestrator_new b clock cfg backends policy = Ok o -> start o = Ok d0 ->
  rtc step d0 d -> has_capacity (or_engine (d_orch d)) = false -> rtc step d d' ->
  has_capacity (or_engine (d_orch d')) = false /\
  jobs (sh_queue (or_shared (auto_tick b t t_s ts (d_orch d')).2)) ≡ₚ jobs (sh_queue (shared d')).
Proof.
  intros Hc Ho Hs Hr Hroom Hr'.
  pose proof (inv_run _ _ (inv_daemon_start _ _ _ _ _ _ Hc Ho Hs) Hr) as Hi.
  assert (has_capacity (or_engine (d_orch d')) = false /\ inv d') as [Hroom' Hi'].
  { clear Hr. induction Hr' as [d|d1 d2 d3 H12 _ IH]; [done|]. pose proof (inv_daemon_step _ _ Hi H12) as Hi2.
    apply IH; [|done]. pose proof (iv_queue _ Hi) as Hq. destruct H12; try done; cbn [with_orch d_orch];
      (eapply moves_room; [|done]); eapply (wp_run _ (fun _ o' => moves (d_orch d) o')); try done;
      auto using auto_tick_moves, backpressure_moves, shutdown_moves. }
  split; [done|]. pose proof (auto_tick_moves t t_s ts (d_orch d') (iv_queue _ Hi')) as Hm. unfold wp in Hm.
  destruct (mv_jobs _ _ Hm) as (l & -> & _ & Hl). by rewrite Hl.
Qed.

(** Auto-migration submits jobs for stored chunks without marking them, and the
    handler takes every report for the end of a marked migration.  A successful
    report for a chunk that is [Stored] panics in a debug build, poisons the
    lock, and every later call of a client panics; in a release build it leaves
    the chunk alone and records a change from [Migrating] that did not happen. *)
Theorem unmarked_completion x s :
  swf s -> get_state (sh_sm s) (wc_chunk x) = Some Stored -> wc_success x = true ->
  let '(r, s') := handle_completion b x s in
  sh_sm s' = sh_sm s /\
  match b with
  | Debug => is_panic r = true /\ sh_poisoned s' = true /\ forall k, is_panic (call b k s').1 = true
  | Release => r = Ok tt /\
      last (log_events (sh_log s')) = Some (Tr.ChunkStateChanged (wc_chunk x) Migrating Stored (wc_timestamp x))
  end.
Proof.
  intros [Hq Hp] Hst Hx. unfold handle_completion. rewrite Hx. unfold bind at 1, on_states. rewrite Hp.
  rewrite (transition_invalid b false (wc_chunk x) Stored Stored) by (done || by unfold edge).
  destruct b.
  - split_and!; try done. intros k. rewrite call_prepare. unfold bind.
    match goal with |- context [prepare Debug k ?s'] => by destruct (poisoned_prepare Debug k s') as [p ->] end.
  - cbn [is_panic set_sm sh_queue]. unfold log_record.
    destruct (record_healthy (E := GhostError) (Tr.ChunkStateChanged (wc_chunk x) Migrating Stored (wc_timestamp x)) (q_log (sh_queue s)))
      as (l & -> & _ & Hl); [by apply qwf_log|]. done.
Qed.
End run.
Arguments Daemon : clear implicits.

(** *** Instances: a daemon with a RAM and a disk tier and the LRU policy *)

#[local] Existing Instance HotnessExample.libm.
#[local] Instance ex_tier : StorageBackend RamBackend := ram_backend Debug.

Definition ex_config : OrchestratorConfig :=
  mkOrchConfig 8 1 3 1000 30000 true 100 30 1000 (lit f32 3 10) 5000 16 true false None.
Definition ex_backends : gmap TierId PhysicalCost := {[Ram := PhysicalCost_new; Disk := PhysicalCost_new]}.
Definition ex_clock (n : nat) : Z := 1000 + Z.of_nat n.

Definition ex_log : TraceLog := mkLog [Tr.BackendRegistered Ram 1000; Tr.BackendRegistered Disk 1001] 100.

Definition ex_orch : Orchestrator Lru.LruConfig :=
  mkOrch ex_config
    (mkShared (mkQueue [] 0 false 8 ex_log)
       SM_new false TM_new None ex_clock 2)
    ex_backends Lru.LruConfig_default (scheduler_config_of ex_config) (worker_config_of ex_config) None
    PressureState_new
    (Some (Monitor_new (monitor_config_of ex_config) 16
       ex_log))
    (Health.register Disk (Health.register Ram (Health_new HealthConfig_default)).2).2
    (HotTracker_new 16 ex_log)
    (mkEngine MigrationConfig_default Lru.LruConfig_default
       (HotTracker_new 16 ex_log)
       SM_new ex_log ex_backends
       MigrationStats_default ∅ ∅ (mkCooldown ∅ ∅ 60000000) None)
    (Bp_new BackpressureConfig_default ex_log 1000).

Lemma ex_new : Orchestrator_new Debug ex_clock ex_config ex_backends Lru.LruConfig_default = Ok ex_orch.
Proof. vm_compute. reflexivity. Qed.

Definition ex_daemon : Daemon Lru.LruConfig :=
  mkDaemon (set_monitor (on_shared (trace_now Tr.DaemonStarted) (set_shutdown_tx ex_orch (Some false))).2 None)
    [] (mkJobChan [] 2 true) [] [] true [].

Lemma ex_start : start ex_orch = Ok ex_daemon.
Proof. vm_compute. reflexivity. Qed.

Lemma ex_sane : sane_config ex_config.
Proof. vm_compute. repeat split; discriminate. Qed.

(** Executable steps: a call, the submission of the oldest prepared job, a
    shutdown, a tick of auto-migration. *)
Definition do_call (k : Call) (d : Daemon Lru.LruConfig) : Daemon Lru.LruConfig :=
  mkDaemon (set_shared (d_orch d) (prepare Debug k (shared d)).2)
    (d_calls d ++ match (prepare Debug k (shared d)).1 with Ok (Some j) => [j] | _ => [] end)
    (d_chan d) (d_hands d) (d_reports d) (d_handler d) (d_lost d).
Definition do_submit (d : Daemon Lru.LruConfig) : Daemon Lru.LruConfig :=
  match d_calls d with
  | [] => d
  | j :: l2 => mkDaemon (set_shared (d_orch d) (submit_job Debug j (shared d)).2) l2 (d_chan d) (d_hands d)
      (d_reports d) (d_handler d) (if is_ok (submit_job Debug j (shared d)).1 then d_lost d else job_chunk j :: d_lost d)
  end.
Definition do_shutdown (d : Daemon Lru.LruConfig) : Daemon Lru.LruConfig :=
  with_orch d (begin_shutdown true (d_orch d)).2.
Definition do_tick (t : Z) (d : Daemon Lru.LruConfig) : Daemon Lru.LruConfig :=
  if enable_auto_migration (or_config (d_orch d)) then with_orch d (auto_tick Debug t t t (d_orch d)).2 else d.

Local Abbreviation ex_steps := (rtc (step (S := RamBackend) Debug)).

Lemma run_call k d : ex_steps d (do_call k d).
Proof. apply rtc_once. eapply S_call. apply surjective_pairing. Qed.
Lemma run_submit d : ex_steps d (do_submit d).
Proof.
  unfold do_submit. destruct (d_calls d) as [|j l2] eqn:E; [done|].
  apply rtc_once. eapply (S_submit _ _ [] j l2); [exact E|]. apply surjective_pairing.
Qed.
Lemma run_shutdown d : ex_steps d (do_shutdown d).
Proof. apply rtc_once. eapply S_shutdown. apply surjective_pairing. Qed.
Lemma run_tick t d : ex_steps d (do_tick t d).
Proof. unfold do_tick. destruct (enable_auto_migration _) eqn:E; [|done].
  apply rtc_once. eapply S_auto; [exact E|]. apply surjective_pairing. Qed.

Definition c1 : ChunkId := mkChunkId (repeat Byte.x01 32).
Definition c2 : ChunkId := mkChunkId (repeat Byte.x02 32).

(** The queue is shut down; a chunk is stored and sent to disk. *)
Definition ex_lost : Daemon Lru.LruConfig :=
  do_submit (do_call (CMigrate c1 Ram Disk 1) (do_submit (do_call (CStore c1 Ram [Byte.x07]) (do_shutdown ex_daemon)))).

Lemma ex_lost_run : ex_steps ex_daemon ex_lost.
Proof.
  unfold ex_lost. etransitivity; [|apply run_submit]. etransitivity; [|apply run_call].
  etransitivity; [|apply run_submit]. etransitivity; [|apply run_call]. apply run_shutdown.
Qed.

Lemma daemon_well_formed_witness :
  accounted ex_lost /\ d_lost ex_lost = [c1; c1] /\ get_state (sh_sm (shared ex_lost)) c1 = Some Migrating.
Proof.
  split_and!; [|vm_compute; reflexivity..].
  pose proof (daemon_well_formed Debug ex_clock ex_config ex_backends Lru.LruConfig_default ex_orch ex_daemon ex_lost 0
    ex_sane ex_new ex_start ex_lost_run) as H. apply H.
Defined.

Lemma lost_migration_is_final_witness :
  is_ok (call Debug (CRetrieve c1 Ram) (shared ex_lost)).1 = false.
Proof.
  apply (lost_migration_is_final Debug ex_clock ex_config ex_backends Lru.LruConfig_default ex_orch ex_daemon ex_lost ex_lost c1
    (CRetrieve c1 Ram) ex_sane ex_new ex_start ex_lost_run); [vm_compute; reflexivity| |done|done].
  assert (in_flight ex_lost = []) as -> by (vm_compute; reflexivity). set_solver.
Defined.

(** Two cold chunks, both sent to disk by the first tick. *)
Definition ex_full : Daemon Lru.LruConfig :=
  do_tick 100000 (do_submit (do_call (CStore c2 Ram [Byte.x07]) (do_submit (do_call (CStore c1 Ram [Byte.x07]) ex_daemon)))).

Lemma ex_full_run : ex_steps ex_daemon ex_full.
Proof.
  unfold ex_full. etransitivity; [|apply run_tick]. etransitivity; [|apply run_submit].
  etransitivity; [|apply run_call]. etransitivity; [|apply run_submit]. apply run_call.
Qed.

Lemma auto_migration_stops_witness :
  length (jobs (sh_queue (shared ex_full))) = 4%nat /\
  has_capacity (or_engine (d_orch ex_full)) = false.
Proof.
  split; [vm_compute; reflexivity|].
  apply (auto_migration_stops Debug ex_clock ex_config ex_backends Lru.LruConfig_default ex_orch ex_daemon ex_full ex_full
    0 0 0 ex_sane ex_new ex_start ex_full_run); [vm_compute; reflexivity|done].
Defined.
End Run.

(** A stored chunk, a queue that is shut down, and a migration that is refused
    after the chunk was marked. *)
Definition ex_shut : Shared :=
  mkShared (mkQueue [] 0 true 4 (Log_new 10)) (mkSM {[Run.c1 := Stored]}) false TM_new None Run.ex_clock 0.

Lemma ex_shut_swf : swf ex_shut.
Proof.
  split; [|done]. apply (qwf_shutdown (Queue_new 4 (Log_new 10))), Run.qwf_new; [done..|].
  split; vm_compute; [reflexivity|discriminate].
Qed.

Lemma call_outcome_witness :
  (call Debug (CMigrate Run.c1 Ram Disk 1) ex_shut).1 = Err ECancelled /\
  get_state (sh_sm (call Debug (CMigrate Run.c1 Ram Disk 1) ex_shut).2) Run.c1 = Some Migrating.
Proof.
  pose proof (call_outcome Debug (CMigrate Run.c1 Ram Disk 1) ex_shut ex_shut_swf) as H.
  cbv zeta in H. destruct (call Debug _ ex_shut) as [r s'].
  assert (get_state (sh_sm ex_shut) (call_chunk (CMigrate Run.c1 Ram Disk 1)) = Some Stored) as E
    by (vm_compute; reflexivity).
  rewrite E in H. cbn [verdict call_job] in H. destruct H as (_ & Hsm & _ & Hr & _).
  split; [exact Hr|]. cbn [snd]. rewrite Hsm. apply lookup_insert_eq.
Defined.
