(* ===== verification/Timing.v ===== *)
(** * Retry delays and the deterministic clock: [ghost-daemon/src/retry.rs] and
    [ghost-core/src/time.rs]

    The delay uses the nanosecond clock as a source of randomness; the reading
    is an argument.  [Instant] is a number of nanoseconds. *)

From Stdlib Require Import ZArith Lia SpecFloat.
From stdpp Require Import base strings list sets.
From S2P Require Import Prelude Floats CoreTypes Pressure.

Open Scope rust_scope.

(** ** Retry configuration *)

Record RetryConfig := mkRetry {
  max_retries : Z;             (* u32 *)
  base_delay_ms : Z;
  max_delay_ms : Z;
  backoff_multiplier : float;  (* f64 *)
  jitter_factor : float;       (* f64 *)
  retryable_errors : list string;
}.

Definition RetryConfig_default : RetryConfig :=
  mkRetry 3 100 30000 (of_int f64 2) (lit f64 25 100) ["io"; "timeout"; "backend_error"; "tier_unavailable"].

Definition Retry_new (retries base max : Z) : RetryConfig :=
  mkRetry retries base max (backoff_multiplier RetryConfig_default) (jitter_factor RetryConfig_default)
    (retryable_errors RetryConfig_default).

(** Three rounds of a 64-bit xorshift over the clock, scaled to [0, 1]. *)
Definition random_fraction (nanos : Z) : float :=
  let x := wrap 64 nanos in
  let x := Z.lxor x (wrap 64 (Z.shiftl x 13)) in
  let x := Z.lxor x (Z.shiftr x 7) in
  let x := Z.lxor x (wrap 64 (Z.shiftl x 17)) in
  fdiv f64 (of_int f64 x) (of_int f64 (2 ^ 64 - 1)).

(** [n as i32] of a [u32]. *)
Definition as_i32 (n : Z) : Z := if 2 ^ 31 <=? n then n - 2 ^ 32 else n.

Definition backoff (c : RetryConfig) (attempt : Z) : float :=
  fmin (fmul f64 (of_int f64 (base_delay_ms c)) (powi f64 (backoff_multiplier c) (as_i32 (attempt - 1))))
    (of_int f64 (max_delay_ms c)).

(** In milliseconds. *)
Definition delay_for_attempt (nanos : Z) (c : RetryConfig) (attempt : Z) : Z :=
  if attempt =? 0 then 0
  else
    let delay := backoff c attempt in
    let jitter_range := fmul f64 delay (jitter_factor c) in
    let jittered := fsub f64 delay (fmul f64 jitter_range (random_fraction nanos)) in
    as_u 64 (fmax jittered (of_int f64 0)).

Definition error_type_tag (e : GhostError) : string :=
  match e with
  | EIo _ => "io"
  | ChunkNotFound _ => "chunk_not_found"
  | TierFull _ => "tier_full"
  | TierUnavailable _ => "tier_unavailable"
  | ChecksumMismatch _ => "checksum_mismatch"
  | CorruptionDetected _ => "corruption_detected"
  | CompressionError _ => "compression_error"
  | EBackendError _ => "backend_error"
  | IpcError _ => "ipc_error"
  | OutOfMemory => "out_of_memory"
  | ETimeout => "timeout"
  | PipelineError _ => "pipeline_error"
  | ECancelled => "cancelled"
  | ReplayError _ => "replay_error"
  | InvalidConfig _ => "invalid_config"
  | InvalidStateTransition _ _ => "invalid_state_transition"
  | ProviderUnavailable _ => "provider_unavailable"
  | EInternal _ => "internal"
  end.

Definition is_retryable (c : RetryConfig) (e : GhostError) : bool :=
  bool_decide (error_type_tag e ∈ retryable_errors c).

Definition has_retries_remaining (c : RetryConfig) (attempt : Z) : bool := attempt <? max_retries c.

(** ** The deterministic clock *)

Record DeterministicClock := mkClock { base : Z; offset_nanos : Z }.

Definition Clock_new {E} (b : Build) (instant start_secs : Z) : outcome E DeterministicClock :=
  let? n := arith b 64 (start_secs * 1000000000) in Ok (mkClock instant n).

(** [nanos] is [duration.as_nanos()], cut to 64 bits. *)
Definition clock_advance (nanos : Z) (c : DeterministicClock) : DeterministicClock :=
  mkClock (base c) (wrap 64 (offset_nanos c + wrap 64 nanos)).
Definition timestamp_secs (c : DeterministicClock) : Z := offset_nanos c / 1000000000.
Definition clock_now (c : DeterministicClock) : Z := base c + offset_nanos c.
Definition clock_elapsed (c : DeterministicClock) (since : Z) : Z := Z.max 0 (clock_now c - since).
(** [Clone] copies the current offset: the copies advance independently. *)
Definition clock_clone (c : DeterministicClock) : DeterministicClock := mkClock (base c) (offset_nanos c).

(** ** Facts *)

(** The first attempt waits for nothing, and the default configuration retries
    exactly the transient errors. *)
Lemma default_retryable e :
  is_retryable RetryConfig_default e = true <->
  match e with EIo _ | ETimeout | EBackendError _ | TierUnavailable _ => True | _ => False end.
Proof. unfold is_retryable. rewrite bool_decide_eq_true. destruct e; simpl; set_solver. Qed.

(** The clock moves by exactly what it was advanced, as long as the counter
    does not wrap. *)
Lemma clock_sum ds c :
  Forall (fun d => 0 <= d) ds -> 0 <= offset_nanos c -> offset_nanos c + foldr Z.add 0 ds < 2 ^ 64 ->
  offset_nanos (fold_left (fun c d => clock_advance d c) ds c) = offset_nanos c + foldr Z.add 0 ds.
Proof.
  revert c. induction ds as [|d ds IH]; intros c Hd Hc Hw; simpl in *; [lia|].
  apply Forall_cons in Hd as [Hd Hds].
  assert (0 <= foldr Z.add 0 ds) by (clear -Hds; induction Hds; simpl; lia).
  assert (offset_nanos (clock_advance d c) = offset_nanos c + d) as E.
  { unfold clock_advance. simpl. rewrite (wrap_in 64 d), wrap_in; unfold in_u; lia. }
  rewrite IH; rewrite ?E; try done; lia.
Qed.
