(* ===== verification/Settings.v ===== *)
(** * Settings, clocks and transfer counters

    The parts of the daemon that other components read: the sections of
    [ghost-daemon/src/config.rs] that no component owns, the builders of
    [ghost-tier/src/disk_config.rs], the time providers of
    [ghost-core/src/time.rs] and the remaining operations of
    [ghost-daemon/src/metrics.rs]. *)
From Stdlib Require Import ZArith Lia SpecFloat.
From stdpp Require Import base strings list.
From S2P Require Import Prelude Floats CoreTypes Pressure Backend SimBackend DiskFormat Disk Worker Orchestrator Health Timing.

Open Scope rust_scope.

(** ** Sections of the configuration file *)
Module Sections.

Record HealthSection := mkHealthSection {
  hs_degraded : Z; hs_unavailable : Z; hs_window_secs : Z; hs_probe_secs : Z; hs_successes : Z }.
Definition HealthSection_default : HealthSection := mkHealthSection 3 10 60 5 3.

Record RetrySection := mkRetrySection {
  rs_max_retries : Z; rs_base_delay_ms : Z; rs_max_delay_ms : Z; rs_multiplier : float; rs_jitter : float }.
Definition RetrySection_default : RetrySection :=
  mkRetrySection 3 100 30000 (of_int f64 2) (lit f64 25 100).

(** In milliseconds. *)
Definition section_delay (c : RetrySection) (attempt : Z) : Z :=
  if attempt =? 0 then 0
  else
    let base := of_int f64 (rs_base_delay_ms c) in
    let multiplier := powi f64 (rs_multiplier c) (as_i32 (attempt - 1)) in
    let delay_ms := fmin (fmul f64 base multiplier) (of_int f64 (rs_max_delay_ms c)) in
    let jitter_range := fmul f64 delay_ms (rs_jitter c) in
    let jittered := fsub f64 delay_ms (fmul f64 jitter_range (lit f64 5 10)) in
    as_u 64 (fmax jittered (of_int f64 0)).

Record MetricsExporterConfig := mkExporter { bind_address : string; port : Z; exporter_enabled : bool }.
Definition MetricsExporterConfig_default : MetricsExporterConfig := mkExporter "127.0.0.1" 9090 true.

(** The section that describes what [retry.rs] works with, and the health
    configuration in seconds that [health.rs] has in nanoseconds. *)
Definition retry_section (c : RetryConfig) : RetrySection :=
  mkRetrySection (max_retries c) (base_delay_ms c) (max_delay_ms c) (backoff_multiplier c) (jitter_factor c).
Definition health_section (c : HealthConfig) : HealthSection :=
  mkHealthSection (degraded_threshold c) (unavailable_threshold c) (failure_window c / 1000000000)
    (recovery_probe_interval c / 1000000000) (recovery_success_threshold c).

(** The sections describe the components: their defaults are the defaults of
    [health.rs] and [retry.rs]; and the delay computed from a section, which
    draws no random number, is the delay of [retry.rs] for any clock reading
    whose random fraction is one half. *)
Theorem sections_describe_components :
  health_section HealthConfig_default = HealthSection_default /\
  retry_section RetryConfig_default = RetrySection_default /\
  forall c nanos attempt, random_fraction nanos = lit f64 5 10 ->
    section_delay (retry_section c) attempt = delay_for_attempt nanos c attempt.
Proof.
  split; [reflexivity|]. split; [reflexivity|]. intros c nanos attempt Hf.
  unfold section_delay, delay_for_attempt, Timing.backoff. rewrite Hf. reflexivity.
Qed.

(** The delays of the default section double until the cap, less an eighth.
    The exponent is cut to [i32]: the last [u32] attempt has a negative one and
    waits less than the first. *)
Example default_delays :
  section_delay RetrySection_default <$> [0; 1; 2; 3; 4; 10; 4294967295] = [0; 87; 175; 350; 700; 26250; 21].
Proof. vm_compute. reflexivity. Qed.
End Sections.

(** ** The disk configuration *)
Module DiskSettings.

Definition with_seed (c : DiskConfig) (n : Z) : DiskConfig :=
  mkDiskConfig (dc_base_path c) (dc_capacity c) (dc_latency c) (dc_bandwidth c) (dc_failure c) (dc_disk_type c)
    (dc_max_concurrent_ops c) (dc_max_queue_depth c) (dc_fsync c) (dc_atomic_writes c) (Some n).
Definition with_atomic_writes (c : DiskConfig) (on : bool) : DiskConfig :=
  mkDiskConfig (dc_base_path c) (dc_capacity c) (dc_latency c) (dc_bandwidth c) (dc_failure c) (dc_disk_type c)
    (dc_max_concurrent_ops c) (dc_max_queue_depth c) (dc_fsync c) on (dc_seed c).
Definition with_fsync (c : DiskConfig) (on : bool) : DiskConfig :=
  mkDiskConfig (dc_base_path c) (dc_capacity c) (dc_latency c) (dc_bandwidth c) (dc_failure c) (dc_disk_type c)
    (dc_max_concurrent_ops c) (dc_max_queue_depth c) on (dc_atomic_writes c) (dc_seed c).
Definition with_latency (c : DiskConfig) (l : LatencyConfig) : DiskConfig :=
  mkDiskConfig (dc_base_path c) (dc_capacity c) l (dc_bandwidth c) (dc_failure c) (dc_disk_type c)
    (dc_max_concurrent_ops c) (dc_max_queue_depth c) (dc_fsync c) (dc_atomic_writes c) (dc_seed c).
Definition with_bandwidth (c : DiskConfig) (b : BandwidthConfig) : DiskConfig :=
  mkDiskConfig (dc_base_path c) (dc_capacity c) (dc_latency c) b (dc_failure c) (dc_disk_type c)
    (dc_max_concurrent_ops c) (dc_max_queue_depth c) (dc_fsync c) (dc_atomic_writes c) (dc_seed c).
Definition with_failure (c : DiskConfig) (f : DiskFailure) : DiskConfig :=
  mkDiskConfig (dc_base_path c) (dc_capacity c) (dc_latency c) (dc_bandwidth c) f (dc_disk_type c)
    (dc_max_concurrent_ops c) (dc_max_queue_depth c) (dc_fsync c) (dc_atomic_writes c) (dc_seed c).
Definition with_max_concurrent_ops (c : DiskConfig) (n : Z) : DiskConfig :=
  mkDiskConfig (dc_base_path c) (dc_capacity c) (dc_latency c) (dc_bandwidth c) (dc_failure c) (dc_disk_type c)
    n (dc_max_queue_depth c) (dc_fsync c) (dc_atomic_writes c) (dc_seed c).
Definition with_max_queue_depth (c : DiskConfig) (n : Z) : DiskConfig :=
  mkDiskConfig (dc_base_path c) (dc_capacity c) (dc_latency c) (dc_bandwidth c) (dc_failure c) (dc_disk_type c)
    (dc_max_concurrent_ops c) n (dc_fsync c) (dc_atomic_writes c) (dc_seed c).

(** [DiskConfigBuilder]: a wrapper around the configuration it builds. *)
Record DiskConfigBuilder := mkBuilder { built : DiskConfig }.
Definition Builder_new : DiskConfigBuilder := mkBuilder DiskConfig_default.
Definition b_base_path (p : Path) (b : DiskConfigBuilder) : DiskConfigBuilder :=
  let c := built b in
  mkBuilder (mkDiskConfig p (dc_capacity c) (dc_latency c) (dc_bandwidth c) (dc_failure c) (dc_disk_type c)
    (dc_max_concurrent_ops c) (dc_max_queue_depth c) (dc_fsync c) (dc_atomic_writes c) (dc_seed c)).
Definition b_capacity (n : Z) (b : DiskConfigBuilder) : DiskConfigBuilder :=
  let c := built b in
  mkBuilder (mkDiskConfig (dc_base_path c) n (dc_latency c) (dc_bandwidth c) (dc_failure c) (dc_disk_type c)
    (dc_max_concurrent_ops c) (dc_max_queue_depth c) (dc_fsync c) (dc_atomic_writes c) (dc_seed c)).
Definition b_disk_type (t : DiskType) (b : DiskConfigBuilder) : DiskConfigBuilder := mkBuilder (with_disk_type (built b) t).
Definition b_seed (n : Z) (b : DiskConfigBuilder) : DiskConfigBuilder := mkBuilder (with_seed (built b) n).
Definition b_atomic_writes (on : bool) (b : DiskConfigBuilder) : DiskConfigBuilder := mkBuilder (with_atomic_writes (built b) on).
Definition b_fsync (on : bool) (b : DiskConfigBuilder) : DiskConfigBuilder := mkBuilder (with_fsync (built b) on).
Definition build (b : DiskConfigBuilder) : DiskConfig := built b.

(** The two ways to build a configuration agree: a builder that is given a
    path, a capacity and a disk type, in any order, builds what [DiskConfig::new]
    and [with_disk_type] make. *)
Theorem builder_agrees p n t :
  let expected := with_disk_type (DiskConfig_new p n) t in
  build (b_disk_type t (b_capacity n (b_base_path p Builder_new))) = expected /\
  build (b_disk_type t (b_base_path p (b_capacity n Builder_new))) = expected /\
  build (b_capacity n (b_disk_type t (b_base_path p Builder_new))) = expected /\
  build (b_capacity n (b_base_path p (b_disk_type t Builder_new))) = expected /\
  build (b_base_path p (b_disk_type t (b_capacity n Builder_new))) = expected /\
  build (b_base_path p (b_capacity n (b_disk_type t Builder_new))) = expected.
Proof. cbv zeta. split_and!; reflexivity. Qed.

(** The order matters for the latency: a latency set before the disk type is
    lost, whatever it was; one set after it stays. *)
Theorem disk_type_discards_latency c l t :
  with_disk_type (with_latency c l) t = with_disk_type c t /\
  dc_latency (with_latency (with_disk_type c t) l) = l.
Proof. split; reflexivity. Qed.
End DiskSettings.

(** ** Time providers *)
Module Providers.

(** [TimeProvider]: [elapsed] has a default, which saturates at zero. *)
Class TimeProvider (T : Type) := { tp_now : T -> Z; tp_timestamp_secs : T -> Z }.
Definition tp_elapsed `{TimeProvider T} (t : T) (since : Z) : Z := Z.max 0 (tp_now t - since).

(** The system clock at one moment: the monotonic reading and the time since
    the epoch in nanoseconds, none when the clock is set before it. *)
Record RealTimeProvider := mkReal { rt_instant : Z; rt_since_epoch : option Z }.
#[export] Instance real_provider : TimeProvider RealTimeProvider := {|
  tp_now := rt_instant; tp_timestamp_secs t := default 0 (rt_since_epoch t) / 1000000000 |}.

Record DeterministicTimeProvider := mkDet { inner : DeterministicClock }.
(** The step is ignored. *)
Definition Det_new {E} (b : Build) (instant start_secs step : Z) : outcome E DeterministicTimeProvider :=
  let? c := Clock_new b instant start_secs in Ok (mkDet c).
Definition Det_default {E} (b : Build) (instant : Z) : outcome E DeterministicTimeProvider :=
  Det_new b instant 1700000000 1000000.
Definition det_advance (t : DeterministicTimeProvider) : DeterministicTimeProvider := t.
Definition det_set_time {E} (b : Build) (instant secs : Z) (t : DeterministicTimeProvider)
    : outcome E DeterministicTimeProvider :=
  let? c := Clock_new b instant secs in Ok (mkDet c).
#[export] Instance det_provider : TimeProvider DeterministicTimeProvider := {|
  tp_now t := clock_now (inner t); tp_timestamp_secs t := timestamp_secs (inner t) |}.

(** The deterministic provider stands still: it starts, and after [set_time]
    continues, at exactly the given second, and no number of calls of [advance],
    whatever the step it was created with, moves it or lets time elapse. *)
Theorem provider_stands_still b instant secs step k :
  0 <= secs < 2 ^ 64 / 1000000000 ->
  exists t, Det_new (E := GhostError) b instant secs step = Ok t /\
    tp_timestamp_secs (Nat.iter k det_advance t) = secs /\
    tp_elapsed (Nat.iter k det_advance t) (tp_now t) = 0 /\
    forall t', det_set_time (E := GhostError) b instant secs t' = Ok t.
Proof.
  intros Hs. unfold Det_new, det_set_time, Clock_new. rewrite arith_in.
  2:{ assert (2 ^ 64 / 1000000000 = 18446744073) as E by reflexivity. unfold in_u. lia. }
  cbn [obind]. eexists. split; [reflexivity|].
  assert (forall t, Nat.iter k det_advance t = t) as Hi by (intros t; induction k as [|k IH]; [done|exact IH]).
  rewrite !Hi. split_and!; [|unfold tp_elapsed; lia|done].
  cbn [tp_timestamp_secs det_provider inner]. unfold timestamp_secs. cbn [offset_nanos]. by rewrite Z.div_mul.
Qed.

Lemma provider_stands_still_witness :
  exists t, Det_new (E := GhostError) Debug 5 1700000000 1000000 = Ok t /\
    tp_timestamp_secs (Nat.iter 1000 det_advance t) = 1700000000.
Proof.
  destruct (provider_stands_still Debug 5 1700000000 1000000 1000) as (t & E & Ht & _); [vm_compute; split; congruence|].
  exists t. split; [exact E|exact Ht].
Defined.
End Providers.

(** ** Transfer counters *)
Module Counters.

Definition record_transfer_time (ms : Z) (m : TransferMetrics) : TransferMetrics :=
  mkTM (jobs_submitted m) (jobs_completed m) (jobs_failed m) (jobs_cancelled m) (bytes_transferred m)
    (wrap 64 (total_transfer_time_ms m + ms)) (queue_depth m) (active_workers m).
Definition set_queue_depth (n : Z) (m : TransferMetrics) : TransferMetrics :=
  mkTM (jobs_submitted m) (jobs_completed m) (jobs_failed m) (jobs_cancelled m) (bytes_transferred m)
    (total_transfer_time_ms m) n (active_workers m).
Definition set_active_workers (n : Z) (m : TransferMetrics) : TransferMetrics :=
  mkTM (jobs_submitted m) (jobs_completed m) (jobs_failed m) (jobs_cancelled m) (bytes_transferred m)
    (total_transfer_time_ms m) (queue_depth m) n.

Definition avg_transfer_time_ms (m : TransferMetrics) : float :=
  if jobs_completed m =? 0 then f64_zero
  else fdiv f64 (of_int f64 (total_transfer_time_ms m)) (of_int f64 (jobs_completed m)).
Definition success_rate (m : TransferMetrics) : float :=
  if jobs_submitted m =? 0 then of_int f64 1
  else fdiv f64 (of_int f64 (jobs_completed m)) (of_int f64 (jobs_submitted m)).

(** The updates the daemon makes: [orchestrator.rs], [scheduler.rs] and
    [worker.rs] call these and no others. *)
Inductive Update :=
  | USubmission | UCompletion | UFailure | UCancellation | UBytes (n : Z) | UQueueDepth (n : Z).
Definition update (u : Update) : TransferMetrics -> TransferMetrics :=
  match u with
  | USubmission => record_submission
  | UCompletion => record_completion
  | UFailure => record_job_failure
  | UCancellation => record_cancellation
  | UBytes n => record_bytes n
  | UQueueDepth n => set_queue_depth n
  end.
Definition updates (us : list Update) (m : TransferMetrics) : TransferMetrics := fold_left (fun m u => update u m) us m.

Definition tally_of (f : Update -> bool) (us : list Update) : Z := Z.of_nat (length (filter (fun u => f u = true) us)).
Definition is_completion (u : Update) : bool := match u with UCompletion => true | _ => false end.
Definition is_submission (u : Update) : bool := match u with USubmission => true | _ => false end.

Lemma tally_cons f u us : tally_of f (u :: us) = (if f u then 1 else 0) + tally_of f us.
Proof. unfold tally_of. rewrite filter_cons. destruct (f u) eqn:E; case_decide; cbn [length]; try lia; congruence. Qed.

Lemma wrap_succ a n : wrap 64 (wrap 64 (a + 1) + n) = wrap 64 (a + (1 + n)).
Proof. unfold wrap. rewrite Z.add_mod_idemp_l by lia. f_equal. lia. Qed.

Lemma updates_counted us m :
  wrap 64 (jobs_submitted m) = jobs_submitted m -> wrap 64 (jobs_completed m) = jobs_completed m ->
  jobs_submitted (updates us m) = wrap 64 (jobs_submitted m + tally_of is_submission us) /\
  jobs_completed (updates us m) = wrap 64 (jobs_completed m + tally_of is_completion us) /\
  total_transfer_time_ms (updates us m) = total_transfer_time_ms m /\
  active_workers (updates us m) = active_workers m.
Proof.
  unfold updates. revert m. induction us as [|u us IH]; intros m Hs Hc; cbn [fold_left].
  { unfold tally_of. cbn. by rewrite !Z.add_0_r, Hs, Hc. }
  assert (forall a, wrap 64 (wrap 64 a) = wrap 64 a) as Hw by (intros a; unfold wrap; by rewrite Z.mod_mod).
  destruct (IH (update u m)) as (H1 & H2 & H3 & H4); [by destruct u; cbn..|].
  rewrite H1, H2, H3, H4, !tally_cons. destruct u; cbn [update is_submission is_completion]; cbn;
    rewrite ?wrap_succ, ?Z.add_0_l; done.
Qed.

(** What the daemon reports about its transfers.  The success rate is the
    quotient of the completions and the submissions counted so far, 1 before
    the first submission; but the time of transfers and the number of active
    workers are never recorded: the average time is never above zero and the
    workers are reported as none, whatever the daemon did. *)
Theorem transfer_report us :
  Z.of_nat (length us) < 2 ^ 64 ->
  let m := updates us TM_new in
  success_rate m =
    (if tally_of is_submission us =? 0 then of_int f64 1
     else fdiv f64 (of_int f64 (tally_of is_completion us)) (of_int f64 (tally_of is_submission us))) /\
  fgt (avg_transfer_time_ms m) f64_zero = false /\ active_workers m = 0.
Proof.
  intros Hl. cbv zeta. destruct (updates_counted us TM_new eq_refl eq_refl) as (H1 & H2 & H3 & H4).
  assert (forall f, 0 <= tally_of f us < 2 ^ 64) as Ht.
  { intros f. unfold tally_of. pose proof (length_filter (fun u => f u = true) us). lia. }
  change (jobs_submitted TM_new) with 0 in H1. change (jobs_completed TM_new) with 0 in H2.
  rewrite Z.add_0_l, wrap_in in H1, H2 by apply Ht.
  split_and!; [unfold success_rate; by rewrite H1, H2| |by rewrite H4].
  unfold avg_transfer_time_ms. rewrite H3. destruct (jobs_completed _ =? 0); [reflexivity|].
  change (of_int f64 (total_transfer_time_ms TM_new)) with (S754_zero false).
  by destruct (of_int f64 (jobs_completed (updates us TM_new))).
Qed.

Lemma transfer_report_witness :
  success_rate (updates [USubmission; USubmission; UCompletion; UBytes 4096] TM_new) = lit f64 1 2 /\
  fgt (avg_transfer_time_ms (updates [USubmission; USubmission; UCompletion; UBytes 4096] TM_new)) f64_zero = false.
Proof.
  destruct (transfer_report [USubmission; USubmission; UCompletion; UBytes 4096]) as (H1 & H2 & _); [vm_compute; congruence|].
  split; [rewrite H1; vm_compute; reflexivity|exact H2].
Defined.
End Counters.
