(* ===== verification/Reconstruct.v ===== *)
(** * State reconstruction: [ghost-replay/src/state_reconstructor.rs]

    A trace is folded into the chunk lifecycle, one snapshot per event.  The
    fold is total on malformed traces: transitions are guarded before they are
    made.  A trace recorded from a run of the lifecycle tracker is folded back
    into exactly the tracker's state. *)

From Stdlib Require Import ZArith Lia SpecFloat.
From stdpp Require Import base gmap strings list relations.
From S2P Require Import Prelude Floats CoreTypes ChunkState Pressure Trace.

Open Scope rust_scope.

Record StateSnapshot := mkSnapshot {
  event_index : nat;
  sn_timestamp : Z;
  sn_event : Tr.TraceEvent;
  chunk_states : list (ChunkId * ChunkState);
  sn_pressure : PressureState;
  total_allocated : Z;
  total_stored : Z;
  tier_counts : list (TierId * Z);
}.

Definition Snapshot_empty : StateSnapshot :=
  mkSnapshot 0 0 (Tr.DaemonStarted 0) [] PressureState_new 0 0 [].

Definition sn_count (s : StateSnapshot) (st : ChunkState) : nat :=
  length (filter (fun x => x.2 = st) (chunk_states s)).

(** Every failed chunk asks whether any chunk is stored. *)
Definition is_consistent (s : StateSnapshot) : bool :=
  forallb (fun x => if bool_decide (x.2 = Failed) then negb (0 <? sn_count s Stored)%nat else true)
    (chunk_states s).

Definition sn_chunk_state (s : StateSnapshot) (c : ChunkId) : option ChunkState :=
  snd <$> List.find (fun x => bool_decide (x.1 = c)) (chunk_states s).

Definition same_decisions (a b : StateSnapshot) : bool :=
  bool_decide (chunk_states a = chunk_states b) && (total_allocated a =? total_allocated b)
  && (total_stored a =? total_stored b).

Record StateReconstructor := mkRecon {
  rc_sm : StateMachine;
  rc_pressure : PressureState;
  rc_allocated : Z;
  rc_stored : Z;
  rc_tier_usage : list (TierId * Z);
  rc_snapshots : list StateSnapshot;
}.

Definition Recon_new : StateReconstructor :=
  mkRecon SM_new PressureState_new 0 0 [(Ram, 0); (GpuVram, 0); (Disk, 0); (Simulation, 0)] [].

Local Abbreviation RcM := (M StateReconstructor unit).

Definition set_rc_sm (sm : StateMachine) (r : StateReconstructor) : StateReconstructor :=
  mkRecon sm (rc_pressure r) (rc_allocated r) (rc_stored r) (rc_tier_usage r) (rc_snapshots r).
Definition set_rc_pressure (p : PressureState) (r : StateReconstructor) : StateReconstructor :=
  mkRecon (rc_sm r) p (rc_allocated r) (rc_stored r) (rc_tier_usage r) (rc_snapshots r).

(** A call on the tracker whose result is dropped; a panic still propagates. *)
Definition on_tracker {A} (m : M StateMachine GhostError A) : RcM unit := fun r =>
  let '(o, sm) := m (rc_sm r) in
  (match o with Panic msg => Panic msg | _ => Ok tt end, set_rc_sm sm r).

Fixpoint bump_usage {E} (b : Build) (t : TierId) (n : Z) (l : list (TierId * Z)) : outcome E (list (TierId * Z)) :=
  match l with
  | [] => Ok []
  | (t', u) :: l =>
      if bool_decide (t' = t) then let? u' := arith b 64 (u + n) in Ok ((t', u') :: l)
      else let? l' := bump_usage b t n l in Ok ((t', u) :: l')
  end.

Definition add_tier_usage (b : Build) (t : TierId) (n : Z) : RcM unit :=
  r <- gets id ;;
  l <- lift (bump_usage b t n (rc_tier_usage r)) ;;
  modify (fun r => mkRecon (rc_sm r) (rc_pressure r) (rc_allocated r) (rc_stored r) l (rc_snapshots r)).

Definition is_live (s : ChunkState) : bool :=
  match s with Allocated | Stored | Cached | Migrating => true | _ => false end.

Definition count_states (f : ChunkState -> bool) (sm : StateMachine) : Z :=
  Z.of_nat (length (filter (fun s => f s = true) (btree_values (snapshot sm)))).

Definition build_tier_counts (sm : StateMachine) : list (TierId * Z) :=
  let n := count_states (fun s => match s with Stored | Cached => true | _ => false end) sm in
  if n =? 0 then [] else [(Ram, n)].

Definition process_event (b : Build) (ri : bool) (index : nat) (event : Tr.TraceEvent) : RcM unit :=
  (match event with
   | Tr.ChunkCreated c sz tier _ =>
       on_tracker (register c) ;;;
       r <- gets id ;;
       n <- lift (arith b 64 (rc_allocated r + sz)) ;;
       modify (fun r => mkRecon (rc_sm r) (rc_pressure r) n (rc_stored r) (rc_tier_usage r) (rc_snapshots r)) ;;;
       add_tier_usage b tier sz
   | Tr.ChunkStateChanged c from to _ =>
       r <- gets id ;;
       match get_state (rc_sm r) c with
       | Some current =>
           if bool_decide (current = from) && is_valid_transition current to then on_tracker (transition b ri c to)
           else ret tt
       | None => ret tt
       end
   | Tr.ChunkDeleted c _ _ => modify (fun r => set_rc_sm (remove c (rc_sm r)).2 r)
   | Tr.Eviction c _ _ _ =>
       r <- gets id ;;
       match get_state (rc_sm r) c with
       | Some current =>
           if is_valid_transition current Evicted then on_tracker (transition b ri c Evicted) else ret tt
       | None => ret tt
       end
   | Tr.PressureSample p _ => modify (set_rc_pressure p)
   | Tr.PressureAlert m v i _ => modify (set_rc_pressure (mkPressure m v i 0 0))
   | _ => ret tt
   end) ;;;
  modify (fun r =>
    let stored := count_states is_live (rc_sm r) in
    let snap := mkSnapshot index (Tr.timestamp event) event (btree_iter (snapshot (rc_sm r)))
      (rc_pressure r) (rc_allocated r) stored (build_tier_counts (rc_sm r)) in
    mkRecon (rc_sm r) (rc_pressure r) (rc_allocated r) stored (rc_tier_usage r) (rc_snapshots r ++ [snap])).

Fixpoint process_from (b : Build) (ri : bool) (i : nat) (es : list Tr.TraceEvent) : RcM unit :=
  match es with [] => ret tt | e :: es => process_event b ri i e ;;; process_from b ri (S i) es end.
Definition process_events (b : Build) (ri : bool) (es : list Tr.TraceEvent) : RcM unit :=
  process_from b ri 0 es.

Definition snapshot_at (r : StateReconstructor) (i : nat) : option StateSnapshot := rc_snapshots r !! i.
Definition final_snapshot (r : StateReconstructor) : option StateSnapshot := last (rc_snapshots r).

(** ** Comparison *)

Definition EPSILON : float := lit f32 1 8388608.
Definition apart (x y : float) : bool := fgt (SFabs (fsub f32 x y)) EPSILON.

Definition differs (a b : StateSnapshot) : bool :=
  if negb (bool_decide (chunk_states a = chunk_states b)) then true
  else if apart (memory_pressure (sn_pressure a)) (memory_pressure (sn_pressure b))
       || apart (vram_pressure (sn_pressure a)) (vram_pressure (sn_pressure b))
       || apart (io_pressure (sn_pressure a)) (io_pressure (sn_pressure b)) then true
  else negb (total_allocated a =? total_allocated b) || negb (total_stored a =? total_stored b).

Fixpoint compare_from (i : nat) (a b : list StateSnapshot) : list nat :=
  match a, b with
  | x :: a, y :: b => (if differs x y then [i] else []) ++ compare_from (S i) a b
  | _, _ => []
  end.
Definition compare_snapshots (a b : list StateSnapshot) : list nat := compare_from 0 a b.

(** ** What a trace means for the tracker *)

Definition apply_event (e : Tr.TraceEvent) (sm : StateMachine) : StateMachine :=
  match e with
  | Tr.ChunkCreated c _ _ _ =>
      match get_state sm c with None => mkSM (<[c := Allocated]> (states sm)) | Some _ => sm end
  | Tr.ChunkStateChanged c from to _ =>
      match get_state sm c with
      | Some s => if bool_decide (s = from) && is_valid_transition s to then mkSM (<[c := to]> (states sm)) else sm
      | None => sm
      end
  | Tr.ChunkDeleted c _ _ => mkSM (delete c (states sm))
  | Tr.Eviction c _ _ _ =>
      match get_state sm c with
      | Some s => if is_valid_transition s Evicted then mkSM (<[c := Evicted]> (states sm)) else sm
      | None => sm
      end
  | _ => sm
  end.

(** Bytes an event adds to the total. *)
Definition event_size (e : Tr.TraceEvent) : Z :=
  match e with Tr.ChunkCreated _ sz _ _ => sz | _ => 0 end.
Definition trace_size (es : list Tr.TraceEvent) : Z := foldr (fun e n => event_size e + n) 0 es.

Record rc_ok (r : StateReconstructor) : Prop := {
  rc_total : 0 <= rc_allocated r;
  rc_tiers : Forall (fun x => 0 <= x.2 <= rc_allocated r) (rc_tier_usage r);
}.

Lemma bump_usage_ok {E} b t n total l :
  0 <= n -> total + n < 2 ^ 64 -> Forall (fun x : TierId * Z => 0 <= x.2 <= total) l ->
  exists l', bump_usage (E := E) b t n l = Ok l' /\ Forall (fun x => 0 <= x.2 <= total + n) l'.
Proof.
  intros Hn Hw. induction l as [|[t' u] l IH]; intros Hl; simpl; [by exists []|].
  apply Forall_cons in Hl as [Hu Hl]. simpl in Hu. case_bool_decide.
  - rewrite arith_in by (unfold in_u; lia). simpl. eexists. split; [done|]. constructor; simpl; [lia|].
    eapply Forall_impl; [exact Hl|]. simpl. intros x ?. lia.
  - destruct (IH Hl) as (l' & -> & Hl'). simpl. eexists. split; [done|]. constructor; simpl; [lia|done].
Qed.

Lemma on_tracker_wp {A} (m : M StateMachine GhostError A) r sm (Q : outcome unit unit -> StateReconstructor -> Prop) :
  (m (rc_sm r)).2 = sm -> is_panic (m (rc_sm r)).1 = false -> Q (Ok tt) (set_rc_sm sm r) -> wp (on_tracker m) Q r.
Proof.
  intros E1 E2 HQ. unfold wp, on_tracker. destruct (m (rc_sm r)) as [[a|e|msg] sm']; simpl in *; subst; done.
Qed.

Lemma add_tier_usage_wp b t n total r (Q : outcome unit unit -> StateReconstructor -> Prop) :
  0 <= n -> total + n < 2 ^ 64 -> Forall (fun x => 0 <= x.2 <= total) (rc_tier_usage r) ->
  (forall l, Forall (fun x => 0 <= x.2 <= total + n) l ->
    Q (Ok tt) (mkRecon (rc_sm r) (rc_pressure r) (rc_allocated r) (rc_stored r) l (rc_snapshots r))) ->
  wp (add_tier_usage b t n) Q r.
Proof.
  intros Hn Hw Hl HQ. destruct (bump_usage_ok (E := unit) b t n total _ Hn Hw Hl) as (l & Hb & Hl').
  unfold add_tier_usage, wp, bind, gets, lift, modify. cbn. unfold id. rewrite Hb. by apply HQ.
Qed.

(** What one event does, for every trace event in every state. *)
Lemma process_event_ok b ri i e r :
  rc_ok r -> 0 <= event_size e -> rc_allocated r + event_size e < 2 ^ 64 ->
  exists r', process_event b ri i e r = (Ok tt, r') /\ rc_ok r' /\
    rc_sm r' = apply_event e (rc_sm r) /\ rc_allocated r' = rc_allocated r + event_size e /\
    exists s, rc_snapshots r' = rc_snapshots r ++ [s] /\ event_index s = i /\ sn_event s = e /\
      chunk_states s = btree_iter (states (apply_event e (rc_sm r))) /\
      total_allocated s = rc_allocated r + event_size e /\
      total_stored s = count_states is_live (apply_event e (rc_sm r)).
Proof.
  intros Hok Hsz Hw. enough (wp (process_event b ri i e) (fun o r' => o = Ok tt /\ rc_ok r' /\
    rc_sm r' = apply_event e (rc_sm r) /\ rc_allocated r' = rc_allocated r + event_size e /\
    exists s, rc_snapshots r' = rc_snapshots r ++ [s] /\ event_index s = i /\ sn_event s = e /\
      chunk_states s = btree_iter (states (apply_event e (rc_sm r))) /\
      total_allocated s = rc_allocated r + event_size e /\
      total_stored s = count_states is_live (apply_event e (rc_sm r))) r) as Hwp.
  { unfold wp in Hwp. destruct (process_event b ri i e r) as [o r']. destruct Hwp as (Ho & Hwp). simpl in Ho. subst.
    by exists r'. }
  unfold process_event. wp_step.
  match goal with |- wp ?m _ _ => enough (wp m (fun o r' => o = Ok tt /\ rc_ok r' /\
    rc_sm r' = apply_event e (rc_sm r) /\ rc_allocated r' = rc_allocated r + event_size e /\
    rc_snapshots r' = rc_snapshots r) r) as Hm end.
  { eapply wp_mono; [exact Hm|]. intros o r' (-> & [? ?] & Hsm & Ha & Hs). wp_step.
    split_and!; [done|by split|done|done|]. eexists. cbn. rewrite Hs, Hsm, Ha. split_and!; done. }
  destruct Hok as [Ht Hu].
  destruct e; cbn [event_size] in *; try (wp_step; rewrite Z.add_0_r; split_and!; [done|by split|done..]).
  - wp_step. unfold apply_event, get_state. destruct (states (rc_sm r) !! chunk_id) as [s|] eqn:Es.
    1: destruct (register_taken chunk_id s (rc_sm r) Es) as [Hf Hsm];
      eapply (on_tracker_wp _ _ (rc_sm r));
      [done|by unfold register, bind, gets, id; simpl; rewrite Es|].
    2: eapply on_tracker_wp; [by rewrite register_new|by rewrite register_new|].
    all: do 2 wp_step; unfold id; do 2 wp_step; cbn [rc_allocated set_rc_sm];
      rewrite arith_in by (unfold in_u; lia); do 2 wp_step; apply (add_tier_usage_wp b tier size_ (rc_allocated r)); [done..|]; intros l' Hl';
      (split_and!; [done| |by destruct (rc_sm r)|done..]); split; simpl; [lia|done].
  - do 2 wp_step. unfold id, apply_event. destruct (get_state (rc_sm r) chunk_id) as [s|] eqn:Es;
      [|wp_step; rewrite Z.add_0_r; split_and!; [done|by split|done..]].
    destruct (bool_decide (s = from) && is_valid_transition s to) eqn:Eg;
      [|wp_step; rewrite Z.add_0_r; split_and!; [done|by split|done..]].
    apply andb_true_iff in Eg as [_ Eg].
    eapply on_tracker_wp; [by rewrite (transition_valid b ri chunk_id s)|by rewrite (transition_valid b ri chunk_id s)|].
    rewrite Z.add_0_r. split_and!; [done|by split|done..].
  - do 2 wp_step. unfold id, apply_event. destruct (get_state (rc_sm r) chunk_id) as [s|] eqn:Es;
      [|wp_step; rewrite Z.add_0_r; split_and!; [done|by split|done..]].
    destruct (is_valid_transition s Evicted) eqn:Eg;
      [|wp_step; rewrite Z.add_0_r; split_and!; [done|by split|done..]].
    eapply on_tracker_wp; [by rewrite (transition_valid b ri chunk_id s)|by rewrite (transition_valid b ri chunk_id s)|].
    rewrite Z.add_0_r. split_and!; [done|by split|done..].
Qed.

Lemma process_from_ok b ri es : forall i r,
  rc_ok r -> Forall (fun e => 0 <= event_size e) es -> rc_allocated r + trace_size es < 2 ^ 64 ->
  exists r' new, process_from b ri i es r = (Ok tt, r') /\
    rc_sm r' = fold_left (flip apply_event) es (rc_sm r) /\
    rc_allocated r' = rc_allocated r + trace_size es /\
    rc_snapshots r' = rc_snapshots r ++ new /\ length new = length es /\
    (forall k s, new !! k = Some s ->
      event_index s = (i + k)%nat /\ es !! k = Some (sn_event s) /\
      chunk_states s = btree_iter (states (fold_left (flip apply_event) (take (S k) es) (rc_sm r))) /\
      total_allocated s = rc_allocated r + trace_size (take (S k) es) /\
      total_stored s = count_states is_live (fold_left (flip apply_event) (take (S k) es) (rc_sm r))).
Proof.
  induction es as [|e es IH]; intros i r Hok Hes Hw; cbn [process_from].
  - exists r, []. cbn. rewrite Z.add_0_r, app_nil_r. done.
  - apply Forall_cons in Hes as [He Hes]. cbn [trace_size foldr] in Hw. fold (trace_size es) in Hw.
    assert (0 <= trace_size es) as Hnn by (clear -Hes; induction Hes; cbn; [lia|unfold trace_size in *; lia]).
    destruct (process_event_ok b ri i e r Hok He ltac:(lia)) as (r1 & E1 & Hok1 & Hsm1 & Ha1 & s & Hs & Hi & Hev & Hc & Ht & Hst).
    destruct (IH (S i) r1 Hok1 Hes ltac:(lia)) as (r2 & new & E2 & Hsm2 & Ha2 & Hs2 & Hl & Hnew).
    exists r2, (s :: new). unfold bind. rewrite E1. cbn [trace_size foldr fold_left]. fold (trace_size es).
    split_and!; [done|by rewrite Hsm2, Hsm1|lia|by rewrite Hs2, Hs, <- app_assoc|by simpl; rewrite Hl|].
    intros [|k] t; simpl.
    + intros [= <-]. split_and!; [lia|by rewrite Hev|done|cbn; lia|done].
    + intros Hk. destruct (Hnew k t Hk) as (Hn1 & Hn2 & Hn3 & Hn4 & Hn5).
      split_and!; [lia|done|by rewrite Hn3, Hsm1| |by rewrite Hn5, Hsm1].
      rewrite Hn4, Ha1. cbn [trace_size foldr]. unfold trace_size. lia.
Qed.

Lemma Recon_new_ok : rc_ok Recon_new.
Proof. split; simpl; [lia|]. repeat constructor; simpl; lia. Qed.

(** Reconstruction never panics on a trace, however malformed, whose sizes
    sum below 2^64: it takes one snapshot per event, snapshot [k] names event
    [k] and holds, in key order, the chunk states and the byte total the first
    [k + 1] events imply. *)
Theorem reconstruct_total b ri es :
  Forall (fun e => 0 <= event_size e) es -> trace_size es < 2 ^ 64 ->
  exists r, process_events b ri es Recon_new = (Ok tt, r) /\
    length (rc_snapshots r) = length es /\
    (forall k s, snapshot_at r k = Some s ->
      event_index s = k /\ es !! k = Some (sn_event s) /\
      chunk_states s = btree_iter (states (fold_left (flip apply_event) (take (S k) es) SM_new)) /\
      total_allocated s = trace_size (take (S k) es) /\
      total_stored s = count_states is_live (fold_left (flip apply_event) (take (S k) es) SM_new)).
Proof.
  intros Hes Hw. destruct (process_from_ok b ri es 0 Recon_new Recon_new_ok Hes Hw)
    as (r & new & E & _ & _ & Hs & Hl & Hnew).
  exists r. unfold snapshot_at. rewrite Hs. split_and!; [done|exact Hl|exact Hnew].
Qed.

(** ** Round trip with the tracker *)

(** What is written to the trace when a tracker call succeeds; a call that
    fails writes nothing.  Size, tier and timestamp are free. *)
Definition trace_of_op (o : Op) (m : Z * TierId * Z) (sm : StateMachine) : list Tr.TraceEvent :=
  let '(sz, tier, ts) := m in
  match o with
  | ORegister c => match get_state sm c with None => [Tr.ChunkCreated c sz tier ts] | Some _ => [] end
  | OTransition c next =>
      match get_state sm c with
      | Some s => if is_valid_transition s next then [Tr.ChunkStateChanged c s next ts] else []
      | None => []
      end
  | ORemove c => [Tr.ChunkDeleted c tier ts]
  end.

Fixpoint trace_of_run (b : Build) (ri : bool) (ops : list (Op * (Z * TierId * Z))) (sm : StateMachine) : list Tr.TraceEvent :=
  match ops with
  | [] => []
  | (o, m) :: ops => trace_of_op o m sm ++ trace_of_run b ri ops (apply_op b ri o sm)
  end.

(** A run without removals. *)
Definition keeps (x : Op * (Z * TierId * Z)) : Prop := match x.1 with ORemove _ => False | _ => True end.

Lemma trace_of_op_apply b ri o m sm :
  fold_left (flip apply_event) (trace_of_op o m sm) sm = apply_op b ri o sm.
Proof.
  destruct m as [[sz tier] ts]. unfold trace_of_op, get_state.
  destruct o as [c|c next|c]; simpl; [| |done].
  - destruct (states sm !! c) as [s|] eqn:E.
    + by destruct (register_taken c s sm E) as [_ ->].
    + rewrite register_new by done. simpl. unfold get_state. by rewrite E.
  - destruct (states sm !! c) as [s|] eqn:E; [|by rewrite transition_unregistered].
    destruct (is_valid_transition s next) eqn:Ev; simpl.
    + rewrite (transition_valid b ri c s) by done. unfold get_state. rewrite E, bool_decide_eq_true_2 by done.
      simpl. by rewrite Ev.
    + rewrite (transition_invalid b ri c s); [by destruct b|done|]. unfold edge. by rewrite Ev.
Qed.

Lemma trace_of_run_apply b ri ops : forall sm,
  fold_left (flip apply_event) (trace_of_run b ri ops sm) sm = run b ri ops.*1 sm.
Proof.
  induction ops as [|[o m] ops IH]; intros sm; [done|]. cbn [trace_of_run].
  rewrite fold_left_app, (trace_of_op_apply b ri). apply IH.
Qed.

Lemma trace_of_run_sizes b ri ops : forall sm,
  Forall (fun x : Op * (Z * TierId * Z) => 0 <= x.2.1.1) ops ->
  Forall (fun e => 0 <= event_size e) (trace_of_run b ri ops sm) /\
  trace_size (trace_of_run b ri ops sm) <= foldr (fun x n => x.2.1.1 + n) 0 ops.
Proof.
  induction ops as [|[o [[sz tier] ts]] ops IH]; intros sm Hops; [by split|].
  apply Forall_cons in Hops as [Ho Hops]. simpl in Ho. destruct (IH (apply_op b ri o sm) Hops) as [H1 H2].
  cbn [trace_of_run foldr]. cbn [fst snd].
  assert (forall l, Forall (fun e => 0 <= event_size e) l -> trace_size l <= sz ->
    Forall (fun e => 0 <= event_size e) (l ++ trace_of_run b ri ops (apply_op b ri o sm)) /\
    trace_size (l ++ trace_of_run b ri ops (apply_op b ri o sm)) <= sz + foldr (fun x n => x.2.1.1 + n) 0 ops) as Hl.
  { intros l Hl1 Hl2. split; [by apply Forall_app|]. unfold trace_size in *. rewrite foldr_app.
    enough (forall z, foldr (fun e n => event_size e + n) z l = foldr (fun e n => event_size e + n) 0 l + z) as ->
      by lia. intros z. clear. induction l; simpl; lia. }
  apply Hl; unfold trace_of_op, trace_size; (destruct o as [c|c next|c]; [| |]); repeat case_match;
    repeat constructor; simpl; lia.
Qed.

(** The trace of any run of the chunk tracker (registrations, transitions
    and removals, refused calls included) is reconstructed into exactly the
    tracker's final state. *)
Theorem reconstruct_roundtrip b ri ops :
  Forall (fun x : Op * (Z * TierId * Z) => 0 <= x.2.1.1) ops ->
  foldr (fun x n => x.2.1.1 + n) 0 ops < 2 ^ 64 ->
  exists r, process_events b ri (trace_of_run b ri ops SM_new) Recon_new = (Ok tt, r) /\
    rc_sm r = run b ri ops.*1 SM_new.
Proof.
  intros Hops Hw. destruct (trace_of_run_sizes b ri ops SM_new Hops) as [H1 H2].
  assert (trace_size (trace_of_run b ri ops SM_new) < 2 ^ 64) as Hlt by lia.
  destruct (process_from_ok b ri _ 0 Recon_new Recon_new_ok H1 Hlt) as (r & new & E & Hsm & _).
  exists r. split; [done|]. rewrite Hsm. apply trace_of_run_apply.
Qed.

(** ** Comparison and consistency *)

Lemma is_consistent_spec s :
  is_consistent s = true <->
  ~ ((exists c, (c, Failed) ∈ chunk_states s) /\ exists d, (d, Stored) ∈ chunk_states s).
Proof.
  unfold is_consistent. rewrite forallb_forall. split.
  - intros H [[c Hc] [d Hd]]. specialize (H (c, Failed) (proj1 (list_elem_of_In _ _) Hc)).
    simpl in H. apply negb_true_iff, Nat.ltb_ge in H. unfold sn_count in H.
    assert ((d, Stored) ∈ filter (fun x : ChunkId * ChunkState => x.2 = Stored) (chunk_states s)) as Hf
      by (apply list_elem_of_filter; done).
    destruct (filter _ (chunk_states s)); [by apply not_elem_of_nil in Hf|simpl in H; lia].
  - intros H [c st] Hin%list_elem_of_In. simpl. case_bool_decide; [subst|done].
    apply negb_true_iff, Nat.ltb_ge. unfold sn_count.
    destruct (filter _ (chunk_states s)) as [|[d st] l] eqn:Ef; [simpl; lia|exfalso].
    assert ((d, st) ∈ filter (fun x : ChunkId * ChunkState => x.2 = Stored) (chunk_states s)) as Hf
      by (rewrite Ef; apply list_elem_of_here).
    apply list_elem_of_filter in Hf as [Hst Hf]. simpl in Hst. subst. apply H. eauto.
Qed.

Lemma compare_from_spec a : forall i b k,
  k ∈ compare_from i a b <-> exists j x y, k = (i + j)%nat /\ a !! j = Some x /\ b !! j = Some y /\ differs x y = true.
Proof.
  induction a as [|x a IH]; intros i b k; [simpl; split; [by intros ?%not_elem_of_nil|naive_solver]|].
  destruct b as [|y b]; [simpl; split; [by intros ?%not_elem_of_nil|intros (? & ? & ? & _ & _ & ? & _); done]|].
  simpl. rewrite elem_of_app, IH. split.
  - intros [H|(j & x' & y' & -> & H)].
    + destruct (differs x y) eqn:E; [|by apply not_elem_of_nil in H]. apply list_elem_of_singleton in H as ->.
      exists 0%nat, x, y. split_and!; [lia|done..].
    + exists (S j), x', y'. split; [lia|done].
  - intros ([|j] & x' & y' & -> & Hx & Hy & Hd); simpl in *.
    + simplify_eq. left. rewrite Hd. apply list_elem_of_singleton. lia.
    + right. exists j, x', y'. split; [lia|done].
Qed.

Lemma apart_refl x : apart x x = false.
Proof.
  unfold apart, fgt, flt, fsub. destruct x as [s|s| |s m e]; [by destruct s|by destruct s|done|].
  unfold SFsub. rewrite Z.min_id, Z.sub_diag. done.
Qed.

Lemma differs_refl s : differs s s = false.
Proof.
  unfold differs. rewrite bool_decide_eq_true_2 by done. rewrite !apart_refl, !Z.eqb_refl. done.
Qed.

(** [compare] of a trace with itself reports nothing, and of two traces
    exactly the indices of both at which the snapshots differ. *)
Lemma compare_self a : compare_snapshots a a = [].
Proof.
  unfold compare_snapshots. destruct (compare_from 0 a a) as [|k l] eqn:E; [done|exfalso].
  assert (k ∈ compare_from 0 a a) as Hk by (rewrite E; apply list_elem_of_here).
  apply compare_from_spec in Hk as (j & x & y & _ & Hx & Hy & Hd). simplify_eq. by rewrite differs_refl in Hd.
Qed.

(** A pressure that turns NaN is not seen as a difference. *)
Lemma nan_pressure_hidden s :
  differs s (mkSnapshot (event_index s) (sn_timestamp s) (sn_event s) (chunk_states s)
    (mkPressure S754_nan S754_nan S754_nan 0 0) (total_allocated s) (total_stored s) (tier_counts s)) = false.
Proof.
  unfold differs. cbn. rewrite bool_decide_eq_true_2 by done. rewrite !Z.eqb_refl.
  assert (forall x, apart x S754_nan = false) as Hn by (by intros []). by rewrite !Hn.
Qed.

Module ReconstructExample.
Definition c1 : ChunkId := mkChunkId [byte_of_Z 1].
Definition c2 : ChunkId := mkChunkId [byte_of_Z 2].

(** One chunk fails while another is stored: each is a legal lifecycle. *)
Definition ops : list (Op * (Z * TierId * Z)) :=
  [(ORegister c1, (100, Ram, 1)); (OTransition c1 Stored, (0, Ram, 2)); (ORegister c1, (7, Disk, 3));
   (ORegister c2, (50, Disk, 4)); (OTransition c2 Stored, (0, Disk, 5)); (OTransition c1 Migrating, (0, Ram, 6));
   (OTransition c1 Failed, (0, Ram, 7)); (OTransition c2 Allocated, (0, Ram, 8))].

Definition trace : list Tr.TraceEvent := trace_of_run Release true ops SM_new.

(** A legal run that [is_consistent] calls inconsistent. *)
Lemma consistent_rejects_legal :
  length trace = 6%nat /\
  is_consistent <$> final_snapshot (process_events Release true trace Recon_new).2 = Some false.
Proof. split; vm_compute; reflexivity. Qed.

Lemma reconstruct_total_witness :
  exists r, process_events Debug true trace Recon_new = (Ok tt, r) /\
    length (rc_snapshots r) = length trace /\
    (forall k s, snapshot_at r k = Some s ->
      event_index s = k /\ trace !! k = Some (sn_event s) /\
      chunk_states s = btree_iter (states (fold_left (flip apply_event) (take (S k) trace) SM_new)) /\
      total_allocated s = trace_size (take (S k) trace) /\
      total_stored s = count_states is_live (fold_left (flip apply_event) (take (S k) trace) SM_new)).
Proof.
  apply (reconstruct_total Debug true trace); [|vm_compute; reflexivity].
  repeat constructor; vm_compute; discriminate.
Defined.

Lemma reconstruct_roundtrip_witness :
  exists r, process_events Debug true (trace_of_run Debug true (take 7 ops) SM_new) Recon_new = (Ok tt, r) /\
    rc_sm r = run Debug true (take 7 ops).*1 SM_new.
Proof.
  apply (reconstruct_roundtrip Debug true (take 7 ops)); [|vm_compute; reflexivity].
  repeat constructor; vm_compute; discriminate.
Defined.
End ReconstructExample.
