(* ===== verification/Replay.v ===== *)
(** * The replay engine: [ghost-replay/src/engine.rs]

    [ReplayEngine] folds a trace into a chunk tracker and a summary,
    validating each state change; [validate] is the same walk as a dry run.
    The two are shown to accept the same traces, and a trace recorded from a
    run of the tracker without removals replays without errors into the
    tracker's state. *)

From Stdlib Require Import ZArith Lia.
From stdpp Require Import base gmap strings pretty list.
From S2P Require Import Prelude Floats CoreTypes ChunkState Pressure Trace Reconstruct.

Open Scope rust_scope.

Record ReplayConfig := mkRCfg {
  validate_transitions : bool;
  stop_on_error : bool;
  rcfg_max_events : Z;
}.
Definition ReplayConfig_default : ReplayConfig := mkRCfg true false 0.

Record ReplayValidationError := mkRVE {
  ve_event_index : Z;
  ve_event : string;
  ve_message : string;
}.

Definition validation_error_display (e : ReplayValidationError) : string :=
  "ReplayValidationError at event " +:+ pretty (ve_event_index e) +:+ ": " +:+ ve_message e
  +:+ " (" +:+ ve_event e +:+ ")".

Record ReplaySummary := mkSummary {
  events_replayed : Z;
  validation_errors : Z;
  chunks_created : Z;
  chunks_deleted : Z;
  state_transitions : Z;
  transfers_completed : Z;
  transfers_failed : Z;
  evictions : Z;
  pressure_alerts : Z;
  policy_decisions : Z;
  unique_chunks : Z;
  time_range : Z * Z;
  errors : list ReplayValidationError;
}.
Definition Summary_default : ReplaySummary := mkSummary 0 0 0 0 0 0 0 0 0 0 0 (0, 0) [].

Record ChunkReplayState := mkCRS {
  current_state : ChunkState;
  current_tier : option TierId;
  created : bool;
}.

Record ReplayEngine := mkEngine {
  re_config : ReplayConfig;
  re_sm : StateMachine;
  re_chunks : gmap ChunkId ChunkReplayState;
  re_summary : ReplaySummary;
  re_event_count : Z;
}.

Definition Engine_new (config : ReplayConfig) : ReplayEngine :=
  mkEngine config SM_new ∅ Summary_default 0.

Local Abbreviation ReM := (M ReplayEngine GhostError).

Definition set_re_sm (sm : StateMachine) (r : ReplayEngine) : ReplayEngine :=
  mkEngine (re_config r) sm (re_chunks r) (re_summary r) (re_event_count r).
Definition set_re_chunks (f : gmap ChunkId ChunkReplayState -> gmap ChunkId ChunkReplayState) (r : ReplayEngine) : ReplayEngine :=
  mkEngine (re_config r) (re_sm r) (f (re_chunks r)) (re_summary r) (re_event_count r).
Definition set_re_summary (s : ReplaySummary) (r : ReplayEngine) : ReplayEngine :=
  mkEngine (re_config r) (re_sm r) (re_chunks r) s (re_event_count r).
Definition set_event_count (n : Z) (r : ReplayEngine) : ReplayEngine :=
  mkEngine (re_config r) (re_sm r) (re_chunks r) (re_summary r) n.

(** The counters of the summary, each incremented with [+= 1]. *)
Inductive Counter := CErrors | CCreated | CDeleted | CTransitions | CCompleted | CFailed | CEvictions | CAlerts | CDecisions.

#[export] Instance Counter_eq_dec : EqDecision Counter.
Proof. solve_decision. Defined.

Definition counter (c : Counter) (s : ReplaySummary) : Z :=
  match c with
  | CErrors => validation_errors s | CCreated => chunks_created s | CDeleted => chunks_deleted s
  | CTransitions => state_transitions s | CCompleted => transfers_completed s
  | CFailed => transfers_failed s | CEvictions => evictions s | CAlerts => pressure_alerts s
  | CDecisions => policy_decisions s
  end.

Definition set_counter (c : Counter) (n : Z) (s : ReplaySummary) : ReplaySummary :=
  let f c' := match c, c' with
    | CErrors, CErrors | CCreated, CCreated | CDeleted, CDeleted | CTransitions, CTransitions
    | CCompleted, CCompleted | CFailed, CFailed | CEvictions, CEvictions | CAlerts, CAlerts
    | CDecisions, CDecisions => n
    | _, _ => counter c' s
    end in
  mkSummary (events_replayed s) (f CErrors) (f CCreated) (f CDeleted) (f CTransitions) (f CCompleted)
    (f CFailed) (f CEvictions) (f CAlerts) (f CDecisions) (unique_chunks s) (time_range s) (errors s).

Definition incr (b : Build) (c : Counter) : ReM unit :=
  r <- gets id ;;
  n <- lift (arith b 64 (counter c (re_summary r) + 1)) ;;
  modify (fun r => set_re_summary (set_counter c n (re_summary r)) r).

(** A call on the engine's tracker; its error is propagated. *)
Definition on_sm {A} (m : M StateMachine GhostError A) : ReM A := fun r =>
  let '(o, sm) := m (re_sm r) in (o, set_re_sm sm r).

Definition set_time_range (t : Z * Z) (s : ReplaySummary) : ReplaySummary :=
  mkSummary (events_replayed s) (validation_errors s) (chunks_created s) (chunks_deleted s)
    (state_transitions s) (transfers_completed s) (transfers_failed s) (evictions s)
    (pressure_alerts s) (policy_decisions s) (unique_chunks s) t (errors s).
Definition push_error (e : ReplayValidationError) (s : ReplaySummary) : ReplaySummary :=
  mkSummary (events_replayed s) (validation_errors s) (chunks_created s) (chunks_deleted s)
    (state_transitions s) (transfers_completed s) (transfers_failed s) (evictions s)
    (pressure_alerts s) (policy_decisions s) (unique_chunks s) (time_range s) (errors s ++ [e]).

Definition widen (ts : Z) (t : Z * Z) : Z * Z :=
  if bool_decide (t = (0, 0)) then (ts, ts) else (Z.min t.1 ts, Z.max t.2 ts).

Definition add_error (b : Build) (message : string) : ReM unit :=
  incr b CErrors ;;;
  modify (fun r =>
    if (length (errors (re_summary r)) <? 100)%nat
    then set_re_summary (push_error (mkRVE (re_event_count r) "state_transition" message) (re_summary r)) r
    else r).

Definition from_mismatch (from current : ChunkState) : string :=
  "expected from=" +:+ state_debug from +:+ ", but chunk is in state " +:+ state_debug current.
Definition invalid_edge (from to : ChunkState) : string :=
  "invalid transition: " +:+ state_debug from +:+ " -> " +:+ state_debug to.

Definition current_of (r : ReplayEngine) (c : ChunkId) : ChunkState :=
  match re_chunks r !! c with Some s => current_state s | None => Allocated end.

Definition check_change (b : Build) (config : ReplayConfig) (current from to : ChunkState) : ReM unit :=
  if validate_transitions config then
    (if negb (bool_decide (current = from)) then add_error b (from_mismatch from current) else ret tt) ;;;
    (if negb (is_valid_transition current to) then add_error b (invalid_edge from to) else ret tt)
  else ret tt.

Definition move_chunk (c : ChunkId) (to : ChunkState) (m : gmap ChunkId ChunkReplayState) : gmap ChunkId ChunkReplayState :=
  match m !! c with
  | Some s => <[c := mkCRS to (current_tier s) (created s)]> m
  | None => <[c := mkCRS to None false]> m
  end.

Definition process_event (b : Build) (ri : bool) (event : Tr.TraceEvent) : ReM unit :=
  modify (fun r => set_re_summary
    (set_time_range (widen (Tr.timestamp event) (time_range (re_summary r))) (re_summary r)) r) ;;;
  match event with
  | Tr.ChunkCreated c _ tier _ =>
      incr b CCreated ;;;
      on_sm (register c) ;;;
      modify (set_re_chunks <[c := mkCRS Allocated (Some tier) true]>)
  | Tr.ChunkDeleted c _ _ =>
      incr b CDeleted ;;;
      modify (set_re_chunks (delete c))
  | Tr.ChunkStateChanged c from to _ =>
      incr b CTransitions ;;;
      r <- gets id ;;
      let current := current_of r c in
      check_change b (re_config r) current from to ;;;
      if is_valid_transition current to then
        on_sm (transition b ri c to) ;;;
        modify (set_re_chunks (move_chunk c to))
      else ret tt
  | Tr.TransferCompleted _ _ _ _ _ _ => incr b CCompleted
  | Tr.TransferFailed _ _ _ _ _ _ => incr b CFailed
  | Tr.Eviction _ _ _ _ => incr b CEvictions
  | Tr.PressureAlert _ _ _ _ => incr b CAlerts
  | Tr.PolicyDecision _ _ _ _ _ => incr b CDecisions
  | _ => ret tt
  end.

(** The loop of [replay]; [break] on the first validation error. *)
Fixpoint replay_loop (b : Build) (ri : bool) (i : Z) (es : list Tr.TraceEvent) : ReM unit :=
  match es with
  | [] => ret tt
  | e :: es =>
      modify (set_event_count i) ;;;
      process_event b ri e ;;;
      r <- gets id ;;
      if stop_on_error (re_config r) && (0 <? validation_errors (re_summary r)) then ret tt
      else replay_loop b ri (i + 1) es
  end.

Definition finish_replay (n : Z) (r : ReplayEngine) : ReplayEngine :=
  let s := re_summary r in
  set_re_summary (mkSummary n (validation_errors s) (chunks_created s) (chunks_deleted s)
    (state_transitions s) (transfers_completed s) (transfers_failed s) (evictions s)
    (pressure_alerts s) (policy_decisions s) (Z.of_nat (size (re_chunks r))) (time_range s) (errors s)) r.

Definition replay (b : Build) (ri : bool) (es : list Tr.TraceEvent) : ReM ReplaySummary :=
  r <- gets id ;;
  let len := Z.of_nat (length es) in
  let max := if 0 <? rcfg_max_events (re_config r) then Z.min (rcfg_max_events (re_config r)) len else len in
  replay_loop b ri 0 (take (Z.to_nat max) es) ;;;
  modify (finish_replay max) ;;;
  gets re_summary.

Definition from_events (b : Build) (ri : bool) (es : list Tr.TraceEvent) (config : ReplayConfig)
    : outcome GhostError (ReplayEngine * ReplaySummary) :=
  let '(o, engine) := replay b ri es (Engine_new config) in
  let? summary := o in Ok (engine, summary).

Definition replay_n (b : Build) (ri : bool) (es : list Tr.TraceEvent) (n : nat) : ReM ReplaySummary :=
  let count := Nat.min n (length es) in replay b ri (take count es).

(** The loop of [replay_until]; the predicate carries its own state.  The
    result is the number of events counted. *)
Fixpoint until_loop {P} (b : Build) (ri : bool) (predicate : Tr.TraceEvent -> P -> bool * P) (p : P) (count : Z)
    (es : list Tr.TraceEvent) : ReM Z :=
  match es with
  | [] => ret count
  | e :: es =>
      let '(go, p) := predicate e p in
      if negb go then ret count else
      modify (set_event_count count) ;;;
      process_event b ri e ;;;
      r <- gets id ;;
      if stop_on_error (re_config r) && (0 <? validation_errors (re_summary r)) then ret count
      else
        count <- lift (arith b 64 (count + 1)) ;;
        until_loop b ri predicate p count es
  end.

Definition replay_until {P} (b : Build) (ri : bool) (es : list Tr.TraceEvent)
    (predicate : Tr.TraceEvent -> P -> bool * P) (p : P) : ReM ReplaySummary :=
  count <- until_loop b ri predicate p 0 es ;;
  modify (finish_replay count) ;;;
  gets re_summary.

(** ** The dry run *)

Record VState := mkV {
  v_errors : list ReplayValidationError;
  v_sm : StateMachine;
  v_chunks : gmap ChunkId ChunkState;
}.

Section validate.
Context (b : Build) (ri : bool).
(** Derived [Debug] of a trace event, used only in messages. *)
Context (event_debug : Tr.TraceEvent -> string).

Local Abbreviation VM := (M VState GhostError).

Definition v_push (i : Z) (event : Tr.TraceEvent) (msg : string) : VM unit :=
  modify (fun v => mkV (v_errors v ++ [mkRVE i (event_debug event) msg]) (v_sm v) (v_chunks v)).
Definition set_v_chunks (f : gmap ChunkId ChunkState -> gmap ChunkId ChunkState) (v : VState) : VState :=
  mkV (v_errors v) (v_sm v) (f (v_chunks v)).
Definition on_v_sm {A} (m : M StateMachine GhostError A) : VM A := fun v =>
  let '(o, sm) := m (v_sm v) in (o, mkV (v_errors v) sm (v_chunks v)).

(** [is_err]: an error becomes a value, a panic stays one. *)
Definition catch_err {S E A} (m : M S E A) : M S E bool := fun s =>
  let '(o, s') := m s in
  (match o with Ok _ => Ok false | Err _ => Ok true | Panic msg => Panic msg end, s').

Definition validate_event (i : Z) (event : Tr.TraceEvent) : VM unit :=
  match Tr.trace_chunk_id event with
  | None => ret tt
  | Some c =>
      match event with
      | Tr.ChunkCreated _ _ _ _ =>
          on_v_sm (register c) ;;;
          modify (set_v_chunks <[c := Allocated]>)
      | Tr.ChunkStateChanged _ from to _ =>
          v <- gets id ;;
          let current := default Allocated (v_chunks v !! c) in
          (if negb (bool_decide (current = from)) then v_push i event (from_mismatch from current) else ret tt) ;;;
          (if negb (is_valid_transition current to) then v_push i event (invalid_edge current to) else ret tt) ;;;
          failed <- catch_err (on_v_sm (transition b ri c to)) ;;
          (if failed : bool then v_push i event ("chunk " +:+ short_hex c +:+ " not found in state machine")
           else ret tt) ;;;
          modify (set_v_chunks <[c := to]>)
      | Tr.ChunkDeleted _ _ _ => modify (set_v_chunks (delete c))
      | _ => ret tt
      end
  end.

Fixpoint validate_loop (i : Z) (es : list Tr.TraceEvent) : VM unit :=
  match es with [] => ret tt | e :: es => validate_event i e ;;; validate_loop (i + 1) es end.

Definition validate (es : list Tr.TraceEvent) : outcome GhostError (list ReplayValidationError) :=
  let '(o, v) := validate_loop 0 es (mkV [] SM_new ∅) in
  let? _ := o in Ok (v_errors v).
End validate.

(** ** Clean traces

    [clean_step] is one step of a trace that neither walk has anything to say
    about, on the states the walk tracks and the tracker beside them. *)

Definition Walk : Type := gmap ChunkId ChunkState * StateMachine.

Definition clean_step (e : Tr.TraceEvent) (w : Walk) : option Walk :=
  let '(cur, sm) := w in
  match e with
  | Tr.ChunkCreated c _ _ _ =>
      match states sm !! c with
      | None => Some (<[c := Allocated]> cur, mkSM (<[c := Allocated]> (states sm)))
      | Some _ => None
      end
  | Tr.ChunkStateChanged c from to _ =>
      let current := default Allocated (cur !! c) in
      match states sm !! c with
      | Some s =>
          if bool_decide (current = from) && is_valid_transition current to && is_valid_transition s to
          then Some (<[c := to]> cur, mkSM (<[c := to]> (states sm))) else None
      | None => None
      end
  | Tr.ChunkDeleted c _ _ => Some (delete c cur, sm)
  | _ => Some w
  end.

Fixpoint clean_run (es : list Tr.TraceEvent) (w : Walk) : option Walk :=
  match es with [] => Some w | e :: es => clean_step e w ≫= clean_run es end.

(** Each counter has room for [n] more increments. *)
Definition room (n : Z) (r : ReplayEngine) : Prop :=
  forall c, 0 <= counter c (re_summary r) /\ counter c (re_summary r) + n < 2 ^ 64.

Definition walk_of (r : ReplayEngine) : Walk := (current_state <$> re_chunks r, re_sm r).

Lemma counter_set c d n s : counter d (set_counter c n s) = if bool_decide (c = d) then n else counter d s.
Proof. destruct c, d; done. Qed.

Lemma current_of_walk r c : current_of r c = default Allocated ((current_state <$> re_chunks r) !! c).
Proof. unfold current_of. rewrite lookup_fmap. by destruct (re_chunks r !! c). Qed.

Definition bumped (c : Counter) (r r' : ReplayEngine) : Prop :=
  walk_of r' = walk_of r /\ re_config r' = re_config r /\ re_chunks r' = re_chunks r /\
  errors (re_summary r') = errors (re_summary r) /\
  forall d, counter d (re_summary r') = counter d (re_summary r) + if bool_decide (c = d) then 1 else 0.

Lemma incr_wp b c r (Q : outcome GhostError unit -> ReplayEngine -> Prop) :
  room 1 r -> (forall r', bumped c r r' -> Q (Ok tt) r') -> wp (incr b c) Q r.
Proof.
  intros Hr HQ. unfold incr. do 2 wp_step. unfold id. wp_step. wp_step.
  destruct (Hr c). rewrite arith_in by (unfold in_u; lia). wp_step. apply HQ.
  unfold bumped. split_and!; [done..|]. intros d. cbn [re_summary set_re_summary]. rewrite counter_set.
  case_bool_decide; subst; lia.
Qed.

(** What every event leaves alone, whatever its outcome. *)
Definition grown (n : Z) (r r' : ReplayEngine) : Prop :=
  re_config r' = re_config r /\
  forall d, counter d (re_summary r) <= counter d (re_summary r') <= counter d (re_summary r) + n.

Lemma grown_refl r : grown 0 r r.
Proof. split; [done|]. intros d. lia. Qed.

Lemma grown_trans n m r1 r2 r3 : grown n r1 r2 -> grown m r2 r3 -> grown (n + m) r1 r3.
Proof.
  intros [H1 H2] [H3 H4]. split; [congruence|]. intros d. specialize (H2 d). specialize (H4 d). lia.
Qed.

Lemma grown_room n m r r' : room (n + m) r -> grown n r r' -> room m r'.
Proof. intros Hr [_ Hg] c. specialize (Hr c). specialize (Hg c). lia. Qed.

Lemma bumped_grown c r r' : bumped c r r' -> grown 1 r r'.
Proof. intros (_ & Hc & _ & _ & Hd). split; [done|]. intros d. rewrite Hd. case_bool_decide; lia. Qed.

Lemma add_error_wp b msg r (Q : outcome GhostError unit -> ReplayEngine -> Prop) :
  room 1 r ->
  (forall r', grown 1 r r' -> walk_of r' = walk_of r -> re_chunks r' = re_chunks r ->
     (forall d, d <> CErrors -> counter d (re_summary r') = counter d (re_summary r)) ->
     validation_errors (re_summary r') = validation_errors (re_summary r) + 1 -> Q (Ok tt) r') ->
  wp (add_error b msg) Q r.
Proof.
  intros Hr HQ. unfold add_error. wp_step. apply incr_wp; [done|]. intros r' Hb.
  pose proof (bumped_grown _ _ _ Hb) as Hg. destruct Hb as (Hw & Hc & Hm & _ & Hd).
  assert (forall d, d <> CErrors -> counter d (re_summary r') = counter d (re_summary r)) as Hd'.
  { intros d Hn. rewrite Hd, bool_decide_eq_false_2; [lia|done]. }
  wp_step. specialize (Hd CErrors) as He. simpl in He.
  destruct (length (errors (re_summary r')) <? 100)%nat; apply HQ; try done.
Qed.

Lemma on_sm_wp {A} (m : M StateMachine GhostError A) r (Q : outcome GhostError A -> ReplayEngine -> Prop) :
  wp m (fun o sm => Q o (set_re_sm sm r)) (re_sm r) -> wp (on_sm m) Q r.
Proof. unfold wp, on_sm. by destruct (m (re_sm r)). Qed.

Lemma move_chunk_walk c to m : current_state <$> move_chunk c to m = <[c := to]> (current_state <$> m).
Proof. unfold move_chunk. destruct (m !! c); by rewrite fmap_insert. Qed.

Definition event_post (e : Tr.TraceEvent) (r : ReplayEngine) (o : outcome GhostError unit) (r' : ReplayEngine) : Prop :=
  grown 3 r r' /\
  match clean_step e (walk_of r) with
  | Some w => o = Ok tt /\ walk_of r' = w /\ counter CErrors (re_summary r') = counter CErrors (re_summary r) /\
      errors (re_summary r') = errors (re_summary r)
  | None => validate_transitions (re_config r) = true -> o = Ok tt ->
      counter CErrors (re_summary r) < counter CErrors (re_summary r')
  end.

Lemma grown_le n m r r' : grown n r r' -> n <= m -> grown m r r'.
Proof. intros [H1 H2] Hn. split; [done|]. intros d. specialize (H2 d). lia. Qed.

(** An event that only counts. *)
Lemma count_only b c e r :
  c <> CErrors -> clean_step e (walk_of r) = Some (walk_of r) -> room 3 r -> wp (incr b c) (event_post e r) r.
Proof.
  intros Hc He Hr. apply incr_wp; [intros d; specialize (Hr d); lia|]. intros r' Hb.
  split; [eapply grown_le; [by eapply bumped_grown|lia]|]. rewrite He.
  destruct Hb as (Hw & _ & _ & Hx & Hd). split_and!; [done|done| |done].
  rewrite Hd, bool_decide_eq_false_2 by done. lia.
Qed.

(** Registration and transition on the engine's tracker. *)
Lemma on_register_wp c r (Q : outcome GhostError unit -> ReplayEngine -> Prop) :
  match states (re_sm r) !! c with
  | None => Q (Ok tt) (set_re_sm (mkSM (<[c := Allocated]> (states (re_sm r)))) r)
  | Some _ => forall e, Q (Err e) (set_re_sm (re_sm r) r)
  end -> wp (on_sm (register c)) Q r.
Proof.
  intros H. apply on_sm_wp. unfold register, wp, bind, gets, throw, modify, id. simpl.
  by destruct (states (re_sm r) !! c); simpl.
Qed.

Lemma on_transition_wp b ri c to r (Q : outcome GhostError ChunkState -> ReplayEngine -> Prop) :
  match states (re_sm r) !! c with
  | Some s => if is_valid_transition s to then Q (Ok to) (set_re_sm (mkSM (<[c := to]> (states (re_sm r)))) r)
              else forall o, o <> Ok to -> is_ok o = false -> Q o (set_re_sm (re_sm r) r)
  | None => forall o, o <> Ok to -> is_ok o = false -> Q o (set_re_sm (re_sm r) r)
  end -> wp (on_sm (transition b ri c to)) Q r.
Proof.
  intros H. apply on_sm_wp. unfold wp. destruct (states (re_sm r) !! c) as [s|] eqn:E.
  - destruct (is_valid_transition s to) eqn:Ev.
    + by rewrite (transition_valid b ri c s).
    + rewrite (transition_invalid b ri c s); [|done|unfold edge; by rewrite Ev]. destruct b; by apply H.
  - rewrite transition_unregistered by done. by apply H.
Qed.

Lemma process_created b c sz tier ts r :
  room 3 r ->
  wp (incr b CCreated ;;; on_sm (register c) ;;; modify (set_re_chunks <[c := mkCRS Allocated (Some tier) true]>))
    (event_post (Tr.ChunkCreated c sz tier ts) r) r.
Proof.
  intros Hr. wp_step. apply incr_wp; [intros d; specialize (Hr d); lia|]. intros r1 Hb.
  pose proof (grown_le _ 3 _ _ (bumped_grown _ _ _ Hb) ltac:(lia)) as Hg.
  destruct Hb as (Hw & _ & Hm & Hx & Hd). wp_step. apply on_register_wp.
  injection Hw as _ Hsm. unfold event_post, clean_step, walk_of. rewrite Hsm.
  destruct (states (re_sm r) !! c) as [s|] eqn:E; [by intros e; split|].
  wp_step. split; [done|]. split_and!; [done| |by rewrite Hd, Z.add_0_r|done].
  cbn. by rewrite fmap_insert, Hm.
Qed.

(** The check adds no error exactly when the change starts where the chunk is
    and follows an edge. *)
Lemma check_change_wp b config current from to r (Q : outcome GhostError unit -> ReplayEngine -> Prop) :
  room 2 r ->
  (forall r', grown 2 r r' -> walk_of r' = walk_of r -> re_chunks r' = re_chunks r ->
     (if bool_decide (current = from) && is_valid_transition current to then r' = r
      else validate_transitions config = true -> counter CErrors (re_summary r) < counter CErrors (re_summary r')) ->
     Q (Ok tt) r') ->
  wp (check_change b config current from to) Q r.
Proof.
  intros Hr HQ. pose proof (grown_le _ 2 _ _ (grown_refl r) ltac:(lia)) as H0. unfold check_change.
  destruct (validate_transitions config); [|wp_step; apply HQ; [done..|by destruct (_ && _)]].
  wp_step. case_bool_decide as Hf; simpl.
  - wp_step. destruct (is_valid_transition current to); simpl; [wp_step; by apply HQ|].
    apply add_error_wp; [intros d; specialize (Hr d); lia|]. intros r1 Hg Hw Hm _ He.
    apply HQ; [eapply grown_le; [exact Hg|lia]|done..|]. intros _. simpl. lia.
  - apply add_error_wp; [intros d; specialize (Hr d); lia|]. intros r1 Hg Hw Hm _ He.
    destruct (is_valid_transition current to); simpl.
    + wp_step. apply HQ; [eapply grown_le; [exact Hg|lia]|done..|]. intros _. simpl. lia.
    + apply add_error_wp; [by apply (grown_room 1 1 r)|]. intros r2 Hg2 Hw2 Hm2 _ He2.
      apply HQ; [by apply (grown_trans 1 1 r r1 r2)|by rewrite Hw2|by rewrite Hm2|]. intros _. simpl. lia.
Qed.

Lemma process_changed b ri c from to ts r :
  room 3 r ->
  wp (incr b CTransitions ;;;
      r <- gets id ;;
      let current := current_of r c in
      check_change b (re_config r) current from to ;;;
      if is_valid_transition current to then
        on_sm (transition b ri c to) ;;; modify (set_re_chunks (move_chunk c to))
      else ret tt)
    (event_post (Tr.ChunkStateChanged c from to ts) r) r.
Proof.
  intros Hr. wp_step. apply incr_wp; [intros d; specialize (Hr d); lia|]. intros r1 Hb.
  pose proof (bumped_grown _ _ _ Hb) as Hg. pose proof (grown_room 1 2 r r1 Hr Hg) as Hr1.
  destruct Hb as (Hw & Hcfg & Hm & Hx & Hd). do 2 wp_step. unfold id. cbv zeta. wp_step.
  rewrite current_of_walk, Hm. set (current := default _ _). apply check_change_wp; [done|].
  intros r2 Hg2 Hw2 Hm2 Hif. pose proof (grown_trans 1 2 _ _ _ Hg Hg2) as Hg3.
  assert (Hsm : re_sm r2 = re_sm r) by (unfold walk_of in *; congruence).
  assert (Hm' : re_chunks r2 = re_chunks r) by congruence.
  unfold event_post, clean_step. cbn [walk_of]. unfold walk_of. cbv iota. fold current.
  assert (Hce : counter CErrors (re_summary r1) = counter CErrors (re_summary r)) by (rewrite Hd; simpl; lia).
  destruct (is_valid_transition current to) eqn:Ev.
  - wp_step. apply on_transition_wp. rewrite Hsm. rewrite andb_true_r in *.
    destruct (states (re_sm r) !! c) as [s|] eqn:Es; [destruct (is_valid_transition s to) eqn:Es2|].
    + wp_step. split; [done|]. case_bool_decide; simpl in *.
      * subst r2. split_and!; [done|by rewrite move_chunk_walk, Hm|done..].
      * intros Hv _. rewrite Hcfg in Hif. specialize (Hif Hv). simpl in *. lia.
    + intros o _ Ho. destruct o; [done|..]; (split; [done|]); rewrite andb_false_r; done.
    + intros o _ Ho. destruct o; [done|..]; split; done.
  - wp_step. rewrite andb_false_r in *. simpl in *. rewrite Hcfg in Hif.
    split; [done|]. destruct (states (re_sm r) !! c); intros Hv _; specialize (Hif Hv); lia.
Qed.

Lemma process_event_spec b ri e r : room 3 r -> wp (process_event b ri e) (event_post e r) r.
Proof.
  intros Hr. unfold process_event. wp_step. wp_step. set (r0 := set_re_summary _ r).
  assert (Hr0 : room 3 r0) by (intros d; specialize (Hr d); by destruct d).
  assert (forall o r', event_post e r0 o r' -> event_post e r o r') as Hpost.
  { intros o r' [[H1 H2] H3]. split; [|exact H3]. split; [exact H1|]. intros d. specialize (H2 d). by destruct d. }
  eapply wp_mono; [|exact Hpost].
  destruct e; try (by apply count_only);
    try (wp_step; split; [eapply grown_le; [apply grown_refl|lia]|done]).
  - by apply process_created.
  - wp_step. apply incr_wp; [intros d; specialize (Hr0 d); lia|]. intros r1 Hb.
    pose proof (grown_le _ 3 _ _ (bumped_grown _ _ _ Hb) ltac:(lia)) as Hg.
    destruct Hb as (Hw & _ & Hm & Hx & Hd). wp_step. split; [done|]. cbn [clean_step walk_of].
    injection Hw as _ Hsm. split_and!; [done| |by rewrite Hd, Z.add_0_r|done].
    unfold walk_of. cbn. by rewrite fmap_delete, Hm, Hsm.
  - by apply process_changed.
Qed.

(** The loop: a clean trace leaves the error count alone and follows the walk;
    any other trace, when it is validated, stops with an error or counts one. *)
Lemma replay_loop_spec b ri es : forall i r,
  room (3 * Z.of_nat (length es)) r ->
  wp (replay_loop b ri i es) (fun o r' =>
    grown (3 * Z.of_nat (length es)) r r' /\
    (counter CErrors (re_summary r) = 0 ->
     match clean_run es (walk_of r) with
     | Some w => o = Ok tt /\ walk_of r' = w /\ counter CErrors (re_summary r') = 0 /\
         errors (re_summary r') = errors (re_summary r)
     | None => validate_transitions (re_config r) = true -> o = Ok tt -> 0 < counter CErrors (re_summary r')
     end)) r.
Proof.
  induction es as [|e es IH]; intros i r Hr; cbn [replay_loop clean_run].
  - wp_step. split; [apply grown_refl|]. done.
  - do 2 wp_step. wp_step. set (r0 := set_event_count i r).
    assert (Hr0 : room (3 + 3 * Z.of_nat (length es)) r0) by (intros d; specialize (Hr d); simpl length in Hr; simpl; lia).
    eapply wp_mono; [apply process_event_spec; intros d; specialize (Hr0 d); lia|].
    intros o r1 [Hg He]. change (walk_of r0) with (walk_of r) in He.
    pose proof (grown_room 3 _ _ _ Hr0 Hg) as Hr1.
    assert (Hg' : forall r2, grown (3 * Z.of_nat (length es)) r1 r2 -> grown (3 * Z.of_nat (length (e :: es))) r r2).
    { intros r2 Hg2. replace (3 * Z.of_nat (length (e :: es))) with (3 + 3 * Z.of_nat (length es)) by (simpl length; lia).
      exact (grown_trans _ _ _ _ _ Hg Hg2). }
    assert (Hcfg : re_config r1 = re_config r) by apply Hg.
    destruct o as [[]|err|msg].
    2,3: split; [apply Hg'; eapply grown_le; [apply grown_refl|lia]|]; intros _;
      destruct (clean_step e (walk_of r)) as [w|]; [by destruct He|done].
    do 2 wp_step. unfold id.
    destruct (stop_on_error (re_config r1) && (0 <? validation_errors (re_summary r1))) eqn:Es.
    + wp_step. apply andb_true_iff in Es as [_ Es%Z.ltb_lt]. split; [apply Hg'; eapply grown_le; [apply grown_refl|lia]|].
      intros H0. destruct (clean_step e (walk_of r)) as [w|]; [|intros _ _; exact Es].
      destruct He as (_ & _ & He & _). simpl in *. lia.
    + eapply wp_mono; [apply IH, Hr1|]. intros o r2 [Hg2 H2]. split; [by apply Hg'|]. intros H0.
      destruct (clean_step e (walk_of r)) as [w|] eqn:Ec; simpl.
      * destruct He as (_ & <- & He & Hx). change (counter CErrors (re_summary r0)) with (counter CErrors (re_summary r)) in He.
        rewrite Hcfg in H2. specialize (H2 ltac:(lia)). destruct (clean_run es (walk_of r1)); [|done].
        destruct H2 as (-> & -> & H2 & ->). done.
      * intros Hv Ho. specialize (He Hv eq_refl). destruct Hg2 as [_ Hg2]. specialize (Hg2 CErrors).
        change (counter CErrors (re_summary r0)) with (counter CErrors (re_summary r)) in He. cbn in He, Hg2, H0 |- *. lia.
Qed.

Lemma room_new n config : n < 2 ^ 64 -> room n (Engine_new config).
Proof. intros Hn c. destruct c; simpl; lia. Qed.

(** What [from_events] returns, in terms of the walk. *)
Lemma from_events_spec b ri es config :
  rcfg_max_events config = 0 -> 3 * Z.of_nat (length es) < 2 ^ 64 ->
  match clean_run es (∅, SM_new) with
  | Some w => exists engine s, from_events b ri es config = Ok (engine, s) /\ walk_of engine = w /\
      re_summary engine = s /\ validation_errors s = 0 /\ errors s = [] /\
      events_replayed s = Z.of_nat (length es) /\ unique_chunks s = Z.of_nat (size w.1)
  | None => validate_transitions config = true ->
      forall engine s, from_events b ri es config = Ok (engine, s) -> 0 < validation_errors s
  end.
Proof.
  intros Hmax Hlen. pose proof (replay_loop_spec b ri es 0 (Engine_new config) (room_new _ _ Hlen)) as H.
  unfold from_events, replay, bind, gets, modify. cbn [re_config Engine_new id]. rewrite Hmax. cbn [Z.ltb Z.compare].
  rewrite Nat2Z.id, take_ge by lia. unfold wp in H.
  destruct (replay_loop b ri 0 es (Engine_new config)) as [o r]. cbn [fst snd] in H. destruct H as [_ H].
  assert (walk_of (Engine_new config) = (∅, SM_new)) as Hw by (unfold walk_of; cbn; by rewrite fmap_empty).
  rewrite Hw in H. specialize (H eq_refl). destruct (clean_run es (∅, SM_new)) as [w|].
  - destruct H as (-> & <- & He & Hx). eexists _, _. split; [reflexivity|]. split_and!; try done.
    simpl. unfold walk_of. simpl. by rewrite map_size_fmap.
  - intros Hv engine s. destruct o as [[]|err|msg]; simpl; [|done..]. intros [= <- <-]. by apply H.
Qed.

(** ** The dry run accepts the same traces *)

Section validate_facts.
Context (b : Build) (ri : bool) (event_debug : Tr.TraceEvent -> string).

Definition vwalk (v : VState) : Walk := (v_chunks v, v_sm v).

Lemma maybe_push_wp (c : bool) i e msg v (Q : outcome GhostError unit -> VState -> Prop) :
  (forall l, (if c then l <> [] else l = []) -> Q (Ok tt) (mkV (v_errors v ++ l) (v_sm v) (v_chunks v))) ->
  wp (if c then v_push event_debug i e msg else ret tt) Q v.
Proof.
  intros H. destruct c; unfold v_push; wp_step; [by apply H|].
  specialize (H [] eq_refl). rewrite app_nil_r in H. by destruct v.
Qed.

Lemma catch_transition_wp c to v (Q : outcome GhostError bool -> VState -> Prop) :
  match states (v_sm v) !! c with
  | Some s => if is_valid_transition s to
              then Q (Ok false) (mkV (v_errors v) (mkSM (<[c := to]> (states (v_sm v)))) (v_chunks v))
              else forall o, o <> Ok false -> Q o v
  | None => Q (Ok true) v
  end -> wp (catch_err (on_v_sm (transition b ri c to))) Q v.
Proof.
  intros H. unfold wp, catch_err, on_v_sm. destruct (states (v_sm v) !! c) as [s|] eqn:E.
  - destruct (is_valid_transition s to) eqn:Ev.
    + by rewrite (transition_valid b ri c s).
    + rewrite (transition_invalid b ri c s); [|done|unfold edge; by rewrite Ev].
      destruct b; simpl; destruct v; by apply H.
  - rewrite transition_unregistered by done. simpl. by destruct v.
Qed.

Lemma validate_changed i c from to ts v :
  wp (validate_event b ri event_debug i (Tr.ChunkStateChanged c from to ts)) (fun o v' =>
    (exists l, v_errors v' = v_errors v ++ l) /\
    match clean_step (Tr.ChunkStateChanged c from to ts) (vwalk v) with
    | Some w => o = Ok tt /\ vwalk v' = w /\ v_errors v' = v_errors v
    | None => o = Ok tt -> v_errors v' <> []
    end) v.
Proof.
  unfold validate_event. cbn [Tr.trace_chunk_id]. do 2 wp_step. change (id v) with v. cbv zeta. cbn [clean_step vwalk].
  generalize (default Allocated (v_chunks v !! c)) as current. intros current. wp_step. apply maybe_push_wp. intros l1 H1. cbn [v_errors v_sm v_chunks].
  wp_step. apply maybe_push_wp. intros l2 H2. cbn [v_errors v_sm v_chunks]. rewrite <- app_assoc.
  wp_step. apply catch_transition_wp. cbn [v_errors v_sm v_chunks].
  destruct (states (v_sm v) !! c) as [s|] eqn:Es.
  - destruct (is_valid_transition s to) eqn:Es2.
    + wp_step. cbv beta. wp_step. wp_step. cbn. split; [by eexists|].
      rewrite andb_true_r. case_bool_decide; simpl in H1 |- *; [|intros _; by destruct (v_errors v), l1].
      destruct (is_valid_transition current to); simpl in H2 |- *; subst; [by rewrite app_nil_r|].
      intros _. by destruct (v_errors v), l2.
    + rewrite andb_false_r. intros [[]|err|msg] Ho; [|done|..].
      * wp_step. apply (maybe_push_wp true). intros l3 H3. wp_step. cbn. split; [by rewrite <- app_assoc; eexists|].
        intros _. by destruct (v_errors v), l1, l2, l3.
      * split; [by eexists|done].
      * split; [by eexists|done].
  - wp_step. apply (maybe_push_wp true). intros l3 H3. wp_step. cbn. split; [by rewrite <- app_assoc; eexists|].
    intros _. by destruct (v_errors v), l1, l2, l3.
Qed.

Lemma validate_event_spec i e v :
  wp (validate_event b ri event_debug i e) (fun o v' =>
    (exists l, v_errors v' = v_errors v ++ l) /\
    match clean_step e (vwalk v) with
    | Some w => o = Ok tt /\ vwalk v' = w /\ v_errors v' = v_errors v
    | None => o = Ok tt -> v_errors v' <> []
    end) v.
Proof.
  assert (Hnil : exists l, v_errors v = v_errors v ++ l) by (exists []; by rewrite app_nil_r).
  destruct e; unfold validate_event; cbn [Tr.trace_chunk_id clean_step vwalk];
    try (wp_step; by split).
  - wp_step. unfold wp, on_v_sm. destruct (states (v_sm v) !! chunk_id) as [s|] eqn:E.
    + destruct (register_taken chunk_id s (v_sm v) E) as [H1 H2].
      destruct (register chunk_id (v_sm v)) as [[]]; simpl in *; [done|by split..].
    + rewrite register_new by done. by split.
  - apply validate_changed.
Qed.

Lemma validate_loop_spec es : forall i v,
  wp (validate_loop b ri event_debug i es) (fun o v' =>
    (exists l, v_errors v' = v_errors v ++ l) /\
    (v_errors v = [] ->
     match clean_run es (vwalk v) with
     | Some w => o = Ok tt /\ vwalk v' = w /\ v_errors v' = []
     | None => o = Ok tt -> v_errors v' <> []
     end)) v.
Proof.
  induction es as [|e es IH]; intros i v; cbn [validate_loop clean_run].
  - wp_step. split; [exists []; by rewrite app_nil_r|done].
  - wp_step. eapply wp_mono; [apply validate_event_spec|]. intros o v1 [[l Hl] He].
    destruct o as [[]|err|msg].
    2,3: split; [by eexists|]; intros _; destruct (clean_step e (vwalk v)); [by destruct He|done].
    eapply wp_mono; [apply IH|]. intros o v2 [[l2 Hl2] H2]. split; [rewrite Hl2, Hl, <- app_assoc; by eexists|].
    intros H0. destruct (clean_step e (vwalk v)) as [w|]; simpl.
    + destruct He as (_ & <- & He). rewrite H0 in He. by apply H2.
    + intros _. specialize (He eq_refl). rewrite Hl2. by destruct (v_errors v1).
Qed.

Lemma validate_clean es :
  validate b ri event_debug es = Ok [] <-> is_Some (clean_run es (∅, SM_new)).
Proof.
  pose proof (validate_loop_spec es 0 (mkV [] SM_new ∅)) as H. unfold wp in H. unfold validate.
  destruct (validate_loop b ri event_debug 0 es (mkV [] SM_new ∅)) as [o v]. cbn [fst snd v_errors] in H.
  destruct H as [_ H]. specialize (H eq_refl). unfold vwalk in H. cbn [v_chunks v_sm] in H.
  destruct (clean_run es (∅, SM_new)) as [w|].
  - destruct H as (-> & _ & Hv). simpl. rewrite Hv. split; [by eexists|done].
  - split; [|by intros [? ?]]. destruct o as [[]|err|msg]; simpl; [|done..]. intros [= Hv]. by destruct H.
Qed.
End validate_facts.

(** C26: the dry run and the replay agree: [validate] reports no error on a
    trace exactly when a validating replay of it succeeds and counts no
    validation error, whatever the build and whether or not it stops at the
    first error. *)
Theorem validate_iff_replay b ri event_debug es config :
  validate_transitions config = true -> rcfg_max_events config = 0 -> 3 * Z.of_nat (length es) < 2 ^ 64 ->
  validate b ri event_debug es = Ok [] <->
  exists engine s, from_events b ri es config = Ok (engine, s) /\ validation_errors s = 0.
Proof.
  intros Hv Hmax Hlen. rewrite validate_clean. pose proof (from_events_spec b ri es config Hmax Hlen) as H.
  destruct (clean_run es (∅, SM_new)) as [w|].
  - destruct H as (engine & s & H1 & _ & _ & H2 & _). split; [by eauto|by eexists].
  - split; [by intros [? ?]|]. intros (engine & s & H1 & H2). specialize (H Hv _ _ H1). lia.
Qed.

(** ** Round trip with the tracker *)

Lemma clean_run_app es1 es2 w : clean_run (es1 ++ es2) w = clean_run es1 w ≫= clean_run es2.
Proof. revert w. induction es1 as [|e es1 IH]; intros w; [done|]. simpl. destruct (clean_step e w); [apply IH|done]. Qed.

Lemma clean_trace b ri ops : forall sm,
  Forall keeps ops ->
  clean_run (trace_of_run b ri ops sm) (states sm, sm) =
  Some (states (run b ri ops.*1 sm), run b ri ops.*1 sm).
Proof.
  induction ops as [|[o [[sz tier] ts]] ops IH]; intros sm Hk; [done|].
  apply Forall_cons in Hk as [Ho Hk]. cbn [trace_of_run]. rewrite clean_run_app.
  change (run b ri ((o, (sz, tier, ts)) :: ops).*1 sm) with (run b ri ops.*1 (apply_op b ri o sm)).
  rewrite <- IH by done. unfold trace_of_op, get_state. destruct o as [c|c next|c]; [..|done].
  - destruct (states sm !! c) as [s|] eqn:E; cbn [clean_run mbind option_bind clean_step].
    + cbn [apply_op]. by destruct (register_taken c s sm E) as [_ ->].
    + rewrite E. cbn [apply_op mbind option_bind clean_run]. by rewrite register_new.
  - destruct (states sm !! c) as [s|] eqn:E; [destruct (is_valid_transition s next) eqn:Ev|].
    + cbn [clean_run mbind option_bind clean_step]. rewrite E. simpl default. rewrite bool_decide_eq_true_2 by done.
      rewrite Ev. cbn [andb mbind option_bind apply_op]. by rewrite (transition_valid b ri c s).
    + cbn [clean_run mbind option_bind apply_op].
      rewrite (transition_invalid b ri c s); [by destruct b|done|unfold edge; by rewrite Ev].
    + cbn [clean_run mbind option_bind apply_op]. by rewrite transition_unregistered.
Qed.

Lemma trace_of_run_length b ri ops : forall sm, (length (trace_of_run b ri ops sm) <= length ops)%nat.
Proof.
  induction ops as [|[o [[sz tier] ts]] ops IH]; intros sm; [done|]. cbn [trace_of_run length]. rewrite length_app.
  specialize (IH (apply_op b ri o sm)).
  enough (length (trace_of_op o (sz, tier, ts) sm) <= 1)%nat by lia.
  unfold trace_of_op. repeat case_match; simpl; lia.
Qed.

(** C27: the trace of any run of the tracker without removals replays, under
    every configuration without an event limit, to exactly the tracker's
    state, with no validation error and every chunk counted once. *)
Theorem replay_roundtrip b ri ops config :
  Forall keeps ops -> rcfg_max_events config = 0 -> 3 * Z.of_nat (length ops) < 2 ^ 64 ->
  exists engine s, from_events b ri (trace_of_run b ri ops SM_new) config = Ok (engine, s) /\
    re_sm engine = run b ri ops.*1 SM_new /\ validation_errors s = 0 /\ errors s = [] /\
    unique_chunks s = SM_len (run b ri ops.*1 SM_new).
Proof.
  intros Hk Hmax Hlen. pose proof (trace_of_run_length b ri ops SM_new) as Hl.
  pose proof (from_events_spec b ri (trace_of_run b ri ops SM_new) config Hmax ltac:(lia)) as H.
  pose proof (clean_trace b ri ops SM_new Hk) as Hc. change (states SM_new) with (∅ : gmap ChunkId ChunkState) in Hc.
  rewrite Hc in H. destruct H as (engine & s & H1 & H2 & _ & H3 & H4 & _ & H5).
  exists engine, s. split_and!; [done|by injection H2|done..].
Qed.

(** ** Where replay departs from its documentation *)

Module ReplayExample.
Definition c1 : ChunkId := mkChunkId [byte_of_Z 1].
Definition c2 : ChunkId := mkChunkId [byte_of_Z 2].

Definition ops : list (Op * (Z * TierId * Z)) :=
  [(ORegister c1, (100, Ram, 1)); (OTransition c1 Stored, (0, Ram, 2)); (ORegister c1, (7, Disk, 3));
   (ORegister c2, (50, Disk, 4)); (OTransition c2 Stored, (0, Disk, 5)); (OTransition c1 Migrating, (0, Ram, 6))].

Lemma replay_roundtrip_witness :
  exists engine s, from_events Debug true (trace_of_run Debug true ops SM_new) ReplayConfig_default = Ok (engine, s) /\
    re_sm engine = run Debug true ops.*1 SM_new /\ validation_errors s = 0 /\ errors s = [] /\
    unique_chunks s = SM_len (run Debug true ops.*1 SM_new).
Proof.
  apply (replay_roundtrip Debug true ops ReplayConfig_default); [|reflexivity|vm_compute; reflexivity].
  repeat constructor.
Defined.

Lemma validate_iff_replay_witness :
  let es := trace_of_run Release true ops SM_new in
  let stop := mkRCfg true true 0 in
  validate Release true Tr.event_type es = Ok [] <->
  exists engine s, from_events Release true es stop = Ok (engine, s) /\ validation_errors s = 0.
Proof.
  apply (validate_iff_replay Release true Tr.event_type _ (mkRCfg true true 0)); [reflexivity..|vm_compute; reflexivity].
Defined.

(** A chunk that is created, deleted and created again cannot be replayed:
    deletion leaves it in the tracker. *)
Lemma recreation_fails b ri config :
  rcfg_max_events config = 0 ->
  exists e, from_events b ri [Tr.ChunkCreated c1 8 Ram 1; Tr.ChunkDeleted c1 Ram 2; Tr.ChunkCreated c1 8 Ram 3] config = Err e.
Proof. destruct config as [[] [] max], b; simpl; intros ->; eexists; vm_compute; reflexivity. Qed.

(** A state change of a chunk the trace never created ends the replay with an
    error, although [stop_on_error] is off. *)
Lemma unknown_chunk_aborts b ri :
  exists e, from_events b ri [Tr.ChunkStateChanged c1 Allocated Stored 1; Tr.DaemonStopping 2] ReplayConfig_default = Err e.
Proof. destruct b; eexists; vm_compute; reflexivity. Qed.

(** The dry run panics in a debug build on the trace it is meant to report. *)
Lemma validate_panics ri dbg :
  is_panic (validate Debug ri dbg [Tr.ChunkCreated c1 8 Ram 1; Tr.ChunkStateChanged c1 Allocated Failed 2]) = true.
Proof. vm_compute. reflexivity. Qed.

(** Stopping at the first error still reports every event as replayed, and the
    [(0, 0)] sentinel forgets an event at time 0. *)
Lemma early_stop_count :
  exists engine s, from_events Release true
    [Tr.ChunkCreated c1 8 Ram 0; Tr.ChunkStateChanged c1 Stored Cached 5; Tr.DaemonStopping 9] (mkRCfg true true 0) = Ok (engine, s) /\
    events_replayed s = 3 /\ re_event_count engine = 1 /\ time_range s = (5, 5).
Proof. eexists _, _. split; [vm_compute; reflexivity|done]. Qed.
End ReplayExample.
