(* ===== verification/TraceInvariants.v ===== *)
(** * Checks over whole traces: [ghost-replay/src/invariants.rs]

    Six checks, each a walk over the trace that collects violations, behind
    one interface; the validator concatenates what its checks find.  Each of
    the six default checks is characterised exactly, and traces of tracker runs
    pass them. *)

From Stdlib Require Import ZArith Lia.
From stdpp Require Import base gmap strings pretty list sorting.
From S2P Require Import Prelude CoreTypes ChunkState Trace Reconstruct.

Open Scope rust_scope.

Inductive ViolationSeverity := SevInfo | SevWarning | SevError | SevCritical.

Definition violation_severity_display (s : ViolationSeverity) : string :=
  match s with SevInfo => "INFO" | SevWarning => "WARN" | SevError => "ERROR" | SevCritical => "CRITICAL" end.

Record InvariantViolation := mkViol {
  vi_invariant : string;
  vi_severity : ViolationSeverity;
  vi_message : string;
  vi_event_index : option nat;
  vi_chunk_id : option ChunkId;
}.

Definition violation_display (v : InvariantViolation) : string :=
  "[" +:+ violation_severity_display (vi_severity v) +:+ "] " +:+ vi_message v +:+ " (invariant=" +:+ vi_invariant v
  +:+ ", chunk=" +:+ default EmptyString (short_hex <$> vi_chunk_id v)
  +:+ ", event=" +:+ default EmptyString (pretty <$> vi_event_index v) +:+ ")".

(** The trait: a name and a check. *)
Record ReplayInvariant := mkInv {
  inv_name : string;
  inv_validate : list Tr.TraceEvent -> list InvariantViolation;
}.

Record InvariantValidator := mkValidator { validator_invariants : list ReplayInvariant }.
Definition Validator_new : InvariantValidator := mkValidator [].
Definition inv_register (i : ReplayInvariant) (v : InvariantValidator) : InvariantValidator :=
  mkValidator (validator_invariants v ++ [i]).
Definition validator_validate (v : InvariantValidator) (es : list Tr.TraceEvent) : list InvariantViolation :=
  concat ((fun i => inv_validate i es) <$> validator_invariants v).
Definition validator_len (v : InvariantValidator) : nat := length (validator_invariants v).
Definition validator_is_empty (v : InvariantValidator) : bool :=
  match validator_invariants v with [] => true | _ => false end.

(** A walk with a state and the violations so far. *)
Fixpoint walk {S} (step : nat -> Tr.TraceEvent -> S -> S * list InvariantViolation) (i : nat)
    (es : list Tr.TraceEvent) (s : S) : S * list InvariantViolation :=
  match es with
  | [] => (s, [])
  | e :: es =>
      let '(s1, v1) := step i e s in
      let '(s2, v2) := walk step (Datatypes.S i) es s1 in (s2, v1 ++ v2)
  end.

(** ** The six checks *)

Definition orphan_step (i : nat) (e : Tr.TraceEvent) (s : gmap ChunkId nat * gmap ChunkId bool)
    : (gmap ChunkId nat * gmap ChunkId bool) * list InvariantViolation :=
  let '(started, completed) := s in
  match e with
  | Tr.TransferStarted job _ =>
      let key := job_chunk job in
      ((<[key := i]> started, match completed !! key with Some _ => completed | None => <[key := false]> completed end), [])
  | Tr.TransferCompleted c _ _ _ _ _ => ((started, <[c := true]> completed), [])
  | Tr.TransferFailed c _ _ _ _ _ => ((started, <[c := true]> completed), [])
  | _ => (s, [])
  end.

Definition NoOrphanedTransfers : ReplayInvariant :=
  let name := "NoOrphanedTransfers" in
  mkInv name (fun es =>
    let '((started, completed), _) := walk orphan_step 0 es (∅, ∅) in
    omap (fun x : ChunkId * nat =>
      if default false (completed !! x.1) then None
      else Some (mkViol name SevError
        ("Transfer started for chunk " +:+ short_hex x.1 +:+ " at event " +:+ pretty x.2 +:+ " but never completed or failed")
        (Some x.2) (Some x.1))) (btree_iter started)).

Definition illegal_step (name : string) (i : nat) (e : Tr.TraceEvent) (last : gmap ChunkId ChunkState)
    : gmap ChunkId ChunkState * list InvariantViolation :=
  match e with
  | Tr.ChunkStateChanged c from to _ =>
      (<[c := to]> last,
       (match last !! c with
        | Some expected =>
            if negb (bool_decide (expected = from)) then
              [mkViol name SevError ("State transition for chunk " +:+ short_hex c +:+ " at event " +:+ pretty i
                +:+ ": expected from=" +:+ state_debug expected +:+ " but got from=" +:+ state_debug from) (Some i) (Some c)]
            else []
        | None => []
        end) ++
       (if negb (is_valid_transition from to) then
          [mkViol name SevError ("Invalid state transition for chunk " +:+ short_hex c +:+ " at event " +:+ pretty i
            +:+ ": " +:+ state_debug from +:+ " -> " +:+ state_debug to) (Some i) (Some c)]
        else []))
  | _ => (last, [])
  end.

Definition NoIllegalTransitions : ReplayInvariant :=
  let name := "NoIllegalTransitions" in mkInv name (fun es => (walk (illegal_step name) 0 es ∅).2).

Definition dangling_step (i : nat) (e : Tr.TraceEvent) (s : gmap ChunkId bool * gmap ChunkId bool)
    : (gmap ChunkId bool * gmap ChunkId bool) * list InvariantViolation :=
  let '(created, deleted) := s in
  match e with
  | Tr.ChunkCreated c _ _ _ => ((<[c := true]> created, deleted), [])
  | Tr.ChunkDeleted c _ _ => ((created, <[c := true]> deleted), [])
  | _ => (s, [])
  end.

Definition NoDanglingAllocations : ReplayInvariant :=
  let name := "NoDanglingAllocations" in
  mkInv name (fun es =>
    let '((created, deleted), _) := walk dangling_step 0 es (∅, ∅) in
    omap (fun x : ChunkId * bool =>
      if default false (created !! x.1) then None
      else Some (mkViol name SevWarning ("Chunk " +:+ short_hex x.1 +:+ " was deleted but never appeared as created")
        None (Some x.1))) (btree_iter deleted)).

Definition regression_step (name : string) (i : nat) (e : Tr.TraceEvent) (last : option Z)
    : option Z * list InvariantViolation :=
  let ts := Tr.timestamp e in
  (Some ts,
   match last with
   | Some l =>
       if ts <? l then
         [mkViol name SevError ("Timestamp regression at event " +:+ pretty i +:+ ": " +:+ pretty ts +:+ " < " +:+ pretty l)
            (Some i) (Tr.trace_chunk_id e)]
       else []
   | None => []
   end).

Definition NoTimestampRegression : ReplayInvariant :=
  let name := "NoTimestampRegression" in mkInv name (fun es => (walk (regression_step name) 0 es None).2).

Definition pending_step (i : nat) (e : Tr.TraceEvent) (pending : gmap ChunkId nat)
    : gmap ChunkId nat * list InvariantViolation :=
  match e with
  | Tr.TransferStarted job _ => (<[job_chunk job := i]> pending, [])
  | Tr.TransferCompleted c _ _ _ _ _ => (delete c pending, [])
  | Tr.TransferFailed c _ _ _ _ _ => (delete c pending, [])
  | Tr.TransferCancelled c _ _ _ => (delete c pending, [])
  | _ => (pending, [])
  end.

Definition NoMissingCompletions : ReplayInvariant :=
  let name := "NoMissingCompletions" in
  mkInv name (fun es =>
    (fun x : ChunkId * nat => mkViol name SevError
      ("Transfer for chunk " +:+ short_hex x.1 +:+ " started at event " +:+ pretty x.2
       +:+ " but never completed, failed, or was cancelled") (Some x.2) (Some x.1))
    <$> btree_iter (walk pending_step 0 es ∅).1).

Definition consistency_step (name : string) (i : nat) (e : Tr.TraceEvent) (cs : gmap ChunkId ChunkState)
    : gmap ChunkId ChunkState * list InvariantViolation :=
  match e with
  | Tr.ChunkCreated c _ _ _ =>
      (<[c := Allocated]> cs,
       match cs !! c with
       | Some existing => [mkViol name SevError ("Chunk " +:+ short_hex c +:+ " created at event " +:+ pretty i
           +:+ " but already in state " +:+ state_debug existing) (Some i) (Some c)]
       | None => []
       end)
  | Tr.ChunkDeleted c _ _ =>
      (delete c cs,
       match cs !! c with
       | Some _ => []
       | None => [mkViol name SevWarning ("Chunk " +:+ short_hex c +:+ " deleted at event " +:+ pretty i
           +:+ " but was never tracked") (Some i) (Some c)]
       end)
  | Tr.ChunkStateChanged c from to _ =>
      (<[c := to]> cs,
       match cs !! c with
       | Some current =>
           if negb (bool_decide (current = from)) then
             [mkViol name SevError ("State mismatch for chunk " +:+ short_hex c +:+ " at event " +:+ pretty i
               +:+ ": expected " +:+ state_debug current +:+ ", got " +:+ state_debug from) (Some i) (Some c)]
           else []
       | None => []
       end)
  | _ => (cs, [])
  end.

Definition StateMachineConsistency : ReplayInvariant :=
  let name := "StateMachineConsistency" in mkInv name (fun es => (walk (consistency_step name) 0 es ∅).2).

Definition with_defaults : InvariantValidator :=
  inv_register StateMachineConsistency (inv_register NoMissingCompletions (inv_register NoTimestampRegression
    (inv_register NoDanglingAllocations (inv_register NoIllegalTransitions (inv_register NoOrphanedTransfers Validator_new))))).

(** ** Walks *)

Lemma walk_app {S} (step : nat -> Tr.TraceEvent -> S -> S * list InvariantViolation) es1 : forall i es2 s,
  walk step i (es1 ++ es2) s =
  let '(s1, v1) := walk step i es1 s in
  let '(s2, v2) := walk step (i + length es1) es2 s1 in (s2, v1 ++ v2).
Proof.
  induction es1 as [|e es1 IH]; intros i es2 s; simpl.
  - rewrite Nat.add_0_r. by destruct (walk step i es2 s).
  - destruct (step i e s) as [s1 v1]. rewrite IH. destruct (walk step (Datatypes.S i) es1 s1) as [s2 v2].
    rewrite <- Nat.add_succ_comm. destruct (walk step _ es2 s2) as [s3 v3]. by rewrite app_assoc.
Qed.

(** A check that follows the tracker along the trace of a run. *)
Lemma walk_run {S} b ri (step : nat -> Tr.TraceEvent -> S -> S * list InvariantViolation) (R : S -> StateMachine -> Prop) ops :
  (forall i o m e sm s, R s sm -> keeps (o, m) -> trace_of_op o m sm = [e] ->
     (step i e s).2 = [] /\ R (step i e s).1 (apply_event e sm)) ->
  forall i sm s, Forall keeps ops -> R s sm -> (walk step i (trace_of_run b ri ops sm) s).2 = [] /\
    R (walk step i (trace_of_run b ri ops sm) s).1 (run b ri ops.*1 sm).
Proof.
  intros Hstep. induction ops as [|[o m] ops IH]; intros i sm s Hk HR; [done|].
  apply Forall_cons in Hk as [Ho Hk]. cbn [trace_of_run]. pose proof (trace_of_op_apply b ri o m sm) as Ha.
  change (run b ri ((o, m) :: ops).*1 sm) with (run b ri ops.*1 (apply_op b ri o sm)).
  assert (trace_of_op o m sm = [] \/ exists e, trace_of_op o m sm = [e]) as [E|[e E]].
  { unfold trace_of_op. repeat case_match; eauto. }
  - rewrite E in Ha |- *. cbn [fold_left] in Ha. cbn [app]. apply IH; [done|]. by rewrite <- Ha.
  - specialize (Hstep i o m e sm s HR Ho E) as [Hv HR']. rewrite E in Ha |- *. simpl in Ha.
    unfold flip in Ha. rewrite Ha in HR'. cbn [app walk]. destruct (step i e s) as [s1 v1]. simpl in *. subst v1.
    destruct (IH (Datatypes.S i) _ s1 Hk HR') as [Hv2 HR2].
    destruct (walk step (Datatypes.S i) (trace_of_run b ri ops (apply_op b ri o sm)) s1). by simpl in *.
Qed.

(** The events a run without removals can leave. *)
Lemma trace_of_op_keeps o m sm e :
  keeps (o, m) -> trace_of_op o m sm = [e] ->
  (exists c sz t ts, e = Tr.ChunkCreated c sz t ts /\ states sm !! c = None) \/
  (exists c s next ts, e = Tr.ChunkStateChanged c s next ts /\ states sm !! c = Some s /\ is_valid_transition s next = true).
Proof.
  destruct m as [[sz tier] ts]. unfold trace_of_op, get_state, keeps. destruct o as [c|c next|c]; simpl; [| |done]; intros _.
  - destruct (states sm !! c) eqn:E; [done|]. intros [= <-]. left. eauto 10.
  - destruct (states sm !! c) as [s|] eqn:E; [|done]. destruct (is_valid_transition s next) eqn:Ev; [|done].
    intros [= <-]. right. eauto 10.
Qed.

Lemma regression_walk es : forall i l,
  (walk (regression_step "NoTimestampRegression") i es (Some l)).2 = [] <->
  Sorted Z.le (l :: (Tr.timestamp <$> es)).
Proof.
  induction es as [|e es IH]; intros i l; cbn [walk regression_step fmap list_fmap].
  - split; [repeat constructor|done].
  - unfold regression_step at 1. specialize (IH (Datatypes.S i) (Tr.timestamp e)).
    destruct (walk _ (Datatypes.S i) es _) as [s2 v2]. simpl in *.
    destruct (Z.ltb_spec (Tr.timestamp e) l) as [Hlt|Hge]; simpl.
    + split; [done|]. intros Hs. apply Sorted_inv in Hs as [_ Hh]. apply HdRel_inv in Hh. lia.
    + rewrite IH. split.
      * intros Hs. constructor; [done|]. by constructor.
      * by intros [Hs _]%Sorted_inv.
Qed.

Lemma regression_spec es : inv_validate NoTimestampRegression es = [] <-> Sorted Z.le (Tr.timestamp <$> es).
Proof.
  destruct es as [|e es]; [split; [constructor|done]|]. cbn [inv_validate NoTimestampRegression walk]. unfold regression_step at 1.
  pose proof (regression_walk es 1 (Tr.timestamp e)) as H. destruct (walk _ 1 es _) as [s2 v2]. exact H.
Qed.

(** Runs of the tracker pass the checks that follow the lifecycle. *)
Lemma illegal_run b ri ops :
  Forall keeps ops -> inv_validate NoIllegalTransitions (trace_of_run b ri ops SM_new) = [].
Proof.
  intros Hk. apply (walk_run b ri _ (fun last sm => forall c s, last !! c = Some s -> states sm !! c = Some s)); [|done|done].
  intros i o m e sm last HR Ho E. destruct (trace_of_op_keeps _ _ _ _ Ho E) as
    [(c & sz & t & ts & -> & Hn)|(c & s & next & ts & -> & Hs & Hv)]; simpl.
  - split; [done|]. unfold get_state. rewrite Hn. simpl. intros d st Hd. destruct (decide (d = c)) as [->|]; [|by rewrite lookup_insert_ne; auto].
    apply HR in Hd. congruence.
  - unfold get_state. rewrite Hs, Hv, bool_decide_eq_true_2 by done. simpl. split.
    + destruct (last !! c) as [x|] eqn:El; [|done]. apply HR in El. rewrite bool_decide_eq_true_2; [done|congruence].
    + intros d st. destruct (decide (d = c)) as [->|]; [by rewrite !lookup_insert_eq|]. rewrite !lookup_insert_ne by done. apply HR.
Qed.

Lemma consistency_run b ri ops :
  Forall keeps ops -> inv_validate StateMachineConsistency (trace_of_run b ri ops SM_new) = [].
Proof.
  intros Hk. apply (walk_run b ri _ (fun cs sm => cs = states sm)); [|done|done].
  intros i o m e sm cs -> Ho E. destruct (trace_of_op_keeps _ _ _ _ Ho E) as
    [(c & sz & t & ts & -> & Hn)|(c & s & next & ts & -> & Hs & Hv)]; simpl; unfold get_state.
  - rewrite Hn. done.
  - rewrite Hs, Hv, bool_decide_eq_true_2 by done. done.
Qed.

Lemma transfer_checks_run b ri ops :
  Forall keeps ops ->
  inv_validate NoOrphanedTransfers (trace_of_run b ri ops SM_new) = [] /\
  inv_validate NoMissingCompletions (trace_of_run b ri ops SM_new) = [] /\
  inv_validate NoDanglingAllocations (trace_of_run b ri ops SM_new) = [].
Proof.
  intros Hk. cbn [inv_validate NoOrphanedTransfers NoMissingCompletions NoDanglingAllocations].
  assert (forall o m e sm, keeps (o, m) -> trace_of_op o m sm = [e] ->
    (exists c sz t ts, e = Tr.ChunkCreated c sz t ts) \/ exists c s n ts, e = Tr.ChunkStateChanged c s n ts) as He.
  { intros o m e sm Ho E. destruct (trace_of_op_keeps _ _ _ _ Ho E) as [(?&?&?&?&->&_)|(?&?&?&?&->&_)]; eauto 10. }
  destruct (walk_run b ri orphan_step (fun s _ => s.1 = ∅) ops) with (i := 0%nat) (sm := SM_new) (s := (∅ : gmap ChunkId nat, ∅ : gmap ChunkId bool)) as [_ H1]; [|done|done|].
  { intros i o m e sm [st cm] HR Ho E. by destruct (He _ _ _ _ Ho E) as [(?&?&?&?&->)|(?&?&?&?&->)]. }
  destruct (walk_run b ri pending_step (fun s _ => s = ∅) ops) with (i := 0%nat) (sm := SM_new) (s := ∅ : gmap ChunkId nat) as [_ H2]; [|done|done|].
  { intros i o m e sm p HR Ho E. by destruct (He _ _ _ _ Ho E) as [(?&?&?&?&->)|(?&?&?&?&->)]. }
  destruct (walk_run b ri dangling_step (fun s _ => s.2 = ∅) ops) with (i := 0%nat) (sm := SM_new) (s := (∅ : gmap ChunkId bool, ∅ : gmap ChunkId bool)) as [_ H3]; [|done|done|].
  { intros i o m e sm [cr de] HR Ho E. by destruct (He _ _ _ _ Ho E) as [(?&?&?&?&->)|(?&?&?&?&->)]. }
  destruct (walk orphan_step _ _ _) as [[st cm] ?]. destruct (walk pending_step _ _ _) as [p ?].
  destruct (walk dangling_step _ _ _) as [[cr de] ?]. simpl in *. subst. rewrite !btree_iter_empty. done.
Qed.

(** On the trace of any run of the chunk tracker without removals the
    default validator reports nothing exactly when the times never decrease:
    none of the lifecycle and transfer checks raises a false alarm. *)
Theorem run_passes_defaults b ri ops :
  Forall keeps ops ->
  validator_validate with_defaults (trace_of_run b ri ops SM_new) = [] <->
  Sorted Z.le (Tr.timestamp <$> trace_of_run b ri ops SM_new).
Proof.
  intros Hk. destruct (transfer_checks_run b ri ops Hk) as (H1 & H2 & H3).
  rewrite <- regression_spec. unfold validator_validate, with_defaults, inv_register, Validator_new.
  cbn [validator_invariants app fmap list_fmap concat].
  rewrite H1, H2, H3, (illegal_run b ri ops Hk), (consistency_run b ri ops Hk). cbn [app]. by rewrite !app_nil_r.
Qed.

(** ** Transfers left open *)

(** What an event says about the transfers of chunk [c]: [Some true] starts
    one, [Some false] ends one. *)
Definition transfer_about (c : ChunkId) (e : Tr.TraceEvent) : option bool :=
  match e with
  | Tr.TransferStarted job _ => if bool_decide (job_chunk job = c) then Some true else None
  | Tr.TransferCompleted d _ _ _ _ _ | Tr.TransferFailed d _ _ _ _ _ | Tr.TransferCancelled d _ _ _ =>
      if bool_decide (d = c) then Some false else None
  | _ => None
  end.

(** Event [i] starts a transfer of [c] that nothing later ends or restarts. *)
Definition left_open (es : list Tr.TraceEvent) (c : ChunkId) (i : nat) : Prop :=
  exists e, es !! i = Some e /\ transfer_about c e = Some true /\
    forall j x, (i < j)%nat -> es !! j = Some x -> transfer_about c x = None.

Lemma left_open_snoc es e c i :
  left_open (es ++ [e]) c i <->
  match transfer_about c e with
  | Some true => i = length es
  | Some false => False
  | None => left_open es c i
  end.
Proof.
  assert (forall i x, es !! i = Some x -> (i < length es)%nat) as Hlt by (intros ? ?; apply lookup_lt_Some).
  split.
  - intros (x & Hx & Hs & Hl). apply lookup_app_Some in Hx as [Hx|[Hge Hx]].
    + specialize (Hlt _ _ Hx). rewrite (Hl (length es) e Hlt) by (by apply list_lookup_middle).
      exists x. split_and!; [done|done|]. intros j y Hj Hy. apply (Hl j y Hj). by apply lookup_app_l_Some.
    + apply list_lookup_singleton_Some in Hx as [Hi <-]. rewrite Hs. lia.
  - destruct (transfer_about c e) as [[]|] eqn:Ea; [intros ->|done|].
    + exists e. split_and!; [by apply list_lookup_middle|done|]. intros j x Hj Hx.
      apply lookup_lt_Some in Hx. rewrite length_app in Hx. simpl in Hx. lia.
    + intros (x & Hx & Hs & Hl). exists x. split_and!; [by apply lookup_app_l_Some|done|]. intros j y Hj Hy.
      apply lookup_app_Some in Hy as [Hy|[_ Hy]]; [by apply (Hl j)|]. by apply list_lookup_singleton_Some in Hy as [_ <-].
Qed.

Lemma pending_spec es c i : (walk pending_step 0 es ∅).1 !! c = Some i <-> left_open es c i.
Proof.
  revert c i. induction es as [|e es IH] using rev_ind; intros c i.
  - simpl. rewrite lookup_empty. split; [done|]. by intros (e & ? & _).
  - rewrite walk_app. destruct (walk pending_step 0 es ∅) as [p v]. simpl in IH. cbn [walk].
    destruct (pending_step (0 + length es) e p) as [p' v'] eqn:Ep. cbn [fst]. rewrite left_open_snoc.
    assert (forall d, delete d p !! c = Some i <-> match (if bool_decide (d = c) then Some false else None) with
      | Some true => i = length es | Some false => False | None => left_open es c i end) as Hdel.
    { intros d. case_bool_decide as Hd; [subst; by rewrite lookup_delete_eq|by rewrite lookup_delete_ne, IH]. }
    destruct e; simpl in Ep |- *; injection Ep as <- <-; try apply IH; try apply Hdel.
    case_bool_decide as Hd; [subst; rewrite lookup_insert_eq; naive_solver|by rewrite lookup_insert_ne, IH].
Qed.

(** The completion check reports exactly the transfers left open: one
    violation per chunk whose last transfer event is a start, naming that
    chunk and that event; transfers that completed, failed or were cancelled,
    and earlier starts of the same chunk, are not reported. *)
Theorem missing_completions_exact es c i :
  (exists v, v ∈ inv_validate NoMissingCompletions es /\ vi_chunk_id v = Some c /\ vi_event_index v = Some i) <->
  left_open es c i.
Proof.
  rewrite <- pending_spec. cbn [inv_validate NoMissingCompletions]. split.
  - intros (v & Hv & Hc & Hi). apply list_elem_of_fmap in Hv as ([d k] & -> & Hin). simpl in *. simplify_eq.
    by apply elem_of_btree_iter.
  - intros Hp. eexists. split; [apply list_elem_of_fmap; exists (c, i); split; [reflexivity|]|done].
    by apply elem_of_btree_iter.
Qed.

(** ** What a silent validator means *)

(** The chunk an event starts a transfer of, completes or fails one of,
    creates or deletes. *)
Definition starts (e : Tr.TraceEvent) : option ChunkId :=
  match e with Tr.TransferStarted job _ => Some (job_chunk job) | _ => None end.
Definition finishes (e : Tr.TraceEvent) : option ChunkId :=
  match e with Tr.TransferCompleted c _ _ _ _ _ | Tr.TransferFailed c _ _ _ _ _ => Some c | _ => None end.
Definition creates (e : Tr.TraceEvent) : option ChunkId :=
  match e with Tr.ChunkCreated c _ _ _ => Some c | _ => None end.
Definition deletes (e : Tr.TraceEvent) : option ChunkId :=
  match e with Tr.ChunkDeleted c _ _ => Some c | _ => None end.

(** The state an event moves chunk [c] to. *)
Definition change_of (c : ChunkId) (e : Tr.TraceEvent) : option ChunkState :=
  match e with Tr.ChunkStateChanged d _ to _ => if bool_decide (d = c) then Some to else None | _ => None end.
(** What an event records of chunk [c]: its state, or that it is gone. *)
Definition says_of (c : ChunkId) (e : Tr.TraceEvent) : option (option ChunkState) :=
  match e with
  | Tr.ChunkCreated d _ _ _ => if bool_decide (d = c) then Some (Some Allocated) else None
  | Tr.ChunkDeleted d _ _ => if bool_decide (d = c) then Some None else None
  | Tr.ChunkStateChanged d _ to _ => if bool_decide (d = c) then Some (Some to) else None
  | _ => None
  end.

Definition last_change (c : ChunkId) (es : list Tr.TraceEvent) : option ChunkState := last (omap (change_of c) es).
Definition recorded (c : ChunkId) (es : list Tr.TraceEvent) : option ChunkState := mjoin (last (omap (says_of c) es)).

(** Event [e] after the events [es]: an edge of the lifecycle that continues
    the chunk's last change. *)
Definition continues (es : list Tr.TraceEvent) (e : Tr.TraceEvent) : Prop :=
  match e with
  | Tr.ChunkStateChanged c from to _ =>
      is_valid_transition from to = true /\ (last_change c es = None \/ last_change c es = Some from)
  | _ => True
  end.

(** Event [e] agrees with what [es] recorded of its chunk. *)
Definition agrees (es : list Tr.TraceEvent) (e : Tr.TraceEvent) : Prop :=
  match e with
  | Tr.ChunkCreated c _ _ _ => recorded c es = None
  | Tr.ChunkDeleted c _ _ => recorded c es <> None
  | Tr.ChunkStateChanged c from _ _ => recorded c es = None \/ recorded c es = Some from
  | _ => True
  end.

(** Every event of a trace after the ones before it. *)
Definition each (ok : list Tr.TraceEvent -> Tr.TraceEvent -> Prop) (es : list Tr.TraceEvent) : Prop :=
  forall es1 e es2, es = es1 ++ e :: es2 -> ok es1 e.

Definition sound (es : list Tr.TraceEvent) : Prop :=
  Sorted Z.le (Tr.timestamp <$> es) /\
  (forall c, c ∈ omap starts es -> c ∈ omap finishes es) /\
  (forall c i, ~ left_open es c i) /\
  (forall c, c ∈ omap deletes es -> c ∈ omap creates es) /\
  each continues es /\ each agrees es.

(** A walk whose state stands for the events behind it. *)
Lemma walk_exact {S} (step : nat -> Tr.TraceEvent -> S -> S * list InvariantViolation)
    (R : list Tr.TraceEvent -> S -> Prop) (ok : list Tr.TraceEvent -> Tr.TraceEvent -> Prop) :
  (forall i es e s, R es s -> R (es ++ [e]) (step i e s).1 /\ ((step i e s).2 = [] <-> ok es e)) ->
  forall es i es0 s, R es0 s -> R (es0 ++ es) (walk step i es s).1 /\
    ((walk step i es s).2 = [] <-> forall es1 e es2, es = es1 ++ e :: es2 -> ok (es0 ++ es1) e).
Proof.
  intros Hstep. induction es as [|e es IH]; intros i es0 s HR; cbn [walk].
  { rewrite app_nil_r. split; [done|]. split; [intros _ [] ? ?; discriminate|done]. }
  destruct (Hstep i es0 e s HR) as [HR1 Hv1]. destruct (step i e s) as [s1 v1]. cbn [fst snd] in *.
  destruct (IH (Datatypes.S i) _ _ HR1) as [HR2 Hv2]. destruct (walk step (Datatypes.S i) es s1) as [s2 v2]. cbn [fst snd] in *.
  rewrite <- app_assoc in HR2. split; [exact HR2|]. split.
  - intros [E1 E2]%app_nil. intros [|e1 es1] e2 es2 [= <- E].
    + rewrite app_nil_r. by apply Hv1.
    + rewrite cons_middle, app_assoc. by apply (proj1 Hv2 E2 es1 e2 es2).
  - intros H. assert (v1 = []) as -> by (apply Hv1; rewrite <- (app_nil_r es0); by apply (H [] e es)).
    apply Hv2. intros es1 e1 es2 ->. rewrite <- app_assoc. by apply (H (e :: es1) e1 es2).
Qed.

Lemma elem_of_omap_snoc (f : Tr.TraceEvent -> option ChunkId) es e c :
  c ∈ omap f (es ++ [e]) <-> c ∈ omap f es \/ f e = Some c.
Proof.
  rewrite !list_elem_of_omap. setoid_rewrite elem_of_app. setoid_rewrite list_elem_of_singleton. naive_solver.
Qed.

Lemma last_omap_snoc {A} (f : Tr.TraceEvent -> option A) es e :
  last (omap f (es ++ [e])) = match f e with Some x => Some x | None => last (omap f es) end.
Proof.
  rewrite omap_app. cbn [omap list_omap]. destruct (f e); [apply last_snoc|by rewrite app_nil_r].
Qed.

Lemma last_change_snoc c es e : last_change c (es ++ [e]) = match change_of c e with Some x => Some x | None => last_change c es end.
Proof. apply last_omap_snoc. Qed.
Lemma recorded_snoc c es e : recorded c (es ++ [e]) = match says_of c e with Some x => x | None => recorded c es end.
Proof. unfold recorded. rewrite last_omap_snoc. by destruct (says_of c e). Qed.

Lemma illegal_exact es : inv_validate NoIllegalTransitions es = [] <-> each continues es.
Proof.
  eapply (walk_exact (illegal_step "NoIllegalTransitions") (fun es last => forall c, last !! c = last_change c es) continues) with (es0 := []); [|done].
  clear es. intros i es e last HR. split.
  - intros c. rewrite last_change_snoc. destruct e; cbn [illegal_step fst change_of]; try apply HR.
    case_bool_decide as Hd; [subst; apply lookup_insert_eq|by rewrite lookup_insert_ne].
  - destruct e; cbn [illegal_step snd continues]; try done. rewrite HR. destruct (is_valid_transition _ _).
    + rewrite app_nil_r. destruct (last_change _ _) as [s|]; [|naive_solver]. case_bool_decide; naive_solver.
    + split; [|by intros [? _]]. by intros [_ ?]%app_nil.
Qed.

Lemma consistency_exact es : inv_validate StateMachineConsistency es = [] <-> each agrees es.
Proof.
  eapply (walk_exact (consistency_step "StateMachineConsistency") (fun es cs => forall c, cs !! c = recorded c es) agrees) with (es0 := []); [|done].
  clear es. intros i es e cs HR. split.
  - intros c. rewrite recorded_snoc. destruct e; cbn [consistency_step fst says_of]; try apply HR;
      (case_bool_decide as Hd; [subst; first [apply lookup_insert_eq|apply lookup_delete_eq]
                               |by first [rewrite lookup_insert_ne|rewrite lookup_delete_ne]]).
  - destruct e; cbn [consistency_step snd agrees]; try done; rewrite HR; destruct (recorded _ _) as [s|]; try naive_solver.
    case_bool_decide; naive_solver.
Qed.

Lemma or_none (A : Prop) (c : ChunkId) : A \/ None = Some c <-> A.
Proof. split; [by intros [?|?]|by left]. Qed.
Lemma or_other (A : Prop) (c d : ChunkId) : d <> c -> A \/ Some d = Some c <-> A.
Proof. intros Hd. split; [by intros [?|[= ?]]|by left]. Qed.
Lemma or_this (A B : Prop) (c : ChunkId) : B -> (B <-> A \/ Some c = Some c).
Proof. intros HB. split; [by right|done]. Qed.

(** A key that is entered where [f] names it. *)
Lemma mark_snoc {A} (m : gmap ChunkId A) (f : Tr.TraceEvent -> option ChunkId) es e (x : A) :
  (forall c, is_Some (m !! c) <-> c ∈ omap f es) ->
  forall c, is_Some (match f e with Some d => <[d := x]> m | None => m end !! c) <-> c ∈ omap f (es ++ [e]).
Proof.
  intros HR c. rewrite elem_of_omap_snoc. destruct (f e) as [d|]; [|by rewrite or_none].
  destruct (decide (d = c)) as [->|Hd]; [apply or_this; rewrite lookup_insert_eq; eauto|].
  by rewrite lookup_insert_ne, or_other by done.
Qed.

Lemma flag_snoc (m : gmap ChunkId bool) (f : Tr.TraceEvent -> option ChunkId) es e :
  (forall c, default false (m !! c) = true <-> c ∈ omap f es) ->
  forall c, default false (match f e with Some d => <[d := true]> m | None => m end !! c) = true <-> c ∈ omap f (es ++ [e]).
Proof.
  intros HR c. rewrite elem_of_omap_snoc. destruct (f e) as [d|]; [|by rewrite or_none].
  destruct (decide (d = c)) as [->|Hd]; [apply or_this; by rewrite lookup_insert_eq|].
  by rewrite lookup_insert_ne, or_other by done.
Qed.

(** A report of every key of [m] without a flag in [f] is empty. *)
Lemma unflagged_nil {A} (m : gmap ChunkId A) (f : gmap ChunkId bool) (g : ChunkId * A -> InvariantViolation) :
  omap (fun x => if default false (f !! x.1) then None else Some (g x)) (btree_iter m) = [] <->
  forall c, is_Some (m !! c) -> default false (f !! c) = true.
Proof.
  split.
  - intros E c [x Hx]. destruct (default false (f !! c)) eqn:Ef; [done|].
    assert (g (c, x) ∈ @nil InvariantViolation) as Hin; [|by apply elem_of_nil in Hin].
    rewrite <- E. apply list_elem_of_omap. exists (c, x). split; [by apply elem_of_btree_iter|]. cbn [fst]. by rewrite Ef.
  - intros H. destruct (omap _ _) as [|v l] eqn:E; [done|].
    assert (v ∈ v :: l) as Hv by left. rewrite <- E in Hv. apply list_elem_of_omap in Hv as ([c x] & Hin & Hg).
    apply elem_of_btree_iter in Hin. cbn [fst] in Hg. by rewrite (H c) in Hg by eauto.
Qed.

Lemma dangling_exact es : inv_validate NoDanglingAllocations es = [] <-> forall c, c ∈ omap deletes es -> c ∈ omap creates es.
Proof.
  cbn [inv_validate NoDanglingAllocations].
  destruct (walk_exact dangling_step (fun es s => (forall c, is_Some (s.2 !! c) <-> c ∈ omap deletes es) /\
    (forall c, default false (s.1 !! c) = true <-> c ∈ omap creates es)) (fun _ _ => True)) with (es := es) (i := 0%nat) (es0 := @nil Tr.TraceEvent)
    (s := (∅ : gmap ChunkId bool, ∅ : gmap ChunkId bool)) as [[H1 H2] _].
  { clear es. intros i es e [cr de] [H1 H2]. cbn [fst snd] in H1, H2. split; [|by destruct e].
    pose proof (mark_snoc de deletes es e true H1). pose proof (flag_snoc cr creates es e H2). by destruct e. }
  { split; intros c; cbn; rewrite lookup_empty; [split; [by intros []|by intros ?%elem_of_nil]|split; [done|by intros ?%elem_of_nil]]. }
  destruct (walk dangling_step 0 es _) as [[cr de] v]. cbn [fst snd app] in H1, H2.
  rewrite (unflagged_nil de cr). setoid_rewrite H1. by setoid_rewrite H2.
Qed.

(** A completion counts wherever it is in the trace. *)
Lemma orphan_exact es : inv_validate NoOrphanedTransfers es = [] <-> forall c, c ∈ omap starts es -> c ∈ omap finishes es.
Proof.
  cbn [inv_validate NoOrphanedTransfers].
  destruct (walk_exact orphan_step (fun es s => (forall c, is_Some (s.1 !! c) <-> c ∈ omap starts es) /\
    (forall c, default false (s.2 !! c) = true <-> c ∈ omap finishes es)) (fun _ _ => True)) with (es := es) (i := 0%nat) (es0 := @nil Tr.TraceEvent)
    (s := (∅ : gmap ChunkId nat, ∅ : gmap ChunkId bool)) as [[H1 H2] _].
  { clear es. intros i es e [st co] [H1 H2]. cbn [fst snd] in H1, H2. split; [|by destruct e].
    pose proof (mark_snoc st starts es e i H1). pose proof (flag_snoc co finishes es e H2) as Hf. destruct e; try done.
    split; [done|]. intros c. cbn [orphan_step fst snd]. rewrite <- Hf. cbn [finishes].
    destruct (co !! job_chunk job) as [x|] eqn:Ex; [done|]. destruct (decide (job_chunk job = c)) as [<-|Hd].
    - by rewrite lookup_insert_eq, Ex.
    - by rewrite lookup_insert_ne. }
  { split; intros c; cbn; rewrite lookup_empty; [split; [by intros []|by intros ?%elem_of_nil]|split; [done|by intros ?%elem_of_nil]]. }
  destruct (walk orphan_step 0 es _) as [[st co] v]. cbn [fst snd app] in H1, H2.
  rewrite (unflagged_nil st co). setoid_rewrite H1. by setoid_rewrite H2.
Qed.

Lemma completions_exact es : inv_validate NoMissingCompletions es = [] <-> forall c i, ~ left_open es c i.
Proof.
  cbn [inv_validate NoMissingCompletions]. setoid_rewrite <- pending_spec. set (m := (walk pending_step 0 es ∅).1). split.
  - intros E c i Hi. apply elem_of_btree_iter in Hi. apply fmap_nil_inv in E. rewrite E in Hi. by apply elem_of_nil in Hi.
  - intros H. destruct (btree_iter m) as [|[c i] l] eqn:E; [done|]. exfalso. apply (H c i), elem_of_btree_iter. rewrite E. left.
Qed.

(** C28: The default validator is silent exactly on sound traces.  It reports
    nothing if and only if the times never decrease; every chunk with a
    transfer started has one completed or failed, wherever in the trace; no
    transfer is left open (started, and after that neither ended nor started
    again); every deleted chunk was created, wherever in the trace; every
    recorded change of state is an edge of the lifecycle from the state the
    chunk's last change led to; and creations, deletions and changes agree with
    what the events before them recorded of the chunk. *)
Theorem silent_iff_sound es : validator_validate with_defaults es = [] <-> sound es.
Proof.
  unfold sound. rewrite <- regression_spec, <- orphan_exact, <- completions_exact, <- dangling_exact, <- illegal_exact, <- consistency_exact.
  unfold validator_validate, with_defaults, inv_register, Validator_new.
  cbn [validator_invariants app fmap list_fmap concat]. rewrite app_nil_r. split.
  - intros E. repeat (apply app_nil in E as [? E]). by split_and!.
  - intros (-> & -> & -> & -> & -> & ->). done.
Qed.

Module TraceInvariantExample.
Definition c1 : ChunkId := mkChunkId [byte_of_Z 1].

Definition ops : list (Op * (Z * TierId * Z)) :=
  [(ORegister c1, (100, Ram, 1)); (OTransition c1 Stored, (0, Ram, 2)); (OTransition c1 Cached, (0, Ram, 5))].

Definition job1 : TransferJob := mkJob c1 Ram Disk 8 PHigh Queued 7 1 0.

(** A whole life with a transfer is sound; without the completion, or with a
    deletion of another chunk, it is not. *)
Definition life : list Tr.TraceEvent :=
  [Tr.ChunkCreated c1 8 Ram 1; Tr.ChunkStateChanged c1 Allocated Stored 2; Tr.TransferStarted job1 3;
   Tr.ChunkStateChanged c1 Stored Migrating 4; Tr.TransferCompleted c1 Ram Disk 8 1 5; Tr.ChunkDeleted c1 Disk 6].

Lemma silent_iff_sound_witness :
  sound life /\ ~ sound (take 4 life) /\ ~ sound (life ++ [Tr.ChunkDeleted (mkChunkId []) Disk 7]) /\
  ~ sound (take 2 life ++ [Tr.ChunkStateChanged c1 Allocated Stored 3]).
Proof.
  split_and!; [apply silent_iff_sound; vm_compute; reflexivity|intros H%silent_iff_sound; vm_compute in H; discriminate..].
Defined.

(** Removal and re-creation is a legal history that the transition check,
    which does not look at removals, reports. *)
Lemma recreation_reported :
  let es := trace_of_run Debug true
    [(ORegister c1, (8, Ram, 1)); (OTransition c1 Stored, (0, Ram, 2)); (ORemove c1, (0, Ram, 3));
     (ORegister c1, (8, Ram, 4)); (OTransition c1 Stored, (0, Ram, 5))] SM_new in
  length (inv_validate NoIllegalTransitions es) = 1%nat /\ inv_validate StateMachineConsistency es = [].
Proof. split; vm_compute; reflexivity. Qed.

(** The orphan check asks for a completion anywhere in the trace: a second
    transfer of the same chunk that never ends is missed. *)
Lemma second_orphan_missed job ts1 ts2 ts3 from to size_ d :
  let es := [Tr.TransferStarted job ts1; Tr.TransferCompleted (job_chunk job) from to size_ d ts2; Tr.TransferStarted job ts3] in
  inv_validate NoOrphanedTransfers es = [] /\ left_open es (job_chunk job) 2.
Proof.
  cbv zeta. split.
  - cbn [inv_validate NoOrphanedTransfers walk orphan_step]. rewrite lookup_empty, lookup_insert_eq.
    rewrite !insert_insert_eq, !insert_empty. unfold btree_iter. rewrite map_to_list_singleton. cbn. by rewrite lookup_singleton_eq.
  - eexists. split; [done|]. simpl. rewrite bool_decide_eq_true_2 by done. split; [done|]. intros [|[|[|j]]] x Hj; simpl; try lia; done.
Qed.
End TraceInvariantExample.
