(* ===== verification/Checksum.v ===== *)
(** * Checksums and divergence: [ghost-replay/src/checksum.rs], [divergence.rs]

    A trace is hashed event by event, each hash bound to the event's position,
    and the hashes are hashed again, in total and per category.  Equal
    checksums mean equal traces, or two of the strings that were hashed
    collide.  [detect_divergence] compares two traces index by index. *)

From Stdlib Require Import ZArith Lia.
From stdpp Require Import base gmap strings pretty list.
From S2P Require Import Prelude CoreTypes Trace TraceFile.

Open Scope rust_scope.

Inductive HashCategory := CatContent | CatMigration | CatState | CatOther.

#[export] Instance HashCategory_eq_dec : EqDecision HashCategory.
Proof. solve_decision. Defined.

Definition category_display (c : HashCategory) : string :=
  match c with CatContent => "content" | CatMigration => "migration" | CatState => "state" | CatOther => "other" end.

Definition hex8 (bytes : list byte) : string := hex_encode (take (Nat.min (length bytes) 8) bytes).

Record ReplayChecksum := mkChecksum {
  ck_total : list byte;
  ck_content : list byte;
  ck_migration : list byte;
  ck_state : list byte;
  ck_other : list byte;
  ck_event_count : nat;
}.

Definition zero32 : list byte := replicate 32 (byte_of_Z 0).
Definition Checksum_new : ReplayChecksum := mkChecksum zero32 zero32 zero32 zero32 zero32 0.

Definition ck_matches (a b : ReplayChecksum) : bool :=
  bool_decide (ck_total a = ck_total b) && bool_decide (ck_content a = ck_content b)
  && bool_decide (ck_migration a = ck_migration b) && bool_decide (ck_state a = ck_state b)
  && bool_decide (ck_other a = ck_other b).

Definition ck_summary (c : ReplayChecksum) : string :=
  "ReplayChecksum { events: " +:+ pretty (ck_event_count c) +:+ ", total: " +:+ hex8 (ck_total c)
  +:+ ", content: " +:+ hex8 (ck_content c) +:+ ", migration: " +:+ hex8 (ck_migration c)
  +:+ ", state: " +:+ hex8 (ck_state c) +:+ ", other: " +:+ hex8 (ck_other c) +:+ " }".

Record EventHash := mkEvHash {
  eh_index : nat;
  eh_timestamp : Z;
  eh_category : HashCategory;
  eh_hash : list byte;
  eh_chunk_id : option ChunkId;
}.

Definition event_hash_display (h : EventHash) : string :=
  "EventHash { idx: " +:+ pretty (eh_index h) +:+ ", ts: " +:+ pretty (eh_timestamp h) +:+ ", cat: "
  +:+ category_display (eh_category h) +:+ ", chunk: " +:+ default EmptyString (short_hex <$> eh_chunk_id h)
  +:+ ", hash: " +:+ hex8 (eh_hash h) +:+ " }".

Definition classify_event (e : Tr.TraceEvent) : HashCategory :=
  match e with
  | Tr.ChunkCreated _ _ _ _ | Tr.ChunkDeleted _ _ _ => CatContent
  | Tr.TransferQueued _ _ _ _ _ | Tr.TransferStarted _ _ | Tr.TransferCompleted _ _ _ _ _ _
  | Tr.TransferFailed _ _ _ _ _ _ | Tr.TransferRetry _ _ _ _ _ | Tr.TransferCancelled _ _ _ _
  | Tr.Eviction _ _ _ _ => CatMigration
  | Tr.ChunkStateChanged _ _ _ _ | Tr.PressureSample _ _ | Tr.PressureAlert _ _ _ _ => CatState
  | _ => CatOther
  end.

Section checksum.
Context `{Blake3} `{Codec}.

(** The bytes fed to the hasher; a payload that does not serialize is left out. *)
Definition preimage (e : Tr.TraceEvent) (index : nat) : list byte :=
  to_le_bytes 2 (Tr.event_type_index e) ++ to_le_bytes 8 (Tr.timestamp e)
  ++ to_le_bytes 8 (Z.of_nat index)
  ++ match bincode_serialize e with Ok bytes => bytes | _ => [] end.

Definition hash_event (e : Tr.TraceEvent) (index : nat) : list byte := blake3 (preimage e index).

Definition hash_events (es : list Tr.TraceEvent) : list EventHash :=
  imap (fun i e => mkEvHash i (Tr.timestamp e) (classify_event e) (hash_event e i) (Tr.trace_chunk_id e)) es.

(** The five hashers, each the bytes it was fed. *)
Record Hashers := mkHashers {
  h_total : list byte; h_content : list byte; h_migration : list byte; h_state : list byte; h_other : list byte }.

Definition feed (h : Hashers) (c : HashCategory) (d : list byte) : Hashers :=
  let t := h_total h ++ d in
  match c with
  | CatContent => mkHashers t (h_content h ++ d) (h_migration h) (h_state h) (h_other h)
  | CatMigration => mkHashers t (h_content h) (h_migration h ++ d) (h_state h) (h_other h)
  | CatState => mkHashers t (h_content h) (h_migration h) (h_state h ++ d) (h_other h)
  | CatOther => mkHashers t (h_content h) (h_migration h) (h_state h) (h_other h ++ d)
  end.

Fixpoint feed_events (i : nat) (es : list Tr.TraceEvent) (h : Hashers) : Hashers :=
  match es with
  | [] => h
  | e :: es => feed_events (S i) es (feed h (classify_event e) (hash_event e i))
  end.

Definition from_events (es : list Tr.TraceEvent) : ReplayChecksum :=
  match es with
  | [] => Checksum_new
  | _ => let h := feed_events 0 es (mkHashers [] [] [] [] []) in
      mkChecksum (blake3 (h_total h)) (blake3 (h_content h)) (blake3 (h_migration h)) (blake3 (h_state h))
        (blake3 (h_other h)) (length es)
  end.
End checksum.

(** ** Divergence *)

Inductive DivergenceType :=
  | LengthMismatch (baseline_len candidate_len : nat)
  | ContentMismatch (index : nat) (category : HashCategory)
  | TimestampMismatch (index : nat) (baseline_ts candidate_ts : Z)
  | ChunkIdMismatch (index : nat) (baseline_chunk candidate_chunk : option ChunkId)
  | TypeMismatch (index : nat) (baseline_type candidate_type : string)
  | TimingOnly (index : nat) (baseline_ts candidate_ts : Z)
  | DecisionDifference (index : nat) (description : string)
  | OrderingDifference (index : nat) (baseline_type candidate_type : string)
  | MissingEvent (index : nat) (missing_in : Domain) (description : string)
  | ChecksumMismatch (category : HashCategory) (baseline_hash candidate_hash : string).

(** Derived [Debug] of an optional chunk identifier. *)
Definition chunk_debug (c : option ChunkId) : string :=
  match c with
  | None => "None"
  | Some c => "Some(ChunkId([" +:+ String.concat ", " ((fun b => pretty (Z_of_byte b)) <$> chunk_bytes c) +:+ "]))"
  end.

Definition divergence_display (d : DivergenceType) : string :=
  match d with
  | LengthMismatch b c => "LengthMismatch: baseline has " +:+ pretty b +:+ " events, candidate has " +:+ pretty c
  | ContentMismatch i c => "ContentMismatch at index " +:+ pretty i +:+ " (category: " +:+ category_display c +:+ ")"
  | TimestampMismatch i b c =>
      "TimestampMismatch at index " +:+ pretty i +:+ ": baseline=" +:+ pretty b +:+ ", candidate=" +:+ pretty c
  | ChunkIdMismatch i b c =>
      "ChunkIdMismatch at index " +:+ pretty i +:+ ": baseline=" +:+ chunk_debug b +:+ ", candidate=" +:+ chunk_debug c
  | TypeMismatch i b c => "TypeMismatch at index " +:+ pretty i +:+ ": baseline=" +:+ b +:+ ", candidate=" +:+ c
  | TimingOnly i b c => "TimingOnly at index " +:+ pretty i +:+ ": baseline_ts=" +:+ pretty b +:+ ", candidate_ts=" +:+ pretty c
  | DecisionDifference i t => "DecisionDifference at index " +:+ pretty i +:+ ": " +:+ t
  | OrderingDifference i b c => "OrderingDifference at index " +:+ pretty i +:+ ": baseline=" +:+ b +:+ ", candidate=" +:+ c
  | MissingEvent i m t =>
      "MissingEvent at index " +:+ pretty i +:+ " (missing in " +:+ domain_display m +:+ "): " +:+ t
  | ChecksumMismatch c b x =>
      "ChecksumMismatch (category: " +:+ category_display c +:+ "): baseline=" +:+ b +:+ ", candidate=" +:+ x
  end.

Definition divergence_index (d : DivergenceType) : option nat :=
  match d with
  | LengthMismatch _ _ | ChecksumMismatch _ _ _ => None
  | ContentMismatch i _ | TimestampMismatch i _ _ | ChunkIdMismatch i _ _ | TypeMismatch i _ _
  | TimingOnly i _ _ | DecisionDifference i _ | OrderingDifference i _ _ | MissingEvent i _ _ => Some i
  end.

Record DivergenceReport := mkReport {
  identical : bool;
  divergences : list DivergenceType;
  first_divergence_index : option nat;
  events_compared : nat;
}.

Definition report_identical (n : nat) : DivergenceReport := mkReport true [] None n.
Definition report_divergent (ds : list DivergenceType) (n : nat) : DivergenceReport :=
  mkReport false ds (head (omap divergence_index ds)) n.

Definition report_summary (r : DivergenceReport) : string :=
  if identical r then "Streams are identical (" +:+ pretty (events_compared r) +:+ " events compared)"
  else "Streams diverge at index " +:+ pretty (default 0%nat (first_divergence_index r)) +:+ " ("
    +:+ pretty (length (divergences r)) +:+ " total divergences, " +:+ pretty (events_compared r) +:+ " events compared)".

Section detect.
Context `{Blake3} `{Codec}.

Definition compare_at (i : nat) (b c : Tr.TraceEvent) : list DivergenceType :=
  if negb (bool_decide (Tr.event_type b = Tr.event_type c))
  then [TypeMismatch i (Tr.event_type b) (Tr.event_type c)]
  else
    (if negb (Tr.timestamp b =? Tr.timestamp c) then [TimestampMismatch i (Tr.timestamp b) (Tr.timestamp c)] else []) ++
    (if negb (bool_decide (Tr.trace_chunk_id b = Tr.trace_chunk_id c))
     then [ChunkIdMismatch i (Tr.trace_chunk_id b) (Tr.trace_chunk_id c)] else []) ++
    (if negb (bool_decide (hash_event b i = hash_event c i)) then [ContentMismatch i (classify_event b)] else []).

Fixpoint compare_loop (i : nat) (bs cs : list Tr.TraceEvent) : list DivergenceType :=
  match bs, cs with
  | b :: bs, c :: cs => compare_at i b c ++ compare_loop (S i) bs cs
  | _, _ => []
  end.

(** [events_compared] ends at the shorter length. *)
Definition detect_divergence (baseline candidate : list Tr.TraceEvent) : DivergenceReport :=
  let min_len := Nat.min (length baseline) (length candidate) in
  let ds :=
    (if negb (length baseline =? length candidate)%nat then [LengthMismatch (length baseline) (length candidate)] else [])
    ++ compare_loop 0 baseline candidate in
  match ds with
  | [] => report_identical min_len
  | _ => report_divergent ds min_len
  end.

Definition hash_comparison (baseline candidate : list Tr.TraceEvent) : list EventHash * list EventHash :=
  (hash_events baseline, hash_events candidate).
End detect.

(** ** What equal checksums mean *)

Section binding.
Context `{Blake3} `{Codec}.

Definition hash_string (es : list Tr.TraceEvent) : list byte := concat (imap (fun i e => hash_event e i) es).

(** Every string hashed for the total checksum of a trace. *)
Definition hashed (es : list Tr.TraceEvent) : list (list byte) :=
  hash_string es :: imap (fun i e => preimage e i) es.

Definition collision (l : list (list byte)) : Prop :=
  exists x y, x ∈ l /\ y ∈ l /\ x <> y /\ blake3 x = blake3 y.

Lemma feed_total es : forall i h,
  h_total (feed_events i es h) = h_total h ++ concat (imap (fun k e => hash_event e (i + k)) es).
Proof.
  induction es as [|e es IH]; intros i h; [by rewrite app_nil_r|].
  cbn [feed_events imap concat]. rewrite IH. rewrite Nat.add_0_r.
  replace (h_total (feed h (classify_event e) (hash_event e i))) with (h_total h ++ hash_event e i)
    by (unfold feed; by destruct (classify_event e)).
  rewrite <- app_assoc. do 2 f_equal. f_equal. apply imap_ext. intros k x _. simpl. f_equal. lia.
Qed.

Lemma checksum_total es : es <> [] -> ck_total (from_events es) = blake3 (hash_string es).
Proof.
  intros Hne. unfold from_events. destruct es as [|e es]; [done|]. cbn [ck_total].
  by rewrite (feed_total (e :: es) 0).
Qed.

(** Blocks of one size are recovered from their concatenation. *)
Lemma concat_blocks {A} (n : nat) (l1 l2 : list (list A)) :
  n <> 0%nat -> Forall (fun x => length x = n) l1 -> Forall (fun x => length x = n) l2 ->
  concat l1 = concat l2 -> l1 = l2.
Proof.
  intros Hn H1. revert l2. induction H1 as [|x l1 Hx H1 IH]; intros l2 H2 E.
  - destruct H2 as [|y l2 Hy H2]; [done|]. simpl in E. by destruct y.
  - destruct H2 as [|y l2 Hy H2]; [simpl in E; by destruct x|]. simpl in E.
    apply app_inj_1 in E as [-> E]; [|congruence]. f_equal. by apply IH.
Qed.

Lemma hash_blocks es : Forall (fun x => length x = 32%nat) (imap (fun i e => hash_event e i) es).
Proof.
  apply Forall_lookup. intros i x. rewrite list_lookup_imap. intros (e & _ & ->)%fmap_Some. apply blake3_length.
Qed.

(** Equal hashes, position by position, or a collision of two preimages. *)
Lemma preimages_equal (f g : nat -> list byte) n :
  (forall i, (i < n)%nat -> blake3 (f i) = blake3 (g i)) ->
  (forall i, (i < n)%nat -> f i = g i) \/ exists i, (i < n)%nat /\ f i <> g i /\ blake3 (f i) = blake3 (g i).
Proof.
  induction n as [|n IH]; intros Hall; [left; lia|].
  destruct IH as [IH|(i & Hi & Hx)]; [intros i Hi; apply Hall; lia| |].
  - destruct (decide (f n = g n)) as [E|E].
    + left. intros i Hi. destruct (decide (i = n)) as [->|]; [done|]. apply IH. lia.
    + right. exists n. split_and!; [lia|done|]. apply Hall. lia.
  - right. exists i. split; [lia|done].
Qed.

Lemma hash_lists_preimages es1 es2 :
  imap (fun i e => hash_event e i) es1 = imap (fun i e => hash_event e i) es2 ->
  imap (fun i e => preimage e i) es1 = imap (fun i e => preimage e i) es2 \/
  collision (imap (fun i e => preimage e i) es1 ++ imap (fun i e => preimage e i) es2).
Proof.
  intros E. assert (length es1 = length es2) as Hl.
  { apply (f_equal length) in E. by rewrite !length_imap in E. }
  set (p := fun (es : list Tr.TraceEvent) (i : nat) => match es !! i with Some e => preimage e i | None => [] end).
  assert (forall es i, (i < length es)%nat -> imap (fun i e => preimage e i) es !! i = Some (p es i)) as Hp.
  { intros es i [e He]%lookup_lt_is_Some. unfold p. by rewrite list_lookup_imap, He. }
  destruct (preimages_equal (p es1) (p es2) (length es1)) as [Heq|(i & Hi & Hne & Hh)].
  - intros i Hi. apply (f_equal (fun l => l !! i)) in E. rewrite !list_lookup_imap in E.
    destruct (lookup_lt_is_Some_2 es1 i Hi) as [e1 He1]. destruct (lookup_lt_is_Some_2 es2 i ltac:(lia)) as [e2 He2].
    unfold p. rewrite He1, He2 in *. by injection E.
  - left. apply list_eq. intros i. destruct (decide (i < length es1)%nat) as [Hi|Hi].
    + rewrite !Hp by lia. by rewrite Heq.
    + rewrite !lookup_ge_None_2; [done|rewrite length_imap; lia..].
  - right. exists (p es1 i), (p es2 i). split_and!; [apply elem_of_app; left|apply elem_of_app; right|done|done];
      apply (list_elem_of_lookup_2 _ i), Hp; lia.
Qed.

Lemma collision_mono l1 l2 : l1 ⊆ l2 -> collision l1 -> collision l2.
Proof. intros Hs (x & y & Hx & Hy & H'). exists x, y. split; [by apply Hs|]. by split; [apply Hs|]. Qed.

(** The preimage determines the event up to the restamping of a read. *)
Lemma preimage_event e1 e2 i now d1 d2 :
  bincode_serialize e1 = Ok d1 -> bincode_serialize e2 = Ok d2 -> preimage e1 i = preimage e2 i ->
  Tr.restamp_job now e1 = Tr.restamp_job now e2.
Proof.
  intros H1 H2. unfold preimage. rewrite H1, H2. intros E.
  do 3 (apply app_inj_1 in E; [destruct E as [_ E]|by rewrite !length_to_le_bytes]). subst d2.
  apply (bincode_roundtrip _ _ now) in H1, H2. congruence.
Qed.

(** C24: The checksum binds a trace: two non-empty traces of serializable
    events whose total checksums agree are the same trace, event for event
    (up to the time stamp a queued job gets when it is read back), or two
    different strings among those hashed have the same hash. *)
Theorem checksum_binding es1 es2 now :
  es1 <> [] -> es2 <> [] ->
  Forall (fun e => is_ok (bincode_serialize e) = true) (es1 ++ es2) ->
  ck_matches (from_events es1) (from_events es2) = true ->
  Tr.restamp_job now <$> es1 = Tr.restamp_job now <$> es2 \/ collision (hashed es1 ++ hashed es2).
Proof.
  intros Hn1 Hn2 [Hs1 Hs2]%Forall_app Hm. unfold ck_matches in Hm.
  apply andb_true_iff in Hm as [[[[Hm _]%andb_true_iff _]%andb_true_iff _]%andb_true_iff _].
  apply bool_decide_eq_true in Hm. rewrite !checksum_total in Hm by done.
  destruct (decide (hash_string es1 = hash_string es2)) as [Ec|Ec].
  2: { right. exists (hash_string es1), (hash_string es2). unfold hashed. split_and!; try done; set_solver. }
  unfold hash_string in Ec. apply (concat_blocks 32) in Ec; [|done|apply hash_blocks..].
  destruct (hash_lists_preimages es1 es2 Ec) as [Ep|Hc].
  2: { right. eapply collision_mono; [|exact Hc]. unfold hashed. set_solver. }
  left. apply list_eq. intros i. rewrite !list_lookup_fmap. apply (f_equal (fun l => l !! i)) in Ep.
  rewrite !list_lookup_imap in Ep. rewrite Forall_lookup in Hs1, Hs2.
  destruct (es1 !! i) as [e1|] eqn:E1, (es2 !! i) as [e2|] eqn:E2; cbn [fmap option_fmap option_map] in Ep |- *; try done.
  apply Some_inj in Ep. f_equal. specialize (Hs1 _ _ E1). specialize (Hs2 _ _ E2).
  destruct (bincode_serialize e1) as [d1| |] eqn:S1, (bincode_serialize e2) as [d2| |] eqn:S2; try done.
  eapply preimage_event; [exact S1|exact S2|exact Ep].
Qed.
End binding.

(** ** What divergence detection reports *)

Section detection.
Context `{Blake3} `{Codec}.

(** The four things compared at an index. *)
Definition agree (i : nat) (b c : Tr.TraceEvent) : Prop :=
  Tr.event_type b = Tr.event_type c /\ Tr.timestamp b = Tr.timestamp c /\
  Tr.trace_chunk_id b = Tr.trace_chunk_id c /\ hash_event b i = hash_event c i.

#[export] Instance agree_dec i b c : Decision (agree i b c).
Proof. unfold agree. apply _. Defined.

Lemma compare_at_nil i b c : compare_at i b c = [] <-> agree i b c.
Proof.
  unfold compare_at, agree. case_bool_decide as Ht; cbn [negb]; [|split; [done|by intros [? _]]].
  destruct (Z.eqb_spec (Tr.timestamp b) (Tr.timestamp c)) as [Ez|Ez]; cbn [negb app]; [|split; [done|by intros (_ & ? & _)]].
  case_bool_decide as Hc; cbn [negb app]; [|split; [done|by intros (_ & _ & ? & _)]].
  case_bool_decide as Hh; cbn [negb app]; [done|]. split; [done|by intros (_ & _ & _ & ?)].
Qed.

Lemma compare_at_index i b c : compare_at i b c <> [] -> head (omap divergence_index (compare_at i b c)) = Some i.
Proof.
  unfold compare_at. destruct (negb _); [done|]. destruct (negb (_ =? _)); [done|].
  destruct (negb _); [done|]. destruct (negb _); done.
Qed.

(** The first index of the two traces, counted from [i], that disagrees. *)
Fixpoint first_disagreement (i : nat) (bs cs : list Tr.TraceEvent) : option nat :=
  match bs, cs with
  | b :: bs, c :: cs => if bool_decide (agree i b c) then first_disagreement (S i) bs cs else Some i
  | _, _ => None
  end.

Lemma compare_loop_first bs : forall i cs,
  head (omap divergence_index (compare_loop i bs cs)) = first_disagreement i bs cs /\
  (compare_loop i bs cs = [] <-> first_disagreement i bs cs = None).
Proof.
  induction bs as [|b bs IH]; intros i cs; [done|]. destruct cs as [|c cs]; [done|].
  cbn [compare_loop first_disagreement]. specialize (IH (S i) cs) as [IH1 IH2].
  case_bool_decide as Ha.
  - apply compare_at_nil in Ha as ->. done.
  - rewrite <- compare_at_nil in Ha. pose proof (compare_at_index i b c Ha) as Hi. destruct (compare_at i b c) as [|d l] eqn:E; [done|].
    split; [|split; done]. rewrite omap_app. destruct (omap divergence_index (d :: l)); [done|exact Hi].
Qed.

Lemma first_disagreement_spec bs : forall i cs,
  match first_disagreement i bs cs with
  | Some k => exists j b c, k = (i + j)%nat /\ bs !! j = Some b /\ cs !! j = Some c /\ ~ agree k b c /\
      forall j' b' c', (j' < j)%nat -> bs !! j' = Some b' -> cs !! j' = Some c' -> agree (i + j') b' c'
  | None => forall j b c, bs !! j = Some b -> cs !! j = Some c -> agree (i + j) b c
  end.
Proof.
  induction bs as [|b bs IH]; intros i cs; [simpl; intros j b c; by rewrite lookup_nil|].
  destruct cs as [|c cs]; [simpl; intros j ? c _; by rewrite lookup_nil|]. cbn [first_disagreement].
  case_bool_decide as Ha.
  - specialize (IH (S i) cs). destruct (first_disagreement (S i) bs cs) as [k|].
    + destruct IH as (j & b1 & c1 & -> & Hb & Hc & Hn & Hall). exists (S j), b1, c1.
      split_and!; [lia|done|done|done|]. intros [|j'] b' c' Hj; simpl.
      * intros [= <-] [= <-]. by rewrite Nat.add_0_r.
      * intros Hb' Hc'. rewrite <- Nat.add_succ_comm. apply Hall; [lia|done..].
    + intros [|j'] b' c'; simpl.
      * intros [= <-] [= <-]. by rewrite Nat.add_0_r.
      * intros Hb' Hc'. rewrite <- Nat.add_succ_comm. by apply IH.
  - exists 0%nat, b, c. rewrite Nat.add_0_r. split_and!; [done..|]. intros; lia.
Qed.

(** [detect_divergence] calls two traces identical exactly when they have
    the same length and agree, at every index, in type, time, chunk and hash;
    otherwise the index it names is the first at which they disagree, and it
    names none exactly when one trace is a prefix of the other. *)
Theorem divergence_first baseline candidate :
  let r := detect_divergence baseline candidate in
  (identical r = true <-> length baseline = length candidate /\
     forall i b c, baseline !! i = Some b -> candidate !! i = Some c -> agree i b c) /\
  match first_divergence_index r with
  | Some k => exists b c, baseline !! k = Some b /\ candidate !! k = Some c /\ ~ agree k b c /\
      forall i b' c', (i < k)%nat -> baseline !! i = Some b' -> candidate !! i = Some c' -> agree i b' c'
  | None => forall i b c, baseline !! i = Some b -> candidate !! i = Some c -> agree i b c
  end.
Proof.
  cbv zeta. unfold detect_divergence. destruct (compare_loop_first baseline 0 candidate) as [H1 H2].
  pose proof (first_disagreement_spec baseline 0 candidate) as Hs.
  assert (first_divergence_index (detect_divergence baseline candidate) = first_disagreement 0 baseline candidate) as Hf.
  { unfold detect_divergence. rewrite <- H1. destruct (negb _); [done|]. simpl.
    by destruct (compare_loop 0 baseline candidate). }
  fold (detect_divergence baseline candidate). rewrite Hf. split.
  - unfold detect_divergence. destruct (Nat.eqb_spec (length baseline) (length candidate)) as [El|El]; simpl.
    + destruct (compare_loop 0 baseline candidate) eqn:E; simpl.
      * destruct H2 as [H2 _]. rewrite (H2 eq_refl) in Hs. split; [done|done].
      * split; [done|]. intros [_ Hall]. destruct (first_disagreement 0 baseline candidate) as [k|] eqn:Ef.
        -- destruct Hs as (j & b & c & -> & Hb & Hc & Hn & _). by destruct Hn; apply Hall.
        -- by destruct H2 as [_ H2]; specialize (H2 eq_refl).
    + split; [done|]. by intros [? _].
  - destruct (first_disagreement 0 baseline candidate) as [k|]; [|exact Hs].
    destruct Hs as (j & b & c & -> & Hb & Hc & Hn & Hall). eauto 10.
Qed.
End detection.

Module ChecksumExample.
#[local] Existing Instance ex_blake3.
#[local] Existing Instance ex_codec.

Definition es1 : list Tr.TraceEvent := [Tr.DaemonStarted 5; Tr.DaemonStarted 9].

Lemma checksum_binding_witness :
  Tr.restamp_job 7 <$> es1 = Tr.restamp_job 7 <$> es1 \/ collision (hashed es1 ++ hashed es1).
Proof.
  apply (checksum_binding es1 es1 7); [done|done| |vm_compute; reflexivity].
  repeat constructor.
Defined.
End ChecksumExample.
