(* ===== verification/ReplayProof.v ===== *)
(** * Replay proofs and verification: [ghost-replay/src/proof.rs], [verifier.rs]

    Two traces are compared by reconstructing both; a proof records the
    outcome with the checksums, and can be checked against the traces.  The
    proof says "equivalent" exactly when the two traces take the chunk tracker
    through the same states with the same byte totals.  A generated proof
    passes the check, unless the traces differ only in length.  The
    determinism check compares a checksum with itself. *)

From Stdlib Require Import ZArith Lia.
From stdpp Require Import base gmap strings pretty list.
From S2P Require Import Prelude Floats CoreTypes ChunkState Pressure Trace TraceFile Reconstruct Replay Checksum TraceInvariants.

Open Scope rust_scope.

Inductive ProofDomain := PCpuSimulation | PDiskIo | PFailureInjected | PDeterministic | PRealIo.

Definition domain_into (d : Domain) : ProofDomain :=
  match d with
  | CpuSimulation => PCpuSimulation | DiskIo => PDiskIo | FailureInjected => PFailureInjected
  | Deterministic => PDeterministic | RealIo => PRealIo
  end.
Definition proof_domain_display (d : ProofDomain) : string :=
  match d with
  | PCpuSimulation => "cpu-simulation" | PDiskIo => "disk-io" | PFailureInjected => "failure-injected"
  | PDeterministic => "deterministic" | PRealIo => "real-io"
  end.

Inductive ProofOutcome := OIdentical | OTimingOnly | ODivergent | OLengthMismatch.

Definition outcome_display (o : ProofOutcome) : string :=
  match o with
  | OIdentical => "IDENTICAL" | OTimingOnly => "TIMING_ONLY" | ODivergent => "DIVERGENT"
  | OLengthMismatch => "LENGTH_MISMATCH"
  end.

Record ProofDivergencePoint := mkPoint {
  pt_event_index : nat;
  pt_timing_only : bool;
  pt_baseline : option string;
  pt_candidate : option string;
}.
Definition point_timing (i : nat) : ProofDivergencePoint := mkPoint i true None None.
Definition point_decision (i : nat) (b c : string) : ProofDivergencePoint := mkPoint i false (Some b) (Some c).

Record ReplayProof := mkProof {
  pf_version : Z;
  pf_label : string;
  pf_baseline_domain : ProofDomain;
  pf_candidate_domain : ProofDomain;
  pf_baseline_count : nat;
  pf_candidate_count : nat;
  pf_baseline_checksum : string;
  pf_candidate_checksum : string;
  pf_equivalent : bool;
  pf_outcome : ProofOutcome;
  pf_points : list ProofDivergencePoint;
  pf_generated_at : Z;
  pf_hash : string;
}.

Inductive ProofVerificationError :=
  | BaselineChecksumMismatch (expected actual : string)
  | CandidateChecksumMismatch (expected actual : string)
  | EventCountMismatch (domain : string) (expected actual : nat)
  | OutcomeMismatch (expected_equivalent actual_equivalent : bool).

Definition bool_display (b : bool) : string := if b then "true" else "false".
Definition verification_error_display (e : ProofVerificationError) : string :=
  match e with
  | BaselineChecksumMismatch x a => "Baseline checksum mismatch: expected " +:+ x +:+ ", got " +:+ a
  | CandidateChecksumMismatch x a => "Candidate checksum mismatch: expected " +:+ x +:+ ", got " +:+ a
  | EventCountMismatch d x a => "Event count mismatch for " +:+ d +:+ ": expected " +:+ pretty x +:+ ", got " +:+ pretty a
  | OutcomeMismatch x a => "Outcome mismatch: proof claims equivalent=" +:+ bool_display x +:+ ", actual=" +:+ bool_display a
  end.

(** Reconstruction of one trace; only a byte total past 64 bits can panic. *)
Definition reconstruct {E} (b : Build) (ri : bool) (es : list Tr.TraceEvent) : outcome E StateReconstructor :=
  match process_events b ri es Recon_new with
  | (Panic msg, _) => Panic msg
  | (_, r) => Ok r
  end.

Definition snapshot_summary (s : StateSnapshot) : string :=
  "chunks=" +:+ pretty (length (chunk_states s)) +:+ " alloc=" +:+ pretty (total_allocated s)
  +:+ " stored=" +:+ pretty (total_stored s).

(** How one differing index is classified. *)
Definition same_at (rb rc : StateReconstructor) (i : nat) : bool :=
  match snapshot_at rb i, snapshot_at rc i with
  | Some bs, Some cs => same_decisions bs cs
  | _, _ => false
  end.

Definition point_at (rb rc : StateReconstructor) (i : nat) : ProofDivergencePoint :=
  if same_at rb rc i then point_timing i
  else match snapshot_at rb i, snapshot_at rc i with
       | Some bs, Some cs => point_decision i (snapshot_summary bs) (snapshot_summary cs)
       | _, _ => point_decision i "snapshot unavailable" "snapshot unavailable"
       end.

Section proofs.
Context `{B3 : Blake3} `{C : Codec} (b : Build) (ri : bool).
(** [serde_json::to_string] of a proof. *)
Context (proof_json : ReplayProof -> option (list byte)).

Definition set_hash (h : string) (p : ReplayProof) : ReplayProof :=
  mkProof (pf_version p) (pf_label p) (pf_baseline_domain p) (pf_candidate_domain p) (pf_baseline_count p)
    (pf_candidate_count p) (pf_baseline_checksum p) (pf_candidate_checksum p) (pf_equivalent p) (pf_outcome p)
    (pf_points p) (pf_generated_at p) h.

Definition compute_proof_hash (p : ReplayProof) : string :=
  match proof_json (set_hash EmptyString p) with
  | Some json => hex_encode (blake3 json)
  | None => "hash-error"
  end.

Definition build_proof (now : Z) (label : string) (bd cd : Domain) (nb nc : nat) (kb kc : ReplayChecksum)
    (equivalent : bool) (o : ProofOutcome) (points : list ProofDivergencePoint) : ReplayProof :=
  let p := mkProof 1 label (domain_into bd) (domain_into cd) nb nc (ck_summary kb) (ck_summary kc)
    equivalent o points now EmptyString in
  set_hash (compute_proof_hash p) p.

Definition prove_replay_equivalence {E} (now : Z) (label : string) (baseline candidate : list Tr.TraceEvent)
    (bd cd : Domain) : outcome E ReplayProof :=
  let kb := from_events baseline in
  let kc := from_events candidate in
  let nb := length baseline in
  let nc := length candidate in
  let build := build_proof now label bd cd nb nc kb kc in
  if negb (nb =? nc)%nat then Ok (build false OLengthMismatch [])
  else
    let? rb := reconstruct b ri baseline in
    let? rc := reconstruct b ri candidate in
    let diffs := compare_snapshots (rc_snapshots rb) (rc_snapshots rc) in
    match diffs with
    | [] => Ok (build true OIdentical [])
    | _ =>
        let points := point_at rb rc <$> diffs in
        let decision_count := length (filter (fun p => pt_timing_only p = false) points) in
        Ok (build (decision_count =? 0)%nat (if (0 <? decision_count)%nat then ODivergent else OTimingOnly) points)
    end.

Definition verify_replay_proof (p : ReplayProof) (baseline candidate : list Tr.TraceEvent)
    : outcome ProofVerificationError unit :=
  let kb := ck_summary (from_events baseline) in
  let kc := ck_summary (from_events candidate) in
  if negb (bool_decide (pf_baseline_checksum p = kb)) then Err (BaselineChecksumMismatch (pf_baseline_checksum p) kb)
  else if negb (bool_decide (pf_candidate_checksum p = kc)) then Err (CandidateChecksumMismatch (pf_candidate_checksum p) kc)
  else if negb (pf_baseline_count p =? length baseline)%nat
  then Err (EventCountMismatch "baseline" (pf_baseline_count p) (length baseline))
  else if negb (pf_candidate_count p =? length candidate)%nat
  then Err (EventCountMismatch "candidate" (pf_candidate_count p) (length candidate))
  else
    let? rb := reconstruct b ri baseline in
    let? rc := reconstruct b ri candidate in
    let diffs := compare_snapshots (rc_snapshots rb) (rc_snapshots rc) in
    let actual := match diffs with [] => true | _ => forallb (same_at rb rc) diffs end in
    if negb (bool_decide (pf_equivalent p = actual)) then Err (OutcomeMismatch (pf_equivalent p) actual)
    else Ok tt.
End proofs.

(** ** Determinism: [verifier.rs] *)

Section verifier.
Context `{B3 : Blake3} `{C : Codec} (b : Build) (ri : bool).

Record VerifierConfig := mkVCfg {
  iterations : nat;
  verify_checksums : bool;
  verify_invariants : bool;
  stop_on_failure : bool;
  replay_config : ReplayConfig;
}.

Definition VerifierConfig_default : VerifierConfig := mkVCfg 3 true true false ReplayConfig_default.

Record VerificationResult := mkVRes {
  deterministic : bool;
  iterations_run : nat;
  baseline_checksum : option ReplayChecksum;
  iteration_checksums : list ReplayChecksum;
  divergence : option DivergenceReport;
  violations : list InvariantViolation;
  summaries : list ReplaySummary;
}.

Definition passed (r : VerificationResult) : bool :=
  deterministic r && match violations r with [] => true | _ => false end.

Definition result_summary (r : VerificationResult) : string :=
  if passed r
  then "Verification PASSED: " +:+ pretty (iterations_run r) +:+ " iterations, deterministic, no violations"
  else "Verification FAILED: " +:+ pretty (iterations_run r) +:+ "/"
    +:+ (match divergence r with Some _ => " DIVERGENCE DETECTED." | None => EmptyString end) +:+ "/"
    +:+ (match violations r with [] => EmptyString | vs => " " +:+ pretty (length vs) +:+ " invariant violations." end).

(** The locals of the loop. *)
Record VLoop := mkVL {
  vl_checksums : list ReplayChecksum;
  vl_summaries : list ReplaySummary;
  vl_divergence : option DivergenceReport;
}.

(** One iteration: [inl] continues, [inr] returns. *)
Definition verify_iteration {E} (cfg : VerifierConfig) (es : list Tr.TraceEvent) (i : nat) (l : VLoop)
    : outcome E (VLoop + VerificationResult) :=
  match (Replay.replay b ri es (Replay.Engine_new (replay_config cfg))).1 with
  | Panic msg => Panic msg
  | Err _ => Ok (inr (mkVRes false i (head (vl_checksums l)) (vl_checksums l)
      (Some (report_divergent [LengthMismatch (length es) 0] 0)) [] (vl_summaries l)))
  | Ok s =>
      let done checksums div := Ok (inl (mkVL checksums (vl_summaries l ++ [s]) div)) in
      if verify_checksums cfg then
        let checksum := from_events es in
        match i, vl_checksums l with
        | 0%nat, cs => done (cs ++ [checksum]) (vl_divergence l)
        | _, [] => Panic "index out of bounds"
        | _, base :: _ =>
            if negb (ck_matches base checksum) then
              let div := Some (detect_divergence es es) in
              if stop_on_failure cfg
              then Ok (inr (mkVRes false (i + 1) (Some base) (vl_checksums l) div [] (vl_summaries l)))
              else done (vl_checksums l ++ [checksum]) div
            else done (vl_checksums l ++ [checksum]) (vl_divergence l)
        end
      else done (vl_checksums l) (vl_divergence l)
  end.

Fixpoint verify_loop {E} (cfg : VerifierConfig) (es : list Tr.TraceEvent) (i n : nat) (l : VLoop)
    : outcome E (VLoop + VerificationResult) :=
  match n with
  | O => Ok (inl l)
  | S n =>
      let? x := verify_iteration cfg es i l in
      match x with inl l => verify_loop cfg es (S i) n l | inr r => Ok (inr r) end
  end.

Definition verify_determinism {E} (cfg : VerifierConfig) (es : list Tr.TraceEvent) : outcome E VerificationResult :=
  let? x := verify_loop cfg es 0 (iterations cfg) (mkVL [] [] None) in
  match x with
  | inr r => Ok r
  | inl l =>
      let vs := if verify_invariants cfg then validator_validate with_defaults es else [] in
      Ok (mkVRes (match vl_divergence l with None => true | Some _ => false end) (iterations cfg)
            (head (vl_checksums l)) (vl_checksums l) (vl_divergence l) vs (vl_summaries l))
  end.
End verifier.

(** ** Cross-domain comparison *)

Record CrossDomainResult := mkCross {
  cd_baseline_domain : Domain;
  cd_candidate_domain : Domain;
  cd_events_compared : nat;
  cd_equivalent : bool;
  timing_differences : list nat;
  decision_differences : list nat;
  baseline_snapshots : list StateSnapshot;
  candidate_snapshots : list StateSnapshot;
  cd_summary : string;
}.

(** Derived [Debug] of [Domain]. *)
Definition domain_debug (d : Domain) : string :=
  match d with
  | CpuSimulation => "CpuSimulation" | DiskIo => "DiskIo" | FailureInjected => "FailureInjected"
  | Deterministic => "Deterministic" | RealIo => "RealIo"
  end.

Definition cross_identical (bd cd : Domain) (n : nat) : CrossDomainResult :=
  mkCross bd cd n true [] [] [] []
    ("Cross-domain IDENTICAL: " +:+ domain_debug bd +:+ " vs " +:+ domain_debug cd +:+ " (" +:+ pretty n +:+ " events compared)").

Definition cross_divergent (bd cd : Domain) (n : nat) (timing decision : list nat) (bs cs : list StateSnapshot) : CrossDomainResult :=
  mkCross bd cd n (match decision with [] => true | _ => false end) timing decision bs cs
    (match decision with
     | [] => "Cross-domain EQUIVALENT (timing only): " +:+ domain_debug bd +:+ " vs " +:+ domain_debug cd +:+ " — "
             +:+ pretty (length timing) +:+ " timing diff(s), 0 decision diffs"
     | _ => "Cross-domain DIVERGENT: " +:+ domain_debug bd +:+ " vs " +:+ domain_debug cd +:+ " — "
            +:+ pretty (length timing) +:+ " timing diff(s), " +:+ pretty (length decision) +:+ " decision diff(s)"
     end).

Definition is_fully_equivalent (r : CrossDomainResult) : bool :=
  cd_equivalent r && match timing_differences r with [] => true | _ => false end.
Definition is_timing_only (r : CrossDomainResult) : bool :=
  cd_equivalent r && match timing_differences r with [] => false | _ => true end.
Definition has_decision_divergence (r : CrossDomainResult) : bool :=
  match decision_differences r with [] => false | _ => true end.

Definition verify_cross_domain {E} (b : Build) (ri : bool) (baseline candidate : list Tr.TraceEvent) (bd cd : Domain)
    : outcome E CrossDomainResult :=
  let? rb := reconstruct b ri baseline in
  let? rc := reconstruct b ri candidate in
  let diffs := compare_snapshots (rc_snapshots rb) (rc_snapshots rc) in
  match diffs with
  | [] => Ok (cross_identical bd cd (length baseline))
  | _ => Ok (cross_divergent bd cd (Nat.min (length baseline) (length candidate))
           (filter (fun i => same_at rb rc i = true) diffs) (filter (fun i => same_at rb rc i = false) diffs)
           (rc_snapshots rb) (rc_snapshots rc))
  end.

(** ** What a proof says *)

Definition valid_trace (es : list Tr.TraceEvent) : Prop :=
  Forall (fun e => 0 <= event_size e) es /\ trace_size es < 2 ^ 64.

(** The tracker after event [k]. *)
Definition tracker_after (es : list Tr.TraceEvent) (k : nat) : StateMachine :=
  fold_left (flip apply_event) (take (S k) es) SM_new.

(** Both traces have brought the tracker to the same states, with the same
    byte total, after event [k]. *)
Definition same_progress (es1 es2 : list Tr.TraceEvent) (k : nat) : Prop :=
  tracker_after es1 k = tracker_after es2 k /\ trace_size (take (S k) es1) = trace_size (take (S k) es2).

#[export] Instance StateMachine_eq_dec : EqDecision StateMachine.
Proof. solve_decision. Defined.
#[export] Instance same_progress_dec es1 es2 k : Decision (same_progress es1 es2 k).
Proof. unfold same_progress. apply _. Defined.

Lemma reconstruct_ok {E} b ri es :
  valid_trace es ->
  exists r, reconstruct (E := E) b ri es = Ok r /\ length (rc_snapshots r) = length es /\
    forall k, (k < length es)%nat -> exists s, snapshot_at r k = Some s /\
      chunk_states s = btree_iter (states (tracker_after es k)) /\
      total_allocated s = trace_size (take (S k) es) /\
      total_stored s = count_states is_live (tracker_after es k).
Proof.
  intros [Hs Hw]. destruct (process_from_ok b ri es 0 Recon_new Recon_new_ok Hs Hw) as (r & new & E1 & _ & _ & Hr & Hl & Hnew).
  exists r. unfold reconstruct, process_events, snapshot_at. rewrite E1, Hr. split_and!; [done|done|]. intros k Hk.
  destruct (lookup_lt_is_Some_2 new k ltac:(lia)) as [s Es]. exists s.
  destruct (Hnew k s Es) as (_ & _ & H1 & H2 & H3). split_and!; done.
Qed.

Lemma btree_iter_inj (m1 m2 : gmap ChunkId ChunkState) : btree_iter m1 = btree_iter m2 -> m1 = m2.
Proof.
  intros E. apply map_eq. intros k. apply option_eq. intros v. by rewrite <- !elem_of_btree_iter, E.
Qed.

Section compared.
Context (es1 es2 : list Tr.TraceEvent) (r1 r2 : StateReconstructor).

Definition reconstructs (es : list Tr.TraceEvent) (r : StateReconstructor) : Prop :=
  length (rc_snapshots r) = length es /\
  forall k, (k < length es)%nat -> exists s, snapshot_at r k = Some s /\
    chunk_states s = btree_iter (states (tracker_after es k)) /\
    total_allocated s = trace_size (take (S k) es) /\
    total_stored s = count_states is_live (tracker_after es k).

Hypothesis (H1 : reconstructs es1 r1) (H2 : reconstructs es2 r2).

Lemma same_at_spec k :
  (k < length es1)%nat -> (k < length es2)%nat -> same_at r1 r2 k = true <-> same_progress es1 es2 k.
Proof.
  intros Hk1 Hk2. destruct H1 as [_ H1']. destruct H2 as [_ H2'].
  destruct (H1' k Hk1) as (s1 & E1 & Hc1 & Ha1 & Hst1). destruct (H2' k Hk2) as (s2 & E2 & Hc2 & Ha2 & Hst2).
  unfold same_at, same_decisions. rewrite E1, E2, Hc1, Hc2, Ha1, Ha2, Hst1, Hst2.
  unfold same_progress. rewrite !andb_true_iff, bool_decide_eq_true, !Z.eqb_eq. split.
  - intros [[Hs Ha] _]. split; [|done]. apply btree_iter_inj in Hs. destruct (tracker_after es1 k), (tracker_after es2 k).
    simpl in *. by subst.
  - intros [-> ->]. done.
Qed.

Lemma diffs_range k :
  k ∈ compare_snapshots (rc_snapshots r1) (rc_snapshots r2) -> (k < length es1)%nat /\ (k < length es2)%nat.
Proof.
  intros (j & x & y & -> & Hx & Hy & _)%compare_from_spec.
  apply lookup_lt_Some in Hx, Hy. destruct H1 as [<- _], H2 as [<- _]. simpl. lia.
Qed.

(** An index without a reported difference has the same decisions. *)
Lemma undiffered k :
  (k < length es1)%nat -> (k < length es2)%nat ->
  k ∉ compare_snapshots (rc_snapshots r1) (rc_snapshots r2) -> same_at r1 r2 k = true.
Proof.
  intros Hk1 Hk2 Hn. destruct H1 as [_ H1']. destruct H2 as [_ H2'].
  destruct (H1' k Hk1) as (s1 & E1 & _). destruct (H2' k Hk2) as (s2 & E2 & _).
  unfold same_at. rewrite E1, E2. destruct (differs s1 s2) eqn:Ed.
  - exfalso. apply Hn, compare_from_spec. exists k, s1, s2. done.
  - unfold differs in Ed. unfold same_decisions. case_bool_decide; [|done]. simpl in Ed |- *.
    destruct (_ || _ || _); [done|]. apply orb_false_iff in Ed as [Ha%negb_false_iff Hb%negb_false_iff].
    by rewrite Ha, Hb.
Qed.

Lemma all_same :
  forallb (same_at r1 r2) (compare_snapshots (rc_snapshots r1) (rc_snapshots r2)) = true <->
  forall k, (k < length es1)%nat -> (k < length es2)%nat -> same_progress es1 es2 k.
Proof.
  rewrite forallb_forall. split.
  - intros Hall k Hk1 Hk2. apply same_at_spec; [done..|].
    destruct (decide (k ∈ compare_snapshots (rc_snapshots r1) (rc_snapshots r2))) as [Hin|Hin]; [|by apply undiffered].
    by apply Hall, list_elem_of_In.
  - intros Hall k Hin%list_elem_of_In. destruct (diffs_range k Hin). apply same_at_spec; [done..|]. by apply Hall.
Qed.

(** Counting the decision points is asking whether every difference is timing. *)
Lemma decision_points (l : list nat) :
  (length (filter (fun p => pt_timing_only p = false) (point_at r1 r2 <$> l)) =? 0)%nat = forallb (same_at r1 r2) l.
Proof.
  induction l as [|k l IH]; [done|]. cbn [fmap list_fmap]. unfold point_at at 1. rewrite filter_cons.
  destruct (same_at r1 r2 k) eqn:E; cbn [forallb]; rewrite E; cbn [pt_timing_only point_timing andb].
  - rewrite decide_False by done. exact IH.
  - destruct (snapshot_at r1 k), (snapshot_at r2 k); cbn [pt_timing_only point_decision];
      rewrite decide_True by done; done.
Qed.
End compared.

Section proof_facts.
Context `{B3 : Blake3} `{C : Codec} (b : Build) (ri : bool) (proof_json : ReplayProof -> option (list byte)).

Lemma actual_forallb rb rc :
  let diffs := compare_snapshots (rc_snapshots rb) (rc_snapshots rc) in
  match diffs with [] => true | _ => forallb (same_at rb rc) diffs end = forallb (same_at rb rc) diffs.
Proof. by destruct (compare_snapshots (rc_snapshots rb) (rc_snapshots rc)). Qed.

(** What a proof of two valid traces holds. *)
Lemma prove_built {E} now label es1 es2 bd cd r1 r2 :
  reconstruct (E := E) b ri es1 = Ok r1 -> reconstruct (E := E) b ri es2 = Ok r2 ->
  exists o pts,
    prove_replay_equivalence (E := E) b ri proof_json now label es1 es2 bd cd =
    Ok (build_proof proof_json now label bd cd (length es1) (length es2) (from_events es1) (from_events es2)
      ((length es1 =? length es2)%nat && forallb (same_at r1 r2) (compare_snapshots (rc_snapshots r1) (rc_snapshots r2))) o pts).
Proof.
  intros H1 H2. unfold prove_replay_equivalence. destruct (length es1 =? length es2)%nat; cbn [negb andb]; [|by eexists _, _].
  rewrite H1, H2. cbn [obind]. rewrite <- decision_points.
  destruct (compare_snapshots (rc_snapshots r1) (rc_snapshots r2)) as [|k l]; by eexists _, _.
Qed.

Lemma verify_built now label es1 es2 bd cd r1 r2 eqv o pts :
  reconstruct (E := ProofVerificationError) b ri es1 = Ok r1 -> reconstruct (E := ProofVerificationError) b ri es2 = Ok r2 ->
  verify_replay_proof b ri
    (build_proof proof_json now label bd cd (length es1) (length es2) (from_events es1) (from_events es2) eqv o pts) es1 es2 =
  let actual := forallb (same_at r1 r2) (compare_snapshots (rc_snapshots r1) (rc_snapshots r2)) in
  if bool_decide (eqv = actual) then Ok tt else Err (OutcomeMismatch eqv actual).
Proof.
  intros H1 H2. unfold verify_replay_proof, build_proof. cbn [pf_baseline_checksum pf_candidate_checksum pf_baseline_count
    pf_candidate_count pf_equivalent set_hash].
  rewrite !(bool_decide_eq_true_2 (ck_summary _ = _)) by done. rewrite !Nat.eqb_refl. cbn [negb].
  rewrite H1, H2. cbn [obind]. rewrite actual_forallb. cbv zeta. by destruct (bool_decide _).
Qed.

(** C25: A replay proof says "equivalent" exactly when the two traces have the
    same length and, after every event, have brought the chunk tracker to the
    same states with the same byte total; differing times and pressures do not
    count. *)
Theorem proof_equivalent_iff {E} now label es1 es2 bd cd :
  valid_trace es1 -> valid_trace es2 ->
  exists p, prove_replay_equivalence (E := E) b ri proof_json now label es1 es2 bd cd = Ok p /\
    (pf_equivalent p = true <->
     length es1 = length es2 /\ forall k, (k < length es1)%nat -> same_progress es1 es2 k).
Proof.
  intros Hv1 Hv2. destruct (reconstruct_ok (E := E) b ri es1 Hv1) as (r1 & E1 & H1).
  destruct (reconstruct_ok (E := E) b ri es2 Hv2) as (r2 & E2 & H2).
  destruct (prove_built now label es1 es2 bd cd r1 r2 E1 E2) as (o & pts & Hp). eexists. split; [exact Hp|].
  cbn [pf_equivalent build_proof set_hash]. rewrite andb_true_iff, Nat.eqb_eq, (all_same es1 es2 r1 r2 H1 H2).
  split; intros [Hl Hall]; (split; [done|]); intros k Hk; [apply Hall; lia|]. intros _. by apply Hall.
Qed.

(** A generated proof, checked against the traces it was generated from,
    is accepted when the traces have the same length; when they do not, it is
    accepted exactly if they already diverge within the shorter one, and
    otherwise rejected although nothing was tampered with. *)
Theorem prove_then_verify {E} now label es1 es2 bd cd :
  valid_trace es1 -> valid_trace es2 ->
  exists p, prove_replay_equivalence (E := E) b ri proof_json now label es1 es2 bd cd = Ok p /\
    (length es1 = length es2 -> verify_replay_proof b ri p es1 es2 = Ok tt) /\
    (length es1 <> length es2 ->
       ((forall k, (k < length es1)%nat -> (k < length es2)%nat -> same_progress es1 es2 k) ->
          verify_replay_proof b ri p es1 es2 = Err (OutcomeMismatch false true)) /\
       (~ (forall k, (k < length es1)%nat -> (k < length es2)%nat -> same_progress es1 es2 k) ->
          verify_replay_proof b ri p es1 es2 = Ok tt)).
Proof.
  intros Hv1 Hv2. destruct (reconstruct_ok (E := E) b ri es1 Hv1) as (r1 & E1 & H1).
  destruct (reconstruct_ok (E := E) b ri es2 Hv2) as (r2 & E2 & H2).
  destruct (prove_built now label es1 es2 bd cd r1 r2 E1 E2) as (o & pts & Hp). eexists. split; [exact Hp|].
  assert (forall es r, reconstruct (E := E) b ri es = Ok r -> reconstruct (E := ProofVerificationError) b ri es = Ok r) as Hany.
  { intros es r. unfold reconstruct. destruct (process_events b ri es Recon_new) as [[] ?]; intros Hr; by inversion Hr. }
  rewrite (verify_built _ _ _ _ _ _ r1 r2) by (by apply Hany). cbv zeta.
  pose proof (all_same es1 es2 r1 r2 H1 H2) as Hall. set (actual := forallb _ _) in *. split_and!.
  - intros ->%Nat.eqb_eq. by rewrite bool_decide_eq_true_2.
  - intros ->%Nat.eqb_neq. split; intros Hs.
    + apply Hall in Hs as ->. done.
    + destruct actual; [by destruct Hs; apply Hall|done].
Qed.

(** The check reads neither the outcome, the divergence points, the label, the
    time nor the hash of a proof: all of them can be replaced. *)
Lemma verify_ignores p es1 es2 label o pts now h :
  verify_replay_proof b ri (mkProof (pf_version p) label (pf_baseline_domain p) (pf_candidate_domain p)
    (pf_baseline_count p) (pf_candidate_count p) (pf_baseline_checksum p) (pf_candidate_checksum p)
    (pf_equivalent p) o pts now h) es1 es2 = verify_replay_proof b ri p es1 es2.
Proof. done. Qed.
End proof_facts.

Section determinism.
Context `{B3 : Blake3} `{C : Codec} (b : Build) (ri : bool).

Lemma ck_matches_refl k : ck_matches k k = true.
Proof. unfold ck_matches. by rewrite !bool_decide_eq_true_2. Qed.

Lemma verify_loop_ok {E} cfg es s n : forall i l,
  (Replay.replay b ri es (Replay.Engine_new (replay_config cfg))).1 = Ok s ->
  Forall (fun k => k = from_events es) (vl_checksums l) -> vl_divergence l = None ->
  (verify_checksums cfg = true -> i <> 0%nat -> vl_checksums l <> []) ->
  exists l', verify_loop (E := E) b ri cfg es i n l = Ok (inl l') /\ vl_divergence l' = None.
Proof.
  induction n as [|n IH]; intros i l Hr Hk Hd Hi; [by exists l|]. cbn [verify_loop]. unfold verify_iteration. rewrite Hr.
  assert (Forall (fun k => k = from_events es) (vl_checksums l ++ [from_events es])) as Hk'
    by (apply Forall_app; split; [done|by constructor]).
  assert (forall cs, cs ++ [from_events es] <> []) as Hne by (by intros []).
  destruct (verify_checksums cfg) eqn:Ev; [destruct i as [|i]; [|destruct (vl_checksums l) as [|k0 ks] eqn:Ek]|].
  - cbn [obind]. apply IH; cbn [vl_checksums vl_divergence]; auto.
  - by destruct Hi.
  - apply Forall_cons in Hk as Hk0. destruct Hk0 as [-> _]. rewrite ck_matches_refl. cbn [negb obind].
    apply IH; cbn [vl_checksums vl_divergence]; auto.
  - cbn [obind]. apply IH; cbn [vl_checksums vl_divergence]; auto; congruence.
Qed.

(** The determinism check recomputes the checksum of its input, not of the
    replay: it reports "not deterministic" only when a replay fails. *)
Lemma determinism_vacuous {E} cfg es :
  is_panic (Replay.replay b ri es (Replay.Engine_new (replay_config cfg))).1 = false ->
  exists r, verify_determinism (E := E) b ri cfg es = Ok r /\
    (deterministic r = true <->
     iterations cfg = 0%nat \/ is_ok (Replay.replay b ri es (Replay.Engine_new (replay_config cfg))).1 = true).
Proof.
  intros Hp. unfold verify_determinism.
  destruct (Replay.replay b ri es (Replay.Engine_new (replay_config cfg))).1 as [s|err|msg] eqn:Hr; [| |done].
  - destruct (verify_loop_ok (E := E) cfg es s (iterations cfg) 0 (mkVL [] [] None)) as (l & -> & Hd); [done..|].
    cbn [obind]. eexists. split; [done|]. cbn [deterministic]. rewrite Hd. naive_solver.
  - destruct (iterations cfg) as [|n].
    + eexists. split; [done|]. simpl. naive_solver.
    + cbn [verify_loop]. unfold verify_iteration. rewrite Hr. cbn [obind]. eexists. split; [done|]. simpl. naive_solver.
Qed.
End determinism.

Module ProofExample.
#[local] Existing Instance ex_blake3.
#[local] Existing Instance ex_codec.

Definition c1 : ChunkId := mkChunkId [byte_of_Z 1].
Definition longer : list Tr.TraceEvent :=
  [Tr.ChunkCreated c1 8 Ram 1; Tr.ChunkStateChanged c1 Allocated Stored 2; Tr.DaemonStopping 3].
Definition shorter : list Tr.TraceEvent := take 2 longer.
Definition no_json (p : ReplayProof) : option (list byte) := None.

Lemma valid_longer : valid_trace longer.
Proof. split; [repeat constructor; vm_compute; discriminate|vm_compute; reflexivity]. Qed.
Lemma valid_shorter : valid_trace shorter.
Proof. split; [repeat constructor; vm_compute; discriminate|vm_compute; reflexivity]. Qed.

Lemma proof_equivalent_iff_witness :
  exists p, prove_replay_equivalence (E := unit) Debug true no_json 9 "same" longer longer DiskIo RealIo = Ok p /\
    (pf_equivalent p = true <->
     length longer = length longer /\ forall k, (k < length longer)%nat -> same_progress longer longer k).
Proof. apply (proof_equivalent_iff Debug true no_json 9 "same" longer longer DiskIo RealIo); apply valid_longer. Defined.

(** A trace and its prefix: the proof is generated and rejected. *)
Lemma prove_then_verify_witness :
  exists p, prove_replay_equivalence (E := unit) Debug true no_json 9 "cut" longer shorter DiskIo RealIo = Ok p /\
    (length longer = length shorter -> verify_replay_proof Debug true p longer shorter = Ok tt) /\
    (length longer <> length shorter ->
       ((forall k, (k < length longer)%nat -> (k < length shorter)%nat -> same_progress longer shorter k) ->
          verify_replay_proof Debug true p longer shorter = Err (OutcomeMismatch false true)) /\
       (~ (forall k, (k < length longer)%nat -> (k < length shorter)%nat -> same_progress longer shorter k) ->
          verify_replay_proof Debug true p longer shorter = Ok tt)).
Proof.
  apply (prove_then_verify Debug true no_json 9 "cut" longer shorter DiskIo RealIo); [apply valid_longer|apply valid_shorter].
Defined.

Lemma prefix_proof_rejected :
  (let? p := prove_replay_equivalence (E := ProofVerificationError) Debug true no_json 9 "cut" longer shorter DiskIo RealIo in
   verify_replay_proof Debug true p longer shorter) = Err (OutcomeMismatch false true).
Proof. vm_compute. reflexivity. Qed.
End ProofExample.
