(* ===== verification/TraceMetrics.v ===== *)
(** * Metrics of a trace: [ghost-replay/src/metrics.rs]

    One walk counts the events of a trace, and two traces are compared by a
    score over five of the counts.  Every count is at most the number of
    events, so the increments cannot overflow; the subtraction of event
    indices behind the average lifetime can. *)

From Stdlib Require Import ZArith Lia.
From stdpp Require Import base gmap strings pretty list.
From S2P Require Import Prelude Floats CoreTypes Trace.

Open Scope rust_scope.

(** Derived [Debug] of [EvictionReason]. *)
Definition eviction_reason_debug (r : EvictionReason) : string :=
  match r with ByCapacity => "Capacity" | ByPressure => "Pressure" | ByPolicy => "Policy" | ByManual => "Manual" end.

Record ReplayMetrics := mkRM {
  rm_total_events : Z;
  rm_events_per_second : float;
  rm_chunks_created : Z;
  rm_chunks_deleted : Z;
  rm_state_transitions : Z;
  rm_avg_transitions_per_chunk : float;
  rm_transfers_completed : Z;
  rm_transfers_failed : Z;
  rm_transfer_success_rate : float;
  rm_evictions : Z;
  rm_evictions_by_reason : gmap string Z;
  rm_pressure_alerts : Z;
  rm_peak_memory : float;
  rm_peak_vram : float;
  rm_peak_io : float;
  rm_policy_decisions : Z;
  rm_migrations_decided : Z;
  rm_unique_chunks : Z;
  rm_tier_distribution : gmap TierId Z;
  rm_avg_lifetime : float;
  rm_time_range : Z * Z;
}.

Definition f_zero : float := SpecFloat.S754_zero false.

(** [*map.entry(k).or_insert(0) += 1] *)
Definition bump_entry {K} `{Countable K} (k : K) (m : gmap K Z) : gmap K Z := <[k := default 0 (m !! k) + 1]> m.

(** The counters and maps of the walk. *)
Record MWalk := mkMW {
  mw_created : Z; mw_deleted : Z; mw_transitions : Z; mw_completed : Z; mw_failed : Z;
  mw_evictions : Z; mw_reasons : gmap string Z; mw_alerts : Z;
  mw_memory : float; mw_vram : float; mw_io : float; mw_decisions : Z; mw_migrations : Z;
  mw_range : Z * Z;
  create_at : gmap ChunkId Z; delete_at : gmap ChunkId Z; transition_counts : gmap ChunkId Z; tiers : gmap TierId Z;
}.
Definition MW_new : MWalk :=
  mkMW 0 0 0 0 0 0 ∅ 0 f_zero f_zero f_zero 0 0 (0, 0) ∅ ∅ ∅ ∅.

Definition widen_range (ts : Z) (t : Z * Z) : Z * Z :=
  if bool_decide (t = (0, 0)) then (ts, ts) else (Z.min t.1 ts, Z.max t.2 ts).

Definition metrics_step (i : Z) (e : Tr.TraceEvent) (w : MWalk) : MWalk :=
  let '(mkMW cr de tr co fa ev re al me vr io dc mi rg ca da tc ti) := w in
  let rg := widen_range (Tr.timestamp e) rg in
  match e with
  | Tr.ChunkCreated c _ tier _ =>
      mkMW (cr + 1) de tr co fa ev re al me vr io dc mi rg (<[c := i]> ca) da tc (bump_entry tier ti)
  | Tr.ChunkDeleted c _ _ => mkMW cr (de + 1) tr co fa ev re al me vr io dc mi rg ca (<[c := i]> da) tc ti
  | Tr.ChunkStateChanged c _ _ _ => mkMW cr de (tr + 1) co fa ev re al me vr io dc mi rg ca da (bump_entry c tc) ti
  | Tr.TransferCompleted _ _ _ _ _ _ => mkMW cr de tr (co + 1) fa ev re al me vr io dc mi rg ca da tc ti
  | Tr.TransferFailed _ _ _ _ _ _ => mkMW cr de tr co (fa + 1) ev re al me vr io dc mi rg ca da tc ti
  | Tr.Eviction _ _ reason _ =>
      mkMW cr de tr co fa (ev + 1) (bump_entry (eviction_reason_debug reason) re) al me vr io dc mi rg ca da tc ti
  | Tr.PressureAlert m v x _ =>
      mkMW cr de tr co fa ev re (al + 1) (fmax me m) (fmax vr v) (fmax io x) dc mi rg ca da tc ti
  | Tr.PolicyDecision _ from to _ _ =>
      mkMW cr de tr co fa ev re al me vr io (dc + 1) (if bool_decide (from = to) then mi else mi + 1) rg ca da tc ti
  | _ => mkMW cr de tr co fa ev re al me vr io dc mi rg ca da tc ti
  end.

Fixpoint metrics_walk (i : Z) (es : list Tr.TraceEvent) (w : MWalk) : MWalk :=
  match es with [] => w | e :: es => metrics_walk (i + 1) es (metrics_step i e w) end.

(** The sum of the lifetimes of the chunks with a creation and a deletion. *)
Fixpoint lifetimes {E} (b : Build) (created : list (ChunkId * Z)) (deleted : gmap ChunkId Z) (total count : Z)
    : outcome E (Z * Z) :=
  match created with
  | [] => Ok (total, count)
  | (c, create_idx) :: rest =>
      match deleted !! c with
      | Some delete_idx =>
          let? d := arith b 64 (delete_idx - create_idx) in
          let? total := arith b 64 (total + d) in
          lifetimes b rest deleted total (count + 1)
      | None => lifetimes b rest deleted total count
      end
  end.

Definition ratio (x y : Z) : float := if 0 <? y then fdiv f64 (of_int f64 x) (of_int f64 y) else f_zero.

Definition from_events {E} (b : Build) (es : list Tr.TraceEvent) : outcome E ReplayMetrics :=
  let w := metrics_walk 0 es MW_new in
  let unique := Z.of_nat (size (create_at w)) in
  let? lc := lifetimes b (btree_iter (create_at w)) (delete_at w) 0 0 in
  let '(total_lifetime, lifetime_count) := lc in
  Ok (mkRM (Z.of_nat (length es)) f_zero (mw_created w) (mw_deleted w) (mw_transitions w)
    (ratio (mw_transitions w) unique) (mw_completed w) (mw_failed w)
    (ratio (mw_completed w) (mw_completed w + mw_failed w)) (mw_evictions w) (mw_reasons w) (mw_alerts w)
    (mw_memory w) (mw_vram w) (mw_io w) (mw_decisions w) (mw_migrations w) unique (tiers w)
    (ratio total_lifetime lifetime_count) (mw_range w)).

(** ** Comparison of two traces *)

Inductive ComparisonWinner := WBaseline | WCandidate | WTie.

Definition winner_display (w : ComparisonWinner) : string :=
  match w with WBaseline => "baseline" | WCandidate => "candidate" | WTie => "tie" end.

Record PolicyComparison := mkCmp {
  cmp_baseline_name : string;
  cmp_candidate_name : string;
  cmp_baseline : ReplayMetrics;
  cmp_candidate : ReplayMetrics;
  cmp_winner : ComparisonWinner;
  cmp_deltas : gmap string float;
  cmp_summary : string;
}.

Definition deltas (x y : ReplayMetrics) : gmap string float :=
  let sub a b := fsub f64 (of_int f64 a) (of_int f64 b) in
  <["avg_transitions_per_chunk" := fsub f64 (rm_avg_transitions_per_chunk x) (rm_avg_transitions_per_chunk y)]>
  (<["peak_memory_pressure" := fsub f64 (cast f64 (rm_peak_memory x)) (cast f64 (rm_peak_memory y))]>
  (<["pressure_alerts" := sub (rm_pressure_alerts x) (rm_pressure_alerts y)]>
  (<["transfer_success_rate" := fsub f64 (rm_transfer_success_rate y) (rm_transfer_success_rate x)]>
  (<["transfer_failures" := sub (rm_transfers_failed x) (rm_transfers_failed y)]>
  (<["evictions" := sub (rm_evictions x) (rm_evictions y)]> ∅))))).

(** One criterion: a point to the side that [better] prefers. *)
Definition point (better_b better_c : bool) (s : Z * Z) : Z * Z :=
  if better_b then (s.1 + 1, s.2) else if better_c then (s.1, s.2 + 1) else s.

Definition scores (x y : ReplayMetrics) : Z * Z :=
  let s := point (rm_evictions x <? rm_evictions y) (rm_evictions y <? rm_evictions x) (0, 0) in
  let s := point (fgt (rm_transfer_success_rate x) (rm_transfer_success_rate y))
                 (fgt (rm_transfer_success_rate y) (rm_transfer_success_rate x)) s in
  let s := point (rm_pressure_alerts x <? rm_pressure_alerts y) (rm_pressure_alerts y <? rm_pressure_alerts x) s in
  let s := point (flt (rm_peak_memory x) (rm_peak_memory y)) (flt (rm_peak_memory y) (rm_peak_memory x)) s in
  point (rm_transfers_failed x <? rm_transfers_failed y) (rm_transfers_failed y <? rm_transfers_failed x) s.

Definition winner (s : Z * Z) : ComparisonWinner :=
  if s.2 <? s.1 then WBaseline else if s.1 <? s.2 then WCandidate else WTie.

Definition compare_traces {E} (b : Build) (baseline candidate : list Tr.TraceEvent) (baseline_name candidate_name : string)
    : outcome E PolicyComparison :=
  let? x := from_events b baseline in
  let? y := from_events b candidate in
  let s := scores x y in
  Ok (mkCmp baseline_name candidate_name x y (winner s) (deltas x y)
    ("Policy comparison: " +:+ baseline_name +:+ " (score " +:+ pretty s.1 +:+ ") vs " +:+ candidate_name
     +:+ " (score " +:+ pretty s.2 +:+ ") — winner: " +:+ winner_display (winner s))).

(** ** What is counted *)

Definition count_events (f : Tr.TraceEvent -> bool) (es : list Tr.TraceEvent) : Z :=
  Z.of_nat (length (filter (fun e => f e = true) es)).

Definition is_created (e : Tr.TraceEvent) : bool := match e with Tr.ChunkCreated _ _ _ _ => true | _ => false end.
Definition is_deleted (e : Tr.TraceEvent) : bool := match e with Tr.ChunkDeleted _ _ _ => true | _ => false end.
Definition is_changed (e : Tr.TraceEvent) : bool := match e with Tr.ChunkStateChanged _ _ _ _ => true | _ => false end.
Definition is_completed (e : Tr.TraceEvent) : bool := match e with Tr.TransferCompleted _ _ _ _ _ _ => true | _ => false end.
Definition is_failed (e : Tr.TraceEvent) : bool := match e with Tr.TransferFailed _ _ _ _ _ _ => true | _ => false end.
Definition is_eviction (e : Tr.TraceEvent) : bool := match e with Tr.Eviction _ _ _ _ => true | _ => false end.
Definition is_alert (e : Tr.TraceEvent) : bool := match e with Tr.PressureAlert _ _ _ _ => true | _ => false end.

Lemma count_snoc f es e : count_events f (es ++ [e]) = count_events f es + if f e then 1 else 0.
Proof.
  unfold count_events. rewrite filter_app, length_app, filter_cons, filter_nil.
  destruct (f e); simpl; lia.
Qed.

Lemma metrics_walk_snoc es e : forall i w,
  metrics_walk i (es ++ [e]) w = metrics_step (i + Z.of_nat (length es)) e (metrics_walk i es w).
Proof.
  induction es as [|x es IH]; intros i w; simpl; [by rewrite Z.add_0_r|]. rewrite IH. f_equal. lia.
Qed.

(** Where the last creation and deletion of a chunk are. *)
Lemma last_at es : let w := metrics_walk 0 es MW_new in
  (forall c i, create_at w !! c = Some i -> 0 <= i /\ exists sz t ts, es !! Z.to_nat i = Some (Tr.ChunkCreated c sz t ts)) /\
  (forall c i, delete_at w !! c = Some i -> 0 <= i /\ exists t ts, es !! Z.to_nat i = Some (Tr.ChunkDeleted c t ts)).
Proof.
  cbv zeta. induction es as [|e es [IH1 IH2]] using rev_ind; [done|].
  rewrite metrics_walk_snoc. destruct (metrics_walk 0 es MW_new) as [cr de tr co fa ev re al me vr io dc mi rg ca da tc ti].
  cbn [create_at delete_at] in IH1, IH2.
  assert (forall c i, ca !! c = Some i -> 0 <= i /\ exists sz t ts, (es ++ [e]) !! Z.to_nat i = Some (Tr.ChunkCreated c sz t ts)) as H1.
  { intros c i Hc. destruct (IH1 c i Hc) as (? & ? & ? & ? & He). split; [done|]. do 3 eexists. by apply lookup_app_l_Some. }
  assert (forall c i, da !! c = Some i -> 0 <= i /\ exists t ts, (es ++ [e]) !! Z.to_nat i = Some (Tr.ChunkDeleted c t ts)) as H2.
  { intros c i Hc. destruct (IH2 c i Hc) as (? & ? & ? & He). split; [done|]. do 2 eexists. by apply lookup_app_l_Some. }
  assert (forall x, (es ++ [x]) !! Z.to_nat (0 + Z.of_nat (length es)) = Some x) as Hl
    by (intros x; apply list_lookup_middle; lia).
  destruct e; split; cbn [metrics_step create_at delete_at]; try done.
  - intros c i. destruct (decide (c = chunk_id)) as [->|]; [|by rewrite lookup_insert_ne; auto].
    rewrite lookup_insert_eq. intros [= <-]. split; [lia|]. do 3 eexists. apply Hl.
  - intros c i. destruct (decide (c = chunk_id)) as [->|]; [|by rewrite lookup_insert_ne; auto].
    rewrite lookup_insert_eq. intros [= <-]. split; [lia|]. do 2 eexists. apply Hl.
Qed.

Lemma metrics_counts es : let w := metrics_walk 0 es MW_new in
  mw_created w = count_events is_created es /\ mw_deleted w = count_events is_deleted es /\
  mw_transitions w = count_events is_changed es /\ mw_completed w = count_events is_completed es /\
  mw_failed w = count_events is_failed es /\ mw_evictions w = count_events is_eviction es /\
  mw_alerts w = count_events is_alert es.
Proof.
  cbv zeta. induction es as [|e es IH] using rev_ind; [done|]. rewrite metrics_walk_snoc, !count_snoc.
  destruct (metrics_walk 0 es MW_new) as [cr de tr co fa ev re al me vr io dc mi rg ca da tc ti].
  cbn [mw_created mw_deleted mw_transitions mw_completed mw_failed mw_evictions mw_alerts] in IH.
  destruct IH as (-> & -> & -> & -> & -> & -> & ->).
  destruct e; cbn [metrics_step mw_created mw_deleted mw_transitions mw_completed mw_failed mw_evictions mw_alerts
    is_created is_deleted is_changed is_completed is_failed is_eviction is_alert]; split_and!; lia.
Qed.

Lemma created_size es : (size (create_at (metrics_walk 0 es MW_new)) <= length es)%nat.
Proof.
  induction es as [|e es IH] using rev_ind; [done|]. rewrite metrics_walk_snoc, length_app. simpl length.
  destruct (metrics_walk 0 es MW_new) as [cr de tr co fa ev re al me vr io dc mi rg ca da tc ti].
  cbn [create_at] in IH. destruct e; cbn [metrics_step create_at]; try lia.
  rewrite map_size_insert. case_match; simpl; lia.
Qed.

(** No chunk is created after it was deleted. *)
Definition never_recreated (es : list Tr.TraceEvent) : Prop :=
  forall j k c t ts sz t' ts', es !! j = Some (Tr.ChunkDeleted c t ts) -> es !! k = Some (Tr.ChunkCreated c sz t' ts') -> (k < j)%nat.

Lemma lifetimes_ok {E} b (del : gmap ChunkId Z) n l : forall total count,
  (forall c i d, (c, i) ∈ l -> del !! c = Some d -> 0 <= i <= d /\ d <= n) -> 0 <= n -> 0 <= total ->
  total + n * Z.of_nat (length l) < 2 ^ 64 ->
  exists t c, lifetimes (E := E) b l del total count = Ok (t, c).
Proof.
  induction l as [|[c i] l IH]; intros total count Hl Hn Ht Hw; [by eexists _, _|]. cbn [lifetimes]. simpl length in Hw.
  assert (forall c i d, (c, i) ∈ l -> del !! c = Some d -> 0 <= i <= d /\ d <= n) as Hl'.
  { intros c' i' d' Hin. apply Hl. by apply list_elem_of_further. }
  destruct (del !! c) as [d|] eqn:Ed; [|apply IH; [done..|nia]].
  destruct (Hl c i d (list_elem_of_here _ _) Ed) as [Hi Hd].
  rewrite !arith_in by (unfold in_u; nia). cbn [obind]. rewrite !arith_in by (unfold in_u; nia). cbn [obind].
  apply IH; [done|lia|lia|nia].
Qed.

(** On a trace that never creates a chunk again after deleting it, the
    metrics are computed without panic and count exactly the events of each
    kind. *)
Theorem metrics_exact {E} b es :
  never_recreated es -> Z.of_nat (length es) * Z.of_nat (length es) < 2 ^ 64 ->
  exists m, from_events (E := E) b es = Ok m /\
    rm_total_events m = Z.of_nat (length es) /\ rm_chunks_created m = count_events is_created es /\
    rm_chunks_deleted m = count_events is_deleted es /\ rm_state_transitions m = count_events is_changed es /\
    rm_transfers_completed m = count_events is_completed es /\ rm_transfers_failed m = count_events is_failed es /\
    rm_evictions m = count_events is_eviction es /\ rm_pressure_alerts m = count_events is_alert es.
Proof.
  intros Hnr Hw. pose proof (last_at es) as [H1 H2]. pose proof (metrics_counts es) as Hc. cbv zeta in Hc.
  unfold from_events. set (w := metrics_walk 0 es MW_new) in *.
  pose proof (created_size es) as Hsz. fold w in Hsz.
  destruct (lifetimes_ok (E := E) b (delete_at w) (Z.of_nat (length es)) (btree_iter (create_at w)) 0 0) as (t & c & ->).
  - intros c i d Hin%elem_of_btree_iter Hd. destruct (H1 c i Hin) as (Hi & ? & ? & ? & Ei).
    destruct (H2 c d Hd) as (Hdd & ? & ? & Edd). pose proof (Hnr _ _ _ _ _ _ _ _ Edd Ei).
    apply lookup_lt_Some in Edd. lia.
  - lia.
  - lia.
  - rewrite length_btree_iter. nia.
  - cbn [obind]. eexists. split; [reflexivity|]. split; [done|]. exact Hc.
Qed.

(** ** The comparison is fair *)

Lemma flt_asym x y : flt x y = true -> flt y x = false.
Proof.
  intros H. destruct (FloatOrder.flt_not_nan x y H) as [Hx Hy]. rewrite FloatOrder.flt_key in H by done.
  rewrite FloatOrder.flt_key, (FloatOrder.lex_antisym (FloatOrder.key x)) by done. by destruct (FloatOrder.lex _ _).
Qed.

Lemma Zltb_asym x y : (x <? y) = true -> (y <? x) = false.
Proof. intros H%Z.ltb_lt. apply Z.ltb_ge. lia. Qed.

Definition swap (s : Z * Z) : Z * Z := (s.2, s.1).

Lemma point_swap p q s : (p = true -> q = false) -> point q p (swap s) = swap (point p q s).
Proof. intros H. destruct p; [rewrite H by done|destruct q]; done. Qed.

Lemma scores_swap x y : scores y x = swap (scores x y).
Proof.
  unfold scores. change (0, 0) with (swap (0, 0)) at 1.
  rewrite !point_swap; [done|..]; first [apply Zltb_asym|apply flt_asym].
Qed.

Definition opposite (w : ComparisonWinner) : ComparisonWinner :=
  match w with WBaseline => WCandidate | WCandidate => WBaseline | WTie => WTie end.

Lemma winner_swap s : winner (swap s) = opposite (winner s).
Proof.
  destruct s as [a c]. unfold winner, swap. simpl. destruct (Z.ltb_spec a c), (Z.ltb_spec c a); try done; lia.
Qed.

(** The comparison of two traces does not depend on which one is called
    the baseline: exchanging them exchanges the winner, and a trace compared
    with itself is a tie. *)
Theorem comparison_symmetric {E} b es1 es2 n1 n2 c :
  compare_traces (E := E) b es1 es2 n1 n2 = Ok c ->
  (exists c', compare_traces (E := E) b es2 es1 n2 n1 = Ok c' /\ cmp_winner c' = opposite (cmp_winner c)) /\
  (es1 = es2 -> cmp_winner c = WTie).
Proof.
  unfold compare_traces. destruct (from_events b es1) as [x| |] eqn:E1; [|done..].
  destruct (from_events b es2) as [y| |] eqn:E2; [|done..]. cbn [obind]. intros [= <-]. cbn [cmp_winner]. split.
  - eexists. split; [reflexivity|]. cbn [cmp_winner]. by rewrite scores_swap, winner_swap.
  - intros ->. assert (x = y) as -> by congruence. pose proof (winner_swap (scores y y)) as Hw.
    rewrite <- scores_swap in Hw. by destruct (winner (scores y y)).
Qed.

Module MetricsExample.
Definition c1 : ChunkId := mkChunkId [byte_of_Z 1].
Definition es : list Tr.TraceEvent :=
  [Tr.ChunkCreated c1 8 Ram 1; Tr.ChunkStateChanged c1 Allocated Stored 2; Tr.Eviction c1 Ram ByPolicy 3; Tr.ChunkDeleted c1 Ram 4].

Lemma metrics_exact_witness :
  exists m, from_events (E := unit) Debug es = Ok m /\
    rm_total_events m = Z.of_nat (length es) /\ rm_chunks_created m = count_events is_created es /\
    rm_chunks_deleted m = count_events is_deleted es /\ rm_state_transitions m = count_events is_changed es /\
    rm_transfers_completed m = count_events is_completed es /\ rm_transfers_failed m = count_events is_failed es /\
    rm_evictions m = count_events is_eviction es /\ rm_pressure_alerts m = count_events is_alert es.
Proof.
  apply (metrics_exact Debug es); [|vm_compute; reflexivity].
  intros [|[|[|[|j]]]] [|[|[|[|k]]]] c t ts sz t' ts'; simpl; intros; simplify_eq; lia.
Defined.

Lemma comparison_symmetric_witness :
  exists c, compare_traces (E := unit) Debug es [] "a" "b" = Ok c /\
  (exists c', compare_traces (E := unit) Debug [] es "b" "a" = Ok c' /\ cmp_winner c' = opposite (cmp_winner c)) /\
  (es = [] -> cmp_winner c = WTie).
Proof.
  eexists. split; [reflexivity|]. apply (comparison_symmetric Debug es [] "a" "b"). reflexivity.
Defined.

(** A chunk deleted and created again makes the lifetime subtraction overflow. *)
Lemma recreation_panics :
  is_panic (from_events (E := unit) Debug (es ++ [Tr.ChunkCreated c1 8 Ram 5])) = true.
Proof. vm_compute. reflexivity. Qed.
End MetricsExample.
