(* ===== verification/Export.v ===== *)
(** * Export of a trace: [ghost-replay/src/export.rs]

    A trace is written as JSON, JSON lines or CSV.  The CSV writer quotes
    fields that hold a comma, a quote or a line feed; a reader of the usual
    CSV grammar gets every field back. *)

From Stdlib Require Import ZArith Lia Ascii.
From stdpp Require Import base gmap strings pretty list.
From S2P Require Import Prelude Floats CoreTypes ChunkState Trace TraceMetrics.

Open Scope rust_scope.

Inductive ExportFormat := FJson | FJsonLines | FCsv.

Definition lower (a : ascii) : ascii :=
  let n := N_of_ascii a in if (65 <=? n)%N && (n <=? 90)%N then ascii_of_N (n + 32) else a.
(** [to_lowercase] on ASCII text. *)
Fixpoint to_lowercase (s : string) : string :=
  match s with EmptyString => EmptyString | String a s => String (lower a) (to_lowercase s) end.

Definition format_from_str (s : string) : outcome GhostError ExportFormat :=
  let l := to_lowercase s in
  if bool_decide (l = "json") then Ok FJson
  else if bool_decide (l = "jsonl") || bool_decide (l = "jsonlines") then Ok FJsonLines
  else if bool_decide (l = "csv") then Ok FCsv
  else Err (ReplayError ("unknown export format: " +:+ l)).

Definition format_display (f : ExportFormat) : string :=
  match f with FJson => "json" | FJsonLines => "jsonl" | FCsv => "csv" end.

(** ** CSV *)

Definition comma : ascii := ascii_of_N 44.
Definition quote : ascii := ascii_of_N 34.
Definition newline : ascii := ascii_of_N 10.

Fixpoint contains (c : ascii) (s : string) : bool :=
  match s with EmptyString => false | String a s => bool_decide (a = c) || contains c s end.

(** [replace] of a quote by two. *)
Fixpoint double_quotes (s : string) : string :=
  match s with
  | EmptyString => EmptyString
  | String a s => if bool_decide (a = quote) then String quote (String quote (double_quotes s)) else String a (double_quotes s)
  end.

Definition csv_escape (s : string) : string :=
  if contains comma s || contains quote s || contains newline s
  then String quote (double_quotes s +:+ String quote EmptyString)
  else s.

Definition csv_event_tier (e : Tr.TraceEvent) : string :=
  let arrow x y := tier_display x +:+ "->" +:+ tier_display y in
  match e with
  | Tr.ChunkCreated _ _ t _ | Tr.ChunkDeleted _ t _ | Tr.Eviction _ t _ _ | Tr.BackendRegistered t _ => tier_display t
  | Tr.TransferQueued _ x y _ _ | Tr.TransferCompleted _ x y _ _ _ | Tr.TransferFailed _ x y _ _ _
  | Tr.TransferRetry _ x y _ _ | Tr.TransferCancelled _ x y _ | Tr.PolicyDecision _ x y _ _ => arrow x y
  | Tr.TransferStarted job _ => arrow (from_tier job) (to_tier job)
  | _ => EmptyString
  end.

Section export.
(** [Display] of an [f32], and [serde_json] of one event and of a list. *)
Context (f32_display : float -> string).
Context (json_event : Tr.TraceEvent -> outcome string string) (json_pretty : list Tr.TraceEvent -> outcome string string).

Definition event_extra (e : Tr.TraceEvent) : string :=
  match e with
  | Tr.ChunkCreated _ sz _ _ => "size=" +:+ pretty sz
  | Tr.ChunkStateChanged _ x y _ => state_display x +:+ "->" +:+ state_display y
  | Tr.Eviction _ _ reason _ => "reason=" +:+ eviction_reason_debug reason
  | Tr.TransferCompleted _ _ _ _ d _ => "duration_ms=" +:+ pretty d
  | Tr.TransferFailed _ _ _ error attempt _ => "error=" +:+ error +:+ ",attempt=" +:+ pretty attempt
  | Tr.PressureAlert m v i _ => "mem=" +:+ f32_display m +:+ ",vram=" +:+ f32_display v +:+ ",io=" +:+ f32_display i
  | Tr.PolicyDecision _ _ _ reason _ => "reason=" +:+ reason
  | Tr.CompressionCompleted _ x y _ => "orig=" +:+ pretty x +:+ ",compressed=" +:+ pretty y
  | _ => EmptyString
  end.

Definition csv_row (e : Tr.TraceEvent) : string :=
  let sep := String comma EmptyString in
  pretty (Tr.timestamp e) +:+ sep +:+ csv_escape (Tr.event_type e) +:+ sep
  +:+ default EmptyString (short_hex <$> Tr.trace_chunk_id e) +:+ sep +:+ csv_escape (csv_event_tier e) +:+ sep
  +:+ csv_escape (event_extra e) +:+ String newline EmptyString.

Definition csv_header : string := "timestamp,event_type,chunk_id,tier,extra" +:+ String newline EmptyString.

(** What is written on a sink that accepts every write. *)
Definition export_csv (es : list Tr.TraceEvent) : string := 
  csv_header +:+ foldr (fun e s => csv_row e +:+ s) EmptyString es.

Fixpoint export_jsonl (es : list Tr.TraceEvent) : outcome GhostError string :=
  match es with
  | [] => Ok EmptyString
  | e :: es =>
      let? line := map_err (fun m => ReplayError ("failed to serialize event: " +:+ m)) (json_event e) in
      let? rest := export_jsonl es in
      Ok (line +:+ String newline rest)
  end.

Definition export_json (es : list Tr.TraceEvent) : outcome GhostError string :=
  map_err (fun m => ReplayError ("failed to write JSON: " +:+ m)) (json_pretty es).

Definition export_trace (es : list Tr.TraceEvent) (f : ExportFormat) : outcome GhostError string :=
  match f with FJson => export_json es | FJsonLines => export_jsonl es | FCsv => Ok (export_csv es) end.
End export.

(** ** A CSV reader *)

Inductive PMode := Start | Plain (cur : string) | Quoted (cur : string) | Closing (cur : string).

Definition snoc (s : string) (a : ascii) : string := s +:+ String a EmptyString.

Fixpoint csv_parse (s : string) (m : PMode) (row : list string) : list (list string) :=
  match s with
  | EmptyString =>
      match m with
      | Start => match row with [] => [] | _ => [row ++ [EmptyString]] end
      | Plain cur | Quoted cur | Closing cur => [row ++ [cur]]
      end
  | String a s =>
      let field cur := if bool_decide (a = comma) then csv_parse s Start (row ++ [cur])
                       else (row ++ [cur]) :: csv_parse s Start [] in
      let separates := bool_decide (a = comma) || bool_decide (a = newline) in
      match m with
      | Start => if bool_decide (a = quote) then csv_parse s (Quoted EmptyString) row
                 else if separates then field EmptyString else csv_parse s (Plain (String a EmptyString)) row
      | Plain cur => if separates then field cur else csv_parse s (Plain (snoc cur a)) row
      | Quoted cur => if bool_decide (a = quote) then csv_parse s (Closing cur) row else csv_parse s (Quoted (snoc cur a)) row
      | Closing cur => if bool_decide (a = quote) then csv_parse s (Quoted (snoc cur quote)) row
                       else if separates then field cur else csv_parse s (Plain (snoc cur a)) row
      end
  end.

Definition read_csv (s : string) : list (list string) := csv_parse s Start [].

Lemma string_app_cons a (s t : string) : String a s +:+ t = String a (s +:+ t).
Proof. done. Qed.
Lemma string_empty_app (t : string) : EmptyString +:+ t = t.
Proof. done. Qed.
Lemma string_app_assoc (s t u : string) : (s +:+ t) +:+ u = s +:+ (t +:+ u).
Proof. induction s as [|a s IH]; [done|]. by rewrite !string_app_cons, IH. Qed.
Lemma string_app_nil (s : string) : s +:+ EmptyString = s.
Proof. induction s as [|a s IH]; [done|]. by rewrite string_app_cons, IH. Qed.
Lemma snoc_app s a t : snoc s a +:+ t = s +:+ String a t.
Proof. unfold snoc. by rewrite string_app_assoc. Qed.

Definition plain (s : string) : bool := negb (contains comma s || contains quote s || contains newline s).

Lemma plain_cons a s : plain (String a s) = true <-> a <> comma /\ a <> quote /\ a <> newline /\ plain s = true.
Proof.
  unfold plain. rewrite !negb_true_iff, !orb_false_iff. cbn [contains]. rewrite !orb_false_iff, !bool_decide_eq_false. naive_solver.
Qed.

Lemma parse_plain s : forall t cur row,
  plain s = true -> csv_parse (s +:+ t) (Plain cur) row = csv_parse t (Plain (cur +:+ s)) row.
Proof.
  induction s as [|a s IH]; intros t cur row Hp; [by rewrite string_app_nil|].
  apply plain_cons in Hp as (H1 & H2 & H3 & Hp). rewrite ?string_app_cons, ?string_empty_app; cbn [csv_parse].
  rewrite !(bool_decide_eq_false_2 (a = _)) by done. cbn [orb]. by rewrite IH, snoc_app.
Qed.

Lemma parse_quoted s : forall t cur row,
  csv_parse (double_quotes s +:+ t) (Quoted cur) row = csv_parse t (Quoted (cur +:+ s)) row.
Proof.
  induction s as [|a s IH]; intros t cur row; cbn [double_quotes]; [by rewrite string_app_nil|].
  case_bool_decide as Ha; rewrite ?string_app_cons, ?string_empty_app; cbn [csv_parse].
  - subst a. rewrite bool_decide_eq_true_2 by done. rewrite IH, snoc_app. done.
  - rewrite bool_decide_eq_false_2 by done. by rewrite IH, snoc_app.
Qed.

(** One field followed by a separator. *)
Lemma parse_field s a t row :
  a = comma \/ a = newline ->
  csv_parse (csv_escape s +:+ String a t) Start row =
  if bool_decide (a = comma) then csv_parse t Start (row ++ [s]) else (row ++ [s]) :: csv_parse t Start [].
Proof.
  intros Ha. assert (a <> quote) as Hq by (destruct Ha; subst; done).
  assert ((bool_decide (a = comma) || bool_decide (a = newline)) = true) as Hs.
  { apply orb_true_iff. rewrite !bool_decide_eq_true. done. }
  unfold csv_escape. destruct (contains comma s || contains quote s || contains newline s) eqn:Ec.
  - rewrite ?string_app_cons, ?string_empty_app; cbn [csv_parse]. rewrite (bool_decide_eq_true_2 (quote = quote)) by done.
    rewrite string_app_assoc, parse_quoted. rewrite ?string_app_cons, ?string_empty_app; cbn [csv_parse].
    rewrite (bool_decide_eq_true_2 (quote = quote)) by done. cbn [csv_parse].
    rewrite (bool_decide_eq_false_2 (a = quote)) by done. by rewrite Hs.
  - assert (plain s = true) as Hp by (unfold plain; by rewrite Ec). destruct s as [|x s]; rewrite ?string_app_cons, ?string_empty_app; cbn [csv_parse].
    + rewrite (bool_decide_eq_false_2 (a = quote)) by done. by rewrite Hs.
    + apply plain_cons in Hp as (H1 & H2 & H3 & Hp). rewrite !(bool_decide_eq_false_2 (x = _)) by done. cbn [orb].
      rewrite parse_plain by done. cbn [csv_parse]. by rewrite Hs.
Qed.

(** Numbers and hashes need no quotes. *)
Lemma plain_escape s : plain s = true -> csv_escape s = s.
Proof. unfold plain, csv_escape. by intros ->%negb_true_iff. Qed.

Lemma below_cases (P : N -> Prop) (k : nat) :
  Forall P (N.of_nat <$> seq 0 k) -> forall n, (n < N.of_nat k)%N -> P n.
Proof.
  rewrite Forall_forall. intros H n Hn. apply H, list_elem_of_fmap. exists (N.to_nat n). rewrite elem_of_seq. lia.
Qed.

Lemma digit_plain n : (n < 10)%N -> pretty_N_char n <> comma /\ pretty_N_char n <> quote /\ pretty_N_char n <> newline.
Proof. revert n. apply (below_cases _ 10). repeat (apply Forall_cons; split; [split_and!; discriminate|]). constructor. Qed.

Lemma hex_digit_plain n : (n < 16)%N -> hex_digit n <> comma /\ hex_digit n <> quote /\ hex_digit n <> newline.
Proof. revert n. apply (below_cases _ 16). repeat (apply Forall_cons; split; [split_and!; discriminate|]). constructor. Qed.

Lemma pretty_N_go_plain x : forall s, plain s = true -> plain (pretty_N_go x s) = true.
Proof.
  induction (N.lt_wf_0 x) as [x _ IH]. intros s Hs. destruct (decide (x = 0)%N) as [->|Hx]; [by rewrite pretty_N_go_0|].
  rewrite pretty_N_go_step by lia. apply IH; [apply N.div_lt; lia|]. apply plain_cons.
  destruct (digit_plain (x `mod` 10)) as (? & ? & ?); [apply N.mod_lt; lia|]. done.
Qed.

Lemma pretty_plain z : 0 <= z -> plain (pretty z) = true.
Proof.
  intros Hz. destruct z as [|p|p]; [done| |lia]. change (pretty (Z.pos p)) with (pretty (N.pos p)).
  unfold pretty, pretty_N. rewrite decide_False by done. by apply pretty_N_go_plain.
Qed.

Lemma hex_plain l : plain (hex_encode l) = true.
Proof.
  induction l as [|b l IH]; [done|]. cbn [hex_encode]. pose proof (Byte.to_N_bounded b).
  destruct (hex_digit_plain (Byte.to_N b / 16)) as (? & ? & ?); [apply N.Div0.div_lt_upper_bound; lia|].
  destruct (hex_digit_plain (Byte.to_N b mod 16)) as (? & ? & ?); [apply N.mod_lt; lia|].
  apply plain_cons. split_and!; [done..|]. by apply plain_cons.
Qed.

Definition csv_fields (f32_display : float -> string) (e : Tr.TraceEvent) : list string :=
  [pretty (Tr.timestamp e); Tr.event_type e; default EmptyString (short_hex <$> Tr.trace_chunk_id e); csv_event_tier e;
   event_extra f32_display e].

Lemma parse_row f32_display e t :
  0 <= Tr.timestamp e ->
  csv_parse (csv_row f32_display e +:+ t) Start [] = csv_fields f32_display e :: csv_parse t Start [].
Proof.
  intros Hts. unfold csv_row. cbv zeta. rewrite <- (plain_escape (pretty _)) by (by apply pretty_plain).
  assert (plain (default EmptyString (short_hex <$> Tr.trace_chunk_id e)) = true) as Hc.
  { destruct (Tr.trace_chunk_id e); [apply hex_plain|done]. }
  rewrite <- (plain_escape (default _ _)) by done. rewrite !string_app_assoc. rewrite ?string_app_cons, ?string_empty_app.
  do 4 (rewrite parse_field by (by left); rewrite (bool_decide_eq_true_2 (comma = comma)) by done).
  rewrite parse_field by (by right). done.
Qed.

(** The CSV export of any trace, read back with a CSV reader, is the
    header and one row per event holding that event's time, type, chunk, tier
    and detail, whatever commas, quotes and line feeds the texts contain. *)
Theorem csv_roundtrip f32_display es :
  Forall (fun e => 0 <= Tr.timestamp e) es ->
  read_csv (export_csv f32_display es) =
  ["timestamp"; "event_type"; "chunk_id"; "tier"; "extra"] :: (csv_fields f32_display <$> es).
Proof.
  intros Hts. unfold read_csv, export_csv.
  assert (forall t, csv_parse (csv_header +:+ t) Start [] =
    ["timestamp"; "event_type"; "chunk_id"; "tier"; "extra"] :: csv_parse t Start []) as -> by done.
  f_equal. induction Hts as [|e es He Hts IH]; [done|]. cbn [foldr fmap list_fmap]. by rewrite parse_row, IH.
Qed.

Definition ex_failure : string := "disk, full: " +:+ String quote (String newline "x").

Lemma csv_roundtrip_witness :
  let e := Tr.TransferFailed (mkChunkId [byte_of_Z 171]) Ram Disk ex_failure 2 7 in
  read_csv (export_csv (fun _ => EmptyString) [e]) =
  ["timestamp"; "event_type"; "chunk_id"; "tier"; "extra"] :: (csv_fields (fun _ => EmptyString) <$> [e]).
Proof. apply (csv_roundtrip (fun _ => EmptyString)). repeat constructor. simpl. lia. Defined.
