(* ===== verification/Regions.v ===== *)
(** * Hotness of memory regions: [ghost-core/src/hotness_provider.rs],
    [hotness_summary.rs], [hotness_history.rs], [hotness_confidence.rs]

    A snapshot lists regions with their access counts and temperatures.  It is
    summarised, kept in a bounded history from which trends are read, and
    graded by a confidence score. *)

From Stdlib Require Import ZArith Lia SpecFloat.
From stdpp Require Import base gmap strings list.
From S2P Require Import Prelude Floats CoreTypes Trace.

Open Scope rust_scope.

Inductive Temperature := Hot | Warm | Cold | Frozen.

#[export] Instance Temperature_eq_dec : EqDecision Temperature.
Proof. solve_decision. Defined.

Definition from_access_count (count : Z) : Temperature :=
  if 100 <=? count then Hot else if 20 <=? count then Warm else if 1 <=? count then Cold else Frozen.
Definition temp_to_tier (t : Temperature) : TierId :=
  match t with Hot | Warm => Ram | Cold | Frozen => Disk end.
Definition temp_value (t : Temperature) : Z := match t with Hot => 3 | Warm => 2 | Cold => 1 | Frozen => 0 end.
Definition temp_is_active (t : Temperature) : bool := match t with Hot | Warm => true | _ => false end.
Definition temp_is_inactive (t : Temperature) : bool := match t with Cold | Frozen => true | _ => false end.
Definition temp_display (t : Temperature) : string :=
  match t with Hot => "hot" | Warm => "warm" | Cold => "cold" | Frozen => "frozen" end.

Record AddressRange := mkRange { ar_start : Z; ar_end : Z }.
#[export] Instance AddressRange_eq_dec : EqDecision AddressRange.
Proof. solve_decision. Defined.
Definition range_size (r : AddressRange) : Z := Z.max 0 (ar_end r - ar_start r).

Record HotnessSample := mkSample { address_range : AddressRange; access_count : Z; temperature : Temperature }.
Record HotnessSnapshot := mkHSnap { samples : list HotnessSample; snap_timestamp : Z }.

(** ** Summary *)

Record HotnessSummary := mkHSum {
  hot_count : Z; warm_count : Z; cold_count : Z; frozen_count : Z; total_regions : Z;
  hot_percentage : float; warm_percentage : float; cold_percentage : float; frozen_percentage : float;
  avg_access_count : Z; max_access_count : Z; min_access_count : Z;
}.

Definition zero32f : float := S754_zero false.
Definition count_temp (t : Temperature) (l : list HotnessSample) : Z :=
  Z.of_nat (length (filter (fun s => temperature s = t) l)).

(** [iter().sum::<u64>()] *)
Fixpoint sum_u64 {E} (b : Build) (l : list Z) (acc : Z) : outcome E Z :=
  match l with [] => Ok acc | x :: l => let? acc := arith b 64 (acc + x) in sum_u64 b l acc end.

Definition list_max (l : list Z) : Z := match l with [] => 0 | x :: l => fold_left Z.max l x end.
Definition list_min (l : list Z) : Z := match l with [] => 0 | x :: l => fold_left Z.min l x end.

Definition percentage (n total : Z) : float := fmul f32 (fdiv f32 (of_int f32 n) (of_int f32 total)) (of_int f32 100).

Definition from_snapshot {E} (b : Build) (s : HotnessSnapshot) : outcome E HotnessSummary :=
  let l := samples s in
  let total := Z.of_nat (length l) in
  if total =? 0 then Ok (mkHSum 0 0 0 0 0 zero32f zero32f zero32f zero32f 0 0 0)
  else
    let h := count_temp Hot l in
    let w := count_temp Warm l in
    let c := count_temp Cold l in
    let f := count_temp Frozen l in
    let counts := access_count <$> l in
    let? total_access := sum_u64 b counts 0 in
    Ok (mkHSum h w c f total (percentage h total) (percentage w total) (percentage c total) (percentage f total)
      (total_access / total) (list_max counts) (list_min counts)).

Definition dominant_temperature (s : HotnessSummary) : Temperature :=
  if 0 <? hot_count s then Hot else if 0 <? warm_count s then Warm else if 0 <? cold_count s then Cold else Frozen.
Definition active_count (s : HotnessSummary) : Z := hot_count s + warm_count s.
Definition inactive_count (s : HotnessSummary) : Z := cold_count s + frozen_count s.
Definition is_hot_workload (s : HotnessSummary) : bool :=
  if total_regions s =? 0 then false else total_regions s / 2 <? active_count s.
Definition is_cold_workload (s : HotnessSummary) : bool :=
  if total_regions s =? 0 then false else total_regions s / 2 <? inactive_count s.
Definition active_percentage (s : HotnessSummary) : float := fadd f32 (hot_percentage s) (warm_percentage s).
Definition inactive_percentage (s : HotnessSummary) : float := fadd f32 (cold_percentage s) (frozen_percentage s).

(** ** History and trends *)

Inductive TemperatureTrend := TStable (t : Temperature) | TWarming (a b : Temperature) | TCooling (a b : Temperature) | TFlapping.
Inductive AccessTrend := AIncreasing | ADecreasing | AStable | AVolatile.

Record HotnessHistory := mkHist { hist_snapshots : list HotnessSnapshot; max_snapshots : nat }.
Definition HotHistory_new (max : nat) : HotnessHistory := mkHist [] (Nat.max max 1).

(** [while len > max { remove(0) }] *)
Fixpoint trim {A} (fuel max : nat) (l : list A) : list A :=
  match fuel with
  | O => l
  | S n => if (max <? length l)%nat then trim n max (drop 1 l) else l
  end.
Definition hist_push (s : HotnessSnapshot) (h : HotnessHistory) : HotnessHistory :=
  let l := hist_snapshots h ++ [s] in mkHist (trim (length l) (max_snapshots h) l) (max_snapshots h).

Definition sample_of (region : AddressRange) (s : HotnessSnapshot) : option HotnessSample :=
  List.find (fun x => bool_decide (address_range x = region)) (samples s).

Fixpoint count_changes (l : list Temperature) : nat :=
  match l with
  | x :: l' => match l' with y :: _ => (if bool_decide (y = x) then 0 else 1) + count_changes l' | [] => 0 end
  | [] => 0
  end.

(** The trend of a non-empty list of temperatures, oldest first. *)
Definition trend_of (temps : list Temperature) : TemperatureTrend :=
  if (length temps / 2 <? count_changes temps)%nat then TFlapping
  else
    let first := default Frozen (head temps) in
    let last_ := default Frozen (last temps) in
    if temp_value first <? temp_value last_ then TWarming first last_
    else if temp_value last_ <? temp_value first then TCooling first last_
    else TStable last_.

Definition get_temperature_trend (h : HotnessHistory) (region : AddressRange) : TemperatureTrend :=
  match hist_snapshots h with
  | [] => TStable Frozen
  | l => match omap (fun s => temperature <$> sample_of region s) l with
         | [] => TStable Frozen
         | temps => trend_of temps
         end
  end.

Definition fsum (F : format) (l : list float) : float := fold_left (fadd F) l zero32f.
Definition fsqrt (F : format) : float -> float := SFsqrt (prec F) (emax F).
Definition feq (x y : float) : bool := SFeqb x y.

Definition get_access_trend (h : HotnessHistory) (region : AddressRange) : AccessTrend :=
  let counts := omap (fun s => access_count <$> sample_of region s) (hist_snapshots h) in
  if (length counts <? 2)%nat then AStable
  else
    let fi (i : nat) := of_int f64 (Z.of_nat i) in
    let idx := seq 0 (length counts) in
    let n := fi (length counts) in
    let sum_x := fsum f64 (fi <$> idx) in
    let sum_y := fsum f64 (of_int f64 <$> counts) in
    let sum_xy := fsum f64 (imap (fun i c => fmul f64 (fi i) (of_int f64 c)) counts) in
    let sum_xx := fsum f64 ((fun i => fi (i * i)%nat) <$> idx) in
    let denominator := fsub f64 (fmul f64 n sum_xx) (fmul f64 sum_x sum_x) in
    if feq denominator zero32f then AStable
    else
      let slope := fdiv f64 (fsub f64 (fmul f64 n sum_xy) (fmul f64 sum_x sum_y)) denominator in
      let mean := fdiv f64 sum_y n in
      let sq c := let diff := fsub f64 (of_int f64 c) mean in fmul f64 diff diff in
      let variance := fdiv f64 (fsum f64 (sq <$> counts)) n in
      let std_dev := fsqrt f64 variance in
      let cv := if fgt mean zero32f then fdiv f64 std_dev mean else zero32f in
      if fgt cv (lit f64 1 2) then AVolatile
      else
        let threshold := fmul f64 (fdiv f64 sum_y n) (lit f64 1 10) in
        if fgt slope threshold then AIncreasing
        else if flt slope (SFopp threshold) then ADecreasing else AStable.

Definition hist_len (h : HotnessHistory) : nat := length (hist_snapshots h).
Definition hist_is_empty (h : HotnessHistory) : bool := match hist_snapshots h with [] => true | _ => false end.
Definition hist_clear (h : HotnessHistory) : HotnessHistory := mkHist [] (max_snapshots h).

(** ** Confidence *)

Inductive ConfidenceLevel := CHigh | CMedium | CLow | CUnknown.
Definition min_score (l : ConfidenceLevel) : float :=
  match l with CHigh => lit f32 8 10 | CMedium => lit f32 1 2 | CLow => lit f32 2 10 | CUnknown => zero32f end.
Definition confidence_level_display (l : ConfidenceLevel) : string :=
  match l with CHigh => "high" | CMedium => "medium" | CLow => "low" | CUnknown => "unknown" end.

Inductive ConfidenceFactor :=
  | ObservationDuration (secs : Z) | AccessStability (v : float) | TemperatureStability (v : float) | SampleCount (n : Z).

Record HotnessConfidence := mkConf { conf_score : float; conf_factors : list ConfidenceFactor }.

Definition calculate_duration (s : HotnessSnapshot) (history : list HotnessSnapshot) : Z :=
  match history with
  | [] => 0
  | _ => let times := snap_timestamp <$> history in
      Z.max 0 (Z.max (snap_timestamp s) (list_max times) - list_min times)
  end.

Definition sample_count_score (n : Z) : float :=
  if n <=? 5 then lit f32 2 10 else if n <=? 20 then lit f32 1 2 else if n <=? 50 then lit f32 7 10
  else if n <=? 100 then lit f32 85 100 else of_int f32 1.
Definition duration_score (secs : Z) : float :=
  if secs <=? 10 then lit f32 2 10 else if secs <=? 60 then lit f32 4 10 else if secs <=? 300 then lit f32 6 10
  else if secs <=? 3600 then lit f32 8 10 else of_int f32 1.
Definition access_stability_score (variance : float) : float :=
  fmax (fsub f32 (of_int f32 1) (fmin variance (of_int f32 1))) zero32f.
Definition temperature_stability_score (changes : float) : float :=
  fmax (fsub f32 (of_int f32 1) (fdiv f32 changes (of_int f32 5))) zero32f.

Definition calculate_access_variance {E} (b : Build) (s : HotnessSnapshot) (history : list HotnessSnapshot) : outcome E float :=
  match history with
  | [] => Ok (lit f32 1 2)
  | _ =>
      let counts := (access_count <$> samples s) ++ concat ((fun h => access_count <$> samples h) <$> history) in
      match counts with
      | [] => Ok (lit f32 1 2)
      | _ =>
          let? sum := sum_u64 b counts 0 in
          let n := of_int f32 (Z.of_nat (length counts)) in
          let mean := fdiv f32 (of_int f32 sum) n in
          if feq mean zero32f then Ok zero32f
          else
            let sq c := let diff := fsub f32 (of_int f32 c) mean in fmul f32 diff diff in
            let variance := fdiv f32 (fsum f32 (sq <$> counts)) n in
            Ok (fmin (fdiv f32 (fsqrt f32 variance) mean) (of_int f32 1))
      end
  end.

(** Temperatures of one region, newest first: now, then back through history. *)
Definition region_temps (history : list HotnessSnapshot) (x : HotnessSample) : list Temperature :=
  temperature x :: omap (fun h => temperature <$> sample_of (address_range x) h) (reverse history).

(** [total_changes += 1.0], [n] times. *)
Fixpoint add_ones (n : nat) (acc : float) : float :=
  match n with O => acc | S n => add_ones n (fadd f32 acc (of_int f32 1)) end.

Definition calculate_temperature_changes (s : HotnessSnapshot) (history : list HotnessSnapshot) : float :=
  match history with
  | [] => zero32f
  | _ =>
      let total := fold_left (fun acc x => add_ones (count_changes (region_temps history x)) acc) (samples s) zero32f in
      let n := Z.of_nat (length (samples s)) in
      if 0 <? n then fdiv f32 total (of_int f32 n) else zero32f
  end.

Definition calculate {E} (b : Build) (s : HotnessSnapshot) (history : list HotnessSnapshot) : outcome E HotnessConfidence :=
  let n := Z.of_nat (length (samples s)) in
  let add acc f w := fadd f32 acc (fmul f32 f w) in
  let w1 := lit f32 2 10 in let w2 := lit f32 3 10 in let w3 := lit f32 1 4 in
  let score := add zero32f (sample_count_score n) w1 in
  let weight := fadd f32 zero32f w1 in
  let duration := calculate_duration s history in
  let score := add score (duration_score duration) w2 in
  let weight := fadd f32 weight w2 in
  let? variance := calculate_access_variance b s history in
  let score := add score (access_stability_score variance) w3 in
  let weight := fadd f32 weight w3 in
  let changes := calculate_temperature_changes s history in
  let score := add score (temperature_stability_score changes) w3 in
  let weight := fadd f32 weight w3 in
  Ok (mkConf (if fgt weight zero32f then fdiv f32 score weight else zero32f)
        [SampleCount n; ObservationDuration duration; AccessStability variance; TemperatureStability changes]).

Definition conf_level (c : HotnessConfidence) : ConfidenceLevel :=
  if fge (conf_score c) (lit f32 8 10) then CHigh
  else if fge (conf_score c) (lit f32 1 2) then CMedium
  else if fge (conf_score c) (lit f32 2 10) then CLow else CUnknown.

(** ** Facts *)

Lemma from_access_count_mono m n : m <= n -> temp_value (from_access_count m) <= temp_value (from_access_count n).
Proof.
  intros H. unfold from_access_count.
  destruct (Z.leb_spec 100 m), (Z.leb_spec 20 m), (Z.leb_spec 1 m), (Z.leb_spec 100 n), (Z.leb_spec 20 n), (Z.leb_spec 1 n);
    simpl; lia.
Qed.

Lemma trim_last_n {A} fuel max (l : list A) : (length l <= fuel)%nat -> trim fuel max l = last_n max l.
Proof.
  revert l. induction fuel as [|n IH]; intros l Hl; simpl.
  - destruct l; [done|simpl in Hl; lia].
  - destruct (Nat.ltb_spec max (length l)) as [Hlt|Hge]; [|by rewrite last_n_all].
    rewrite IH by (rewrite length_drop; lia). unfold last_n. rewrite length_drop, drop_drop. f_equal. lia.
Qed.

(** The history is the newest [max] snapshots pushed. *)
Lemma history_suffix max l :
  hist_snapshots (fold_left (flip hist_push) l (HotHistory_new max)) = last_n (Nat.max max 1) l.
Proof.
  enough (forall l h pushed, hist_snapshots h = last_n (max_snapshots h) pushed ->
    hist_snapshots (fold_left (flip hist_push) l h) = last_n (max_snapshots h) (pushed ++ l)) as Hgen.
  { rewrite (Hgen l (HotHistory_new max) []); [done|]. simpl. by rewrite last_n_all by (simpl; lia). }
  clear l. induction l as [|s l IH]; intros h pushed Hh; [by rewrite app_nil_r|].
  cbn [fold_left]. rewrite (IH _ (pushed ++ [s])); [by rewrite <- app_assoc|].
  unfold flip, hist_push. cbn [hist_snapshots max_snapshots]. rewrite trim_last_n by lia.
  rewrite Hh. apply last_n_app.
Qed.

Lemma count_temp_partition l :
  count_temp Hot l + count_temp Warm l + count_temp Cold l + count_temp Frozen l = Z.of_nat (length l).
Proof.
  unfold count_temp. induction l as [|x l IH]; [done|]. rewrite !filter_cons. cbn [length].
  repeat case_decide; try congruence; cbn [length]; try lia. by destruct (temperature x).
Qed.

Lemma sum_u64_ok {E} b l : forall acc,
  0 <= acc -> Forall (fun x => 0 <= x) l -> acc + foldr Z.add 0 l < 2 ^ 64 -> sum_u64 (E := E) b l acc = Ok (acc + foldr Z.add 0 l).
Proof.
  induction l as [|x l IH]; intros acc Ha Hl Hw; [by rewrite Z.add_0_r|]. apply Forall_cons in Hl as [Hx Hl]. simpl in *.
  assert (0 <= foldr Z.add 0 l) by (clear -Hl; induction Hl; simpl; lia).
  rewrite arith_in by (unfold in_u; lia). cbn [obind]. rewrite IH by (done || lia). f_equal. lia.
Qed.

Lemma fold_max_spec l x : x <= fold_left Z.max l x /\ Forall (fun y => y <= fold_left Z.max l x) l.
Proof.
  revert x. induction l as [|y l IH]; intros x; simpl; [split; [lia|constructor]|].
  destruct (IH (Z.max x y)) as [H1 H2]. split; [lia|]. constructor; [lia|done].
Qed.
Lemma fold_min_spec l x : fold_left Z.min l x <= x /\ Forall (fun y => fold_left Z.min l x <= y) l.
Proof.
  revert x. induction l as [|y l IH]; intros x; simpl; [split; [lia|constructor]|].
  destruct (IH (Z.min x y)) as [H1 H2]. split; [lia|]. constructor; [lia|done].
Qed.

Lemma sum_bounds lo hi l :
  Forall (fun y => lo <= y <= hi) l -> lo * Z.of_nat (length l) <= foldr Z.add 0 l <= hi * Z.of_nat (length l).
Proof. induction 1 as [|y l Hy Hl IH]; simpl; [lia|]. lia. Qed.

(** The documented "most common" temperature is the hottest one present. *)
Lemma dominant_is_hottest :
  let cold := mkSample (mkRange 0 1) 1 Cold in
  (let? m := from_snapshot (E := unit) Debug (mkHSnap (mkSample (mkRange 0 1) 100 Hot :: replicate 9 cold) 0) in
   Ok (dominant_temperature m, cold_count m)) = Ok (Hot, 9).
Proof. vm_compute. reflexivity. Qed.

(** The summary of a snapshot splits its regions into the four
    temperatures without remainder, and its average access count lies between
    the least and the greatest; it is computed without panic when the counts
    sum below 2^64. *)
Theorem summary_bounds {E} b s :
  Forall (fun x => 0 <= access_count x) (samples s) -> foldr Z.add 0 (access_count <$> samples s) < 2 ^ 64 ->
  exists m, from_snapshot (E := E) b s = Ok m /\ total_regions m = Z.of_nat (length (samples s)) /\
    active_count m + inactive_count m = total_regions m /\
    0 <= min_access_count m <= avg_access_count m /\ avg_access_count m <= max_access_count m /\
    ~ (is_hot_workload m = true /\ is_cold_workload m = true).
Proof.
  intros Hnn Hw. unfold from_snapshot. pose proof (count_temp_partition (samples s)) as Hp.
  destruct (Z.eqb_spec (Z.of_nat (length (samples s))) 0) as [E0|E0].
  { rewrite E0. eexists. split; [done|]. simpl. split_and!; try done. by intros []. }
  assert (Forall (fun x => 0 <= x) (access_count <$> samples s)) as Hnn' by (by apply Forall_fmap).
  rewrite sum_u64_ok by done. cbn [obind]. eexists. split; [done|].
  cbn [total_regions active_count inactive_count hot_count warm_count cold_count frozen_count min_access_count
    max_access_count avg_access_count]. rewrite Z.add_0_l.
  assert (length (access_count <$> samples s) = length (samples s)) as Hlen by apply length_fmap.
  destruct (access_count <$> samples s) as [|x l] eqn:El; [simpl in Hlen; lia|].
  pose proof (fold_max_spec l x) as [H1 H2]. pose proof (fold_min_spec l x) as [H3 H4]. cbn [list_max list_min].
  set (hi := fold_left Z.max l x) in *. set (lo := fold_left Z.min l x) in *.
  assert (Forall (fun y => lo <= y <= hi) (x :: l)) as Hall.
  { constructor; [lia|]. rewrite Forall_forall in H2, H4 |- *. intros y Hy. specialize (H2 y Hy). specialize (H4 y Hy). lia. }
  pose proof (sum_bounds lo hi (x :: l) Hall) as Hb. rewrite Hlen in Hb.
  assert (0 <= lo) as Hlo.
  { subst lo. clear -Hnn'. apply Forall_cons in Hnn' as [Hx Hl]. revert x Hx. induction Hl as [|y l Hy Hl IH]; intros x Hx; simpl; [done|].
    apply IH. lia. }
  split_and!; [done|unfold active_count, inactive_count; cbn; lia|done| | |].
  - apply Z.div_le_lower_bound; lia.
  - apply Z.div_le_upper_bound; lia.
  - unfold is_hot_workload, is_cold_workload, active_count, inactive_count. cbn [total_regions hot_count warm_count cold_count frozen_count].
    rewrite (proj2 (Z.eqb_neq _ _) E0). intros [Ha%Z.ltb_lt Hc%Z.ltb_lt].
    pose proof (Z.div_mod (Z.of_nat (length (samples s))) 2 ltac:(lia)). pose proof (Z.mod_pos_bound (Z.of_nat (length (samples s))) 2 ltac:(lia)). lia.
Qed.

Definition ex_snapshot : HotnessSnapshot :=
  mkHSnap [mkSample (mkRange 0 4096) 150 Hot; mkSample (mkRange 4096 8192) 0 Frozen; mkSample (mkRange 8192 9000) 25 Warm] 7.

Lemma summary_bounds_witness :
  exists m, from_snapshot (E := unit) Debug ex_snapshot = Ok m /\ total_regions m = Z.of_nat (length (samples ex_snapshot)) /\
    active_count m + inactive_count m = total_regions m /\
    0 <= min_access_count m <= avg_access_count m /\ avg_access_count m <= max_access_count m /\
    ~ (is_hot_workload m = true /\ is_cold_workload m = true).
Proof. apply (summary_bounds Debug ex_snapshot); [repeat constructor; simpl; lia|simpl; lia]. Defined.
