(* ===== verification/LinuxSources.v ===== *)
(** * Kernel statistics: [ghost-linux/src/meminfo.rs], [vmstat.rs], [swaps.rs],
    [zram.rs], [psi.rs]

    Text of [/proc] and [/sys] is parsed into snapshots.  The text of a file
    is an argument (opening it is input/output), as is the clock reading; the
    events a reader emits are values.  Text is a string of bytes, and white
    space is the ASCII one. *)

From Stdlib Require Import ZArith Lia SpecFloat Ascii.
From stdpp Require Import base gmap strings pretty list.
From S2P Require Import Prelude Floats CoreTypes Pressure Events.

Open Scope rust_scope.

(** ** [str] operations of the standard library *)

Module Str.
Definition nl : ascii := ascii_of_N 10.
Definition cr : ascii := ascii_of_N 13.
Definition is_ws (a : ascii) : bool := let n := N_of_ascii a in ((9 <=? n) && (n <=? 13) || (n =? 32))%N.

Fixpoint trim_start (s : string) : string :=
  match s with String a s' => if is_ws a then trim_start s' else s | EmptyString => EmptyString end.
Fixpoint trim_end (s : string) : string :=
  match s with
  | EmptyString => EmptyString
  | String a s => match trim_end s with EmptyString => if is_ws a then EmptyString else String a EmptyString | t => String a t end
  end.
Definition trim (s : string) : string := trim_end (trim_start s).

Fixpoint split_once (c : ascii) (s : string) : option (string * string) :=
  match s with
  | EmptyString => None
  | String a s => if bool_decide (a = c) then Some (EmptyString, s)
                  else match split_once c s with Some (x, y) => Some (String a x, y) | None => None end
  end.

(** [split_whitespace]; [cur] is the token being read. *)
Definition push_token (cur : string) (l : list string) : list string := match cur with EmptyString => l | _ => cur :: l end.
Fixpoint tokens (s cur : string) : list string :=
  match s with
  | EmptyString => push_token cur []
  | String a s => if is_ws a then push_token cur (tokens s EmptyString) else tokens s (cur +:+ String a EmptyString)
  end.
Definition split_whitespace (s : string) : list string := tokens s EmptyString.

(** [lines]: a final line feed opens no line; a carriage return before a line
    feed is dropped. *)
Fixpoint strip_cr (s : string) : string :=
  match s with
  | EmptyString => EmptyString
  | String a EmptyString => if bool_decide (a = cr) then EmptyString else s
  | String a s => String a (strip_cr s)
  end.
Fixpoint lines_from (s cur : string) : list string :=
  match s with
  | EmptyString => match cur with EmptyString => [] | _ => [cur] end
  | String a s => if bool_decide (a = nl) then strip_cr cur :: lines_from s EmptyString else lines_from s (cur +:+ String a EmptyString)
  end.
Definition lines (s : string) : list string := lines_from s EmptyString.

Fixpoint starts_with (p s : string) : bool :=
  match p, s with
  | EmptyString, _ => true
  | String a p, String b s => bool_decide (a = b) && starts_with p s
  | _, EmptyString => false
  end.
Fixpoint contains (p s : string) : bool :=
  starts_with p s || match s with String _ s => contains p s | EmptyString => false end.

Definition lower_char (a : ascii) : ascii :=
  let n := N_of_ascii a in if ((65 <=? n) && (n <=? 90))%N then ascii_of_N (n + 32) else a.
Fixpoint to_lowercase (s : string) : string :=
  match s with EmptyString => EmptyString | String a s => String (lower_char a) (to_lowercase s) end.

Definition digit (a : ascii) : option Z :=
  let n := N_of_ascii a in if ((48 <=? n) && (n <=? 57))%N then Some (Z.of_N n - 48) else None.
Fixpoint digits (s : string) (acc : Z) : option Z :=
  match s with
  | EmptyString => Some acc
  | String a s => match digit a with Some d => digits s (acc * 10 + d) | None => None end
  end.
Definition plus : ascii := ascii_of_N 43.
Definition minus : ascii := ascii_of_N 45.
Definition dot : ascii := ascii_of_N 46.
Definition unsigned (s : string) : option Z := match s with EmptyString => None | _ => digits s 0 end.

Definition checked (lo hi : Z) (o : option Z) : option Z :=
  match o with Some z => if (lo <=? z) && (z <? hi) then Some z else None | None => None end.
(** [parse::<uN>], [parse::<i32>] *)
Definition parse_u (w : Z) (s : string) : option Z :=
  checked 0 (2 ^ w) (match s with String a t => if bool_decide (a = plus) then unsigned t else unsigned s | EmptyString => None end).
Definition parse_i32 (s : string) : option Z :=
  checked (- 2 ^ 31) (2 ^ 31)
    (match s with
     | String a t => if bool_decide (a = plus) then unsigned t
                     else if bool_decide (a = minus) then Z.opp <$> unsigned t else unsigned s
     | EmptyString => None
     end).

(** [parse::<f64>]: digits with an optional point and exponent, correctly
    rounded, or a special value. *)
Definition ratio64 (neg : bool) (n : Z) (d : Z) : float :=
  match n, d with
  | Z.pos n, Z.pos d => SFdiv 53 1024 (S754_finite neg n 0) (S754_finite false d 0)
  | _, _ => S754_zero neg
  end.
(** The digits as an integer, and how many of them follow the point. *)
Definition mantissa (s : string) : option (Z * Z) :=
  match split_once dot s with
  | None => n ← unsigned s; Some (n, 0)
  | Some (x, y) => n ← unsigned (x +:+ y); Some (n, Z.of_nat (String.length y))
  end.
Definition exponent (s : string) : option Z :=
  match s with
  | String a t => if bool_decide (a = plus) then unsigned t else if bool_decide (a = minus) then Z.opp <$> unsigned t else unsigned s
  | EmptyString => None
  end.
Definition magnitude (neg : bool) (s : string) : option float :=
  let s := to_lowercase s in
  if bool_decide (s = "inf") || bool_decide (s = "infinity") then Some (S754_infinity neg)
  else if bool_decide (s = "nan") then Some S754_nan
  else
    me ← (match split_once "e" s with
          | None => m ← mantissa s; Some (m, 0)
          | Some (x, y) => m ← mantissa x; e ← exponent y; Some (m, e)
          end);
    let '((n, k), e) := me in
    Some (ratio64 neg (n * 10 ^ Z.max 0 (e - k)) (10 ^ Z.max 0 (k - e))).
Definition parse_f64 (s : string) : option float :=
  match s with
  | String a t => if bool_decide (a = plus) then magnitude false t else if bool_decide (a = minus) then magnitude true t else magnitude false s
  | EmptyString => None
  end.
End Str.

(** The reader's file: absent, unreadable, or its text. *)
Definition Text : Type := outcome GhostError string.

(** ** /proc/meminfo *)

Record MeminfoSnapshot := mkMem {
  mem_total_kb : Z; mem_available_kb : Z; mem_free_kb : Z; mem_buffers_kb : Z; mem_cached_kb : Z;
  swap_total_kb : Z; swap_free_kb : Z; mem_active_kb : Z; mem_inactive_kb : Z; mem_dirty_kb : Z; mem_writeback_kb : Z;
  mem_timestamp : Z;
}.

Definition meminfo_line (line : string) : option (string * Z) :=
  kr ← Str.split_once ":" line;
  v ← head (Str.split_whitespace (Str.trim kr.2));
  n ← Str.parse_u 64 v;
  Some (Str.trim kr.1, n).

(** The [Option] variables of the loop: the last value of each key. *)
Definition last_value (key : string) (kvs : list (string * Z)) : Z :=
  default 0 (snd <$> last (filter (fun kv => kv.1 = key) kvs)).

Definition meminfo_parse (now : Z) (content : string) : MeminfoSnapshot :=
  let kvs := omap meminfo_line (Str.lines content) in
  let v k := last_value k kvs in
  mkMem (v "MemTotal") (v "MemAvailable") (v "MemFree") (v "Buffers") (v "Cached") (v "SwapTotal") (v "SwapFree")
    (v "Active") (v "Inactive") (v "Dirty") (v "Writeback") now.

Definition memory_stats_event (s : MeminfoSnapshot) : Ev.Event :=
  Ev.MemoryStatsChanged 0 (mem_total_kb s) (mem_available_kb s) (Z.max 0 (swap_total_kb s - swap_free_kb s)) (mem_dirty_kb s).

Definition meminfo_read (now : Z) (file : Text) : outcome GhostError (MeminfoSnapshot * Ev.Event) :=
  let? content := file in
  let s := meminfo_parse now content in Ok (s, memory_stats_event s).

(** ** /proc/vmstat *)

Record VmstatSnapshot := mkVm {
  pgscan_kswapd : Z; pgscan_direct : Z; pgsteal_kswapd : Z; pgsteal_direct : Z; oom_kill : Z;
  pswpin : Z; pswpout : Z; pgfault : Z; pgmajfault : Z; vm_timestamp : Z;
}.

Definition vmstat_line (line : string) : option (string * Z) :=
  match Str.split_whitespace line with
  | key :: v :: _ => n ← Str.parse_u 64 v; Some (key, n)
  | _ => None
  end.

Definition vmstat_parse (now : Z) (content : string) : VmstatSnapshot :=
  let kvs := omap vmstat_line (Str.lines content) in
  let v k := last_value k kvs in
  mkVm (v "pgscan_kswapd") (v "pgscan_direct") (v "pgsteal_kswapd") (v "pgsteal_direct") (v "oom_kill")
    (v "pswpin") (v "pswpout") (v "pgfault") (v "pgmajfault") now.

Definition vmstat_event (s : VmstatSnapshot) : Ev.Event :=
  Ev.VmstatChanged 0 (pgscan_kswapd s) (pgscan_direct s) (oom_kill s) (pswpin s) (pswpout s).

Definition vmstat_read (now : Z) (file : Text) : outcome GhostError (VmstatSnapshot * Ev.Event) :=
  let? content := file in
  let s := vmstat_parse now content in Ok (s, vmstat_event s).

(** ** /proc/swaps *)

Inductive SwapKind := SwapFile | SwapPartition | SwapUnknown.
Definition swap_kind_display (k : SwapKind) : string :=
  match k with SwapFile => "file" | SwapPartition => "partition" | SwapUnknown => "unknown" end.

Record SwapDevice := mkSwapDev { swap_name : string; swap_kind : SwapKind; swap_priority : Z; swap_size_kb : Z; swap_used_kb : Z }.
Record SwapTopology := mkTopo { swap_devices : list SwapDevice; topo_total_kb : Z; topo_used_kb : Z; topo_timestamp : Z }.

Definition detect_kind (type_field name : string) : SwapKind :=
  let t := Str.to_lowercase type_field in
  if bool_decide (t = "file") then SwapFile
  else if bool_decide (t = "partition") then SwapPartition
  else if Str.starts_with "/dev/" name then SwapPartition
  else if Str.contains ".swap" name || Str.contains "swapfile" name then SwapFile
  else SwapUnknown.

Definition swap_line (line : string) : option SwapDevice :=
  match Str.split_whitespace line with
  | name :: kind :: size :: used :: rest =>
      Some (mkSwapDev name (detect_kind kind name)
        (default 0 (p ← head rest; Str.parse_i32 p)) (default 0 (Str.parse_u 64 size)) (default 0 (Str.parse_u 64 used)))
  | _ => None
  end.

(** [iter().sum::<u64>()] *)
Fixpoint sum64 {E} (b : Build) (l : list Z) (acc : Z) : outcome E Z :=
  match l with [] => Ok acc | x :: l => let? acc := arith b 64 (acc + x) in sum64 b l acc end.

Definition swaps_parse (b : Build) (now : Z) (content : string) : outcome GhostError SwapTopology :=
  let devices :=
    match Str.lines content with
    | [] => []
    | header :: rest => omap swap_line ((if Str.contains "Filename" header then [] else [header]) ++ rest)
    end in
  let? total := sum64 b (swap_size_kb <$> devices) 0 in
  let? used := sum64 b (swap_used_kb <$> devices) 0 in
  Ok (mkTopo devices total used now).

Definition swap_events (t : SwapTopology) : list Ev.Event :=
  Ev.SwapTopologyChanged 0 (swap_name <$> swap_devices t) (topo_total_kb t) (topo_used_kb t) ::
  ((fun d => Ev.SwapUtilizationChanged 0 (swap_name d) (swap_used_kb d) (swap_size_kb d)) <$> swap_devices t).

Definition swaps_read (b : Build) (now : Z) (file : Text) : outcome GhostError (SwapTopology * list Ev.Event) :=
  let? content := file in
  let? t := swaps_parse b now content in Ok (t, swap_events t).

(** ** /sys/block/zram* *)

Record ZramDevice := mkZramDev {
  zram_name : string; orig_size_kb : Z; comp_size_kb : Z; mem_used_total_kb : Z; max_comp_streams : Z; comp_algorithm : string }.
Record ZramSnapshot := mkZramSnap {
  zram_devices : list ZramDevice; total_orig_kb : Z; total_comp_kb : Z; zram_ratio : float; zram_timestamp : Z }.

Definition compression_ratio (d : ZramDevice) : option float :=
  if comp_size_kb d =? 0 then None else Some (fdiv f32 (of_int f32 (orig_size_kb d)) (of_int f32 (comp_size_kb d))).

(** The attributes of one device directory. *)
Definition parse_sysfs_value (attrs : string -> Text) (attr : string) : outcome GhostError Z :=
  let? content := attrs attr in
  match Str.parse_u 64 (Str.trim content) with
  | Some n => Ok n
  | None => Err (EInternal ("Failed to parse ZRAM attribute " +:+ attr +:+ ": '" +:+ Str.trim content +:+ "'"))
  end.
Definition read_sysfs_string (attrs : string -> Text) (attr : string) : outcome GhostError string :=
  let? content := attrs attr in Ok (Str.trim content).

Definition read_device_from_path (attrs : string -> Text) (name : string) : outcome GhostError ZramDevice :=
  let? orig := parse_sysfs_value attrs "orig_size" in
  let? comp := parse_sysfs_value attrs "compr_data_size" in
  let? mem := parse_sysfs_value attrs "mem_used_total" in
  let? streams := parse_sysfs_value attrs "max_comp_streams" in
  let? algorithm := read_sysfs_string attrs "comp_algorithm" in
  Ok (mkZramDev name (orig / 1024) (comp / 1024) (mem / 1024) (wrap 32 streams) algorithm).

Definition string_cmp (a b : string) : comparison := String.compare a b.

(** The entries of [/sys/block], with the attributes of each; a device that
    cannot be read is skipped. *)
Definition discover_devices (entries : list (string * (string -> Text))) : list ZramDevice :=
  sort_by (fun a b => string_cmp (zram_name a) (zram_name b))
    (omap (fun e => if Str.starts_with "zram" e.1
                    then match read_device_from_path e.2 e.1 with Ok d => Some d | _ => None end else None) entries).

(** [read_device]: one device by its name.  The body repeats
    [read_device_from_path]. *)
Definition read_device (entries : list (string * (string -> Text))) (name : string) : outcome GhostError ZramDevice :=
  match list_find (fun e => e.1 = name) entries with
  | None => Err (EInternal ("ZRAM device " +:+ name +:+ " not found"))
  | Some (_, e) => read_device_from_path e.2 name
  end.

Definition build_snapshot (b : Build) (now : Z) (devices : list ZramDevice) : outcome GhostError ZramSnapshot :=
  let? orig := sum64 b (orig_size_kb <$> devices) 0 in
  let? comp := sum64 b (comp_size_kb <$> devices) 0 in
  Ok (mkZramSnap devices orig comp
    (if 0 <? comp then fdiv f32 (of_int f32 orig) (of_int f32 comp) else f32_zero) now).

Definition zram_events (s : ZramSnapshot) : list Ev.Event :=
  ((fun d => Ev.ZramUtilizationChanged 0 (zram_name d) (orig_size_kb d) (comp_size_kb d) (default f32_zero (compression_ratio d)))
     <$> zram_devices s) ++ [Ev.TierInventoryChanged 0 (zram_name <$> zram_devices s)].

Definition zram_read (b : Build) (now : Z) (entries : list (string * (string -> Text)))
    : outcome GhostError (ZramSnapshot * list Ev.Event) :=
  match discover_devices entries with
  | [] => Err (EInternal "No ZRAM devices found at /sys/block/zram*")
  | devices => let? s := build_snapshot b now devices in Ok (s, zram_events s)
  end.

(** ** /proc/pressure *)

Inductive PsiResource := PsiMemory | PsiIo | PsiCpu.
Definition proc_name (r : PsiResource) : string := match r with PsiMemory => "memory" | PsiIo => "io" | PsiCpu => "cpu" end.

Record PsiSample := mkPsi { psi_resource : PsiResource; avg10 : float; avg60 : float; avg300 : float; psi_total : Z; psi_timestamp : Z }.

Definition classify_pressure (x : float) : PressureState :=
  let at_ v := mkPressure v f32_zero f32_zero 0 0 in
  if flt x (of_int f64 1) then PressureState_new
  else if flt x (of_int f64 5) then at_ (lit f32 3 10)
  else if flt x (of_int f64 10) then at_ (lit f32 7 10)
  else at_ (of_int f32 1).

Definition pressure_level_str (x : float) : string :=
  if flt x (of_int f64 1) then "low" else if flt x (of_int f64 5) then "medium" else if flt x (of_int f64 10) then "high" else "critical".

Record PsiFields := mkPF { pf10 : option float; pf60 : option float; pf300 : option float; pft : option Z }.

Definition psi_token (f : PsiFields) (token : string) : outcome GhostError PsiFields :=
  match Str.split_once "=" token with
  | None => Ok f
  | Some (key, value) =>
      let fl := match Str.parse_f64 value with
                | Some x => Ok x | None => Err (EInternal ("invalid " +:+ key +:+ " value: " +:+ value)) end in
      if bool_decide (key = "avg10") then let? x := fl in Ok (mkPF (Some x) (pf60 f) (pf300 f) (pft f))
      else if bool_decide (key = "avg60") then let? x := fl in Ok (mkPF (pf10 f) (Some x) (pf300 f) (pft f))
      else if bool_decide (key = "avg300") then let? x := fl in Ok (mkPF (pf10 f) (pf60 f) (Some x) (pft f))
      else if bool_decide (key = "total") then
        match Str.parse_u 64 value with
        | Some n => Ok (mkPF (pf10 f) (pf60 f) (pf300 f) (Some n))
        | None => Err (EInternal ("invalid total value: " +:+ value))
        end
      else Ok f
  end.

Fixpoint psi_tokens (f : PsiFields) (ts : list string) : outcome GhostError PsiFields :=
  match ts with [] => Ok f | t :: ts => let? f := psi_token f t in psi_tokens f ts end.

Definition psi_parse_line (now : Z) (line : string) (r : PsiResource) : outcome GhostError PsiSample :=
  let? f := psi_tokens (mkPF None None None None) (Str.split_whitespace line) in
  let missing k := EInternal ("missing " +:+ k +:+ " in PSI line") in
  let? a := ok_or (missing "avg10") (pf10 f) in
  let? c := ok_or (missing "avg60") (pf60 f) in
  let? d := ok_or (missing "avg300") (pf300 f) in
  let? t := ok_or (missing "total") (pft f) in
  Ok (mkPsi r a c d t now).

Definition pressure_event (s : PsiSample) : option Ev.Event :=
  match psi_resource s with
  | PsiMemory => Some (Ev.MemoryPressureChanged 0 PressureState_new (avg10 s) (avg60 s) (avg300 s) (psi_total s))
  | PsiIo => Some (Ev.IoPressureChanged 0 PressureState_new (avg10 s) (avg60 s) (avg300 s) (psi_total s))
  | PsiCpu => None
  end.

Definition psi_read (now : Z) (file : Text) (r : PsiResource) : outcome GhostError (PsiSample * option Ev.Event) :=
  let? content := file in
  let? s := psi_parse_line now (Str.trim content) r in
  Ok (s, pressure_event s).

(** ** Facts about the text operations *)

Lemma append_cons a (s t : string) : String a s +:+ t = String a (s +:+ t).
Proof. done. Qed.
Lemma append_assoc (s t u : string) : (s +:+ t) +:+ u = s +:+ (t +:+ u).
Proof. induction s as [|a s IH]; [done|]. by rewrite !append_cons, IH. Qed.
Lemma append_nil (s : string) : s +:+ EmptyString = s.
Proof. induction s as [|a s IH]; [done|]. by rewrite append_cons, IH. Qed.

(** A string of characters all satisfying [p]. *)
Fixpoint all (p : ascii -> bool) (s : string) : bool :=
  match s with EmptyString => true | String a s => p a && all p s end.

Lemma all_app p s t : all p (s +:+ t) = all p s && all p t.
Proof. induction s as [|a s IH]; [done|]. rewrite append_cons. cbn [all]. by rewrite IH, andb_assoc. Qed.

Definition word_char (a : ascii) : bool := negb (Str.is_ws a).
Definition not_char (c a : ascii) : bool := negb (bool_decide (a = c)).

Lemma tokens_word s : forall t cur, all word_char s = true -> Str.tokens (s +:+ t) cur = Str.tokens t (cur +:+ s).
Proof.
  induction s as [|a s IH]; intros t cur H; [by rewrite append_nil|]. cbn [all] in H. apply andb_true_iff in H as [Ha H].
  rewrite append_cons. cbn [Str.tokens]. apply negb_true_iff in Ha. rewrite Ha, IH by done. f_equal. by rewrite append_assoc.
Qed.

Lemma tokens_spaces n t : Str.tokens (Nat.iter n (String " ") t) EmptyString = Str.tokens t EmptyString.
Proof. induction n as [|n IH]; [done|]. cbn [Nat.iter]. cbn [Str.tokens]. exact IH. Qed.

Lemma push_token_app cur l m : Str.push_token cur l ++ m = Str.push_token cur (l ++ m).
Proof. by destruct cur. Qed.

(** A white-space character separates. *)
Lemma tokens_sep s a t : forall cur, Str.is_ws a = true ->
  Str.tokens (s +:+ String a t) cur = Str.tokens s cur ++ Str.tokens t EmptyString.
Proof.
  induction s as [|x s IH]; intros cur Ha; cbn [Str.tokens].
  - change (EmptyString +:+ String a t) with (String a t). cbn [Str.tokens]. rewrite Ha. by rewrite push_token_app.
  - rewrite append_cons. cbn [Str.tokens]. destruct (Str.is_ws x); rewrite IH by done; [by rewrite push_token_app|done].
Qed.

Lemma split_once_at c s t : all (not_char c) s = true -> Str.split_once c (s +:+ String c t) = Some (s, t).
Proof.
  induction s as [|a s IH]; intros H.
  - change (EmptyString +:+ String c t) with (String c t). cbn. by rewrite bool_decide_eq_true_2.
  - cbn [all] in H. apply andb_true_iff in H as [Ha H]. rewrite append_cons. cbn. apply negb_true_iff, bool_decide_eq_false in Ha.
    rewrite bool_decide_eq_false_2 by done. by rewrite IH.
Qed.

Lemma lines_from_line s : forall t cur, all (not_char Str.nl) s = true ->
  Str.lines_from (s +:+ String Str.nl t) cur = Str.strip_cr (cur +:+ s) :: Str.lines_from t EmptyString.
Proof.
  induction s as [|a s IH]; intros t cur H.
  - change (EmptyString +:+ String Str.nl t) with (String Str.nl t). cbn. by rewrite append_nil.
  - cbn [all] in H. apply andb_true_iff in H as [Ha H]. rewrite append_cons. cbn [Str.lines_from].
    apply negb_true_iff, bool_decide_eq_false in Ha. rewrite bool_decide_eq_false_2 by done.
    rewrite IH by done. by rewrite append_assoc.
Qed.

Lemma strip_cr_none s : all (not_char Str.cr) s = true -> Str.strip_cr s = s.
Proof.
  induction s as [|a s IH]; intros H; [done|]. cbn [all] in H. apply andb_true_iff in H as [Ha H].
  cbn [Str.strip_cr]. destruct s as [|b s].
  - apply negb_true_iff, bool_decide_eq_false in Ha. by rewrite bool_decide_eq_false_2.
  - by rewrite IH.
Qed.

Lemma trim_word s : all word_char s = true -> Str.trim s = s.
Proof.
  intros H. unfold Str.trim. assert (Str.trim_start s = s) as ->.
  { destruct s as [|a s]; [done|]. cbn [all] in H. apply andb_true_iff in H as [Ha _]. cbn. apply negb_true_iff in Ha. by rewrite Ha. }
  induction s as [|a s IH]; [done|]. cbn [all] in H. apply andb_true_iff in H as [Ha H]. cbn [Str.trim_end]. rewrite IH by done.
  apply negb_true_iff in Ha. destruct s; [by rewrite Ha|done].
Qed.

(** Trimming does not change the tokens. *)
Lemma tokens_ws s : forall cur, all Str.is_ws s = true -> Str.tokens s cur = Str.push_token cur [].
Proof.
  induction s as [|a s IH]; intros cur H; [done|]. cbn [all] in H. apply andb_true_iff in H as [Ha H]. cbn [Str.tokens].
  rewrite Ha, IH by done. done.
Qed.

Lemma trim_start_tokens s : Str.split_whitespace (Str.trim_start s) = Str.split_whitespace s.
Proof.
  unfold Str.split_whitespace. induction s as [|a s IH]; [done|]. cbn [Str.trim_start].
  destruct (Str.is_ws a) eqn:E; [|done]. rewrite IH. cbn [Str.tokens]. by rewrite E.
Qed.

Lemma trim_end_tokens s : forall cur, Str.tokens (Str.trim_end s) cur = Str.tokens s cur.
Proof.
  induction s as [|a s IH]; intros cur; [done|]. cbn [Str.trim_end Str.tokens].
  destruct (Str.trim_end s) as [|b t] eqn:Et; destruct (Str.is_ws a) eqn:Ea; cbn [Str.tokens]; rewrite ?Ea.
  - specialize (IH EmptyString). cbn [Str.tokens] in IH. by rewrite <- IH.
  - rewrite <- IH. done.
  - by rewrite <- IH.
  - by rewrite <- IH.
Qed.

Lemma split_whitespace_trim s : Str.split_whitespace (Str.trim s) = Str.split_whitespace s.
Proof.
  rewrite <- (trim_start_tokens s). unfold Str.trim, Str.split_whitespace. apply trim_end_tokens.
Qed.

(** ** Decimal numbers *)

Lemma digit_char c : (c < 10)%N -> Str.digit (pretty_N_char c) = Some (Z.of_N c).
Proof.
  intros H. assert (c ∈ [0; 1; 2; 3; 4; 5; 6; 7; 8; 9]%N) as Hc.
  { rewrite !elem_of_cons, elem_of_nil. lia. }
  rewrite !elem_of_cons, elem_of_nil in Hc. by destruct_or! Hc; subst.
Qed.

Lemma digits_go x : forall s, Str.digits (pretty_N_go x s) 0 = Str.digits s (Z.of_N x).
Proof.
  induction (N.lt_wf_0 x) as [x _ IH]. intros s. destruct (decide (x = 0)%N) as [->|Hx]; [by rewrite pretty_N_go_0|].
  rewrite pretty_N_go_step by lia. rewrite IH by (apply N.div_lt; lia). cbn [Str.digits].
  rewrite digit_char by (apply N.mod_lt; lia). f_equal. rewrite N2Z.inj_div, N2Z.inj_mod. pose proof (Z.div_mod (Z.of_N x) 10). change (Z.of_N 10) with 10. lia.
Qed.

Definition digit_char_b (a : ascii) : bool := match Str.digit a with Some _ => true | None => false end.

Lemma digits_all_go x : forall s, all digit_char_b s = true -> all digit_char_b (pretty_N_go x s) = true.
Proof.
  induction (N.lt_wf_0 x) as [x _ IH]. intros s Hs. destruct (decide (x = 0)%N) as [->|Hx]; [by rewrite pretty_N_go_0|].
  rewrite pretty_N_go_step by lia. apply IH; [apply N.div_lt; lia|]. cbn [all]. rewrite Hs. unfold digit_char_b.
  by rewrite digit_char by (apply N.mod_lt; lia).
Qed.

Lemma pretty_digits z : 0 <= z -> all digit_char_b (pretty z) = true /\ Str.unsigned (pretty z) = Some z.
Proof.
  intros Hz. destruct z as [|p|p]; [done| |lia].
  assert (pretty (Z.pos p) = pretty_N_go (N.pos p) EmptyString) as -> by done.
  split; [by apply digits_all_go|]. pose proof (digits_go (N.pos p) EmptyString) as H. cbn [Str.digits] in H.
  unfold Str.unsigned. destruct (pretty_N_go (N.pos p) EmptyString); [done|]. exact H.
Qed.

Lemma parse_u_pretty w z : 0 <= z < 2 ^ w -> Str.parse_u w (pretty z) = Some z.
Proof.
  intros Hz. destruct (pretty_digits z) as [Ha Hu]; [lia|]. unfold Str.parse_u.
  destruct (pretty z) as [|a t] eqn:E; [done|]. cbn [all] in Ha. apply andb_true_iff in Ha as [Ha _].
  rewrite bool_decide_eq_false_2 by (intros ->; done). rewrite Hu. cbn [Str.checked].
  destruct (Z.leb_spec 0 z), (Z.ltb_spec z (2 ^ w)); try lia. done.
Qed.

Lemma all_impl (p q : ascii -> bool) s : (forall a, p a = true -> q a = true) -> all p s = true -> all q s = true.
Proof.
  intros Hpq. induction s as [|a s IH]; [done|]. cbn [all]. rewrite !andb_true_iff. intros [? ?]. auto.
Qed.

Lemma digit_range a : digit_char_b a = true -> (48 <= N_of_ascii a <= 57)%N.
Proof.
  unfold digit_char_b, Str.digit. destruct ((48 <=? N_of_ascii a)%N && (N_of_ascii a <=? 57)%N) eqn:E; [|done].
  intros _. apply andb_true_iff in E as [H1%N.leb_le H2%N.leb_le]. lia.
Qed.

Lemma digit_word a : digit_char_b a = true -> word_char a = true.
Proof.
  intros H%digit_range. unfold word_char, Str.is_ws. apply negb_true_iff, orb_false_iff. split.
  - apply andb_false_iff. right. apply N.leb_gt. lia.
  - apply N.eqb_neq. lia.
Qed.

Lemma word_not_ws c a : Str.is_ws c = true -> word_char a = true -> not_char c a = true.
Proof.
  intros Hc Ha. unfold not_char. apply negb_true_iff, bool_decide_eq_false. intros ->.
  unfold word_char in Ha. by rewrite Hc in Ha.
Qed.

Lemma pretty_word z : 0 <= z -> all word_char (pretty z) = true.
Proof. intros Hz. eapply all_impl; [apply digit_word|]. by apply pretty_digits. Qed.

Lemma pretty_nonempty z : 0 <= z -> pretty z <> EmptyString.
Proof. intros Hz E. destruct (pretty_digits z Hz) as [_ H]. by rewrite E in H. Qed.

(** ** The kernel's layout of the two files *)

Definition spaces (n : nat) : string := Nat.iter n (String " ") EmptyString.

(** [key:      value kB] and [key value]. *)
Definition meminfo_row (r : nat * (string * Z)) : string :=
  r.2.1 +:+ String ":" (spaces r.1 +:+ (pretty r.2.2 +:+ String " " "kB")).
Definition vmstat_row (r : string * Z) : string := r.1 +:+ String " " (pretty r.2).
Fixpoint file_of (rows : list string) : string :=
  match rows with [] => EmptyString | r :: rows => r +:+ String Str.nl (file_of rows) end.

Definition key_char (a : ascii) : bool := word_char a && not_char ":" a.
Definition row_ok (kv : string * Z) : Prop := kv.1 <> EmptyString /\ all key_char kv.1 = true /\ 0 <= kv.2 < 2 ^ 64.

(** A line of the file as [lines] yields it. *)
Definition clean (s : string) : bool := all (not_char Str.nl) s && all (not_char Str.cr) s.

Lemma clean_app s t : clean (s +:+ t) = clean s && clean t.
Proof. unfold clean. rewrite !all_app. by destruct (all _ s), (all _ t), (all _ s), (all _ t). Qed.

Lemma clean_word s : all word_char s = true -> clean s = true.
Proof. intros H. unfold clean. rewrite !(all_impl word_char _ s); try done; intros a; by apply word_not_ws. Qed.

Lemma key_word s : all key_char s = true -> all word_char s = true.
Proof. apply all_impl. intros a [H _]%andb_true_iff. exact H. Qed.

Lemma lines_file rows : Forall (fun r => clean r = true) rows -> Str.lines (file_of rows) = rows.
Proof.
  unfold Str.lines. induction 1 as [|r rows Hr _ IH]; [done|]. cbn [file_of]. apply andb_true_iff in Hr as [Hn Hc].
  rewrite lines_from_line by done. rewrite IH. f_equal. by apply strip_cr_none.
Qed.

Lemma spaces_app n t : spaces n +:+ t = Nat.iter n (String " ") t.
Proof.
  unfold spaces. induction n as [|n IH]; [done|]. change (String " " (Nat.iter n (String " ") EmptyString) +:+ t = String " " (Nat.iter n (String " ") t)).
  by rewrite append_cons, IH.
Qed.

Lemma clean_spaces n : clean (spaces n) = true.
Proof. unfold spaces. induction n as [|n IH]; [done|]. exact IH. Qed.

Lemma split_word s t : s <> EmptyString -> all word_char s = true ->
  Str.split_whitespace (s +:+ String " " t) = s :: Str.split_whitespace t.
Proof.
  intros Hne Hs. unfold Str.split_whitespace. rewrite tokens_sep by done.
  rewrite <- (append_nil s) at 1. rewrite tokens_word by done. by destruct s.
Qed.

Lemma split_last_word s : s <> EmptyString -> all word_char s = true -> Str.split_whitespace s = [s].
Proof.
  intros Hne Hs. unfold Str.split_whitespace. rewrite <- (append_nil s) at 1. rewrite tokens_word by done. by destruct s.
Qed.

Lemma clean_cons a t : clean (String a t) = not_char Str.nl a && not_char Str.cr a && clean t.
Proof.
  unfold clean. cbn [all]. by destruct (not_char Str.nl a), (not_char Str.cr a), (all _ t), (all _ t).
Qed.

Lemma meminfo_row_clean n kv : row_ok kv -> clean (meminfo_row (n, kv)) = true.
Proof.
  intros (_ & Hk & Hv). unfold meminfo_row. cbn [fst snd].
  rewrite clean_app, clean_cons, clean_app, clean_spaces, clean_app, clean_cons.
  rewrite (clean_word _ (key_word _ Hk)), (clean_word (pretty _)) by (apply pretty_word; lia). done.
Qed.

Lemma meminfo_line_row n kv : row_ok kv -> meminfo_line (meminfo_row (n, kv)) = Some kv.
Proof.
  destruct kv as [k v]. intros (Hne & Hk & Hv). cbn [fst snd] in *. unfold meminfo_line, meminfo_row. cbn [fst snd].
  rewrite split_once_at by (eapply all_impl; [|exact Hk]; intros a [_ H]%andb_true_iff; exact H). cbn [mbind option_bind fst snd].
  rewrite split_whitespace_trim, spaces_app. unfold Str.split_whitespace at 1. rewrite tokens_spaces.
  fold (Str.split_whitespace (pretty v +:+ String " " "kB")).
  rewrite split_word by (apply pretty_nonempty || apply pretty_word; lia). cbn [head mbind option_bind].
  rewrite parse_u_pretty by done. cbn [mbind option_bind]. by rewrite trim_word by (by apply key_word).
Qed.

Lemma vmstat_row_clean kv : row_ok kv -> clean (vmstat_row kv) = true.
Proof.
  intros (_ & Hk & Hv). unfold vmstat_row. rewrite clean_app, clean_cons.
  rewrite (clean_word _ (key_word _ Hk)), (clean_word (pretty _)) by (apply pretty_word; lia). done.
Qed.

Lemma vmstat_line_row kv : row_ok kv -> vmstat_line (vmstat_row kv) = Some kv.
Proof.
  destruct kv as [k v]. intros (Hne & Hk & Hv). cbn [fst snd] in *. unfold vmstat_line, vmstat_row. cbn [fst snd].
  rewrite split_word by (done || by apply key_word).
  rewrite split_last_word by (apply pretty_nonempty || apply pretty_word; lia).
  by rewrite parse_u_pretty.
Qed.

Lemma omap_rows {A} (line : string -> option (string * Z)) (row : A -> string) (val : A -> string * Z) (rows : list A) :
  Forall (fun r => row_ok (val r)) rows -> (forall r, row_ok (val r) -> line (row r) = Some (val r)) ->
  omap line (row <$> rows) = val <$> rows.
Proof.
  intros H Hrow. induction H as [|r rows Hr _ IH]; [done|]. cbn [fmap list_fmap]. cbn [omap list_omap]. by rewrite Hrow, IH.
Qed.

Lemma filter_key_none k (l : list (string * Z)) : k ∉ l.*1 -> filter (fun kv => kv.1 = k) l = [].
Proof.
  induction l as [|[x v] l IH]; [done|]. cbn [fmap list_fmap fst]. intros [H1 H2]%not_elem_of_cons.
  rewrite filter_cons_False by (cbn [fst]; congruence). by apply IH.
Qed.

Lemma filter_key_one k v (l : list (string * Z)) : NoDup l.*1 -> (k, v) ∈ l -> filter (fun kv => kv.1 = k) l = [(k, v)].
Proof.
  induction l as [|[x w] l IH]; intros Hnd Hin; [by apply not_elem_of_nil in Hin|].
  cbn [fmap list_fmap fst] in Hnd. apply NoDup_cons in Hnd as [Hx Hnd]. apply elem_of_cons in Hin as [Hin|Hin].
  - injection Hin as <- <-. rewrite filter_cons_True by done. by rewrite filter_key_none.
  - rewrite filter_cons_False; [by apply IH|]. cbn [fst]. intros ->. apply Hx. by apply (list_elem_of_fmap_2' fst l (k, v)).
Qed.

(** Rows in any order, with rows of other keys among them. *)
Lemma last_value_rows k v (kvs fields extra : list (string * Z)) :
  kvs ≡ₚ fields ++ extra -> NoDup fields.*1 -> (k, v) ∈ fields -> k ∉ extra.*1 -> last_value k kvs = v.
Proof.
  intros Hp Hnd Hin Hex. unfold last_value.
  assert (filter (fun kv => kv.1 = k) kvs = [(k, v)]) as ->; [|done].
  apply Permutation_singleton_r. rewrite Hp, filter_app, (filter_key_one k v), (filter_key_none k extra) by done. done.
Qed.

Definition meminfo_fields (s : MeminfoSnapshot) : list (string * Z) :=
  [("MemTotal", mem_total_kb s); ("MemAvailable", mem_available_kb s); ("MemFree", mem_free_kb s); ("Buffers", mem_buffers_kb s);
   ("Cached", mem_cached_kb s); ("SwapTotal", swap_total_kb s); ("SwapFree", swap_free_kb s); ("Active", mem_active_kb s);
   ("Inactive", mem_inactive_kb s); ("Dirty", mem_dirty_kb s); ("Writeback", mem_writeback_kb s)].
Definition vmstat_fields (s : VmstatSnapshot) : list (string * Z) :=
  [("pgscan_kswapd", pgscan_kswapd s); ("pgscan_direct", pgscan_direct s); ("pgsteal_kswapd", pgsteal_kswapd s);
   ("pgsteal_direct", pgsteal_direct s); ("oom_kill", oom_kill s); ("pswpin", pswpin s); ("pswpout", pswpout s);
   ("pgfault", pgfault s); ("pgmajfault", pgmajfault s)].

Lemma fields_read (fields kvs extra : list (string * Z)) : NoDup fields.*1 -> kvs ≡ₚ fields ++ extra ->
  Forall (fun k => k ∉ extra.*1) fields.*1 -> (fun k => last_value k kvs) <$> fields.*1 = fields.*2.
Proof.
  intros Hnd Hp Hex. apply list_eq_same_length with (n := length fields); [by rewrite !length_fmap|by rewrite !length_fmap|].
  intros i x y _ Hx Hy. rewrite !list_lookup_fmap in Hx. rewrite list_lookup_fmap in Hy.
  destruct (fields !! i) as [[k v]|] eqn:E; [|done]. cbn in Hx, Hy. injection Hx as <-. injection Hy as <-.
  eapply last_value_rows; [exact Hp|done|by eapply list_elem_of_lookup_2|].
  rewrite Forall_forall in Hex. apply Hex, list_elem_of_fmap. exists (k, v). split; [done|by eapply list_elem_of_lookup_2].
Qed.

(** A [/proc/meminfo] laid out as the kernel does, one row for each counter
    of a snapshot and any number of rows for other keys, in any order and with
    any padding, is read back as exactly that snapshot. *)
Theorem meminfo_roundtrip s rows extra :
  rows.*2 ≡ₚ meminfo_fields s ++ extra -> Forall row_ok rows.*2 -> Forall (fun k => k ∉ extra.*1) (meminfo_fields s).*1 ->
  meminfo_parse (mem_timestamp s) (file_of (meminfo_row <$> rows)) = s.
Proof.
  intros Hp Hok Hex. apply (Forall_fmap snd row_ok rows) in Hok. unfold meminfo_parse.
  rewrite lines_file by (apply Forall_fmap; eapply Forall_impl; [exact Hok|]; intros [n kv]; apply meminfo_row_clean).
  rewrite (omap_rows meminfo_line meminfo_row snd) by (done || (intros [n kv]; apply meminfo_line_row)).
  assert (NoDup (meminfo_fields s).*1) as Hnd by (apply (bool_decide_unpack _); vm_compute; exact I).
  pose proof (fields_read _ _ _ Hnd Hp Hex) as H. destruct s. cbn in H |- *. by injection H as -> -> -> -> -> -> -> -> -> -> ->.
Qed.

Lemma meminfo_roundtrip_witness :
  meminfo_parse 7 (file_of (meminfo_row <$>
    [(3%nat, ("Dirty", 12)); (0%nat, ("MemFree", 9)); (1%nat, ("HugePages_Total", 5)); (8%nat, ("MemTotal", 16384)); (2%nat, ("MemAvailable", 8000));
     (1%nat, ("Buffers", 0)); (1%nat, ("Cached", 40)); (1%nat, ("SwapTotal", 100)); (1%nat, ("SwapFree", 30)); (1%nat, ("Active", 6));
     (1%nat, ("Inactive", 7)); (1%nat, ("Writeback", 2))])) = mkMem 16384 8000 9 0 40 100 30 6 7 12 2 7.
Proof.
  apply (meminfo_roundtrip (mkMem 16384 8000 9 0 40 100 30 6 7 12 2 7) _ [("HugePages_Total", 5)]).
  - cbn. solve_Permutation.
  - repeat constructor; done.
  - repeat constructor; apply (bool_decide_unpack _); vm_compute; exact I.
Defined.

(** The same for [/proc/vmstat]. *)
Theorem vmstat_roundtrip s rows extra :
  rows ≡ₚ vmstat_fields s ++ extra -> Forall row_ok rows -> Forall (fun k => k ∉ extra.*1) (vmstat_fields s).*1 ->
  vmstat_parse (vm_timestamp s) (file_of (vmstat_row <$> rows)) = s.
Proof.
  intros Hp Hok Hex. unfold vmstat_parse.
  rewrite lines_file by (apply Forall_fmap; eapply Forall_impl; [exact Hok|]; intros kv; apply vmstat_row_clean).
  rewrite (omap_rows vmstat_line vmstat_row id) by (done || (intros kv; apply vmstat_line_row)).
  rewrite list_fmap_id. assert (NoDup (vmstat_fields s).*1) as Hnd by (apply (bool_decide_unpack _); vm_compute; exact I).
  pose proof (fields_read _ _ _ Hnd Hp Hex) as H. destruct s. cbn in H |- *. by injection H as -> -> -> -> -> -> -> -> ->.
Qed.

(** ** Pressure stall files *)

(** The fields of [g] where it has them, else those of [f]. *)
Definition pf_over (f g : PsiFields) : PsiFields :=
  let pick {A} (x y : option A) := match y with Some _ => y | None => x end in
  mkPF (pick (pf10 f) (pf10 g)) (pick (pf60 f) (pf60 g)) (pick (pf300 f) (pf300 g)) (pick (pft f) (pft g)).

Lemma psi_token_over f g t : psi_token (pf_over f g) t = match psi_token g t with Ok h => Ok (pf_over f h) | Err e => Err e | Panic m => Panic m end.
Proof.
  unfold psi_token. destruct (Str.split_once "=" t) as [[k v]|]; [|done].
  repeat case_bool_decide; try done; destruct (Str.parse_f64 v), (Str.parse_u 64 v); done.
Qed.

Lemma psi_tokens_over f ts : forall g,
  psi_tokens (pf_over f g) ts = match psi_tokens g ts with Ok h => Ok (pf_over f h) | Err e => Err e | Panic m => Panic m end.
Proof.
  induction ts as [|t ts IH]; intros g; [done|]. cbn [psi_tokens]. rewrite psi_token_over. destruct (psi_token g t); cbn [obind]; [apply IH|done..].
Qed.

Lemma psi_tokens_app ts us : forall f, psi_tokens f (ts ++ us) = let? g := psi_tokens f ts in psi_tokens g us.
Proof. induction ts as [|t ts IH]; intros f; [done|]. cbn [psi_tokens app]. destruct (psi_token f t); cbn [obind]; [apply IH|done..]. Qed.

(** A pressure file has a [some] line and a [full] line; both are fed to the
    parser of one line, so the sample read is that of the last line alone and
    the [some] averages are lost. *)
Theorem psi_last_line_wins now some_line full_line r s1 s2 :
  psi_parse_line now some_line r = Ok s1 -> psi_parse_line now full_line r = Ok s2 ->
  psi_read now (Ok (some_line +:+ String Str.nl full_line)) r = Ok (s2, pressure_event s2).
Proof.
  unfold psi_read. cbn [obind]. unfold psi_parse_line. rewrite split_whitespace_trim. unfold Str.split_whitespace at 3.
  rewrite tokens_sep by done. fold (Str.split_whitespace some_line) (Str.split_whitespace full_line). rewrite psi_tokens_app.
  destruct (psi_tokens _ (Str.split_whitespace some_line)) as [f| |] eqn:E1; [|done..]. cbn [obind]. intros _.
  assert (f = pf_over f (mkPF None None None None)) as Hf by (by destruct f as [[] [] [] []]). rewrite Hf, psi_tokens_over.
  destruct (psi_tokens _ (Str.split_whitespace full_line)) as [[[a|] [c|] [d|] [n|]]| |]; cbn [obind ok_or pf10 pf60 pf300 pft]; try done.
  intros [= <-]. done.
Qed.

Lemma psi_last_line_wins_witness : exists s,
  psi_read 1 (Ok ("some avg10=7.50 avg60=1.00 avg300=0.25 total=9" +:+ String Str.nl "full avg10=0.50 avg60=0.00 avg300=0.00 total=3")) PsiMemory
  = Ok (s, pressure_event s) /\ avg10 s = fdiv f64 (of_int f64 1) (of_int f64 2).
Proof.
  eexists. split.
  - eapply psi_last_line_wins; vm_compute; reflexivity.
  - vm_compute. reflexivity.
Defined.

(** ** Devices by name *)

Lemma device_name attrs name d : read_device_from_path attrs name = Ok d -> zram_name d = name.
Proof.
  unfold read_device_from_path. intros H.
  repeat (match type of H with context [obind ?o _] => destruct o; cbn [obind] in H; [|done..] end).
  by injection H as <-.
Qed.

(** Discovery and the lookup by name agree: when no two entries share a name,
    the devices discovered are exactly those that are named like ZRAM devices
    and that reading them by name returns. *)
Theorem discovery_agrees entries d :
  NoDup entries.*1 ->
  d ∈ discover_devices entries <->
  Str.starts_with "zram" (zram_name d) = true /\ read_device entries (zram_name d) = Ok d.
Proof.
  intros Hnd. unfold discover_devices. rewrite sort_by_permutation, list_elem_of_omap. unfold read_device. split.
  - intros ([name attrs] & Hin & Hd). cbn [fst snd] in Hd. destruct (Str.starts_with "zram" name) eqn:Hs; [|done].
    destruct (read_device_from_path attrs name) as [d'| |] eqn:E; [|done..]. injection Hd as ->.
    pose proof (device_name _ _ _ E) as Hn. rewrite Hn. split; [done|].
    destruct (list_find _ entries) as [[i e]|] eqn:Hf.
    + apply list_find_Some in Hf as (Hi & He & _).
      apply list_elem_of_lookup in Hin as [j Hj].
      assert (i = j) as ->; [|rewrite Hj in Hi; by injection Hi as <-].
      eapply (NoDup_lookup entries.*1); [done|rewrite list_lookup_fmap, Hi; cbn; reflexivity|].
      rewrite list_lookup_fmap, Hj. cbn. by rewrite He.
    + apply list_find_None in Hf. rewrite Forall_forall in Hf. by destruct (Hf _ Hin).
  - intros [Hs Hr]. destruct (list_find _ entries) as [[i e]|] eqn:Hf; [|done].
    apply list_find_Some in Hf as (Hi & He & _). exists e. split; [by eapply list_elem_of_lookup_2|].
    by rewrite He, Hs, Hr.
Qed.

(** The attributes of a device of 4 MiB compressed to 1 MiB. *)
Definition ex_attrs (attr : string) : Text :=
  if bool_decide (attr = "comp_algorithm") then Ok "zstd"%string
  else if bool_decide (attr = "orig_size") then Ok "4194304"%string else Ok "1048576"%string.

Lemma discovery_agrees_witness :
  let entries := [("sda", ex_attrs); ("zram0", ex_attrs)]%string in
  exists d, read_device entries "zram0" = Ok d /\ d ∈ discover_devices entries.
Proof.
  cbv zeta. eexists. split; [vm_compute; reflexivity|].
  apply discovery_agrees; [apply (bool_decide_unpack _); vm_compute; exact I|].
  split; vm_compute; reflexivity.
Defined.
