(* ===== verification/Ipc.v ===== *)
(** * Remote calls: [ghost-ipc/src/protocol.rs], [client.rs] and [ghost-daemon/src/ipc_server.rs]

    A request travels as a JSON payload in a frame; the server answers frames in
    order on each connection.  serde_json is the interface [IpcJson].  Sockets
    are the readers and writers of [Frame]; what the environment decides at each
    turn of a connection (the shutdown flag, an expired timeout) is an argument.
    The server keeps a trace log of its own: [main] gives it a log that is not
    the orchestrator's. *)

From Stdlib Require Import ZArith Lia.
From Stdlib Require Strings.Byte.
From stdpp Require Import base gmap strings pretty list.
From S2P Require Import Prelude Floats LinuxSources CoreTypes Pressure Events EventBus Trace Policy Hotness Migration Diagnostics Frame Queue ChunkState Orchestrator.

Open Scope rust_scope.

(** ** The protocol *)

Inductive IpcRequest :=
  | QStore (data : list byte) (tier : option TierId)
  | QRetrieve (chunk_id : ChunkId)
  | QDelete (chunk_id : ChunkId)
  | QMigrate (chunk_id : ChunkId) (from to : TierId)
  | QInfo (chunk_id : ChunkId)
  | QList (tier : option TierId)
  | QStatus
  | QPressure
  | QTrace (count : option Z)
  | QPressureCheck
  | QShutdown
  | QPing
  | QDiagnostics
  | QQueueStatus
  | QMigrationStatus
  | QAllocatorStatus
  | QBackendStatus
  | QReplayStatus.

Inductive IpcErrorCode :=
  | CodeChunkNotFound | CodeTierNotFound | CodeInvalidRequest | CodeQueueFull | CodeInternalError
  | CodeTimeout | CodeShuttingDown.

Record TierInfo := mkTierInfo {
  ti_tier : TierId;
  capacity_bytes : Z;
  used_bytes : Z;
  chunk_count : Z;
}.

Record BackendHealthInfo := mkBackendInfo {
  bh_tier : TierId;
  bh_health : string;
  health_check_successes : Z;
  health_check_failures : Z;
  bh_consecutive_failures : Z;
}.

Inductive IpcResponse :=
  | ROk (data : option (list byte))
  | RChunkId (chunk_id : ChunkId)
  | RInfo (meta : ChunkMeta)
  | RList (chunks : list (ChunkId * ChunkMeta))
  | RStatus (uptime_secs chunks_total : Z) (tiers : list TierInfo) (queue_depth active_workers : Z)
  | RPressure (state : PressureState)
  | RTrace (events : list Tr.TraceEvent)
  | RPressureCheck (jobs_created : Z)
  | RPong
  | RDiagnostics (snapshot_json : string)
  | RQueueStatus (depth capacity : Z) (is_full : bool) (submitted_total dequeued_total : Z)
  | RMigrationStatus (active_migrations promotions_total evictions_total failures_total
      bytes_migrated_total : Z)
  | RAllocatorStatus (allocated_bytes peak_allocated_bytes allocations_total deallocations_total
      active_allocations : Z)
  | RBackendStatus (tiers : list BackendHealthInfo)
  | RReplayStatus (replay_ops_total events_replayed_total validation_errors_total active_replays : Z)
  | RError (code : IpcErrorCode) (message : string).

Definition code_debug (c : IpcErrorCode) : string :=
  match c with
  | CodeChunkNotFound => "ChunkNotFound" | CodeTierNotFound => "TierNotFound"
  | CodeInvalidRequest => "InvalidRequest" | CodeQueueFull => "QueueFull"
  | CodeInternalError => "InternalError" | CodeTimeout => "Timeout"
  | CodeShuttingDown => "ShuttingDown"
  end.

Definition request_type (q : IpcRequest) : string :=
  match q with
  | QStore _ _ => "store" | QRetrieve _ => "retrieve" | QDelete _ => "delete"
  | QMigrate _ _ _ => "migrate" | QInfo _ => "info" | QList _ => "list" | QStatus => "status"
  | QPressure => "pressure" | QTrace _ => "trace" | QPressureCheck => "pressure_check"
  | QShutdown => "shutdown" | QPing => "ping" | QDiagnostics => "diagnostics"
  | QQueueStatus => "queue_status" | QMigrationStatus => "migration_status"
  | QAllocatorStatus => "allocator_status" | QBackendStatus => "backend_status"
  | QReplayStatus => "replay_status"
  end.

(** What the trace calls a success. *)
Definition is_success (r : IpcResponse) : bool :=
  match r with
  | ROk _ | RChunkId _ | RInfo _ | RList _ | RStatus _ _ _ _ _ | RPressure _ | RTrace _
  | RPressureCheck _ | RPong => true
  | _ => false
  end.

(** ** serde_json

    Reading a transfer job restamps it, and a number with a fraction need not
    come back exact: the round trip of responses is only assumed of responses
    without such numbers. *)

Definition float_free (e : Tr.TraceEvent) : bool :=
  match e with
  | Tr.PressureSample _ _ | Tr.PressureAlert _ _ _ _ | Tr.PressureEscalated _ _ _ _
  | Tr.BackpressureActivated _ _ _ _ | Tr.BackpressureReleased _ _ _ _ => false
  | _ => true
  end.
Definition exact_json (r : IpcResponse) : bool :=
  match r with RPressure _ => false | RTrace es => forallb float_free es | _ => true end.
Definition restamp (now : Z) (r : IpcResponse) : IpcResponse :=
  match r with RTrace es => RTrace (Tr.restamp_job now <$> es) | r => r end.

Class IpcJson := {
  request_to_vec : IpcRequest -> outcome string (list byte);
  request_from_slice : list byte -> outcome string IpcRequest;
  response_to_vec : IpcResponse -> outcome string (list byte);
  response_from_slice : Z -> list byte -> outcome string IpcResponse;
  snapshot_to_string : DiagnosticSnapshot -> outcome string string;
  request_roundtrip q d : request_to_vec q = Ok d -> request_from_slice d = Ok q;
  response_roundtrip r d now :
    exact_json r = true -> response_to_vec r = Ok d -> response_from_slice now d = Ok (restamp now r);
  json_no_panic q r d now s :
    is_panic (request_to_vec q) = false /\ is_panic (request_from_slice d) = false /\
    is_panic (response_to_vec r) = false /\ is_panic (response_from_slice now d) = false /\
    is_panic (snapshot_to_string s) = false;
}.

(** ** The server *)

Record IpcServerConfig := mkServerConfig {
  socket_path : string;
  max_connections : Z;
  request_timeout_secs : Z;
  max_request_size : Z;
}.
Definition IpcServerConfig_default : IpcServerConfig :=
  mkServerConfig "/tmp/ghostpages.sock" 64 30 (256 * 1024 * 1024).

Record Server (P : Type) := mkServer { sv_orch : Orchestrator P; sv_log : TraceLog }.
Arguments mkServer {P}.
Arguments sv_orch {P}.
Arguments sv_log {P}.

Section server.
Context {P : Type} `{PlacementPolicy P} `{Blake3} `{J : IpcJson} (b : Build).
Local Abbreviation SvM := (M (Server P) GhostError).

(** A method of the orchestrator whose error is looked at. *)
Definition tried {A} (m : OM A) : SvM (GhostError + A) := fun s =>
  let '(r, sh) := m (or_shared (sv_orch s)) in
  let s' := mkServer (set_shared (sv_orch s) sh) (sv_log s) in
  match r with Ok a => (Ok (inr a), s') | Err e => (Ok (inl e), s') | Panic p => (Panic p, s') end.

(** A block that holds the lock of the chunk states. *)
Definition look {A} (f : StateMachine -> A) : SvM A := fun s =>
  if sh_poisoned (or_shared (sv_orch s))
  then (Panic "called Result::unwrap() on an Err value: PoisonError", s)
  else (Ok (f (sh_sm (or_shared (sv_orch s)))), s).

Definition clock : SvM Z := fun s =>
  let '(r, sh) := now (or_shared (sv_orch s)) in (r, mkServer (set_shared (sv_orch s) sh) (sv_log s)).

Definition server_trace (e : Z -> Tr.TraceEvent) : SvM unit :=
  t <- clock ;;
  fun s => let '(r, l) := record (e t) (sv_log s) in (r, mkServer (sv_orch s) l).

Definition not_found (c : ChunkId) : IpcResponse :=
  RError CodeChunkNotFound ("chunk " +:+ short_hex c +:+ " not found").

Definition code_of (e : GhostError) : IpcErrorCode :=
  match e with ChunkNotFound _ => CodeChunkNotFound | _ => CodeInternalError end.

Definition handle_store (data : list byte) (tier : option TierId) : SvM IpcResponse :=
  let chunk_id := from_data data in
  r <- tried (store b chunk_id (default Ram tier) data) ;;
  ret (match r with
       | inr _ => RChunkId chunk_id
       | inl e => RError CodeInternalError ("store failed: " +:+ ghost_error_display e)
       end).

Definition handle_retrieve (c : ChunkId) : SvM IpcResponse :=
  st <- look (fun sm => get_state sm c) ;;
  match st with
  | None => ret (not_found c)
  | Some _ =>
      r <- tried (retrieve b c Ram) ;;
      ret (match r with
           | inr _ => ROk None
           | inl e => RError (code_of e) ("retrieve failed: " +:+ ghost_error_display e)
           end)
  end.

Fixpoint delete_loop (c : ChunkId) (tiers : list TierId) (deleted : bool) : SvM IpcResponse :=
  match tiers with
  | [] => ret (if deleted then ROk None else not_found c)
  | t :: tiers =>
      r <- tried (evict b c t) ;;
      match r with
      | inr _ => delete_loop c tiers true
      | inl (ChunkNotFound _) => delete_loop c tiers deleted
      | inl e => ret (RError CodeInternalError ("delete failed: " +:+ ghost_error_display e))
      end
  end.

Definition handle_delete (c : ChunkId) : SvM IpcResponse :=
  delete_loop c [Ram; Simulation; Disk; GpuVram] false.

Definition handle_migrate (c : ChunkId) (from to : TierId) : SvM IpcResponse :=
  r <- tried (migrate b c from to 0) ;;
  ret (match r with
       | inr _ => ROk None
       | inl e => RError (code_of e) ("migrate failed: " +:+ ghost_error_display e)
       end).

Definition placeholder_meta (t : Z) (c : ChunkId) : ChunkMeta :=
  ChunkMeta_new t c 0 0 Ram CompNone (repeat Byte.x00 32).

Definition handle_info (c : ChunkId) : SvM IpcResponse :=
  st <- look (fun sm => get_state sm c) ;;
  match st with
  | Some _ => t <- clock ;; ret (RInfo (placeholder_meta t c))
  | None => ret (not_found c)
  end.

Fixpoint list_metas (cs : list ChunkId) : SvM (list (ChunkId * ChunkMeta)) :=
  match cs with
  | [] => ret []
  | c :: cs => t <- clock ;; l <- list_metas cs ;; ret ((c, placeholder_meta t c) :: l)
  end.

(** The filter keeps every chunk, whatever [tier] is. *)
Definition handle_list (tier : option TierId) : SvM IpcResponse :=
  stored <- look (fun sm => chunks_in_state sm Stored) ;;
  l <- list_metas stored ;;
  ret (RList l).

Definition handle_status (uptime : Z) : SvM IpcResponse :=
  st <- gets (fun s => status (or_shared (sv_orch s))) ;;
  ret (RStatus uptime (st_trace_event_count st)
         [mkTierInfo Ram (1024 * 1024 * 1024) 0 0; mkTierInfo Simulation (512 * 1024 * 1024) 0 0]
         (st_queue_depth st) (st_active_workers st)).

Definition handle_pressure : SvM IpcResponse :=
  gets (fun s => RPressure (current_pressure (sv_orch s))).

Definition handle_trace (count : option Z) : SvM IpcResponse :=
  gets (fun s =>
    let all := get_events (sv_log s) in
    RTrace (match count with Some n => take (Z.to_nat n) (reverse all) | None => all end)).

Definition handle_pressure_check (now_s : Z) : SvM IpcResponse := fun s =>
  let '(r, o) := run_pressure_check now_s (sv_orch s) in
  let s' := mkServer o (sv_log s) in
  match r with
  | Ok l => (Ok (RPressureCheck (Z.of_nat (length l))), s')
  | Err e => (Ok (RError CodeInternalError ("pressure check failed: " +:+ ghost_error_display e)), s')
  | Panic p => (Panic p, s')
  end.

Definition handle_shutdown : SvM IpcResponse := ret (ROk (Some (bytes_of_string "shutdown initiated"))).

Definition handle_diagnostics (uptime : Z) : SvM IpcResponse :=
  t <- clock ;;
  snap <- gets (fun s => diagnostic_snapshot t uptime (sv_orch s)) ;;
  match snapshot_to_string snap with
  | Ok j => ret (RDiagnostics j)
  | Err e => ret (RError CodeInternalError ("failed to serialize diagnostics: " +:+ e))
  | Panic p => panic p
  end.

Definition handle_queue_status : SvM IpcResponse :=
  gets (fun s => let q := sh_queue (or_shared (sv_orch s)) in
                 RQueueStatus (depth q) (q_capacity q) (is_full q) 0 0).
Definition handle_migration_status : SvM IpcResponse :=
  gets (fun s => RMigrationStatus (active_count (or_engine (sv_orch s))) 0 0 0 0).
Definition handle_allocator_status : SvM IpcResponse := ret (RAllocatorStatus 0 0 0 0 0).
Definition handle_backend_status : SvM IpcResponse :=
  gets (fun s => RBackendStatus
    ((fun t => mkBackendInfo t "unknown" 0 0 0) <$> btree_keys (or_backends (sv_orch s)))).
Definition handle_replay_status : SvM IpcResponse := ret (RReplayStatus 0 0 0 0).

(** [uptime] is the time since the server started, [now_s] the policy's clock. *)
Definition dispatch_request (uptime now_s : Z) (q : IpcRequest) : SvM IpcResponse :=
  match q with
  | QStore data tier => handle_store data tier
  | QRetrieve c => handle_retrieve c
  | QDelete c => handle_delete c
  | QMigrate c from to => handle_migrate c from to
  | QInfo c => handle_info c
  | QList tier => handle_list tier
  | QStatus => handle_status uptime
  | QPressure => handle_pressure
  | QTrace count => handle_trace count
  | QPressureCheck => handle_pressure_check now_s
  | QShutdown => handle_shutdown
  | QPing => ret RPong
  | QDiagnostics => handle_diagnostics uptime
  | QQueueStatus => handle_queue_status
  | QMigrationStatus => handle_migration_status
  | QAllocatorStatus => handle_allocator_status
  | QBackendStatus => handle_backend_status
  | QReplayStatus => handle_replay_status
  end.

(** *** Connections *)

(** What the environment decides at a turn of the loop: the shutdown flag and
    whether the read times out; and the readings of the clocks. *)
Record Turn := mkTurn { tn_shutdown : bool; tn_timeout : bool; tn_uptime : Z; tn_now_s : Z }.

Record Conn := mkConn { cn_server : Server P; cn_in : Reader; cn_out : Writer }.
Local Abbreviation CnM := (M Conn GhostError).

Definition on_server {A} (m : SvM A) : CnM A := fun c =>
  let '(r, s) := m (cn_server c) in (r, mkConn s (cn_in c) (cn_out c)).

Definition send_response (r : IpcResponse) : CnM unit :=
  d <- lift (map_err (fun e => IpcError ("failed to serialize response: " +:+ e)) (response_to_vec r)) ;;
  fun c => let '(o, w) := write_frame d (cn_out c) in (o, mkConn (cn_server c) (cn_in c) w).

Definition oversize_error (size max_size : Z) : IpcResponse :=
  RError CodeInvalidRequest ("request size " +:+ pretty size +:+ " exceeds maximum " +:+ pretty max_size).
Definition parse_error (e : string) : IpcResponse :=
  RError CodeInvalidRequest ("failed to parse request: " +:+ e).

(** One turn of the loop; [false] when it breaks. *)
Definition serve (max_size : Z) (t : Turn) : CnM bool :=
  if tn_shutdown t then ret false
  else if tn_timeout t then ret false
  else fun c =>
    match read_frame (cn_in c) with
    | (Panic p, r) => (Panic p, mkConn (cn_server c) r (cn_out c))
    | (Err _, r) => (Ok false, mkConn (cn_server c) r (cn_out c))
    | (Ok request_bytes, r) =>
        (let size := Z.of_nat (length request_bytes) in
         if max_size <? size then send_response (oversize_error size max_size) ;;; ret true
         else match request_from_slice request_bytes with
              | Panic p => panic p
              | Err e => send_response (parse_error e) ;;; ret true
              | Ok q =>
                  on_server (server_trace (Tr.IpcRequestReceived (request_type q))) ;;;
                  resp <- on_server (dispatch_request (tn_uptime t) (tn_now_s t) q) ;;
                  on_server (server_trace (Tr.IpcResponseSent (request_type q) (is_success resp))) ;;;
                  fun c => match send_response resp c with
                           | (Ok _, c') => (Ok true, c')
                           | (Err _, c') => (Ok false, c')
                           | (Panic p, c') => (Panic p, c')
                           end
              end) (mkConn (cn_server c) r (cn_out c))
    end.

Fixpoint handle_connection (max_size : Z) (ts : list Turn) : CnM unit :=
  match ts with
  | [] => ret tt
  | t :: ts =>
      more <- serve max_size t ;;
      if more then handle_connection max_size ts else ret tt
  end.

(** The task of an accepted connection. *)
Definition connection_task (max_size : Z) (ts : list Turn) : CnM unit :=
  on_server (server_trace Tr.IpcConnectionAccepted) ;;;
  (fun c => match handle_connection max_size ts c with
            | (Panic p, c') => (Panic p, c')
            | (_, c') => (Ok tt, c')
            end) ;;;
  on_server (server_trace Tr.IpcConnectionClosed).

(** ** The client *)

(** A client and its two streams; [cl_peer] is the other end. *)
Record Client (Peer : Type) := mkClient { cl_peer : Peer; cl_out : Writer; cl_in : Reader }.
Arguments mkClient {Peer}.
Arguments cl_peer {Peer}.
Arguments cl_out {Peer}.
Arguments cl_in {Peer}.

Section client.
Context {Peer : Type}.
(** What the other end does between the request and the response, whether the
    response is late, and the time at which it is read. *)
Context (peer_acts : Client Peer -> Client Peer) (late : bool) (read_at : Z).
Local Abbreviation ClM := (M (Client Peer) GhostError).

Definition client_write (d : list byte) : ClM unit := fun c =>
  let '(r, w) := write_frame d (cl_out c) in (r, mkClient (cl_peer c) w (cl_in c)).
Definition client_read : ClM (list byte) := fun c =>
  let '(r, i) := read_frame (cl_in c) in (r, mkClient (cl_peer c) (cl_out c) i).

Definition send_request (q : IpcRequest) : ClM IpcResponse :=
  d <- lift (map_err (fun e => IpcError ("failed to serialize request: " +:+ e)) (request_to_vec q)) ;;
  client_write d ;;;
  modify peer_acts ;;;
  response_bytes <- (if late then throw ETimeout else client_read) ;;
  lift (map_err (fun e => IpcError ("failed to deserialize response: " +:+ e))
          (response_from_slice read_at response_bytes)).

(** The error of a method; the debug output of an unexpected response is left
    out of its text. *)
Definition call_error {A} (what : string) (r : IpcResponse) : outcome GhostError A :=
  match r with
  | RError code message =>
      Err (IpcError (what +:+ " failed (" +:+ code_debug code +:+ "): " +:+ message))
  | _ => Err (IpcError ("unexpected response to " +:+ what))
  end.

Definition client_store (data : list byte) (tier : option TierId) : ClM ChunkId :=
  r <- send_request (QStore data tier) ;;
  lift (match r with RChunkId c => Ok c | r => call_error "store" r end).
Definition client_retrieve (c : ChunkId) : ClM (list byte) :=
  r <- send_request (QRetrieve c) ;;
  lift (match r with
        | ROk data => ok_or (IpcError "retrieve returned Ok with no data") data
        | r => call_error "retrieve" r
        end).
Definition client_delete (c : ChunkId) : ClM unit :=
  r <- send_request (QDelete c) ;;
  lift (match r with ROk _ => Ok tt | r => call_error "delete" r end).
Definition client_migrate (c : ChunkId) (from to : TierId) : ClM unit :=
  r <- send_request (QMigrate c from to) ;;
  lift (match r with ROk _ => Ok tt | r => call_error "migrate" r end).
Definition client_info (c : ChunkId) : ClM ChunkMeta :=
  r <- send_request (QInfo c) ;;
  lift (match r with RInfo m => Ok m | r => call_error "info" r end).
Definition client_list (tier : option TierId) : ClM (list (ChunkId * ChunkMeta)) :=
  r <- send_request (QList tier) ;;
  lift (match r with RList l => Ok l | r => call_error "list" r end).

Record StatusResponse := mkStatusResponse {
  sr_uptime_secs : Z;
  sr_chunks_total : Z;
  sr_tiers : list TierInfo;
  sr_queue_depth : Z;
  sr_active_workers : Z;
}.
Definition client_status : ClM StatusResponse :=
  r <- send_request QStatus ;;
  lift (match r with RStatus u c t d w => Ok (mkStatusResponse u c t d w) | r => call_error "status" r end).
Definition client_pressure : ClM PressureState :=
  r <- send_request QPressure ;;
  lift (match r with RPressure p => Ok p | r => call_error "pressure" r end).
Definition client_trace (count : option Z) : ClM (list Tr.TraceEvent) :=
  r <- send_request (QTrace count) ;;
  lift (match r with RTrace es => Ok es | r => call_error "trace" r end).
Definition client_ping : ClM unit :=
  r <- send_request QPing ;;
  lift (match r with RPong => Ok tt | r => call_error "ping" r end).
Definition client_shutdown : ClM unit :=
  r <- send_request QShutdown ;;
  lift (match r with
        | ROk _ | RPong => Ok tt
        | RError _ message =>
            if Str.contains "shutting down" message || Str.contains "connection" message then Ok tt
            else Err (IpcError ("shutdown failed: " +:+ message))
        | r => call_error "shutdown" r
        end).
End client.

(** The server at the other end takes its turn on the bytes sent so far. *)
Definition server_acts (max_size : Z) (t : Turn) (c : Client (Server P)) : Client (Server P) :=
  let '(_, n) := serve max_size t (mkConn (cl_peer c) (mkReader (sent (cl_out c)) None) (mkWriter [] None)) in
  mkClient (cn_server n) (mkWriter (incoming (cn_in n)) (fault (cl_out c)))
    (mkReader (incoming (cl_in c) ++ sent (cn_out n)) (ending (cl_in c))).

(** ** What a connection answers *)

(** The answer to one payload, without the socket. *)
Definition answer (max_size : Z) (t : Turn) (d : list byte) : SvM IpcResponse :=
  let size := Z.of_nat (length d) in
  if max_size <? size then ret (oversize_error size max_size)
  else match request_from_slice d with
       | Panic p => panic p
       | Err e => ret (parse_error e)
       | Ok q =>
           server_trace (Tr.IpcRequestReceived (request_type q)) ;;;
           resp <- dispatch_request (tn_uptime t) (tn_now_s t) q ;;
           server_trace (Tr.IpcResponseSent (request_type q) (is_success resp)) ;;;
           ret resp
       end.

Fixpoint answer_all (max_size : Z) (l : list (Turn * list byte)) : SvM (list IpcResponse) :=
  match l with
  | [] => ret []
  | (t, d) :: l => r <- answer max_size t d ;; rs <- answer_all max_size l ;; ret (r :: rs)
  end.

(** The turn ends the connection before anything is read. *)
Definition stops (t : Turn) : bool := tn_shutdown t || tn_timeout t.

(** The payload is oversized or no request. *)
Definition refused (max_size : Z) (d : list byte) : bool :=
  (max_size <? Z.of_nat (length d)) ||
  match request_from_slice d with Ok _ => false | _ => true end.

Definition unserializable (e : string) : GhostError := IpcError ("failed to serialize response: " +:+ e).

(** A turn on a whole frame: the answer is computed and its frame written.  A
    panic or an error of the computation ends the handler; a response that
    cannot be serialized ends it too, with an error if the payload was refused. *)
Lemma serve_spec max_size t d rest e out s :
  Z.of_nat (length d) <= MAX_FRAME_SIZE ->
  serve max_size t (mkConn s (mkReader (frame d ++ rest) e) (mkWriter out None)) =
  if stops t then (Ok false, mkConn s (mkReader (frame d ++ rest) e) (mkWriter out None))
  else
    let '(a, s') := answer max_size t d s in
    let c out' := mkConn s' (mkReader rest e) (mkWriter out' None) in
    match a with
    | Ok r =>
        match response_to_vec r with
        | Ok j => (Ok true, c (out ++ frame j))
        | Err m => ((if refused max_size d then Err (unserializable m) else Ok false), c out)
        | Panic p => (Panic p, c out)
        end
    | Err e => (Err e, c out)
    | Panic p => (Panic p, c out)
    end.
Proof.
  intros Hd. unfold serve, stops. destruct (tn_shutdown t); [done|]. destruct (tn_timeout t); [done|]. cbn [orb].
  cbn [cn_in]. rewrite read_frame_ok by done. cbn [cn_server cn_out]. unfold answer, refused. cbv zeta.
  assert (forall r s0, send_response r (mkConn s0 (mkReader rest e) (mkWriter out None)) =
    match response_to_vec r with
    | Ok j => (Ok tt, mkConn s0 (mkReader rest e) (mkWriter (out ++ frame j) None))
    | Err m => (Err (unserializable m), mkConn s0 (mkReader rest e) (mkWriter out None))
    | Panic p => (Panic p, mkConn s0 (mkReader rest e) (mkWriter out None))
    end) as Hsend.
  { intros r s0. unfold send_response, bind, lift. destruct (response_to_vec r); cbn [map_err]; [|done..].
    cbn [cn_out]. by rewrite write_frame_ok. }
  destruct (max_size <? Z.of_nat (length d)).
  { unfold bind at 1. rewrite Hsend. unfold ret. by destruct (response_to_vec _). }
  destruct (request_from_slice d) as [q|err|p]; [| |done].
  2:{ unfold bind at 1. rewrite Hsend. unfold ret. by destruct (response_to_vec _). }
  unfold bind, on_server. cbn [cn_server].
  destruct (server_trace _ s) as [[[]|?|?] s1]; [|done..]. cbn [cn_server cn_in cn_out].
  destruct (dispatch_request _ _ _ s1) as [[resp|?|?] s2]; [|done..]. cbn [cn_server cn_in cn_out].
  destruct (server_trace _ s2) as [[[]|?|?] s3]; [|done..]. cbn [cn_server cn_in cn_out].
  rewrite Hsend. unfold ret. by destruct (response_to_vec _).
Qed.

(** What a connection does with the payloads that arrive on it: how the handler
    ends, the server it leaves, the payloads of the frames it writes, and the
    payloads it leaves unread. *)
Fixpoint converse (max_size : Z) (l : list (Turn * list byte)) (s : Server P)
    : outcome GhostError unit * Server P * list (list byte) * list (list byte) :=
  match l with
  | [] => (Ok tt, s, [], [])
  | (t, d) :: l =>
      if stops t then (Ok tt, s, [], d :: l.*2)
      else match answer max_size t d s with
      | (Ok r, s') =>
          match response_to_vec r with
          | Ok j => let '(o, s2, js, unread) := converse max_size l s' in (o, s2, j :: js, unread)
          | Err m => ((if refused max_size d then Err (unserializable m) else Ok tt), s', [], l.*2)
          | Panic p => (Panic p, s', [], l.*2)
          end
      | (Err e, s') => (Err e, s', [], l.*2)
      | (Panic p, s') => (Panic p, s', [], l.*2)
      end
  end.

Lemma handle_conversation max_size l ts s out :
  Forall (fun p => Z.of_nat (length p.2) <= MAX_FRAME_SIZE) l ->
  handle_connection max_size (l.*1 ++ ts) (mkConn s (mkReader (l.*2 ≫= frame) None) (mkWriter out None)) =
  (let '(o, s', js, unread) := converse max_size l s in
   (o, mkConn s' (mkReader (unread ≫= frame) None) (mkWriter (out ++ (js ≫= frame)) None))).
Proof.
  intros Hl. revert s out. induction Hl as [|[t d] l Hd _ IH]; intros s out.
  - cbn. rewrite app_nil_r. destruct ts as [|t ts]; [done|]. cbn. unfold bind, serve.
    by destruct (tn_shutdown t), (tn_timeout t).
  - cbn [snd] in Hd. rewrite !fmap_cons. cbn [fst snd app handle_connection converse].
    change ((d :: l.*2) ≫= frame) with (frame d ++ (l.*2 ≫= frame)).
    unfold bind at 1. rewrite serve_spec by done. destruct (stops t); [cbn; by rewrite app_nil_r|].
    destruct (answer max_size t d s) as [[r|err|p] s1]; [|cbn; by rewrite app_nil_r..].
    destruct (response_to_vec r) as [j|m|p]; [|destruct (refused _ _); cbn; by rewrite app_nil_r|cbn; by rewrite app_nil_r].
    cbv beta iota zeta. rewrite IH. destruct (converse max_size l s1) as [[[o s2] js] unread].
    change ((j :: js) ≫= frame) with (frame j ++ (js ≫= frame)). by rewrite app_assoc.
Qed.

(** How the conversation goes: one answer per payload read, except for the last
    one when it ends the handler. *)
Definition reads (max_size : Z) (l : list (Turn * list byte)) (s : Server P)
    (o : outcome GhostError unit) (s' : Server P) (js unread : list (list byte)) : Prop :=
  exists n rs s1, unread = drop n l.*2 /\
    answer_all max_size (take (length js) l) s = (Ok rs, s1) /\
    Forall2 (fun r j => response_to_vec r = Ok j) rs js /\
    (n = length js /\ o = Ok tt /\ s' = s1 \/
     n = S (length js) /\ exists t d, l !! length js = Some (t, d) /\ stops t = false /\
       (answer max_size t d s1).2 = s' /\
       forall r, (answer max_size t d s1).1 = Ok r -> is_ok (response_to_vec r) = false).

Lemma converse_reads max_size l s o s' js unread :
  converse max_size l s = (o, s', js, unread) -> reads max_size l s o s' js unread.
Proof.
  revert s js. induction l as [|[t d] l IH]; intros s js E; cbn [converse] in E.
  { injection E as <- <- <- <-. exists 0%nat, [], s. split_and!; [done..|by left]. }
  destruct (stops t) eqn:Ht.
  { injection E as <- <- <- <-. exists 0%nat, [], s. split_and!; [done..|by left]. }
  destruct (answer max_size t d s) as [a s1] eqn:Ea.
  assert (forall o', (o', s1, [], l.*2) = (o, s', js, unread) ->
    (forall r, a = Ok r -> is_ok (response_to_vec r) = false) -> reads max_size ((t, d) :: l) s o s' js unread) as Hend.
  { intros o' [= <- <- <- <-] Hr. exists 1%nat, [], s. split_and!; [reflexivity|reflexivity|constructor|].
    right. split; [done|]. exists t, d. rewrite Ea. by split_and!. }
  destruct a as [r|e|p]; [|eapply Hend; [exact E|done]..].
  destruct (response_to_vec r) as [j|m|p] eqn:Ej; [|eapply Hend; [exact E|by intros ? [= <-]; rewrite Ej]..].
  destruct (converse max_size l s1) as [[[o1 s2] js1] unread1] eqn:Ec. injection E as <- <- <- <-.
  destruct (IH _ _ Ec) as (n & rs & s3 & -> & Ha & Hj & Hn). exists (S n), (r :: rs), s3.
  split_and!; [done| |by constructor|].
  - cbn [length take answer_all]. unfold bind at 1. rewrite Ea. unfold bind. by rewrite Ha.
  - destruct Hn as [(-> & -> & ->)|(-> & Hn)]; [by left|by right].
Qed.

Lemma converse_all max_size l s o s' js unread rs s1 :
  converse max_size l s = (o, s', js, unread) ->
  Forall (fun p => stops p.1 = false) l -> answer_all max_size l s = (Ok rs, s1) ->
  Forall (fun r => is_ok (response_to_vec r) = true) rs ->
  o = Ok tt /\ s' = s1 /\ unread = [] /\ Forall2 (fun r j => response_to_vec r = Ok j) rs js.
Proof.
  intros E Hl. revert s js rs E. induction Hl as [|[t d] l Ht _ IH]; intros s js rs E Ha Hr; cbn [converse answer_all] in E, Ha.
  { injection E as <- <- <- <-. injection Ha as <- <-. done. }
  cbn [fst] in Ht. rewrite Ht in E. unfold bind at 1 in Ha.
  destruct (answer max_size t d s) as [[r|e|p] s2]; [|done..]. unfold bind in Ha.
  destruct (answer_all max_size l s2) as [[rs'|e|p] s3] eqn:Ea; [|done..]. injection Ha as <- <-.
  inversion_clear Hr as [|? ? Hr1 Hr2]. destruct (response_to_vec r) as [j|m|p] eqn:Ej; [|done..].
  destruct (converse max_size l s2) as [[[o1 s4] js1] unread1] eqn:Ec. injection E as <- <- <- <-.
  destruct (IH _ _ _ Ec Ea Hr2) as (-> & -> & -> & Hj). split_and!; [done..|by constructor].
Qed.

(** C20: A connection answers its requests in order.  Whatever payloads arrive
    on a connection (well-formed requests, oversized or unparsable ones), whole
    and within the frame limit, and whenever the shutdown flag or a timeout
    ends it, the handler does what [converse] says, on the server and on the
    socket: each answer is computed in the state the earlier ones left.
    If it wrote [n] frames it read [n] payloads, and answered each of them in
    its place, or one more, whose answer panicked, failed or had no
    serialization.  When no turn ends the connection and every answer is
    computed and serialized, every payload gets exactly one response frame and
    the handler ends without error, having consumed everything. *)
Theorem connection_answers max_size l ts s out :
  Forall (fun p => Z.of_nat (length p.2) <= MAX_FRAME_SIZE) l ->
  let '(o, s', js, unread) := converse max_size l s in
  handle_connection max_size (l.*1 ++ ts)
    (mkConn s (mkReader (l.*2 ≫= frame) None) (mkWriter out None)) =
  (o, mkConn s' (mkReader (unread ≫= frame) None) (mkWriter (out ++ (js ≫= frame)) None)) /\
  reads max_size l s o s' js unread /\
  (forall rs s1, Forall (fun p => stops p.1 = false) l -> answer_all max_size l s = (Ok rs, s1) ->
     Forall (fun r => is_ok (response_to_vec r) = true) rs ->
     o = Ok tt /\ s' = s1 /\ unread = [] /\ Forall2 (fun r j => response_to_vec r = Ok j) rs js).
Proof.
  intros Hl. pose proof (handle_conversation max_size l ts s out Hl) as Hh.
  destruct (converse max_size l s) as [[[o s'] js] unread] eqn:E.
  split; [exact Hh|]. split; [by apply converse_reads|]. intros rs s1. by apply converse_all.
Qed.

(** *** Remote calls *)

Definition idle_link (s : Server P) : Client (Server P) := mkClient s (mkWriter [] None) (mkReader [] None).

Lemma frame_end d : frame d ++ [] = frame d.
Proof. apply app_nil_r. Qed.

Definition unparsed {A} (o : outcome string A) : outcome GhostError A :=
  map_err (fun e => IpcError ("failed to deserialize response: " +:+ e)) o.

(** What the server makes of a payload: its next state, and the payload of the
    response frame if it writes one. *)
Definition reply (max_size : Z) (t : Turn) (d : list byte) (s : Server P) : Server P * option (list byte) :=
  let '(a, s') := answer max_size t d s in
  (s', match a with
       | Ok r => match response_to_vec r with Ok j => Some j | _ => None end
       | _ => None
       end).

Lemma server_acts_reply max_size t d s rest :
  stops t = false -> Z.of_nat (length d) <= MAX_FRAME_SIZE ->
  server_acts max_size t (mkClient s (mkWriter (frame d) None) (mkReader rest None)) =
  (let '(s', j) := reply max_size t d s in
   mkClient s' (mkWriter [] None) (mkReader (rest ++ from_option frame [] j) None)).
Proof.
  intros Ht Hd. unfold server_acts. cbn [cl_peer cl_out cl_in sent incoming fault ending].
  rewrite <- (frame_end d), serve_spec, Ht by done. unfold reply.
  destruct (answer max_size t d s) as [[r|e|p] s']; [|done..].
  by destruct (response_to_vec r).
Qed.

(** A call reads whatever frame is first on the stream. *)
Lemma send_request_spec max_size t late now q d s rest :
  stops t = false -> request_to_vec q = Ok d -> Z.of_nat (length d) <= MAX_FRAME_SIZE ->
  send_request (server_acts max_size t) late now q (mkClient s (mkWriter [] None) (mkReader rest None)) =
  (let '(s', j) := reply max_size t d s in
   let stream := mkReader (rest ++ from_option frame [] j) None in
   if late then (Err ETimeout, mkClient s' (mkWriter [] None) stream)
   else
     let '(k, i) := read_frame stream in
     (let? k := k in unparsed (response_from_slice now k), mkClient s' (mkWriter [] None) i)).
Proof.
  intros Ht Hq Hd. unfold send_request, lift. rewrite Hq. cbn [map_err]. unfold bind at 1.
  unfold bind at 1, client_write. cbn [cl_out]. rewrite write_frame_ok. cbn [cl_peer cl_in].
  unfold bind at 1, modify. rewrite app_nil_l, server_acts_reply by done.
  destruct (reply max_size t d s) as [s' j]. cbv zeta. destruct late; [done|].
  unfold bind, client_read. cbn [cl_in cl_peer cl_out]. by destruct (read_frame _) as [[k|e|m] i].
Qed.

(** A connection that the server ends gives no answer. *)
Lemma send_request_stopped max_size t late now q s :
  stops t = true -> is_ok (request_to_vec q) = true ->
  let '(o, c) := send_request (server_acts max_size t) late now q (mkClient s (mkWriter [] None) (mkReader [] None)) in
  is_ok o = false /\ is_panic o = false /\ cl_peer c = s.
Proof.
  intros Ht Hq. unfold send_request, lift. destruct (request_to_vec q) as [d|e|p]; [|done..]. cbn [map_err]. unfold bind at 1.
  unfold bind at 1, client_write. cbn [cl_out]. rewrite write_frame_ok. cbn [cl_peer cl_in].
  unfold bind at 1, modify, server_acts, serve. unfold stops in Ht.
  destruct (tn_shutdown t), (tn_timeout t); try done; by destruct late.
Qed.

(** C21: A remote call is a local one, as far as the response travels.  On an
    idle connection that no shutdown or server timeout ends, a request within
    the frame limit is answered in the server exactly as [answer] says (a
    request over the server's own limit with the error for it).  If the
    response is computed and serialized within the frame limit, and does not
    come late, [send_request] returns what the client parses from its JSON and
    the connection is idle again; for a response whose numbers JSON carries
    exactly ([exact_json], so neither a pressure state nor a trace with
    fractions) that is the response itself, with its transfer jobs restamped.
    If the response is computed but late, the call times out and the response
    stays on the connection, where the next call takes it for its own answer.
    If there is no response (a panic, an error or no serialization), the call
    fails; every failure before the response is read leaves the server's state
    as the computation left it. *)
Theorem remote_call max_size t late now q d s :
  stops t = false -> request_to_vec q = Ok d -> Z.of_nat (length d) <= MAX_FRAME_SIZE ->
  let '(a, s') := answer max_size t d s in
  let '(o, c) := send_request (server_acts max_size t) late now q (idle_link s) in
  cl_peer c = s' /\
  match reply max_size t d s with
  | (_, Some j) =>
      Z.of_nat (length j) <= MAX_FRAME_SIZE ->
      if late then
        o = Err ETimeout /\ cl_in c = mkReader (frame j) None /\
        forall t2 q2 d2 now2, stops t2 = false -> request_to_vec q2 = Ok d2 ->
          Z.of_nat (length d2) <= MAX_FRAME_SIZE ->
          (send_request (server_acts max_size t2) false now2 q2 c).1 =
            unparsed (response_from_slice now2 j)
      else
        c = idle_link s' /\
        o = unparsed (response_from_slice now j) /\
        forall r, a = Ok r -> exact_json r = true -> o = Ok (restamp now r)
  | (_, None) => is_ok o = false /\ is_panic o = false /\ (late = false -> o <> Err ETimeout)
  end.
Proof.
  intros Ht Hq Hd. destruct (answer max_size t d s) as [a s'] eqn:Ea.
  assert (exists j, reply max_size t d s = (s', j)) as [j Er].
  { unfold reply. rewrite Ea. eauto. }
  unfold idle_link. rewrite (send_request_spec max_size t late now q d) by done. rewrite Er. cbv zeta.
  rewrite app_nil_l. destruct late.
  - split; [done|]. destruct j as [j|]; [|done]. intros Hj. split_and!; [done..|].
    intros t2 q2 d2 now2 Ht2 Hq2 Hd2. cbn [from_option]. rewrite (send_request_spec max_size t2 false now2 q2 d2) by done.
    destruct (reply max_size t2 d2 s') as [s2 j2]. cbv zeta. by rewrite read_frame_ok.
  - destruct j as [j|]; cbn [from_option]; [|done].
    destruct (read_frame _) as [k i] eqn:Ek. split; [done|]. intros Hj.
    rewrite <- (frame_end j), read_frame_ok in Ek by done. injection Ek as <- <-. split_and!; [done..|].
    intros r -> Hx. unfold reply in Er. rewrite Ea in Er. cbn [obind].
    destruct (response_to_vec r) as [j'|m|p] eqn:Hr; [|done..]. injection Er as ->.
    by rewrite (response_roundtrip r j now Hx Hr).
Qed.

(** *** What clients get *)

Definition no_data (r : IpcResponse) : Prop := r = ROk None \/ exists code m, r = RError code m.

Lemma handle_retrieve_no_data c s r s' : handle_retrieve c s = (Ok r, s') -> no_data r.
Proof.
  unfold handle_retrieve, bind, look. destruct (sh_poisoned _); [done|].
  destruct (get_state _ c); [|intros [= <- <-]; right; unfold not_found; eauto].
  unfold tried. destruct (retrieve b c Ram _) as [[]]; intros [= <- <-]; [by left|right; eauto].
Qed.

Lemma answer_retrieve_no_data max_size t d c s r s' :
  request_from_slice d = Ok (QRetrieve c) -> answer max_size t d s = (Ok r, s') -> no_data r.
Proof.
  intros Hd. unfold answer. cbv zeta. rewrite Hd.
  destruct (max_size <? _); [intros [= <- <-]; right; unfold oversize_error; eauto|].
  unfold bind. destruct (server_trace _ s) as [[[]|?|?] s1]; try discriminate.
  cbn [dispatch_request]. destruct (handle_retrieve c s1) as [[resp|?|?] s2] eqn:E; try discriminate.
  destruct (server_trace _ s2) as [[[]|?|?] s3]; try discriminate. intros [= <- <-].
  by eapply handle_retrieve_no_data.
Qed.

(** No client ever gets data back.  Whatever the server holds, [retrieve] of the
    client returns an error: the server acknowledges the request without data,
    and the client takes that for a failure. *)
Theorem retrieve_never_delivers max_size t late now c s d :
  request_to_vec (QRetrieve c) = Ok d -> Z.of_nat (length d) <= MAX_FRAME_SIZE ->
  (forall j, (reply max_size t d s).2 = Some j -> Z.of_nat (length j) <= MAX_FRAME_SIZE) ->
  is_ok (client_retrieve (server_acts max_size t) late now c (idle_link s)).1 = false.
Proof.
  intros Hq Hd Hj. unfold client_retrieve, bind at 1, idle_link.
  destruct (stops t) eqn:Ht.
  { pose proof (send_request_stopped max_size t late now (QRetrieve c) s Ht ltac:(by rewrite Hq)) as Hs.
    by destruct (send_request _ _ _ _ _) as [[]]; destruct Hs. }
  rewrite (send_request_spec max_size t late now _ d) by done. unfold reply in *.
  destruct (answer max_size t d s) as [a s'] eqn:Ea. cbv zeta. destruct late; [done|]. rewrite app_nil_l.
  assert (forall r j, a = Ok r -> response_to_vec r = Ok j -> exists r', no_data r' /\ response_from_slice now j = Ok r') as Hr.
  { intros r j -> Er. pose proof (answer_retrieve_no_data _ _ _ _ _ _ _ (request_roundtrip _ _ Hq) Ea) as Hn.
    assert (exact_json r = true) as Hx by (destruct Hn as [->|(code & m & ->)]; done).
    exists (restamp now r). split; [by destruct Hn as [->|(code & m & ->)]; [left|right; eauto]|].
    by apply response_roundtrip. }
  destruct a as [r|e|p]; [|done..]. destruct (response_to_vec r) as [j|m|p] eqn:Er; [|done..].
  cbn [from_option]. rewrite <- (frame_end j), read_frame_ok by by apply Hj. cbn [obind].
  destruct (Hr r j eq_refl Er) as (r' & Hn & ->). cbn [unparsed map_err].
  by destruct Hn as [->|(code & m & ->)].
Qed.

Lemma evict_effect c t s :
  swf s -> wp (evict b c t) (fun r s' => prepare_post b (CEvict c t) s (match r with
    | Ok _ => Ok None | Err e => Err e | Panic p => Panic p end) s') s.
Proof.
  intros Hs. pose proof (prepare_effect b (CEvict c t) s Hs) as Hp. cbn [prepare] in Hp. unfold wp, bind in *.
  by destruct (evict b c t s) as [[]].
Qed.

(** An eviction that the lifecycle refuses leaves the chunk states alone. *)
Lemma evict_refused c t s :
  swf s -> get_state (sh_sm s) c <> Some Stored ->
  exists p, (evict b c t s).2 = set_sm s (sh_sm s) p /\
    match (evict b c t s).1 with
    | Err (ChunkNotFound _) => get_state (sh_sm s) c = None /\ p = false
    | Err _ => get_state (sh_sm s) c <> None
    | Ok _ => False
    | Panic _ => get_state (sh_sm s) c = Some Cached
    end.
Proof.
  intros [_ Hp] Hst. unfold evict, bind, on_states. rewrite Hp. unfold evict_states, gets, bind, id.
  destruct (get_state (sh_sm s) c) as [st|] eqn:E; [|by exists false].
  destruct st; try done; try (by exists false).
  unfold goto, bind. rewrite (transition_invalid b false c Cached Evicted) by (done || by unfold edge).
  destruct b; by eexists.
Qed.

Lemma tried_evict c t s :
  swf (or_shared (sv_orch s)) ->
  let '(r, s') := tried (evict b c t) s in
  match r with
  | Ok (inr _) => get_state (sh_sm (or_shared (sv_orch s))) c = Some Stored /\
      swf (or_shared (sv_orch s')) /\ get_state (sh_sm (or_shared (sv_orch s'))) c = Some Evicted
  | Ok (inl (ChunkNotFound _)) => get_state (sh_sm (or_shared (sv_orch s))) c = None /\
      swf (or_shared (sv_orch s')) /\ sh_sm (or_shared (sv_orch s')) = sh_sm (or_shared (sv_orch s))
  | Err _ => False
  | Panic _ => get_state (sh_sm (or_shared (sv_orch s))) c = Some Cached /\
      sh_sm (or_shared (sv_orch s')) = sh_sm (or_shared (sv_orch s))
  | Ok (inl _) => get_state (sh_sm (or_shared (sv_orch s))) c <> None /\
      get_state (sh_sm (or_shared (sv_orch s))) c <> Some Stored /\
      sh_sm (or_shared (sv_orch s')) = sh_sm (or_shared (sv_orch s))
  end.
Proof.
  intros Hs. unfold tried. set (sh := or_shared (sv_orch s)) in *.
  destruct (decide (get_state (sh_sm sh) c = Some Stored)) as [Hst|Hst].
  - pose proof (evict_effect c t sh Hs) as He. unfold wp, prepare_post in He. cbn [call_chunk] in He.
    rewrite Hst in He. cbn [verdict] in He. destruct (evict b c t sh) as [r sh'].
    destruct He as (Hq & _ & _ & _ & _ & jo & Hr & _ & _ & Hsm & Hp). cbn [fst snd] in *.
    destruct r; try discriminate. split_and!; [done|by split|]. cbn. rewrite Hsm. apply lookup_insert_eq.
  - destruct (evict_refused c t sh Hs Hst) as (p & E2 & E1). destruct (evict b c t sh) as [r sh'].
    cbn [fst snd] in *. subst sh'. destruct r as [u|e|m]; [done| |done].
    destruct e; try done. destruct E1 as [E1 ->]. split_and!; try done. destruct Hs as [Hq _]. by split.
Qed.

(** Deleting never succeeds.  A chunk that is stored is evicted from the first
    tier of the list, and the attempt on the second finds it evicted and is
    reported as an internal error; an unknown chunk is reported as not found;
    and no state of the chunk makes the request succeed. *)
Theorem delete_never_succeeds c s :
  swf (or_shared (sv_orch s)) ->
  let '(r, s') := handle_delete c s in
  (forall d, r <> Ok (ROk d)) /\
  match get_state (sh_sm (or_shared (sv_orch s))) c with
  | None => r = Ok (not_found c) /\ sh_sm (or_shared (sv_orch s')) = sh_sm (or_shared (sv_orch s))
  | Some Stored =>
      (exists m, r = Ok (RError CodeInternalError m)) /\
      get_state (sh_sm (or_shared (sv_orch s'))) c = Some Evicted
  | Some _ => sh_sm (or_shared (sv_orch s')) = sh_sm (or_shared (sv_orch s))
  end.
Proof.
  intros Hs. unfold handle_delete.
  destruct (get_state (sh_sm (or_shared (sv_orch s))) c) as [st|] eqn:Est.
  - cbn [delete_loop]. unfold bind at 1. pose proof (tried_evict c Ram s Hs) as H1'. rewrite Est in H1'.
    destruct (tried (evict b c Ram) s) as [[[e|[]]|e|p] s1]; [| |done|by destruct H1' as [[= ->] ?]].
    + destruct e; try (by destruct st, H1' as (_ & ? & ?)); by destruct H1'.
    + destruct H1' as ([= ->] & Hs1 & Hst1).
      unfold bind at 1. pose proof (tried_evict c Simulation s1 Hs1) as H2'. rewrite Hst1 in H2'.
      destruct (tried (evict b c Simulation) s1) as [[[e|[]]|e|p] s2]; [|by destruct H2'|done|by destruct H2'].
      destruct e; try (by destruct H2'); destruct H2' as (_ & _ & Hsm); (split; [done|]);
        cbn [ret fst snd]; rewrite Hsm; eauto.
  - assert (forall tiers s0 deleted, swf (or_shared (sv_orch s0)) -> get_state (sh_sm (or_shared (sv_orch s0))) c = None ->
      let '(r, s') := delete_loop c tiers deleted s0 in
      r = Ok (if deleted then ROk None else not_found c) /\ sh_sm (or_shared (sv_orch s')) = sh_sm (or_shared (sv_orch s0)))
      as Hloop.
    { intros tiers. induction tiers as [|t tiers IH]; intros s0 deleted Hs0 Hn; [done|]. cbn [delete_loop].
      unfold bind at 1. pose proof (tried_evict c t s0 Hs0) as H1'. rewrite Hn in H1'.
      destruct (tried (evict b c t) s0) as [[[e|[]]|e|p] s1]; [|by destruct H1'|done|by destruct H1'].
      destruct e; try (by destruct H1'). destruct H1' as (_ & Hs1 & Hsm). rewrite <- Hsm. apply IH; [done|].
      by rewrite Hsm. }
    specialize (Hloop [Ram; Simulation; Disk; GpuVram] s false Hs Est). destruct (delete_loop _ _ _ s) as [r s'].
    destruct Hloop as [-> Hsm]. split_and!; done.
Qed.

Lemma list_metas_ids cs s : exists l s', list_metas cs s = (Ok l, s') /\ l.*1 = cs.
Proof.
  revert s. induction cs as [|c cs IH]; intros s; [by exists [], s|]. cbn [list_metas]. unfold bind at 1, clock, now.
  unfold bind at 1. destruct (IH (mkServer (set_shared (sv_orch s) (set_ticks (or_shared (sv_orch s))
    (S (sh_ticks (or_shared (sv_orch s)))))) (sv_log s))) as (l & s' & -> & <-). by eexists _, _.
Qed.

(** A stored chunk can be found.  When a store request is answered with an
    identifier, it is the hash of the data, the chunk was not tracked as stored
    before, and from then on it is listed, whatever the tier filter, and has
    information; listing and asking change no chunk state. *)
Theorem store_then_found data tier filter s c s' :
  swf (or_shared (sv_orch s)) -> handle_store data tier s = (Ok (RChunkId c), s') ->
  c = from_data data /\ get_state (sh_sm (or_shared (sv_orch s))) c <> Some Stored /\
  get_state (sh_sm (or_shared (sv_orch s'))) c = Some Stored /\
  (exists l s1, handle_list filter s' = (Ok (RList l), s1) /\ c ∈ l.*1) /\
  (exists m s1, handle_info c s' = (Ok (RInfo m), s1) /\ meta_id m = c).
Proof.
  intros Hs E. unfold handle_store, bind, tried in E.
  set (cid := from_data data) in E. set (t := default Ram tier) in E.
  pose proof (prepare_effect b (CStore cid t data) _ Hs) as Hp. unfold wp in Hp. cbn [prepare] in Hp. unfold store in E.
  unfold bind in E, Hp. destruct (store_prepare b cid t data _) as [[j|e|p] sh1]; try discriminate.
  unfold ret in Hp. cbn [fst snd] in Hp. destruct Hp as (Hq & _ & _ & _ & _ & Hv). cbn [fst snd call_chunk] in *.
  pose proof (submit_job_effect b j sh1 Hq) as Hsub. unfold wp in Hsub.
  destruct (submit_job b j sh1) as [[u|e|p] sh2]; try discriminate. injection E as <- <-.
  destruct Hsub as (Hsm & Hpo & _). cbn [fst snd] in *.
  destruct (verdict _ _) as [next|] eqn:Ev; [|destruct Hv as [_ Hv], (oversight _ _), b; naive_solver].
  destruct Hv as (_ & _ & _ & _ & Hsm1 & Hp1).
  assert (next = Stored /\ get_state (sh_sm (or_shared (sv_orch s))) cid <> Some Stored) as [-> Hne].
  { destruct (get_state _ cid) as [[]|]; cbn in Ev; naive_solver. }
  assert (get_state (sh_sm sh2) cid = Some Stored) as Hst.
  { rewrite Hsm, Hsm1. apply lookup_insert_eq. }
  assert (sh_poisoned sh2 = false) as Hlock by congruence.
  split; [done|]. split; [done|]. split; [done|]. split.
  - unfold handle_list, bind at 1, look. cbn. rewrite Hlock.
    destruct (list_metas_ids (chunks_in_state (sh_sm sh2) Stored) (mkServer (set_shared (sv_orch s) sh2) (sv_log s)))
      as (l & s1 & El & Hl). unfold bind. rewrite El. eexists _, _. split; [done|]. rewrite Hl.
    unfold chunks_in_state. apply elem_of_btree_select. by exists Stored.
  - unfold handle_info, bind at 1, look. cbn [sv_orch or_shared set_shared]. rewrite Hlock, Hst. by eexists _, _.
Qed.

(** *** The server's trace log *)

Definition ipc_event (e : Tr.TraceEvent) : Prop :=
  match e with
  | Tr.IpcRequestReceived _ _ | Tr.IpcResponseSent _ _ _ | Tr.IpcConnectionAccepted _
  | Tr.IpcConnectionClosed _ => True
  | _ => False
  end.

Definition ipc_only (s : Server P) : Prop := Forall ipc_event (log_events (sv_log s)).

Lemma tried_log {A} (m : OM A) : preserves ipc_only (tried m).
Proof. intros s Hs. unfold tried. by destruct (m _) as [[]]. Qed.
Lemma look_log {A} (f : StateMachine -> A) : preserves ipc_only (look f).
Proof. intros s Hs. unfold look. by destruct (sh_poisoned _). Qed.
Lemma clock_log : preserves ipc_only clock.
Proof. by intros s Hs. Qed.

Lemma server_trace_log e : (forall t, ipc_event (e t)) -> preserves ipc_only (server_trace e).
Proof.
  intros He s Hs. unfold server_trace, bind, clock, now. cbn. unfold record.
  destruct (max_events (sv_log s) <=? _); [destruct (log_events (sv_log s)) as [|x l] eqn:E|]; cbn; [done| |];
    unfold ipc_only in *; cbn; rewrite ?E in Hs; apply Forall_app; (split; [|by constructor]); [by inversion Hs|done].
Qed.

Lemma dispatch_log uptime now_s q : preserves ipc_only (dispatch_request uptime now_s q).
Proof.
  assert (forall c tiers del, preserves ipc_only (delete_loop c tiers del)) as Hd.
  { intros c tiers. induction tiers as [|t tiers IH]; intros del; cbn [delete_loop]; [apply preserves_ret|].
    apply preserves_bind; [apply tried_log|]. intros [[]|]; first [apply IH|apply preserves_ret]. }
  assert (forall cs, preserves ipc_only (list_metas cs)) as Hl.
  { intros cs. induction cs as [|c cs IH]; cbn [list_metas]; [apply preserves_ret|].
    apply preserves_bind; [apply clock_log|]. intros t. apply preserves_bind; [done|]. intros l. apply preserves_ret. }
  destruct q; cbn [dispatch_request]; unfold handle_store, handle_retrieve, handle_delete, handle_migrate,
    handle_info, handle_list, handle_status, handle_diagnostics;
    repeat first [apply Hd | apply Hl | apply tried_log | apply look_log | apply clock_log | apply preserves_ret
      | apply preserves_gets | by intros s Hs | apply preserves_bind; [|intros ?] | case_match].
  intros s Hs. unfold handle_pressure_check. by destruct (run_pressure_check _ _) as [[]].
Qed.

Lemma answer_log max_size t d : preserves ipc_only (answer max_size t d).
Proof.
  unfold answer. cbv zeta. case_match; [apply preserves_ret|]. case_match; [|apply preserves_ret|by intros s Hs].
  apply preserves_bind; [by apply server_trace_log|]. intros _. apply preserves_bind; [apply dispatch_log|].
  intros r. apply preserves_bind; [by apply server_trace_log|]. intros _. apply preserves_ret.
Qed.

Lemma answer_all_log max_size l : preserves ipc_only (answer_all max_size l).
Proof.
  induction l as [|[t d] l IH]; cbn [answer_all]; [apply preserves_ret|].
  apply preserves_bind; [apply answer_log|]. intros r. apply preserves_bind; [done|]. intros rs. apply preserves_ret.
Qed.
End server.

(** ** The daemon's [main]: [ghost-daemon/src/main.rs] *)

Definition default_config : OrchestratorConfig := OrchestratorConfig_default.
Definition build_policy : Pa.PressureAwareConfig := Pa.PressureAwareConfig_default.

(** The RAM and simulation tiers, with what their [cost_model] returns. *)
Definition build_backends (ram sim : PhysicalCost) : gmap TierId PhysicalCost :=
  {[Ram := ram; Simulation := sim]}.

(** [run_daemon] up to the point where clients are served. *)
Definition run_daemon (b : Build) (clock : nat -> Z) (ram sim : PhysicalCost)
    : outcome GhostError (Server Pa.PressureAwareConfig) :=
  let? o := Orchestrator_new b clock default_config (build_backends ram sim) build_policy in
  let? d := Run.start o in
  Ok (mkServer (Run.d_orch d) (Log_new 10000)).

(** Clients never see the daemon's trace.  The server answers trace requests from
    a log of its own: whatever was requested since the start, a trace request
    returns only events of the server itself. *)
Theorem trace_shows_only_ipc `{Blake3, IpcJson} b clock ram sim s0 max_size l rs s count r s' :
  run_daemon b clock ram sim = Ok s0 -> answer_all b max_size l s0 = (Ok rs, s) ->
  handle_trace count s = (Ok r, s') ->
  exists es, r = RTrace es /\ Forall ipc_event es.
Proof.
  intros Hrun Hl Hr. injection Hr as <- <-. eexists. split; [done|].
  assert (ipc_only s0) as Hs0.
  { unfold run_daemon in Hrun. apply obind_ok in Hrun as (o & _ & Hrun). apply obind_ok in Hrun as (d & _ & Hrun).
    injection Hrun as <-. constructor. }
  assert (ipc_only s) as Hs.
  { change s with (Ok (E := GhostError) rs, s).2. rewrite <- Hl. by apply answer_all_log. }
  unfold get_events. destruct count as [n|]; [|done]. apply Forall_take, Forall_reverse, Hs.
Qed.

(** ** Instances *)

Definition code_byte (c : IpcErrorCode) : byte :=
  match c with
  | CodeChunkNotFound => Byte.x00 | CodeTierNotFound => Byte.x01 | CodeInvalidRequest => Byte.x02
  | CodeQueueFull => Byte.x03 | CodeInternalError => Byte.x04 | CodeTimeout => Byte.x05
  | CodeShuttingDown => Byte.x06
  end.
Definition byte_code (x : byte) : IpcErrorCode :=
  match x with
  | Byte.x00 => CodeChunkNotFound | Byte.x01 => CodeTierNotFound | Byte.x02 => CodeInvalidRequest
  | Byte.x03 => CodeQueueFull | Byte.x04 => CodeInternalError | Byte.x05 => CodeTimeout
  | _ => CodeShuttingDown
  end.

Lemma pair_fst {A B} (p : A * B) x : p.1 = x -> p = (x, p.2).
Proof. by destruct p as [a c]; intros <-. Qed.

(** A codec for pings, retrievals, acknowledgements and errors. *)
Definition ex_json : IpcJson.
Proof.
  refine {|
    request_to_vec := fun q => match q with
      | QPing => Ok [Byte.x01] | QRetrieve c => Ok (Byte.x02 :: chunk_bytes c)
      | _ => Err "unsupported"%string end;
    request_from_slice := fun d => match d with
      | [Byte.x01] => Ok QPing | Byte.x02 :: l => Ok (QRetrieve (mkChunkId l))
      | _ => Err "malformed"%string end;
    response_to_vec := fun r => match r with
      | RPong => Ok [Byte.x01] | ROk None => Ok [Byte.x02]
      | RError code m => Ok (Byte.x03 :: code_byte code :: String.list_byte_of_string m)
      | _ => Err "unsupported"%string end;
    response_from_slice := fun _ d => match d with
      | [Byte.x01] => Ok RPong | [Byte.x02] => Ok (ROk None)
      | Byte.x03 :: c :: m => Ok (RError (byte_code c) (String.string_of_list_byte m))
      | _ => Err "malformed"%string end;
    snapshot_to_string := fun _ => Ok "{}"%string;
  |}.
  - intros [] d; try done; intros [= <-]; [by destruct chunk_id|done].
  - intros r d now _. destruct r; try done; [destruct data; [done|]| |]; intros [= <-]; try done.
    rewrite String.string_of_list_byte_of_string. by destruct code.
  - intros q r d now sn. split_and!; try done; repeat case_match; done.
Defined.

#[local] Existing Instance ex_json.
#[local] Existing Instance ex_blake3.

Definition ex_server : Server Lru.LruConfig := mkServer Run.ex_orch (Log_new 10).
Definition ex_turn : Turn := mkTurn false false 7 1000.

Definition ex_payloads : list (Turn * list byte) := [(ex_turn, [Byte.x01]); (ex_turn, [Byte.xff])].

Lemma ex_served_swf : swf (or_shared (sv_orch ex_server)).
Proof.
  split; [|done]. split; [|vm_compute; reflexivity..]. exists (mkTwo [] [] false).
  split; try done; by vm_compute.
Qed.

Lemma connection_answers_witness :
  exists s', (handle_connection Debug 100 [ex_turn; ex_turn; ex_turn]
    (mkConn ex_server (mkReader (frame [Byte.x01] ++ frame [Byte.xff]) None) (mkWriter [] None))) =
  (Ok tt, mkConn s' (mkReader [] None) (mkWriter (frame [Byte.x01] ++
    frame (Byte.x03 :: Byte.x02 :: String.list_byte_of_string "failed to parse request: malformed")) None)).
Proof.
  pose proof (connection_answers Debug 100 ex_payloads [ex_turn] ex_server [] ltac:(repeat constructor; vm_compute; discriminate)) as H.
  destruct (converse Debug 100 ex_payloads ex_server) as [[[o s'] js] unread]. exists s'.
  destruct H as (Hh & _ & Hall).
  destruct (Hall [RPong; parse_error "malformed"] (answer_all Debug 100 ex_payloads ex_server).2) as (-> & _ & -> & Hjs).
  - repeat constructor.
  - apply pair_fst. vm_compute. reflexivity.
  - repeat constructor.
  - inversion Hjs as [|? ? ? ? H1 Hjs1]; subst. inversion Hjs1 as [|? ? ? ? H2 Hjs2]; subst. inversion Hjs2; subst.
    injection H1 as <-. injection H2 as <-. exact Hh.
Defined.

(** A ping that is answered in time, and one that is late: the retrieval after it
    gets the pong. *)
Lemma remote_call_witness :
  (exists s', send_request (server_acts Debug 100 ex_turn) false 5 QPing (idle_link ex_server) =
    (Ok RPong, idle_link s')) /\
  exists c, send_request (server_acts Debug 100 ex_turn) true 5 QPing (idle_link ex_server) = (Err ETimeout, c) /\
    (send_request (server_acts Debug 100 ex_turn) false 5 (QRetrieve Run.c1) c).1 = Ok RPong.
Proof.
  assert (answer Debug 100 ex_turn [Byte.x01] ex_server =
    (Ok RPong, (answer Debug 100 ex_turn [Byte.x01] ex_server).2)) as Ha by (apply pair_fst; vm_compute; reflexivity).
  pose proof (remote_call Debug 100 ex_turn false 5 QPing [Byte.x01] ex_server eq_refl eq_refl ltac:(vm_compute; discriminate)) as H1.
  pose proof (remote_call Debug 100 ex_turn true 5 QPing [Byte.x01] ex_server eq_refl eq_refl ltac:(vm_compute; discriminate)) as H2.
  unfold reply in H1, H2. rewrite Ha in H1, H2. cbn [response_to_vec ex_json] in H1, H2. split.
  - destruct (send_request _ false 5 QPing _) as [o c]. destruct H1 as [_ H1].
    destruct (H1 ltac:(vm_compute; discriminate)) as (-> & _ & Ho). eexists. by rewrite (Ho RPong eq_refl eq_refl).
  - destruct (send_request _ true 5 QPing _) as [o c]. destruct H2 as [_ H2].
    destruct (H2 ltac:(vm_compute; discriminate)) as (-> & _ & Hn). exists c. split; [reflexivity|].
    rewrite (Hn ex_turn (QRetrieve Run.c1) (Byte.x02 :: chunk_bytes Run.c1) 5 eq_refl eq_refl ltac:(vm_compute; discriminate)).
    reflexivity.
Defined.

Lemma retrieve_never_delivers_witness :
  is_ok (client_retrieve (server_acts Debug 100 ex_turn) false 5 Run.c1 (idle_link ex_server)).1 = false.
Proof.
  apply (retrieve_never_delivers Debug 100 ex_turn false 5 Run.c1 ex_server (Byte.x02 :: chunk_bytes Run.c1)).
  - reflexivity.
  - vm_compute. discriminate.
  - intros j Hj. assert (answer Debug 100 ex_turn (Byte.x02 :: chunk_bytes Run.c1) ex_server =
      (Ok (not_found Run.c1), (answer Debug 100 ex_turn (Byte.x02 :: chunk_bytes Run.c1) ex_server).2)) as Hc.
    { apply pair_fst. vm_compute. reflexivity. }
    unfold reply in Hj. rewrite Hc in Hj. cbn [snd] in Hj. injection Hj as <-. vm_compute. discriminate.
Defined.

Lemma delete_never_succeeds_witness :
  (handle_delete Debug Run.c1 ex_server).1 = Ok (not_found Run.c1).
Proof.
  pose proof (delete_never_succeeds Debug Run.c1 ex_server ex_served_swf) as H.
  destruct (handle_delete Debug Run.c1 ex_server) as [r s']. destruct H as [_ H].
  assert (get_state (sh_sm (or_shared (sv_orch ex_server))) Run.c1 = None) as E by (vm_compute; reflexivity).
  rewrite E in H. apply H.
Defined.

Lemma store_then_found_witness :
  exists s', handle_store Debug [Byte.x07] None ex_server = (Ok (RChunkId (from_data [Byte.x07])), s') /\
  get_state (sh_sm (or_shared (sv_orch s'))) (from_data [Byte.x07]) = Some Stored.
Proof.
  exists (handle_store Debug [Byte.x07] None ex_server).2.
  assert (handle_store Debug [Byte.x07] None ex_server = (Ok (RChunkId (from_data [Byte.x07])),
    (handle_store Debug [Byte.x07] None ex_server).2)) as E.
  { apply pair_fst. vm_compute. reflexivity. }
  split; [exact E|]. apply (store_then_found Debug [Byte.x07] None None ex_server _ _ ex_served_swf E).
Defined.
