(* ===== verification/LinuxSim.v ===== *)
(** * Simulated kernel statistics: the [Simulated*Reader]s of
    [ghost-linux/src/meminfo.rs], [vmstat.rs], [swaps.rs], [zram.rs], [psi.rs]

    Each reader replays a file when one is given ([Some text], the text of an
    existing simulation file) and otherwise draws its values from a seeded
    generator.  The generator is a dependency: [RangeRng] is its interface. *)

From Stdlib Require Import ZArith Lia SpecFloat Ascii Sorting.Sorted.
From stdpp Require Import base gmap strings pretty list.
From S2P Require Import Prelude Floats CoreTypes Pressure Events LinuxSources.

Open Scope rust_scope.

(** [range lo hi] draws from [lo..hi]; a float draw and a biased coin have no
    law that is relied on. *)
Class RangeRng := {
  rr_state : Type;
  rr_seed : Z -> rr_state;
  rr_range : Z -> Z -> rr_state -> Z * rr_state;
  rr_float : float -> float -> rr_state -> float * rr_state;
  rr_bool : float -> rr_state -> bool * rr_state;
  rr_range_spec : forall lo hi g, lo < hi -> lo <= (rr_range lo hi g).1 < hi;
}.

(** A generator that always draws the lower bound. *)
Definition ex_range_rng : RangeRng.
Proof.
  refine {| rr_state := unit; rr_seed _ := tt; rr_range lo _ g := (lo, g); rr_float lo _ g := (lo, g); rr_bool _ g := (false, g) |}.
  intros lo hi g Hlt. cbn. lia.
Defined.

Section simulated.
Context `{RangeRng}.

(** [gen_range(lo..hi)]: an empty range panics. *)
Definition draw (lo hi : Z) (g : rr_state) : outcome GhostError (Z * rr_state) :=
  if lo <? hi then Ok (rr_range lo hi g) else Panic "cannot sample empty range".

Lemma draw_ok lo hi g : lo < hi -> exists v g', draw lo hi g = Ok (v, g') /\ lo <= v < hi.
Proof.
  intros Hlt. unfold draw. destruct (Z.ltb_spec lo hi); [|lia]. pose proof (rr_range_spec lo hi g Hlt) as Hr.
  destruct (rr_range lo hi g) as [v g']. eauto.
Qed.

(** ** meminfo *)

Definition sim_meminfo_snapshot (seed now : Z) : outcome GhostError MeminfoSnapshot :=
  let? a := draw 4000000 32000000 (rr_seed seed) in let '(total, g) := a in
  let? a := draw 0 total g in let '(free, g) := a in
  let? a := draw free total g in let '(available, g) := a in
  let? a := draw 0 (total / 10) g in let '(buffers, g) := a in
  let? a := draw 0 (total / 5) g in let '(cached, g) := a in
  let? a := draw 0 16000000 g in let '(swap_total, g) := a in
  let? a := draw 0 (swap_total + 1) g in let '(swap_free, g) := a in
  let? a := draw 0 total g in let '(active, g) := a in
  let? a := draw 0 total g in let '(inactive, g) := a in
  let? a := draw 0 1000000 g in let '(dirty, g) := a in
  let? a := draw 0 500000 g in let '(writeback, _) := a in
  Ok (mkMem total available free buffers cached swap_total swap_free active inactive dirty writeback now).

(** The events of a replayed file are not emitted. *)
Definition sim_meminfo_read (seed now : Z) (file : option Text) : outcome GhostError (MeminfoSnapshot * list Ev.Event) :=
  match file with
  | Some text => let? content := text in Ok (meminfo_parse now content, [])
  | None => let? s := sim_meminfo_snapshot seed now in Ok (s, [memory_stats_event s])
  end.

(** ** vmstat *)

Definition sim_vmstat_snapshot (seed now : Z) : outcome GhostError VmstatSnapshot :=
  let? a := draw 0 1000000 (rr_seed (wrap 64 (seed * 31))) in let '(scan_k, g) := a in
  let? a := draw 0 1000000 g in let '(scan_d, g) := a in
  let? a := draw 0 scan_k g in let '(steal_k, g) := a in
  let? a := draw 0 scan_d g in let '(steal_d, g) := a in
  let? a := draw 0 100 g in let '(oom, g) := a in
  let? a := draw 0 10000 g in let '(swpin, g) := a in
  let? a := draw 0 10000 g in let '(swpout, g) := a in
  let? a := draw 0 100000000 g in let '(fault, g) := a in
  let? a := draw 0 fault g in let '(majfault, _) := a in
  Ok (mkVm scan_k scan_d steal_k steal_d oom swpin swpout fault majfault now).

Definition sim_vmstat_read (seed now : Z) (file : option Text) : outcome GhostError (VmstatSnapshot * list Ev.Event) :=
  match file with
  | Some text => let? content := text in Ok (vmstat_parse now content, [])
  | None => let? s := sim_vmstat_snapshot seed now in Ok (s, [vmstat_event s])
  end.

(** ** swaps *)

Definition sim_swap_device (i : nat) (g : rr_state) : outcome GhostError (SwapDevice * rr_state) :=
  let '(is_partition, g) := rr_bool (lit f64 1 2) g in
  let name := (if is_partition : bool then "/dev/swap" else "/swapfile") +:+ pretty (Z.of_nat i) in
  let? a := draw 512000 16000000 g in let '(size, g) := a in
  let? a := draw 0 (size + 1) g in let '(used, g) := a in
  let? a := draw (-32768) 32767 g in let '(priority, g) := a in
  Ok (mkSwapDev name (if is_partition then SwapPartition else SwapFile) priority size used, g).

(** [for i in i..i+n] with a device drawn in each turn. *)
Fixpoint sim_devices {D} (dev : nat -> rr_state -> outcome GhostError (D * rr_state)) (i n : nat) (g : rr_state)
    : outcome GhostError (list D) :=
  match n with
  | O => Ok []
  | S n => let? a := dev i g in let '(d, g) := a in let? ds := sim_devices dev (S i) n g in Ok (d :: ds)
  end.

Definition by_priority (x y : SwapDevice) : comparison := - swap_priority x ?= - swap_priority y.

Definition sim_swap_topology (b : Build) (seed now : Z) : outcome GhostError SwapTopology :=
  let? a := draw 1 5 (rr_seed seed) in let '(count, g) := a in
  let? drawn := sim_devices sim_swap_device 0 (Z.to_nat count) g in
  let devices := sort_by by_priority drawn in
  let? total := sum64 b (swap_size_kb <$> devices) 0 in
  let? used := sum64 b (swap_used_kb <$> devices) 0 in
  Ok (mkTopo devices total used now).

Definition sim_swaps_read (b : Build) (seed now : Z) (file : option Text) : outcome GhostError (SwapTopology * list Ev.Event) :=
  match file with
  | Some text => let? content := text in let? t := swaps_parse b now content in Ok (t, [])
  | None => let? t := sim_swap_topology b seed now in Ok (t, swap_events t)
  end.

(** ** psi *)

Definition resource_seed (r : PsiResource) : Z := match r with PsiMemory => 0 | PsiIo => 1 | PsiCpu => 2 end.
Definition resource_prefix (r : PsiResource) : string := match r with PsiMemory => "memory:" | PsiIo => "io:" | PsiCpu => "cpu:" end.

Fixpoint strip_prefix (p s : string) : option string :=
  match p, s with
  | EmptyString, _ => Some s
  | String a p, String c s => if bool_decide (a = c) then strip_prefix p s else None
  | _, EmptyString => None
  end.

(** The first line of the file that carries the resource's prefix. *)
Definition psi_line_of (r : PsiResource) (content : string) : option string :=
  head (omap (strip_prefix (resource_prefix r)) (Str.lines content)).

Definition sim_psi_sample (b : Build) (seed now : Z) (r : PsiResource) : outcome GhostError PsiSample :=
  let? s := arith b 64 (seed * 31) in
  let? s := arith b 64 (s + resource_seed r) in
  let '(a10, g) := rr_float (of_int f64 0) (of_int f64 20) (rr_seed s) in
  let '(a60, g) := rr_float (of_int f64 0) (of_int f64 15) g in
  let '(a300, g) := rr_float (of_int f64 0) (of_int f64 10) g in
  let? a := draw 0 1000000 g in
  Ok (mkPsi r a10 a60 a300 a.1 now).

(** A file without a line for the resource falls back on the generator. *)
Definition sim_psi_read (b : Build) (seed now : Z) (file : option Text) (r : PsiResource)
    : outcome GhostError (PsiSample * option Ev.Event) :=
  let generated := (let? s := sim_psi_sample b seed now r in Ok (s, pressure_event s)) in
  match file with
  | Some text =>
      let? content := text in
      match psi_line_of r content with
      | Some rest => let? s := psi_parse_line now (Str.trim rest) r in Ok (s, None)
      | None => generated
      end
  | None => generated
  end.

Definition sim_psi_read_all (b : Build) (seed now : Z) (file : option Text) : list (outcome GhostError (PsiSample * option Ev.Event)) :=
  sim_psi_read b seed now file <$> [PsiMemory; PsiIo; PsiCpu].

(** ** zram *)

Definition algorithms : list string := ["lzo"; "zstd"; "lz4"; "deflate"].

Definition sim_zram_device (i : nat) (g : rr_state) : outcome GhostError (ZramDevice * rr_state) :=
  let? a := draw 256000 8388608 g in let '(orig, g) := a in
  let '(ratio, g) := rr_float (lit f64 3 2) (of_int f64 4) g in
  let comp := as_u 64 (fdiv f64 (of_int f64 orig) ratio) in
  let? a := draw 0 (orig + 1) g in let '(mem, g) := a in
  let? a := draw 1 9 g in let '(streams, g) := a in
  let? a := draw 0 (Z.of_nat (length algorithms)) g in let '(idx, g) := a in
  match algorithms !! Z.to_nat idx with
  | Some algo => Ok (mkZramDev ("zram" +:+ pretty (Z.of_nat i)) orig comp mem streams algo, g)
  | None => Panic "index out of bounds"
  end.

Definition sim_zram_snapshot (b : Build) (seed now : Z) : outcome GhostError ZramSnapshot :=
  let? a := draw 1 4 (rr_seed seed) in let '(count, g) := a in
  let? devices := sim_devices sim_zram_device 0 (Z.to_nat count) g in
  build_snapshot b now devices.
End simulated.

(** The fields read so far of the device being parsed. *)
Definition zram_field (d : ZramDevice) (line : string) : ZramDevice :=
  match Str.split_once ":" (Str.trim line) with
  | None => d
  | Some (k, v) =>
      let key := Str.trim k in
      let value := Str.trim v in
      let n64 := default 0 (Str.parse_u 64 value) in
      if bool_decide (key = "orig_size") then mkZramDev (zram_name d) n64 (comp_size_kb d) (mem_used_total_kb d) (max_comp_streams d) (comp_algorithm d)
      else if bool_decide (key = "comp_size") then mkZramDev (zram_name d) (orig_size_kb d) n64 (mem_used_total_kb d) (max_comp_streams d) (comp_algorithm d)
      else if bool_decide (key = "mem_used_total") then mkZramDev (zram_name d) (orig_size_kb d) (comp_size_kb d) n64 (max_comp_streams d) (comp_algorithm d)
      else if bool_decide (key = "max_comp_streams") then
        mkZramDev (zram_name d) (orig_size_kb d) (comp_size_kb d) (mem_used_total_kb d) (default 0 (Str.parse_u 32 value)) (comp_algorithm d)
      else if bool_decide (key = "comp_algorithm") then
        mkZramDev (zram_name d) (orig_size_kb d) (comp_size_kb d) (mem_used_total_kb d) (max_comp_streams d) value
      else d
  end.

Definition is_blank (s : string) : bool := match Str.trim s with EmptyString => true | _ => false end.
Definition is_field_line (s : string) : bool := negb (is_blank s) && Str.starts_with " " s.

(** The two nested loops over the lines: [cur] is the device whose fields the
    inner loop is reading. *)
Fixpoint zram_blocks (ls : list string) (cur : option ZramDevice) : list ZramDevice :=
  match ls with
  | [] => match cur with Some d => [d] | None => [] end
  | l :: ls =>
      let start := if is_blank l then zram_blocks ls None
                   else zram_blocks ls (Some (mkZramDev (Str.trim l) 0 0 0 0 EmptyString)) in
      match cur with
      | Some d => if is_field_line l then zram_blocks ls (Some (zram_field d l)) else d :: start
      | None => start
      end
  end.

Definition sim_zram_parse (b : Build) (now : Z) (content : string) : outcome GhostError ZramSnapshot :=
  build_snapshot b now (zram_blocks (Str.lines content) None).

Definition sim_zram_read `{RangeRng} (b : Build) (seed now : Z) (file : option Text) : outcome GhostError (ZramSnapshot * list Ev.Event) :=
  match file with
  | Some text => let? content := text in let? s := sim_zram_parse b now content in Ok (s, [])
  | None => let? s := sim_zram_snapshot b seed now in Ok (s, zram_events s)
  end.

(** ** Properties *)

Section properties.
Context `{RangeRng}.

Ltac draws := repeat match goal with
  | |- context [draw ?lo ?hi ?g] =>
      let v := fresh "v" in let g' := fresh "g" in let E := fresh "E" in
      destruct (draw_ok lo hi g ltac:(first [lia | (apply Z.div_str_pos; lia)])) as (v & g' & E & ?); rewrite E; cbn [obind]; clear E
  end.

(** The simulated memory statistics are always produced, and are consistent. *)
Theorem sim_meminfo_ok seed now : exists s, sim_meminfo_read seed now None = Ok (s, [memory_stats_event s]) /\
  mem_timestamp s = now /\ 4000000 <= mem_total_kb s < 32000000 /\
  0 <= mem_free_kb s <= mem_available_kb s /\ mem_available_kb s < mem_total_kb s /\
  0 <= swap_free_kb s <= swap_total_kb s /\ 0 <= mem_buffers_kb s < mem_total_kb s / 10 /\ 0 <= mem_cached_kb s < mem_total_kb s / 5.
Proof.
  unfold sim_meminfo_read, sim_meminfo_snapshot.
  destruct (draw_ok 4000000 32000000 (rr_seed seed)) as (total & g1 & E1 & Ht); [lia|]. rewrite E1. cbn [obind].
  assert (0 < total / 10 /\ 0 < total / 5) as [H10 H5] by (split; apply Z.div_str_pos; lia).
  draws. eexists. split; [reflexivity|]. cbn. lia.
Qed.

(** A draw of no scanned pages makes the next range empty. *)
Lemma sim_vmstat_empty_range seed now :
  (rr_range 0 1000000 (rr_seed (wrap 64 (seed * 31)))).1 = 0 -> exists m, sim_vmstat_read seed now None = Panic m.
Proof.
  intros H0. unfold sim_vmstat_read, sim_vmstat_snapshot, draw at 1. cbn [Z.ltb Z.compare obind].
  destruct (rr_range 0 1000000 _) as [v g]. cbn [fst] in H0. subst v. cbn [obind].
  destruct (draw_ok 0 1000000 g) as (v & g1 & -> & _); [lia|]. cbn [obind]. unfold draw at 1. cbn. eauto.
Qed.

Lemma sim_swap_devices_ok n : forall i g, exists ds, sim_devices sim_swap_device i n g = Ok ds /\ length ds = n /\
  Forall (fun d => 0 <= swap_used_kb d <= swap_size_kb d /\ swap_size_kb d < 16000000) ds.
Proof.
  induction n as [|n IH]; intros i g; cbn [sim_devices]; [by exists []|]. unfold sim_swap_device at 1.
  destruct (rr_bool _ g) as [p g0]. draws.
  destruct (IH (S i) g3) as (ds & -> & Hl & Hf). cbn [obind]. eexists. split_and!; [reflexivity|by cbn; rewrite Hl|].
  constructor; [cbn; lia|done].
Qed.

Lemma sum64_bound {E} b m l : forall acc, 0 <= acc -> 0 <= m -> Forall (fun x => 0 <= x <= m) l -> acc + m * Z.of_nat (length l) < 2 ^ 64 ->
  exists v, sum64 (E := E) b l acc = Ok v.
Proof.
  induction l as [|x l IH]; intros acc Ha Hm Hl Hb; cbn [sum64]; [eauto|]. apply Forall_cons in Hl as [Hx Hl]. cbn [length] in Hb.
  rewrite arith_in by (unfold in_u; nia). cbn [obind]. apply IH; try done; nia.
Qed.

(** The simulated swap devices are listed by falling priority, and in no build
    do their sizes overflow. *)
Theorem sim_swaps_ok b seed now : exists t, sim_swaps_read b seed now None = Ok (t, swap_events t) /\
  (1 <= length (swap_devices t) <= 4)%nat /\
  StronglySorted (fun x y => swap_priority y <= swap_priority x) (swap_devices t).
Proof.
  unfold sim_swaps_read, sim_swap_topology. destruct (draw_ok 1 5 (rr_seed seed)) as (n & g & -> & Hn); [lia|]. cbn [obind].
  destruct (sim_swap_devices_ok (Z.to_nat n) 0 g) as (ds & -> & Hl & Hf). cbn [obind].
  pose proof (sort_by_permutation by_priority ds) as Hp. rewrite <- Hp in Hf. apply Permutation_length in Hp.
  set (l := sort_by by_priority ds) in *.
  destruct (sum64_bound (E := GhostError) b 16000000 (swap_size_kb <$> l) 0) as [x ->]; [lia..| | |].
  { apply Forall_fmap. eapply Forall_impl; [exact Hf|]. cbn. lia. }
  { rewrite length_fmap. lia. }
  cbn [obind]. destruct (sum64_bound (E := GhostError) b 16000000 (swap_used_kb <$> l) 0) as [y ->]; [lia..| | |].
  { apply Forall_fmap. eapply Forall_impl; [exact Hf|]. cbn. lia. }
  { rewrite length_fmap. lia. }
  cbn [obind]. eexists. split_and!; [reflexivity|cbn [swap_devices]; lia..|]. cbn [swap_devices].
  assert (StronglySorted (fun x y => by_priority x y <> Gt) l) as Hs.
  { apply (sort_by_sorted _ (fun _ => True)); [intros; apply Z.compare_antisym|intros ??? _ _ _; exact (Z.le_trans _ _ _)|by apply Forall_forall]. }
  clear -Hs. induction Hs as [|x l Hs IH Hx]; constructor; [done|]. eapply Forall_impl; [exact Hx|]. intros z Hz. unfold by_priority in Hz.
  change (- swap_priority x <= - swap_priority z) in Hz. lia.
Qed.
End properties.

(** ** The text format of simulated ZRAM devices *)

Definition zram_lines (d : ZramDevice) : list string :=
  [zram_name d; "  orig_size: " +:+ pretty (orig_size_kb d); "  comp_size: " +:+ pretty (comp_size_kb d);
   "  mem_used_total: " +:+ pretty (mem_used_total_kb d); "  max_comp_streams: " +:+ pretty (max_comp_streams d);
   "  comp_algorithm: " +:+ comp_algorithm d].

Definition a_word (s : string) : Prop := s <> EmptyString /\ all word_char s = true.
Record zram_device_ok (d : ZramDevice) : Prop := {
  zd_name : a_word (zram_name d);
  zd_algorithm : a_word (comp_algorithm d);
  zd_sizes : in_u 64 (orig_size_kb d) /\ in_u 64 (comp_size_kb d) /\ in_u 64 (mem_used_total_kb d) /\ in_u 32 (max_comp_streams d);
}.

Lemma trim_end_word s t : a_word t -> Str.trim_end (s +:+ t) = s +:+ t.
Proof.
  intros [Hne Ht]. assert (Str.trim_end t = t) as Htt.
  { clear Hne. induction t as [|a t IH]; [done|]. cbn [all] in Ht. apply andb_true_iff in Ht as [Ha Ht]. cbn [Str.trim_end].
    rewrite IH by done. apply negb_true_iff in Ha. destruct t; [by rewrite Ha|done]. }
  induction s as [|a s IH]; [done|]. rewrite append_cons. cbn [Str.trim_end]. rewrite IH.
  destruct (s +:+ t) as [|c u] eqn:E; [|done]. destruct s; [|done]. cbn in E. by subst.
Qed.

Lemma trim_space_word t : a_word t -> Str.trim (String " " t) = t.
Proof.
  intros Ht. pose proof Ht as [_ Hw]. pose proof (trim_word t Hw) as H. unfold Str.trim in *. exact H.
Qed.

(** A field line: two spaces, a key that ends in a colon, a space, a word. *)
Lemma field_line key t : all key_char key = true -> a_word key -> a_word t ->
  is_field_line (String " " (String " " (key +:+ String ":" (String " " t)))) = true /\
  Str.split_once ":" (Str.trim (String " " (String " " (key +:+ String ":" (String " " t))))) = Some (key, String " " t).
Proof.
  intros Hk [Hne Hkw] Ht. assert (Str.trim (String " " (String " " (key +:+ String ":" (String " " t)))) = key +:+ String ":" (String " " t)) as Htr.
  { unfold Str.trim. assert (Str.trim_start (String " " (String " " (key +:+ String ":" (String " " t)))) = key +:+ String ":" (String " " t)) as ->.
    { destruct key as [|a key]; [done|]. cbn [all] in Hkw. apply andb_true_iff in Hkw as [Ha _]. rewrite append_cons. cbn.
      apply negb_true_iff in Ha. by rewrite Ha. }
    replace (key +:+ String ":" (String " " t)) with ((key +:+ ": ") +:+ t) by (rewrite append_assoc; done). by apply trim_end_word. }
  unfold is_field_line, is_blank. rewrite Htr. split; [by destruct key|].
  apply split_once_at. eapply all_impl; [|exact Hk]. intros a [_ Ha]%andb_true_iff. done.
Qed.

Lemma pretty_a_word z : 0 <= z -> a_word (pretty z).
Proof. intros Hz. split; [by apply pretty_nonempty|by apply pretty_word]. Qed.

Lemma name_line s rest cur : a_word s -> zram_blocks (s :: rest) cur =
  (match cur with Some d => [d] | None => [] end) ++ zram_blocks rest (Some (mkZramDev s 0 0 0 0 EmptyString)).
Proof.
  intros [Hne Hs]. cbn [zram_blocks]. unfold is_field_line, is_blank. rewrite trim_word by done.
  destruct s as [|a s]; [done|]. destruct cur; [|done].
  cbn [all] in Hs. apply andb_true_iff in Hs as [Ha _]. cbn [Str.starts_with negb andb].
  rewrite bool_decide_eq_false_2 by (intros <-; done). done.
Qed.

(** What a field sets, given its key and its value. *)
Definition set_field (d : ZramDevice) (key value : string) : ZramDevice :=
  zram_field d (String " " (String " " (key +:+ String ":" (String " " value)))).

Lemma field_step key t rest d : all key_char key = true -> a_word key -> a_word t ->
  zram_blocks (String " " (String " " (key +:+ String ":" (String " " t))) :: rest) (Some d) = zram_blocks rest (Some (set_field d key t)).
Proof. intros Hk Hw Ht. cbn [zram_blocks]. by rewrite (proj1 (field_line key t Hk Hw Ht)). Qed.

Section fields.
Context (d : ZramDevice).
Implicit Types z : Z.

Lemma set_orig z : in_u 64 z -> set_field d "orig_size" (pretty z) =
  mkZramDev (zram_name d) z (comp_size_kb d) (mem_used_total_kb d) (max_comp_streams d) (comp_algorithm d).
Proof.
  intros Hz. unfold set_field, zram_field. destruct (field_line "orig_size" (pretty z)) as [_ ->]; [done|done|apply pretty_a_word, Hz|].
  rewrite (trim_space_word (pretty z)) by apply pretty_a_word, Hz. by rewrite parse_u_pretty.
Qed.
Lemma set_comp z : in_u 64 z -> set_field d "comp_size" (pretty z) =
  mkZramDev (zram_name d) (orig_size_kb d) z (mem_used_total_kb d) (max_comp_streams d) (comp_algorithm d).
Proof.
  intros Hz. unfold set_field, zram_field. destruct (field_line "comp_size" (pretty z)) as [_ ->]; [done|done|apply pretty_a_word, Hz|].
  rewrite (trim_space_word (pretty z)) by apply pretty_a_word, Hz. by rewrite parse_u_pretty.
Qed.
Lemma set_mem z : in_u 64 z -> set_field d "mem_used_total" (pretty z) =
  mkZramDev (zram_name d) (orig_size_kb d) (comp_size_kb d) z (max_comp_streams d) (comp_algorithm d).
Proof.
  intros Hz. unfold set_field, zram_field. destruct (field_line "mem_used_total" (pretty z)) as [_ ->]; [done|done|apply pretty_a_word, Hz|].
  rewrite (trim_space_word (pretty z)) by apply pretty_a_word, Hz. by rewrite parse_u_pretty.
Qed.
Lemma set_streams z : in_u 32 z -> set_field d "max_comp_streams" (pretty z) =
  mkZramDev (zram_name d) (orig_size_kb d) (comp_size_kb d) (mem_used_total_kb d) z (comp_algorithm d).
Proof.
  intros Hz. unfold set_field, zram_field. destruct (field_line "max_comp_streams" (pretty z)) as [_ ->]; [done|done|apply pretty_a_word, Hz|].
  rewrite (trim_space_word (pretty z)) by apply pretty_a_word, Hz. rewrite (parse_u_pretty 32) by done. done.
Qed.
Lemma set_algorithm a : a_word a -> set_field d "comp_algorithm" a =
  mkZramDev (zram_name d) (orig_size_kb d) (comp_size_kb d) (mem_used_total_kb d) (max_comp_streams d) a.
Proof.
  intros Ha. unfold set_field, zram_field. destruct (field_line "comp_algorithm" a) as [_ ->]; [done|done|done|].
  by rewrite (trim_space_word a).
Qed.
End fields.

Lemma zram_blocks_roundtrip ds : forall cur, Forall zram_device_ok ds ->
  zram_blocks (mjoin (zram_lines <$> ds)) cur = (match cur with Some d => [d] | None => [] end) ++ ds.
Proof.
  induction ds as [|d ds IH]; intros cur Hd; [by destruct cur|]. apply Forall_cons in Hd as [[Hn Ha (Ho & Hc & Hm & Hs)] Hd].
  cbn [fmap list_fmap]. cbn [mjoin list_join]. unfold zram_lines at 1. cbn [app]. rewrite name_line by done. f_equal.
  assert (forall z w, in_u w z -> a_word (pretty z)) as Hp by (intros z w [Hz _]; by apply pretty_a_word).
  change ("  orig_size: " +:+ ?t) with (String " " (String " " ("orig_size" +:+ String ":" (String " " t)))).
  change ("  comp_size: " +:+ ?t) with (String " " (String " " ("comp_size" +:+ String ":" (String " " t)))).
  change ("  mem_used_total: " +:+ ?t) with (String " " (String " " ("mem_used_total" +:+ String ":" (String " " t)))).
  change ("  max_comp_streams: " +:+ ?t) with (String " " (String " " ("max_comp_streams" +:+ String ":" (String " " t)))).
  change ("  comp_algorithm: " +:+ ?t) with (String " " (String " " ("comp_algorithm" +:+ String ":" (String " " t)))).
  rewrite !field_step by (done || eauto). rewrite set_orig, set_comp, set_mem, set_streams, set_algorithm by done. cbn.
  rewrite IH by done. by destruct d.
Qed.

Lemma zram_lines_clean d : zram_device_ok d -> Forall (fun r => clean r = true) (zram_lines d).
Proof.
  intros [[_ Hn] [_ Ha] (Ho & Hc & Hm & Hs)].
  assert (forall z w, in_u w z -> clean (pretty z) = true) as Hp by (intros z w [Hz _]; by apply clean_word, pretty_word).
  repeat constructor; rewrite ?clean_app; try (apply andb_true_iff; split; [done|]); eauto using clean_word.
Qed.

(** Simulated ZRAM devices written in the documented block format, one
    name line and five indented fields each, are read back exactly. *)
Theorem zram_text_roundtrip b now ds : Forall zram_device_ok ds ->
  sim_zram_parse b now (file_of (mjoin (zram_lines <$> ds))) = build_snapshot b now ds.
Proof.
  intros Hd. unfold sim_zram_parse. rewrite lines_file; [by rewrite zram_blocks_roundtrip|].
  induction Hd as [|d ds Hd0 _ IH]; [constructor|]. cbn [fmap list_fmap]. cbn [mjoin list_join]. apply Forall_app. split; [by apply zram_lines_clean|done].
Qed.

Lemma zram_text_roundtrip_witness : exists s,
  sim_zram_parse Debug 3 (file_of (mjoin (zram_lines <$> [mkZramDev "zram0" 4096 1024 2048 2 "zstd"; mkZramDev "zram1" 10 5 7 1 "lz4"]))) = Ok s /\
  total_comp_kb s = 1029.
Proof.
  eexists. rewrite zram_text_roundtrip; [split; reflexivity|]. repeat constructor; done.
Defined.

(** With the generator that draws lower bounds the virtual-memory statistics
    cannot be simulated. *)
Example vmstat_panics : is_panic (sim_vmstat_read (H := ex_range_rng) 1 0 None) = true.
Proof. reflexivity. Qed.
