(* ===== verification/LinuxTiers.v ===== *)
(** * Tier inventory: [ghost-linux/src/tier_inventory.rs]

    The tiers of the machine, discovered and refreshed from the kernel's
    files.  The files are a record of texts, all read at one clock reading;
    the inventory's events are returned in the order of emission. *)

From Stdlib Require Import ZArith Lia SpecFloat Sorting.Sorted.
From stdpp Require Import base gmap strings pretty list.
From S2P Require Import Prelude Floats CoreTypes Pressure Events LinuxSources LinuxSim.

Open Scope rust_scope.

Module Kind.
Inductive TierKind := Dram | Zram | Swap | DiskSwap | GpuVram | Simulated.
#[global] Instance TierKind_eq_dec : EqDecision TierKind.
Proof. solve_decision. Defined.
Definition display (k : TierKind) : string :=
  match k with
  | Dram => "dram" | Zram => "zram" | Swap => "swap" | DiskSwap => "disk_swap" | GpuVram => "gpu_vram" | Simulated => "simulated"
  end.
End Kind.
Import Kind (TierKind).

Record TierInfo := mkTier {
  ti_id : TierId;
  ti_kind : TierKind;
  ti_name : string;
  total_bytes : Z;
  used_bytes : Z;
  available_bytes : Z;
  ti_pressure : PressureState;
  ti_health : BackendHealth;
  last_updated : Z;
  hot_bytes : Z;
  warm_bytes : Z;
  cold_bytes : Z;
  frozen_bytes : Z;
}.

Definition TierInfo_new (id : TierId) (k : TierKind) (name : string) : TierInfo :=
  mkTier id k name 0 0 0 PressureState_new Healthy 0 0 0 0 0.

Definition with_bytes (total used available now : Z) (t : TierInfo) : TierInfo :=
  mkTier (ti_id t) (ti_kind t) (ti_name t) total used available (ti_pressure t) (ti_health t) now
    (hot_bytes t) (warm_bytes t) (cold_bytes t) (frozen_bytes t).
Definition with_memory_pressure (p : float) (now : Z) (t : TierInfo) : TierInfo :=
  let q := ti_pressure t in
  mkTier (ti_id t) (ti_kind t) (ti_name t) (total_bytes t) (used_bytes t) (available_bytes t)
    (mkPressure p (vram_pressure q) (io_pressure q) (queue_depth q) (throughput_bps q)) (ti_health t) now
    (hot_bytes t) (warm_bytes t) (cold_bytes t) (frozen_bytes t).

Definition utilization (t : TierInfo) : float :=
  if total_bytes t =? 0 then of_int f64 0 else fdiv f64 (of_int f64 (used_bytes t)) (of_int f64 (total_bytes t)).

(** The tiers, in the order of their identifiers. *)
Abbreviation Inventory := (gmap TierId TierInfo).

(** What the kernel shows at one moment. *)
Record Kernel := mkKernel {
  k_meminfo : Text;
  k_psi : PsiResource -> Text;
  k_swaps : Text;
  k_zram : list (string * (string -> Text));
}.

(** [if let Ok(x) = o]: an error is dropped, a panic is not. *)
Definition dropping {A} (o : outcome GhostError A) : outcome GhostError (option A) :=
  match o with Ok x => Ok (Some x) | Err _ => Ok None | Panic m => Panic m end.

Definition kb (b : Build) (n : Z) : outcome GhostError Z := arith b 64 (n * 1024).
Definition sat_sub (x y : Z) : Z := Z.max 0 (x - y).

Definition tier_names (m : Inventory) : list string := ti_name <$> btree_values m.

Section inventory.
Variable b : Build.

Definition discover (now : Z) (k : Kernel) (m : Inventory) : outcome GhostError (Inventory * list Ev.Event) :=
  let dram := with_bytes 0 0 0 now (TierInfo_new Ram Kind.Dram "DRAM") in
  let m := <[Ram := dram]> m in
  let sim := with_bytes 0 0 0 now (TierInfo_new Simulation Kind.Simulated "Simulation") in
  let m := <[Simulation := sim]> m in
  let? swaps := dropping (swaps_read b now (k_swaps k)) in
  let? me := (match swaps with
              | Some (topology, evs) =>
                  match swap_devices topology with
                  | [] => Ok (m, evs)
                  | _ =>
                      let? total := kb b (topo_total_kb topology) in
                      let? used := kb b (topo_used_kb topology) in
                      Ok (<[Disk := with_bytes total used (sat_sub total used) now (TierInfo_new Disk Kind.Swap "Swap")]> m, evs)
                  end
              | None => Ok (m, [])
              end) in
  let? zram := dropping (zram_read b now (k_zram k)) in
  let? ze := (match zram with
              | Some (snapshot, evs) =>
                  match zram_devices snapshot with
                  | [] => Ok (me.1, evs)
                  | _ =>
                      let? total := kb b (total_comp_kb snapshot) in
                      let? used := kb b (total_comp_kb snapshot) in
                      Ok (<[GpuVram := with_bytes total used (sat_sub total used) now (TierInfo_new GpuVram Kind.Zram "ZRAM")]> me.1, evs)
                  end
              | None => Ok (me.1, [])
              end) in
  Ok (ze.1, me.2 ++ ze.2 ++ [Ev.TierInventoryChanged 0 (tier_names ze.1)]).

(** [get_mut(&id)], then the new values; a change of the used bytes is noted. *)
Definition update_tier (id : TierId) (f : TierInfo -> outcome GhostError TierInfo) (m : Inventory)
    : outcome GhostError (Inventory * list Ev.Event) :=
  match m !! id with
  | None => Ok (m, [])
  | Some t =>
      let? t' := f t in
      Ok (<[id := t']> m, if used_bytes t =? used_bytes t' then [] else [Ev.TierUtilizationChanged 0 (ti_name t') (used_bytes t') (total_bytes t')])
  end.

Definition set_dram (now : Z) (s : MeminfoSnapshot) (t : TierInfo) : outcome GhostError TierInfo :=
  let? total := kb b (mem_total_kb s) in
  let? available := kb b (mem_available_kb s) in
  Ok (with_bytes total (sat_sub total available) available now t).
Definition psi_fraction (s : PsiSample) : float :=
  cast f32 (fmax (fmin (fdiv f64 (avg10 s) (of_int f64 10)) (of_int f64 1)) (of_int f64 0)).
Definition set_pressure (now : Z) (s : PsiSample) (t : TierInfo) : outcome GhostError TierInfo :=
  Ok (with_memory_pressure (psi_fraction s) now t).
Definition set_swap (now : Z) (s : SwapTopology) (t : TierInfo) : outcome GhostError TierInfo :=
  let? total := kb b (topo_total_kb s) in
  let? used := kb b (topo_used_kb s) in
  Ok (with_bytes total used (sat_sub total used) now t).
Definition set_zram (now : Z) (s : ZramSnapshot) (t : TierInfo) : outcome GhostError TierInfo :=
  let? total := kb b (total_comp_kb s) in
  let? used := kb b (total_comp_kb s) in
  Ok (with_bytes total used (sat_sub total used) now t).

(** A reading, its events, and the update it leads to. *)
Definition refresh_one {A} (id : TierId) (o : outcome GhostError (A * list Ev.Event)) (f : A -> TierInfo -> outcome GhostError TierInfo)
    (m : Inventory) : outcome GhostError (Inventory * (list Ev.Event * list Ev.Event)) :=
  let? r := dropping o in
  match r with
  | None => Ok (m, ([], []))
  | Some (x, evs) => let? mu := update_tier id (f x) m in Ok (mu.1, (evs, mu.2))
  end.

Definition one_event {A E} (o : outcome E (A * Ev.Event)) : outcome E (A * list Ev.Event) :=
  let? x := o in Ok (x.1, [x.2]).
Definition some_event {A E} (o : outcome E (A * option Ev.Event)) : outcome E (A * list Ev.Event) :=
  let? x := o in Ok (x.1, match x.2 with Some e => [e] | None => [] end).

Definition refresh (now : Z) (k : Kernel) (m : Inventory) : outcome GhostError (Inventory * list Ev.Event) :=
  let? r1 := refresh_one Ram (one_event (meminfo_read now (k_meminfo k))) (set_dram now) m in
  let? r2 := refresh_one Ram (some_event (psi_read now (k_psi k PsiMemory) PsiMemory)) (set_pressure now) r1.1 in
  let? r3 := refresh_one Disk (swaps_read b now (k_swaps k)) (set_swap now) r2.1 in
  let? r4 := refresh_one GpuVram (zram_read b now (k_zram k)) (set_zram now) r3.1 in
  Ok (r4.1, r1.2.1 ++ r2.2.1 ++ r3.2.1 ++ r4.2.1 ++ (r1.2.2 ++ r2.2.2 ++ r3.2.2 ++ r4.2.2)).
End inventory.

Definition tier_preference_order (k : TierKind) : Z :=
  match k with Kind.Dram => 0 | Kind.GpuVram => 1 | Kind.Zram => 2 | Kind.Simulated => 3 | Kind.Swap => 4 | Kind.DiskSwap => 5 end.

Definition tiers_by_preference (m : Inventory) : list TierInfo :=
  sort_by (fun x y => tier_preference_order (ti_kind x) ?= tier_preference_order (ti_kind y)) (btree_values m).

Definition tier_count (m : Inventory) : nat := size m.

(** ** Simulated inventory *)

Section simulated.
Context `{RangeRng}.

Definition sim_tier (id : TierId) (k : TierKind) (name : string) (total used now : Z) (p : PressureState) : TierInfo :=
  mkTier id k name total used (total - used) p Healthy now 0 0 0 0.

Definition sim_kind (i : nat) : TierKind :=
  match (i mod 3)%nat with 0%nat => Kind.Zram | 1%nat => Kind.Swap | _ => Kind.Simulated end.
Definition sim_id (k : TierKind) : TierId :=
  match k with Kind.Zram => GpuVram | Kind.Swap => Disk | Kind.Simulated => Simulation | _ => Ram end.

Definition sim_extra (now : Z) (g : rr_state) (i : nat) : TierInfo * rr_state :=
  let k := sim_kind i in
  let '(total, g) := rr_range 1000000000 16000000000 g in
  let '(used, g) := rr_range 0 total g in
  (sim_tier (sim_id k) k (Kind.display k +:+ "_" +:+ pretty (Z.of_nat i)) total used now PressureState_new, g).

Fixpoint sim_extras (now : Z) (g : rr_state) (ns : list nat) : list TierInfo :=
  match ns with [] => [] | i :: ns => let '(t, g) := sim_extra now g i in t :: sim_extras now g ns end.

Definition generate (seed : Z) (count : nat) (now : Z) : list TierInfo * Ev.Event :=
  let g := rr_seed seed in
  let '(total, g) := rr_range 4000000000 32000000000 g in
  let '(used, g) := rr_range 0 total g in
  let p := mkPressure (cast f32 (fmin (fdiv f64 (of_int f64 used) (of_int f64 total)) (of_int f64 1))) f32_zero f32_zero 0 0 in
  let tiers := sim_tier Ram Kind.Dram "DRAM" total used now p :: sim_extras now g (seq 1 (count - 1)) in
  (tiers, Ev.TierInventoryChanged 0 (ti_name <$> tiers)).

Definition sim_ok (t : TierInfo) : Prop :=
  0 <= used_bytes t < total_bytes t /\ used_bytes t + available_bytes t = total_bytes t /\ total_bytes t < 2 ^ 64.

Lemma sim_extras_ok now ns : forall g, Forall sim_ok (sim_extras now g ns).
Proof.
  induction ns as [|i ns IH]; intros g; [constructor|]. cbn [sim_extras]. unfold sim_extra.
  pose proof (rr_range_spec 1000000000 16000000000 g ltac:(lia)) as H1. destruct (rr_range _ _ g) as [total g1]. cbn [fst] in H1.
  pose proof (rr_range_spec 0 total g1 ltac:(lia)) as H2. destruct (rr_range _ _ g1) as [used g2]. cbn [fst] in H2.
  constructor; [|apply IH]. unfold sim_ok, sim_tier. cbn [used_bytes total_bytes available_bytes]. lia.
Qed.

(** A simulated inventory has at least one tier and its byte counts add up. *)
Theorem generate_ok seed count now :
  Forall sim_ok (generate seed count now).1 /\ length (generate seed count now).1 = Nat.max 1 count.
Proof.
  unfold generate. pose proof (rr_range_spec 4000000000 32000000000 (rr_seed seed) ltac:(lia)) as H1.
  destruct (rr_range _ _ (rr_seed seed)) as [total g1]. cbn [fst] in H1.
  pose proof (rr_range_spec 0 total g1 ltac:(lia)) as H2. destruct (rr_range _ _ g1) as [used g2]. cbn [fst] in H2. cbn [fst]. split.
  - constructor; [|apply sim_extras_ok]. unfold sim_ok, sim_tier. cbn [used_bytes total_bytes available_bytes]. lia.
  - cbn [length]. assert (forall ns g, length (sim_extras now g ns) = length ns) as Hl.
    { induction ns as [|i ns IH]; intros g; [done|]. cbn [sim_extras]. destruct (sim_extra now g i). cbn [length]. by rewrite IH. }
    rewrite Hl, length_seq. lia.
Qed.
End simulated.

(** ** The inventory's invariant *)

Definition kind_of (id : TierId) : TierKind :=
  match id with Ram => Kind.Dram | GpuVram => Kind.Zram | Disk => Kind.Swap | Simulation => Kind.Simulated end.

Definition tier_wf (id : TierId) (t : TierInfo) : Prop :=
  ti_id t = id /\ ti_kind t = kind_of id /\
  in_u 64 (total_bytes t) /\ in_u 64 (used_bytes t) /\ in_u 64 (available_bytes t) /\
  match id with
  | Ram => used_bytes t = sat_sub (total_bytes t) (available_bytes t)
  | GpuVram => used_bytes t = total_bytes t /\ available_bytes t = 0
  | _ => available_bytes t = sat_sub (total_bytes t) (used_bytes t)
  end.
Definition inventory_wf (m : Inventory) : Prop := map_Forall tier_wf m.

Lemma kb_in_u b n z : kb b n = Ok z -> in_u 64 z.
Proof.
  unfold kb, arith. destruct (in_ub 64 (n * 1024)) eqn:E; [intros [= <-]; by apply in_ub_spec|].
  destruct b; [done|]. intros [= <-]. by apply wrap_range.
Qed.

Lemma sat_sub_in_u x y : in_u 64 x -> in_u 64 y -> in_u 64 (sat_sub x y).
Proof. unfold in_u, sat_sub. lia. Qed.

Definition same_tiers (m m' : Inventory) : Prop := forall id, is_Some (m' !! id) <-> is_Some (m !! id).

Lemma wf_insert id t m : tier_wf id t -> inventory_wf m -> inventory_wf (<[id := t]> m).
Proof. intros Ht Hm. by apply map_Forall_insert_2. Qed.

Lemma discover_wf b now k m m' evs : inventory_wf m -> discover b now k m = Ok (m', evs) -> inventory_wf m'.
Proof.
  unfold discover. intros Hm H. apply obind_ok in H as (swaps & _ & H). apply obind_ok in H as ([m1 e1] & H1 & H).
  apply obind_ok in H as (zram & _ & H). apply obind_ok in H as ([m2 e2] & H2 & H). injection H as <- _.
  set (m0 := <[Simulation := _]> _) in H1.
  assert (inventory_wf m0) as Hm0.
  { apply wf_insert; [|apply wf_insert; [|done]]; split_and!; done. }
  assert (inventory_wf m1) as Hm1.
  { destruct swaps as [[topo evs1]|]; [|by injection H1 as <- <-]. destruct (swap_devices topo); [by injection H1 as <- <-|].
    apply obind_ok in H1 as (total & Ht & H1). apply obind_ok in H1 as (used & Hu & H1). injection H1 as <- <-.
    apply kb_in_u in Ht, Hu. apply wf_insert; [|done]. split_and!; try done. by apply sat_sub_in_u. }
  destruct zram as [[snap evs1]|]; [|by injection H2 as <- <-]. destruct (zram_devices snap); [by injection H2 as <- <-|].
  apply obind_ok in H2 as (total & Ht & H2). apply obind_ok in H2 as (used & Hu & H2). injection H2 as <- <-.
  rewrite Ht in Hu. injection Hu as <-. apply kb_in_u in Ht. apply wf_insert; [|done]. split_and!; try done.
  - by apply sat_sub_in_u.
  - unfold with_bytes, sat_sub. cbn [available_bytes]. lia.
Qed.

(** One reading of [refresh]: the update keeps the tier well formed. *)
Lemma refresh_one_wf {A} id (o : outcome GhostError (A * list Ev.Event)) f m r :
  (forall x t t', f x t = Ok t' -> tier_wf id t -> tier_wf id t') -> inventory_wf m -> refresh_one id o f m = Ok r ->
  inventory_wf r.1 /\ same_tiers m r.1.
Proof.
  intros Hf Hm H. unfold refresh_one in H. apply obind_ok in H as (x & _ & H). destruct x as [[x evs]|]; [|by injection H as <-].
  apply obind_ok in H as ([m1 us] & H1 & H). injection H as <-. unfold update_tier in H1. cbn [fst].
  destruct (m !! id) as [t|] eqn:E; [|by injection H1 as <- <-]. apply obind_ok in H1 as (t' & Ht & H1). injection H1 as <- _. split.
  - apply wf_insert; [|done]. eapply Hf; [exact Ht|]. by apply Hm.
  - intros i. cbn [fst]. destruct (decide (i = id)) as [->|Hne]; [rewrite lookup_insert_eq, E|rewrite lookup_insert_ne by done]; done.
Qed.

Lemma set_dram_wf b now s t t' : set_dram b now s t = Ok t' -> tier_wf Ram t -> tier_wf Ram t'.
Proof.
  unfold set_dram. intros H (? & ? & _). apply obind_ok in H as (total & Ht & H). apply obind_ok in H as (av & Ha & H).
  injection H as <-. apply kb_in_u in Ht, Ha. split_and!; try done. by apply sat_sub_in_u.
Qed.
Lemma set_swap_wf b now s t t' : set_swap b now s t = Ok t' -> tier_wf Disk t -> tier_wf Disk t'.
Proof.
  unfold set_swap. intros H (? & ? & _). apply obind_ok in H as (total & Ht & H). apply obind_ok in H as (av & Ha & H).
  injection H as <-. apply kb_in_u in Ht, Ha. split_and!; try done. by apply sat_sub_in_u.
Qed.
Lemma set_zram_wf b now s t t' : set_zram b now s t = Ok t' -> tier_wf GpuVram t -> tier_wf GpuVram t'.
Proof.
  unfold set_zram. intros H (? & ? & _). apply obind_ok in H as (total & Ht & H). apply obind_ok in H as (u & Ha & H).
  rewrite Ht in Ha. injection Ha as <-. injection H as <-. apply kb_in_u in Ht. split_and!; try done; [by apply sat_sub_in_u|].
  unfold with_bytes, sat_sub. cbn [available_bytes]. lia.
Qed.

Lemma refresh_wf b now k m m' evs : inventory_wf m -> refresh b now k m = Ok (m', evs) -> inventory_wf m' /\ same_tiers m m'.
Proof.
  unfold refresh. intros Hm H. apply obind_ok in H as (r1 & H1 & H). apply obind_ok in H as (r2 & H2 & H).
  apply obind_ok in H as (r3 & H3 & H). apply obind_ok in H as (r4 & H4 & H). injection H as <- _.
  apply refresh_one_wf in H1 as [W1 D1]; [|apply set_dram_wf|done].
  apply refresh_one_wf in H2 as [W2 D2]; [|intros x t t' [= <-] Hw; exact Hw|done].
  apply refresh_one_wf in H3 as [W3 D3]; [|apply set_swap_wf|done].
  apply refresh_one_wf in H4 as [W4 D4]; [|apply set_zram_wf|done].
  split; [done|]. intros i. by rewrite (D4 i), (D3 i), (D2 i), (D1 i).
Qed.

(** ** Histories of an inventory *)

Inductive Op := ODiscover (now : Z) (k : Kernel) | ORefresh (now : Z) (k : Kernel).
Definition run_op (b : Build) (o : Op) (m : Inventory) : outcome GhostError (Inventory * list Ev.Event) :=
  match o with ODiscover now k => discover b now k m | ORefresh now k => refresh b now k m end.
Fixpoint run_ops (b : Build) (ops : list Op) (m : Inventory) : outcome GhostError Inventory :=
  match ops with [] => Ok m | o :: ops => let? r := run_op b o m in run_ops b ops r.1 end.

Lemma run_ops_wf b ops : forall m m', inventory_wf m -> run_ops b ops m = Ok m' -> inventory_wf m'.
Proof.
  induction ops as [|o ops IH]; intros m m' Hm H; [by injection H as <-|]. cbn [run_ops] in H.
  apply obind_ok in H as ([m1 evs] & H1 & H). eapply IH; [|exact H].
  destruct o; cbn [run_op] in H1; [by eapply discover_wf|by eapply refresh_wf].
Qed.

(** Reading a file fails with an error or gives its text. *)
Definition calm {E A} (o : outcome E A) : Prop := match o with Panic _ => False | _ => True end.
Definition kernel_calm (k : Kernel) : Prop := calm (k_meminfo k) /\ calm (k_psi k PsiMemory) /\ calm (k_swaps k).
Definition op_calm (o : Op) : Prop := match o with ODiscover _ k | ORefresh _ k => kernel_calm k end.

Lemma calm_bind {E A B} (o : outcome E A) (f : A -> outcome E B) : calm o -> (forall x, calm (f x)) -> calm (let? x := o in f x).
Proof. destruct o; cbn; auto. Qed.

Lemma dropping_calm {A} (o : outcome GhostError A) : calm o -> exists r, dropping o = Ok r.
Proof. destruct o; cbn; eauto; done. Qed.

Lemma arith_release {E} w z : exists v, arith (E := E) Release w z = Ok v.
Proof. unfold arith. destruct (in_ub w z); eauto. Qed.

Lemma sum64_release {E} l : forall acc, exists v, sum64 (E := E) Release l acc = Ok v.
Proof.
  induction l as [|x l IH]; intros acc; cbn [sum64]; [eauto|]. destruct (arith_release (E := E) 64 (acc + x)) as [v ->]. apply IH.
Qed.

Lemma swaps_calm now f : calm f -> calm (swaps_read Release now f).
Proof.
  intros Hf. apply calm_bind; [done|]. intros c. unfold swaps_parse. set (ds := match Str.lines c with [] => _ | _ => _ end).
  destruct (sum64_release (E := GhostError) (swap_size_kb <$> ds) 0) as [x ->]. cbn [obind].
  destruct (sum64_release (E := GhostError) (swap_used_kb <$> ds) 0) as [y ->]. done.
Qed.

Lemma zram_calm now e : calm (zram_read Release now e).
Proof.
  unfold zram_read. destruct (discover_devices e) as [|d ds]; [done|]. unfold build_snapshot.
  destruct (sum64_release (E := GhostError) (orig_size_kb <$> d :: ds) 0) as [x ->]. cbn [obind].
  destruct (sum64_release (E := GhostError) (comp_size_kb <$> d :: ds) 0) as [y ->]. done.
Qed.

Lemma psi_calm now f r : calm f -> calm (psi_read now f r).
Proof.
  intros Hf. apply calm_bind; [done|]. intros c. apply calm_bind; [|done]. unfold psi_parse_line.
  assert (forall ts g, calm (psi_tokens g ts)) as Hts.
  { induction ts as [|t ts IH]; intros g; [done|]. cbn [psi_tokens]. apply calm_bind; [|done]. unfold psi_token.
    destruct (Str.split_once _ t) as [[k v]|]; [|done].
    repeat case_bool_decide; try done; destruct (Str.parse_f64 v), (Str.parse_u 64 v); done. }
  apply calm_bind; [done|]. intros [[] [] [] []]; done.
Qed.

Lemma refresh_one_release {A} id (o : outcome GhostError (A * list Ev.Event)) f m :
  calm o -> (forall x t, exists t', f x t = Ok t') -> exists r, refresh_one id o f m = Ok r.
Proof.
  intros Ho Hf. unfold refresh_one. destruct (dropping_calm o Ho) as [[[x evs]|] ->]; cbn [obind]; [|eauto].
  unfold update_tier. destruct (m !! id) as [t|]; cbn [obind]; [|eauto]. destruct (Hf x t) as [t' ->]. cbn [obind]. eauto.
Qed.

Lemma run_op_release o m : op_calm o -> exists r, run_op Release o m = Ok r.
Proof.
  assert (forall n, exists v, kb Release n = Ok v) as Hkb by (intros; apply arith_release).
  destruct o as [now k|now k]; intros (Hm & Hp & Hs); cbn [run_op].
  - unfold discover. destruct (dropping_calm _ (swaps_calm now _ Hs)) as [sw ->]. cbn [obind].
    set (m0 := <[Simulation := _]> _). match goal with |- context [obind ?o _] => assert (exists me, o = Ok me) as [me ->] end.
    { destruct sw as [[topo e]|]; [|eauto]. destruct (swap_devices topo); [eauto|].
      destruct (Hkb (topo_total_kb topo)) as [? ->], (Hkb (topo_used_kb topo)) as [? ->]. cbn [obind]. eauto. }
    cbn [obind]. destruct (dropping_calm _ (zram_calm now (k_zram k))) as [zr ->]. cbn [obind].
    match goal with |- context [obind ?o _] => assert (exists ze, o = Ok ze) as [ze ->] end; [|cbn [obind]; eauto].
    destruct zr as [[snap e]|]; [|eauto]. destruct (zram_devices snap); [eauto|].
    destruct (Hkb (total_comp_kb snap)) as [? ->]. cbn [obind]. eauto.
  - unfold refresh.
    destruct (refresh_one_release Ram (one_event (meminfo_read now (k_meminfo k))) (set_dram Release now) m) as [r1 ->].
    { do 2 (apply calm_bind; [|done]). done. }
    { intros x t. unfold set_dram. destruct (Hkb (mem_total_kb x)) as [? ->], (Hkb (mem_available_kb x)) as [? ->]. cbn [obind]. eauto. }
    cbn [obind]. destruct (refresh_one_release Ram (some_event (psi_read now (k_psi k PsiMemory) PsiMemory)) (set_pressure now) r1.1) as [r2 ->].
    { apply calm_bind; [by apply psi_calm|done]. }
    { intros x t. eexists. done. }
    cbn [obind]. destruct (refresh_one_release Disk (swaps_read Release now (k_swaps k)) (set_swap Release now) r2.1) as [r3 ->].
    { by apply swaps_calm. }
    { intros x t. unfold set_swap. destruct (Hkb (topo_total_kb x)) as [? ->], (Hkb (topo_used_kb x)) as [? ->]. cbn [obind]. eauto. }
    cbn [obind]. destruct (refresh_one_release GpuVram (zram_read Release now (k_zram k)) (set_zram Release now) r3.1) as [r4 ->].
    { by apply zram_calm. }
    { intros x t. unfold set_zram. destruct (Hkb (total_comp_kb x)) as [? ->]. cbn [obind]. eauto. }
    cbn [obind]. eauto.
Qed.

Lemma run_ops_release ops : forall m, Forall op_calm ops -> exists m', run_ops Release ops m = Ok m'.
Proof.
  induction ops as [|o ops IH]; intros m Hc; [by eexists|]. apply Forall_cons in Hc as [Ho Hc]. cbn [run_ops].
  destruct (run_op_release o m Ho) as [r ->]. by apply IH.
Qed.

Definition preferred (x y : TierInfo) : Prop := tier_preference_order (ti_kind x) <= tier_preference_order (ti_kind y).

Lemma tiers_by_preference_sorted m : StronglySorted preferred (tiers_by_preference m).
Proof.
  apply (sort_by_sorted _ (fun _ => True)); [intros; apply Z.compare_antisym|intros x y z _ _ _; exact (Z.le_trans _ _ _)|by apply Forall_forall].
Qed.

(** Whatever the kernel's files hold, a release build's discoveries and
    refreshes succeed, and leave an inventory in which every tier is filed under
    its own identifier with the kind of that identifier, its byte counts fit in
    64 bits and agree with each other, and the preference order lists every
    tier once, the most preferred first. *)
Theorem inventory_history ops :
  Forall op_calm ops -> exists m, run_ops Release ops ∅ = Ok m /\ inventory_wf m /\
    StronglySorted preferred (tiers_by_preference m) /\ tiers_by_preference m ≡ₚ btree_values m.
Proof.
  intros Hc. destruct (run_ops_release ops ∅ Hc) as [m Hm]. exists m. split_and!; [done| | |].
  - eapply run_ops_wf; [|exact Hm]. apply map_Forall_empty.
  - apply tiers_by_preference_sorted.
  - apply sort_by_permutation.
Qed.

Definition demo_kernel : Kernel :=
  mkKernel (Ok "MemTotal: 100 kB") (fun _ => Err (EInternal "absent")) (Ok "/dev/sda2 partition 2048 1024 -2")
    [("zram0", fun a => if bool_decide (a = "comp_algorithm") then Ok "lz4" else Ok "4096")].

Lemma inventory_history_witness : exists m, run_ops Release [ODiscover 5 demo_kernel; ORefresh 6 demo_kernel] ∅ = Ok m /\
  inventory_wf m /\ (ti_name <$> tiers_by_preference m) = ["DRAM"; "ZRAM"; "Simulation"; "Swap"].
Proof.
  destruct (inventory_history [ODiscover 5 demo_kernel; ORefresh 6 demo_kernel]) as (m & Hm & Hw & _).
  { repeat constructor. }
  exists m. split_and!; [exact Hm|exact Hw|]. revert Hm. vm_compute. by intros [= <-].
Defined.

(** A refresh changes no set of tiers: a swap or ZRAM device that appears
    after discovery is not added until the next discovery. *)
Theorem refresh_keeps_tiers b now k m m' evs :
  inventory_wf m -> refresh b now k m = Ok (m', evs) -> same_tiers m m'.
Proof. intros Hm H. by apply (refresh_wf b now k m m' evs). Qed.

(** ** The ZRAM tier is always full *)

Lemma div_eucl_pair a n : Z.div_eucl a n = (a / n, a mod n).
Proof. unfold Z.div, Z.modulo. by destruct (Z.div_eucl a n). Qed.

Lemma fdiv_self s m e : fdiv f64 (S754_finite s m e) (S754_finite s m e) = of_int f64 1.
Proof.
  unfold fdiv, SFdiv. cbn [prec emax f64]. rewrite xorb_nilpotent.
  assert (SFdiv_core_binary 53 1024 (Z.pos m) e (Z.pos m) e = (2 ^ 53, -53, loc_Exact)) as ->; [|vm_compute; reflexivity].
  unfold SFdiv_core_binary. rewrite !Z.sub_diag. change (fexp 53 1024 0) with (-53). change (Z.min (-53) 0) with (-53).
  change (0 - -53) with 53. cbv iota zeta. rewrite div_eucl_pair, Z.shiftl_mul_pow2 by lia.
  rewrite Z.mul_comm, Z.div_mul, Z.mod_mul by lia. unfold new_location, new_location_even, new_location_odd. cbn [Z.eqb].
  by destruct (Z.even (Z.pos m)).
Qed.

Lemma full_not_below n thr : fle thr (of_int f32 1) = true ->
  flt (cast f32 (fdiv f64 (of_int f64 n) (of_int f64 n))) thr = false.
Proof.
  intros Hthr. destruct (of_int f64 n) as [s|s| |s m e]; [done..|]. rewrite fdiv_self.
  change (cast f32 (of_int f64 1)) with (of_int f32 1).
  destruct (FloatOrder.fle_not_nan _ _ Hthr) as [Hn _]. by rewrite FloatOrder.flt_fle, Hthr.
Qed.

(** The used bytes of the ZRAM tier are its total: as soon as it holds
    anything it is below no utilization threshold. *)
Lemma zram_counts_full m t thr : inventory_wf m -> m !! GpuVram = Some t -> total_bytes t <> 0 -> fle thr (of_int f32 1) = true ->
  flt (cast f32 (utilization t)) thr = false.
Proof.
  intros Hm Ht Hne Hthr. destruct (Hm _ _ Ht) as (_ & _ & _ & _ & _ & Hu & _). unfold utilization.
  rewrite Hu. destruct (Z.eqb_spec (total_bytes t) 0); [done|]. by apply full_not_below.
Qed.
