(* ===== verification/Recorder.v ===== *)
(** * Recordings: [ghost-linux/src/recorder.rs] and [replayer.rs]

    A recording is a header, length-prefixed serialized events and an end
    marker.  The recorder writes through the faulty writers of [Frame], so that
    an interrupted recording is one whose file is a prefix; the replayer reads
    it back and compares two recordings.  bincode and serde_json are the
    interface [RecordCodec]. *)

From Stdlib Require Import ZArith Lia.
From Stdlib Require Strings.Byte.
From stdpp Require Import base gmap strings pretty list.
From S2P Require Import Prelude Floats CoreTypes Events Frame LinuxSources LinuxTiers.

Open Scope rust_scope.

Definition RECORD_FORMAT_VERSION : Z := 1.
Definition MAGIC_HEADER : list byte := bytes_of_string "GREC".
Definition MAGIC_END : list byte := bytes_of_string "GEND".

Record LinuxSnapshot := mkLinuxSnap {
  ls_timestamp : Z;
  ls_psi : option (list PsiSample);
  ls_meminfo : option MeminfoSnapshot;
  ls_vmstat : option VmstatSnapshot;
  ls_swap : option SwapTopology;
  ls_zram : option ZramSnapshot;
  ls_tier_inventory : option (list TierInfo);
  ls_recommendations : list string;
}.

Class RecordCodec := {
  record_to_bytes : Ev.EventRecord -> outcome string (list byte);
  record_from_bytes : list byte -> outcome string Ev.EventRecord;
  event_to_bytes : Ev.Event -> outcome string (list byte);
  snapshot_json : LinuxSnapshot -> string;
  record_codec_roundtrip r d : record_to_bytes r = Ok d -> record_from_bytes d = Ok r;
  record_codec_no_panic r d e :
    is_panic (record_to_bytes r) = false /\ is_panic (record_from_bytes d) = false /\
    is_panic (event_to_bytes e) = false;
}.

Section recorder.
Context `{RecordCodec}.

Definition to_event_record (s : LinuxSnapshot) (seq : Z) : Ev.EventRecord :=
  Ev.mkRecord seq (ls_timestamp s)
    (Ev.PolicyRecommendationGenerated seq [snapshot_json s] "snapshot").

(** ** The recorder *)

Record LinuxRecorder := mkRecorder { rc_writer : Writer; rc_sequence : Z }.
Local Abbreviation RcM := (M LinuxRecorder GhostError).

(** [write_all] and [flush], with [map_err(GhostError::Io)]. *)
Definition put (m : M Writer string unit) : M Writer GhostError unit := fun w =>
  let '(r, w') := m w in (map_err EIo r, w').

(** [now] is the time of creation; the result is the recorder or an error. *)
Definition Recorder_new (now : Z) (w : Writer) : outcome GhostError LinuxRecorder * Writer :=
  match (put (write_all MAGIC_HEADER) ;;; put (write_all [byte_of_Z RECORD_FORMAT_VERSION]) ;;;
         put (write_all (to_le_bytes 8 now)) ;;; put flush) w with
  | (Ok _, w') => (Ok (mkRecorder w' 1), w')
  | (Err e, w') => (Err e, w')
  | (Panic p, w') => (Panic p, w')
  end.

Definition on_writer {A} (m : M Writer GhostError A) : RcM A := fun r =>
  let '(o, w) := m (rc_writer r) in (o, mkRecorder w (rc_sequence r)).

Definition next_sequence : RcM Z := fun r =>
  (Ok (rc_sequence r), mkRecorder (rc_writer r) (wrap 64 (rc_sequence r + 1))).

Definition write_record (x : Ev.EventRecord) : RcM unit :=
  bytes <- lift (map_err (fun e => EInternal ("failed to serialize event record: " +:+ e)) (record_to_bytes x)) ;;
  on_writer (put (write_all (to_le_bytes 4 (wrap 32 (Z.of_nat (length bytes)))))) ;;;
  on_writer (put (write_all bytes)) ;;;
  on_writer (put flush).

Definition renumber (seq : Z) (x : Ev.EventRecord) : Ev.EventRecord :=
  Ev.mkRecord seq (Ev.rec_timestamp x) (Ev.rec_event x).

Definition record (x : Ev.EventRecord) : RcM unit :=
  seq <- next_sequence ;; write_record (renumber seq x).

Definition record_scan (s : LinuxSnapshot) : RcM unit :=
  seq <- next_sequence ;; write_record (to_event_record s seq).

Definition close : RcM unit :=
  on_writer (put (write_all MAGIC_END)) ;;; on_writer (put flush).

Definition current_sequence (r : LinuxRecorder) : Z := rc_sequence r.

(** ** The replayer *)

Record LinuxReplayer := mkReplayer { rp_reader : Reader; rp_events : list Ev.EventRecord; rp_index : Z }.
Local Abbreviation RpM := (M LinuxReplayer GhostError).

Definition Replayer_new (r : Reader) : LinuxReplayer := mkReplayer r [] 0.

Definition io_error (e : ReadError) : GhostError :=
  match e with UnexpectedEof => EIo "failed to fill whole buffer" | OtherError m => EIo m end.

Definition read_n (err : ReadError -> GhostError) (n : nat) : RpM (list byte) := fun p =>
  let '(o, r) := read_exact n (rp_reader p) in
  (map_err err o, mkReplayer r (rp_events p) (rp_index p)).

(** The length of the next record; [None] at the end of the file. *)
Definition read_length : RpM (option (list byte)) := fun p =>
  match read_exact 4 (rp_reader p) with
  | (Ok d, r) => (Ok (Some d), mkReplayer r (rp_events p) (rp_index p))
  | (Err UnexpectedEof, r) => (Ok None, mkReplayer r (rp_events p) (rp_index p))
  | (Err (OtherError m), r) => (Err (EIo m), mkReplayer r (rp_events p) (rp_index p))
  | (Panic m, r) => (Panic m, mkReplayer r (rp_events p) (rp_index p))
  end.

(** One turn of the loop of [load]; [false] when it breaks. *)
Definition load_one : RpM bool :=
  len_bytes <- read_length ;;
  match len_bytes with
  | None => ret false
  | Some len_bytes =>
      if bool_decide (len_bytes = MAGIC_END) then ret false
      else
        payload <- read_n io_error (Z.to_nat (from_le_bytes len_bytes)) ;;
        n <- gets (fun p => length (rp_events p)) ;;
        x <- lift (map_err (fun e => EInternal ("failed to deserialize event at offset "
               +:+ pretty (Z.of_nat n) +:+ ": " +:+ e)) (record_from_bytes payload)) ;;
        modify (fun p => mkReplayer (rp_reader p) (rp_events p ++ [x]) (rp_index p)) ;;;
        ret true
  end.

(** Each turn reads at least four bytes, so that one more turn than bytes is
    enough. *)
Fixpoint load_loop (fuel : nat) : RpM unit :=
  match fuel with
  | O => panic "out of fuel"
  | S fuel => more <- load_one ;; if more then load_loop fuel else ret tt
  end.

Definition load : RpM unit :=
  header <- read_n (fun e => EInternal "failed to read header magic") 4 ;;
  (if bool_decide (header = MAGIC_HEADER) then ret tt else throw (EInternal "invalid header magic")) ;;;
  version <- read_n io_error 1 ;;
  (if bool_decide (version = [byte_of_Z RECORD_FORMAT_VERSION]) then ret tt
   else throw (EInternal "unsupported format version")) ;;;
  read_n io_error 8 ;;;
  p <- gets id ;;
  load_loop (S (length (incoming (rp_reader p)))).

Definition next (p : LinuxReplayer) : option Ev.EventRecord * LinuxReplayer :=
  match rp_events p !! Z.to_nat (rp_index p) with
  | Some x => (Some x, mkReplayer (rp_reader p) (rp_events p) (wrap 64 (rp_index p + 1)))
  | None => (None, p)
  end.
Definition reset (p : LinuxReplayer) : LinuxReplayer := mkReplayer (rp_reader p) (rp_events p) 0.
Definition event_count (p : LinuxReplayer) : Z := Z.of_nat (length (rp_events p)).

(** ** Comparing two recordings *)

Record ReplayVerificationResult := mkVerification {
  events_match : bool;
  ordering_match : bool;
  recommendation_match : bool;
  divergence_point : option nat;
}.

Definition passed (v : ReplayVerificationResult) : bool :=
  events_match v && ordering_match v && recommendation_match v.

(** [.ok()] *)
Definition ok {E A} (o : outcome E A) : option A := match o with Ok a => Some a | _ => None end.

(** [zip] and [all], [zip] and [position]. *)
Fixpoint zip_all {A} (f : A -> A -> bool) (l1 l2 : list A) : bool :=
  match l1, l2 with x :: l1, y :: l2 => f x y && zip_all f l1 l2 | _, _ => true end.
Fixpoint zip_position {A} (f : A -> A -> bool) (l1 l2 : list A) : option nat :=
  match l1, l2 with
  | x :: l1, y :: l2 => if f x y then Some 0%nat else S <$> zip_position f l1 l2
  | _, _ => None
  end.

Definition is_recommendation (x : Ev.EventRecord) : bool :=
  match Ev.rec_event x with Ev.PolicyRecommendationGenerated _ _ _ => true | _ => false end.

Definition verify_against (p q : LinuxReplayer) : ReplayVerificationResult :=
  let self_bytes := omap (fun x => ok (record_to_bytes x)) (rp_events p) in
  let other_bytes := omap (fun x => ok (record_to_bytes x)) (rp_events q) in
  let em := bool_decide (length self_bytes = length other_bytes) &&
            zip_all (fun a b => bool_decide (a = b)) self_bytes other_bytes in
  let om := bool_decide (length (rp_events p) = length (rp_events q)) &&
            zip_all (fun a b => Ev.rec_sequence_id a =? Ev.rec_sequence_id b) (rp_events p) (rp_events q) in
  let self_recs := filter (fun x => is_recommendation x = true) (rp_events p) in
  let other_recs := filter (fun x => is_recommendation x = true) (rp_events q) in
  let rm := bool_decide (length self_recs = length other_recs) &&
            zip_all (fun a b => bool_decide (ok (event_to_bytes (Ev.rec_event a)) = ok (event_to_bytes (Ev.rec_event b))))
              self_recs other_recs in
  mkVerification em om rm
    (if negb em then zip_position (fun a b => negb (bool_decide (a = b))) self_bytes other_bytes
     else if negb om then
       zip_position (fun a b => negb (Ev.rec_sequence_id a =? Ev.rec_sequence_id b)) (rp_events p) (rp_events q)
     else None).

(** ** A recording session *)

Fixpoint record_all (l : list Ev.EventRecord) : RcM unit :=
  match l with [] => ret tt | x :: l => record x ;;; record_all l end.

Definition make_recording (now : Z) (l : list Ev.EventRecord) (w : Writer)
    : outcome GhostError unit * Writer :=
  match Recorder_new now w with
  | (Ok r, _) => let '(o, r') := (record_all l ;;; close) r in (o, rc_writer r')
  | (Err e, w') => (Err e, w')
  | (Panic p, w') => (Panic p, w')
  end.

(** The events as the recorder numbers them, from [q]. *)
Fixpoint numbered (q : Z) (l : list Ev.EventRecord) : list Ev.EventRecord :=
  match l with [] => [] | x :: l => renumber q x :: numbered (wrap 64 (q + 1)) l end.

(** The bytes of a record and of a recording. *)
Definition record_bytes (d : list byte) : list byte := to_le_bytes 4 (wrap 32 (Z.of_nat (length d))) ++ d.
Definition recording_header (now : Z) : list byte :=
  MAGIC_HEADER ++ [byte_of_Z RECORD_FORMAT_VERSION] ++ to_le_bytes 8 now.

(** A serialized event the format can hold: the length fits, and is not the
    one whose bytes are the end marker. *)
Definition storable (d : list byte) : Prop :=
  Z.of_nat (length d) < 2 ^ 32 /\ to_le_bytes 4 (Z.of_nat (length d)) <> MAGIC_END.

Definition encodes (x : Ev.EventRecord) (d : list byte) : Prop :=
  record_to_bytes x = Ok d /\ storable d.

(** ** Writing *)

(** On [s], [m] appends [d] to the file behind [W], or a prefix of it when it
    fails, which it only does when the writer has a fault. *)
Definition appends {S E} (W : S -> Writer) (d : list byte) (m : M S E unit) (s : S) : Prop :=
  exists n, sent (W (m s).2) = sent (W s) ++ take n d /\ ((m s).1 = Ok tt -> take n d = d) /\
    (fault (W s) = None -> (m s).1 = Ok tt /\ fault (W (m s).2) = None) /\ is_panic (m s).1 = false.

Lemma appends_write d w : appends id d (put (write_all d)) w.
Proof.
  destruct w as [out [[k e]|]]; unfold appends, put, write_all; cbn.
  - destruct (length d <=? k)%nat; cbn; [exists (length d); by rewrite firstn_all|by exists k].
  - exists (length d). by rewrite firstn_all.
Qed.
Lemma appends_flush w : appends id [] (put flush) w.
Proof. destruct w as [out [[[|k] e]|]]; unfold appends, put, flush; cbn; exists 0%nat; by rewrite app_nil_r. Qed.

Lemma appends_on_writer d m r : appends id d m (rc_writer r) -> appends rc_writer d (on_writer m) r.
Proof. unfold appends, on_writer. by destruct (m (rc_writer r)) as [o w]. Qed.

Lemma take_min_length {A} n (d : list A) : take (n `min` length d) d = take n d.
Proof. rewrite <- take_take. by rewrite (take_ge d) by lia. Qed.

Lemma appends_bind {S E} (W : S -> Writer) d1 d2 (m1 m2 : M S E unit) s :
  appends W d1 m1 s -> (forall s', m1 s = (Ok tt, s') -> appends W d2 m2 s') ->
  appends W (d1 ++ d2) (m1 ;;; m2) s.
Proof.
  intros (n1 & E1 & F1 & G1 & P1) H2. unfold appends, bind.
  destruct (m1 s) as [[[]|e|p] s1]; cbn [fst snd] in *; [| |done].
  - destruct (H2 s1 eq_refl) as (n2 & E2 & F2 & G2 & P2). exists (length d1 + n2)%nat.
    rewrite E2, E1, (F1 eq_refl), take_app_add, <- app_assoc. split_and!; [done| | |done].
    + intros Ho. by rewrite F2.
    + intros Hf. apply G2, G1, Hf.
  - exists (n1 `min` length d1)%nat. rewrite E1, take_app_le, take_min_length by lia.
    split_and!; done.
Qed.

Lemma appends_ext {S E} (W : S -> Writer) d (m m' : M S E unit) s s' :
  m s = m' s' -> W s = W s' -> appends W d m' s' -> appends W d m s.
Proof. unfold appends. by intros -> ->. Qed.

Lemma appends_record x r d :
  record_to_bytes (renumber (rc_sequence r) x) = Ok d -> appends rc_writer (record_bytes d) (record x) r.
Proof.
  intros Hd. unfold record_bytes. rewrite <- (app_nil_r d).
  eapply (appends_ext _ _ _ (on_writer (put (write_all _)) ;;; on_writer (put (write_all d)) ;;; on_writer (put flush))
            r (mkRecorder (rc_writer r) (wrap 64 (rc_sequence r + 1)))); [|done|].
  - unfold record, next_sequence, write_record. cbn [bind]. unfold bind at 1 2. by rewrite Hd.
  - rewrite app_nil_r at 1. repeat (apply appends_bind; [|intros ? _]); apply appends_on_writer; auto using appends_write, appends_flush.
Qed.

Lemma record_sequence x r o r' : record x r = (o, r') -> rc_sequence r' = wrap 64 (rc_sequence r + 1).
Proof.
  intros E. change (rc_sequence r') with (rc_sequence (o, r').2). rewrite <- E. clear.
  set (q := wrap 64 (rc_sequence r + 1)).
  assert (forall A (m : M Writer GhostError A) s, rc_sequence s = q -> rc_sequence (on_writer m s).2 = q) as Hw.
  { intros A m s <-. unfold on_writer. by destruct (m (rc_writer s)). }
  change (rc_sequence (write_record (renumber (rc_sequence r) x) (mkRecorder (rc_writer r) q)).2 = q).
  unfold write_record. apply (preserves_bind (fun s => rc_sequence s = q)); [by intros s|intros d|done].
  repeat (apply preserves_bind; [intros s; apply Hw|intros _]). intros s. apply Hw.
Qed.

Lemma appends_record_all l ds r :
  Forall2 encodes (numbered (rc_sequence r) l) ds ->
  appends rc_writer (ds ≫= record_bytes) (record_all l) r.
Proof.
  revert r ds. induction l as [|x l IH]; intros r ds HF; cbn [numbered record_all] in *.
  - apply Forall2_nil_inv_l in HF as ->. exists 0%nat. by rewrite app_nil_r.
  - apply Forall2_cons_inv_l in HF as (d & ds' & [Hd _] & HF & ->). cbn [mbind list_bind].
    apply appends_bind; [by apply appends_record|]. intros r' Er. apply IH.
    by rewrite (record_sequence _ _ _ _ Er).
Qed.

Lemma appends_new now w :
  appends id (recording_header now) (put (write_all MAGIC_HEADER) ;;; put (write_all [byte_of_Z RECORD_FORMAT_VERSION]) ;;;
         put (write_all (to_le_bytes 8 now)) ;;; put flush) w.
Proof.
  unfold recording_header. rewrite <- (app_nil_r (to_le_bytes 8 now)).
  repeat (apply appends_bind; [|intros ? _]); auto using appends_write, appends_flush.
Qed.

(** What a session leaves in the file, whatever the writer does. *)
Lemma make_recording_file now l ds w o w' :
  Forall2 encodes (numbered 1 l) ds -> sent w = [] -> make_recording now l w = (o, w') ->
  exists n, sent w' = take n (recording_header now ++ (ds ≫= record_bytes) ++ MAGIC_END) /\
    (o = Ok tt -> sent w' = recording_header now ++ (ds ≫= record_bytes) ++ MAGIC_END) /\
    (fault w = None -> o = Ok tt) /\ is_panic o = false.
Proof.
  intros HF Hw. unfold make_recording, Recorder_new. pose proof (appends_new now w) as (n & E1 & F1 & G1 & P1).
  destruct (bind _ _ w) as [[[]|e|p] w1]; cbn [fst snd id] in *; [| |done].
  - specialize (F1 eq_refl). rewrite Hw, F1 in E1.
    destruct (appends_bind rc_writer (ds ≫= record_bytes) (MAGIC_END ++ []) (record_all l) close (mkRecorder w1 1))
      as (n2 & E2 & F2 & G2 & P2).
    { by apply appends_record_all. }
    { intros r' _. apply appends_bind; intros; apply appends_on_writer; auto using appends_write, appends_flush. }
    destruct (bind _ _ _) as [o2 r2]; cbn [fst snd rc_writer] in *. intros [= <- <-]. rewrite E2, E1, app_nil_r.
    rewrite app_nil_r in F2.
    exists (length (recording_header now) + n2)%nat. rewrite take_app_add. split_and!; [done| | |done].
    + intros Ho. by rewrite F2.
    + intros Hf. apply G2, G1, Hf.
  - intros [= <- <-]. exists (n `min` length (recording_header now))%nat. rewrite E1, Hw, take_app_le, take_min_length by lia.
    split_and!; [done|done| |done]. intros Hf. apply (proj1 (G1 Hf)).
Qed.

(** ** Reading *)

Lemma read_n_app err n a b e es i :
  length a = n -> read_n err n (mkReplayer (mkReader (a ++ b) e) es i) = (Ok a, mkReplayer (mkReader b e) es i).
Proof. intros Hn. unfold read_n. cbn [rp_reader]. by rewrite read_exact_app. Qed.

Lemma read_length_app a b e es i :
  length a = 4%nat -> read_length (mkReplayer (mkReader (a ++ b) e) es i) = (Ok (Some a), mkReplayer (mkReader b e) es i).
Proof. intros Hn. unfold read_length. cbn [rp_reader]. by rewrite read_exact_app. Qed.

(** A whole record at the head of the file is read. *)
Lemma load_one_record x d rest e es i :
  encodes x d ->
  load_one (mkReplayer (mkReader (record_bytes d ++ rest) e) es i) = (Ok true, mkReplayer (mkReader rest e) (es ++ [x]) i).
Proof.
  intros (Hx & Hl & Hm). unfold load_one, record_bytes. rewrite <- app_assoc.
  rewrite wrap_in by (unfold in_u; lia).
  erewrite bind_Ok by (by apply read_length_app, length_to_le_bytes).
  cbv beta iota. rewrite bool_decide_eq_false_2 by done.
  rewrite from_to_le_bytes_in by (unfold in_u; cbn; lia).
  erewrite bind_Ok by (apply read_n_app; lia).
  unfold bind, gets, lift, modify, ret. cbn [rp_events rp_reader rp_index]. by rewrite (record_codec_roundtrip x d Hx).
Qed.

(** A file that ends inside a record, or inside the end marker, ends the loop
    without another event. *)
Lemma read_exact_short k d n e :
  (n < length d)%nat -> (length d <= k)%nat ->
  exists err, read_exact k (mkReader (take n d) e) = (Err err, mkReader [] e).
Proof.
  intros Hn Hk. unfold read_exact. cbn [incoming ending].
  rewrite (proj2 (Nat.ltb_lt _ _)) by (rewrite length_take; lia). eauto.
Qed.

Lemma load_one_short n a b e es i :
  length a = 4%nat -> (n < 4)%nat ->
  exists o r, load_one (mkReplayer (mkReader (take n (a ++ b)) e) es i) = (o, mkReplayer r es i) /\
    (o = Ok false \/ exists g, o = Err g).
Proof.
  intros Ha Hn. unfold load_one, bind, read_length. cbn [rp_reader rp_events rp_index].
  rewrite take_app_le by lia. destruct (read_exact_short 4 a n e) as [[|m] ->]; [lia..| |];
    (do 2 eexists; split; [reflexivity|]); [by left|right; eauto].
Qed.

Lemma load_one_torn x d rest n e es i :
  encodes x d -> (4 <= n < 4 + length d)%nat ->
  exists o r, load_one (mkReplayer (mkReader (take n (record_bytes d ++ rest)) e) es i) = (o, mkReplayer r es i) /\
    exists g, o = Err g.
Proof.
  intros (Hx & Hl & Hm) Hn. unfold load_one, record_bytes. rewrite <- app_assoc.
  rewrite wrap_in by (unfold in_u; lia).
  rewrite take_app_ge, length_to_le_bytes by (rewrite length_to_le_bytes; lia).
  erewrite bind_Ok by (by apply read_length_app, length_to_le_bytes).
  cbv beta iota. rewrite bool_decide_eq_false_2 by done.
  rewrite from_to_le_bytes_in by (unfold in_u; cbn; lia).
  unfold bind at 1, read_n. cbn [rp_reader rp_events rp_index].
  rewrite take_app_le by lia. destruct (read_exact_short (Z.to_nat (Z.of_nat (length d))) d (n - 4) e) as [err ->]; [lia..|].
  cbn [map_err]. do 2 eexists. split; [reflexivity|]. eauto.
Qed.

Lemma record_bytes_length d : length (record_bytes d) = (4 + length d)%nat.
Proof. unfold record_bytes. by rewrite length_app, length_to_le_bytes. Qed.

(** The loop on a whole list of records, and on what is left of one when the
    file has been cut. *)
Lemma load_loop_records xs ds rest e es i fuel :
  Forall2 encodes xs ds ->
  load_loop (length xs + fuel) (mkReplayer (mkReader ((ds ≫= record_bytes) ++ rest) e) es i) =
    load_loop fuel (mkReplayer (mkReader rest e) (es ++ xs) i).
Proof.
  intros HF. revert es. induction HF as [|x d xs ds Hx _ IH]; intros es; [by rewrite app_nil_r|].
  cbn [length Nat.add load_loop mbind list_bind]. rewrite <- app_assoc.
  erewrite bind_Ok by (by apply load_one_record). cbv iota beta. rewrite IH, <- app_assoc. done.
Qed.

Lemma load_loop_end e es i fuel :
  load_loop (S fuel) (mkReplayer (mkReader MAGIC_END e) es i) = (Ok tt, mkReplayer (mkReader [] e) es i).
Proof. cbn [load_loop]. unfold load_one. rewrite <- (app_nil_r MAGIC_END). done. Qed.

Lemma load_loop_cut xs ds n e es i fuel :
  Forall2 encodes xs ds -> (length (take n ((ds ≫= record_bytes) ++ MAGIC_END)) < fuel)%nat ->
  exists o r k, load_loop fuel (mkReplayer (mkReader (take n ((ds ≫= record_bytes) ++ MAGIC_END)) e) es i) =
    (o, mkReplayer r (es ++ take k xs) i) /\ is_panic o = false.
Proof.
  intros HF. revert n es fuel. induction HF as [|x d xs ds Hx _ IH]; intros n es [|fuel] Hfuel; try lia.
  - destruct (decide (n < 4)%nat) as [Hn|Hn].
    + cbn [load_loop mbind list_bind app]. rewrite <- (app_nil_r MAGIC_END).
      destruct (load_one_short n MAGIC_END [] e es i) as (o & r & E & Ho); [done..|].
      unfold bind. rewrite E. exists (match o with Ok _ => Ok tt | Err g => Err g | Panic p => Panic p end), r, 0%nat.
      rewrite app_nil_r. by destruct Ho as [->|[g ->]].
    + rewrite take_ge by (cbn; lia). rewrite load_loop_end. exists (Ok tt), (mkReader [] e), 0%nat. by rewrite app_nil_r.
  - cbn [load_loop mbind list_bind] in *. rewrite <- app_assoc in Hfuel |- *.
    destruct (decide (4 + length d <= n)%nat) as [Hn|Hn].
    + rewrite take_app_ge in Hfuel |- * by (rewrite record_bytes_length; lia).
      rewrite length_app, record_bytes_length in Hfuel.
      erewrite bind_Ok by (by apply load_one_record). cbv iota beta.
      destruct (IH (n - length (record_bytes d))%nat (es ++ [x]) fuel) as (o & r & k & -> & Ho);
        [rewrite record_bytes_length in *; lia|].
      exists o, r, (S k). rewrite <- app_assoc. done.
    + assert (exists o r, load_one (mkReplayer (mkReader (take n (record_bytes d ++ (ds ≫= record_bytes) ++ MAGIC_END)) e) es i) =
        (o, mkReplayer r es i) /\ (o = Ok false \/ exists g, o = Err g)) as (o & r & E & Ho).
      { destruct (decide (n < 4)%nat).
        - unfold record_bytes at 1. rewrite <- app_assoc. by apply load_one_short; [apply length_to_le_bytes|].
        - destruct (load_one_torn x d ((ds ≫= record_bytes) ++ MAGIC_END) n e es i Hx) as (o & r & E & g & Ho); [lia|]. eauto 6. }
      unfold bind. rewrite E. exists (match o with Ok _ => Ok tt | Err g => Err g | Panic p => Panic p end), r, 0%nat.
      rewrite app_nil_r. by destruct Ho as [->|[g ->]].
Qed.

(** [load] up to the loop. *)
Lemma load_header now rest e es i :
  load (mkReplayer (mkReader (recording_header now ++ rest) e) es i) =
    load_loop (S (length rest)) (mkReplayer (mkReader rest e) es i).
Proof.
  unfold load, recording_header. rewrite <- !app_assoc.
  erewrite bind_Ok by (by apply read_n_app). cbv beta. rewrite bool_decide_eq_true_2 by done.
  erewrite bind_Ok by reflexivity. erewrite bind_Ok by (by apply read_n_app). cbv beta.
  rewrite bool_decide_eq_true_2 by done. erewrite bind_Ok by reflexivity.
  erewrite bind_Ok by (by apply read_n_app, length_to_le_bytes). done.
Qed.

(** A file cut inside the header is an error and gives no event. *)
Lemma load_short_header now n rest e es i :
  (n < length (recording_header now))%nat ->
  exists g r, load (mkReplayer (mkReader (take n (recording_header now ++ rest)) e) es i) = (Err g, mkReplayer r es i).
Proof.
  intros Hn. rewrite take_app_le by lia. unfold load.
  assert (forall err k d m, (m < length d)%nat -> (length d <= k)%nat ->
    exists g r, read_n err k (mkReplayer (mkReader (take m d) e) es i) = (Err g, mkReplayer r es i)) as Hshort.
  { intros err k d m Hm Hk. unfold read_n. cbn [rp_reader rp_events rp_index].
    destruct (read_exact_short k d m e) as [x ->]; [done..|]. cbn [map_err]. eauto. }
  unfold recording_header in *. rewrite !length_app, length_to_le_bytes in Hn. change (length MAGIC_HEADER) with 4%nat in Hn.
  change (length [_]) with 1%nat in Hn.
  destruct (decide (n < 4)%nat).
  { rewrite take_app_le by (cbn; lia). unfold bind.
    edestruct (Hshort (fun _ => EInternal "failed to read header magic") 4%nat MAGIC_HEADER n) as (g & r & ->); [cbn; lia..|]. eauto. }
  rewrite take_app_ge by (cbn; lia). change (length MAGIC_HEADER) with 4%nat.
  erewrite bind_Ok by (by apply read_n_app). cbv beta. rewrite bool_decide_eq_true_2 by done.
  erewrite bind_Ok by reflexivity.
  destruct (decide (n = 4)%nat) as [->|].
  { unfold bind. edestruct (Hshort io_error 1%nat [Byte.x00] 0%nat) as (g & r & Eg); [cbn; lia..|].
    cbn [Nat.sub] in *. rewrite take_0 in *. rewrite Eg. eauto. }
  rewrite take_app_ge by (cbn; lia). erewrite bind_Ok by (by apply read_n_app). cbv beta.
  rewrite bool_decide_eq_true_2 by done. erewrite bind_Ok by reflexivity. unfold bind.
  edestruct (Hshort io_error 8%nat (to_le_bytes 8 now) (n - 4 - length [byte_of_Z RECORD_FORMAT_VERSION])%nat) as (g & r & ->);
    [rewrite length_to_le_bytes; cbn; lia..|]. eauto.
Qed.

(** C22: A recording session and its file.  Whatever fault the writer has, the
    session does not panic, and without a fault it succeeds; a session that
    succeeds leaves a file from which [load] restores exactly the events, in
    order and numbered from 1; and whatever was written before a fault, cut
    again anywhere and read through a reader that may fail, [load] ends without
    a panic, having restored a prefix of the events and nothing else. *)
Theorem recording_restored now l ds w :
  Forall2 encodes (numbered 1 l) ds -> sent w = [] ->
  let '(o, w') := make_recording now l w in
  is_panic o = false /\ (fault w = None -> o = Ok tt) /\
  (o = Ok tt -> forall e, load (Replayer_new (mkReader (sent w') e)) = (Ok tt, mkReplayer (mkReader [] e) (numbered 1 l) 0)) /\
  (forall n e, exists o' r k,
     load (Replayer_new (mkReader (take n (sent w')) e)) = (o', mkReplayer r (take k (numbered 1 l)) 0) /\ is_panic o' = false).
Proof.
  intros HF Hw. destruct (make_recording now l w) as [o w'] eqn:E.
  destruct (make_recording_file now l ds w o w' HF Hw E) as (n & Hs & Hok & Hf & Hp).
  split_and!; [done..| |].
  - intros Ho e. rewrite (Hok Ho). unfold Replayer_new. rewrite load_header.
    assert (exists f, S (length ((ds ≫= record_bytes) ++ MAGIC_END)) = length (numbered 1 l) + S f)%nat as [f ->].
    { rewrite (Forall2_length _ _ _ HF), length_app. change (length MAGIC_END) with 4%nat.
      assert (length ds <= length (ds ≫= record_bytes))%nat.
      { clear. induction ds as [|d ds IH]; cbn [mbind list_bind length]; [lia|]. rewrite length_app, record_bytes_length. lia. }
      exists (length (ds ≫= record_bytes) - length ds + 4)%nat. lia. }
    rewrite load_loop_records by done. by rewrite load_loop_end.
  - intros m e. rewrite Hs, take_take. set (c := (m `min` n)%nat). unfold Replayer_new.
    destruct (decide (c < length (recording_header now))%nat) as [Hc|Hc].
    + destruct (load_short_header now c ((ds ≫= record_bytes) ++ MAGIC_END) e [] 0 Hc) as (g & r & ->).
      exists (Err g), r, 0%nat. done.
    + rewrite take_app_ge, load_header by lia. destruct (load_loop_cut (numbered 1 l) ds (c - length (recording_header now)) e [] 0
        (S (length (take (c - length (recording_header now)) ((ds ≫= record_bytes) ++ MAGIC_END))))) as (o' & r & k & -> & Ho);
        [done|lia|]. by exists o', r, k.
Qed.

(** ** Comparing *)

Lemma zip_all_refl {A} (f : A -> A -> bool) l : (forall x, f x x = true) -> zip_all f l l = true.
Proof. intros Hf. induction l as [|x l IH]; [done|]. cbn [zip_all]. by rewrite Hf, IH. Qed.

Lemma zip_all_eq {A} `{EqDecision A} (l k : list A) :
  bool_decide (length l = length k) && zip_all (fun a b => bool_decide (a = b)) l k = bool_decide (l = k).
Proof.
  revert k. induction l as [|x l IH]; intros [|y k]; [done..|]. cbn [zip_all length].
  specialize (IH k). destruct (decide (x = y)) as [->|Hxy].
  - rewrite (bool_decide_eq_true_2 (y = y)) by done. cbn [andb].
    rewrite (bool_decide_ext (S _ = S _) (length l = length k)), IH by lia.
    apply bool_decide_ext. split; [by intros ->|by intros [=]].
  - rewrite (bool_decide_eq_false_2 (x = y)) by done. rewrite andb_false_r. symmetry. apply bool_decide_eq_false_2. congruence.
Qed.

(** The position found is the first difference; there is none exactly when one
    list is a prefix of the other. *)
Lemma zip_position_some {A} `{EqDecision A} (l k : list A) i :
  zip_position (fun a b => negb (bool_decide (a = b))) l k = Some i ->
  take i l = take i k /\ exists x y, l !! i = Some x /\ k !! i = Some y /\ x <> y.
Proof.
  revert k i. induction l as [|x l IH]; intros [|y k] i; [done..|]. cbn [zip_position].
  destruct (decide (x = y)) as [->|Hxy].
  - rewrite bool_decide_eq_true_2 by done. cbn [negb]. intros (j & Hj & ->)%fmap_Some.
    destruct (IH k j Hj) as [E D]. cbn [take]. by rewrite E.
  - rewrite bool_decide_eq_false_2 by done. intros [= <-]. split; [done|]. by exists x, y.
Qed.

Lemma zip_position_none {A} `{EqDecision A} (l k : list A) :
  zip_position (fun a b => negb (bool_decide (a = b))) l k = None <-> l `prefix_of` k \/ k `prefix_of` l.
Proof.
  revert k. induction l as [|x l IH]; intros [|y k]; cbn [zip_position].
  - split; [by left|done].
  - split; [intros _; left; apply prefix_nil|done].
  - split; [intros _; right; apply prefix_nil|done].
  - destruct (decide (x = y)) as [->|Hxy].
    + rewrite bool_decide_eq_true_2 by done. cbn [negb]. rewrite fmap_None, IH.
      split; (intros [P|P]; [left|right]); try by apply prefix_cons. all: by apply prefix_cons_inv_2 in P.
    + rewrite bool_decide_eq_false_2 by done. cbn [negb]. split; [done|].
      intros [P|P]; apply prefix_cons_inv_1 in P; congruence.
Qed.

Definition serializes (x : Ev.EventRecord) (d : list byte) : Prop := record_to_bytes x = Ok d.

Lemma serializes_inj x y d : serializes x d -> serializes y d -> x = y.
Proof. intros Hx%record_codec_roundtrip Hy%record_codec_roundtrip. congruence. Qed.

Lemma omap_serialized l ds : Forall2 serializes l ds -> omap (fun x => ok (record_to_bytes x)) l = ds.
Proof. induction 1 as [|x d l ds Hx _ IH]; [done|]. cbn. unfold serializes in Hx. by rewrite Hx, IH. Qed.

Lemma serializes_lookup l ds i d : Forall2 serializes l ds -> ds !! i = Some d -> exists x, l !! i = Some x /\ serializes x d.
Proof. intros HF Hi. destruct (Forall2_lookup_r _ _ _ _ _ HF Hi) as (x & Hx & Hs). eauto. Qed.

Lemma serializes_prefix l k ds es :
  Forall2 serializes l ds -> Forall2 serializes k es -> ds `prefix_of` es <-> l `prefix_of` k.
Proof.
  intros HF. revert k es. induction HF as [|x d l ds Hx HF IH]; intros k es HG.
  - split; intros _; apply prefix_nil.
  - destruct HG as [|y e k es Hy HG].
    { split; intros P; by apply prefix_nil_not in P. }
    split; intros P; pose proof (prefix_cons_inv_1 _ _ _ _ P) as ->; apply prefix_cons_inv_2 in P.
    + rewrite (serializes_inj x y e Hx Hy). apply prefix_cons. by apply (IH k es).
    + assert (d = e) as -> by (unfold serializes in *; congruence). apply prefix_cons. by apply (IH k es).
Qed.

Lemma serializes_take l k ds es i :
  Forall2 serializes l ds -> Forall2 serializes k es -> take i ds = take i es -> take i l = take i k.
Proof.
  intros HF HG E. apply (Forall2_take _ _ _ i) in HF. apply (Forall2_take _ _ _ i) in HG. rewrite <- E in HG.
  clear E. revert HF HG. generalize (take i l), (take i k), (take i ds). clear. intros l k ds HF. revert k.
  induction HF as [|x d l ds Hx _ IH]; intros k HG; inversion HG; subst; [done|].
  f_equal; [by eapply serializes_inj|by apply IH].
Qed.

(** C23: Comparing two recordings whose events all serialize.  The comparison
    passes exactly when the events are the same in the same order; a divergence
    point is the first place where they differ; and a comparison that fails
    without one is of two recordings of which one is a strict prefix of the
    other. *)
Theorem verify_against_exact p q ds es :
  Forall2 serializes (rp_events p) ds -> Forall2 serializes (rp_events q) es ->
  let v := verify_against p q in
  (passed v = true <-> rp_events p = rp_events q) /\
  (forall i, divergence_point v = Some i ->
     take i (rp_events p) = take i (rp_events q) /\
     exists x y, rp_events p !! i = Some x /\ rp_events q !! i = Some y /\ x <> y) /\
  (divergence_point v = None -> passed v = false ->
     rp_events p <> rp_events q /\ (rp_events p `prefix_of` rp_events q \/ rp_events q `prefix_of` rp_events p)).
Proof.
  intros HF HG. unfold verify_against. rewrite (omap_serialized _ _ HF), (omap_serialized _ _ HG). cbv zeta.
  rewrite zip_all_eq. destruct (decide (ds = es)) as [->|Hne].
  - assert (rp_events p = rp_events q) as Epq.
    { pose proof (serializes_take _ _ es es (length es) HF HG eq_refl) as E.
      by rewrite !take_ge in E by (rewrite ?(Forall2_length _ _ _ HF), ?(Forall2_length _ _ _ HG); lia). }
    rewrite Epq, (bool_decide_eq_true_2 (es = es)) by done. unfold passed.
    cbn [events_match ordering_match recommendation_match divergence_point negb andb].
    rewrite !(bool_decide_eq_true_2 (length _ = length _)), !zip_all_refl by (intros; rewrite ?Z.eqb_refl, ?bool_decide_eq_true; done).
    done.
  - rewrite (bool_decide_eq_false_2 (ds = es)) by done. unfold passed.
    cbn [events_match ordering_match recommendation_match divergence_point negb andb].
    assert (rp_events p <> rp_events q) as Npq.
    { intros E. apply Hne. rewrite <- (omap_serialized _ _ HF), <- (omap_serialized _ _ HG). by rewrite E. }
    split_and!; [done| |].
    + intros i (E & d & d' & Hd & Hd' & Hn)%zip_position_some. split; [by eapply serializes_take|].
      destruct (serializes_lookup _ _ _ _ HF Hd) as (x & Hx & Sx), (serializes_lookup _ _ _ _ HG Hd') as (y & Hy & Sy).
      exists x, y. split_and!; [done..|]. intros ->. unfold serializes in *. congruence.
    + intros Hpos%zip_position_none _. split; [done|].
      by rewrite <- (serializes_prefix _ _ _ _ HF HG), <- (serializes_prefix _ _ _ _ HG HF).
Qed.

(** ** Replaying *)

Fixpoint replay_next (n : nat) (p : LinuxReplayer) : list (option Ev.EventRecord) :=
  match n with O => [] | S n => let '(x, p') := next p in x :: replay_next n p' end.

Lemma replay_from n p i :
  rp_index p = Z.of_nat i -> (i <= length (rp_events p))%nat -> event_count p < 2 ^ 64 ->
  replay_next n p = take n ((Some <$> drop i (rp_events p)) ++ replicate n None).
Proof.
  unfold event_count. revert p i. induction n as [|n IH]; intros p i Hi Hl Hc; [done|].
  cbn [replay_next]. unfold next. rewrite Hi, Nat2Z.id. destruct (rp_events p !! i) as [x|] eqn:Ex.
  - pose proof (lookup_lt_Some _ _ _ Ex). rewrite (drop_S _ _ _ Ex). cbn [fmap list_fmap app take].
    f_equal. rewrite (IH _ (S i)); cbn [rp_events rp_index]; [|rewrite wrap_in by (unfold in_u; lia); lia|lia|lia].
    rewrite replicate_S_end, app_assoc, (take_app_le (_ ++ _)); [done|]. rewrite length_app, length_replicate. lia.
  - apply lookup_ge_None_1 in Ex. rewrite drop_ge by done. cbn [fmap list_fmap app replicate take]. f_equal.
    rewrite (IH _ i) by done. by rewrite drop_ge by done.
Qed.

(** After [reset], [next] yields the events in order and then nothing, however
    often it is called. *)
Theorem replay_in_order p n :
  event_count p < 2 ^ 64 -> replay_next n (reset p) = take n ((Some <$> rp_events p) ++ replicate n None).
Proof. intros Hc. by rewrite (replay_from n (reset p) 0) by (cbn; done || lia). Qed.
End recorder.

(** ** A concrete codec

    It writes the number and the time of a record of one event, and refuses
    the others. *)

Definition ex_encode (x : Ev.EventRecord) : outcome string (list byte) :=
  match Ev.rec_event x with
  | Ev.PolicyRecommendationGenerated 0 [] EmptyString =>
      if (0 <=? Ev.rec_sequence_id x) && (Ev.rec_sequence_id x <? 2 ^ 64) &&
         (0 <=? Ev.rec_timestamp x) && (Ev.rec_timestamp x <? 2 ^ 64)
      then Ok (to_le_bytes 8 (Ev.rec_sequence_id x) ++ to_le_bytes 8 (Ev.rec_timestamp x))
      else Err "out of range"%string
  | _ => Err "unsupported"%string
  end.
Definition ex_decode (d : list byte) : outcome string Ev.EventRecord :=
  Ok (Ev.mkRecord (from_le_bytes (take 8 d)) (from_le_bytes (drop 8 d)) (Ev.PolicyRecommendationGenerated 0 [] EmptyString)).

Lemma ex_codec_roundtrip x d : ex_encode x = Ok d -> ex_decode d = Ok x.
Proof.
  destruct x as [s t ev]. unfold ex_encode. cbn [Ev.rec_event Ev.rec_sequence_id Ev.rec_timestamp]. destruct ev; try done.
  repeat case_match; try done. intros E. assert (d = to_le_bytes 8 s ++ to_le_bytes 8 t) as -> by congruence. unfold ex_decode.
  rewrite take_app_le, take_ge, drop_app_ge, length_to_le_bytes, drop_0 by (rewrite length_to_le_bytes; lia).
  rewrite !from_to_le_bytes_in by (unfold in_u; lia). done.
Qed.

#[global] Program Instance ex_codec : RecordCodec := {|
  record_to_bytes := ex_encode;
  record_from_bytes := ex_decode;
  event_to_bytes := fun _ => Ok [];
  snapshot_json := fun _ => "{}"%string;
  record_codec_roundtrip := ex_codec_roundtrip;
|}.
Next Obligation. intros x d e. split_and!; [|done..]. unfold ex_encode. by repeat case_match. Qed.

Definition ex_event (t : Z) : Ev.EventRecord := Ev.mkRecord 77 t (Ev.PolicyRecommendationGenerated 0 [] EmptyString).
Definition ex_bytes (q t : Z) : list byte := to_le_bytes 8 q ++ to_le_bytes 8 t.

(** Two events; the disk fills up after forty bytes, inside the second. *)
Lemma recording_restored_witness :
  Forall2 encodes (numbered 1 [ex_event 5; ex_event 6]) [ex_bytes 1 5; ex_bytes 2 6] /\
  (make_recording 9 [ex_event 5; ex_event 6] (mkWriter [] (Some (40%nat, "full"%string)))).1 = Err (EIo "full") /\
  let '(o, w') := make_recording 9 [ex_event 5; ex_event 6] (mkWriter [] None) in
  o = Ok tt /\
  load (Replayer_new (mkReader (sent w') None)) = (Ok tt, mkReplayer (mkReader [] None) (numbered 1 [ex_event 5; ex_event 6]) 0).
Proof.
  assert (Forall2 encodes (numbered 1 [ex_event 5; ex_event 6]) [ex_bytes 1 5; ex_bytes 2 6]) as HF.
  { repeat constructor; vm_compute; try discriminate. }
  split; [exact HF|]. split; [vm_compute; reflexivity|].
  pose proof (recording_restored 9 [ex_event 5; ex_event 6] _ (mkWriter [] None) HF eq_refl) as Hr.
  destruct (make_recording _ _ _) as [o w']. destruct Hr as (_ & Ho & Hl & _). specialize (Ho eq_refl).
  split; [exact Ho|]. by apply Hl.
Defined.

(** The second recording is longer: the comparison fails without a point of
    divergence. *)
Definition ex_replayer (l : list Ev.EventRecord) : LinuxReplayer := mkReplayer (mkReader [] None) l 0.

Lemma verify_against_exact_witness :
  let p := ex_replayer [ex_event 5] in let q := ex_replayer [ex_event 5; ex_event 6] in
  passed (verify_against p q) = false /\ divergence_point (verify_against p q) = None /\ rp_events p `prefix_of` rp_events q.
Proof.
  cbv zeta. set (p := ex_replayer [ex_event 5]). set (q := ex_replayer [ex_event 5; ex_event 6]).
  assert (passed (verify_against p q) = false) as Hp by (vm_compute; reflexivity).
  assert (divergence_point (verify_against p q) = None) as Hd by (vm_compute; reflexivity).
  split; [exact Hp|]. split; [exact Hd|].
  destruct (verify_against_exact p q [ex_bytes 77 5] [ex_bytes 77 5; ex_bytes 77 6]) as (_ & _ & H);
    [repeat constructor..|]. destruct (H Hd Hp) as [_ [P|P]]; [exact P|].
  apply prefix_length in P. cbn in P. lia.
Defined.

Lemma replay_in_order_witness :
  replay_next 3 (reset (ex_replayer [ex_event 5; ex_event 6])) = [Some (ex_event 5); Some (ex_event 6); None].
Proof. apply (replay_in_order (ex_replayer [ex_event 5; ex_event 6]) 3). vm_compute. reflexivity. Defined.
