(* ===== verification/Emitter.v ===== *)
(** * Asynchronous emission: the rest of [ghost-core/src/emitter.rs]

    [emit] is an [async fn]: calling it builds a future, nothing more.  The
    first poll takes a sequence number and builds the record; then the record is
    sent, which waits for room in the channel.  [try_emit] does the same without
    waiting.  All clones of an emitter share the counter and the channel, so an
    emission is one of many futures of a system.  A poll makes one access after
    another, to the counter and to the channel, until it has to wait; each access
    is a step of its own here, so that the accesses of different futures
    interleave and a poll may stop after any of them.

    The channel is tokio's bounded [mpsc] as documented: a semaphore with a
    permit per slot, on which senders wait in a queue.  A permit that comes free
    is handed to the sender that has waited longest; the others cannot take it.
    Where [EventBus] has one sender at a time, its channel is enough
    ([try_emit_alone] below). *)

From Stdlib Require Import ZArith Lia.
From stdpp Require Import base strings list.
From S2P Require Import Prelude CoreTypes Pressure Events EventBus.

Open Scope rust_scope.

(** ** The futures *)

Inductive SendError := SendClosed | SendFull.

(** [wait] is set for the future of [emit] and unset for [try_emit], which is
    a plain call.  [Granted] has been handed a permit and not been polled since;
    [Permitted] holds one and is about to enter its record. *)
Inductive Emission :=
  | NotStarted (wait : bool) (ev : Ev.Event)
  | Stamped (wait : bool) (r : Ev.EventRecord)
  | Waiting (r : Ev.EventRecord)
  | Granted (r : Ev.EventRecord)
  | Permitted (r : Ev.EventRecord)
  | Sent (r : Ev.EventRecord)
  | Failed (e : SendError) (r : Ev.EventRecord)
  | Dropped.

Definition emit (ev : Ev.Event) : Emission := NotStarted true ev.

(** ** The system *)

(** The channel: the records in it, the free permits, whether the receiver is
    there, and the futures that wait, the longest waiting first. *)
Record Mpsc := mkMpsc {
  slots : list Ev.EventRecord;
  permits : nat;
  is_open : bool;
  waiters : list nat;
}.

(** The futures in the order they were made, the shared counter, the channel,
    and what the receiver has taken. *)
Record ESystem := mkES {
  es_futures : list Emission;
  es_counter : Z;
  es_channel : Mpsc;
  es_received : list Ev.EventRecord;
}.

Definition es_start (cap : nat) : ESystem := mkES [] 1 (mkMpsc [] cap true []) [].

Definition set_futures (f : list Emission) (s : ESystem) : ESystem := mkES f (es_counter s) (es_channel s) (es_received s).
Definition set_future (i : nat) (f : Emission) (s : ESystem) : ESystem := set_futures (<[i := f]> (es_futures s)) s.
Definition set_channel (c : Mpsc) (s : ESystem) : ESystem := mkES (es_futures s) (es_counter s) c (es_received s).
Definition set_permits (n : nat) (s : ESystem) : ESystem :=
  let c := es_channel s in set_channel (mkMpsc (slots c) n (is_open c) (waiters c)) s.
Definition set_waiters (w : list nat) (s : ESystem) : ESystem :=
  let c := es_channel s in set_channel (mkMpsc (slots c) (permits c) (is_open c) w) s.
Definition set_slots (l : list Ev.EventRecord) (s : ESystem) : ESystem :=
  let c := es_channel s in set_channel (mkMpsc l (permits c) (is_open c) (waiters c)) s.

(** A permit comes free: it goes to the longest waiting sender, if any. *)
Definition release (s : ESystem) : ESystem :=
  match waiters (es_channel s) with
  | i :: w =>
      match es_futures s !! i with
      | Some (Waiting r) => set_waiters w (set_future i (Granted r) s)
      | _ => set_waiters w s
      end
  | [] => set_permits (S (permits (es_channel s))) s
  end.

(** [make_record]. *)
Definition stamp (i : nat) (wait : bool) (now : Z) (ev : Ev.Event) (s : ESystem) : ESystem :=
  mkES (<[i := Stamped wait (Ev.mkRecord (es_counter s) now ev)]> (es_futures s))
    (wrap 64 (es_counter s + 1)) (es_channel s) (es_received s).

(** Asking for a permit: an error when the receiver is gone; without a free
    permit, [send] queues and [try_send] fails. *)
Definition ask_permit (i : nat) (wait : bool) (r : Ev.EventRecord) (s : ESystem) : ESystem :=
  let c := es_channel s in
  if negb (is_open c) then set_future i (Failed SendClosed r) s
  else match permits c with
  | S n => set_permits n (set_future i (Permitted r) s)
  | O => if wait then set_waiters (waiters c ++ [i]) (set_future i (Waiting r) s)
         else set_future i (Failed SendFull r) s
  end.

(** One access of future [i] to the counter or the channel, as part of a poll. *)
Definition poll (i : nat) (now : Z) (s : ESystem) : ESystem :=
  match es_futures s !! i with
  | Some (NotStarted wait ev) => stamp i wait now ev s
  | Some (Stamped wait r) => ask_permit i wait r s
  | Some (Waiting r) => if is_open (es_channel s) then s else set_future i (Failed SendClosed r) s
  | Some (Granted r) =>
      if is_open (es_channel s) then set_future i (Permitted r) s else release (set_future i (Failed SendClosed r) s)
  | Some (Permitted r) => set_slots (slots (es_channel s) ++ [r]) (set_future i (Sent r) s)
  | _ => s
  end.

(** A future dropped at an await point: it leaves the queue, and gives back a
    permit it was handed. *)
Definition cancel (i : nat) (s : ESystem) : ESystem :=
  match es_futures s !! i with
  | Some (NotStarted true _) | Some (Stamped true _) => set_future i Dropped s
  | Some (Waiting _) => set_waiters (filter (fun j => j <> i) (waiters (es_channel s))) (set_future i Dropped s)
  | Some (Granted _) => release (set_future i Dropped s)
  | _ => s
  end.

Definition receive (s : ESystem) : ESystem :=
  match slots (es_channel s) with
  | [] => s
  | r :: l => release (set_slots l (mkES (es_futures s) (es_counter s) (es_channel s) (es_received s ++ [r])))
  end.

Definition close (s : ESystem) : ESystem :=
  let c := es_channel s in set_channel (mkMpsc (slots c) (permits c) false []) s.

(** Anyone may call [emit] or [try_emit], a future may be polled or dropped,
    and the receiver takes records until it goes away. *)
Inductive EOp := ENew (wait : bool) (ev : Ev.Event) | EPoll (i : nat) (now : Z) | EDrop (i : nat) | ERecv | EClose.

Definition estep (o : EOp) (s : ESystem) : ESystem :=
  match o with
  | ENew wait ev => set_futures (es_futures s ++ [NotStarted wait ev]) s
  | EPoll i now => poll i now s
  | EDrop i => cancel i s
  | ERecv => receive s
  | EClose => close s
  end.
Definition erun (ops : list EOp) (s : ESystem) : ESystem := fold_left (fun s o => estep o s) ops s.

(** Everything that has been sent, in order. *)
Definition es_sent (s : ESystem) : list Ev.EventRecord := es_received s ++ slots (es_channel s).

(** ** The convenience methods *)

Definition allocation_created (c : ChunkId) (t : TierId) (size : Z) : Emission := emit (Ev.AllocationCreated 0 c t size).
Definition allocation_freed (c : ChunkId) (t : TierId) : Emission := emit (Ev.AllocationFreed 0 c t).
Definition allocation_failed (c : ChunkId) (reason : string) : Emission := emit (Ev.AllocationFailed 0 c reason).
Definition migration_started (c : ChunkId) (from to : TierId) : Emission := emit (Ev.MigrationStarted 0 c from to).
Definition migration_completed (c : ChunkId) (from to : TierId) (duration_ms : Z) : Emission :=
  emit (Ev.MigrationCompleted 0 c from to duration_ms).
Definition migration_failed (c : ChunkId) (from to : TierId) (reason : string) : Emission :=
  emit (Ev.MigrationFailed 0 c from to reason).
Definition migration_rolled_back (c : ChunkId) (from to : TierId) : Emission := emit (Ev.MigrationRolledBack 0 c from to).
Definition replay_started (path : string) : Emission := emit (Ev.ReplayStarted 0 path).
Definition replay_completed (path : string) (events duration_ms : Z) : Emission :=
  emit (Ev.ReplayCompleted 0 path events duration_ms).
Definition replay_divergence (path expected actual : string) : Emission :=
  emit (Ev.ReplayDivergence 0 path expected actual).
Definition replay_invariant_violation (rule details : string) : Emission :=
  emit (Ev.ReplayInvariantViolation 0 rule details).
Definition pressure_changed (t : TierId) (old new : PressureState) : Emission := emit (Ev.PressureChanged 0 t old new).
Definition backpressure_activated (t : TierId) (level : string) : Emission := emit (Ev.BackpressureActivated 0 t level).
Definition backpressure_deactivated (t : TierId) : Emission := emit (Ev.BackpressureDeactivated 0 t).
Definition backend_health_changed (t : TierId) (old new : BackendHealth) : Emission :=
  emit (Ev.BackendHealthChanged 0 t old new).
Definition retry_attempted (c : ChunkId) (attempt max_attempts : Z) : Emission :=
  emit (Ev.RetryAttempted 0 c attempt max_attempts).
Definition operation_failed (operation reason : string) : Emission := emit (Ev.OperationFailed 0 operation reason).
Definition invariant_violation (rule details : string) (s : InvariantSeverity) : Emission :=
  emit (Ev.InvariantViolation 0 rule details s).
Definition io_request_issued (o : IoOperation) (c : ChunkId) (t : TierId) : Emission := emit (Ev.IoRequestIssued 0 o c t).
Definition io_request_completed (o : IoOperation) (c : ChunkId) (t : TierId) (ticks : Z) : Emission :=
  emit (Ev.IoRequestCompleted 0 o c t ticks).
Definition io_request_failed (o : IoOperation) (c : ChunkId) (t : TierId) (error : string) : Emission :=
  emit (Ev.IoRequestFailed 0 o c t error).
Definition hotness_sampled (provider : string) (num hot cold : Z) : Emission :=
  emit (Ev.HotnessSampled 0 provider num hot cold).
Definition hotness_changed (c : ChunkId) (old_temp new_temp : string) : Emission :=
  emit (Ev.HotnessChanged 0 c old_temp new_temp).
Definition policy_recommendation_generated (recs : list string) (level : string) : Emission :=
  emit (Ev.PolicyRecommendationGenerated 0 recs level).
Definition tier_inventory_changed (tiers : list string) : Emission := emit (Ev.TierInventoryChanged 0 tiers).
Definition tier_utilization_changed (tier : string) (used total : Z) : Emission :=
  emit (Ev.TierUtilizationChanged 0 tier used total).

(** ** The invariant *)

(** The record a future has made, the one it has sent, and whether it holds a
    permit. *)
Definition record_of (f : Emission) : option Ev.EventRecord :=
  match f with
  | Stamped _ r | Waiting r | Granted r | Permitted r | Sent r | Failed _ r => Some r
  | NotStarted _ _ | Dropped => None
  end.
Definition sent_of (f : Emission) : option Ev.EventRecord := match f with Sent r => Some r | _ => None end.
Definition permit_of (f : Emission) : option Ev.EventRecord := match f with Granted r | Permitted r => Some r | _ => None end.

(** The emissions a sequence of operations asks for. *)
Definition asked (ops : list EOp) : list (bool * Ev.Event) :=
  omap (fun o => match o with ENew wait ev => Some (wait, ev) | _ => None end) ops.

(** A future of an emission of that event: a dropped one was awaited, and only
    a call that does not wait is refused for lack of room. *)
Definition of_call (x : bool * Ev.Event) (f : Emission) : Prop :=
  let '(wait, ev) := x in
  match f with
  | NotStarted w e => w = wait /\ e = ev
  | Stamped w r => w = wait /\ Ev.rec_event r = ev
  | Waiting r | Granted r => wait = true /\ Ev.rec_event r = ev
  | Permitted r | Sent r | Failed SendClosed r => Ev.rec_event r = ev
  | Failed SendFull r => wait = false /\ Ev.rec_event r = ev
  | Dropped => wait = true
  end.

Definition is_waiting (f : Emission) : Prop := match f with Waiting _ => True | _ => False end.

(** [free] permits are on their way back to the channel. *)
Record einv (cap free : nat) (s : ESystem) : Prop := {
  ei_sent : omap sent_of (es_futures s) ≡ₚ es_sent s;
  ei_numbers : NoDup (ids (omap record_of (es_futures s)));
  ei_below : Forall (fun n => 1 <= n < es_counter s) (ids (omap record_of (es_futures s)));
  ei_permits : (permits (es_channel s) + length (slots (es_channel s)) + length (omap permit_of (es_futures s)) + free = cap)%nat;
  ei_queue : forall i, i ∈ waiters (es_channel s) <->
    is_open (es_channel s) = true /\ exists r, es_futures s !! i = Some (Waiting r);
  ei_once : NoDup (waiters (es_channel s));
  ei_busy : waiters (es_channel s) <> [] -> permits (es_channel s) = 0%nat;
  ei_closed : forall i r, es_futures s !! i = Some (Failed SendClosed r) -> is_open (es_channel s) = false;
}.

(** Replacing an element changes one entry of what a function selects. *)
Lemma omap_insert {A B} (g : A -> option B) (l : list A) i x y :
  l !! i = Some x -> exists k, omap g l ≡ₚ option_list (g x) ++ k /\ omap g (<[i := y]> l) ≡ₚ option_list (g y) ++ k.
Proof.
  intros Hi. exists (omap g (take i l) ++ omap g (drop (S i) l)).
  assert (forall z, omap g (take i l ++ z :: drop (S i) l) ≡ₚ option_list (g z) ++ omap g (take i l) ++ omap g (drop (S i) l)) as Hz.
  { intros z. rewrite omap_app. cbn [omap list_omap]. destruct (g z) as [w|]; [|done]. cbn. by rewrite <- Permutation_middle. }
  split; [rewrite <- (take_drop_middle l i x Hi) at 1; apply Hz|].
  rewrite insert_take_drop by (by eapply lookup_lt_Some). apply Hz.
Qed.

Lemma omap_insert_same {A B} (g : A -> option B) (l : list A) i x y :
  l !! i = Some x -> g x = g y -> omap g (<[i := y]> l) ≡ₚ omap g l.
Proof. intros Hi Hg. destruct (omap_insert g l i x y Hi) as (k & -> & ->). by rewrite Hg. Qed.

Lemma ids_perm l k : l ≡ₚ k -> ids l ≡ₚ ids k.
Proof. apply fmap_Permutation. Qed.

(** A future moves on: its record stays or is forgotten. *)
Lemma einv_move cap free free' s s' i x y :
  einv cap free s -> es_futures s !! i = Some x -> es_futures s' = <[i := y]> (es_futures s) ->
  es_counter s' = es_counter s -> record_of y = record_of x \/ record_of y = None ->
  option_list (sent_of y) ++ es_sent s ≡ₚ option_list (sent_of x) ++ es_sent s' ->
  (permits (es_channel s') + length (slots (es_channel s')) + length (option_list (permit_of y)) + free' =
   permits (es_channel s) + length (slots (es_channel s)) + length (option_list (permit_of x)) + free)%nat ->
  (forall j, j ∈ waiters (es_channel s') <->
    is_open (es_channel s') = true /\ exists r, <[i := y]> (es_futures s) !! j = Some (Waiting r)) ->
  NoDup (waiters (es_channel s')) -> (waiters (es_channel s') <> [] -> permits (es_channel s') = 0%nat) ->
  (is_open (es_channel s') = false \/ is_open (es_channel s') = is_open (es_channel s) /\ forall r, y <> Failed SendClosed r) ->
  einv cap free' s'.
Proof.
  intros [Hs Hn Hb Hp _ _ _ Hc] Hi Ef Ec Hr Hsent Hpm Hq Hd Hbusy Hcl.
  destruct (omap_insert sent_of (es_futures s) i x y Hi) as (ks & Hs1 & Hs2).
  destruct (omap_insert record_of (es_futures s) i x y Hi) as (kr & Hr1 & Hr2).
  destruct (omap_insert permit_of (es_futures s) i x y Hi) as (kp & Hp1 & Hp2).
  assert (NoDup (ids (omap record_of (<[i := y]> (es_futures s)))) /\
    Forall (fun n => 1 <= n < es_counter s) (ids (omap record_of (<[i := y]> (es_futures s))))) as [Hn' Hb'].
  { rewrite (ids_perm _ _ Hr2). rewrite (ids_perm _ _ Hr1) in Hn, Hb.
    destruct Hr as [-> | ->]; [done|]. unfold ids in *. rewrite fmap_app in Hn, Hb. cbn [option_list app].
    apply NoDup_app in Hn as (_ & _ & Hn). by apply Forall_app in Hb as [_ Hb]. }
  split; rewrite ?Ef, ?Ec; try done.
  - rewrite Hs2. apply (Permutation_app_inv_l (option_list (sent_of x))). rewrite <- Hsent.
    rewrite Hs1 in Hs. rewrite <- Hs, !app_assoc. by rewrite (Permutation_app_comm (option_list (sent_of y))).
  - apply Permutation_length in Hp1, Hp2. rewrite length_app in Hp1, Hp2. lia.
  - intros j r Hj. destruct Hcl as [Hcl|[-> Hcl]]; [done|]. destruct (decide (i = j)) as [->|Hij].
    + rewrite list_lookup_insert_eq in Hj by (by eapply lookup_lt_Some). injection Hj as ->. by destruct (Hcl r).
    + rewrite list_lookup_insert_ne in Hj by done. by apply (Hc j r).
Qed.

(** Who waits, when future [i] moves from [x] to [y]. *)
Lemma waiting_insert (l : list Emission) i x y j :
  l !! i = Some x ->
  (exists r, <[i := y]> l !! j = Some (Waiting r)) <->
  (j <> i /\ exists r, l !! j = Some (Waiting r)) \/ (j = i /\ is_waiting y).
Proof.
  intros Hi. destruct (decide (i = j)) as [->|Hij].
  - rewrite list_lookup_insert_eq by (by eapply lookup_lt_Some). destruct y; naive_solver.
  - rewrite list_lookup_insert_ne by done. naive_solver.
Qed.

Lemma queue_same cap free s i x y :
  einv cap free s -> es_futures s !! i = Some x -> ~ is_waiting x -> ~ is_waiting y ->
  forall j, j ∈ waiters (es_channel s) <->
    is_open (es_channel s) = true /\ exists r, <[i := y]> (es_futures s) !! j = Some (Waiting r).
Proof.
  intros Hi Hx Hnx Hny j. rewrite (ei_queue _ _ _ Hi), (waiting_insert _ _ _ _ _ Hx).
  destruct (decide (j = i)) as [->|]; [|naive_solver]. rewrite Hx. destruct x; naive_solver.
Qed.

Lemma einv_release cap free s : einv cap (S free) s -> einv cap free (release s).
Proof.
  intros Hi. pose proof Hi as [Hs Hn Hb Hp Hq Hd Hbusy Hc]. unfold release.
  destruct (waiters (es_channel s)) as [|i w] eqn:Ew.
  - split; cbn; rewrite ?Ew; first [done|lia].
  - destruct (proj1 (Hq i)) as [Ho [r Hr]]; [left|]. rewrite Hr. apply NoDup_cons in Hd as [Hiw Hd].
    apply (einv_move cap (S free) free s _ i (Waiting r) (Granted r)); try done; cbn; try lia.
    + by left.
    + intros j. rewrite (waiting_insert _ _ _ _ _ Hr). cbn. specialize (Hq j). rewrite elem_of_cons in Hq.
      split.
      * intros Hj. split; [done|]. left. assert (j <> i) by congruence. split; [done|]. apply Hq. by right.
      * intros [_ [[Hj Hw]|[_ []]]]. destruct Hq as [_ Hq]. destruct Hq; [by split|by destruct Hj|done].
    + intros _. by apply Hbusy.
    + by right.
Qed.

Lemma einv_stamp cap s i wait now ev :
  einv cap 0 s -> 1 <= es_counter s -> in_u 64 (es_counter s + 1) -> es_futures s !! i = Some (NotStarted wait ev) ->
  einv cap 0 (stamp i wait now ev s).
Proof.
  intros Hi H1 Hw Hx. pose proof (queue_same cap 0 s i _ (Stamped wait (Ev.mkRecord (es_counter s) now ev)) Hi Hx) as Hqs.
  destruct Hi as [Hs Hn Hb Hp Hq Hd Hbusy Hc]. unfold stamp. rewrite wrap_in by done.
  set (y := Stamped _ _) in *.
  destruct (omap_insert record_of (es_futures s) i _ y Hx) as (k & Hr1 & Hr2). cbn in Hr1, Hr2.
  assert (ids (omap record_of (<[i := y]> (es_futures s))) ≡ₚ es_counter s :: ids (omap record_of (es_futures s))) as Hids.
  { rewrite (ids_perm _ _ Hr2), (ids_perm _ _ Hr1). done. }
  split; cbn; try done.
  - rewrite <- Hs. by apply (omap_insert_same _ _ _ _ _ Hx).
  - rewrite Hids. constructor; [|done]. intros Hin. rewrite Forall_forall in Hb. specialize (Hb _ Hin). lia.
  - rewrite Hids. constructor; [lia|]. eapply Forall_impl; [exact Hb|]. intros n Hn'. cbv beta in *. lia.
  - rewrite <- Hp. rewrite (Permutation_length (omap_insert_same permit_of _ _ _ y Hx eq_refl)). done.
  - exact (Hqs (fun h => h) (fun h => h)).
  - intros j r Hj. destruct (decide (i = j)) as [->|Hij].
    + by rewrite list_lookup_insert_eq in Hj by (by eapply lookup_lt_Some).
    + rewrite list_lookup_insert_ne in Hj by done. by apply (Hc j r).
Qed.

Lemma einv_ask_permit cap s i wait r :
  einv cap 0 s -> es_futures s !! i = Some (Stamped wait r) -> einv cap 0 (ask_permit i wait r s).
Proof.
  intros Hi Hx. unfold ask_permit. pose proof (queue_same cap 0 s i _ (Failed SendClosed r) Hi Hx (fun h => h) (fun h => h)) as Hq1.
  pose proof (queue_same cap 0 s i _ (Failed SendFull r) Hi Hx (fun h => h) (fun h => h)) as Hq2.
  pose proof (queue_same cap 0 s i _ (Permitted r) Hi Hx (fun h => h) (fun h => h)) as Hq3.
  pose proof Hi as [Hs Hn Hb Hp Hq Hd Hbusy Hc].
  destruct (is_open (es_channel s)) eqn:Ho; cbn [negb]; [destruct (permits (es_channel s)) as [|n] eqn:Ep; [destruct wait|]|].
  - assert (i ∉ waiters (es_channel s)) as Hni by (intros [_ [r' Hr']]%Hq; congruence).
    apply (einv_move cap 0 0 s _ i _ (Waiting r) Hi Hx); try done; cbn; try lia; [by left| | |by right].
    + intros j. rewrite elem_of_app, list_elem_of_singleton, Hq, Ho, (waiting_insert _ _ _ _ _ Hx). cbn.
      destruct (decide (j = i)) as [->|]; naive_solver.
    + apply NoDup_app. split_and!; [done| |apply NoDup_singleton]. by intros j Hj ->%list_elem_of_singleton.
  - apply (einv_move cap 0 0 s _ i _ (Failed SendFull r) Hi Hx); try done; cbn; rewrite ?Ho; try done; [by left|by right].
  - apply (einv_move cap 0 0 s _ i _ (Permitted r) Hi Hx); try done; cbn; rewrite ?Ho; try done; try lia; [by left| |by right].
    intros Hw. by specialize (Hbusy Hw).
  - apply (einv_move cap 0 0 s _ i _ (Failed SendClosed r) Hi Hx); try done; cbn; rewrite ?Ho; try done; by left.
Qed.

Lemma einv_poll cap s i now :
  einv cap 0 s -> 1 <= es_counter s -> in_u 64 (es_counter s + 1) -> einv cap 0 (poll i now s).
Proof.
  intros Hi H1 Hw. unfold poll. destruct (es_futures s !! i) as [[w ev|w r|r|r|r|r|e r|]|] eqn:Hx; try done.
  - by apply einv_stamp.
  - by apply einv_ask_permit.
  - pose proof Hi as [Hs Hn Hb Hp Hq Hd Hbusy Hc]. destruct (is_open (es_channel s)) eqn:Ho; [done|].
    apply (einv_move cap 0 0 s _ i _ (Failed SendClosed r) Hi Hx); try done; cbn; try lia; [by left| |by left].
    intros j. rewrite Hq, Ho. naive_solver.
  - pose proof (queue_same cap 0 s i _ (Permitted r) Hi Hx (fun h => h) (fun h => h)) as Hq1.
    pose proof (queue_same cap 0 s i _ (Failed SendClosed r) Hi Hx (fun h => h) (fun h => h)) as Hq2.
    pose proof Hi as [Hs Hn Hb Hp Hq Hd Hbusy Hc]. destruct (is_open (es_channel s)) eqn:Ho.
    + apply (einv_move cap 0 0 s _ i _ (Permitted r) Hi Hx); try done; cbn; rewrite ?Ho; try done; [by left|by right].
    + apply einv_release. apply (einv_move cap 0 1 s _ i _ (Failed SendClosed r) Hi Hx); try done; cbn; rewrite ?Ho; try done; try lia; by left.
  - pose proof (queue_same cap 0 s i _ (Sent r) Hi Hx (fun h => h) (fun h => h)) as Hq1.
    pose proof Hi as [Hs Hn Hb Hp Hq Hd Hbusy Hc].
    apply (einv_move cap 0 0 s _ i _ (Sent r) Hi Hx); try done; cbn; [by left| |rewrite length_app; cbn; lia|by right].
    unfold es_sent. cbn. by rewrite app_assoc, <- Permutation_cons_append.
Qed.

Lemma einv_cancel cap s i : einv cap 0 s -> einv cap 0 (cancel i s).
Proof.
  intros Hi. unfold cancel. pose proof Hi as [Hs Hn Hb Hp Hq Hd Hbusy Hc].
  destruct (es_futures s !! i) as [x|] eqn:Hx; [|done].
  assert (~ is_waiting x -> forall j, j ∈ waiters (es_channel s) <->
    is_open (es_channel s) = true /\ exists r, <[i := Dropped]> (es_futures s) !! j = Some (Waiting r)) as Hq1.
  { intros Hw. exact (queue_same cap 0 s i x Dropped Hi Hx Hw (fun h => h)). }
  destruct x as [[] ev|[] r|r|r|r|r|e r|]; try done.
  - apply (einv_move cap 0 0 s _ i _ Dropped Hi Hx); try done; cbn; [by right|exact (Hq1 (fun h => h))|by right].
  - apply (einv_move cap 0 0 s _ i _ Dropped Hi Hx); try done; cbn; [by right|exact (Hq1 (fun h => h))|by right].
  - apply (einv_move cap 0 0 s _ i _ Dropped Hi Hx); try done; cbn; [by right| |by apply NoDup_filter| |by right].
    + intros j. rewrite list_elem_of_filter, Hq, (waiting_insert _ _ _ _ _ Hx). cbn. naive_solver.
    + intros Hw. apply Hbusy. by intros E; rewrite E in Hw.
  - apply einv_release. apply (einv_move cap 0 1 s _ i _ Dropped Hi Hx); try done; cbn; try lia; [by right|exact (Hq1 (fun h => h))|by right].
Qed.

Lemma einv_new cap s wait ev : einv cap 0 s -> einv cap 0 (estep (ENew wait ev) s).
Proof.
  intros [Hs Hn Hb Hp Hq Hd Hbusy Hc]. cbn [estep].
  split; cbn; rewrite ?omap_app; cbn; rewrite ?app_nil_r; try done.
  - intros j. rewrite Hq. split; intros [Ho [r Hr]]; (split; [done|]); exists r.
    + by apply lookup_app_l_Some.
    + apply lookup_app_Some in Hr as [Hr|[_ Hr]]; [done|]. by apply list_lookup_singleton_Some in Hr as [_ ?].
  - intros j r Hr. apply lookup_app_Some in Hr as [Hr|[_ Hr]]; [by apply (Hc j r)|]. by apply list_lookup_singleton_Some in Hr as [_ ?].
Qed.

Lemma einv_step cap o s :
  einv cap 0 s -> 1 <= es_counter s -> in_u 64 (es_counter s + 1) -> einv cap 0 (estep o s).
Proof.
  intros Hi H1 Hw. destruct o as [wait ev|i now|i| |]; cbn [estep];
    [by apply einv_new|by apply einv_poll|by apply einv_cancel| |]; destruct Hi as [Hs Hn Hb Hp Hq Hd Hbusy Hc].
  - unfold receive. destruct (slots (es_channel s)) as [|r l] eqn:El; [by split; rewrite ?El|].
    apply einv_release. split; cbn; try done; [|rewrite <- Hp; cbn; lia].
    rewrite Hs. unfold es_sent. cbn. by rewrite El, <- app_assoc.
  - split; cbn; try done; [|constructor]. intros j. split; [by intros ?%elem_of_nil|by intros [? _]].
Qed.

Lemma release_counter s : es_counter (release s) = es_counter s.
Proof. unfold release. by repeat case_match. Qed.

Lemma counter_step o s :
  1 <= es_counter s -> es_counter s + 1 < 2 ^ 64 -> es_counter s <= es_counter (estep o s) <= es_counter s + 1.
Proof.
  intros H0 Hw. assert (wrap 64 (es_counter s + 1) = es_counter s + 1) as Ew by (apply wrap_in; unfold in_u; lia).
  destruct o as [wait ev|i now|i| |]; cbn [estep]; unfold poll, ask_permit, stamp, cancel, receive;
    repeat case_match; cbn; rewrite ?release_counter; cbn; rewrite ?Ew; lia.
Qed.

Lemma einv_run cap ops : forall s, einv cap 0 s -> 1 <= es_counter s -> es_counter s + Z.of_nat (length ops) < 2 ^ 64 ->
  einv cap 0 (erun ops s) /\ 1 <= es_counter (erun ops s) <= es_counter s + Z.of_nat (length ops).
Proof.
  induction ops as [|o ops IH]; intros s Hi H0 Hb; [split; [done|cbn; lia]|]. cbn [erun fold_left length] in *.
  pose proof (counter_step o s H0 ltac:(lia)). destruct (IH (estep o s)) as [Hi' Hc'];
    [apply einv_step; [done|done|unfold in_u; lia]|lia|lia|]. split; [exact Hi'|]. unfold erun in Hc'. lia.
Qed.

Lemma einv_start cap : einv cap 0 (es_start cap).
Proof.
  split; cbn; try done; try lia; try apply NoDup_nil; try apply Forall_nil; try done.
  intros i. split; [by intros ?%elem_of_nil|by intros [_ [r ?]]].
Qed.

(** ** Every future stays with its call *)

Lemma calls_set l k i x y :
  Forall2 of_call l k -> k !! i = Some x -> (forall a, of_call a x -> of_call a y) -> Forall2 of_call l (<[i := y]> k).
Proof.
  intros HF Hi Hxy. rewrite <- (take_drop_middle k i x Hi) in HF.
  apply Forall2_app_inv_r in HF as (l1 & l2 & H1 & H2 & ->). apply Forall2_cons_inv_r in H2 as (a & l3 & Ha & H2 & ->).
  rewrite insert_take_drop by (by eapply lookup_lt_Some). apply Forall2_app; [done|]. constructor; auto.
Qed.

Lemma calls_release l s : Forall2 of_call l (es_futures s) -> Forall2 of_call l (es_futures (release s)).
Proof.
  intros HF. unfold release. destruct (waiters _) as [|i w]; [done|]. destruct (es_futures s !! i) as [[]|] eqn:Hx; try done.
  cbn. eapply calls_set; [done|exact Hx|]. by intros [wait ev].
Qed.

Lemma calls_step l o s :
  Forall2 of_call l (es_futures s) -> Forall2 of_call (l ++ asked [o]) (es_futures (estep o s)).
Proof.
  intros HF. destruct o as [wait ev|i now|i| |]; cbn [asked omap list_omap estep]; rewrite ?app_nil_r.
  - apply Forall2_app; [done|]. by repeat constructor.
  - unfold poll. destruct (es_futures s !! i) as [x|] eqn:Hx; [|done].
    assert (forall y, (forall a, of_call a x -> of_call a y) -> Forall2 of_call l (<[i := y]> (es_futures s))) as Hset
      by (intros y; by apply (calls_set _ _ _ x)).
    destruct x as [w ev|w r|r|r|r|r|e r|]; try done; unfold ask_permit, stamp.
    + cbn. apply Hset. by intros [wait' ev'].
    + repeat case_match; cbn; apply Hset; intros [wait' ev']; cbn; naive_solver.
    + case_match; [done|]. cbn. apply Hset. intros [wait' ev']; cbn; naive_solver.
    + case_match; [|apply calls_release]; cbn; apply Hset; intros [wait' ev']; cbn; naive_solver.
    + cbn. apply Hset. by intros [wait' ev'].
  - unfold cancel. destruct (es_futures s !! i) as [x|] eqn:Hx; [|done].
    assert ((forall a, of_call a x -> a.1 = true) -> Forall2 of_call l (<[i := Dropped]> (es_futures s))) as Hset.
    { intros Ha. apply (calls_set _ _ _ x); [done..|]. intros [wait' ev'] H. exact (Ha _ H). }
    destruct x as [[] ev|[] r|r|r|r|r|e r|]; try done; [..|apply calls_release]; cbn; apply Hset; intros [wait' ev']; cbn; naive_solver.
  - unfold receive. destruct (slots _); [done|]. by apply calls_release.
  - done.
Qed.

Lemma calls_run ops : forall l s, Forall2 of_call l (es_futures s) -> Forall2 of_call (l ++ asked ops) (es_futures (erun ops s)).
Proof.
  induction ops as [|o ops IH]; intros l s HF; [by rewrite app_nil_r|]. cbn [erun fold_left].
  change (o :: ops) with ([o] ++ ops). unfold asked. rewrite omap_app, app_assoc. by apply IH, calls_step.
Qed.

(** ** Waiting is fair *)

(** Past the queue: a permit is there for it, or the record is sent. *)
Definition served (r : Ev.EventRecord) (f : Emission) : Prop := f = Granted r \/ f = Permitted r \/ f = Sent r.

Lemma filter_place (l : list nat) j i k :
  i <> j -> l !! k = Some i -> exists k', (k' <= k)%nat /\ filter (fun n => n <> j) l !! k' = Some i.
Proof.
  intros Hij. revert k. induction l as [|n l IH]; intros k Hk; [done|]. destruct k as [|k].
  - injection Hk as ->. exists 0%nat. by rewrite filter_cons_True.
  - cbn in Hk. destruct (IH k Hk) as (k' & Hle & Hk'). destruct (decide (n = j)) as [->|].
    + exists k'. rewrite filter_cons_False by naive_solver. split; [lia|done].
    + exists (S k'). rewrite filter_cons_True by done. split; [lia|done].
Qed.

Lemma lookup_set_ne i j f s : i <> j -> es_futures (set_future j f s) !! i = es_futures s !! i.
Proof. intros Hij. cbn. by rewrite list_lookup_insert_ne. Qed.

(** A permit coming free brings a waiting future forward, or is for it. *)
Lemma release_place i r k s :
  es_futures s !! i = Some (Waiting r) -> waiters (es_channel s) !! k = Some i ->
  match k with
  | O => es_futures (release s) !! i = Some (Granted r)
  | S k => waiters (es_channel s) !! 0%nat <> Some i ->
      es_futures (release s) !! i = Some (Waiting r) /\ waiters (es_channel (release s)) !! k = Some i
  end.
Proof.
  intros Hi Hk. unfold release. destruct (waiters (es_channel s)) as [|j w] eqn:Ew; [done|]. destruct k as [|k].
  - injection Hk as ->. rewrite Hi. cbn. by rewrite list_lookup_insert_eq by (by eapply lookup_lt_Some).
  - cbn in Hk. intros Hj. assert (i <> j) as Hij by (intros ->; by apply Hj).
    destruct (es_futures s !! j) as [[]|]; split; try done; cbn; by rewrite list_lookup_insert_ne.
Qed.

Lemma release_served i r s : (exists f, es_futures s !! i = Some f /\ served r f) ->
  exists f, es_futures (release s) !! i = Some f /\ served r f.
Proof.
  intros (f & Hf & Hs). unfold release. destruct (waiters _) as [|j w]; [by exists f|].
  destruct (es_futures s !! j) as [[]|] eqn:Hj; try (by exists f). cbn. exists f. split; [|done].
  rewrite list_lookup_insert_ne; [done|]. intros ->. rewrite Hf in Hj. injection Hj as ->. by destruct Hs as [?|[?|?]].
Qed.

(** What happens to a future is its own doing, a release, or the arrival of
    others behind it. *)
Lemma served_step cap o i r s :
  einv cap 0 s -> is_open (es_channel s) = true -> o <> EClose -> o <> EDrop i ->
  (exists f, es_futures s !! i = Some f /\ served r f) -> exists f, es_futures (estep o s) !! i = Some f /\ served r f.
Proof.
  intros Hi Ho Hc Hd (f & Hf & Hs).
  assert (forall j y, j <> i -> exists f, es_futures (set_future j y s) !! i = Some f /\ served r f) as Hset.
  { intros j y Hj. exists f. by rewrite lookup_set_ne. }
  destruct o as [wait ev|j now|j| |]; cbn [estep]; try done.
  - exists f. cbn. split; [by apply lookup_app_l_Some|done].
  - unfold poll. destruct (decide (j = i)) as [->|Hj].
    + rewrite Hf. assert (i < length (es_futures s))%nat by (by eapply lookup_lt_Some).
      destruct Hs as [->|[->| ->]]; rewrite ?Ho; [exists (Permitted r)|exists (Sent r)|exists (Sent r)];
        cbn; rewrite ?list_lookup_insert_eq by done; (split; [done|]); unfold served; auto.
    + destruct (es_futures s !! j) as [[w e|w r'|r'|r'|r'|r'|e r'|]|]; try (by exists f); unfold ask_permit, stamp; rewrite ?Ho;
        repeat case_match; cbn; exists f; rewrite ?list_lookup_insert_ne by done; done.
  - unfold cancel. assert (j <> i) as Hj by congruence.
    destruct (es_futures s !! j) as [[[] e|[] r'|r'|r'|r'|r'|e r'|]|]; try (by exists f); try (by apply Hset).
    by apply release_served, Hset.
  - unfold receive. destruct (slots _); [by exists f|]. apply release_served. by exists f.
Qed.

Lemma waiting_step cap o i r k s :
  einv cap 0 s -> is_open (es_channel s) = true -> o <> EClose -> o <> EDrop i ->
  es_futures s !! i = Some (Waiting r) -> waiters (es_channel s) !! k = Some i ->
  (exists f, es_futures (estep o s) !! i = Some f /\ served r f) \/
  exists k', es_futures (estep o s) !! i = Some (Waiting r) /\ waiters (es_channel (estep o s)) !! k' = Some i /\
    (k' + length (es_received (estep o s)) <= k + length (es_received s))%nat.
Proof.
  intros Hi Ho Hc Hd Hf Hk.
  assert (forall s', es_futures s' !! i = Some (Waiting r) -> waiters (es_channel s') !! k = Some i ->
    (length (es_received s') <= S (length (es_received s)))%nat -> NoDup (waiters (es_channel s')) ->
    (exists f, es_futures (release s') !! i = Some f /\ served r f) \/
    exists k', es_futures (release s') !! i = Some (Waiting r) /\ waiters (es_channel (release s')) !! k' = Some i /\
      (k' + length (es_received (release s')) <= k + length (es_received s))%nat) as Hrel.
  { intros s' Hf' Hk' Hr Hnd. pose proof (release_place i r k s' Hf' Hk') as Hp.
    assert (es_received (release s') = es_received s') as Er by (unfold release; by repeat case_match).
    destruct k as [|k]; [left; exists (Granted r); split; [done|by left]|].
    right. exists k. rewrite Er. destruct Hp as [Hp1 Hp2]; [|split_and!; [done|done|lia]].
    intros H0. by pose proof (NoDup_lookup _ _ _ _ Hnd H0 Hk'). }
  pose proof (ei_once _ _ _ Hi) as Hnd.
  destruct o as [wait ev|j now|j| |]; cbn [estep]; try done.
  - right. exists k. cbn. split_and!; [by apply lookup_app_l_Some|done|lia].
  - right. exists k. unfold poll. destruct (decide (j = i)) as [->|Hj]; [rewrite Hf, Ho; by split_and!|].
    destruct (es_futures s !! j) as [[w e|w r'|r'|r'|r'|r'|e r'|]|]; try (by split_and!); unfold ask_permit, stamp; rewrite ?Ho;
      repeat case_match; cbn; rewrite ?list_lookup_insert_ne by done; split_and!; try done; try (by apply lookup_app_l_Some).
  - unfold cancel. assert (j <> i) as Hj by congruence.
    destruct (es_futures s !! j) as [[[] e|[] r'|r'|r'|r'|r'|e r'|]|]; try (right; exists k; cbn; by rewrite ?list_lookup_insert_ne).
    + right. destruct (filter_place (waiters (es_channel s)) j i k) as (k' & Hle & Hk'); [done..|].
      exists k'. cbn. rewrite list_lookup_insert_ne by done. split_and!; [done|done|lia].
    + apply Hrel; cbn; rewrite ?list_lookup_insert_ne; try done; lia.
  - unfold receive. destruct (slots (es_channel s)) as [|r' l]; [right; by exists k|].
    apply Hrel; cbn; try done. rewrite length_app. cbn. lia.
Qed.

Lemma release_open s : is_open (es_channel (release s)) = is_open (es_channel s).
Proof. unfold release. by repeat case_match. Qed.

Lemma step_open o s : o <> EClose -> is_open (es_channel (estep o s)) = is_open (es_channel s).
Proof.
  intros Ho. destruct o; cbn [estep]; try done; unfold poll, ask_permit, stamp, cancel, receive;
    repeat case_match; cbn; rewrite ?release_open; cbn; congruence.
Qed.

Lemma fair_run cap i r ops : forall k s,
  einv cap 0 s -> 1 <= es_counter s -> es_counter s + Z.of_nat (length ops) < 2 ^ 64 ->
  is_open (es_channel s) = true -> EClose ∉ ops -> EDrop i ∉ ops ->
  (exists f, es_futures s !! i = Some f /\ served r f) \/
  (es_futures s !! i = Some (Waiting r) /\ waiters (es_channel s) !! k = Some i /\
     (length (es_received s) + k < length (es_received (erun ops s)))%nat) ->
  is_open (es_channel (erun ops s)) = true /\ exists f, es_futures (erun ops s) !! i = Some f /\ served r f.
Proof.
  induction ops as [|o ops IH]; intros k s Hi H1 Hb Ho Hc Hd Hs; cbn [erun fold_left length] in *.
  { split; [done|]. destruct Hs as [Hs|(_ & _ & ?)]; [done|lia]. }
  apply not_elem_of_cons in Hc as [Hc1 Hc2]. apply not_elem_of_cons in Hd as [Hd1 Hd2].
  pose proof (counter_step o s H1 ltac:(lia)).
  assert (einv cap 0 (estep o s)) as Hi' by (apply einv_step; [done|done|unfold in_u; lia]).
  assert (is_open (es_channel (estep o s)) = true) as Ho' by (by rewrite step_open).
  destruct Hs as [Hs|(Hf & Hk & Hn)].
  - apply (IH 0%nat); try done; try lia. left. by eapply served_step.
  - destruct (waiting_step cap o i r k s) as [Hs|(k' & Hf' & Hk' & Hle)]; try done.
    + apply (IH 0%nat); try done; try lia. by left.
    + apply (IH k'); try done; try lia. right. split_and!; [done|done|]. cbn [erun fold_left] in Hn. unfold erun. lia.
Qed.

Lemma served_polls i r s t1 t2 :
  is_open (es_channel s) = true -> (exists f, es_futures s !! i = Some f /\ served r f) ->
  es_futures (erun [EPoll i t1; EPoll i t2] s) !! i = Some (Sent r).
Proof.
  intros Ho (f & Hf & Hs). assert (i < length (es_futures s))%nat by (by eapply lookup_lt_Some).
  cbn [erun fold_left estep]. destruct Hs as [->|[->| ->]]; unfold poll at 2; rewrite Hf.
  - rewrite Ho. unfold poll. cbn. rewrite list_lookup_insert_eq by done. cbn.
    by rewrite list_lookup_insert_eq by (by rewrite length_insert).
  - unfold poll. cbn. rewrite list_lookup_insert_eq by done. cbn. by rewrite list_lookup_insert_eq by done.
  - unfold poll. by rewrite !Hf.
Qed.

(** ** What one step does to the futures *)

Definition targets (o : EOp) (i : nat) : bool :=
  match o with EPoll j _ | EDrop j => (j =? i)%nat | _ => false end.

Lemma release_keeps s i x : es_futures s !! i = Some x ->
  es_futures (release s) !! i = Some x \/
  exists r, x = Waiting r /\ es_futures (release s) !! i = Some (Granted r) /\ i ∈ waiters (es_channel s).
Proof.
  intros Hx. unfold release. destruct (waiters (es_channel s)) as [|j w]; [by left|].
  destruct (es_futures s !! j) as [y|] eqn:Hj; [|by left]. destruct y; try by left. cbn.
  destruct (decide (j = i)) as [->|Hij]; [|left; by rewrite list_lookup_insert_ne].
  right. rewrite Hj in Hx. injection Hx as <-. exists r. rewrite list_lookup_insert_eq by (by eapply lookup_lt_Some).
  split_and!; [done..|left].
Qed.

(** A step of the others leaves a future as it is, or hands it a permit. *)
Lemma others_keep cap o s i x :
  einv cap 0 s -> targets o i = false -> es_futures s !! i = Some x ->
  es_futures (estep o s) !! i = Some x \/
  exists r, x = Waiting r /\ es_futures (estep o s) !! i = Some (Granted r) /\ is_open (es_channel s) = true.
Proof.
  intros Hi Ht Hx. pose proof (ei_queue _ _ _ Hi) as Hq.
  assert (forall j y s', j <> i -> es_futures s' = es_futures (set_future j y s) -> es_futures s' !! i = Some x) as Hset.
  { intros j y s' Hj ->. by rewrite lookup_set_ne. }
  destruct o as [wait ev|j now|j| |]; cbn [targets estep] in *.
  - left. cbn. by apply lookup_app_l_Some.
  - apply Nat.eqb_neq in Ht. unfold poll. destruct (es_futures s !! j) as [[w e|w r|r|r|r|r|e r|]|] eqn:Hj; try by left.
    + left. by apply (Hset j (Stamped w (Ev.mkRecord (es_counter s) now e))).
    + left. unfold ask_permit. repeat case_match; by eapply Hset.
    + left. case_match; [done|]. by eapply Hset.
    + case_match; [left; by eapply Hset|].
      destruct (release_keeps (set_future j (Failed SendClosed r) s) i x) as [H1|(r' & _ & _ & Hw)]; [by eapply Hset|by left|].
      cbn in Hw. apply Hq in Hw as [? _]. congruence.
    + left. by eapply Hset.
  - apply Nat.eqb_neq in Ht. unfold cancel. destruct (es_futures s !! j) as [[[] e|[] r|r|r|r|r|e r|]|] eqn:Hj; try (by left); try (left; by eapply Hset).
    destruct (release_keeps (set_future j Dropped s) i x) as [H1|(r' & E1 & E2 & Hw)]; [by eapply Hset|by left|].
    right. cbn in Hw. apply Hq in Hw as [Ho _]. by exists r'.
  - unfold receive. destruct (slots (es_channel s)) as [|r l]; [by left|].
    match goal with |- context [release ?x] => set (s' := x) end.
    destruct (release_keeps s' i x) as [H1|(r' & E1 & E2 & Hw)]; [done|by left|].
    right. cbn in Hw. apply Hq in Hw as [Ho _]. by exists r'.
  - by left.
Qed.

Lemma done_stays cap o s i x :
  einv cap 0 s -> es_futures s !! i = Some x -> (exists r, x = Sent r) \/ (exists r, x = Failed SendClosed r) ->
  es_futures (estep o s) !! i = Some x.
Proof.
  intros Hi Hx Hd. destruct (targets o i) eqn:Ht.
  - destruct o as [wait ev|j now|j| |]; cbn [targets] in Ht; try done; apply Nat.eqb_eq in Ht as ->; cbn [estep];
      unfold poll, cancel; rewrite Hx; by destruct Hd as [[r ->]|[r ->]].
  - destruct (others_keep cap o s i x Hi Ht Hx) as [H1|(r & -> & _)]; [done|]. by destruct Hd as [[? ?]|[? ?]].
Qed.

Lemma release_sent s : es_sent (release s) = es_sent s.
Proof. unfold release, es_sent. by repeat case_match. Qed.

(** What has been sent stays, and grows at the end. *)
Lemma sent_grows o s :
  es_sent (estep o s) = es_sent s \/
  exists i now r, o = EPoll i now /\ es_futures s !! i = Some (Permitted r) /\ es_sent (estep o s) = es_sent s ++ [r].
Proof.
  destruct o as [wait ev|i now|i| |]; cbn [estep]; try by left.
  - unfold poll. destruct (es_futures s !! i) as [[w e|w r|r|r|r|r|e r|]|] eqn:Hi; try by left.
    + left. unfold ask_permit. by repeat case_match.
    + left. by case_match.
    + left. case_match; [done|by rewrite release_sent].
    + right. exists i, now, r. split_and!; [done|done|]. unfold es_sent. cbn. by rewrite app_assoc.
  - left. unfold cancel. repeat case_match; try done. by rewrite release_sent.
  - left. unfold receive. destruct (slots (es_channel s)) as [|r l] eqn:E; [done|]. rewrite release_sent.
    unfold es_sent. cbn. by rewrite E, <- app_assoc.
Qed.

(** The numbers of the records made are below the counter. *)
Lemma made_below cap s i x r : einv cap 0 s -> es_futures s !! i = Some x -> record_of x = Some r ->
  Ev.rec_sequence_id r < es_counter s.
Proof.
  intros Hi Hx Hr. pose proof (ei_below _ _ _ Hi) as Hb. rewrite Forall_forall in Hb. apply Hb. apply list_elem_of_fmap.
  exists r. split; [done|]. apply list_elem_of_omap. exists x. split; [by apply list_elem_of_lookup_2 in Hx|done].
Qed.

Lemma sent_numbers cap s : einv cap 0 s -> NoDup (ids (es_sent s)).
Proof.
  intros Hi. rewrite <- (ids_perm _ _ (ei_sent _ _ _ Hi)). pose proof (ei_numbers _ _ _ Hi) as Hn.
  eapply sublist_NoDup; [exact Hn|]. apply fmap_sublist. clear. induction (es_futures s) as [|f l IH]; [done|].
  cbn [omap list_omap]. destruct f; cbn; by repeat constructor.
Qed.

(** C35: Emissions through the clones of one emitter.  In any interleaving of
    calls of [emit] and [try_emit], accesses of their futures, futures dropped
    while they wait, receptions and the receiver going away: every future is
    that of its call, and only calls that do not wait are refused for lack of
    room; what has been sent is exactly the records of the futures that say so,
    each once, and no two records made, sent or not, have the same number; the
    channel never holds more than its capacity; a future fails as closed only
    when the receiver is gone.  Waiting is fair: a future that waits has a place
    in the queue, and in whatever happens next, as long as it is not dropped and
    the receiver stays, once more records have been received than futures wait
    before it, its next two accesses send its record. *)
Theorem emission_once cap ops :
  Z.of_nat (length ops) < 2 ^ 64 - 1 ->
  let s := erun ops (es_start cap) in
  Forall2 of_call (asked ops) (es_futures s) /\
  omap sent_of (es_futures s) ≡ₚ es_sent s /\
  NoDup (ids (omap record_of (es_futures s))) /\
  (length (slots (es_channel s)) <= cap)%nat /\
  (forall i r, es_futures s !! i = Some (Failed SendClosed r) -> is_open (es_channel s) = false) /\
  (forall i r, es_futures s !! i = Some (Waiting r) -> is_open (es_channel s) = true ->
     exists k, waiters (es_channel s) !! k = Some i /\
     forall ops2 t1 t2, Z.of_nat (length ops + length ops2) < 2 ^ 64 - 1 -> EClose ∉ ops2 -> EDrop i ∉ ops2 ->
       (length (es_received s) + k < length (es_received (erun ops2 s)))%nat ->
       es_futures (erun [EPoll i t1; EPoll i t2] (erun ops2 s)) !! i = Some (Sent r)).
Proof.
  intros Hn s. destruct (einv_run cap ops (es_start cap)) as [Hi Hc]; [apply einv_start|done|cbn; lia|]. fold s in Hi, Hc.
  pose proof (calls_run ops [] (es_start cap) ltac:(constructor)) as Hcalls. cbn in Hc.
  pose proof Hi as [Hs Hd Hb Hp Hq Ho Hbusy Hcl]. split_and!; [done..|lia|done|].
  intros i r Hf Hopen. destruct (list_elem_of_lookup_1 _ _ (proj2 (Hq i) (conj Hopen (ex_intro _ r Hf)))) as [k Hk]. exists k. split; [done|].
  intros ops2 t1 t2 Hn2 Hc2 Hd2 Hr. destruct (fair_run cap i r ops2 k s) as [Ho2 Hsv];
    [done|lia|lia|done|done|done|right; by split_and!|].
  by apply served_polls.
Qed.

(** A channel of one slot: a call that does not wait takes it, a second one is
    refused, and two that wait are served in the order they queued, whoever
    is polled first. *)
Definition ex_emissions : list EOp :=
  [ENew false (ping 1); EPoll 0 1; EPoll 0 1; EPoll 0 1; ENew true (ping 2); EPoll 1 2; EPoll 1 2;
   ENew true (ping 3); EPoll 2 3; EPoll 2 3; ENew false (ping 4); EPoll 3 4; EPoll 3 4].

Lemma emission_once_witness :
  let s := erun ex_emissions (es_start 1) in
  es_futures s = [Sent (Ev.mkRecord 1 1 (ping 1)); Waiting (Ev.mkRecord 2 2 (ping 2)); Waiting (Ev.mkRecord 3 3 (ping 3));
                  Failed SendFull (Ev.mkRecord 4 4 (ping 4))] /\
  ids (es_sent s) = [1] /\
  es_futures (erun [ERecv; EPoll 2 5; EPoll 1 5; EPoll 1 5; ERecv; EPoll 2 6; EPoll 2 6] s) !! 2%nat =
    Some (Sent (Ev.mkRecord 3 3 (ping 3))).
Proof.
  cbv zeta. split_and!; [reflexivity|reflexivity|].
  destruct (emission_once 1 ex_emissions) as (_ & _ & _ & _ & _ & Hw); [cbn; lia|].
  destruct (Hw 2%nat (Ev.mkRecord 3 3 (ping 3)) eq_refl eq_refl) as (k & Hk & Hf).
  assert (k = 1%nat) as -> by (destruct k as [|[|k]]; vm_compute in Hk; congruence).
  apply (Hf [ERecv; EPoll 2 5; EPoll 1 5; EPoll 1 5; ERecv] 6 6); [cbn; lia| | |vm_compute; lia];
    rewrite !elem_of_cons, elem_of_nil; naive_solver.
Defined.

(** One sender at a time is [EventBus.try_emit]. *)
Lemma try_emit_alone cap s i ev now t2 t3 :
  einv cap 0 s -> waiters (es_channel s) = [] -> omap permit_of (es_futures s) = [] ->
  es_futures s !! i = Some (NotStarted false ev) ->
  let s' := erun [EPoll i now; EPoll i t2; EPoll i t3] s in
  let '(o, e) := try_emit now ev (mkEmitter (mkChannel (slots (es_channel s)) cap (is_open (es_channel s))) (es_counter s)) in
  e = mkEmitter (mkChannel (slots (es_channel s')) cap (is_open (es_channel s'))) (es_counter s') /\
  (is_ok o = true <-> es_futures s' !! i = Some (Sent (Ev.mkRecord (es_counter s) now ev))).
Proof.
  intros Hi Hw Hp Hf. pose proof (ei_permits _ _ _ Hi) as Hper. rewrite Hp in Hper. cbn in Hper.
  assert (i < length (es_futures s))%nat as Hlt by (by eapply lookup_lt_Some).
  set (r := Ev.mkRecord (es_counter s) now ev). set (s1 := stamp i false now ev s).
  assert (poll i now s = s1) as E1 by (unfold poll; by rewrite Hf).
  assert (es_futures s1 !! i = Some (Stamped false r)) as Hf1 by (by apply list_lookup_insert_eq).
  assert (poll i t2 s1 = ask_permit i false r s1) as E2 by (unfold poll; by rewrite Hf1).
  assert (forall f, es_futures (set_future i f s1) !! i = Some f) as Hset.
  { intros f. cbn. apply list_lookup_insert_eq. by rewrite length_insert. }
  cbn [erun fold_left estep]. rewrite E1, E2. unfold ask_permit. cbn [es_channel s1 stamp].
  unfold try_emit, make_record, next_sequence_id, try_send. cbn [sequence_counter tx chan chan_cap chan_open].
  destruct (is_open (es_channel s)) eqn:Ho; cbn [negb].
  2:{ unfold poll. rewrite Hset. split; [cbn; by rewrite ?Ho|]. split; [done|]. by rewrite Hset. }
  destruct (permits (es_channel s)) as [|n] eqn:En.
  - rewrite (proj2 (Nat.leb_le _ _)) by lia. unfold poll. rewrite Hset. split; [cbn; by rewrite ?Ho|]. split; [done|]. by rewrite Hset.
  - rewrite (proj2 (Nat.leb_gt _ _)) by lia. unfold poll.
    change (es_futures (set_permits n (set_future i (Permitted r) s1))) with (es_futures (set_future i (Permitted r) s1)).
    rewrite Hset. split; [cbn; by rewrite Ho|]. split; [intros _|done]. cbn. apply list_lookup_insert_eq.
    by rewrite !length_insert.
Qed.
