(* ===== verification/Sampling.v ===== *)
(** * Hotness sampling: [ghost-linux/src/damon.rs] and [hotness_provider.rs],
    the region half of [ghost-daemon/src/hotness_tracker.rs] and the
    monitoring task of [ghost-daemon/src/orchestrator.rs]

    A provider samples the temperature of address ranges: from the files of
    DAMON, from a linear congruential generator or from a seeded generator.
    The tracker keeps a summary, a confidence and a history of the samples of
    its provider, and the monitoring task of the daemon reports every sample as
    three events.  A provider builds the future of an event of its own and
    drops it, so that the event is never emitted. *)

From Stdlib Require Import ZArith Lia Ascii.
From stdpp Require Import base gmap strings pretty list sorting.
From S2P Require Import Prelude Floats CoreTypes Events EventBus Regions LinuxSources LinuxSim Emitter.

Open Scope rust_scope.

(** [let _ = emitter.event(..)] without [.await]: the future is dropped. *)
Definition discard {S E} (f : Emission) : M S E unit := ret tt.

(** ** The interface of a provider

    [sample now] is [sample] at clock reading [now]; [provider_emitter] is the
    emitter the provider holds. *)

Class HotnessProvider (P : Type) := {
  provider_name : P -> string;
  sample : Z -> M P GhostError HotnessSnapshot;
  provider_emitter : P -> EventEmitter;
}.

Definition is_hot (s : HotnessSample) : bool := match temperature s with Hot => true | _ => false end.
Definition is_cold (s : HotnessSample) : bool := temp_is_inactive (temperature s).
Definition count (f : HotnessSample -> bool) (l : list HotnessSample) : Z :=
  Z.of_nat (length (filter (fun s => f s = true) l)).

(** ** DAMON *)

Record DamonConfig := mkDamonConfig {
  nr_regions_max : Z;
  hot_threshold : Z;
  cold_threshold : Z;
  frozen_threshold : Z;
  sampling_interval_ms : Z;
  update_interval_ms : Z;
}.
Definition DamonConfig_default : DamonConfig := mkDamonConfig 1024 100 20 1 1000 1000.

Record DamonState := mkDamonState { is_running : bool; last_update_ : Z; regions_count : Z }.
Definition DamonState_default : DamonState := mkDamonState false 0 0.

Record DamonRegion := mkRegion { rg_start : Z; rg_end : Z; nr_accesses : Z; age : Z }.

(** The directory of DAMON: whether it exists, [nr_regions], [regions/<i>]. *)
Record DamonFs := mkDamonFs { df_exists : bool; df_nr : Text; df_region : nat -> Text }.

Record DamonHotnessProvider := mkDamon {
  dp_config : DamonConfig;
  dp_fs : DamonFs;
  dp_emitter : EventEmitter;
  dp_state : DamonState;
}.

Definition check_availability (p : DamonHotnessProvider) : bool := df_exists (dp_fs p).

(** [from_str_radix(s, 16)] *)
Definition hex_value_of (a : ascii) : option Z :=
  let n := Z.of_N (N_of_ascii a) in
  if (48 <=? n) && (n <=? 57) then Some (n - 48)
  else if (97 <=? n) && (n <=? 102) then Some (n - 87)
  else if (65 <=? n) && (n <=? 70) then Some (n - 55)
  else None.
Fixpoint hex_digits (s : string) (acc : Z) : option Z :=
  match s with
  | EmptyString => Some acc
  | String a s => match hex_value_of a with Some d => hex_digits s (acc * 16 + d) | None => None end
  end.
Definition hex_unsigned (s : string) : option Z := match s with EmptyString => None | _ => hex_digits s 0 end.
Definition parse_hex (s : string) : option Z :=
  Str.checked 0 (2 ^ 64)
    (match s with String a t => if bool_decide (a = Str.plus) then hex_unsigned t else hex_unsigned s | EmptyString => None end).

Definition parse_address (s : string) : outcome GhostError Z :=
  match s with
  | String "0" (String "x" t) | String "0" (String "X" t) => ok_or (EInternal ("Failed to parse hex address '" +:+ s +:+ "'")) (parse_hex t)
  | _ => ok_or (EInternal ("Failed to parse decimal address '" +:+ s +:+ "'")) (Str.parse_u 64 s)
  end.

Definition parse_region (content : string) : outcome GhostError DamonRegion :=
  match Str.split_whitespace (Str.trim content) with
  | a :: b :: c :: d :: _ =>
      let? start := parse_address a in
      let? fin := parse_address b in
      let? n := ok_or (EInternal "Failed to parse DAMON region nr_accesses") (Str.parse_u 64 c) in
      let? g := ok_or (EInternal "Failed to parse DAMON region age") (Str.parse_u 64 d) in
      Ok (mkRegion start fin n g)
  | l => Err (EInternal ("Invalid DAMON region format: expected 4 fields, got " +:+ pretty (Z.of_nat (length l))))
  end.

(** [read_to_string], its error with a message of its own. *)
Definition damon_file (what : string) (t : Text) : outcome GhostError string :=
  map_err (fun _ => EIo ("Failed to read DAMON " +:+ what)) t.

Fixpoint read_each (fs : DamonFs) (is_ : list nat) : outcome GhostError (list DamonRegion) :=
  match is_ with
  | [] => Ok []
  | i :: is_ =>
      let? content := damon_file ("region " +:+ pretty (Z.of_nat i)) (df_region fs i) in
      let? r := parse_region content in
      let? rs := read_each fs is_ in
      Ok (r :: rs)
  end.

Definition read_regions (p : DamonHotnessProvider) : outcome GhostError (list DamonRegion) :=
  let? text := damon_file "nr_regions" (df_nr (dp_fs p)) in
  let? nr := ok_or (EInternal "Failed to parse DAMON nr_regions") (Str.parse_u 64 (Str.trim text)) in
  read_each (dp_fs p) (seq 0 (Z.to_nat (Z.min nr (nr_regions_max (dp_config p))))).

Definition classify_temperature (c : DamonConfig) (accesses : Z) : Temperature :=
  if hot_threshold c <=? accesses then Hot
  else if cold_threshold c <=? accesses then Warm
  else if frozen_threshold c <=? accesses then Cold
  else Frozen.

Definition region_sample (c : DamonConfig) (r : DamonRegion) : HotnessSample :=
  mkSample (mkRange (rg_start r) (rg_end r)) (nr_accesses r) (classify_temperature c (nr_accesses r)).

Definition to_snapshot (c : DamonConfig) (now : Z) (l : list DamonRegion) : HotnessSnapshot :=
  mkHSnap (region_sample c <$> l) now.

Definition sampled (name : string) (s : HotnessSnapshot) : Emission :=
  hotness_sampled name (Z.of_nat (length (samples s))) (count is_hot (samples s)) (count is_cold (samples s)).

Definition damon_sample (now : Z) : M DamonHotnessProvider GhostError HotnessSnapshot :=
  available <- gets check_availability ;;
  (if available then ret tt else throw (ProviderUnavailable "DAMON not available")) ;;;
  p <- gets id ;;
  regions <- lift (read_regions p) ;;
  let snapshot := to_snapshot (dp_config p) now regions in
  discard (sampled "damon" snapshot) ;;;
  ret snapshot.

#[export] Instance damon_provider : HotnessProvider DamonHotnessProvider :=
  {| provider_name _ := "damon"; sample := damon_sample; provider_emitter := dp_emitter |}.

(** ** The simulated DAMON *)

Record SimulatedDamonProvider := mkSimDamon {
  sd_config : DamonConfig;
  sd_emitter : EventEmitter;
  sd_seed : Z;
  sd_num_regions : nat;
}.

Definition lcg (state : Z) : Z := wrap 64 (wrap 64 (state * 6364136223846793005) + 1442695040888963407).

Definition sim_region (b : Build) (i : nat) (state : Z) : outcome GhostError DamonRegion :=
  let? off := arith b 64 (Z.of_nat i * 65536) in
  let? base := arith b 64 (139637976727552 + off) in
  let? fin := arith b 64 (base + 65536) in
  Ok (mkRegion base fin (Z.shiftr state 32 mod 200) (Z.shiftr state 48 mod 10000 + 1)).

Fixpoint generate_from (b : Build) (i n : nat) (state : Z) : outcome GhostError (list DamonRegion) :=
  match n with
  | O => Ok []
  | S n =>
      let state := lcg state in
      let? r := sim_region b i state in
      let? rs := generate_from b (S i) n state in
      Ok (r :: rs)
  end.
Definition generate_regions (b : Build) (p : SimulatedDamonProvider) : outcome GhostError (list DamonRegion) :=
  generate_from b 0 (sd_num_regions p) (sd_seed p).

Definition sim_damon_sample (b : Build) (now : Z) : M SimulatedDamonProvider GhostError HotnessSnapshot :=
  p <- gets id ;;
  regions <- lift (generate_regions b p) ;;
  let snapshot := to_snapshot (sd_config p) now regions in
  discard (sampled "simulated_damon" snapshot) ;;;
  ret snapshot.

Definition sim_damon_provider (b : Build) : HotnessProvider SimulatedDamonProvider :=
  {| provider_name _ := "simulated_damon"; sample := sim_damon_sample b; provider_emitter := sd_emitter |}.

(** ** The mock provider *)

Record MockHotnessConfig := mkMockConfig {
  num_ranges : nat;
  mock_seed : Z;
  base_access_count : Z;
  hot_probability : float;
}.
Definition MockHotnessConfig_default : MockHotnessConfig := mkMockConfig 16 42 1 (lit f32 1 4).

Section mock.
Context `{RangeRng}.

Record MockHotnessProvider := mkMock { mk_config : MockHotnessConfig; mk_rng : rr_state; mk_emitter : EventEmitter }.
Definition Mock_new (c : MockHotnessConfig) (e : EventEmitter) : MockHotnessProvider := mkMock c (rr_seed (mock_seed c)) e.

Definition generate_address_range (b : Build) (i : nat) : outcome GhostError AddressRange :=
  let? off := arith b 64 (Z.of_nat i * 4096) in
  let? base := arith b 64 (139637976727552 + off) in
  let? fin := arith b 64 (base + 4096) in
  Ok (mkRange base fin).

Definition generate_access_count (b : Build) : M MockHotnessProvider GhostError Z :=
  p <- gets id ;;
  a <- lift (draw 0 200 (mk_rng p)) ;;
  modify (fun p => mkMock (mk_config p) a.2 (mk_emitter p)) ;;;
  lift (arith b 64 (base_access_count (mk_config p) + a.1)).

Fixpoint mock_ranges (b : Build) (i n : nat) : M MockHotnessProvider GhostError (list HotnessSample) :=
  match n with
  | O => ret []
  | S n =>
      range <- lift (generate_address_range b i) ;;
      a <- generate_access_count b ;;
      rest <- mock_ranges b (S i) n ;;
      ret (mkSample range a (from_access_count a) :: rest)
  end.

Definition mock_sample (b : Build) (now : Z) : M MockHotnessProvider GhostError HotnessSnapshot :=
  p <- gets id ;;
  l <- mock_ranges b 0 (num_ranges (mk_config p)) ;;
  let snapshot := mkHSnap l now in
  discard (sampled "mock" snapshot) ;;;
  ret snapshot.

Definition mock_provider (b : Build) : HotnessProvider MockHotnessProvider :=
  {| provider_name _ := "mock"; sample := mock_sample b; provider_emitter := mk_emitter |}.
End mock.

(** ** Metrics of the providers *)

Record HotnessMetrics := mkHM { samples_total : Z; hot_regions : Z; cold_regions : Z }.
Definition HotnessMetrics_new : HotnessMetrics := mkHM 0 0 0.
Definition record_snapshot (s : HotnessSnapshot) (m : HotnessMetrics) : HotnessMetrics :=
  mkHM (wrap 64 (samples_total m + 1)) (count is_hot (samples s)) (count is_cold (samples s)).

(** ** The tracker's view of regions *)

Record HotnessState := mkHState {
  st_summary : HotnessSummary;
  st_confidence : HotnessConfidence;
  st_history : HotnessHistory;
  st_last_update : Z;
}.
Definition no_sample : HotnessSnapshot := mkHSnap [] 0.

Section tracker.
Variable b : Build.

Definition State_empty : outcome GhostError HotnessState :=
  let? s := from_snapshot b no_sample in
  let? c := calculate b no_sample [] in
  Ok (mkHState s c (HotHistory_new 64) 0).

Definition update (snapshot : HotnessSnapshot) : M HotnessState GhostError unit :=
  history <- gets (fun st => hist_snapshots (st_history st)) ;;
  summary <- lift (from_snapshot b snapshot) ;;
  modify (fun st => mkHState summary (st_confidence st) (st_history st) (st_last_update st)) ;;;
  confidence <- lift (calculate b snapshot history) ;;
  modify (fun st => mkHState (st_summary st) confidence (hist_push snapshot (st_history st)) (snap_timestamp snapshot)).

Context {P : Type} `{HP : HotnessProvider P}.

Record RegionTracker := mkRTracker {
  rt_provider : option P;
  rt_state : HotnessState;
  rt_interval : Z;
}.

Definition set_hotness_provider (p : option P) (t : RegionTracker) : RegionTracker := mkRTracker p (rt_state t) (rt_interval t).
Definition has_hotness_provider (t : RegionTracker) : bool := match rt_provider t with Some _ => true | None => false end.
Definition set_sampling_interval (n : Z) (t : RegionTracker) : RegionTracker := mkRTracker (rt_provider t) (rt_state t) n.

Definition sample_hotness (now : Z) : M RegionTracker GhostError (option HotnessState) := fun t =>
  match rt_provider t with
  | None => (Ok None, t)
  | Some p =>
      match sample now p with
      | (Ok snapshot, p') =>
          match update snapshot (rt_state t) with
          | (Ok _, st) => (Ok (Some st), mkRTracker (Some p') st (rt_interval t))
          | (Err e, st) => (Err e, mkRTracker (Some p') st (rt_interval t))
          | (Panic m, st) => (Panic m, mkRTracker (Some p') st (rt_interval t))
          end
      | (Err _, p') => (Ok None, mkRTracker (Some p') (rt_state t) (rt_interval t))
      | (Panic m, p') => (Panic m, mkRTracker (Some p') (rt_state t) (rt_interval t))
      end
  end.

(** [{:x}] of a [u64]. *)
Fixpoint hex_go (fuel : nat) (z : Z) (s : string) : string :=
  match fuel with
  | O => s
  | S fuel => if z =? 0 then s else hex_go fuel (z / 16) (String (hex_digit (Z.to_N (z mod 16))) s)
  end.
Definition lower_hex (z : Z) : string := if z =? 0 then "0"%string else hex_go 16 z EmptyString.

Definition region_label (r : AddressRange) : string := lower_hex (ar_start r) +:+ "-" +:+ lower_hex (ar_end r).

Definition regions_where (f : Temperature -> bool) (t : RegionTracker) : list (string * Temperature) :=
  match last (hist_snapshots (st_history (rt_state t))) with
  | Some latest =>
      (fun s => (region_label (address_range s), temperature s)) <$> filter (fun s => f (temperature s) = true) (samples latest)
  | None => []
  end.
Definition get_hot_regions : RegionTracker -> list (string * Temperature) := regions_where temp_is_active.
Definition get_cold_regions : RegionTracker -> list (string * Temperature) := regions_where temp_is_inactive.
End tracker.
Arguments RegionTracker : clear implicits.

(** ** The monitoring task of the daemon

    A tick samples; a sample is reported as three events, each awaited before
    the next, through a clone of the orchestrator's emitter.  The system of
    emissions is shared with everything else that emits: [MOther] is a step of
    the others, which may be any but one of the future the task awaits.  The
    provider may be replaced at any time; its name is read after the sample.
    [mo_samples] keeps the states sampled, [mo_log] those reported with the
    name read, [mo_mine] the task's futures. *)

Inductive MTask := MIdle | MSampled (st : HotnessState) | MEmitting (i : nat) (rest : list Ev.Event) | MDead.

Section monitor.
Context (b : Build) {P : Type} `{HP : HotnessProvider P}.

Record Monitor := mkMonitor {
  mo_tracker : RegionTracker P;
  mo_emits : bool;
  mo_system : ESystem;
  mo_task : MTask;
  mo_mine : list nat;
  mo_log : list (string * HotnessState);
  mo_samples : list HotnessState;
}.

Definition mo_set_tracker (t : RegionTracker P) (m : Monitor) : Monitor :=
  mkMonitor t (mo_emits m) (mo_system m) (mo_task m) (mo_mine m) (mo_log m) (mo_samples m).
Definition mo_set_system (s : ESystem) (m : Monitor) : Monitor :=
  mkMonitor (mo_tracker m) (mo_emits m) s (mo_task m) (mo_mine m) (mo_log m) (mo_samples m).
Definition mo_set_task (k : MTask) (m : Monitor) : Monitor :=
  mkMonitor (mo_tracker m) (mo_emits m) (mo_system m) k (mo_mine m) (mo_log m) (mo_samples m).
Definition mo_sampled (st : HotnessState) (m : Monitor) : Monitor :=
  mkMonitor (mo_tracker m) (mo_emits m) (mo_system m) (mo_task m) (mo_mine m) (mo_log m) (mo_samples m ++ [st]).
Definition mo_reported (n : string) (st : HotnessState) (m : Monitor) : Monitor :=
  mkMonitor (mo_tracker m) (mo_emits m) (mo_system m) (mo_task m) (mo_mine m) (mo_log m ++ [(n, st)]) (mo_samples m).

Definition tracker_provider_name (t : RegionTracker P) : string :=
  match rt_provider t with Some p => provider_name p | None => "none"%string end.

Definition summary_event (s : HotnessSummary) : Ev.Event :=
  Ev.HotnessSummaryUpdated 0 (hot_count s) (warm_count s) (cold_count s) (frozen_count s).
Definition confidence_event (c : HotnessConfidence) : Ev.Event :=
  Ev.HotnessConfidenceUpdated 0 "global" (conf_score c) (confidence_level_display (conf_level c)).

Definition mon_tick (now : Z) (m : Monitor) : Monitor :=
  match mo_task m with
  | MIdle =>
      let '(r, t) := sample_hotness b now (mo_tracker m) in
      let m := mo_set_tracker t m in
      match r with
      | Ok (Some st) => mo_set_task (if mo_emits m then MSampled st else MIdle) (mo_sampled st m)
      | Ok None => m
      | _ => mo_set_task MDead m
      end
  | _ => m
  end.

(** The future [f] is built, and awaited before [rest] is emitted. *)
Definition mon_await (f : Emission) (rest : list Ev.Event) (m : Monitor) : Monitor :=
  let s := mo_system m in
  let i := length (es_futures s) in
  mkMonitor (mo_tracker m) (mo_emits m) (set_futures (es_futures s ++ [f]) s) (MEmitting i rest)
    (mo_mine m ++ [i]) (mo_log m) (mo_samples m).

(** The next await point; the result of an emission is ignored. *)
Definition mon_next (rest : list Ev.Event) (m : Monitor) : Monitor :=
  match rest with
  | [] => mo_set_task MIdle m
  | ev :: rest => mon_await (emit ev) rest m
  end.

Definition is_done (f : Emission) : bool := match f with Sent _ | Failed _ _ => true | _ => false end.

Definition mon_poll (now : Z) (m : Monitor) : Monitor :=
  match mo_task m with
  | MSampled st =>
      let n := tracker_provider_name (mo_tracker m) in
      let s := st_summary st in
      mon_await (hotness_sampled n (total_regions s) (hot_count s) (cold_count s))
        [summary_event s; confidence_event (st_confidence st)] (mo_reported n st m)
  | MEmitting i rest =>
      let m := mo_set_system (poll i now (mo_system m)) m in
      match es_futures (mo_system m) !! i with
      | Some f => if is_done f then mon_next rest m else m
      | None => m
      end
  | _ => m
  end.

(** The others do not poll or drop the future the task awaits. *)
Definition of_task (o : EOp) (k : MTask) : bool :=
  match o, k with
  | EPoll j _, MEmitting i _ | EDrop j, MEmitting i _ => (i =? j)%nat
  | _, _ => false
  end.
Definition mon_other (o : EOp) (m : Monitor) : Monitor :=
  if of_task o (mo_task m) then m else mo_set_system (estep o (mo_system m)) m.

Inductive MonOp := MTick (now : Z) | MPoll (now : Z) | MSetProvider (p : option P) | MOther (o : EOp).
Definition mon_step (o : MonOp) (m : Monitor) : Monitor :=
  match o with
  | MTick now => mon_tick now m
  | MPoll now => mon_poll now m
  | MSetProvider p => mo_set_tracker (set_hotness_provider p (mo_tracker m)) m
  | MOther o => mon_other o m
  end.
Definition mon_run (ops : list MonOp) (m : Monitor) : Monitor := fold_left (fun m o => mon_step o m) ops m.
Definition mon_start (t : RegionTracker P) (emits : bool) (s : ESystem) : Monitor :=
  mkMonitor t emits s MIdle [] [] [].
End monitor.
Arguments MonOp : clear implicits.
Arguments Monitor : clear implicits.

(** ** What the monitoring task reports *)

(** The three events of a sample. *)
Definition sample_report (n : string) (st : HotnessState) : list Ev.Event :=
  let s := st_summary st in
  [Ev.HotnessSampled 0 n (total_regions s) (hot_count s) (cold_count s); summary_event s; confidence_event (st_confidence st)].

(** A state sampled: its summary is that of the newest snapshot. *)
Definition faithful (b : Build) (st : HotnessState) : Prop :=
  exists snap, last (hist_snapshots (st_history st)) = Some snap /\
    from_snapshot b snap = @Ok GhostError _ (st_summary st) /\ st_last_update st = snap_timestamp snap.

(** The records the task has sent. *)
Definition own_sent {P} (m : Monitor P) : list Ev.EventRecord :=
  omap (fun i => es_futures (mo_system m) !! i ≫= sent_of) (mo_mine m).

(** The event a future is to send. *)
Definition event_of (f : Emission) : option Ev.Event :=
  match f with NotStarted _ ev => Some ev | f => Ev.rec_event <$> record_of f end.

(** The reports of the samples logged, and the events of them that are still
    to be sent: the one awaited and the ones after it. *)
Definition reports {P} (m : Monitor P) : list Ev.Event := mo_log m ≫= (fun x => sample_report x.1 x.2).
Definition pending {P} (m : Monitor P) : list Ev.Event :=
  match mo_task m with
  | MEmitting i rest => option_list (es_futures (mo_system m) !! i ≫= event_of) ++ rest
  | _ => []
  end.

Lemma last_trim {A} fuel max (l : list A) x : (0 < max)%nat -> last l = Some x -> last (trim fuel max l) = Some x.
Proof.
  revert l. induction fuel as [|fuel IH]; intros l Hm Hl; [done|]. cbn [trim].
  destruct (Nat.ltb_spec max (length l)); [|done]. apply IH; [done|].
  destruct l as [|y l]; [done|]. cbn [drop]. destruct l as [|z l]; [cbn in *; lia|]. done.
Qed.

Lemma update_faithful b snap st st' :
  (0 < max_snapshots (st_history st))%nat -> update b snap st = (Ok tt, st') ->
  faithful b st' /\ max_snapshots (st_history st') = max_snapshots (st_history st).
Proof.
  unfold update, bind, gets, lift, modify. cbn [st_history st_summary st_confidence st_last_update].
  destruct (from_snapshot b snap) as [s|?|?] eqn:Es; [|done..]. cbn [st_history st_summary st_confidence st_last_update].
  destruct (calculate b snap _) as [c|?|?]; [|done..]. intros Hm [= <-].
  split; [|done]. exists snap. cbn [st_history st_summary st_last_update]. split_and!; [|done..].
  unfold hist_push. cbn [hist_snapshots]. apply last_trim; [done|]. by rewrite last_snoc.
Qed.

Lemma update_max b snap st : max_snapshots (st_history (update b snap st).2) = max_snapshots (st_history st).
Proof.
  unfold update, bind, gets, lift, modify. destruct (from_snapshot b snap); [|done..].
  cbn [st_history]. by destruct (calculate b snap _).
Qed.

Section monitor_facts.
Context (b : Build) {P : Type} `{HP : HotnessProvider P}.
Implicit Types (m : Monitor P).

Definition tracker_ok (t : RegionTracker P) : Prop := (0 < max_snapshots (st_history (rt_state t)))%nat.

Lemma sample_hotness_ok now t : tracker_ok t ->
  tracker_ok (sample_hotness b now t).2 /\
  forall st, (sample_hotness b now t).1 = Ok (Some st) -> faithful b st.
Proof.
  intros Ht. unfold sample_hotness. destruct (rt_provider t) as [p|]; [|done].
  destruct (sample now p) as [[snap|e|k] p']; [|done..].
  pose proof (update_max b snap (rt_state t)) as Hm. pose proof (update_faithful b snap (rt_state t)) as Hf.
  destruct (update b snap (rt_state t)) as [[[]|e|k] st']; unfold tracker_ok in *; cbn [fst snd rt_state] in *; rewrite Hm;
    (split; [done|]); intros st Hst; simplify_eq/=.
  by apply (Hf st).
Qed.

Definition rest_of (k : MTask) : list Ev.Event := match k with MEmitting _ rest => rest | _ => [] end.
Definition is_sent (f : Emission) : Prop := exists r, f = Sent r.
Definition is_lost (f : Emission) : Prop := exists r, f = Failed SendClosed r.
Definition at_start (f : Emission) : Prop := match f with NotStarted _ _ | Stamped _ _ => True | _ => False end.
Definition under_way (f : Emission) : Prop := is_done f = false /\ f <> Dropped.

(** The futures of a task in a system: sent ones, then, when the receiver is
    gone, lost ones, then the one it awaits; and the events of their calls. *)
Record kept (s : ESystem) (mine : list nat) (sent lost cur : list Emission) (evs : list Ev.Event) : Prop := {
  kp_states : Forall2 (fun i f => es_futures s !! i = Some f) mine (sent ++ lost ++ cur);
  kp_calls : Forall2 (fun ev f => of_call (true, ev) f) evs (sent ++ lost ++ cur);
  kp_sent : Forall is_sent sent;
  kp_lost : Forall is_lost lost;
  kp_closed : lost <> [] -> is_open (es_channel s) = false /\ Forall at_start cur;
  kp_order : omap sent_of sent `sublist_of` es_sent s;
  kp_numbers : StronglySorted Z.lt (ids (omap record_of (sent ++ lost ++ cur)));
}.

Definition awaits (k : MTask) (mine : list nat) (cur : list Emission) : Prop :=
  match k with
  | MEmitting i _ => exists f, cur = [f] /\ under_way f /\ last mine = Some i
  | _ => cur = []
  end.

Record mon_inv (cap : nat) (m : Monitor P) : Prop := {
  mi_system : einv cap 0 (mo_system m);
  mi_counter : 1 <= es_counter (mo_system m);
  mi_tracker : tracker_ok (mo_tracker m);
  mi_own : exists sent lost cur evs, kept (mo_system m) (mo_mine m) sent lost cur evs /\
    awaits (mo_task m) (mo_mine m) cur /\ evs ++ rest_of (mo_task m) = reports m;
  mi_rest : (length (rest_of (mo_task m)) <= 2)%nat;
  mi_samples : if mo_emits m then mo_samples m = (mo_log m).*2 ++ match mo_task m with MSampled st => [st] | _ => [] end
    else mo_log m = [] /\ match mo_task m with MIdle | MDead => True | _ => False end;
  mi_faithful : Forall (faithful b) (mo_samples m);
}.

Lemma mon_tick_inv cap now m : mon_inv cap m -> mon_inv cap (mon_tick b now m).
Proof.
  intros Hi. pose proof Hi as [Hs Hc Ht Ho Hr Hsm Hf]. unfold mon_tick.
  destruct (mo_task m) as [|st|i rest|] eqn:Et; try done.
  destruct (sample_hotness_ok now (mo_tracker m) Ht) as [Ht' Hst].
  destruct (sample_hotness b now (mo_tracker m)) as [[[st|]|e|k] t]; cbn [fst snd] in *.
  - split; cbn; try done.
    + by destruct (mo_emits m).
    + destruct (mo_emits m); cbn; lia.
    + destruct (mo_emits m); [by rewrite app_nil_r in Hsm; rewrite Hsm|by destruct Hsm].
    + apply Forall_app. split; [done|]. constructor; [by apply Hst|done].
  - by split; cbn; rewrite ?Et.
  - by split; cbn.
  - by split; cbn.
Qed.

(** A new future after finished ones. *)
Lemma kept_await s mine sent lost evs ev :
  kept s mine sent lost [] evs ->
  kept (set_futures (es_futures s ++ [emit ev]) s) (mine ++ [length (es_futures s)]) sent lost [emit ev] (evs ++ [ev]).
Proof.
  intros [H1 H2 H3 H4 H5 H6 H7]. rewrite app_nil_r in H1, H2, H7. split; cbn; try done.
  - rewrite app_assoc. apply Forall2_app; [|constructor; [|constructor]].
    + eapply Forall2_impl; [exact H1|]. intros i f. by apply lookup_app_l_Some.
    + by apply list_lookup_middle.
  - rewrite app_assoc. apply Forall2_app; [done|]. by repeat constructor.
  - intros Hl. split; [by apply H5|by repeat constructor].
  - rewrite app_assoc, omap_app. cbn. by rewrite app_nil_r.
Qed.

(** How the awaited future of a call with [wait] moves. *)
Lemma poll_moves cap i now s f ev :
  einv cap 0 s -> es_futures s !! i = Some f -> of_call (true, ev) f -> under_way f ->
  exists f', es_futures (poll i now s) !! i = Some f' /\ of_call (true, ev) f' /\
    (record_of f' = record_of f \/
     exists r, record_of f = None /\ record_of f' = Some r /\ Ev.rec_sequence_id r = es_counter s) /\
    ((exists r, f' = Sent r /\ ~ at_start f /\ es_sent (poll i now s) = es_sent s ++ [r]) \/
     (is_lost f' /\ is_open (es_channel s) = false) \/
     (under_way f' /\ (is_open (es_channel s) = false -> at_start f -> at_start f'))).
Proof.
  intros Hi Hf Hcall [Hu Hd]. assert (i < length (es_futures s))%nat as Hlt by (by eapply lookup_lt_Some).
  unfold poll. rewrite Hf. destruct f as [w e|w r|r|r|r|r|e r|]; try done; cbn in Hcall.
  - destruct Hcall as [-> ->]. unfold stamp. cbn. rewrite list_lookup_insert_eq by done. eexists. split; [done|].
    split; [done|]. split; [right; by eexists|]. right; right. by split.
  - destruct Hcall as [-> He]. unfold ask_permit.
    destruct (is_open (es_channel s)) eqn:Ho; cbn [negb]; [destruct (permits _)|]; cbn; rewrite list_lookup_insert_eq by done;
      eexists; (split; [done|]; split; [done|]; split; [by left|]); [by right; right..|].
    right; left. split; [by exists r|done].
  - destruct (is_open (es_channel s)) eqn:Ho.
    + rewrite Hf. eexists. split; [done|]. split; [done|]. split; [by left|]. by right; right.
    + cbn. rewrite list_lookup_insert_eq by done. eexists. split; [done|]. split; [apply Hcall|]. split; [by left|].
      right; left. split; [by exists r|done].
  - destruct (is_open (es_channel s)) eqn:Ho.
    + cbn. rewrite list_lookup_insert_eq by done. eexists. split; [done|]. split; [apply Hcall|]. split; [by left|]. by right; right.
    + exists (Failed SendClosed r). split; [|split; [apply Hcall|split; [by left|right; left; split; [by exists r|done]]]].
      assert (es_futures (set_future i (Failed SendClosed r) s) !! i = Some (Failed SendClosed r)) as Hx by (by apply list_lookup_insert_eq).
      destruct (release_keeps _ i _ Hx) as [H1|(r' & ? & _)]; done.
  - cbn. rewrite list_lookup_insert_eq by done. eexists. split; [done|]. split; [done|]. split; [by left|].
    left. exists r. split_and!; [done|by intros []|]. unfold es_sent. cbn. by rewrite app_assoc.
Qed.

(** Finished futures through any step. *)
Lemma kept_done cap o s mine l :
  einv cap 0 s -> Forall2 (fun i f => es_futures s !! i = Some f) mine l -> Forall (fun f => is_sent f \/ is_lost f) l ->
  Forall2 (fun i f => es_futures (estep o s) !! i = Some f) mine l.
Proof.
  intros Hi H2 Hl. induction H2 as [|i f mine l Hf _ IH]; [done|]. apply Forall_cons in Hl as [Hd Hl].
  constructor; [by eapply done_stays|by apply IH].
Qed.

Lemma done_list sent lost : Forall is_sent sent -> Forall is_lost lost -> Forall (fun f => is_sent f \/ is_lost f) (sent ++ lost).
Proof. intros H1 H2. apply Forall_app. split; eapply Forall_impl; try done; auto. Qed.

Lemma sublist_grows l o s : l `sublist_of` es_sent s -> l `sublist_of` es_sent (estep o s).
Proof.
  intros Hl. destruct (sent_grows o s) as [->|(i & now & r & _ & _ & ->)]; [done|]. by apply sublist_inserts_r.
Qed.

Lemma ids_below cap s mine l : einv cap 0 s -> Forall2 (fun i f => es_futures s !! i = Some f) mine l ->
  Forall (fun n => n < es_counter s) (ids (omap record_of l)).
Proof.
  intros Hi H2. apply Forall_forall. intros n (r & -> & (f & Hf & Hr)%list_elem_of_omap)%list_elem_of_fmap.
  apply list_elem_of_lookup in Hf as [k Hk]. destruct (Forall2_lookup_r _ _ _ _ _ H2 Hk) as (i & _ & Hx).
  by eapply made_below.
Qed.

(** The awaited future advances: it is still under way, or has become the
    last of the sent or of the lost ones. *)
Lemma kept_poll cap s mine sent lost f evs i now :
  einv cap 0 s -> kept s mine sent lost [f] evs -> under_way f -> last mine = Some i ->
  exists f', es_futures (poll i now s) !! i = Some f' /\
    ((under_way f' /\ kept (poll i now s) mine sent lost [f'] evs) \/
     (is_sent f' /\ kept (poll i now s) mine (sent ++ [f']) lost [] evs) \/
     (is_lost f' /\ kept (poll i now s) mine sent (lost ++ [f']) [] evs)).
Proof.
  intros Hi [H1 H2 H3 H4 H5 H6 H7] Hu Hl. change (poll i now s) with (estep (EPoll i now) s).
  rewrite app_assoc in H1, H2, H7. pose proof (done_list sent lost H3 H4) as Hdone.
  apply last_Some in Hl as [mine0 ->].
  apply Forall2_app_inv_r in H1 as (m1 & m2 & H1 & Hx & Em). apply Forall2_cons_inv_r in Hx as (i' & m3 & Hf & Hn & ->).
  apply Forall2_nil_inv_r in Hn as ->. apply app_inj_tail in Em as [-> <-].
  apply Forall2_app_inv_r in H2 as (e1 & e2 & H2 & Hx & ->). apply Forall2_cons_inv_r in Hx as (ev & e3 & Hcall & Hn & ->).
  apply Forall2_nil_inv_r in Hn as ->.
  destruct (poll_moves cap i now s f ev Hi Hf Hcall Hu) as (f' & Hf' & Hcall' & Hrec & Hcases).
  exists f'. split; [exact Hf'|]. pose proof (kept_done cap (EPoll i now) s _ _ Hi H1 Hdone) as H1'.
  assert (Forall2 (fun k f => es_futures (estep (EPoll i now) s) !! k = Some f) (m1 ++ [i]) ((sent ++ lost) ++ [f'])) as Hst.
  { apply Forall2_app; [exact H1'|]. by repeat constructor. }
  assert (Forall2 (fun ev f => of_call (true, ev) f) (e1 ++ [ev]) ((sent ++ lost) ++ [f'])) as Hca.
  { apply Forall2_app; [done|]. by repeat constructor. }
  assert (StronglySorted Z.lt (ids (omap record_of ((sent ++ lost) ++ [f'])))) as Hso.
  { unfold ids in *. rewrite omap_app, fmap_app in H7 |- *. cbn [omap list_omap] in *.
    destruct Hrec as [->|(r & _ & -> & Hr)]; [done|]. cbn. apply StronglySorted_app_2; [|by apply StronglySorted_app_1_l in H7|by repeat constructor].
    intros x y Hx ->%list_elem_of_singleton. rewrite Hr.
    pose proof (ids_below cap s _ _ Hi H1) as Hb. rewrite Forall_forall in Hb. by apply Hb. }
  assert (is_open (es_channel (estep (EPoll i now) s)) = is_open (es_channel s)) as Eo by (by apply step_open).
  destruct Hcases as [(r & -> & Hns & Hsent)|[[Hlost Ho]|[Hu' Hstart]]].
  - assert (lost = []) as ->.
    { destruct lost; [done|]. destruct H5 as [_ Hs]; [done|]. apply Forall_cons in Hs as [Hs _]. done. }
    right; left. split; [by exists r|]. rewrite app_nil_r in Hst, Hca, Hso. split; rewrite ?app_nil_r; try done.
    + apply Forall_app. split; [done|]. constructor; [by exists r|done].
    + change (estep (EPoll i now) s) with (poll i now s). rewrite Hsent, omap_app. by apply sublist_app.
  - right; right. split; [done|]. split; rewrite ?app_nil_r, ?(app_assoc sent); try done.
    + apply Forall_app. split; [done|]. by constructor.
    + intros _. rewrite Eo. by split.
    + by apply sublist_grows.
  - left. split; [done|]. split; rewrite ?(app_assoc sent); try done.
    + intros Hl. rewrite Eo. destruct (H5 Hl) as [Ho Hs]. split; [done|]. apply Forall_cons in Hs as [Hs _].
      constructor; [by apply Hstart|done].
    + by apply sublist_grows.
Qed.

(** The others leave the awaited future under way. *)
Lemma kept_others cap o s mine sent lost cur evs :
  einv cap 0 s -> kept s mine sent lost cur evs ->
  match cur with
  | [] => True
  | [f] => under_way f /\ exists i, last mine = Some i /\ targets o i = false
  | _ => False
  end ->
  exists cur', kept (estep o s) mine sent lost cur' evs /\
    match cur with [] => cur' = [] | _ => exists f', cur' = [f'] /\ under_way f' end.
Proof.
  intros Hi [H1 H2 H3 H4 H5 H6 H7] Hcur. rewrite app_assoc in H1, H2, H7.
  pose proof (done_list sent lost H3 H4) as Hdone. pose proof (sublist_grows _ o _ H6) as H6'.
  assert (is_open (es_channel s) = false -> is_open (es_channel (estep o s)) = false) as Hopen.
  { destruct o; try done; by rewrite step_open. }
  destruct cur as [|f [|]]; [|destruct Hcur as (Hu & i & Hl & Ht)|done].
  - exists []. split; [|done]. rewrite app_nil_r in H1, H2, H7. pose proof (kept_done cap o s _ _ Hi H1 Hdone) as H1'.
    split; rewrite ?app_nil_r, ?(app_assoc sent); try done. intros Hl. destruct (H5 Hl) as [Hx _]. split; [by apply Hopen|done].
  - apply last_Some in Hl as [mine0 ->].
    apply Forall2_app_inv_r in H1 as (m1 & m2 & H1 & Hx & Em). apply Forall2_cons_inv_r in Hx as (i' & m3 & Hf & Hn & ->).
    apply Forall2_nil_inv_r in Hn as ->. apply app_inj_tail in Em as [-> <-].
    pose proof (kept_done cap o s _ _ Hi H1 Hdone) as H1'.
    assert (forall f', es_futures (estep o s) !! i = Some f' -> (forall a, of_call a f -> of_call a f') -> record_of f' = record_of f ->
      (lost <> [] -> at_start f') -> kept (estep o s) (m1 ++ [i]) sent lost [f'] evs) as Hk.
    { intros f' Hf' Hcall Hrec Hs. split; rewrite ?(app_assoc sent); try done.
      - apply Forall2_app; [done|]. by repeat constructor.
      - apply Forall2_app_inv_r in H2 as (e1 & e2 & H2 & Hx & ->). apply Forall2_cons_inv_r in Hx as (ev & e3 & Hc & Hn & ->).
        apply Forall2_nil_inv_r in Hn as ->. apply Forall2_app; [done|]. constructor; [by apply Hcall|done].
      - intros Hl. destruct (H5 Hl) as [Hx _]. split; [by apply Hopen|]. constructor; [by apply Hs|done].
      - rewrite omap_app in H7 |- *. cbn [omap list_omap] in *. by rewrite Hrec. }
    destruct (others_keep cap o s i f Hi Ht Hf) as [Hf'|(r & -> & Hf' & Ho)].
    + exists [f]. split; [|by exists f]. apply Hk; [done..|]. intros Hl. destruct (H5 Hl) as [_ Hs].
      by apply Forall_cons in Hs as [Hs _].
    + exists [Granted r]. split; [|by exists (Granted r)]. apply Hk; [done|by intros [w e]|done|].
      intros Hl. destruct (H5 Hl) as [Ho' _]. congruence.
Qed.

Lemma await_inv cap m m0 ev rest sent lost evs :
  mon_inv cap m0 -> 1 <= es_counter (mo_system m) ->
  einv cap 0 (mo_system m) -> mo_tracker m = mo_tracker m0 -> mo_emits m = true -> mo_samples m = (mo_log m).*2 ->
  mo_samples m = mo_samples m0 ->
  kept (mo_system m) (mo_mine m) sent lost [] evs -> evs ++ ev :: rest = reports m -> (length rest <= 2)%nat ->
  mon_inv cap (mon_await (emit ev) rest m).
Proof.
  intros Hi Hc Hs Et Ee Esm Esm0 Hk Hev Hr. split; cbn; rewrite ?Et, ?Ee; try done.
  - by apply (einv_new cap _ true ev).
  - apply Hi.
  - exists sent, lost, [emit ev], (evs ++ [ev]). split; [by apply kept_await|]. split; [|by rewrite <- app_assoc].
    exists (emit ev). by rewrite last_snoc.
  - by rewrite app_nil_r.
  - rewrite Esm0. apply Hi.
Qed.

Lemma mon_poll_inv cap now m :
  mon_inv cap m -> in_u 64 (es_counter (mo_system m) + 1) -> mon_inv cap (mon_poll now m).
Proof.
  intros Hi Hw. pose proof Hi as [Hs Hc Ht (sent & lost & cur & evs & Hk & Ha & Hev) Hr Hsm Hf]. unfold mon_poll.
  destruct (mo_task m) as [|st|i rest|] eqn:Et; try done.
  - cbn in Ha. subst cur. cbn in Hev. rewrite app_nil_r in Hev. destruct (mo_emits m) eqn:Ee; [|by destruct Hsm].
    apply (await_inv cap _ m _ _ sent lost evs); cbn; try done; [by rewrite fmap_app|].
    unfold reports. cbn. rewrite bind_app. fold (reports m). by rewrite Hev.
  - destruct Ha as (f & -> & Hu & Hl).
    pose proof (einv_step cap (EPoll i now) _ Hs Hc Hw) as Hs'. cbn [estep] in Hs'.
    destruct (kept_poll cap _ _ _ _ _ _ _ now Hs Hk Hu Hl) as (f' & Hf' & Hcases). cbn. rewrite Hf'.
    assert (1 <= es_counter (poll i now (mo_system m))) as Hc'.
    { pose proof (counter_step (EPoll i now) (mo_system m) Hc) as Hx. cbn [estep] in Hx. unfold in_u in Hw. lia. }
    destruct Hcases as [[Hu' Hk']|Hcases].
    { destruct Hu' as [Hd Hu']. rewrite Hd. split; cbn; rewrite ?Et; try done.
      exists sent, lost, [f'], evs. split; [done|]. split; [|done]. exists f'. by split_and!. }
    assert (exists sent' lost', is_done f' = true /\ kept (poll i now (mo_system m)) (mo_mine m) sent' lost' [] evs)
      as (sent' & lost' & -> & Hk') by (destruct Hcases as [[[r ->] Hk']|[[r ->] Hk']]; eauto).
    destruct (mo_emits m) eqn:Ee; [|by destruct Hsm]. rewrite app_nil_r in Hsm. destruct rest as [|ev rest]; cbn [mon_next].
    + split; cbn; rewrite ?Ee, ?app_nil_r; try done; [|lia..]. exists sent', lost', [], evs. by split_and!.
    + eapply (await_inv cap _ m ev rest sent' lost' evs); cbn in *; try done; lia.
Qed.

Lemma mon_other_inv cap o m :
  mon_inv cap m -> in_u 64 (es_counter (mo_system m) + 1) -> mon_inv cap (mon_other o m).
Proof.
  intros Hi Hw. pose proof Hi as [Hs Hc Ht (sent & lost & cur & evs & Hk & Ha & Hev) Hr Hsm Hf]. unfold mon_other.
  destruct (of_task o (mo_task m)) eqn:Eo; [done|].
  pose proof (einv_step cap o _ Hs Hc Hw) as Hs'. pose proof (counter_step o _ Hc) as Hc'.
  split; cbn; try done; [unfold in_u in Hw; lia|].
  destruct (kept_others cap o _ _ sent lost cur evs Hs Hk) as (cur' & Hk' & Hcur).
  { destruct (mo_task m) as [|st|i rest|]; cbn in Ha; subst; try done. destruct Ha as (f & -> & Hu & Hl).
    split; [done|]. exists i. split; [done|]. destruct o; cbn in Eo |- *; try done; by rewrite Nat.eqb_sym. }
  exists sent, lost, cur', evs. split; [done|]. split; [|done].
  destruct (mo_task m) as [|st|i rest|]; cbn in Ha |- *; subst; try done.
  destruct Ha as (f & -> & Hu & Hl). destruct Hcur as (f' & -> & Hu'). by exists f'.
Qed.

Lemma mon_step_inv cap o m :
  mon_inv cap m -> in_u 64 (es_counter (mo_system m) + 1) -> mon_inv cap (mon_step b o m).
Proof.
  intros Hi Hw. destruct o as [now|now|p|o]; [by apply mon_tick_inv|by apply mon_poll_inv| |by apply mon_other_inv].
  destruct Hi. by split.
Qed.

Lemma mon_counter cap o m :
  mon_inv cap m -> es_counter (mo_system m) + 1 < 2 ^ 64 ->
  es_counter (mo_system (mon_step b o m)) <= es_counter (mo_system m) + 1.
Proof.
  intros Hi Hw. pose proof (mi_counter _ _ Hi) as Hc.
  destruct o as [now|now|p|o]; cbn [mon_step]; [|unfold mon_poll|cbn; lia|].
  - unfold mon_tick. destruct (mo_task m); try lia. destruct (sample_hotness _ _ _) as [[[]|?|?] ?]; cbn; lia.
  - pose proof (fun i => counter_step (EPoll i now) _ Hc Hw) as Hx. cbn [estep] in Hx.
    destruct (mo_task m) as [|st|i rest|]; try lia; cbn; [lia|]. specialize (Hx i).
    destruct (es_futures _ !! i) as [f|]; [destruct (is_done f); [destruct rest|]|]; cbn; lia.
  - unfold mon_other. case_match; [lia|]. pose proof (counter_step o _ Hc Hw). cbn. lia.
Qed.

Lemma mon_run_inv cap ops : forall m,
  mon_inv cap m -> es_counter (mo_system m) + Z.of_nat (length ops) < 2 ^ 64 -> mon_inv cap (mon_run b ops m).
Proof.
  induction ops as [|o ops IH]; intros m Hi Hb; [done|]. cbn [mon_run fold_left length] in *.
  pose proof (mi_counter _ _ Hi) as Hc. pose proof (mon_counter cap o m Hi ltac:(lia)).
  apply IH; [apply mon_step_inv; [done|unfold in_u; lia]|lia].
Qed.

(** What the task has sent, and the event it awaits. *)
Lemma own_sent_kept s mine sent lost cur evs :
  kept s mine sent lost cur evs -> Forall under_way cur ->
  omap (fun i => es_futures s !! i ≫= sent_of) mine = omap sent_of sent.
Proof.
  intros [H1 _ H3 H4 _ _ _] Hc. transitivity (omap sent_of (sent ++ lost ++ cur)).
  - clear -H1. induction H1 as [|i f mine l Hf _ IH]; [done|]. cbn [omap list_omap]. rewrite Hf. cbn [mbind option_bind]. by rewrite IH.
  - rewrite !omap_app. assert (omap sent_of lost = []) as ->.
    { clear -H4. induction H4 as [|f l [r ->] _ IH]; [done|]. exact IH. }
    assert (omap sent_of cur = []) as ->; [|by rewrite app_nil_r].
    clear -Hc. induction Hc as [|f l [Hf _] _ IH]; [done|]. cbn. by destruct f.
Qed.

Lemma sent_events evs sent :
  Forall2 (fun ev f => of_call (true, ev) f) evs sent -> Forall is_sent sent -> Ev.rec_event <$> omap sent_of sent = evs.
Proof.
  intros H2. induction H2 as [|ev f evs sent Hc _ IH]; [done|]. intros [[r ->] Hs]%Forall_cons.
  cbn. cbn in Hc. by rewrite Hc, IH.
Qed.

Lemma event_of_call ev f : of_call (true, ev) f -> under_way f -> event_of f = Some ev.
Proof. destruct f as [w e|w r|r|r|r|r|[] r|]; cbn; unfold under_way; naive_solver. Qed.

(** C36: The monitoring task.  It reports through a clone of an emitter that
    others use before and meanwhile in any way, on a channel that may go away,
    while its provider may be replaced.  However ticks, polls and all that
    interleave: every sample a tick takes is of the newest snapshot of the
    history, and is reported once, under the name of the provider at the time;
    the records the task has sent are among those sent in their order, with
    rising numbers of their own; their events are a first part of the reports,
    three events for each sample in a fixed order, and as long as the receiver
    is there, what is missing is only what the task is still to send, three
    events at most, none of them when it waits for the next tick. *)
Theorem monitoring_reports t emits cap ops0 ops :
  tracker_ok t -> Z.of_nat (length ops0 + length ops) < 2 ^ 64 - 1 ->
  let m := mon_run b ops (mon_start t emits (erun ops0 (es_start cap))) in
  let s := mo_system m in
  own_sent m `sublist_of` es_sent s /\ StronglySorted Z.lt (ids (own_sent m)) /\ NoDup (ids (es_sent s)) /\
  (Ev.rec_event <$> own_sent m) `prefix_of` reports m /\
  (is_open (es_channel s) = true -> (Ev.rec_event <$> own_sent m) ++ pending m = reports m) /\
  (length (pending m) <= 3)%nat /\ (mo_task m = MIdle -> pending m = []) /\
  (if emits then mo_samples m = (mo_log m).*2 ++ match mo_task m with MSampled st => [st] | _ => [] end else mo_log m = []) /\
  Forall (faithful b) (mo_samples m).
Proof.
  intros Ht Hn m s. destruct (einv_run cap ops0 (es_start cap)) as [Hi0 Hc0]; [apply einv_start|done|cbn; lia|].
  assert (mon_inv cap m) as Hi.
  { apply mon_run_inv; [|cbn in *; lia]. split; cbn; try done; [lia| |lia|by destruct emits].
    exists [], [], [], []. split_and!; [|done..].
    split; cbn; [constructor..|by intros []|apply sublist_nil_l|constructor]. }
  pose proof Hi as [Hs Hc _ (sent & lost & cur & evs & Hk & Ha & Hev) Hr Hsm Hf]. fold s in Hs, Hk.
  assert (Forall under_way cur) as Hcur.
  { unfold awaits in Ha. destruct (mo_task m); subst; try (by constructor). destruct Ha as (f & -> & ? & _).
    constructor; [done|constructor]. }
  assert (own_sent m = omap sent_of sent) as -> by exact (own_sent_kept _ _ _ _ _ _ Hk Hcur).
  pose proof Hk as [H1 H2 H3 H4 H5 H6 H7].
  apply Forall2_app_inv_r in H2 as (e1 & e23 & He1 & He23 & ->). apply Forall2_app_inv_r in He23 as (e2 & e3 & He2 & He3 & ->).
  pose proof (sent_events _ _ He1 H3) as Es. rewrite Es. cbn in Hev.
  assert (length (pending m) <= 3)%nat as Hp.
  { unfold pending. destruct (mo_task m) as [|st|i rest|]; cbn in *; try lia. rewrite length_app.
    destruct (es_futures _ !! i ≫= event_of); cbn; lia. }
  split_and!; [done| |by eapply sent_numbers| | |done|by unfold pending; intros ->| |done].
  - unfold ids in *. rewrite omap_app, fmap_app in H7. apply StronglySorted_app_1_l in H7.
    assert (omap record_of sent = omap sent_of sent) as <-; [|done].
    clear -H3. induction H3 as [|f l [r ->] _ IH]; [done|]. cbn. by rewrite IH.
  - rewrite <- Hev, <- !app_assoc. by eexists.
  - intros Hopen. assert (lost = []) as ->.
    { destruct lost; [done|]. destruct H5 as [Hx _]; [done|]. by rewrite Hopen in Hx. }
    apply Forall2_nil_inv_r in He2 as ->. rewrite <- Hev. cbn [app]. rewrite <- app_assoc. f_equal.
    unfold pending. destruct (mo_task m) as [|st|i rest|] eqn:Et; cbn in Ha; subst;
      try (apply Forall2_nil_inv_r in He3 as ->; done).
    destruct Ha as (f & -> & Hu & Hl). apply Forall2_cons_inv_r in He3 as (ev & e4 & Hcall & Hnil & ->).
    apply Forall2_nil_inv_r in Hnil as ->. cbn [rest_of]. f_equal.
    apply last_Some in Hl as [mine0 Em]. rewrite Em in H1. cbn [app] in H1.
    apply Forall2_app_inv_r in H1 as (m1 & m2 & _ & Hx & Em'). apply Forall2_cons_inv_r in Hx as (i' & m3 & Hfi & Hn3 & ->).
    apply Forall2_nil_inv_r in Hn3 as ->. apply app_inj_tail in Em' as [_ <-]. fold s. rewrite Hfi. cbn [mbind option_bind].
    by rewrite (event_of_call ev f Hcall Hu).
  - assert (mo_emits m = emits) as Ee.
    { subst m. clear. assert (forall ops m, mo_emits (mon_run b ops m) = mo_emits m) as Hr; [|by rewrite Hr].
      intros ops'. induction ops' as [|o ops' IH]; intros m; [reflexivity|]. cbn [mon_run fold_left]. unfold mon_run in IH. rewrite IH.
      destruct o; cbn; unfold mon_tick, mon_poll, mon_next, mon_other; repeat case_match; done. }
    rewrite <- Ee. destruct (mo_emits m); [done|apply Hsm].
Qed.
End monitor_facts.

(** ** What the providers do *)

(** No provider emits the event it builds: whatever a sample ends in, the
    emitter the provider holds is as it was. *)
Lemma damon_emits_nothing now p : dp_emitter (damon_sample now p).2 = dp_emitter p.
Proof.
  unfold damon_sample, bind, gets, lift, discard, ret, throw. destruct (check_availability p); [|done].
  by destruct (read_regions (id p)).
Qed.
Lemma sim_damon_emits_nothing b now p : sd_emitter (sim_damon_sample b now p).2 = sd_emitter p.
Proof. unfold sim_damon_sample, bind, gets, lift, discard, ret. by destruct (generate_regions b (id p)). Qed.
Lemma mock_emits_nothing `{RangeRng} b now p : mk_emitter (mock_sample b now p).2 = mk_emitter p.
Proof.
  set (I := fun q : MockHotnessProvider => mk_emitter q = mk_emitter p).
  assert (forall i n, preserves I (mock_ranges b i n)) as Hr.
  { intros i n. revert i. induction n as [|n IH]; intros i; cbn [mock_ranges]; [apply preserves_ret|].
    apply preserves_bind; [apply preserves_lift|intros range]. apply preserves_bind.
    - unfold generate_access_count. apply preserves_bind; [apply preserves_gets|intros q].
      apply preserves_bind; [apply preserves_lift|intros a]. apply preserves_bind; [by intros s Hs|intros _; apply preserves_lift].
    - intros a. apply preserves_bind; [apply IH|intros l; apply preserves_ret]. }
  unfold mock_sample. apply (preserves_bind I); [apply preserves_gets|intros q|done].
  apply preserves_bind; [apply Hr|intros l]. apply preserves_bind; [by intros s Hs|intros _; apply preserves_ret].
Qed.

(** ** Reading DAMON's files *)

Lemma hex_value_digit_of d : 0 <= d < 16 -> hex_value_of (hex_digit (Z.to_N d)) = Some d.
Proof.
  intros Hd. assert (d ∈ [0; 1; 2; 3; 4; 5; 6; 7; 8; 9; 10; 11; 12; 13; 14; 15]) as Hc.
  { rewrite !elem_of_cons, elem_of_nil. lia. }
  rewrite !elem_of_cons, elem_of_nil in Hc. by destruct_or! Hc; subst.
Qed.

Lemma hex_digits_go fuel : forall z s, 0 <= z < 16 ^ Z.of_nat fuel -> hex_digits (hex_go fuel z s) 0 = hex_digits s z.
Proof.
  induction fuel as [|fuel IH]; intros z s Hz; [cbn in *; by replace z with 0 by lia|]. cbn [hex_go].
  destruct (Z.eqb_spec z 0) as [->|Hne]; [done|]. rewrite Nat2Z.inj_succ, Z.pow_succ_r in Hz by lia.
  rewrite IH by (split; [apply Z.div_pos; lia|apply Z.div_lt_upper_bound; lia]). cbn [hex_digits].
  rewrite hex_value_digit_of by (apply Z.mod_pos_bound; lia). f_equal. pose proof (Z.div_mod z 16). lia.
Qed.

Definition hex_char (a : ascii) : bool := match hex_value_of a with Some _ => true | None => false end.

Lemma hex_go_chars fuel : forall z s, 0 <= z -> all hex_char s = true -> all hex_char (hex_go fuel z s) = true.
Proof.
  induction fuel as [|fuel IH]; intros z s Hz Hs; [done|]. cbn [hex_go]. destruct (z =? 0); [done|].
  apply IH; [apply Z.div_pos; lia|]. cbn [all]. unfold hex_char at 1. rewrite hex_value_digit_of by (apply Z.mod_pos_bound; lia). done.
Qed.

Lemma hex_char_word a : hex_char a = true -> word_char a = true.
Proof.
  destruct a as [[] [] [] [] [] [] [] []]; vm_compute; done.
Qed.

Lemma lower_hex_ok z : 0 <= z < 2 ^ 64 -> all word_char (lower_hex z) = true /\ parse_hex (lower_hex z) = Some z.
Proof.
  intros Hz. unfold lower_hex. destruct (Z.eqb_spec z 0) as [->|Hne]; [done|].
  assert (all hex_char (hex_go 16 z EmptyString) = true) as Hc by (apply hex_go_chars; [lia|done]).
  split; [eapply all_impl; [apply hex_char_word|done]|].
  pose proof (hex_digits_go 16 z EmptyString) as Hd. cbn [hex_digits] in Hd. specialize (Hd Hz).
  unfold parse_hex. destruct (hex_go 16 z EmptyString) as [|a t] eqn:Eg; [cbn in Hd; congruence|].
  cbn [all] in Hc. apply andb_true_iff in Hc as [Ha _].
  rewrite bool_decide_eq_false_2 by (intros ->; done). unfold hex_unsigned. rewrite Hd. unfold Str.checked.
  destruct (Z.leb_spec 0 z), (Z.ltb_spec z (2 ^ 64)); try lia. done.
Qed.

(** An address as the file may show it. *)
Definition show_address (hex : bool) (z : Z) : string := if hex then "0x" +:+ lower_hex z else pretty z.

Lemma show_address_ok hex z : 0 <= z < 2 ^ 64 ->
  all word_char (show_address hex z) = true /\ show_address hex z <> EmptyString /\ parse_address (show_address hex z) = Ok z.
Proof.
  intros Hz. destruct hex; unfold show_address.
  - destruct (lower_hex_ok z Hz) as [Hw Hp]. rewrite !append_cons. cbn [all parse_address].
    change (EmptyString +:+ lower_hex z) with (lower_hex z). by rewrite Hw, Hp.
  - split; [apply pretty_word; lia|]. split; [apply pretty_nonempty; lia|]. pose proof (parse_u_pretty 64 z Hz) as Hp.
    destruct (pretty_digits z ltac:(lia)) as [Ha _]. destruct (pretty z) as [|a t] eqn:E; [done|].
    unfold parse_address. assert (forall c u, t = String c u -> c <> "x"%char /\ c <> "X"%char) as Hx.
    { intros c u ->. cbn [all] in Ha. rewrite !andb_true_iff in Ha. destruct Ha as (_ & Hc & _).
      apply digit_range in Hc. split; intros ->; simpl in Hc; lia. }
    destruct t as [|c u]; rewrite Hp.
    + by repeat (destruct a as [[] [] [] [] [] [] [] []]).
    + destruct (Hx c u eq_refl) as [H1 H2]. destruct a as [[] [] [] [] [] [] [] []]; try done.
      destruct c as [[] [] [] [] [] [] [] []]; done.
Qed.

Definition show_region (h1 h2 : bool) (r : DamonRegion) : string :=
  show_address h1 (rg_start r) +:+ String " " (show_address h2 (rg_end r) +:+
    String " " (pretty (nr_accesses r) +:+ String " " (pretty (age r) +:+ String Str.nl EmptyString))).
Definition region_ok (r : DamonRegion) : Prop :=
  in_u 64 (rg_start r) /\ in_u 64 (rg_end r) /\ in_u 64 (nr_accesses r) /\ in_u 64 (age r).

Lemma tokens_field w c t : all word_char w = true -> w <> EmptyString -> Str.is_ws c = true ->
  Str.tokens (w +:+ String c t) EmptyString = w :: Str.tokens t EmptyString.
Proof.
  intros Hw Hne Hc. rewrite tokens_sep by done. pose proof (tokens_word w EmptyString EmptyString Hw) as Hk.
  rewrite append_nil in Hk. rewrite Hk. change (EmptyString +:+ w) with w. cbn [Str.tokens]. by destruct w.
Qed.

Lemma parse_show_region h1 h2 r : region_ok r -> parse_region (show_region h1 h2 r) = Ok r.
Proof.
  intros (H1 & H2 & H3 & H4). unfold in_u in *. unfold parse_region. rewrite split_whitespace_trim.
  unfold Str.split_whitespace, show_region. destruct (show_address_ok h1 _ H1) as (W1 & N1 & P1).
  destruct (show_address_ok h2 _ H2) as (W2 & N2 & P2).
  rewrite (tokens_field _ _ _ W1 N1) by done. rewrite (tokens_field _ _ _ W2 N2) by done.
  rewrite (tokens_field (pretty (nr_accesses r))) by (apply pretty_word || apply pretty_nonempty || done; lia).
  rewrite (tokens_field (pretty (age r))) by (apply pretty_word || apply pretty_nonempty || done; lia).
  rewrite P1, P2. cbn [obind]. rewrite !parse_u_pretty by lia. by destruct r.
Qed.

(** DAMON's directory shows the regions [rs], whichever way each address is
    written. *)
Definition shows (fs : DamonFs) (rs : list DamonRegion) : Prop :=
  df_exists fs = true /\ df_nr fs = Ok (pretty (Z.of_nat (length rs)) +:+ String Str.nl EmptyString) /\
  forall i r, rs !! i = Some r -> region_ok r /\ exists h1 h2, df_region fs i = Ok (show_region h1 h2 r).

Lemma read_each_shows fs rs n k : shows fs rs -> (n + k <= length rs)%nat -> read_each fs (seq n k) = Ok (take k (drop n rs)).
Proof.
  intros (_ & _ & Hr). revert n. induction k as [|k IH]; intros n Hk; [done|]. cbn [seq read_each].
  destruct (lookup_lt_is_Some_2 rs n ltac:(lia)) as [r Er]. destruct (Hr n r Er) as (Hok & h1 & h2 & ->).
  cbn [damon_file map_err obind]. rewrite parse_show_region by done. cbn [obind]. rewrite IH by lia. cbn [obind].
  by rewrite (drop_S _ _ _ Er).
Qed.

Lemma trim_nl z : 0 <= z -> Str.trim (pretty z +:+ String Str.nl EmptyString) = pretty z.
Proof.
  intros Hz. rewrite <- (trim_word (pretty z)) at 2 by (by apply pretty_word).
  pose proof (pretty_nonempty z Hz) as Hne. pose proof (pretty_word z Hz) as Hw. unfold Str.trim.
  assert (forall s, s <> EmptyString -> all word_char s = true -> Str.trim_start (s +:+ String Str.nl EmptyString) = s +:+ String Str.nl EmptyString /\
    Str.trim_start s = s) as Hs.
  { intros [|a s] Hn H; [done|]. cbn [all] in H. apply andb_true_iff in H as [Ha _]. apply negb_true_iff in Ha.
    rewrite append_cons. cbn [Str.trim_start]. by rewrite Ha. }
  destruct (Hs _ Hne Hw) as [-> ->]. clear Hs Hne. induction (pretty z) as [|a s IH]; [done|].
  cbn [all] in Hw. apply andb_true_iff in Hw as [Ha Hw]. rewrite append_cons. cbn [Str.trim_end]. by rewrite IH.
Qed.

(** Sampling DAMON.  When its files show a list of regions, in decimal or
    hexadecimal, a sample is exactly the first of them, as many as configured,
    each with its range, its number of accesses and the temperature of that
    number. *)
Theorem damon_sample_exact now p rs :
  shows (dp_fs p) rs -> 0 <= nr_regions_max (dp_config p) -> Z.of_nat (length rs) < 2 ^ 64 ->
  damon_sample now p =
    (Ok (mkHSnap (region_sample (dp_config p) <$> take (Z.to_nat (nr_regions_max (dp_config p))) rs) now), p).
Proof.
  intros Hs Hm Hl. pose proof Hs as (He & Hn & _). unfold damon_sample.
  erewrite bind_Ok by reflexivity. unfold check_availability. rewrite He.
  erewrite bind_Ok by reflexivity. erewrite bind_Ok by reflexivity.
  assert (read_regions (id p) = Ok (take (Z.to_nat (nr_regions_max (dp_config p))) rs)) as ->; [|done].
  unfold read_regions. cbn [id]. rewrite Hn. cbn [damon_file map_err obind].
  rewrite trim_nl, parse_u_pretty by lia. cbn [ok_or obind]. rewrite (read_each_shows _ rs) by (done || lia).
  rewrite drop_0. f_equal. destruct (Z.min_spec (Z.of_nat (length rs)) (nr_regions_max (dp_config p))) as [[? ->]|[? ->]]; [|done].
  by rewrite Nat2Z.id, !take_ge by lia.
Qed.

Definition ex_regions : list DamonRegion := [mkRegion 4096 8192 150 3; mkRegion 8192 12288 0 7; mkRegion 16384 20480 25 1].
Definition ex_damon_fs : DamonFs :=
  mkDamonFs true (Ok (pretty 3 +:+ String Str.nl EmptyString))
    (fun i => match ex_regions !! i with Some r => Ok (show_region true (i =? 0)%nat r) | None => Err (EIo "no such file") end).
Definition ex_damon : DamonHotnessProvider :=
  mkDamon (mkDamonConfig 2 100 20 1 1000 1000) ex_damon_fs (Emitter_new (mkChannel [] 4 true)) DamonState_default.

Lemma damon_sample_exact_witness :
  damon_sample 9 ex_damon =
    (Ok (mkHSnap [mkSample (mkRange 4096 8192) 150 Hot; mkSample (mkRange 8192 12288) 0 Frozen] 9), ex_damon).
Proof.
  apply (damon_sample_exact 9 ex_damon ex_regions); [|vm_compute; discriminate|vm_compute; reflexivity].
  split; [reflexivity|]. split; [reflexivity|].
  intros [|[|[|i]]] r Hr; vm_compute in Hr; [| | |done]; injection Hr as <-;
    (split; [vm_compute; repeat split; discriminate|]); do 2 eexists; reflexivity.
Defined.

(** ** The simulated DAMON *)

(** The regions follow one another without a gap, 64 KiB each. *)
Fixpoint contiguous (at_ : Z) (l : list DamonRegion) : Prop :=
  match l with [] => True | r :: l => rg_start r = at_ /\ rg_end r = at_ + 65536 /\ contiguous (at_ + 65536) l end.

Lemma generate_from_ok b n : forall i state, Z.of_nat (i + n) < 2 ^ 40 ->
  exists l, generate_from b i n state = Ok l /\ length l = n /\ contiguous (139637976727552 + Z.of_nat i * 65536) l /\
    Forall (fun r => 0 <= nr_accesses r < 200 /\ 1 <= age r <= 10000) l.
Proof.
  induction n as [|n IH]; intros i state Hi; [by exists []|]. cbn [generate_from]. set (s := lcg state).
  assert (sim_region b i s = Ok (mkRegion (139637976727552 + Z.of_nat i * 65536) (139637976727552 + Z.of_nat i * 65536 + 65536)
    (Z.shiftr s 32 mod 200) (Z.shiftr s 48 mod 10000 + 1))) as ->.
  { unfold sim_region. rewrite arith_in by (unfold in_u; lia). cbn [obind]. rewrite arith_in by (unfold in_u; lia). cbn [obind].
    by rewrite arith_in by (unfold in_u; lia). }
  cbn [obind]. destruct (IH (S i) s ltac:(lia)) as (l & -> & Hl & Hc & Hf). cbn [obind]. eexists. split; [reflexivity|].
  split; [cbn; lia|]. split.
  - cbn [contiguous rg_start rg_end]. split; [done|]. split; [done|].
    replace (139637976727552 + Z.of_nat i * 65536 + 65536) with (139637976727552 + Z.of_nat (S i) * 65536) by lia. done.
  - constructor; [|done]. cbn [nr_accesses age]. pose proof (Z.mod_pos_bound (Z.shiftr s 32) 200). pose proof (Z.mod_pos_bound (Z.shiftr s 48) 10000). lia.
Qed.

(** A simulated sample does not panic, has the regions asked for, contiguous
    and with their temperatures, and depends on nothing but the seed. *)
Theorem sim_damon_sample_ok b now p :
  Z.of_nat (sd_num_regions p) < 2 ^ 40 ->
  exists l, sim_damon_sample b now p = (Ok (mkHSnap (region_sample (sd_config p) <$> l) now), p) /\
    length l = sd_num_regions p /\ contiguous 139637976727552 l /\
    Forall (fun r => 0 <= nr_accesses r < 200 /\ 1 <= age r <= 10000) l /\
    forall q, sd_seed q = sd_seed p -> sd_num_regions q = sd_num_regions p -> generate_regions b q = Ok l.
Proof.
  intros Hn. unfold sim_damon_sample, generate_regions.
  destruct (generate_from_ok b (sd_num_regions p) 0 (sd_seed p) Hn) as (l & E & Hl & Hc & Hf).
  exists l. unfold bind, gets, lift, discard, ret. cbn [id]. rewrite E. split_and!; [done|done|exact Hc|exact Hf|].
  by intros q -> ->.
Qed.

Definition ex_sim_damon (n : nat) : SimulatedDamonProvider :=
  mkSimDamon DamonConfig_default (Emitter_new (mkChannel [] 4 true)) 42 n.

Lemma sim_damon_sample_ok_witness :
  exists l, sim_damon_sample Debug 5 (ex_sim_damon 3) = (Ok (mkHSnap (region_sample DamonConfig_default <$> l) 5), ex_sim_damon 3) /\
    length l = 3%nat /\ contiguous 139637976727552 l.
Proof.
  destruct (sim_damon_sample_ok Debug 5 (ex_sim_damon 3)) as (l & E & Hl & Hc & _); [vm_compute; reflexivity|].
  exists l. split; [exact E|]. split; [exact Hl|exact Hc].
Defined.

(** A simulated DAMON on a channel of two slots, one taken by another emission:
    the second event of the report waits for a reception, and so does the third. *)
Definition ex_state : HotnessState :=
  match State_empty Debug with Ok s => s | _ => mkHState (mkHSum 0 0 0 0 0 zero32f zero32f zero32f zero32f 0 0 0) (mkConf zero32f []) (HotHistory_new 64) 0 end.
Definition ex_tracker : RegionTracker SimulatedDamonProvider := mkRTracker (Some (ex_sim_damon 3)) ex_state 60.
Definition ex_others : list EOp := [ENew false (ping 1); EPoll 0 1; EPoll 0 1; EPoll 0 1].
Definition ex_polls (n : nat) : list (MonOp SimulatedDamonProvider) := repeat (MPoll 10) n.
Definition ex_ops : list (MonOp SimulatedDamonProvider) :=
  MTick 10 :: ex_polls 6 ++
  [MOther (ENew true (ping 2)); MOther (EPoll 2 11); MOther ERecv; MOther (EPoll 3 12); MOther (EPoll 3 12); MSetProvider None] ++
  ex_polls 4.

Lemma monitoring_reports_witness :
  let m := mon_run (HP := sim_damon_provider Debug) Debug ex_ops (mon_start ex_tracker true (erun ex_others (es_start 2))) in
  ids (own_sent m) = [2; 3] /\ length (pending m) = 1%nat /\
  (Ev.rec_event <$> own_sent m) ++ pending m = reports m /\ own_sent m `sublist_of` es_sent (mo_system m).
Proof.
  cbv zeta. destruct (monitoring_reports Debug (HP := sim_damon_provider Debug) ex_tracker true 2 ex_others ex_ops)
    as (H1 & _ & _ & _ & H2 & _); [vm_compute; lia|vm_compute; reflexivity|].
  split; [vm_compute; reflexivity|]. split; [vm_compute; reflexivity|]. split; [apply H2; vm_compute; reflexivity|exact H1].
Defined.
