(* ===== verification/LinuxPolicy.v ===== *)
(** * The placement policy on Linux: [ghost-linux/src/policy_rules.rs],
    [cooldown.rs], [stability.rs], [policy.rs]

    Rules turn the system's pressure and hotness into recommendations; the
    runtime filters them by confidence and cooldown, sorts them and cuts the
    list.  The clock reading is an argument of each operation that takes one. *)

From Stdlib Require Import ZArith Lia SpecFloat Sorting.Sorted.
From stdpp Require Import base gmap strings pretty list sorting.
From S2P Require Import Prelude Floats CoreTypes Pressure Events Trace Regions LinuxSources LinuxTiers.

Open Scope rust_scope.

Record StabilityConfig := mkStab {
  recommendation_cooldown_secs : Z;
  temperature_stability_window : nat;
  hysteresis_margin : float;
  max_recommendations_per_cycle : nat;
  min_confidence_threshold : float;
  suppression_cooldown_secs : Z;
}.
Definition StabilityConfig_default : StabilityConfig := mkStab 30 3 (lit f32 1 10) 10 (lit f32 3 10) 60.

Record SystemState := mkSys {
  dram_pressure : PressureState;
  dram_utilization : float;
  swap_utilization : float;
  zram_utilization : option float;
  sys_io_pressure : PressureState;
  hotness_summary : option HotnessSummary;
  hotness_confidence : option HotnessConfidence;
}.

Module Level.
Inductive PressureLevel := Low | Medium | High | Critical.
Definition display (l : PressureLevel) : string :=
  match l with Low => "low" | Medium => "medium" | High => "high" | Critical => "critical" end.
End Level.

Definition pressure_level (s : SystemState) : Level.PressureLevel :=
  let m := fmax (fmax (fmax (memory_pressure (dram_pressure s)) (io_pressure (dram_pressure s)))
    (memory_pressure (sys_io_pressure s))) (io_pressure (sys_io_pressure s)) in
  if fge m (lit f32 9 10) then Level.Critical
  else if fge m (lit f32 7 10) then Level.High
  else if fge m (lit f32 1 2) then Level.Medium else Level.Low.

Inductive Recommendation :=
  | PromoteToDram (chunk_id : ChunkId) (reason : string) (confidence : float) (factors : list string)
  | MoveToZram (chunk_id : ChunkId) (reason : string) (confidence : float) (factors : list string)
  | MoveToDiskSwap (chunk_id : ChunkId) (reason : string) (confidence : float) (factors : list string)
  | NoAction (reason : string) (confidence : float) (factors : list string)
  | EvictCold (tier : TierId) (count : Z) (confidence : float) (factors : list string)
  | DemoteHot (tier target : TierId) (confidence : float) (factors : list string).

Definition rec_kind (r : Recommendation) : string :=
  match r with
  | PromoteToDram _ _ _ _ => "promote_to_dram" | MoveToZram _ _ _ _ => "move_to_zram"
  | MoveToDiskSwap _ _ _ _ => "move_to_disk_swap" | NoAction _ _ _ => "no_action"
  | EvictCold _ _ _ _ => "evict_cold" | DemoteHot _ _ _ _ => "demote_hot"
  end.
Definition rec_reason (r : Recommendation) : string :=
  match r with
  | PromoteToDram _ x _ _ | MoveToZram _ x _ _ | MoveToDiskSwap _ x _ _ | NoAction x _ _ => x
  | EvictCold _ _ _ _ => "eviction due to pressure" | DemoteHot _ _ _ _ => "demote hot chunks"
  end.
Definition rec_confidence (r : Recommendation) : float :=
  match r with
  | PromoteToDram _ _ c _ | MoveToZram _ _ c _ | MoveToDiskSwap _ _ c _ | NoAction _ c _
  | EvictCold _ _ c _ | DemoteHot _ _ c _ => c
  end.
Definition rec_factors (r : Recommendation) : list string :=
  match r with
  | PromoteToDram _ _ _ f | MoveToZram _ _ _ f | MoveToDiskSwap _ _ _ f | NoAction _ _ f
  | EvictCold _ _ _ f | DemoteHot _ _ _ f => f
  end.

Definition rec_display (r : Recommendation) : string :=
  let conf c := " (confidence=" +:+ fixed 2 c +:+ ")" in
  match r with
  | PromoteToDram id x c _ => "PromoteToDram(" +:+ short_hex id +:+ "): " +:+ x +:+ conf c
  | MoveToZram id x c _ => "MoveToZram(" +:+ short_hex id +:+ "): " +:+ x +:+ conf c
  | MoveToDiskSwap id x c _ => "MoveToDiskSwap(" +:+ short_hex id +:+ "): " +:+ x +:+ conf c
  | NoAction x c _ => "NoAction: " +:+ x +:+ conf c
  | EvictCold t n c _ => "EvictCold(" +:+ tier_debug t +:+ ", " +:+ pretty n +:+ ")" +:+ conf c
  | DemoteHot t u c _ => "DemoteHot(" +:+ tier_debug t +:+ " -> " +:+ tier_debug u +:+ ")" +:+ conf c
  end.

Record PolicyRules := mkRules {
  dram_high_threshold : float;
  dram_critical_threshold : float;
  swap_high_threshold : float;
  zram_high_threshold : float;
  cooldown_seconds : Z;
  hotness_weight : float;
  pressure_weight : float;
  min_confidence : float;
  hot_region_preference : TierId;
  cold_region_preference : TierId;
  hot_region_pct_threshold : float;
  frozen_region_pct_threshold : float;
  warm_region_pct_threshold : float;
}.
Definition PolicyRules_default : PolicyRules :=
  mkRules (lit f32 7 10) (lit f32 9 10) (lit f32 8 10) (lit f32 8 10) 60 (lit f32 3 10) (lit f32 7 10) (lit f32 3 10)
    Ram Disk (of_int f32 25) (of_int f32 50) (of_int f32 40).
Definition with_thresholds (dh dc sh zh : float) (cooldown : Z) : PolicyRules :=
  let d := PolicyRules_default in
  mkRules dh dc sh zh cooldown (hotness_weight d) (pressure_weight d) (min_confidence d) (hot_region_preference d)
    (cold_region_preference d) (hot_region_pct_threshold d) (frozen_region_pct_threshold d) (warm_region_pct_threshold d).
Definition with_hotness (hw pw mc : float) (hot cold : TierId) : PolicyRules :=
  let d := PolicyRules_default in
  let unit x := fclamp x zero32f (of_int f32 1) in
  mkRules (dram_high_threshold d) (dram_critical_threshold d) (swap_high_threshold d) (zram_high_threshold d)
    (cooldown_seconds d) (unit hw) (unit pw) (unit mc) hot cold (hot_region_pct_threshold d)
    (frozen_region_pct_threshold d) (warm_region_pct_threshold d).

(** [f32::to_le_bytes]: the IEEE bit pattern; a NaN is the quiet NaN. *)
Definition f32_bits (x : float) : Z :=
  match x with
  | S754_zero s => if s then 2 ^ 31 else 0
  | S754_infinity s => (if s then 2 ^ 31 else 0) + 255 * 2 ^ 23
  | S754_nan => 255 * 2 ^ 23 + 2 ^ 22
  | S754_finite s m e =>
      (if s then 2 ^ 31 else 0) + (if Z.pos m <? 2 ^ 23 then Z.pos m else (e + 150) * 2 ^ 23 + (Z.pos m - 2 ^ 23))
  end.
Definition f32_le (x : float) : list byte := to_le_bytes 4 (f32_bits x).

Definition percent (x : float) : string := fixed 0 (fmul f32 x (of_int f32 100)) +:+ "%".

Section rules.
Context `{Blake3}.

Definition opt_bytes (o : option float) : list byte := match o with Some z => f32_le z | None => [] end.

Definition eviction_chunk_id (s : SystemState) : ChunkId :=
  mkChunkId (blake3 (f32_le (memory_pressure (dram_pressure s)) ++ f32_le (io_pressure (dram_pressure s))
    ++ f32_le (dram_utilization s) ++ f32_le (swap_utilization s) ++ opt_bytes (zram_utilization s))).
Definition hotness_chunk_id (s : SystemState) : ChunkId :=
  mkChunkId (blake3 (bytes_of_string "hotness_promote" ++ f32_le (memory_pressure (dram_pressure s)) ++ f32_le (dram_utilization s))).
Definition coldness_chunk_id (s : SystemState) : ChunkId :=
  mkChunkId (blake3 (bytes_of_string "coldness_evict" ++ f32_le (memory_pressure (dram_pressure s)) ++ f32_le (swap_utilization s))).
Definition warmth_chunk_id (s : SystemState) : ChunkId :=
  mkChunkId (blake3 (bytes_of_string "warmth_zram" ++ f32_le (memory_pressure (dram_pressure s)) ++ opt_bytes (zram_utilization s))).

Definition eviction_count (s : SystemState) : Z :=
  let p := memory_pressure (dram_pressure s) in
  if fge p (lit f32 95 100) then 16 else if fge p (lit f32 9 10) then 8 else if fge p (lit f32 8 10) then 4 else 2.

Definition zram_below (r : PolicyRules) (s : SystemState) : bool :=
  match zram_utilization s with Some u => flt u (zram_high_threshold r) | None => false end.

Definition evaluate_pressure (r : PolicyRules) (s : SystemState) : list Recommendation :=
  let one := of_int f32 1 in
  let dram := percent (memory_pressure (dram_pressure s)) in
  match pressure_level s with
  | Level.Critical =>
      EvictCold Ram (eviction_count s) one ["critical DRAM pressure (" +:+ dram +:+ ")"] ::
      (match zram_utilization s with
       | Some _ => [MoveToZram (eviction_chunk_id s) ("critical DRAM pressure (" +:+ dram +:+ ") — move cold chunks to ZRAM") one
                     ["critical_pressure"; "zram_available"]]
       | None =>
           if flt (swap_utilization s) (swap_high_threshold r)
           then [MoveToDiskSwap (eviction_chunk_id s) ("critical DRAM pressure (" +:+ dram +:+ ") — move cold chunks to disk swap") one
                   ["critical_pressure"; "swap_available"]]
           else []
       end)
  | Level.High =>
      if zram_below r s
      then [MoveToZram (eviction_chunk_id s) ("high DRAM pressure (" +:+ dram +:+ ") — ZRAM available ("
              +:+ percent (default zero32f (zram_utilization s)) +:+ " full)") one ["high_pressure"; "zram_available"]]
      else if flt (swap_utilization s) (swap_high_threshold r)
      then [MoveToDiskSwap (eviction_chunk_id s) ("high DRAM pressure (" +:+ dram +:+ ") — swap available ("
              +:+ percent (swap_utilization s) +:+ " full)") one ["high_pressure"; "swap_available"]]
      else [EvictCold Ram (eviction_count s) one ["high_pressure"; "zram_full"; "swap_full"]]
  | Level.Medium =>
      match zram_utilization s with
      | Some _ => [DemoteHot GpuVram Disk (lit f32 8 10) ["medium_pressure"]]
      | None => []
      end
  | Level.Low =>
      if flt (memory_pressure (dram_pressure s)) (lit f32 3 10)
      then [NoAction ("DRAM pressure low (" +:+ dram +:+ ") — no action needed") one ["low_pressure"]]
      else []
  end.

Definition evaluate_hotness (r : PolicyRules) (s : SystemState) (m : HotnessSummary) (c : HotnessConfidence) : list Recommendation :=
  let hc := conf_score c in
  let weighted := fmul f32 hc (hotness_weight r) in
  let p := memory_pressure (dram_pressure s) in
  let pct x := fixed 0 x +:+ "%" in
  let f_conf := "hotness_confidence=" +:+ fixed 2 hc in
  let hot_above := fgt (hot_percentage m) (hot_region_pct_threshold r) in
  let hot_reason t := "hot regions " +:+ pct (hot_percentage m) +:+ " above threshold " +:+ pct (hot_region_pct_threshold r) +:+ t in
  let f_hot := "hot_regions=" +:+ pct (hot_percentage m) in
  (if hot_above && fge p (dram_high_threshold r)
   then [PromoteToDram (hotness_chunk_id s) (hot_reason " — promote hottest to DRAM") weighted
           [f_hot; f_conf; "dram_pressure=" +:+ percent p]] else []) ++
  (if hot_above && flt p (dram_high_threshold r)
   then [PromoteToDram (hotness_chunk_id s) (hot_reason " — optimize placement in idle system") weighted
           [f_hot; f_conf; "low_pressure_optimization"]] else []) ++
  (if fgt (frozen_percentage m) (frozen_region_pct_threshold r)
   then [MoveToDiskSwap (coldness_chunk_id s) ("frozen regions " +:+ pct (frozen_percentage m) +:+ " above threshold "
           +:+ pct (frozen_region_pct_threshold r) +:+ " — move coldest to disk") weighted
           ["frozen_regions=" +:+ pct (frozen_percentage m); f_conf]] else []) ++
  (if fgt (warm_percentage m) (warm_region_pct_threshold r) && zram_below r s
   then [MoveToZram (warmth_chunk_id s) ("warm regions " +:+ pct (warm_percentage m) +:+ " above threshold "
           +:+ pct (warm_region_pct_threshold r) +:+ " — move warm to ZRAM") weighted
           ["warm_regions=" +:+ pct (warm_percentage m); f_conf; "zram_available"]] else []).

Definition recommendations_conflict (x y : Recommendation) : bool :=
  match x, y with
  | PromoteToDram _ _ _ _, MoveToZram _ _ _ _ | PromoteToDram _ _ _ _, MoveToDiskSwap _ _ _ _
  | MoveToZram _ _ _ _, PromoteToDram _ _ _ _ | MoveToDiskSwap _ _ _ _, PromoteToDram _ _ _ _
  | MoveToDiskSwap _ _ _ _, MoveToZram _ _ _ _ | MoveToZram _ _ _ _, MoveToDiskSwap _ _ _ _
  | EvictCold _ _ _ _, PromoteToDram _ _ _ _ | PromoteToDram _ _ _ _, EvictCold _ _ _ _ => true
  | PromoteToDram a _ _ _, PromoteToDram b _ _ _ | MoveToZram a _ _ _, MoveToZram b _ _ _
  | MoveToDiskSwap a _ _ _, MoveToDiskSwap b _ _ _ => bool_decide (a = b)
  | _, _ => false
  end.

Definition is_no_action (r : Recommendation) : bool := match r with NoAction _ _ _ => true | _ => false end.

(** One hotness recommendation against those already merged. *)
Definition merge_one (r : PolicyRules) (merged : list Recommendation) (h : Recommendation) : list Recommendation :=
  if existsb (recommendations_conflict h) merged then
    if existsb (fun p => is_no_action p && recommendations_conflict h p) merged
    then filter (fun p => is_no_action p = false) merged ++ [h]
    else
      let pc := fold_left fmax (rec_confidence <$> filter (fun p => recommendations_conflict h p = true) merged) zero32f in
      if fgt (rec_confidence h) (fadd f32 pc (hotness_weight r))
      then filter (fun p => recommendations_conflict h p = false) merged ++ [h]
      else merged
  else merged ++ [h].

Definition merge_recommendations (r : PolicyRules) (pressure_recs hotness_recs : list Recommendation) : list Recommendation :=
  fold_left (merge_one r) hotness_recs pressure_recs.

Definition evaluate (r : PolicyRules) (s : SystemState) : list Recommendation :=
  let hotness_recs :=
    match hotness_summary s, hotness_confidence s with
    | Some m, Some c => if fge (conf_score c) (min_confidence r) then evaluate_hotness r s m c else []
    | _, _ => []
    end in
  merge_recommendations r (evaluate_pressure r s) hotness_recs.
End rules.

(** ** Cooldowns *)

Record CooldownTracker := mkCool {
  last_recommendation : gmap string Z;
  last_suppression : gmap string Z;
  cool_config : StabilityConfig;
}.
Definition Cooldown_new (c : StabilityConfig) : CooldownTracker := mkCool ∅ ∅ c.

Definition can_recommend (now : Z) (key : string) (t : CooldownTracker) : bool :=
  match last_recommendation t !! key with
  | Some last => recommendation_cooldown_secs (cool_config t) <=? sat_sub now last
  | None => true
  end.
Definition record_recommendation (now : Z) (key : string) (t : CooldownTracker) : CooldownTracker :=
  mkCool (<[key := now]> (last_recommendation t)) (last_suppression t) (cool_config t).
Definition record_suppression (now : Z) (key : string) (t : CooldownTracker) : CooldownTracker :=
  mkCool (last_recommendation t) (<[key := now]> (last_suppression t)) (cool_config t).
Definition remaining_cooldown (now : Z) (key : string) (t : CooldownTracker) : option Z :=
  last ← last_recommendation t !! key;
  let elapsed := sat_sub now last in
  let cd := recommendation_cooldown_secs (cool_config t) in
  if elapsed <? cd then Some (cd - elapsed) else None.
Definition prune_expired (now : Z) (t : CooldownTracker) : CooldownTracker :=
  mkCool (filter (fun x => (sat_sub now x.2 <? recommendation_cooldown_secs (cool_config t)) = true) (last_recommendation t))
         (filter (fun x => (sat_sub now x.2 <? suppression_cooldown_secs (cool_config t)) = true) (last_suppression t)) (cool_config t).
Definition cool_active_count (now : Z) (t : CooldownTracker) : nat :=
  length (filter (fun last => (sat_sub now last <? recommendation_cooldown_secs (cool_config t)) = true) (map_to_list (last_recommendation t)).*2).
Definition suppressed_count (now : Z) (t : CooldownTracker) : nat :=
  length (filter (fun last => (sat_sub now last <? suppression_cooldown_secs (cool_config t)) = true) (map_to_list (last_suppression t)).*2).
Definition is_suppressed (now : Z) (key : string) (t : CooldownTracker) : bool :=
  match last_suppression t !! key with
  | Some last => sat_sub now last <? suppression_cooldown_secs (cool_config t)
  | None => false
  end.

(** ** Temperature stability *)

Record StabilityChecker := mkStabC { stab_history : gmap string (list Temperature); stab_config : StabilityConfig }.
Definition Stability_new (c : StabilityConfig) : StabilityChecker := mkStabC ∅ c.

Definition stab_record (key : string) (t : Temperature) (s : StabilityChecker) : StabilityChecker :=
  let l := default [] (stab_history s !! key) ++ [t] in
  let max := (temperature_stability_window (stab_config s) * 2)%nat in
  mkStabC (<[key := trim (length l) max l]> (stab_history s)) (stab_config s).

(** [window[0]] panics on an empty window. *)
Definition is_stable {E} (key : string) (s : StabilityChecker) : outcome E bool :=
  match stab_history s !! key with
  | None => Ok false
  | Some l =>
      let w := temperature_stability_window (stab_config s) in
      if (length l <? w)%nat then Ok false
      else match drop (length l - w) l with
           | [] => Panic "index out of bounds"
           | (first :: _) as window => Ok (forallb (fun t => bool_decide (t = first)) window)
           end
  end.

Definition stable_temperature {E} (key : string) (s : StabilityChecker) : outcome E (option Temperature) :=
  let? st := is_stable key s in
  if negb st then Ok None
  else match stab_history s !! key with
       | None => Ok None
       | Some l => match drop (length l - temperature_stability_window (stab_config s)) l with
                   | [] => Panic "index out of bounds"
                   | first :: _ => Ok (Some first)
                   end
       end.

Definition stab_trend (key : string) (s : StabilityChecker) : option TemperatureTrend :=
  match stab_history s !! key with
  | None | Some [] => Some (TStable Frozen)
  | Some [t] => Some (TStable t)
  | Some l => Some (trend_of l)
  end.

Definition classify_with_hysteresis (s : StabilityChecker) (current : Temperature) (n hot cold : Z) : Temperature :=
  let margin := hysteresis_margin (stab_config s) in
  let one := of_int f32 1 in
  match current with
  | Hot | Warm =>
      let effective_cold := as_u 64 (fmul f32 (of_int f32 cold) (fsub f32 one margin)) in
      if n <? Z.max effective_cold 1 then from_access_count n else current
  | Cold | Frozen =>
      let effective_hot := as_u 64 (fmul f32 (of_int f32 hot) (fadd f32 one margin)) in
      if effective_hot <=? n then from_access_count n else current
  end.

Definition observation_count (key : string) (s : StabilityChecker) : nat :=
  match stab_history s !! key with Some l => length l | None => 0 end.
Definition clear_region (key : string) (s : StabilityChecker) : StabilityChecker := mkStabC (delete key (stab_history s)) (stab_config s).
Definition clear_all (s : StabilityChecker) : StabilityChecker := mkStabC ∅ (stab_config s).

(** ** The runtime *)

Record PolicyRuntime := mkRuntime {
  rt_inventory : Inventory;
  last_evaluation : Z;
  rt_rules : PolicyRules;
  rt_stability : StabilityConfig;
  cooldown_tracker : CooldownTracker;
  stability_checker : StabilityChecker;
}.

Definition with_stability (m : Inventory) (r : PolicyRules) (c : StabilityConfig) : PolicyRuntime :=
  mkRuntime m 0 r c (Cooldown_new c) (Stability_new c).
Definition with_rules (m : Inventory) (r : PolicyRules) : PolicyRuntime := with_stability m r StabilityConfig_default.
Definition Runtime_new (m : Inventory) : PolicyRuntime := with_rules m PolicyRules_default.

Definition active_cooldowns (now : Z) (rt : PolicyRuntime) : nat := cool_active_count now (cooldown_tracker rt).
Definition is_cooldown_expired (now : Z) (rt : PolicyRuntime) : bool :=
  cooldown_seconds (rt_rules rt) <=? sat_sub now (last_evaluation rt).

Definition apply_stability (rt : PolicyRuntime) (l : list Recommendation) : list Recommendation :=
  filter (fun r => fge (rec_confidence r) (min_confidence_threshold (rt_stability rt)) = true) l.

(** [format!("{:?}", discriminant(r))] *)
Definition region_key (r : Recommendation) : string :=
  match r with
  | PromoteToDram _ _ _ _ => "Discriminant(0)" | MoveToZram _ _ _ _ => "Discriminant(1)"
  | MoveToDiskSwap _ _ _ _ => "Discriminant(2)" | NoAction _ _ _ => "Discriminant(3)"
  | EvictCold _ _ _ _ => "Discriminant(4)" | DemoteHot _ _ _ _ => "Discriminant(5)"
  end.
Definition apply_cooldowns (now : Z) (rt : PolicyRuntime) (l : list Recommendation) : list Recommendation :=
  filter (fun r => can_recommend now (region_key r) (cooldown_tracker rt) = true) l.

Definition by_confidence (x y : Recommendation) : comparison := fcmp (rec_confidence y) (rec_confidence x).
Definition limit_recommendations (rt : PolicyRuntime) (l : list Recommendation) : list Recommendation :=
  take (max_recommendations_per_cycle (rt_stability rt)) (sort_by by_confidence l).

(** The loop over the tiers: DRAM pressure and utilization, swap and ZRAM
    utilization. *)
Record TierSummary := mkTS { ts_pressure : PressureState; ts_dram : float; ts_swap : float; ts_zram : option float }.
Definition summarize (a : TierSummary) (t : TierInfo) : TierSummary :=
  let u := cast f32 (utilization t) in
  match ti_kind t with
  | Kind.Dram => mkTS (mkPressure (memory_pressure (ti_pressure t)) (vram_pressure (ts_pressure a)) (io_pressure (ti_pressure t))
                   (queue_depth (ts_pressure a)) (throughput_bps (ts_pressure a))) u (ts_swap a) (ts_zram a)
  | Kind.Swap | Kind.DiskSwap => mkTS (ts_pressure a) (ts_dram a) u (ts_zram a)
  | Kind.Zram => mkTS (ts_pressure a) (ts_dram a) (ts_swap a) (Some u)
  | _ => a
  end.
Definition tier_summary (m : Inventory) : TierSummary :=
  fold_left summarize (btree_values m) (mkTS PressureState_new f32_zero f32_zero None).

(** [psi_pressure] of a successful reading. *)
Definition psi_value (o : option (PsiSample * list Ev.Event)) : option float :=
  match o with Some (s, _) => Some (psi_fraction s) | None => None end.
Definition psi_events (o : option (PsiSample * list Ev.Event)) : list Ev.Event :=
  match o with Some (_, e) => e | None => [] end.

Definition set_memory (p : PressureState) (x : float) : PressureState :=
  mkPressure x (vram_pressure p) (io_pressure p) (queue_depth p) (throughput_bps p).

Definition build_system_state (now : Z) (psi : PsiResource -> Text) (m : Inventory)
    : outcome GhostError (SystemState * list Ev.Event) :=
  let a := tier_summary m in
  let? mem := dropping (some_event (psi_read now (psi PsiMemory) PsiMemory)) in
  let? io := dropping (some_event (psi_read now (psi PsiIo) PsiIo)) in
  let dp := match psi_value mem with
            | Some x => set_memory (ts_pressure a) (fmax (memory_pressure (ts_pressure a)) x) | None => ts_pressure a end in
  let ip := match psi_value io with Some x => mkPressure f32_zero f32_zero x 0 0 | None => PressureState_new end in
  Ok (mkSys dp (ts_dram a) (ts_swap a) (ts_zram a) ip None None, psi_events mem ++ psi_events io).

Section runtime.
Context `{Blake3}.

Definition select (now : Z) (rt : PolicyRuntime) (s : SystemState) : list Recommendation :=
  limit_recommendations rt (apply_cooldowns now rt (apply_stability rt (evaluate (rt_rules rt) s))).

Definition policy_evaluate (now : Z) (psi : PsiResource -> Text) (rt : PolicyRuntime)
    : outcome GhostError (list Recommendation * list Ev.Event * PolicyRuntime) :=
  let? se := build_system_state now psi (rt_inventory rt) in
  let limited := select now rt se.1 in
  Ok (limited, se.2 ++ [Ev.PolicyRecommendationGenerated 0 (rec_display <$> limited) (Level.display (pressure_level se.1))],
      mkRuntime (rt_inventory rt) now (rt_rules rt) (rt_stability rt) (cooldown_tracker rt) (stability_checker rt)).
End runtime.

(** ** No two recommendations conflict *)

Definition compatible (x y : Recommendation) : Prop := recommendations_conflict x y = false.
Abbreviation conflict_free := (ForallOrdPairs compatible).

Lemma conflict_symmetric x y : recommendations_conflict x y = recommendations_conflict y x.
Proof. destruct x, y; try done; cbn [recommendations_conflict]; apply bool_decide_ext; done. Qed.

Lemma no_action_never_conflicts h p : is_no_action p && recommendations_conflict h p = false.
Proof. by destruct p, h. Qed.

Lemma fop_filter {A} (R : A -> A -> Prop) (P : A -> Prop) `{!forall x, Decision (P x)} l : ForallOrdPairs R l -> ForallOrdPairs R (filter P l).
Proof.
  induction 1 as [|x l Hx _ IH]; [constructor|]. rewrite filter_cons. case_decide; [|done].
  constructor; [|done]. rewrite List.Forall_forall in *. intros y Hy%list_elem_of_In. apply list_elem_of_filter in Hy as [_ Hy].
  by apply Hx, list_elem_of_In.
Qed.

Lemma fop_snoc {A} (R : A -> A -> Prop) l h : ForallOrdPairs R l -> Forall (fun x => R x h) l -> ForallOrdPairs R (l ++ [h]).
Proof.
  induction 1 as [|x l Hx _ IH]; intros Hh; cbn [app]; [by repeat constructor|]. apply Forall_cons in Hh as [Hxh Hh].
  constructor; [|by apply IH]. apply List.Forall_app. split; [done|by constructor].
Qed.

Lemma fop_perm {A} (R : A -> A -> Prop) l k : (forall x y, R x y -> R y x) -> l ≡ₚ k -> ForallOrdPairs R l -> ForallOrdPairs R k.
Proof.
  intros Hsym. induction 1 as [|x l k Hp IH|x y l|l k m _ IH1 _ IH2]; intros H; [done| | |by auto].
  - inversion H; subst. constructor; [|by apply IH]. rewrite List.Forall_forall in *. intros z Hz. apply H2.
    rewrite <- list_elem_of_In in *. by rewrite Hp.
  - inversion H as [|? ? H1 H2]; subst. inversion H2 as [|? ? H3 H4]; subst. inversion H1; subst. by repeat constructor; auto.
Qed.

Lemma existsb_false {A} (f : A -> bool) l : existsb f l = false -> Forall (fun x => f x = false) l.
Proof. induction l as [|x l IH]; [constructor|]. cbn [existsb]. intros [H1 H2]%orb_false_iff. by constructor; auto. Qed.

Lemma merge_one_free r merged h : conflict_free merged -> conflict_free (merge_one r merged h).
Proof.
  intros Hm. unfold merge_one. destruct (existsb (recommendations_conflict h) merged) eqn:E.
  - assert (existsb (fun p => is_no_action p && recommendations_conflict h p) merged = false) as ->.
    { clear. induction merged as [|p l IH]; [done|]. cbn [existsb]. by rewrite no_action_never_conflicts. }
    case_match; [|done]. apply fop_snoc; [by apply fop_filter|]. apply Forall_forall.
    intros x [Hx _]%list_elem_of_filter. unfold compatible. by rewrite conflict_symmetric.
  - apply fop_snoc; [done|]. eapply Forall_impl; [by apply existsb_false|]. intros x Hx. unfold compatible. by rewrite conflict_symmetric.
Qed.

Section runtime_properties.
Context `{Blake3}.

Lemma pressure_free r s : conflict_free (evaluate_pressure r s).
Proof. unfold evaluate_pressure. repeat case_match; repeat constructor. Qed.

Lemma evaluate_free r s : conflict_free (evaluate r s).
Proof.
  unfold evaluate, merge_recommendations. generalize (pressure_free r s). generalize (evaluate_pressure r s) as l.
  match goal with |- context [fold_left _ ?x _] => induction x as [|h hs IH] end; intros l Hl; [done|].
  cbn [fold_left]. by apply IH, merge_one_free.
Qed.

Lemma by_confidence_sorted l : Forall (fun r => is_nan (rec_confidence r) = false) l ->
  StronglySorted (fun x y => by_confidence x y <> Gt) (sort_by by_confidence l).
Proof.
  apply (sort_by_sorted _ (fun r => is_nan (rec_confidence r) = false)); unfold by_confidence.
  - intros x y Hx Hy. by apply FloatOrder.fcmp_antisym.
  - intros x y z Hx Hy Hz H1 H2. by apply (FloatOrder.fcmp_trans _ (rec_confidence y)).
Qed.

(** What one selection promises of the recommendations of the rules. *)
Record selection_ok (rt : PolicyRuntime) (all out : list Recommendation) : Prop := {
  sel_known : Forall (fun r => r ∈ all) out;
  sel_free : conflict_free out;
  sel_confident : Forall (fun r => fge (rec_confidence r) (min_confidence_threshold (rt_stability rt)) = true) out;
  sel_sorted : StronglySorted (fun x y => fle (rec_confidence y) (rec_confidence x) = true) out;
  sel_count : (length out <= max_recommendations_per_cycle (rt_stability rt))%nat;
}.

Lemma sorted_impl {A} (R S : A -> A -> Prop) (P : A -> Prop) l : (forall x y, P x -> P y -> R x y -> S x y) ->
  Forall P l -> StronglySorted R l -> StronglySorted S l.
Proof.
  intros HRS Hp Hs. revert Hp. induction Hs as [|x l Hl IH Hx]; intros Hp; [constructor|]. apply Forall_cons in Hp as [Hpx Hp].
  constructor; [by apply IH|]. rewrite Forall_forall in *. auto.
Qed.

Lemma fop_take {A} (R : A -> A -> Prop) n (l : list A) : ForallOrdPairs R l -> ForallOrdPairs R (take n l).
Proof.
  intros H0. revert n. induction H0 as [|x l Hx _ IH]; intros [|n]; cbn [take]; try constructor; [|apply IH].
  rewrite List.Forall_forall in *. intros y Hy%list_elem_of_In. apply Hx, list_elem_of_In. by eapply subseteq_take.
Qed.

Lemma select_ok now rt s : selection_ok rt (evaluate (rt_rules rt) s) (select now rt s).
Proof.
  unfold select, limit_recommendations. set (kept := apply_cooldowns now rt (apply_stability rt (evaluate (rt_rules rt) s))).
  set (n := max_recommendations_per_cycle (rt_stability rt)).
  pose proof (sort_by_permutation by_confidence kept) as Hp.
  assert (Forall (fun r => r ∈ evaluate (rt_rules rt) s /\ fge (rec_confidence r) (min_confidence_threshold (rt_stability rt)) = true) kept) as Hk.
  { apply Forall_forall. intros r. unfold kept, apply_cooldowns, apply_stability.
    intros [_ [Hc Hr]%list_elem_of_filter]%list_elem_of_filter. done. }
  rewrite <- Hp in Hk. pose proof (Forall_take _ n _ Hk) as Ht.
  split.
  - eapply Forall_impl; [exact Ht|]. by intros r [? _].
  - apply fop_take. eapply fop_perm; [|symmetry; exact Hp|].
    + intros x y. unfold compatible. by rewrite conflict_symmetric.
    + unfold kept, apply_cooldowns, apply_stability. do 2 apply fop_filter. apply evaluate_free.
  - eapply Forall_impl; [exact Ht|]. by intros r [_ ?].
  - assert (Forall (fun r => is_nan (rec_confidence r) = false) (sort_by by_confidence kept)) as Hn.
    { eapply Forall_impl; [exact Hk|]. intros r [_ Hc]. by destruct (FloatOrder.fle_not_nan _ _ Hc). }
    eapply (sorted_impl (fun x y => by_confidence x y <> Gt) _ (fun r => is_nan (rec_confidence r) = false)).
    + intros x y Hx Hy. unfold by_confidence. by apply FloatOrder.fcmp_fle.
    + by apply Forall_take.
    + rewrite Hp in Hn. apply by_confidence_sorted in Hn.
      rewrite <- (take_drop n (sort_by by_confidence kept)) in Hn. by apply StronglySorted_app_1_l in Hn.
  - rewrite length_take. lia.
Qed.

(** C34: One cycle of the policy never fails, whatever the pressure files hold,
    and returns recommendations of the rules, no two in conflict (a chunk is
    not both promoted and moved out, cold chunks are not sent to two places),
    each at least as confident as the threshold, the most confident first, no
    more than the configured number; the cycle notes when it ran, announces
    what it returned and changes nothing else. *)
Theorem policy_cycle now psi rt : calm (psi PsiMemory) -> calm (psi PsiIo) ->
  exists s evs out, build_system_state now psi (rt_inventory rt) = Ok (s, evs) /\
    policy_evaluate now psi rt =
      Ok (out, evs ++ [Ev.PolicyRecommendationGenerated 0 (rec_display <$> out) (Level.display (pressure_level s))],
          mkRuntime (rt_inventory rt) now (rt_rules rt) (rt_stability rt) (cooldown_tracker rt) (stability_checker rt)) /\
    selection_ok rt (evaluate (rt_rules rt) s) out.
Proof.
  intros Hm Hi. unfold policy_evaluate.
  assert (exists se, build_system_state now psi (rt_inventory rt) = Ok se) as [[s evs] E].
  { unfold build_system_state.
    destruct (dropping_calm (some_event (psi_read now (psi PsiMemory) PsiMemory))) as [x ->]; [by apply calm_bind; [apply psi_calm|]|].
    cbn [obind]. destruct (dropping_calm (some_event (psi_read now (psi PsiIo) PsiIo))) as [y ->]; [by apply calm_bind; [apply psi_calm|]|].
    cbn [obind]. eauto. }
  rewrite E. cbn [obind fst snd]. eexists s, evs, _. split_and!; [done|done|apply select_ok].
Qed.
End runtime_properties.

Definition critical_psi (r : PsiResource) : Text :=
  match r with PsiMemory => Ok "full avg10=9.50 avg60=0.00 avg300=0.00 total=3" | _ => Err (EInternal "absent") end.

Definition kinds_of {B C} (o : outcome GhostError (list Recommendation * B * C)) : list string :=
  match o with Ok (l, _, _) => rec_kind <$> l | _ => [] end.

Lemma policy_cycle_witness : exists s evs out rt',
  build_system_state 40 critical_psi ∅ = Ok (s, evs) /\ pressure_level s = Level.Critical /\
  policy_evaluate (H := ex_blake3) 40 critical_psi (Runtime_new ∅) = Ok (out, evs ++ [Ev.PolicyRecommendationGenerated 0 (rec_display <$> out) "critical"], rt') /\
  (rec_kind <$> out) = ["evict_cold"; "move_to_disk_swap"] /\ last_evaluation rt' = 40.
Proof.
  destruct (policy_cycle (H := ex_blake3) 40 critical_psi (Runtime_new ∅)) as (s & evs & out & Hs & He & _); [exact I..|].
  change (rt_inventory (Runtime_new ∅)) with (∅ : Inventory) in *.
  assert (pressure_level s = Level.Critical) as Hl.
  { revert Hs. clear. vm_compute. by intros [= <- _]. }
  eexists s, evs, out, _. split_and!; [exact Hs|exact Hl| | |].
  - rewrite He, Hl. reflexivity.
  - transitivity (kinds_of (policy_evaluate (H := ex_blake3) 40 critical_psi (Runtime_new ∅))); [by rewrite He|].
    vm_compute. reflexivity.
  - reflexivity.
Defined.

(** ** Cooldowns *)

Lemma prune_lookup now (m : gmap string Z) key cd :
  filter (fun x => (sat_sub now x.2 <? cd) = true) m !! key =
  match m !! key with Some t => if sat_sub now t <? cd then Some t else None | None => None end.
Proof.
  rewrite map_lookup_filter. destruct (m !! key) as [t|]; [|done]. cbn [mbind option_bind snd].
  destruct (sat_sub now t <? cd) eqn:E.
  - by rewrite option_guard_True.
  - by rewrite option_guard_False.
Qed.

(** A region recommended at [t] may be recommended again exactly when the
    cooldown has passed; the remaining cooldown is the wait that is needed and
    no more; other regions are unaffected; and pruning expired entries at any
    moment changes no answer from then on. *)
Theorem cooldown_exact now key t tr :
  let tr' := record_recommendation t key tr in
  let cd := recommendation_cooldown_secs (cool_config tr) in
  0 <= t <= now ->
  can_recommend now key tr' = (t + cd <=? now) /\
  (forall w, remaining_cooldown now key tr' = Some w <-> now < t + cd /\ w = t + cd - now) /\
  (forall k, k <> key -> can_recommend now k tr' = can_recommend now k tr) /\
  (forall p k, p <= now ->
     can_recommend now k (prune_expired p tr') = can_recommend now k tr' /\
     is_suppressed now k (prune_expired p tr') = is_suppressed now k tr').
Proof.
  intros tr' cd Ht. split_and!.
  - unfold can_recommend. cbn. rewrite lookup_insert_eq. fold cd. unfold sat_sub.
    destruct (Z.leb_spec cd (Z.max 0 (now - t))), (Z.leb_spec (t + cd) now); lia.
  - intros w. unfold remaining_cooldown. cbn. rewrite lookup_insert_eq. cbn. fold cd. unfold sat_sub.
    destruct (Z.ltb_spec (Z.max 0 (now - t)) cd) as [Hlt|Hge]; [|split; [done|lia]].
    split; [intros [= <-]; lia|intros [? ->]; f_equal; lia].
  - intros k Hk. unfold can_recommend. cbn. by rewrite lookup_insert_ne by done.
  - intros p k Hp. unfold can_recommend, is_suppressed, prune_expired. cbn [last_recommendation last_suppression cool_config].
    rewrite !prune_lookup. set (m := last_recommendation tr'). set (m' := last_suppression tr').
    split; [destruct (m !! k) as [x|]|destruct (m' !! k) as [x|]]; try done; unfold sat_sub.
    + destruct (Z.ltb_spec (Z.max 0 (p - x)) (recommendation_cooldown_secs (cool_config tr'))); [done|]. symmetry. apply Z.leb_le. lia.
    + destruct (Z.ltb_spec (Z.max 0 (p - x)) (suppression_cooldown_secs (cool_config tr'))); [done|]. symmetry. apply Z.ltb_ge. lia.
Qed.

Lemma cooldown_exact_witness :
  let tr := record_recommendation 100 "r" (Cooldown_new StabilityConfig_default) in
  can_recommend 129 "r" tr = false /\ remaining_cooldown 129 "r" tr = Some 1 /\ can_recommend 129 "s" (prune_expired 110 tr) = true.
Proof.
  destruct (cooldown_exact 129 "r" 100 (Cooldown_new StabilityConfig_default)) as (H1 & H2 & H3 & H4); [lia|].
  cbv zeta. rewrite H1. split_and!; [done|by apply H2|]. destruct (H4 110 "s") as [-> _]; [lia|]. by rewrite H3.
Defined.

(** The runtime records no recommendation: from construction on its cooldown
    tracker stays empty, and the cooldown filter lets everything through. *)
Definition fresh_cooldowns (rt : PolicyRuntime) : Prop := last_recommendation (cooldown_tracker rt) = ∅.

Lemma fresh_new m r c : fresh_cooldowns (with_stability m r c).
Proof. done. Qed.
Lemma fresh_evaluate `{Blake3} now psi rt out evs rt' :
  policy_evaluate now psi rt = Ok (out, evs, rt') -> fresh_cooldowns rt -> fresh_cooldowns rt'.
Proof. unfold policy_evaluate. destruct (build_system_state _ _ _); [|done..]. cbn [obind]. by intros [= _ _ <-]. Qed.
Lemma cooldown_inert now rt l : fresh_cooldowns rt -> apply_cooldowns now rt l = l.
Proof.
  intros Hf. unfold apply_cooldowns, can_recommend. rewrite Hf. induction l as [|r l IH]; [done|].
  rewrite filter_cons_True by (by rewrite lookup_empty). by rewrite IH.
Qed.

(** ** Stability *)

Lemma stab_history_suffix c key ts :
  ts <> [] -> stab_history (fold_left (fun s t => stab_record key t s) ts (Stability_new c)) !! key
  = Some (last_n (temperature_stability_window c * 2) ts).
Proof.
  set (w := (temperature_stability_window c * 2)%nat). intros Hne.
  enough (forall ts s seen, stab_config s = c -> default [] (stab_history s !! key) = last_n w seen -> (ts <> [] \/ stab_history s !! key <> None) ->
    stab_history (fold_left (fun s t => stab_record key t s) ts s) !! key = Some (last_n w (seen ++ ts))) as Hg.
  { apply (Hg ts (Stability_new c) []); [done| |by left]. by rewrite last_n_all by (cbn; lia). }
  clear ts Hne. induction ts as [|t ts IH]; intros s seen Hc Hh Hor.
  - rewrite app_nil_r. cbn [fold_left]. destruct Hor as [?|Hn]; [done|]. destruct (stab_history s !! key) as [l|]; [|done].
    cbn in Hh. by subst.
  - cbn [fold_left]. rewrite (IH _ (seen ++ [t])); [by rewrite <- app_assoc|done| |].
    + unfold stab_record. cbn [stab_history]. rewrite lookup_insert_eq. cbn [default from_option]. change (id ?x) with x.
      rewrite trim_last_n by lia. rewrite Hh, Hc. apply last_n_app.
    + right. unfold stab_record. cbn [stab_history]. by rewrite lookup_insert_eq.
Qed.

Lemma last_n_last_n {A} n m (l : list A) : (n <= m)%nat -> last_n n (last_n m l) = last_n n l.
Proof. intros H. unfold last_n. rewrite length_drop, drop_drop. f_equal. lia. Qed.

Lemma forallb_same {A} `{EqDecision A} (x : A) l : forallb (fun t => bool_decide (t = x)) l = true <-> l = replicate (length l) x.
Proof.
  induction l as [|y l IH]; [done|]. cbn [forallb length replicate]. rewrite andb_true_iff, bool_decide_eq_true, IH.
  split; [intros [-> Hl]; congruence|]. by intros [= -> Hl].
Qed.

(** After any observations of a region, its temperature is reported stable
    exactly when at least a window of them was made and the last window agrees;
    the stable temperature is then the one observed. *)
Theorem stability_window c key ts :
  let w := temperature_stability_window c in
  let s := fold_left (fun s t => stab_record key t s) ts (Stability_new c) in
  (0 < w)%nat -> exists b, is_stable (E := GhostError) key s = Ok b /\
    (b = true <-> (w <= length ts)%nat /\ exists t, last_n w ts = replicate w t) /\
    (forall t, (w <= length ts)%nat -> last_n w ts = replicate w t -> stable_temperature (E := GhostError) key s = Ok (Some t)).
Proof.
  intros w s Hw. destruct (decide (ts = [])) as [->|Hne].
  { exists false. split_and!; [done| |cbn; lia]. split; [done|]. cbn. intros [? _]. lia. }
  pose proof (stab_history_suffix c key ts Hne) as Hh. fold w s in Hh.
  assert (stab_config s = c) as Hc.
  { unfold s. clear. set (s0 := Stability_new c). assert (stab_config s0 = c) as H by done. revert H. generalize s0. clear.
    induction ts as [|t ts IH]; intros s Hs; [done|]. cbn [fold_left]. by apply IH. }
  assert (length (last_n (w * 2) ts) = Nat.min (w * 2) (length ts)) as Hlen by (unfold last_n; rewrite length_drop; lia).
  unfold stable_temperature, is_stable. rewrite Hh, Hc. fold w. rewrite Hlen.
  destruct (Nat.ltb_spec (Nat.min (w * 2) (length ts)) w) as [Hlt|Hge].
  { exists false. split_and!; [done| |intros; lia]. split; [done|]. intros [? _]. lia. }
  rewrite <- Hlen. fold (last_n w (last_n (w * 2) ts)). rewrite last_n_last_n by lia.
  assert (length (last_n w ts) = w) as Hwl by (unfold last_n; rewrite length_drop; lia).
  destruct (last_n w ts) as [|x l] eqn:E; [cbn in Hwl; lia|]. eexists. split; [reflexivity|].
  rewrite forallb_same, Hwl. assert (forall t, x :: l = replicate w t -> x = t) as Hx.
  { intros t Ht. destruct w; [lia|]. by injection Ht as ->. }
  split; [split; [intros H; split; [lia|by exists x]|intros [_ [t Ht]]; by rewrite (Hx _ Ht) at 2]|].
  intros t _ Ht. rewrite (Hx _ Ht) in Ht |- *. cbn [obind]. rewrite (proj2 (forallb_same t (t :: l))) by (by rewrite Ht, length_replicate). done.
Qed.

Lemma stability_window_witness :
  let s := fold_left (fun s t => stab_record "r" t s) [Hot; Cold; Warm; Warm; Warm] (Stability_new StabilityConfig_default) in
  stable_temperature (E := GhostError) "r" s = Ok (Some Warm).
Proof.
  destruct (stability_window StabilityConfig_default "r" [Hot; Cold; Warm; Warm; Warm]) as (b & _ & _ & H); [cbn; lia|].
  apply H; [cbn; lia|reflexivity].
Defined.

(** ** ZRAM at run time *)

(** With a ZRAM tier that holds anything, the runtime never sees it below the
    threshold, so high pressure goes to swap or to eviction, never to ZRAM. *)
Lemma summary_zram l : forall a, ts_zram (fold_left summarize l a) =
  match last (filter (fun t => ti_kind t = Kind.Zram) l) with Some t => Some (cast f32 (utilization t)) | None => ts_zram a end.
Proof.
  induction l as [|t l IH]; intros a; [done|]. cbn [fold_left]. rewrite IH. rewrite filter_cons.
  destruct (last (filter _ l)) as [x|] eqn:E.
  - case_decide; [|by rewrite E]. rewrite last_cons, E. done.
  - case_decide as Hk.
    + rewrite last_cons, E. unfold summarize. by rewrite Hk.
    + rewrite E. unfold summarize. by destruct (ti_kind t).
Qed.

Lemma wf_zram m t : inventory_wf m -> m !! GpuVram = Some t ->
  last (filter (fun t => ti_kind t = Kind.Zram) (btree_values m)) = Some t.
Proof.
  intros Hm Ht. assert (t ∈ filter (fun t => ti_kind t = Kind.Zram) (btree_values m)) as Hin.
  { apply list_elem_of_filter. split; [by apply (Hm _ _ Ht)|]. apply list_elem_of_fmap. exists (GpuVram, t).
    split; [done|by apply elem_of_btree_iter]. }
  destruct (last (filter _ (btree_values m))) as [x|] eqn:E.
  - apply last_Some_elem_of in E. apply list_elem_of_filter in E as [Hk Hx]. apply list_elem_of_fmap in Hx as [[id y] [-> Hx]].
    apply elem_of_btree_iter in Hx. cbn [snd] in *. destruct (Hm _ _ Hx) as (_ & Hk' & _). rewrite Hk in Hk'.
    destruct id; try done. congruence.
  - apply last_None in E. rewrite E in Hin. by apply not_elem_of_nil in Hin.
Qed.

Lemma runtime_zram_full now psi m t s evs r : inventory_wf m -> m !! GpuVram = Some t -> total_bytes t <> 0 ->
  fle (zram_high_threshold r) (of_int f32 1) = true -> build_system_state now psi m = Ok (s, evs) -> zram_below r s = false.
Proof.
  intros Hm Ht Hne Hthr H. unfold build_system_state in H. apply obind_ok in H as (x & _ & H). apply obind_ok in H as (y & _ & H).
  injection H as <- _. unfold zram_below. cbn [zram_utilization]. unfold tier_summary. rewrite summary_zram, (wf_zram _ _ Hm Ht).
  by eapply zram_counts_full.
Qed.

(** The ZRAM tier reports all of its bytes as used, so once it holds data
    the policy takes it for full: under high pressure the cycle's rules send
    nothing to ZRAM, whatever room it has. *)
Theorem high_pressure_skips_zram `{Blake3} now psi m t s evs r :
  inventory_wf m -> m !! GpuVram = Some t -> total_bytes t <> 0 -> fle (zram_high_threshold r) (of_int f32 1) = true ->
  build_system_state now psi m = Ok (s, evs) -> pressure_level s = Level.High ->
  Forall (fun x => rec_kind x <> "move_to_zram") (evaluate r s).
Proof.
  intros Hm Ht Hne Hthr Hb Hl. pose proof (runtime_zram_full now psi m t s evs r Hm Ht Hne Hthr Hb) as Hz.
  unfold build_system_state in Hb. apply obind_ok in Hb as (x & _ & Hb). apply obind_ok in Hb as (y & _ & Hb).
  injection Hb as Hs _. assert (hotness_summary s = None) as Hn by (by rewrite <- Hs). clear Hs. unfold evaluate. rewrite Hn.
  unfold merge_recommendations. cbn [fold_left]. unfold evaluate_pressure. rewrite Hl, Hz. by case_match; repeat constructor.
Qed.

Definition high_psi (r : PsiResource) : Text :=
  match r with PsiMemory => Ok "full avg10=8.00 avg60=0.00 avg300=0.00 total=3" | _ => Err (EInternal "absent") end.
Definition zram_inventory : Inventory := {[GpuVram := with_bytes 4096 4096 0 9 (TierInfo_new GpuVram Kind.Zram "ZRAM")]}.

Lemma high_pressure_skips_zram_witness : exists s evs, build_system_state 9 high_psi zram_inventory = Ok (s, evs) /\
  Forall (fun x => rec_kind x <> "move_to_zram") (evaluate (H := ex_blake3) PolicyRules_default s).
Proof.
  destruct (build_system_state 9 high_psi zram_inventory) as [[s evs]| |] eqn:E; [|vm_compute in E; done..].
  exists s, evs. split; [done|].
  eapply (high_pressure_skips_zram (H := ex_blake3) 9 high_psi zram_inventory); [|reflexivity| | |exact E|].
  - apply map_Forall_singleton. by repeat split.
  - done.
  - vm_compute. reflexivity.
  - revert E. clear. vm_compute. by intros [= <- _].
Defined.
