(* ===== verification/Scanner.v ===== *)
(** * The system scanner: [ghost-linux/src/scanner.rs]

    A scan reads the simulated sources, discovers the tiers, evaluates the
    policy and puts everything in one snapshot, which can be recorded.  All
    readings of one scan are at one clock reading.  The policy runtime of a
    scanner has an inventory of its own, which no scan fills. *)

From Stdlib Require Import ZArith Lia.
From stdpp Require Import base gmap strings pretty list.
From S2P Require Import Prelude Floats CoreTypes Pressure Events LinuxSources LinuxSim LinuxTiers LinuxPolicy Frame Recorder.

Open Scope rust_scope.

Record SystemScanner := mkScanner {
  sc_seed : Z;
  sc_inventory : Inventory;
  sc_runtime : PolicyRuntime;
}.

Definition Scanner_new (seed : Z) : SystemScanner := mkScanner seed ∅ (Runtime_new ∅).
Definition new_real : SystemScanner := mkScanner 0 ∅ (Runtime_new ∅).

(** [filter_map(|r| r.ok())]: errors are dropped, a panic is not. *)
Fixpoint oks {A B} (l : list (outcome GhostError (A * option B))) : outcome GhostError (list A * list B) :=
  match l with
  | [] => Ok ([], [])
  | o :: l =>
      match o with
      | Ok (a, e) => let? r := oks l in Ok (a :: r.1, match e with Some e => e :: r.2 | None => r.2 end)
      | Err _ => oks l
      | Panic m => Panic m
      end
  end.

Definition nonempty {A} (l : list A) : option (list A) := match l with [] => None | _ => Some l end.
Definition read_value {A} (o : option (A * list Ev.Event)) : option A := fst <$> o.
Definition read_events {A} (o : option (A * list Ev.Event)) : list Ev.Event := match o with Some (_, e) => e | None => [] end.

Section scanner.
Context `{RangeRng} `{Blake3} (b : Build).

(** The snapshot, the events in the order of emission, and the scanner after. *)
Definition scan (now : Z) (k : Kernel) (sc : SystemScanner)
    : outcome GhostError (LinuxSnapshot * list Ev.Event * SystemScanner) :=
  let? psi := oks (sim_psi_read_all b (sc_seed sc) now None) in
  let? mem := dropping (sim_meminfo_read (sc_seed sc) now None) in
  let? vm := dropping (sim_vmstat_read (sc_seed sc) now None) in
  let? swap := dropping (sim_swaps_read b (sc_seed sc) now None) in
  let? zram := dropping (sim_zram_read b (sc_seed sc) now None) in
  let? inv := discover b now k (sc_inventory sc) in
  let? pol := dropping (policy_evaluate now (k_psi k) (sc_runtime sc)) in
  let '(recs, pevs, rt) := match pol with
                           | Some (l, e, rt) => (l, e, rt) | None => ([], [], sc_runtime sc) end in
  Ok (mkLinuxSnap now (nonempty psi.1) (read_value mem) (read_value vm) (read_value swap) (read_value zram)
        (nonempty (btree_values inv.1)) (rec_display <$> recs),
      psi.2 ++ read_events mem ++ read_events vm ++ read_events swap ++ read_events zram ++ inv.2 ++ pevs,
      mkScanner (sc_seed sc) inv.1 rt).

(** A scan as a call on the scanner, which is not used again after a panic. *)
Definition scan_step (now : Z) (k : Kernel) : M SystemScanner GhostError LinuxSnapshot := fun sc =>
  match scan now k sc with
  | Ok (snap, _, sc') => (Ok snap, sc')
  | Err e => (Err e, sc)
  | Panic m => (Panic m, sc)
  end.

Definition scan_and_record `{RecordCodec} (now : Z) (k : Kernel)
    : M (SystemScanner * LinuxRecorder) GhostError LinuxSnapshot := fun s =>
  match scan_step now k s.1 with
  | (Ok snap, sc) =>
      match record_scan snap s.2 with
      | (Ok _, r) => (Ok snap, (sc, r))
      | (Err e, r) => (Err e, (sc, r))
      | (Panic m, r) => (Panic m, (sc, r))
      end
  | (Err e, sc) => (Err e, (sc, s.2))
  | (Panic m, sc) => (Panic m, (sc, s.2))
  end.

(** The loop: one scan per clock reading until shutdown is seen; an error is
    logged. *)
Fixpoint run_continuous (l : list (Z * Kernel)) (sc : SystemScanner) : SystemScanner :=
  match l with
  | [] => sc
  | (now, k) :: l =>
      match scan_step now k sc with
      | (Panic _, sc') => sc'
      | (_, sc') => run_continuous l sc'
      end
  end.

(** ** The policy of a scanner *)

(** The runtime as it was created, but for the time of the last evaluation. *)
Definition blind (rt : PolicyRuntime) : Prop := exists t,
  rt = mkRuntime ∅ t PolicyRules_default StabilityConfig_default (Cooldown_new StabilityConfig_default) (Stability_new StabilityConfig_default).

Lemma evaluate_blind now psi rt l evs rt' : blind rt -> policy_evaluate now psi rt = Ok (l, evs, rt') -> blind rt'.
Proof.
  intros [t ->]. unfold policy_evaluate. cbn [rt_inventory]. destruct (build_system_state now psi ∅); cbn [obind]; [|done..].
  intros [= _ _ <-]. by eexists.
Qed.

Lemma scan_blind now k sc snap evs sc' :
  blind (sc_runtime sc) -> scan now k sc = Ok (snap, evs, sc') -> blind (sc_runtime sc') /\ sc_seed sc' = sc_seed sc.
Proof.
  intros Hb. unfold scan. intros E. do 6 apply obind_ok in E as (? & _ & E). apply obind_ok in E as (pol & Epol & E).
  destruct pol as [[[l e] rt]|]; injection E as _ _ <-; cbn [sc_runtime sc_seed]; [|done]. split; [|done].
  apply (evaluate_blind now (k_psi k) (sc_runtime sc) l e); [done|].
  unfold dropping in Epol. by destruct (policy_evaluate now (k_psi k) (sc_runtime sc)); simplify_eq/=.
Qed.

Lemma run_continuous_blind l : forall sc, blind (sc_runtime sc) ->
  blind (sc_runtime (run_continuous l sc)) /\ sc_seed (run_continuous l sc) = sc_seed sc.
Proof.
  induction l as [|[now k] l IH]; intros sc Hb; [done|]. cbn [run_continuous]. unfold scan_step.
  destruct (scan now k sc) as [[[snap evs] sc']|e|m] eqn:E; [|by apply IH|done].
  destruct (scan_blind _ _ _ _ _ _ Hb E) as [Hb' <-]. by apply IH.
Qed.
End scanner.

(** ** Scans succeed *)

Lemma draw_calm `{RangeRng} lo hi g : lo < hi -> calm (draw lo hi g).
Proof. intros Hl. destruct (draw_ok lo hi g Hl) as (v & g' & -> & _). done. Qed.

Lemma sim_psi_calm `{RangeRng} seed now r : calm (sim_psi_read Release seed now None r).
Proof.
  unfold sim_psi_read, sim_psi_sample. apply calm_bind; [|done].
  do 2 (apply calm_bind; [unfold arith; by case_match|intros ?]).
  repeat (destruct (rr_float _ _ _) as [? ?]). apply calm_bind; [by apply draw_calm|done].
Qed.

Lemma sim_zram_devices_ok `{RangeRng} n : forall i g, exists ds, sim_devices sim_zram_device i n g = Ok ds.
Proof.
  induction n as [|n IH]; intros i g; [by eexists|]. cbn [sim_devices]. unfold sim_zram_device at 1.
  destruct (draw_ok 256000 8388608 g) as (orig & g1 & -> & Ho); [lia|]. cbn [obind]. destruct (rr_float _ _ g1) as [ratio g2].
  destruct (draw_ok 0 (orig + 1) g2) as (mem & g3 & -> & _); [lia|]. cbn [obind].
  destruct (draw_ok 1 9 g3) as (st & g4 & -> & _); [lia|]. cbn [obind].
  destruct (draw_ok 0 (Z.of_nat (length algorithms)) g4) as (idx & g5 & -> & Hi); [cbn; lia|]. cbn [obind].
  destruct (lookup_lt_is_Some_2 algorithms (Z.to_nat idx)) as [a ->]; [lia|]. cbn [obind].
  destruct (IH (S i) g5) as [ds ->]. cbn [obind]. eauto.
Qed.

Lemma sim_zram_ok `{RangeRng} seed now : exists z, sim_zram_read Release seed now None = Ok z.
Proof.
  unfold sim_zram_read, sim_zram_snapshot. destruct (draw_ok 1 4 (rr_seed seed)) as (n & g & -> & _); [lia|]. cbn [obind].
  destruct (sim_zram_devices_ok (Z.to_nat n) 0 g) as [ds ->]. cbn [obind]. unfold build_snapshot.
  destruct (sum64_release (E := GhostError) (orig_size_kb <$> ds) 0) as [x ->]. cbn [obind].
  destruct (sum64_release (E := GhostError) (comp_size_kb <$> ds) 0) as [y ->]. cbn [obind]. eauto.
Qed.

Lemma oks_calm {A B} (l : list (outcome GhostError (A * option B))) : Forall calm l -> exists r, oks l = Ok r.
Proof.
  induction 1 as [|[[a e]|?|?] l Ho _ IH]; cbn [oks]; [eauto| |done|done]. destruct IH as [r ->]. cbn [obind]. eauto.
Qed.

(** What the policy of a scanner sees: the PSI files and nothing else. *)
Lemma blind_state now psi : calm (psi PsiMemory) -> calm (psi PsiIo) ->
  exists s evs, build_system_state now psi ∅ = Ok (s, evs) /\
    swap_utilization s = f32_zero /\ zram_utilization s = None /\ hotness_summary s = None.
Proof.
  intros Hm Hi. unfold build_system_state.
  destruct (dropping_calm (some_event (psi_read now (psi PsiMemory) PsiMemory))) as [x ->]; [by apply calm_bind; [apply psi_calm|]|].
  cbn [obind]. destruct (dropping_calm (some_event (psi_read now (psi PsiIo) PsiIo))) as [y ->]; [by apply calm_bind; [apply psi_calm|]|].
  cbn [obind]. do 2 eexists. split; [reflexivity|]. done.
Qed.

Definition to_zram_or_demote (r : Recommendation) : bool :=
  match r with MoveToZram _ _ _ _ | DemoteHot _ _ _ _ => true | _ => false end.

Lemma evaluate_without_zram `{Blake3} r s : zram_utilization s = None -> hotness_summary s = None ->
  Forall (fun x => to_zram_or_demote x = false) (evaluate r s).
Proof.
  intros Hz Hh. unfold evaluate. rewrite Hh. unfold merge_recommendations. cbn [fold_left]. unfold evaluate_pressure, zram_below.
  rewrite Hz. destruct (pressure_level s); repeat case_match; by repeat constructor.
Qed.

Lemma select_Forall `{Blake3} (Q : Recommendation -> Prop) now rt s : Forall Q (evaluate (rt_rules rt) s) -> Forall Q (select now rt s).
Proof.
  intros HQ. unfold select, limit_recommendations. apply Forall_take. rewrite sort_by_permutation.
  unfold apply_cooldowns, apply_stability. rewrite Forall_forall in *. intros x Hx.
  apply list_elem_of_filter in Hx as [_ Hx]. apply list_elem_of_filter in Hx as [_ Hx]. by apply HQ.
Qed.

(** A scan of a scanner that has scanned before, whatever it found.  In a
    release build, when the simulated statistics can be drawn, it succeeds, and
    its recommendations are those of a new runtime for the pressure files alone:
    the policy takes swap to be empty and sees no ZRAM, whatever the scan itself
    reports of them, and never recommends to move anything to ZRAM. *)
Theorem scan_recommends_blindly `{RangeRng} `{Blake3} seed history now k :
  let sc := run_continuous Release history (Scanner_new seed) in
  kernel_calm k -> calm (k_psi k PsiIo) -> calm (sim_vmstat_read seed now None) ->
  exists snap evs sc' s evs', scan Release now k sc = Ok (snap, evs, sc') /\
    build_system_state now (k_psi k) ∅ = Ok (s, evs') /\
    ls_recommendations snap = rec_display <$> select now (Runtime_new ∅) s /\
    swap_utilization s = f32_zero /\ zram_utilization s = None /\
    Forall (fun r => to_zram_or_demote r = false) (select now (Runtime_new ∅) s) /\
    is_Some (ls_swap snap) /\ is_Some (ls_zram snap).
Proof.
  intros sc Hk Hio Hvm. destruct (run_continuous_blind Release history (Scanner_new seed)) as [[t Hrt] Hseed]; [by eexists|].
  fold sc in Hrt, Hseed. cbn [Scanner_new sc_seed] in Hseed. unfold scan. rewrite Hseed, Hrt.
  destruct (oks_calm (sim_psi_read_all Release seed now None)) as [psi ->].
  { unfold sim_psi_read_all. repeat constructor; apply sim_psi_calm. }
  cbn [obind]. destruct (sim_meminfo_ok seed now) as (mem & -> & _). cbn [dropping obind].
  destruct (dropping_calm _ Hvm) as [vm ->]. cbn [obind]. destruct (sim_swaps_ok Release seed now) as (sw & -> & _). cbn [dropping obind].
  destruct (sim_zram_ok seed now) as [zr ->]. cbn [dropping obind].
  destruct (run_op_release (ODiscover now k) (sc_inventory sc) Hk) as [inv Ei]. cbn [run_op] in Ei. rewrite Ei. cbn [obind].
  destruct (blind_state now (k_psi k)) as (s & evs' & Es & Hsw & Hzr & Hh); [apply Hk|done|].
  unfold policy_evaluate. cbn [rt_inventory]. rewrite Es. cbn [obind dropping fst snd].
  eexists _, _, _, s, evs'. split; [reflexivity|]. cbn [ls_recommendations ls_swap ls_zram read_value fmap option_fmap option_map].
  split_and!; [done..| |by eexists|by eexists].
  apply select_Forall. by apply evaluate_without_zram.
Qed.

(** A generator that draws the upper end, and a machine with its swap full and
    high memory pressure. *)
Definition ex_top_rng : RangeRng.
Proof.
  refine {| rr_state := unit; rr_seed _ := tt; rr_range _ hi g := (hi - 1, g); rr_float lo _ g := (lo, g); rr_bool _ g := (false, g) |}.
  intros lo hi g Hlt. cbn. lia.
Defined.

Definition ex_full_swaps : string :=
  "Filename Type Size Used Priority" +:+ String Str.nl ("/dev/sda2 partition 8388604 8388604 -2" +:+ String Str.nl EmptyString).
Definition ex_kernel : Kernel := mkKernel (Err (EIo "absent")) high_psi (Ok ex_full_swaps) [].

Lemma scan_recommends_blindly_witness :
  exists snap evs sc' s evs',
    scan (H := ex_top_rng) (H0 := ex_blake3) Release 9 ex_kernel (run_continuous (H := ex_top_rng) (H0 := ex_blake3) Release [(4, ex_kernel)] (Scanner_new 7)) = Ok (snap, evs, sc') /\
    build_system_state 9 (k_psi ex_kernel) ∅ = Ok (s, evs') /\
    ls_recommendations snap = rec_display <$> select (H := ex_blake3) 9 (Runtime_new ∅) s /\
    (rec_kind <$> select (H := ex_blake3) 9 (Runtime_new ∅) s) = ["move_to_disk_swap"%string].
Proof.
  destruct (scan_recommends_blindly (H := ex_top_rng) (H0 := ex_blake3) 7 [(4, ex_kernel)] 9 ex_kernel)
    as (snap & evs & sc' & s & evs' & E & Es & Er & _); [vm_compute; tauto|vm_compute; tauto|vm_compute; tauto|].
  exists snap, evs, sc', s, evs'. split; [exact E|]. split; [exact Es|]. split; [exact Er|].
  assert (Ok (E := GhostError) (s, evs') = build_system_state 9 (k_psi ex_kernel) ∅) as Hs by (symmetry; exact Es).
  clear E Er. vm_compute in Hs. injection Hs as -> _. vm_compute. reflexivity.
Defined.
