(* ===== verification/Metrics.v ===== *)
(** * The metrics registry: [ghost-metrics]

    The metric families each struct of [ghost-metrics/src] creates and
    registers, the operations on their values, the handler that counts events
    and the counters of the collector.  The registry of the [prometheus] crate
    is the interface [Prometheus]; a struct is the list of its metrics in the
    order of registration, and of the structs with operations also the record
    of the values. *)

From Stdlib Require Import ZArith Lia Ascii SpecFloat.
From stdpp Require Import base gmap strings list sorting.
From S2P Require Import Prelude Floats CoreTypes Events EventBus Regions.

Open Scope rust_scope.

(** ** Metrics and the registry *)

Inductive MetricKind := KCounter | KGauge | KCounterVec (labels : list string) | KHistogram (buckets : list float).
Record Metric := mkMetric { metric_name : string; metric_kind : MetricKind }.

(** [[a-zA-Z_:][a-zA-Z0-9_:]*] *)
Definition name_start (a : ascii) : bool :=
  let n := N_of_ascii a in
  ((97 <=? n) && (n <=? 122) || (65 <=? n) && (n <=? 90) || (n =? 95) || (n =? 58))%N.
Definition name_char (a : ascii) : bool := name_start a || (let n := N_of_ascii a in (48 <=? n) && (n <=? 57))%N.
Fixpoint name_rest (s : string) : bool :=
  match s with EmptyString => true | String a s => name_char a && name_rest s end.
Definition valid_name (s : string) : bool :=
  match s with EmptyString => false | String a s => name_start a && name_rest s end.

Fixpoint increasing (l : list float) : bool :=
  match l with x :: (y :: _) as l' => flt x y && increasing l' | _ => true end.
Definition valid_metric (m : Metric) : bool :=
  valid_name (metric_name m) &&
  match metric_kind m with KHistogram bs => increasing bs | KCounterVec ls => forallb valid_name ls | _ => true end.

(** What is relied on of the registry: a metric that is valid and whose name is
    new is registered, one whose name is taken is refused. *)
Class Prometheus := {
  Registry : Type;
  registry_new : Registry;
  registered : Registry -> list string;
  register : Metric -> Registry -> outcome string Registry;
  registered_new : registered registry_new = [];
  register_ok : forall m r, valid_metric m = true -> metric_name m ∉ registered r ->
    exists r', register m r = Ok r' /\ registered r' = registered r ++ [metric_name m];
  register_taken : forall m r, metric_name m ∈ registered r -> exists e, register m r = Err e;
}.

Definition queue_metrics : list Metric := [
  mkMetric "ghostpages_queue_depth" KGauge;
  mkMetric "ghostpages_queue_submitted_total" KCounter;
  mkMetric "ghostpages_queue_dequeued_total" KCounter;
  mkMetric "ghostpages_queue_priority_insertions_total" KCounter;
  mkMetric "ghostpages_queue_rejected_total" KCounter;
  mkMetric "ghostpages_queue_capacity" KGauge].

Definition migration_metrics : list Metric := [
  mkMetric "ghostpages_migration_evaluation_cycles_total" KCounter;
  mkMetric "ghostpages_migration_promotions_total" KCounter;
  mkMetric "ghostpages_migration_evictions_total" KCounter;
  mkMetric "ghostpages_migration_skipped_total" KCounter;
  mkMetric "ghostpages_migration_failures_total" KCounter;
  mkMetric "ghostpages_migration_bytes_migrated_total" KCounter;
  mkMetric "ghostpages_migration_active" KGauge;
  mkMetric "ghostpages_migration_pending_identified_total" KCounter].

Definition replay_metrics : list Metric := [
  mkMetric "ghostpages_replay_ops_total" KCounter;
  mkMetric "ghostpages_replay_events_replayed_total" KCounter;
  mkMetric "ghostpages_replay_validation_errors_total" KCounter;
  mkMetric "ghostpages_replay_failures_total" KCounter;
  mkMetric "ghostpages_replay_active" KGauge;
  mkMetric "ghostpages_replay_duration_seconds" (KHistogram [lit f64 1 100; lit f64 1 20; lit f64 1 10; lit f64 1 2; of_int f64 1; of_int f64 5; of_int f64 10; of_int f64 30]);
  mkMetric "ghostpages_replay_determinism_checks_total" KCounter;
  mkMetric "ghostpages_replay_determinism_failures_total" KCounter].

Definition allocator_metrics : list Metric := [
  mkMetric "ghostpages_allocator_allocations_total" KCounter;
  mkMetric "ghostpages_allocator_deallocations_total" KCounter;
  mkMetric "ghostpages_allocator_allocation_failures_total" KCounter;
  mkMetric "ghostpages_allocator_allocated_bytes" KGauge;
  mkMetric "ghostpages_allocator_peak_allocated_bytes" KGauge;
  mkMetric "ghostpages_allocator_bytes_allocated_total" KCounter;
  mkMetric "ghostpages_allocator_bytes_deallocated_total" KCounter;
  mkMetric "ghostpages_allocator_allocation_size_bytes" (KHistogram [of_int f64 64; of_int f64 256; of_int f64 1024; of_int f64 4096; of_int f64 16384; of_int f64 65536; of_int f64 262144; of_int f64 1048576]);
  mkMetric "ghostpages_allocator_active_allocations" KGauge].

Definition health_metrics : list Metric := [
  mkMetric "ghostpages_backend_health_status" KGauge;
  mkMetric "ghostpages_backend_health_check_successes_total" KCounter;
  mkMetric "ghostpages_backend_health_check_failures_total" KCounter;
  mkMetric "ghostpages_backend_degradation_events_total" KCounter;
  mkMetric "ghostpages_backend_recovery_events_total" KCounter;
  mkMetric "ghostpages_backend_recovery_attempts_total" KCounter;
  mkMetric "ghostpages_backend_recovery_successes_total" KCounter;
  mkMetric "ghostpages_backend_consecutive_failures" KGauge].

Definition hotness_metrics : list Metric := [
  mkMetric "ghostpages_hotness_hot_regions" KGauge;
  mkMetric "ghostpages_hotness_warm_regions" KGauge;
  mkMetric "ghostpages_hotness_cold_regions" KGauge;
  mkMetric "ghostpages_hotness_frozen_regions" KGauge;
  mkMetric "ghostpages_hotness_updates_total" KCounter;
  mkMetric "ghostpages_hotness_confidence" KGauge;
  mkMetric "ghostpages_hotness_temperature_transitions_total" (KCounterVec ["from"; "to"])].

Definition policy_metrics : list Metric := [
  mkMetric "ghostpages_policy_recommendations_total" (KCounterVec ["action_type"]);
  mkMetric "ghostpages_policy_promotions_total" KCounter;
  mkMetric "ghostpages_policy_demotions_total" KCounter;
  mkMetric "ghostpages_policy_no_action_total" KCounter;
  mkMetric "ghostpages_policy_recommendation_confidence" KGauge;
  mkMetric "ghostpages_policy_suppressed_recommendations_total" KCounter;
  mkMetric "ghostpages_policy_cooldown_hits_total" KCounter;
  mkMetric "ghostpages_policy_evaluation_duration_seconds" (KHistogram [lit f64 1 10000; lit f64 1 2000; lit f64 1 1000; lit f64 1 200; lit f64 1 100; lit f64 1 20; lit f64 1 10; lit f64 1 2; of_int f64 1])].

Definition stability_metrics : list Metric := [
  mkMetric "ghostpages_stability_cooldown_active_regions" KGauge;
  mkMetric "ghostpages_stability_violations_total" KCounter;
  mkMetric "ghostpages_stability_hysteresis_preventions_total" KCounter;
  mkMetric "ghostpages_stability_flapping_detected_total" KCounter].

Definition bridge_metrics : list Metric := [
  mkMetric "ghost_events_total" KCounter;
  mkMetric "ghost_events_by_category" (KCounterVec ["category"]);
  mkMetric "ghost_events_invariant_violations_total" (KCounterVec ["severity"])].

Definition prometheus_registered : list Metric := [
  mkMetric "ghostpages_store_total" KCounter;
  mkMetric "ghostpages_store_bytes_total" KCounter;
  mkMetric "ghostpages_store_errors_total" KCounter;
  mkMetric "ghostpages_retrieve_total" KCounter;
  mkMetric "ghostpages_retrieve_bytes_total" KCounter;
  mkMetric "ghostpages_retrieve_errors_total" KCounter;
  mkMetric "ghostpages_delete_total" KCounter;
  mkMetric "ghostpages_delete_errors_total" KCounter;
  mkMetric "ghostpages_tier_capacity_bytes" KGauge;
  mkMetric "ghostpages_tier_used_bytes" KGauge;
  mkMetric "ghostpages_ingress_queue_depth" KGauge;
  mkMetric "ghostpages_compression_queue_depth" KGauge;
  mkMetric "ghostpages_transfer_queue_depth" KGauge;
  mkMetric "ghostpages_store_duration_seconds" (KHistogram [lit f64 1 1000; lit f64 1 200; lit f64 1 100; lit f64 1 20; lit f64 1 10; lit f64 1 2; of_int f64 1; of_int f64 5]);
  mkMetric "ghostpages_retrieve_duration_seconds" (KHistogram [lit f64 1 1000; lit f64 1 200; lit f64 1 100; lit f64 1 20; lit f64 1 10; lit f64 1 2; of_int f64 1; of_int f64 5]);
  mkMetric "ghost_memory_pressure_avg10" KGauge;
  mkMetric "ghost_memory_pressure_avg60" KGauge;
  mkMetric "ghost_memory_pressure_avg300" KGauge;
  mkMetric "ghost_io_pressure_avg10" KGauge;
  mkMetric "ghost_memory_total_bytes" KGauge;
  mkMetric "ghost_memory_available_bytes" KGauge;
  mkMetric "ghost_memory_swap_used_bytes" KGauge;
  mkMetric "ghost_vmstat_pgscan_kswapd" KCounter;
  mkMetric "ghost_vmstat_pgscan_direct" KCounter;
  mkMetric "ghost_vmstat_oom_kill" KCounter;
  mkMetric "ghost_vmstat_pswpin" KCounter;
  mkMetric "ghost_vmstat_pswpout" KCounter].

Definition prometheus_created : list Metric := prometheus_registered ++ [
  mkMetric "ghost_swap_total_bytes" KGauge;
  mkMetric "ghost_swap_used_bytes" KGauge;
  mkMetric "ghost_swap_device_count" KGauge].


Section registry.
Context `{Prometheus}.

(** [IntCounter::new(..)?], .., [registry.register(..)?], ..: every metric is
    created, then every metric is registered. *)
Definition create_metric (m : Metric) : outcome string unit :=
  if valid_metric m then Ok tt else Err "invalid metric"%string.
Fixpoint create_each (l : list Metric) : outcome string unit :=
  match l with [] => Ok tt | m :: l => let? _ := create_metric m in create_each l end.
Fixpoint register_all (l : list Metric) (r : Registry) : outcome string Registry :=
  match l with [] => Ok r | m :: l => let? r := register m r in register_all l r end.
Definition new_metrics (l : list Metric) (r : Registry) : outcome string Registry :=
  let? _ := create_each l in register_all l r.

Definition MetricsRegistry_new : outcome string Registry :=
  let? r := new_metrics queue_metrics registry_new in
  let? r := new_metrics migration_metrics r in
  let? r := new_metrics replay_metrics r in
  let? r := new_metrics allocator_metrics r in
  let? r := new_metrics health_metrics r in
  let? r := new_metrics hotness_metrics r in
  let? r := new_metrics policy_metrics r in
  new_metrics stability_metrics r.

Definition EventBridgeMetrics_register (r : Registry) : outcome string Registry := new_metrics bridge_metrics r.

Definition PrometheusMetrics_new : outcome GhostError Registry :=
  map_err (fun e => EInternal ("prometheus error: " +:+ e))
    (let? _ := create_each prometheus_created in register_all prometheus_registered registry_new).

Lemma create_all_ok l : forallb valid_metric l = true -> create_each l = Ok tt.
Proof. induction l as [|m l IH]; [done|]. cbn [forallb create_each]. unfold create_metric. intros [-> Hl]%andb_true_iff. by apply IH. Qed.

Lemma register_all_ok l r :
  forallb valid_metric l = true -> NoDup (registered r ++ (metric_name <$> l)) ->
  exists r', register_all l r = Ok r' /\ registered r' = registered r ++ (metric_name <$> l).
Proof.
  revert r. induction l as [|m l IH]; intros r Hv Hn; [exists r; by rewrite app_nil_r|].
  cbn [forallb fmap list_fmap register_all] in *. apply andb_true_iff in Hv as [Hm Hl].
  destruct (register_ok m r Hm) as (r1 & -> & E1).
  { apply NoDup_app in Hn as (_ & Hd & _). intros Hin. apply (Hd _ Hin). left. }
  cbn [obind]. destruct (IH r1 Hl) as (r2 & -> & E2); [by rewrite E1, <- app_assoc|]. exists r2. split; [done|].
  by rewrite E2, E1, <- app_assoc.
Qed.

Lemma new_metrics_ok l r :
  forallb valid_metric l = true -> NoDup (registered r ++ (metric_name <$> l)) ->
  exists r', new_metrics l r = Ok r' /\ registered r' = registered r ++ (metric_name <$> l).
Proof. intros Hv Hn. unfold new_metrics. rewrite create_all_ok by done. by apply register_all_ok. Qed.

(** A list of structs, one after the other. *)
Fixpoint new_structs (ls : list (list Metric)) (r : Registry) : outcome string Registry :=
  match ls with [] => Ok r | l :: ls => let? r := new_metrics l r in new_structs ls r end.

Lemma new_structs_ok ls r :
  forallb (forallb valid_metric) ls = true -> NoDup (registered r ++ (metric_name <$> mjoin ls)) ->
  exists r', new_structs ls r = Ok r' /\ registered r' = registered r ++ (metric_name <$> mjoin ls).
Proof.
  revert r. induction ls as [|l ls IH]; intros r Hv Hn; [exists r; by rewrite app_nil_r|].
  cbn [forallb new_structs mjoin list_join] in *. apply andb_true_iff in Hv as [Hl Hls]. rewrite fmap_app, app_assoc in *.
  destruct (new_metrics_ok l r Hl) as (r1 & -> & E1); [by apply NoDup_app in Hn as [? _]|].
  cbn [obind]. destruct (IH r1 Hls) as (r2 & -> & E2); [by rewrite E1|]. exists r2. by rewrite E2, E1.
Qed.

Definition all_structs : list (list Metric) :=
  [queue_metrics; migration_metrics; replay_metrics; allocator_metrics; health_metrics; hotness_metrics; policy_metrics; stability_metrics].

(** The registry of the daemon.  It is created without an error and exports
    exactly the metrics of its eight structs, no two under one name, in the
    order they are created; the event bridge can be registered with it too; and
    creating any of the structs a second time on the same registry is an error. *)
Theorem registry_exports :
  exists r, MetricsRegistry_new = Ok r /\ registered r = metric_name <$> mjoin all_structs /\ NoDup (registered r) /\
    (exists r', EventBridgeMetrics_register r = Ok r' /\ registered r' = registered r ++ (metric_name <$> bridge_metrics)) /\
    forall l, l ∈ all_structs -> exists e, new_metrics l r = Err e.
Proof.
  assert (NoDup (metric_name <$> mjoin (all_structs ++ [bridge_metrics]))) as Hn.
  { apply (bool_decide_unpack (NoDup _)). vm_compute. exact I. }
  assert (forallb (forallb valid_metric) (all_structs ++ [bridge_metrics]) = true) as Hv by (vm_compute; reflexivity).
  rewrite forallb_app in Hv. apply andb_true_iff in Hv as [Hv Hb]. rewrite join_app, fmap_app in Hn.
  destruct (new_structs_ok all_structs registry_new Hv) as (r & E & Er).
  { rewrite registered_new. by apply NoDup_app in Hn as [? _]. }
  rewrite registered_new in Er. exists r. split_and!; [|done|rewrite Er; by apply NoDup_app in Hn as [? _]| |].
  - unfold MetricsRegistry_new. unfold new_structs, all_structs in E.
    destruct (new_metrics queue_metrics registry_new); [cbn [obind] in *|done..].
    repeat (match goal with |- context [obind ?o _] => destruct o; cbn [obind] in *; [|done..] end).
    by destruct (new_metrics stability_metrics _).
  - apply (new_metrics_ok bridge_metrics r); [by cbn [forallb] in Hb; rewrite andb_true_r in Hb|].
    rewrite Er. cbn [mjoin list_join] in Hn. by rewrite app_nil_r in Hn.
  - intros l Hl. assert (forallb valid_metric l = true) as Hvl.
    { rewrite forallb_forall in Hv. apply Hv. by apply list_elem_of_In. }
    unfold new_metrics. rewrite create_all_ok by done. cbn [obind].
    assert (exists m l', l = m :: l' /\ metric_name m ∈ registered r) as (m & l' & -> & Hm).
    { destruct l as [|m l']; [exfalso; unfold all_structs in Hl; rewrite !elem_of_cons, elem_of_nil in Hl; by destruct_or! Hl|].
      exists m, l'. split; [done|]. rewrite Er. apply list_elem_of_fmap. exists m. split; [done|]. apply list_elem_of_join.
      exists (m :: l'). split; [left|done]. }
    cbn [register_all]. destruct (register_taken m r Hm) as [e ->]. by exists e.
Qed.

(** The second registry.  It is created without an error, and exports every
    metric it creates but the three of swap, which are never registered. *)
Theorem prometheus_exports_all_but_swap :
  exists r, PrometheusMetrics_new = Ok r /\ NoDup (registered r) /\
    forall m, m ∈ prometheus_created ->
      metric_name m ∈ registered r \/
      metric_name m ∈ ["ghost_swap_total_bytes"; "ghost_swap_used_bytes"; "ghost_swap_device_count"]%string /\
      (metric_name m ∉ registered r).
Proof.
  assert (NoDup (metric_name <$> prometheus_created)) as Hn.
  { apply (bool_decide_unpack (NoDup _)). vm_compute. exact I. }
  assert (forallb valid_metric prometheus_created = true) as Hv by (vm_compute; reflexivity).
  unfold PrometheusMetrics_new. rewrite create_all_ok by done. cbn [obind]. unfold prometheus_created in *.
  rewrite forallb_app in Hv. apply andb_true_iff in Hv as [Hv _]. rewrite fmap_app in Hn. pose proof Hn as Hn'.
  apply NoDup_app in Hn as (Hn & Hd & _).
  destruct (register_all_ok prometheus_registered registry_new Hv) as (r & -> & Er); [by rewrite registered_new|].
  rewrite registered_new in Er. exists r. split; [done|]. split; [by rewrite Er|]. rewrite Er. cbn [app].
  intros m [Hm|Hm]%elem_of_app; [left; by apply list_elem_of_fmap_2|].
  apply (list_elem_of_fmap_2 metric_name) in Hm. right. split; [done|]. intros Hx. by apply (Hd _ Hx).
Qed.
End registry.

(** A registry that is the list of its names. *)
Definition list_register (m : Metric) (r : list string) : outcome string (list string) :=
  if negb (valid_metric m) then Err "invalid metric"%string
  else if bool_decide (metric_name m ∈ r) then Err "already registered"%string
  else Ok (r ++ [metric_name m]).
#[export] Program Instance list_prometheus : Prometheus := {|
  Registry := list string; registry_new := []; registered r := r; register := list_register;
|}.
Next Obligation. done. Qed.
Next Obligation. intros m r Hv Hn. unfold list_register. rewrite Hv, bool_decide_eq_false_2 by done. cbn [negb]. eauto. Qed.
Next Obligation.
  intros m r Hin. unfold list_register. destruct (valid_metric m); cbn [negb]; [|eauto]. rewrite bool_decide_eq_true_2 by done. eauto.
Qed.

(** ** Values

    Counters are [u64], gauges [i64]; both wrap. *)

Definition inc (n : Z) : Z := wrap 64 (n + 1).
Definition wrap_i64 (z : Z) : Z := let u := wrap 64 z in if u <? 2 ^ 63 then u else u - 2 ^ 64.

(** A counter with labels: the children that have been used. *)
Definition vec_inc {K} `{Countable K} (k : K) (m : gmap K Z) : gmap K Z := <[k := inc (default 0 (m !! k))]> m.
Definition vec_get {K} `{Countable K} (k : K) (m : gmap K Z) : Z := default 0 (m !! k).

(** [round() as i64] of a number of small magnitude: to nearest, halves away
    from zero. *)
Definition round_i64 (x : float) : Z :=
  match x with
  | S754_finite s m e =>
      let v := if 0 <=? e then Z.pos m * 2 ^ e else (2 * Z.pos m + 2 ^ (- e)) / (2 * 2 ^ (- e)) in
      if s then - v else v
  | _ => 0
  end.
(** [(x.clamp(0.0, 1.0) * 1000.0).round() as i64] *)
Definition scaled (x : float) : Z := round_i64 (fmul f32 (fclamp x (of_int f32 0) (of_int f32 1)) (of_int f32 1000)).

Module Hotness.
Record HotnessMetrics := mkHotnessMetrics {
  hot_regions : Z; warm_regions : Z; cold_regions : Z; frozen_regions : Z;
  hotness_updates_total : Z; hotness_confidence : Z;
  temperature_transitions_total : gmap (string * string) Z;
}.
Definition update_from_summary (s : HotnessSummary) (m : HotnessMetrics) : HotnessMetrics :=
  mkHotnessMetrics (wrap_i64 (hot_count s)) (wrap_i64 (warm_count s)) (wrap_i64 (cold_count s)) (wrap_i64 (frozen_count s))
    (inc (hotness_updates_total m)) (hotness_confidence m) (temperature_transitions_total m).
Definition update_confidence (c : float) (m : HotnessMetrics) : HotnessMetrics :=
  mkHotnessMetrics (hot_regions m) (warm_regions m) (cold_regions m) (frozen_regions m) (hotness_updates_total m) (scaled c)
    (temperature_transitions_total m).
Definition record_temperature_transition (from to : string) (m : HotnessMetrics) : HotnessMetrics :=
  mkHotnessMetrics (hot_regions m) (warm_regions m) (cold_regions m) (frozen_regions m) (hotness_updates_total m)
    (hotness_confidence m) (vec_inc (from, to) (temperature_transitions_total m)).
End Hotness.

Module Stability.
Record StabilityMetrics := mkStabilityMetrics {
  cooldown_active_regions : Z; stability_violations_total : Z; hysteresis_preventions_total : Z; flapping_detected_total : Z;
}.
Definition set_cooldown_regions (n : Z) (m : StabilityMetrics) : StabilityMetrics :=
  mkStabilityMetrics (wrap_i64 n) (stability_violations_total m) (hysteresis_preventions_total m) (flapping_detected_total m).
Definition increment_cooldown_regions (m : StabilityMetrics) : StabilityMetrics :=
  mkStabilityMetrics (wrap_i64 (cooldown_active_regions m + 1)) (stability_violations_total m) (hysteresis_preventions_total m)
    (flapping_detected_total m).
Definition decrement_cooldown_regions (m : StabilityMetrics) : StabilityMetrics :=
  mkStabilityMetrics (wrap_i64 (cooldown_active_regions m - 1)) (stability_violations_total m) (hysteresis_preventions_total m)
    (flapping_detected_total m).
Definition record_violation (m : StabilityMetrics) : StabilityMetrics :=
  mkStabilityMetrics (cooldown_active_regions m) (inc (stability_violations_total m)) (hysteresis_preventions_total m)
    (flapping_detected_total m).
Definition record_hysteresis_prevention (m : StabilityMetrics) : StabilityMetrics :=
  mkStabilityMetrics (cooldown_active_regions m) (stability_violations_total m) (inc (hysteresis_preventions_total m))
    (flapping_detected_total m).
Definition record_flapping (m : StabilityMetrics) : StabilityMetrics :=
  mkStabilityMetrics (cooldown_active_regions m) (stability_violations_total m) (hysteresis_preventions_total m)
    (inc (flapping_detected_total m)).
End Stability.

Module Rec.
Inductive RecommendationAction := Promote | Demote | NoAction.
#[global] Instance RecommendationAction_eq_dec : EqDecision RecommendationAction.
Proof. solve_decision. Defined.
Definition as_str (a : RecommendationAction) : string :=
  match a with Promote => "promote" | Demote => "demote" | NoAction => "no_action" end.
Record Recommendation := mkRec { action : RecommendationAction; confidence : float }.
Definition promote (c : float) : Recommendation := mkRec Promote c.
Definition demote (c : float) : Recommendation := mkRec Demote c.
Definition no_action (c : float) : Recommendation := mkRec NoAction c.

Record PolicyMetrics := mkPolicyMetrics {
  recommendations_total : gmap string Z;
  promotions_total : Z; demotions_total : Z; no_action_total : Z;
  recommendation_confidence : Z;
  suppressed_recommendations_total : Z; cooldown_hits_total : Z;
  evaluation_durations : list float;
}.
Definition policy_start : PolicyMetrics := mkPolicyMetrics ∅ 0 0 0 0 0 0 [].

Definition record_recommendation (r : Recommendation) (m : PolicyMetrics) : PolicyMetrics :=
  let bump a n := if decide (action r = a) then inc n else n in
  mkPolicyMetrics (vec_inc (as_str (action r)) (recommendations_total m))
    (bump Promote (promotions_total m)) (bump Demote (demotions_total m)) (bump NoAction (no_action_total m))
    (scaled (confidence r)) (suppressed_recommendations_total m) (cooldown_hits_total m) (evaluation_durations m).
Definition record_suppression (m : PolicyMetrics) : PolicyMetrics :=
  mkPolicyMetrics (recommendations_total m) (promotions_total m) (demotions_total m) (no_action_total m)
    (recommendation_confidence m) (inc (suppressed_recommendations_total m)) (cooldown_hits_total m) (evaluation_durations m).
Definition record_cooldown_hit (m : PolicyMetrics) : PolicyMetrics :=
  mkPolicyMetrics (recommendations_total m) (promotions_total m) (demotions_total m) (no_action_total m)
    (recommendation_confidence m) (suppressed_recommendations_total m) (inc (cooldown_hits_total m)) (evaluation_durations m).
Definition record_evaluation_duration (secs : float) (m : PolicyMetrics) : PolicyMetrics :=
  mkPolicyMetrics (recommendations_total m) (promotions_total m) (demotions_total m) (no_action_total m)
    (recommendation_confidence m) (suppressed_recommendations_total m) (cooldown_hits_total m) (evaluation_durations m ++ [secs]).
End Rec.

Lemma registry_exports_witness :
  exists r, MetricsRegistry_new (H := list_prometheus) = Ok r /\ length r = 58%nat.
Proof.
  destruct (registry_exports (H := list_prometheus)) as (r & E & Er & _). exists r. split; [exact E|].
  change (registered r) with r in Er. rewrite Er. vm_compute. reflexivity.
Defined.

Lemma prometheus_exports_all_but_swap_witness :
  exists r, PrometheusMetrics_new (H := list_prometheus) = Ok r /\ "ghost_swap_used_bytes"%string ∉ r.
Proof.
  destruct (prometheus_exports_all_but_swap (H := list_prometheus)) as (r & E & _). exists r. split; [exact E|].
  vm_compute in E. injection E as <-. apply (bool_decide_unpack (_ ∉ _)). vm_compute. exact I.
Defined.

(** ** The event bridge *)

Record EventBridgeMetrics := mkBridge {
  events_total : Z;
  events_by_category : gmap string Z;
  invariant_violations : gmap string Z;
}.
Definition bridge_start : EventBridgeMetrics := mkBridge 0 ∅ ∅.

Definition handle (r : Ev.EventRecord) (m : EventBridgeMetrics) : EventBridgeMetrics :=
  mkBridge (inc (events_total m)) (vec_inc (Ev.rec_category r) (events_by_category m))
    (match Ev.rec_event r with
     | Ev.InvariantViolation _ _ _ sev => vec_inc (severity_display sev) (invariant_violations m)
     | _ => invariant_violations m
     end).
Definition handle_all (l : list Ev.EventRecord) (m : EventBridgeMetrics) : EventBridgeMetrics := fold_left (fun m r => handle r m) l m.

Definition counted {A} (f : A -> bool) (l : list A) : Z := Z.of_nat (length (filter (fun x => f x = true) l)).
Definition in_category (c : string) (r : Ev.EventRecord) : bool := bool_decide (Ev.rec_category r = c).
Definition of_severity (s : InvariantSeverity) (r : Ev.EventRecord) : bool :=
  match Ev.rec_event r with Ev.InvariantViolation _ _ _ s' => bool_decide (severity_display s' = severity_display s) | _ => false end.

Lemma counted_snoc {A} (f : A -> bool) l x : counted f (l ++ [x]) = counted f l + (if f x then 1 else 0).
Proof. unfold counted. rewrite filter_app, length_app, filter_cons, filter_nil. destruct (f x); case_decide; cbn; try done; lia. Qed.
Lemma counted_le {A} (f : A -> bool) l : 0 <= counted f l <= Z.of_nat (length l).
Proof. unfold counted. pose proof (length_filter (fun x => f x = true) l). lia. Qed.

Lemma vec_get_inc {K} `{Countable K} (k k' : K) m : vec_get k' (vec_inc k m) = if decide (k = k') then inc (vec_get k m) else vec_get k' m.
Proof. unfold vec_get, vec_inc. case_decide as Hk; [subst; by rewrite lookup_insert_eq|by rewrite lookup_insert_ne]. Qed.

Record bridge_inv (l : list Ev.EventRecord) (m : EventBridgeMetrics) : Prop := {
  br_total : events_total m = Z.of_nat (length l);
  br_category : forall c, vec_get c (events_by_category m) = counted (in_category c) l;
  br_sum : sum_map (fun n => n) (events_by_category m) = Z.of_nat (length l);
  br_severity : forall s, vec_get (severity_display s) (invariant_violations m) = counted (of_severity s) l;
}.

Lemma inc_small n : 0 <= n -> n + 1 < 2 ^ 64 -> inc n = n + 1.
Proof. intros H0 H1. apply wrap_in. unfold in_u. lia. Qed.

Lemma vec_inc_sum {K} `{Countable K} (k : K) m :
  inc (vec_get k m) = vec_get k m + 1 -> sum_map (fun n => n) (vec_inc k m) = sum_map (fun n => n) m + 1.
Proof.
  unfold vec_inc, vec_get. destruct (m !! k) as [v|] eqn:Ek; cbn [default]; intros ->.
  - rewrite (sum_map_update _ m k v) by done. unfold id. lia.
  - rewrite sum_map_insert by done. lia.
Qed.

Lemma bridge_step l r m : bridge_inv l m -> Z.of_nat (length l) + 1 < 2 ^ 64 -> bridge_inv (l ++ [r]) (handle r m).
Proof.
  intros [Ht Hc Hu Hs] Hb. split; cbn [handle events_total events_by_category invariant_violations].
  - rewrite Ht, inc_small, length_app by lia. cbn. lia.
  - intros c. rewrite vec_get_inc, counted_snoc. unfold in_category at 2. pose proof (counted_le (in_category (Ev.rec_category r)) l).
    case_decide as Ec; [subst c; rewrite bool_decide_eq_true_2 by done; rewrite Hc; apply inc_small; lia|].
    rewrite bool_decide_eq_false_2 by done. rewrite Hc. lia.
  - rewrite vec_inc_sum; [rewrite Hu, length_app; cbn; lia|]. pose proof (counted_le (in_category (Ev.rec_category r)) l).
    rewrite Hc. apply inc_small; lia.
  - intros s. rewrite counted_snoc. unfold of_severity at 2. pose proof (counted_le (of_severity s) l).
    destruct (Ev.rec_event r); try (rewrite Hs; lia). rewrite vec_get_inc. case_decide as Es.
    + rewrite Es, bool_decide_eq_true_2 by done. rewrite Hs. apply inc_small; lia.
    + rewrite bool_decide_eq_false_2 by done. rewrite Hs. lia.
Qed.

Lemma bridge_run l : Z.of_nat (length l) < 2 ^ 64 -> bridge_inv l (handle_all l bridge_start).
Proof.
  induction l as [|r l IH] using rev_ind; intros Hl.
  - by split.
  - rewrite length_app in Hl. cbn in Hl. unfold handle_all in *. rewrite fold_left_app. cbn [fold_left].
    apply bridge_step; [apply IH|]; lia.
Qed.

Lemma accepted_length ops : forall s, (length (accepted (bus_run ops s)) <= length (accepted s) + length ops)%nat.
Proof.
  induction ops as [|o ops IH]; intros s; [cbn; lia|]. cbn [bus_run fold_left length]. specialize (IH (bus_step o s)).
  assert (length (accepted (bus_step o s)) <= S (length (accepted s)))%nat; [|unfold bus_run in IH; lia].
  unfold bus_step. destruct o; repeat case_match; cbn [accepted]; rewrite ?length_app; cbn [length]; lia.
Qed.

(** C37: A bridge that handles what a handler of the event bus is given.  Whatever
    was emitted, received and dropped, the total is the number of records
    delivered, the count of a category is the number of its records, no other
    label exists, the counts of all categories add up to the total, and the
    violations are counted by severity. *)
Theorem bridge_counts cap h ops i :
  Z.of_nat (length ops) < 2 ^ 64 - 1 -> (i < h)%nat ->
  let s := bus_run ops (bus_start cap h) in
  let l := seen_by i (mux s) in
  let m := handle_all l bridge_start in
  l ++ chan (tx (emitter s)) = accepted s /\
  events_total m = Z.of_nat (length l) /\
  (forall c, vec_get c (events_by_category m) = counted (in_category c) l) /\
  sum_map (fun n => n) (events_by_category m) = events_total m /\
  (forall sv, vec_get (severity_display sv) (invariant_violations m) = counted (of_severity sv) l).
Proof.
  intros Hlen Hi s l m. assert (bus_inv h s) as [_ _ _ Hf _ _].
  { apply bus_run_inv; [apply bus_inv_start|cbn; lia|cbn; lia]. }
  specialize (Hf i Hi). fold l in Hf. pose proof (accepted_length ops (bus_start cap h)) as Ha. fold s in Ha. cbn in Ha.
  assert (bridge_inv l m) as [Ht Hc Hs Hv].
  { apply bridge_run. apply (f_equal length) in Hf. rewrite length_app in Hf. lia. }
  split_and!; [done..| |done]. by rewrite Hs, Ht.
Qed.

Lemma bridge_counts_witness :
  let s := bus_run [BEmit 1 (ping 1); BEmit 2 (Ev.InvariantViolation 0 "r" "d" SevError); BRecv 3; BRecv 4; BEmit 5 (ping 2)] (bus_start 4 1) in
  let m := handle_all (seen_by 0 (mux s)) bridge_start in
  events_total m = 2 /\ vec_get "scheduler"%string (events_by_category m) = 1 /\ vec_get "error"%string (invariant_violations m) = 1.
Proof.
  cbv zeta.
  destruct (bridge_counts 4 1 [BEmit 1 (ping 1); BEmit 2 (Ev.InvariantViolation 0 "r" "d" SevError); BRecv 3; BRecv 4; BEmit 5 (ping 2)] 0)
    as (_ & Ht & Hc & _ & Hv); [cbn; lia|lia|]. specialize (Hc "scheduler"%string). specialize (Hv SevError).
  split; [rewrite Ht; vm_compute; reflexivity|]. split; [rewrite Hc; vm_compute; reflexivity|].
  change "error"%string with (severity_display SevError). rewrite Hv. vm_compute. reflexivity.
Defined.

(** ** The counters of the policy agree *)

Module Totals.
Import Rec.

Inductive Op := ORecord (r : Recommendation) | OSuppress | OCooldown | ODuration (secs : float).
Definition apply (o : Op) (m : PolicyMetrics) : PolicyMetrics :=
  match o with
  | ORecord r => record_recommendation r m
  | OSuppress => record_suppression m
  | OCooldown => record_cooldown_hit m
  | ODuration d => record_evaluation_duration d m
  end.
Definition run (ops : list Op) (m : PolicyMetrics) : PolicyMetrics := fold_left (fun m o => apply o m) ops m.

Definition total_of (a : RecommendationAction) (m : PolicyMetrics) : Z :=
  match a with Promote => promotions_total m | Demote => demotions_total m | NoAction => no_action_total m end.
Definition records (a : RecommendationAction) (o : Op) : bool :=
  match o with ORecord r => bool_decide (action r = a) | _ => false end.
Definition last_confidence (ops : list Op) : option float := last (omap (fun o => match o with ORecord r => Some (confidence r) | _ => None end) ops).

#[global] Instance as_str_inj : Inj (=) (=) as_str.
Proof. by intros [] []. Qed.

Lemma total_of_record a r m : total_of a (record_recommendation r m) = if decide (action r = a) then inc (total_of a m) else total_of a m.
Proof. by destruct a. Qed.

(** After any calls, the counter of an action and the labelled counter are both
    the number of recommendations of that action, the gauge shows the
    confidence of the last one, and suppressions and cooldown hits are counted
    apart. *)
Theorem policy_counters_agree ops :
  Z.of_nat (length ops) < 2 ^ 64 ->
  let m := run ops policy_start in
  (forall a, total_of a m = counted (records a) ops /\ vec_get (as_str a) (recommendations_total m) = total_of a m) /\
  recommendation_confidence m = match last_confidence ops with Some c => scaled c | None => 0 end /\
  suppressed_recommendations_total m = counted (fun o => match o with OSuppress => true | _ => false end) ops /\
  cooldown_hits_total m = counted (fun o => match o with OCooldown => true | _ => false end) ops.
Proof.
  induction ops as [|o ops IH] using rev_ind; intros Hl; [split; [by intros []|done]|].
  rewrite length_app in Hl. cbn [length] in Hl. destruct (IH ltac:(lia)) as (Ha & Hc & Hs & Hh). clear IH.
  cbv zeta. unfold run in *. rewrite fold_left_app. cbn [fold_left]. set (m := fold_left _ ops policy_start) in *.
  unfold last_confidence in *. rewrite omap_app, !counted_snoc.
  split.
  - intros a. destruct (Ha a) as [H1 H2]. rewrite counted_snoc. destruct o as [r| | |]; cbn [apply records]; [|split; [rewrite <- H1; by destruct a; cbn; lia|by destruct a]..].
    rewrite total_of_record. cbn [recommendations_total record_recommendation]. rewrite vec_get_inc.
    pose proof (counted_le (records a) ops). case_decide as E.
    + subst a. rewrite bool_decide_eq_true_2, decide_True by done. rewrite H2, H1, inc_small by lia. done.
    + rewrite bool_decide_eq_false_2, decide_False by (done || intros ?%as_str_inj; done). rewrite H2, H1. split; [lia|done].
  - pose proof (counted_le (fun o => match o with OSuppress => true | _ => false end) ops).
    pose proof (counted_le (fun o => match o with OCooldown => true | _ => false end) ops).
    destruct o as [r| | |]; cbn [apply omap list_omap]; rewrite ?last_snoc, ?app_nil_r; cbn; rewrite ?Hc, ?Hs, ?Hh; split_and!; try done; try lia;
      apply inc_small; lia.
Qed.

Lemma policy_counters_agree_witness :
  let m := run [ORecord (promote (of_int f32 1)); OSuppress; ORecord (demote (lit f32 1 4)); ORecord (promote (lit f32 3 4))] policy_start in
  promotions_total m = 2 /\ recommendation_confidence m = 750.
Proof.
  cbv zeta. destruct (policy_counters_agree [ORecord (promote (of_int f32 1)); OSuppress; ORecord (demote (lit f32 1 4)); ORecord (promote (lit f32 3 4))])
    as (Ha & Hc & _); [cbn; lia|]. destruct (Ha Promote) as [H1 _]. cbn [total_of] in H1. rewrite H1, Hc. split; vm_compute; reflexivity.
Defined.
End Totals.

(** ** The collector *)

Record OperationMetrics := mkOps {
  store_total : Z; store_bytes_total : Z; store_errors_total : Z;
  retrieve_total : Z; retrieve_bytes_total : Z; retrieve_errors_total : Z;
  delete_total : Z; delete_errors_total : Z;
}.
Definition OperationMetrics_new : OperationMetrics := mkOps 0 0 0 0 0 0 0 0.

Definition add64 (n d : Z) : Z := wrap 64 (n + d).
Definition record_store (bytes : Z) (m : OperationMetrics) : OperationMetrics :=
  mkOps (inc (store_total m)) (add64 (store_bytes_total m) bytes) (store_errors_total m) (retrieve_total m) (retrieve_bytes_total m)
    (retrieve_errors_total m) (delete_total m) (delete_errors_total m).
Definition record_store_error (m : OperationMetrics) : OperationMetrics :=
  mkOps (store_total m) (store_bytes_total m) (inc (store_errors_total m)) (retrieve_total m) (retrieve_bytes_total m)
    (retrieve_errors_total m) (delete_total m) (delete_errors_total m).
Definition record_retrieve (bytes : Z) (m : OperationMetrics) : OperationMetrics :=
  mkOps (store_total m) (store_bytes_total m) (store_errors_total m) (inc (retrieve_total m)) (add64 (retrieve_bytes_total m) bytes)
    (retrieve_errors_total m) (delete_total m) (delete_errors_total m).
Definition record_retrieve_error (m : OperationMetrics) : OperationMetrics :=
  mkOps (store_total m) (store_bytes_total m) (store_errors_total m) (retrieve_total m) (retrieve_bytes_total m)
    (inc (retrieve_errors_total m)) (delete_total m) (delete_errors_total m).
Definition record_delete (m : OperationMetrics) : OperationMetrics :=
  mkOps (store_total m) (store_bytes_total m) (store_errors_total m) (retrieve_total m) (retrieve_bytes_total m)
    (retrieve_errors_total m) (inc (delete_total m)) (delete_errors_total m).
Definition record_delete_error (m : OperationMetrics) : OperationMetrics :=
  mkOps (store_total m) (store_bytes_total m) (store_errors_total m) (retrieve_total m) (retrieve_bytes_total m)
    (retrieve_errors_total m) (delete_total m) (inc (delete_errors_total m)).

Record TierMetrics := mkTierMetrics {
  tier_capacity_bytes : Z; tier_used_bytes : Z; tier_migration_in_total : Z; tier_migration_out_total : Z;
}.
Definition TierMetrics_new : TierMetrics := mkTierMetrics 0 0 0 0.
Definition set_capacity (n : Z) (m : TierMetrics) : TierMetrics :=
  mkTierMetrics n (tier_used_bytes m) (tier_migration_in_total m) (tier_migration_out_total m).
Definition set_used (n : Z) (m : TierMetrics) : TierMetrics :=
  mkTierMetrics (tier_capacity_bytes m) n (tier_migration_in_total m) (tier_migration_out_total m).
Definition record_migration_in (m : TierMetrics) : TierMetrics :=
  mkTierMetrics (tier_capacity_bytes m) (tier_used_bytes m) (inc (tier_migration_in_total m)) (tier_migration_out_total m).
Definition record_migration_out (m : TierMetrics) : TierMetrics :=
  mkTierMetrics (tier_capacity_bytes m) (tier_used_bytes m) (tier_migration_in_total m) (inc (tier_migration_out_total m)).
