(* ===== verification/LinuxMetrics.v ===== *)
(** * Metrics of the Linux crate

    The metrics that [zram.rs], [tier_inventory.rs] and [policy.rs] of
    [ghost-linux/src] declare in their [metrics] modules: their registration
    with a registry of the [prometheus] crate ([Metrics.Prometheus]) and the
    updates of their gauges from a ZRAM snapshot and from the tiers of the
    inventory.  The buckets of a histogram that names none are the crate's and
    a parameter here. *)
From Stdlib Require Import ZArith Lia.
From stdpp Require Import base strings list.
From S2P Require Import Prelude Floats CoreTypes Pressure LinuxSources LinuxTiers Metrics.

Local Open Scope Z_scope.

Definition zram_metrics : list Metric := [
  mkMetric "ghost_zram_compression_ratio" KGauge;
  mkMetric "ghost_zram_used_bytes" KGauge;
  mkMetric "ghost_zram_original_bytes" KGauge;
  mkMetric "ghost_zram_device_count" KGauge].

Definition tier_metrics : list Metric := [
  mkMetric "ghost_tier_count" KGauge;
  mkMetric "ghost_tier_total_bytes" KGauge;
  mkMetric "ghost_tier_used_bytes" KGauge;
  mkMetric "ghost_tier_pressure" KGauge].

Definition policy_runtime_metrics (default_buckets : list float) : list Metric := [
  mkMetric "ghost_policy_recommendations_total" KCounter;
  mkMetric "ghost_policy_evaluations_total" KCounter;
  mkMetric "ghost_policy_evaluation_duration_seconds" (KHistogram default_buckets)].

(** ** Gauges *)

Record ZramMetrics := mkZramMetrics {
  g_ratio : float; g_used : float; g_original : float; g_devices : float }.

Definition update_from_snapshot (s : ZramSnapshot) (m : ZramMetrics) : ZramMetrics :=
  mkZramMetrics (cast f64 (zram_ratio s))
    (fmul f64 (of_int f64 (total_comp_kb s)) (of_int f64 1024))
    (fmul f64 (of_int f64 (total_orig_kb s)) (of_int f64 1024))
    (of_int f64 (Z.of_nat (length (zram_devices s)))).

Record TierInventoryMetrics := mkTierGauges {
  g_count : float; g_total : float; g_tier_used : float; g_pressure : float }.

Definition update_tier (t : TierInfo) (m : TierInventoryMetrics) : TierInventoryMetrics :=
  mkTierGauges (g_count m) (of_int f64 (total_bytes t)) (of_int f64 (used_bytes t))
    (cast f64 (max_pressure (ti_pressure t))).

Definition update_tier_count (n : Z) (m : TierInventoryMetrics) : TierInventoryMetrics :=
  mkTierGauges (of_int f64 n) (g_total m) (g_tier_used m) (g_pressure m).

Section registration.
Context `{Prometheus} (default_buckets : list float).
Hypothesis default_buckets_increasing : increasing default_buckets = true.

Definition internal {A} (o : outcome string A) : outcome GhostError A := map_err EInternal o.

Definition zram_register (r : Registry) : outcome GhostError Registry :=
  internal (new_metrics zram_metrics r).
Definition tier_register (r : Registry) : outcome GhostError Registry :=
  internal (new_metrics tier_metrics r).
Definition policy_register (r : Registry) : outcome GhostError Registry :=
  internal (new_metrics (policy_runtime_metrics default_buckets) r).

Definition linux_structs : list (list Metric) :=
  [zram_metrics; tier_metrics; policy_runtime_metrics default_buckets].

Lemma linux_structs_valid : forallb (forallb valid_metric) linux_structs = true.
Proof.
  assert (valid_metric (mkMetric "ghost_policy_evaluation_duration_seconds" (KHistogram default_buckets)) = true) as Hh.
  { unfold valid_metric. cbn [metric_name metric_kind]. rewrite default_buckets_increasing. vm_compute. reflexivity. }
  unfold linux_structs, policy_runtime_metrics. cbn [forallb]. rewrite Hh. vm_compute. reflexivity.
Qed.

(** The names of the Linux metrics do not depend on the buckets. *)
Lemma linux_names :
  metric_name <$> mjoin linux_structs = metric_name <$> mjoin [zram_metrics; tier_metrics; policy_runtime_metrics []].
Proof. reflexivity. Qed.

(** One registry can hold everything.  The daemon's registry, the metrics of
    [PrometheusMetrics] that are registered, the event bridge and the three
    structs of the Linux crate have pairwise different names: registering the
    Linux structs, in order, on a registry that holds all the others succeeds
    and adds exactly their eleven names; registering one of them again is an
    internal error. *)
Theorem linux_metrics_coexist r :
  registered r = metric_name <$> mjoin all_structs ++ prometheus_registered ++ bridge_metrics ->
  exists r',
    (let? r1 := zram_register r in let? r2 := tier_register r1 in policy_register r2) = Ok r' /\
    registered r' = registered r ++ (metric_name <$> mjoin linux_structs) /\ NoDup (registered r') /\
    (forall f, f ∈ [zram_register; tier_register; policy_register] -> exists e, f r' = Err (EInternal e)).
Proof.
  intros Hr.
  assert (NoDup (registered r ++ (metric_name <$> mjoin linux_structs))) as Hn.
  { rewrite Hr, linux_names. apply (bool_decide_unpack (NoDup _)). vm_compute. exact I. }
  destruct (new_structs_ok linux_structs r linux_structs_valid Hn) as (r' & E & Er).
  exists r'. split_and!; [|done|by rewrite Er|].
  - unfold zram_register, tier_register, policy_register, internal.
    cbn [new_structs linux_structs] in E.
    repeat (match type of E with context [new_metrics ?l ?x] =>
      destruct (new_metrics l x); cbn [obind map_err] in *; [|done..] end).
    congruence.
  - assert (forall m l, m :: l ∈ linux_structs -> exists e, internal (new_metrics (m :: l) r') = Err (EInternal e)) as Hagain.
    { intros m l Hl. unfold new_metrics. rewrite create_all_ok.
      2:{ pose proof linux_structs_valid as Hv. rewrite forallb_forall in Hv. apply Hv. by apply list_elem_of_In. }
      cbn [obind register_all]. destruct (register_taken m r') as [e ->]; [|by exists e].
      rewrite Er, elem_of_app. right. apply list_elem_of_fmap_2, list_elem_of_join.
      exists (m :: l). split; [left|done]. }
    intros f Hf. rewrite !elem_of_cons, elem_of_nil in Hf. destruct Hf as [->|[->|[->|[]]]]; apply Hagain; unfold linux_structs; rewrite !elem_of_cons; auto.
Qed.
End registration.

Lemma linux_metrics_coexist_witness :
  let r := metric_name <$> mjoin all_structs ++ prometheus_registered ++ bridge_metrics in
  exists r' : list string, r' = r ++ (metric_name <$> mjoin (linux_structs [of_int f64 1; of_int f64 2])) /\
    policy_register (H := list_prometheus) [of_int f64 1; of_int f64 2] r' = Err (EInternal "already registered") /\
    length r' = 99%nat.
Proof.
  cbv zeta.
  destruct (linux_metrics_coexist (H := list_prometheus) [of_int f64 1; of_int f64 2] eq_refl
    (metric_name <$> mjoin all_structs ++ prometheus_registered ++ bridge_metrics) eq_refl) as (r' & E & Er & _).
  exists r'. change (registered r') with r' in Er. rewrite Er. split_and!; [reflexivity|vm_compute; reflexivity..].
Defined.

(** The gauges of the inventory are described as values per tier, but they
    carry no label.  Whatever tiers were reported, in whatever order, only the
    last one is exported; the count is the one last set. *)
Theorem tier_gauges_keep_last tiers t n m :
  fold_left (fun m t => update_tier t m) (tiers ++ [t]) (update_tier_count n m) =
    mkTierGauges (of_int f64 n) (of_int f64 (total_bytes t)) (of_int f64 (used_bytes t))
      (cast f64 (max_pressure (ti_pressure t))).
Proof.
  rewrite fold_left_app. cbn [fold_left]. unfold update_tier at 1. f_equal.
  enough (forall m, g_count (fold_left (fun m t => update_tier t m) tiers m) = g_count m) as -> by done.
  induction tiers as [|x tiers IH]; intros m'; [done|]. cbn [fold_left]. by rewrite IH.
Qed.

(** The gauge of the memory ZRAM uses is computed from the compressed sizes: two
    snapshots whose devices differ only in the memory the kernel reports as used
    are exported alike. *)
Theorem zram_gauge_ignores_memory b now devices mems s m :
  length mems = length devices ->
  build_snapshot b now devices = Ok s ->
  exists s', build_snapshot b now
      (zip_with (fun d u => mkZramDev (zram_name d) (orig_size_kb d) (comp_size_kb d) u (max_comp_streams d) (comp_algorithm d))
         devices mems) = Ok s' /\
    update_from_snapshot s' m = update_from_snapshot s m.
Proof.
  intros Hl. unfold build_snapshot.
  assert (forall f : ZramDevice -> Z,
    (forall d u, f (mkZramDev (zram_name d) (orig_size_kb d) (comp_size_kb d) u (max_comp_streams d) (comp_algorithm d)) = f d) ->
    f <$> zip_with (fun d u => mkZramDev (zram_name d) (orig_size_kb d) (comp_size_kb d) u (max_comp_streams d) (comp_algorithm d)) devices mems
      = f <$> devices) as Hf.
  { intros f Hf. revert mems Hl. induction devices as [|d ds IH]; intros [|u us] [=]; [done|].
    cbn [zip_with fmap list_fmap]. rewrite Hf. f_equal. by apply IH. }
  rewrite !Hf by done.
  destruct (sum64 b (orig_size_kb <$> devices) 0); cbn [obind]; [|done..].
  destruct (sum64 b (comp_size_kb <$> devices) 0); cbn [obind]; [|done..].
  intros [= <-]. eexists. split; [reflexivity|]. unfold update_from_snapshot.
  cbn [zram_ratio total_comp_kb total_orig_kb zram_devices]. f_equal. do 2 f_equal.
  rewrite length_zip_with. lia.
Qed.

Lemma zram_gauge_ignores_memory_witness :
  let m := mkZramMetrics (of_int f64 0) (of_int f64 0) (of_int f64 0) (of_int f64 0) in
  exists s s',
    build_snapshot Debug 7 [mkZramDev "zram0" 4096 1024 1100 2 "zstd"] = Ok s /\
    build_snapshot Debug 7 [mkZramDev "zram0" 4096 1024 3000 2 "zstd"] = Ok s' /\
    update_from_snapshot s' m = update_from_snapshot s m.
Proof.
  cbv zeta.
  destruct (zram_gauge_ignores_memory Debug 7 [mkZramDev "zram0" 4096 1024 1100 2 "zstd"] [3000]
    _ (mkZramMetrics (of_int f64 0) (of_int f64 0) (of_int f64 0) (of_int f64 0)) eq_refl eq_refl)
    as (s' & E & Hu).
  eexists _, s'. split; [reflexivity|]. split; [exact E|exact Hu].
Defined.
