(* ===== verification/Scoring.v ===== *)
(** * Scoring of recommendations: [ghost-evaluator/src/scoring.rs]

    A recommendation is scored from the system states before and after it:
    six components and their weighted mean. *)

From Stdlib Require Import ZArith Lia SpecFloat.
From stdpp Require Import base strings list.
From S2P Require Import Prelude Floats CoreTypes Pressure Regions LinuxPolicy.

Open Scope rust_scope.

Local Abbreviation one := (of_int f32 1).
Local Abbreviation zero := (of_int f32 0).

Record RecommendationScore := mkScore {
  fault_reduction : float;
  swap_reduction : float;
  zram_efficiency : float;
  pressure_reduction : float;
  tier_balance : float;
  sc_stability : float;
  overall_score : float;
}.

Record ScoringWeights := mkWeights {
  fault_reduction_weight : float;
  swap_reduction_weight : float;
  zram_efficiency_weight : float;
  pressure_reduction_weight : float;
  tier_balance_weight : float;
  stability_weight : float;
}.
Definition ScoringWeights_default : ScoringWeights :=
  mkWeights (lit f32 25 100) (lit f32 20 100) (lit f32 15 100) (lit f32 20 100) (lit f32 10 100) (lit f32 10 100).

Definition combined_pressure (p : PressureState) : float := fmax (memory_pressure p) (io_pressure p).

Definition max_pressure_of (s : SystemState) : float :=
  fmax (fmax (memory_pressure (dram_pressure s)) (io_pressure (dram_pressure s)))
       (fmax (memory_pressure (sys_io_pressure s)) (io_pressure (sys_io_pressure s))).

Definition zram_utilization_score (util lo hi : float) : float :=
  if fge util lo && fle util hi then one
  else if flt util lo then if fgt lo zero then fclamp (fdiv f32 util lo) zero one else one
  else
    let overfill := fsub f32 util hi in
    let max_overfill := fsub f32 one hi in
    if fgt max_overfill zero
    then fclamp (fsub f32 one (fmul f32 (fdiv f32 overfill max_overfill) (lit f32 7 10))) zero one
    else one.

Definition mean32 (l : list float) : float := fdiv f32 (fsum f32 l) (of_int f32 (Z.of_nat (length l))).
Definition variance32 (l : list float) : float :=
  let m := mean32 l in mean32 ((fun u => let diff := fsub f32 u m in fmul f32 diff diff) <$> l).

Definition compute_balance (s : SystemState) : float :=
  let us := [dram_utilization s; swap_utilization s] ++ match zram_utilization s with Some z => [z] | None => [] end in
  if feq (mean32 us) zero then one
  else fmax (fsub f32 one (fmin (fdiv f32 (fsqrt f32 (variance32 us)) (lit f32 1 2)) one)) zero.

Definition system_stability (s : SystemState) : float :=
  let p := max_pressure_of s in
  let pressure_score :=
    if fge p (lit f32 9 10) then zero else if fge p (lit f32 7 10) then lit f32 3 10
    else if fge p (lit f32 5 10) then lit f32 6 10 else if fge p (lit f32 3 10) then lit f32 8 10 else one in
  let above x := fgt (dram_utilization s) x || fgt (swap_utilization s) x in
  let util_penalty := if above (lit f32 95 100) then lit f32 3 10 else if above (lit f32 85 100) then lit f32 6 10 else one in
  fmul f32 pressure_score util_penalty.

(** The common shape of the three reductions. *)
Definition reduction (before after : float) : float :=
  if fge after before then if feq before zero then one else zero
  else fclamp (fsub f32 before after) zero one.

Definition score_fault_reduction (before after : SystemState) : float :=
  reduction (combined_pressure (dram_pressure before)) (combined_pressure (dram_pressure after)).
Definition score_swap_reduction (before after : SystemState) : float :=
  reduction (swap_utilization before) (swap_utilization after).
Definition score_pressure_reduction (before after : SystemState) : float :=
  reduction (max_pressure_of before) (max_pressure_of after).

Definition EPSILON32 : float := lit f32 1 (2 ^ 23).

Definition score_zram_efficiency (before after : SystemState) : float :=
  let score s := zram_utilization_score (default zero (zram_utilization s)) (lit f32 3 10) (lit f32 7 10) in
  if fgt (score after) (score before) then score after
  else if flt (SFabs (fsub f32 (score after) (score before))) EPSILON32 then score after
  else fmul f32 (score after) (lit f32 1 2).

Definition kept_or_halved (before after : float) : float := if fge after before then after else fmul f32 after (lit f32 1 2).
Definition score_tier_balance (before after : SystemState) : float := kept_or_halved (compute_balance before) (compute_balance after).
Definition score_stability (before after : SystemState) : float := kept_or_halved (system_stability before) (system_stability after).

Definition recommendation_type_bonus (r : Recommendation) (before : SystemState) : float :=
  let p := memory_pressure (dram_pressure before) in
  match r with
  | PromoteToDram _ _ _ _ =>
      if flt p (lit f32 5 10) then lit f32 5 100 else if flt p (lit f32 7 10) then lit f32 2 100 else lit f32 (-2) 100
  | MoveToZram _ _ _ _ =>
      match zram_utilization before with
      | Some u => if flt u (lit f32 7 10) then lit f32 5 100 else lit f32 (-2) 100
      | None => lit f32 (-5) 100
      end
  | MoveToDiskSwap _ _ _ _ => if flt (swap_utilization before) (lit f32 7 10) then lit f32 4 100 else lit f32 (-2) 100
  | EvictCold _ _ _ _ =>
      if fge p (lit f32 8 10) then lit f32 8 100 else if fge p (lit f32 6 10) then lit f32 3 100 else lit f32 (-3) 100
  | DemoteHot _ _ _ _ => if fge p (lit f32 5 10) && flt p (lit f32 8 10) then lit f32 4 100 else lit f32 1 100
  | NoAction _ _ _ =>
      if flt p (lit f32 5 10) && flt (swap_utilization before) (lit f32 5 10) then lit f32 5 100 else lit f32 (-5) 100
  end.

(** [a + b + ...], [a * w + b * v + ...], associated to the left. *)
Definition fsum1 (x : float) (l : list float) : float := fold_left (fadd f32) l x.

Definition weighted_score (w : ScoringWeights) (f s z p t b : float) : float :=
  let total := fsum1 (fault_reduction_weight w)
    [swap_reduction_weight w; zram_efficiency_weight w; pressure_reduction_weight w; tier_balance_weight w; stability_weight w] in
  if fgt total zero
  then fdiv f32 (fsum1 (fmul f32 f (fault_reduction_weight w))
         [fmul f32 s (swap_reduction_weight w); fmul f32 z (zram_efficiency_weight w); fmul f32 p (pressure_reduction_weight w);
          fmul f32 t (tier_balance_weight w); fmul f32 b (stability_weight w)]) total
  else zero.

Definition score_recommendation (r : Recommendation) (before after : SystemState) (w : ScoringWeights) : RecommendationScore :=
  let f := score_fault_reduction before after in
  let s := score_swap_reduction before after in
  let z := score_zram_efficiency before after in
  let p := score_pressure_reduction before after in
  let t := score_tier_balance before after in
  let b := score_stability before after in
  mkScore f s z p t b
    (fmin (fmul f32 (weighted_score w f s z p t b) (fadd f32 one (recommendation_type_bonus r before))) one).

Definition score_policy_evaluation (rs : list Recommendation) (before after : SystemState) : RecommendationScore :=
  let w := ScoringWeights_default in
  match rs with
  | [] => score_recommendation (NoAction "no recommendations" one []) before after w
  | _ =>
      let scores := (fun r => score_recommendation r before after w) <$> rs in
      let avg (f : RecommendationScore -> float) := fdiv f32 (fsum f32 (f <$> scores)) (of_int f32 (Z.of_nat (length rs))) in
      mkScore (avg fault_reduction) (avg swap_reduction) (avg zram_efficiency) (avg pressure_reduction) (avg tier_balance)
        (avg sc_stability) (avg overall_score)
  end.

(** ** Operations that give a number *)

Lemma fsub_nan_l F x y : is_nan x = false -> is_finite y = true -> is_nan (fsub F x y) = false.
Proof.
  destruct x, y; try done; intros _ _; simpl; try done; [by repeat case_match|]. apply FloatNaN.binary_normalize_nan.
Qed.
Lemma fmul_nan_r F x y : is_nan x = false -> FloatNaN.nonzero y = true -> is_nan (fmul F x y) = false.
Proof. destruct x, y; try done; intros _ _; simpl; try done. apply FloatNaN.binary_round_aux_nan. lia. Qed.
Lemma fdiv_nan_r F x y : is_nan x = false -> FloatNaN.nonzero y = true -> is_nan (fdiv F x y) = false.
Proof. intros Hx Hy. apply FloatNaN.fdiv_nan; [done|by destruct y|by rewrite Hy, orb_true_r]. Qed.
Lemma finite_number x : is_finite x = true -> is_nan x = false.
Proof. by destruct x. Qed.

(** ** Numbers that are not negative, or no numbers *)

Definition semi (x : float) : bool := is_nan x || FloatSign.nonneg x.

Lemma semi_nonneg x : FloatSign.nonneg x = true -> semi x = true.
Proof. intros H. unfold semi. by rewrite H, orb_true_r. Qed.

Lemma fadd_semi F x y : semi x = true -> semi y = true -> semi (fadd F x y) = true.
Proof.
  intros Hx Hy. unfold semi in Hx, Hy. apply orb_true_iff in Hx as [Hx|Hx], Hy as [Hy|Hy].
  1,2: by destruct x. 1: by destruct x, y. by apply semi_nonneg, FloatSign.fadd_nonneg.
Qed.

Lemma fmul_semi F x y : semi x = true -> semi y = true -> semi (fmul F x y) = true.
Proof.
  destruct x as [sx|[]| |[] m e], y as [sy|[]| |[] m' e']; try done. intros _ _.
  apply semi_nonneg, FloatSign.binary_round_aux_nonneg. lia.
Qed.

Lemma fdiv_semi F x y : semi x = true -> flt zero y = true -> semi (fdiv F x y) = true.
Proof.
  destruct x as [sx|[]| |[] m e], y as [sy|[]| |[] m' e']; try done. intros _ _.
  unfold fdiv, SFdiv. pose proof (FloatNaN.SFdiv_core_nonneg (prec F) (emax F) (Z.pos m) e (Z.pos m') e') as H.
  destruct (SFdiv_core_binary _ _ _ _ _ _) as [[q ez] lz]. apply semi_nonneg, FloatSign.binary_round_aux_nonneg, H; lia.
Qed.

Lemma fclamp_semi x : semi (fclamp x zero one) = true.
Proof.
  destruct (is_nan x) eqn:E; [rewrite FloatOrder.fclamp_nan by done; unfold semi; by rewrite E|].
  apply semi_nonneg. rewrite FloatSign.nonneg_fle. by apply FloatOrder.fclamp_range.
Qed.

Lemma fsum1_semi l : forall x, semi x = true -> Forall (fun y => semi y = true) l -> semi (fsum1 x l) = true.
Proof.
  unfold fsum1. induction l as [|y l IH]; intros x Hx Hl; [done|]. apply Forall_cons in Hl as [Hy Hl]. cbn [fold_left].
  apply IH; [by apply fadd_semi|done].
Qed.

Lemma reduction_semi before after : semi (reduction before after) = true.
Proof. unfold reduction. repeat case_match; try done. apply fclamp_semi. Qed.

Lemma zram_score_semi u lo hi : semi (zram_utilization_score u lo hi) = true.
Proof. unfold zram_utilization_score. repeat case_match; try done; apply fclamp_semi. Qed.

Lemma zram_efficiency_semi before after : semi (score_zram_efficiency before after) = true.
Proof. unfold score_zram_efficiency. repeat case_match; try apply fmul_semi; try apply zram_score_semi. done. Qed.

Lemma fmax_zero_semi x : semi (fmax x zero) = true.
Proof.
  unfold fmax. destruct (is_nan x) eqn:Hx; [done|]. cbn [is_nan].
  change (is_nan zero) with false. destruct (flt x zero) eqn:E; [done|]. cbv iota.
  apply semi_nonneg. rewrite FloatSign.nonneg_fle. rewrite FloatOrder.flt_fle in E by done. by apply negb_false_iff in E.
Qed.

Lemma kept_or_halved_semi x y : semi y = true -> semi (kept_or_halved x y) = true.
Proof. intros Hy. unfold kept_or_halved. case_match; [done|]. by apply fmul_semi. Qed.

Lemma balance_semi s : semi (compute_balance s) = true.
Proof. unfold compute_balance. case_match; [done|]. apply fmax_zero_semi. Qed.

Lemma stability_semi s : semi (system_stability s) = true.
Proof. unfold system_stability. apply fmul_semi; repeat case_match; done. Qed.

(** The six components are never negative. *)
Lemma components_semi before after :
  semi (score_fault_reduction before after) = true /\ semi (score_swap_reduction before after) = true /\
  semi (score_zram_efficiency before after) = true /\ semi (score_pressure_reduction before after) = true /\
  semi (score_tier_balance before after) = true /\ semi (score_stability before after) = true.
Proof.
  split_and!; try apply reduction_semi; [apply zram_efficiency_semi|apply kept_or_halved_semi, balance_semi|apply kept_or_halved_semi, stability_semi].
Qed.

Definition weights_ok (w : ScoringWeights) : bool :=
  forallb semi [fault_reduction_weight w; swap_reduction_weight w; zram_efficiency_weight w; pressure_reduction_weight w;
                tier_balance_weight w; stability_weight w].

Lemma weighted_semi w f s z p t b : weights_ok w = true -> semi f = true -> semi s = true -> semi z = true -> semi p = true ->
  semi t = true -> semi b = true -> semi (weighted_score w f s z p t b) = true.
Proof.
  unfold weights_ok. cbn [forallb]. rewrite !andb_true_iff. intros (W1 & W2 & W3 & W4 & W5 & W6 & _) **. unfold weighted_score.
  case_match; [|done]. apply fdiv_semi; [|done]. apply fsum1_semi; [by apply fmul_semi|]. repeat constructor; by apply fmul_semi.
Qed.

Lemma bonus_semi r s : semi (fadd f32 one (recommendation_type_bonus r s)) = true.
Proof. unfold recommendation_type_bonus. repeat case_match; vm_compute; reflexivity. Qed.

Definition in_unit (x : float) : bool := fle zero x && fle x one.

Lemma fmin_unit x : semi x = true -> in_unit (fmin x one) = true.
Proof.
  intros Hx. unfold in_unit. rewrite FloatSign.fmin_le by done. rewrite andb_true_r. unfold fmin.
  destruct (is_nan x) eqn:E; [done|]. change (is_nan one) with false. destruct (flt one x); [done|]. cbv iota.
  unfold semi in Hx. rewrite E in Hx. cbn in Hx. by rewrite FloatSign.nonneg_fle in Hx.
Qed.

(** Whatever the two states hold, NaN and infinite readings included, and
    for any weights that are not negative, the overall score of a
    recommendation is a number between 0 and 1. *)
Theorem overall_score_in_unit r before after w : weights_ok w = true ->
  in_unit (overall_score (score_recommendation r before after w)) = true.
Proof.
  intros Hw. destruct (components_semi before after) as (? & ? & ? & ? & ? & ?). cbn [overall_score score_recommendation].
  apply fmin_unit, fmul_semi; [by apply weighted_semi|apply bonus_semi].
Qed.

Lemma overall_score_in_unit_witness :
  in_unit (overall_score (score_recommendation (NoAction "idle" one [])
    (mkSys PressureState_new (lit f32 1 2) zero None PressureState_new None None)
    (mkSys PressureState_new S754_nan zero None PressureState_new None None) ScoringWeights_default)) = true.
Proof. apply overall_score_in_unit. vm_compute. reflexivity. Defined.

(** A reading that is no number makes the mean no number, and the final [min]
    turns that into the best score there is. *)
Lemma nan_scores_best r before after w : is_nan (weighted_score w (score_fault_reduction before after)
    (score_swap_reduction before after) (score_zram_efficiency before after) (score_pressure_reduction before after)
    (score_tier_balance before after) (score_stability before after)) = true ->
  overall_score (score_recommendation r before after w) = one.
Proof.
  intros Hn. cbn [overall_score score_recommendation]. destruct (weighted_score _ _ _ _ _ _ _); try done.
Qed.
Example nan_zram_is_best : overall_score (score_recommendation (MoveToZram (mkChunkId []) "r" one [])
    (mkSys PressureState_new zero zero (Some S754_nan) PressureState_new None None)
    (mkSys PressureState_new zero zero (Some S754_nan) PressureState_new None None) ScoringWeights_default) = one.
Proof. vm_compute. reflexivity. Qed.
