(* ===== verification/Explanation.v ===== *)
(** * Explanations and counters of the evaluator:
    [ghost-evaluator/src/explanation.rs], [evaluator_metrics.rs]

    For a recommendation and the state it was made in: a category, the factors
    that contributed, the level of confidence and the alternatives.  The
    counters of the evaluator are metrics of a registry ([Metrics.v]). *)

From Stdlib Require Import ZArith Lia SpecFloat Ascii.
From stdpp Require Import base gmap strings pretty list.
From S2P Require Import Prelude Floats CoreTypes Pressure Regions Metrics LinuxPolicy Scoring.

Open Scope rust_scope.

Local Abbreviation L := (lit f32).
Local Abbreviation zero := (of_int f32 0).
Local Abbreviation one := (of_int f32 1).

Inductive ReasonCategory := PressureResponse | HotnessDriven | ColdEviction | TierOptimization | StabilityPreservation | NoActionNeeded.
Definition reason_display (c : ReasonCategory) : string :=
  match c with
  | PressureResponse => "Pressure Response" | HotnessDriven => "Hotness Driven" | ColdEviction => "Cold Eviction"
  | TierOptimization => "Tier Optimization" | StabilityPreservation => "Stability Preservation" | NoActionNeeded => "No Action Needed"
  end.
Record ExplanationFactor := mkFactor { ef_name : string; ef_value : float; ef_threshold : float; ef_description : string }.
Inductive ExplainedLevel := HighLevel | MediumLevel | LowLevel.
Definition explained_level_display (l : ExplainedLevel) : string := match l with HighLevel => "high" | MediumLevel => "medium" | LowLevel => "low" end.
Record ConfidenceExplanation := mkCE { ce_confidence : float; ce_level : ExplainedLevel; ce_reasoning : string }.
Record AlternativeAction := mkAlt { alt_action : string; alt_reason : string; alt_confidence : float }.
Record RecommendationExplanation := mkExpl {
  ex_recommendation : Recommendation;
  reason_category : ReasonCategory;
  reason_detail : string;
  contributing_factors : list ExplanationFactor;
  confidence_explanation : ConfidenceExplanation;
  alternatives : list AlternativeAction;
}.

Definition build_confidence_explanation (c : float) (reasoning : string) : ConfidenceExplanation :=
  mkCE c (if fge c (L 8 10) then HighLevel else if fge c (L 5 10) then MediumLevel else LowLevel) reasoning.

(** [{:.0}] of [x * 100.0] *)
Definition percent (x : float) : string := fixed 0 (fmul f32 x (of_int f32 100)).
Definition policy_factors (l : list string) : list ExplanationFactor := (fun s => mkFactor "Policy factor" one (L 5 10) s) <$> l.

Section explain.
Variable s : SystemState.
Local Abbreviation mem := (memory_pressure (dram_pressure s)).
Local Abbreviation dram := (dram_utilization s).
Local Abbreviation swap := (swap_utilization s).
Local Abbreviation zram := (default zero (zram_utilization s)).

Definition explain_promote_to_dram (id : ChunkId) (reason : string) (c : float) (factors : list string) : RecommendationExplanation :=
  let fs :=
    [mkFactor "DRAM memory pressure" mem (L 7 10)
       (if flt mem (L 5 10) then "DRAM pressure is low — promotion is safe"
        else if flt mem (L 7 10) then "DRAM pressure is moderate — promotion is feasible"
        else "DRAM pressure is high (" +:+ fixed 2 mem +:+ ") — promotion risky but hot data justifies it");
     mkFactor "DRAM utilization" dram (L 85 100)
       (if flt dram (L 7 10) then "DRAM has ample free capacity"
        else if flt dram (L 85 100) then "DRAM is moderately utilized — space available for promotion"
        else "DRAM is heavily utilized (" +:+ fixed 2 dram +:+ ") — promotion may increase pressure")] ++
    match hotness_summary s with
    | Some h =>
        let x := fdiv f32 (hot_percentage h) (of_int f32 100) in
        [mkFactor "Hotness summary" x (L 5 10) ("Hotness data shows this region is frequently accessed (avg hotness: " +:+ fixed 2 x +:+ ")")]
    | None => []
    end ++ policy_factors factors in
  mkExpl (PromoteToDram id reason c factors)
    (match hotness_summary s with Some _ => HotnessDriven | None => TierOptimization end)
    ("Chunk " +:+ short_hex id +:+ " is frequently accessed (hot). Promoting to DRAM reduces page faults and improves latency. DRAM utilization is "
       +:+ percent dram +:+ "%, memory pressure is " +:+ percent mem +:+ "%.")
    fs
    (build_confidence_explanation c
       (if flt mem (L 5 10) then "High confidence due to low DRAM pressure and available capacity"
        else "Moderate confidence — DRAM pressure is elevated but hotness justifies promotion"))
    [mkAlt "MoveToZram" "Not chosen because the chunk is hot — ZRAM compression would increase latency"
       (fclamp (fadd f32 (L 3 10) (fmul f32 mem (L 3 10))) zero one);
     mkAlt "NoAction" "Not chosen because promoting hot data to DRAM reduces page faults" (L 2 10)].

Definition explain_move_to_zram (id : ChunkId) (reason : string) (c : float) (factors : list string) : RecommendationExplanation :=
  let fs :=
    [mkFactor "ZRAM utilization" zram (L 8 10)
       (if flt zram (L 5 10) then "ZRAM has ample capacity for compressed pages"
        else if flt zram (L 8 10) then "ZRAM is moderately utilized — space available"
        else "ZRAM is nearly full (" +:+ fixed 2 zram +:+ ") — may need to consider disk swap");
     mkFactor "DRAM memory pressure" mem (L 5 10)
       ("DRAM pressure at " +:+ percent mem +:+ "% — moving cold data to ZRAM frees DRAM for hot data")] ++ policy_factors factors in
  mkExpl (MoveToZram id reason c factors) ColdEviction
    ("Chunk " +:+ short_hex id +:+ " is cold/infrequently accessed. Moving to ZRAM compresses the data and frees DRAM. ZRAM utilization is "
       +:+ percent zram +:+ "%, DRAM pressure is " +:+ percent mem +:+ "%.")
    fs
    (build_confidence_explanation c
       (if flt zram (L 7 10) then "High confidence — ZRAM has capacity and chunk is cold"
        else "Moderate confidence — ZRAM is filling up but still viable"))
    [mkAlt "MoveToDiskSwap"
       (if fgt zram (L 8 10) then "Viable alternative — ZRAM is nearly full" else "Not chosen — ZRAM compression is more efficient than disk swap")
       (if fgt zram (L 8 10) then L 6 10 else L 3 10);
     mkAlt "NoAction" "Not chosen — freeing DRAM by moving cold data improves overall performance" (L 2 10)].

Definition explain_move_to_disk_swap (id : ChunkId) (reason : string) (c : float) (factors : list string) : RecommendationExplanation :=
  let full := fgt zram (L 9 10) in
  let fs :=
    [mkFactor "ZRAM utilization" zram (L 9 10)
       ("ZRAM is at " +:+ percent zram +:+ "% — "
          +:+ (if full then "nearly full, compression is inefficient" else "has some capacity but chunk is very cold"));
     mkFactor "Swap utilization" swap (L 85 100)
       (if flt swap (L 6 10) then "Swap has ample capacity"
        else if flt swap (L 85 100) then "Swap is moderately utilized"
        else "Swap is heavily utilized (" +:+ fixed 2 swap +:+ ") — consider eviction first");
     mkFactor "DRAM memory pressure" mem (L 7 10)
       ("DRAM pressure at " +:+ percent mem +:+ "% — disk swap is last resort to relieve pressure")] ++ policy_factors factors in
  mkExpl (MoveToDiskSwap id reason c factors) PressureResponse
    ("Chunk " +:+ short_hex id +:+ " is very cold. ZRAM is at " +:+ percent zram +:+ "% utilization, swap at " +:+ percent swap
       +:+ "%. Disk swap is needed to free DRAM (pressure at " +:+ percent mem +:+ "%).")
    fs
    (build_confidence_explanation c
       (if full then "High confidence — ZRAM is full, disk swap is necessary"
        else "Moderate confidence — disk swap is last resort, consider alternatives"))
    [mkAlt "EvictCold" "Could evict instead of swapping — avoids disk I/O entirely" (if fgt mem (L 8 10) then L 7 10 else L 4 10);
     mkAlt "MoveToZram"
       (if full then "Not viable — ZRAM is nearly full" else "Not chosen — ZRAM has capacity but chunk is too cold for compression to help")
       (if full then L 1 10 else L 5 10)].

Definition explain_evict_cold (t : TierId) (count : Z) (c : float) (factors : list string) : RecommendationExplanation :=
  let fs :=
    [mkFactor "DRAM memory pressure" mem (L 7 10)
       ("DRAM pressure at " +:+ percent mem +:+ "% — "
          +:+ (if fge mem (L 9 10) then "critical — immediate eviction needed"
               else if fge mem (L 7 10) then "high — eviction recommended" else "moderate — eviction may help"));
     mkFactor "DRAM utilization" dram (L 85 100)
       ("DRAM utilization at " +:+ percent dram +:+ "% — eviction of " +:+ pretty count +:+ " chunks frees memory")] ++ policy_factors factors in
  mkExpl (EvictCold t count c factors) ColdEviction
    ("Evicting " +:+ pretty count +:+ " cold chunk(s) from tier " +:+ tier_debug t +:+ " to free DRAM. Memory pressure is at " +:+ percent mem
       +:+ "%, utilization at " +:+ percent dram +:+ "%.")
    fs
    (build_confidence_explanation c
       (if fge mem (L 8 10) then "High confidence — critical pressure demands immediate eviction"
        else "Moderate confidence — eviction helps but pressure is not critical"))
    [mkAlt "MoveToZram" "Could move to ZRAM instead of evicting — preserves data but uses compressed memory"
       (if flt (default one (zram_utilization s)) (L 7 10) then L 6 10 else L 2 10);
     mkAlt "DemoteHot" "Not chosen — demoting hot data would hurt performance" (L 1 10)].

Definition explain_demote_hot (t target : TierId) (c : float) (factors : list string) : RecommendationExplanation :=
  let fs :=
    [mkFactor "DRAM memory pressure" mem (L 85 100)
       ("DRAM pressure at " +:+ percent mem +:+ "% — critical level requires emergency measures");
     mkFactor "DRAM utilization" dram (L 9 10)
       ("DRAM utilization at " +:+ percent dram +:+ "% — near capacity, emergency demotion needed")] ++ policy_factors factors in
  mkExpl (DemoteHot t target c factors) PressureResponse
    ("Emergency demotion of hot chunks from tier " +:+ tier_debug t +:+ " to " +:+ tier_debug target
       +:+ ". Despite hotness data, critical DRAM pressure (" +:+ percent mem +:+ "%) and utilization (" +:+ percent dram
       +:+ "%) require immediate action.")
    fs
    (build_confidence_explanation c
       (if fge mem (L 9 10) then "High confidence — emergency demotion justified by critical pressure"
        else "Moderate confidence — demotion is a trade-off between pressure and performance"))
    [mkAlt "EvictCold" "Could evict cold data instead — less performance impact but may not free enough memory" (L 5 10);
     mkAlt "MoveToDiskSwap" "Could move to disk swap — slower but frees more memory" (if flt swap (L 7 10) then L 4 10 else L 2 10)].

Definition explain_no_action (reason : string) (c : float) (factors : list string) : RecommendationExplanation :=
  let fs :=
    [mkFactor "DRAM memory pressure" mem (L 5 10)
       ("DRAM pressure at " +:+ percent mem +:+ "% — "
          +:+ (if flt mem (L 3 10) then "low — system is stable"
               else if flt mem (L 5 10) then "moderate — within acceptable range" else "elevated but no action threshold not yet exceeded"));
     mkFactor "DRAM utilization" dram (L 85 100) ("DRAM utilization at " +:+ percent dram +:+ "% — no capacity concerns");
     mkFactor "Swap utilization" swap (L 7 10) ("Swap utilization at " +:+ percent swap +:+ "% — no swap pressure")] ++ policy_factors factors in
  mkExpl (NoAction reason c factors) NoActionNeeded
    ("System is stable. DRAM pressure at " +:+ percent mem +:+ "%, utilization at " +:+ percent dram +:+ "%, swap at " +:+ percent swap
       +:+ "%. No thresholds exceeded — current placement is appropriate.")
    fs
    (build_confidence_explanation c
       (if flt mem (L 5 10) && flt swap (L 5 10) then "High confidence — system is stable, no pressure thresholds exceeded"
        else "Moderate confidence — system is manageable but not ideal"))
    [mkAlt "PromoteToDram" "Not needed — no hot data to promote and DRAM has capacity" (L 1 10);
     mkAlt "MoveToZram" "Not needed — no cold data to move and system is balanced" (L 1 10)].

Definition explain_recommendation (r : Recommendation) : RecommendationExplanation :=
  match r with
  | PromoteToDram id reason c fs => explain_promote_to_dram id reason c fs
  | MoveToZram id reason c fs => explain_move_to_zram id reason c fs
  | MoveToDiskSwap id reason c fs => explain_move_to_disk_swap id reason c fs
  | EvictCold t count c fs => explain_evict_cold t count c fs
  | DemoteHot t target c fs => explain_demote_hot t target c fs
  | NoAction reason c fs => explain_no_action reason c fs
  end.
Definition explain_recommendations (rs : list Recommendation) : list RecommendationExplanation := explain_recommendation <$> rs.
End explain.

Definition line_end : string := String (ascii_of_nat 10) EmptyString.
Definition factor_line (f : ExplanationFactor) : string :=
  "  - " +:+ ef_name f +:+ ": " +:+ fixed 4 (ef_value f) +:+ " (threshold: " +:+ fixed 4 (ef_threshold f) +:+ ") — " +:+ ef_description f +:+ line_end.
Definition alternative_line (a : AlternativeAction) : string :=
  "  - " +:+ alt_action a +:+ " (confidence: " +:+ fixed 4 (alt_confidence a) +:+ "): " +:+ alt_reason a +:+ line_end.
(** A heading and its lines, nothing for no lines. *)
Definition section_text (heading : string) (l : list string) : string :=
  match l with [] => EmptyString | _ => line_end +:+ heading +:+ line_end +:+ foldr (fun a b => a +:+ b) EmptyString l end.
Definition format_explanation (e : RecommendationExplanation) : string :=
  let c := confidence_explanation e in
  "=== Recommendation: " +:+ rec_kind (ex_recommendation e) +:+ " ===" +:+ line_end
    +:+ "Category: " +:+ reason_display (reason_category e) +:+ line_end
    +:+ "Detail: " +:+ reason_detail e +:+ line_end
    +:+ section_text "Contributing Factors:" (factor_line <$> contributing_factors e)
    +:+ line_end +:+ "Confidence: " +:+ fixed 4 (ce_confidence c) +:+ " (" +:+ explained_level_display (ce_level c) +:+ ")" +:+ line_end
    +:+ "  " +:+ ce_reasoning c +:+ line_end
    +:+ section_text "Alternatives Considered:" (alternative_line <$> alternatives e).

(** ** What an explanation says *)

(** The variants of a recommendation, by the names alternatives give them. *)
Definition variant_name (r : Recommendation) : string :=
  match r with
  | PromoteToDram _ _ _ _ => "PromoteToDram" | MoveToZram _ _ _ _ => "MoveToZram" | MoveToDiskSwap _ _ _ _ => "MoveToDiskSwap"
  | EvictCold _ _ _ _ => "EvictCold" | DemoteHot _ _ _ _ => "DemoteHot" | NoAction _ _ _ => "NoAction"
  end.
Definition rec_reasons (r : Recommendation) : list string :=
  match r with
  | PromoteToDram _ _ _ l | MoveToZram _ _ _ l | MoveToDiskSwap _ _ _ l | NoAction _ _ l | EvictCold _ _ _ l | DemoteHot _ _ _ l => l
  end.

(** A reading a factor of that name may show. *)
Definition shows (s : SystemState) (f : ExplanationFactor) : Prop :=
  (ef_name f = "DRAM memory pressure" /\ ef_value f = memory_pressure (dram_pressure s)) \/
  (ef_name f = "DRAM utilization" /\ ef_value f = dram_utilization s) \/
  (ef_name f = "Swap utilization" /\ ef_value f = swap_utilization s) \/
  (ef_name f = "ZRAM utilization" /\ ef_value f = default zero (zram_utilization s)) \/
  (ef_name f = "Hotness summary" /\ exists h, hotness_summary s = Some h /\ ef_value f = fdiv f32 (hot_percentage h) (of_int f32 100)).

Ltac shown := repeat (apply Forall_cons; split; [unfold shows; cbn [ef_name ef_value]; tauto|]); try (by apply Forall_nil).

Lemma explained_factors s r :
  exists fs, contributing_factors (explain_recommendation s r) = fs ++ policy_factors (rec_reasons r) /\ fs <> [] /\ Forall (shows s) fs.
Proof.
  destruct r; cbn [explain_recommendation rec_reasons];
    unfold explain_promote_to_dram, explain_move_to_zram, explain_move_to_disk_swap, explain_no_action, explain_evict_cold, explain_demote_hot;
    cbv zeta; cbn [contributing_factors].
  2-6: eexists; split; [reflexivity|]; split; [discriminate|shown].
  destruct (hotness_summary s) as [h|] eqn:Eh; rewrite app_assoc; eexists; (split; [reflexivity|]; split; [discriminate|]); cbn [app]; shown.
  constructor; [|constructor]. do 4 right. split; [done|]. by exists h.
Qed.

Lemma explained_alternatives_unit s r : is_nan (memory_pressure (dram_pressure s)) = false ->
  Forall (fun a => fle zero (alt_confidence a) && fle (alt_confidence a) one = true) (alternatives (explain_recommendation s r)).
Proof.
  intros Hm. destruct r; cbn [explain_recommendation];
    unfold explain_promote_to_dram, explain_move_to_zram, explain_move_to_disk_swap, explain_no_action, explain_evict_cold, explain_demote_hot;
    cbn [alternatives]; repeat (apply Forall_cons; split; [cbn [alt_confidence]|]); try (by apply Forall_nil);
    try lazymatch goal with |- context [fclamp] => fail | _ => repeat (match goal with |- context [if ?b then _ else _] => destruct b end); vm_compute; reflexivity end.
  assert (is_nan (fadd f32 (L 3 10) (fmul f32 (memory_pressure (dram_pressure s)) (L 3 10))) = false) as Hx.
  { apply FloatNaN.fadd_nan_r; [vm_compute; reflexivity|]. apply fmul_nan_r; [done|vm_compute; reflexivity]. }
  destruct (FloatOrder.fclamp_range _ zero one Hx) as [-> ->]; [vm_compute; reflexivity|reflexivity].
Qed.

(** An explanation is of its recommendation.  It keeps the recommendation and
    its confidence, whose level is high from 0.8 and medium from 0.5; its
    factors are readings of the state under their own names, followed by the
    policy's own factors in their order; and it offers two alternatives, other
    actions than the one recommended, with a confidence between 0 and 1 when
    the memory pressure is a number. *)
Theorem explanation_faithful s r :
  let e := explain_recommendation s r in
  ex_recommendation e = r /\
  ce_confidence (confidence_explanation e) = rec_confidence r /\
  (ce_level (confidence_explanation e) = HighLevel <-> fge (rec_confidence r) (L 8 10) = true) /\
  (ce_level (confidence_explanation e) = LowLevel <-> fge (rec_confidence r) (L 8 10) = false /\ fge (rec_confidence r) (L 5 10) = false) /\
  (exists fs, contributing_factors e = fs ++ policy_factors (rec_reasons r) /\ fs <> [] /\ Forall (shows s) fs) /\
  length (alternatives e) = 2%nat /\ NoDup (alt_action <$> alternatives e) /\
  Forall (fun a => alt_action a <> variant_name r) (alternatives e) /\
  (is_nan (memory_pressure (dram_pressure s)) = false ->
   Forall (fun a => fle zero (alt_confidence a) && fle (alt_confidence a) one = true) (alternatives e)).
Proof.
  cbv zeta. assert (forall c t, (ce_level (build_confidence_explanation c t) = HighLevel <-> fge c (L 8 10) = true) /\
    (ce_level (build_confidence_explanation c t) = LowLevel <-> fge c (L 8 10) = false /\ fge c (L 5 10) = false)) as Hl.
  { intros c t. unfold build_confidence_explanation. cbn [ce_level]. destruct (fge c (L 8 10)), (fge c (L 5 10)); naive_solver. }
  assert (length (alternatives (explain_recommendation s r)) = 2%nat /\ NoDup (alt_action <$> alternatives (explain_recommendation s r)) /\
    Forall (fun a => alt_action a <> variant_name r) (alternatives (explain_recommendation s r))) as (H1 & H2 & H3).
  { destruct r; (split; [done|]; split; [apply NoDup_ListNoDup; repeat constructor; cbn; intuition discriminate|]; repeat constructor; cbn; discriminate). }
  do 2 (split; [by destruct r|]). do 2 (split; [by destruct r; apply Hl|]). split; [apply explained_factors|]. do 3 (split; [done|]).
  apply explained_alternatives_unit.
Qed.

(** An explanation may contradict itself: its text is chosen by the pressure of
    the state and its level by the confidence, so a text of high confidence
    comes with every level, and doing nothing is said to exceed no thresholds
    whatever the readings. *)
Theorem explanation_contradicts c :
  exists s, let e := explain_recommendation s (EvictCold Ram 1 c []) in
    ce_reasoning (confidence_explanation e) = "High confidence — critical pressure demands immediate eviction" /\
    (fge c (L 5 10) = false -> ce_level (confidence_explanation e) = LowLevel) /\
    exists text, reason_detail (explain_recommendation s (NoAction "idle" c [])) =
      "System is stable. DRAM pressure at 100%, utilization at 100%, swap at 100%" +:+ text /\
      text = ". No thresholds exceeded — current placement is appropriate.".
Proof.
  exists (mkSys (set_memory PressureState_new one) one one None PressureState_new None None). cbv zeta.
  split; [vm_compute; reflexivity|]. split; [|eexists; split; vm_compute; reflexivity].
  intros Hc. unfold explain_recommendation, explain_evict_cold, build_confidence_explanation. cbn [confidence_explanation ce_level]. rewrite Hc.
  destruct (fge c (L 8 10)) eqn:E; [|done]. exfalso. unfold fge in *.
  assert (is_nan c = false) as Hn by (by apply FloatOrder.fle_not_nan in E as [_ ?]).
  assert (fle (L 5 10) c = true); [|congruence]. by apply (FloatOrder.fle_trans _ (L 8 10)).
Qed.

(** ** Counters *)

Definition evaluator_metrics : list Metric := [
  mkMetric "ghost_recommendation_score" KGauge;
  mkMetric "ghost_policy_comparison_total" (KCounterVec ["winner"]);
  mkMetric "ghost_region_promotions_total" KCounter;
  mkMetric "ghost_region_demotions_total" KCounter;
  mkMetric "ghost_stability_index" KGauge;
  mkMetric "ghost_policy_wins_total" (KCounterVec ["policy"])].

Record EvaluatorMetrics := mkEvaluator {
  recommendation_score : Z;
  policy_comparison_total : gmap string Z;
  region_promotions_total : Z;
  region_demotions_total : Z;
  stability_gauge : Z;
  policy_wins_total : gmap string Z;
}.

Definition EvaluatorMetrics_new `{Prometheus} (r : Registry) : outcome string (EvaluatorMetrics * Registry) :=
  let? r := new_metrics evaluator_metrics r in Ok (mkEvaluator 0 ∅ 0 0 0 ∅, r).

Definition record_recommendation_score (sc : RecommendationScore) (m : EvaluatorMetrics) : EvaluatorMetrics :=
  mkEvaluator (scaled (overall_score sc)) (policy_comparison_total m) (region_promotions_total m) (region_demotions_total m) (stability_gauge m) (policy_wins_total m).
Definition record_policy_comparison (winner : string) (m : EvaluatorMetrics) : EvaluatorMetrics :=
  mkEvaluator (recommendation_score m) (vec_inc winner (policy_comparison_total m)) (region_promotions_total m) (region_demotions_total m)
    (stability_gauge m) (policy_wins_total m).
Definition record_region_promotion (m : EvaluatorMetrics) : EvaluatorMetrics :=
  mkEvaluator (recommendation_score m) (policy_comparison_total m) (inc (region_promotions_total m)) (region_demotions_total m) (stability_gauge m) (policy_wins_total m).
Definition record_region_demotion (m : EvaluatorMetrics) : EvaluatorMetrics :=
  mkEvaluator (recommendation_score m) (policy_comparison_total m) (region_promotions_total m) (inc (region_demotions_total m)) (stability_gauge m) (policy_wins_total m).
Definition record_stability_index (x : float) (m : EvaluatorMetrics) : EvaluatorMetrics :=
  mkEvaluator (recommendation_score m) (policy_comparison_total m) (region_promotions_total m) (region_demotions_total m) (scaled x) (policy_wins_total m).
Definition record_policy_win (p : string) (m : EvaluatorMetrics) : EvaluatorMetrics :=
  mkEvaluator (recommendation_score m) (policy_comparison_total m) (region_promotions_total m) (region_demotions_total m) (stability_gauge m)
    (vec_inc p (policy_wins_total m)).

(** The counters of the evaluator can join any registry none of whose metrics
    has one of their names, and join none twice. *)
Theorem evaluator_registers_once `{Prometheus} r :
  NoDup (registered r) -> Forall (fun m => metric_name m ∉ registered r) evaluator_metrics ->
  exists m r', EvaluatorMetrics_new r = Ok (m, r') /\ registered r' = registered r ++ (metric_name <$> evaluator_metrics) /\
    exists e, EvaluatorMetrics_new r' = Err e.
Proof.
  intros Hr Hd. destruct (new_metrics_ok evaluator_metrics r) as (r' & E & Er); [vm_compute; reflexivity| |].
  - apply NoDup_app. split; [done|]. split.
    + intros x Hx (m & -> & Hm)%list_elem_of_fmap. rewrite Forall_forall in Hd. by apply (Hd m Hm).
    + apply (bool_decide_unpack (NoDup _)). vm_compute. exact I.
  - unfold EvaluatorMetrics_new. rewrite E. cbn [obind]. eexists _, r'. split; [done|]. split; [done|].
    unfold new_metrics. rewrite create_all_ok by (vm_compute; reflexivity). cbn [obind evaluator_metrics register_all].
    destruct (register_taken (mkMetric "ghost_recommendation_score" KGauge) r') as [e ->]; [|by exists e].
    rewrite Er. apply elem_of_app. right. left.
Qed.

Lemma evaluator_registers_once_witness :
  exists m r', EvaluatorMetrics_new (registry_new (Prometheus := list_prometheus)) = Ok (m, r').
Proof.
  destruct (evaluator_registers_once (H := list_prometheus) registry_new) as (m & r' & E & _).
  - rewrite registered_new. constructor.
  - rewrite registered_new. apply Forall_true. intros x. apply not_elem_of_nil.
  - exists m, r'. exact E.
Defined.
