(* ===== verification/Evaluator.v ===== *)
(** * Offline evaluation: [ghost-evaluator/src/adaptive.rs], [lifecycle.rs],
    [stability.rs], [baseline.rs], [quality.rs]

    Adaptive temperature thresholds, the life of regions, the stability of a
    stream of recommendations, a baseline policy and the quality of
    recommendations.  The iteration order of a [HashMap] is a parameter. *)

From Stdlib Require Import ZArith Lia SpecFloat Strings.Byte.
From stdpp Require Import base gmap strings pretty list.
From S2P Require Import Prelude Floats CoreTypes Pressure Trace Regions LinuxTiers LinuxPolicy Scoring.

Open Scope rust_scope.

Local Abbreviation one := (of_int f32 1).
Local Abbreviation zero := (of_int f32 0).

(** ** Adaptive temperatures *)

Module Adaptive.
Inductive TemperatureClass := Hot | Warm | Cold | Frozen.
#[global] Instance TemperatureClass_eq_dec : EqDecision TemperatureClass.
Proof. solve_decision. Defined.

Record TemperatureThresholds := mkThr { hot : float; warm : float; cold : float; frozen : float }.

Record AdaptiveTemperatureModel := mkModel {
  hot_threshold : float;
  cold_threshold : float;
  initial_hot : float;
  initial_cold : float;
  pressure_history : list float;
  tier_occupancy : gmap TierId float;
  adjustment_rate : float;
}.

Definition clamp_hot (x : float) : float := fclamp x (lit f32 1 2) (lit f32 95 100).
Definition clamp_cold (x : float) : float := fclamp x (lit f32 5 100) (lit f32 1 2).

Definition new (h c rate : float) : AdaptiveTemperatureModel :=
  mkModel (clamp_hot h) (clamp_cold c) (clamp_hot h) (clamp_cold c) [] ∅ (fclamp rate zero one).

Definition lerp (x target rate : float) : float := fadd f32 x (fmul f32 (fsub f32 target x) rate).
Definition fneg (x : float) : float := SFopp x.

Section update.
(** The order in which the occupancy map is iterated. *)
Variable values : gmap TierId float -> list float.

Definition update (pressure : float) (occ : gmap TierId float) (m : AdaptiveTemperatureModel) : AdaptiveTemperatureModel :=
  let avg := if decide (occ = ∅) then zero else fdiv f32 (fsum f32 (values occ)) (of_int f32 (Z.of_nat (size occ))) in
  let adjust delta k := fmul f32 (fmul f32 (fneg delta) (adjustment_rate m)) k in
  let target_hot := fadd f32 (initial_hot m) (adjust (fsub f32 pressure (lit f32 1 2)) (lit f32 2 10)) in
  let target_cold := fadd f32 (initial_cold m) (adjust (fsub f32 avg (lit f32 1 2)) (lit f32 1 10)) in
  mkModel (clamp_hot (lerp (hot_threshold m) target_hot (adjustment_rate m)))
          (clamp_cold (lerp (cold_threshold m) target_cold (adjustment_rate m)))
          (initial_hot m) (initial_cold m) (pressure_history m ++ [fclamp pressure zero one]) occ (adjustment_rate m).
End update.

Definition thresholds (m : AdaptiveTemperatureModel) : TemperatureThresholds :=
  mkThr (hot_threshold m) (fdiv f32 (fadd f32 (hot_threshold m) (cold_threshold m)) (of_int f32 2)) (cold_threshold m)
    (fmul f32 (cold_threshold m) (lit f32 8 10)).

Definition classify (t : float) (m : AdaptiveTemperatureModel) : TemperatureClass :=
  let th := thresholds m in
  if fge t (hot th) then Hot else if fge t (warm th) then Warm else if fge t (cold th) then Cold else Frozen.

Definition reset (m : AdaptiveTemperatureModel) : AdaptiveTemperatureModel :=
  mkModel (initial_hot m) (initial_cold m) (initial_hot m) (initial_cold m) [] ∅ (adjustment_rate m).

Definition pressure_trend (m : AdaptiveTemperatureModel) : float :=
  let n := length (pressure_history m) in
  if (n <? 2)%nat then zero
  else fdiv f32 (fsub f32 (default zero (last (pressure_history m))) (default zero (head (pressure_history m)))) (of_int f32 (Z.of_nat n)).

(** Both thresholds are where they are documented to stay, or no numbers. *)
Definition within (lo hi x : float) : Prop := is_nan x = true \/ fle lo x = true /\ fle x hi = true.
Record model_ok (m : AdaptiveTemperatureModel) : Prop := {
  mo_hot : within (lit f32 1 2) (lit f32 95 100) (hot_threshold m);
  mo_cold : within (lit f32 5 100) (lit f32 1 2) (cold_threshold m);
  mo_ihot : within (lit f32 1 2) (lit f32 95 100) (initial_hot m);
  mo_icold : within (lit f32 5 100) (lit f32 1 2) (initial_cold m);
}.

Lemma clamp_within x lo hi : fle lo hi = true -> within lo hi (fclamp x lo hi).
Proof.
  intros H. destruct (is_nan x) eqn:E; [left; by rewrite FloatOrder.fclamp_nan|]. right. by apply FloatOrder.fclamp_range.
Qed.

Lemma new_ok h c r : model_ok (new h c r).
Proof. split; by apply clamp_within. Qed.
Lemma update_ok values p occ m : model_ok m -> model_ok (update values p occ m).
Proof. intros [_ _ H1 H2]. split; [by apply clamp_within|by apply clamp_within|done|done]. Qed.
Lemma reset_ok m : model_ok m -> model_ok (reset m).
Proof. intros [_ _ H1 H2]. by split. Qed.

Definition class_value (c : TemperatureClass) : Z := match c with Hot => 3 | Warm => 2 | Cold => 1 | Frozen => 0 end.

Lemma fge_mono x y thr : fle x y = true -> fge x thr = true -> fge y thr = true.
Proof.
  unfold fge. intros H1 H2. destruct (FloatOrder.fle_not_nan _ _ H1), (FloatOrder.fle_not_nan _ _ H2).
  by apply (FloatOrder.fle_trans thr x y).
Qed.

(** A model built from any inputs and updated and reset in any order keeps
    its thresholds within their documented ranges (a NaN input gives NaN
    thresholds, never others), and under any model a hotter reading is never
    classified colder. *)
Theorem adaptive_ranges values h c r ops : let m := fold_left (fun m o => match o with Some (p, occ) => update values p occ m | None => reset m end)
    ops (new h c r) in
  model_ok m /\ (forall x y, fle x y = true -> class_value (classify x m) <= class_value (classify y m)).
Proof.
  intros m. split.
  - unfold m. assert (model_ok (new h c r)) as H by apply new_ok. revert H. generalize (new h c r).
    induction ops as [|[[p occ]|] ops IH]; intros m0 Hm; [done| |]; cbn [fold_left]; apply IH; [by apply update_ok|by apply reset_ok].
  - clearbody m. intros x y Hxy. unfold classify. destruct (thresholds m) as [th tw tc tf]. cbn [hot warm cold].
    pose proof (fun t => fge_mono x y t Hxy) as H.
    destruct (fge x th) eqn:E1; [rewrite (H _ E1); done|]. destruct (fge x tw) eqn:E2; [rewrite (H _ E2); by destruct (fge y th)|].
    destruct (fge x tc) eqn:E3; [rewrite (H _ E3); by destruct (fge y th), (fge y tw)|]. by destruct (fge y th), (fge y tw), (fge y tc).
Qed.
End Adaptive.

(** ** The life of regions *)

Module Lifecycle.
Import Adaptive (TemperatureClass).

Record TemperatureTransition := mkTT { tt_from : TemperatureClass; tt_to : TemperatureClass; tt_timestamp : Z; tt_reason : string }.
Record RegionLifecycle := mkRL {
  region_id : ChunkId;
  current_temperature : TemperatureClass;
  transitions : list TemperatureTransition;
  promotion_count : Z;
  demotion_count : Z;
  average_residency_secs : float;
}.
Record LifecycleSummary := mkLS {
  total_regions : nat;
  hot_regions : nat;
  cold_regions : nat;
  frozen_regions : nat;
  total_promotions : Z;
  total_demotions : Z;
  most_active : option ChunkId;
  most_stable : option ChunkId;
}.
Abbreviation LifecycleTracker := (gmap ChunkId RegionLifecycle).

Definition residency (ts : list TemperatureTransition) : float :=
  if (length ts <? 2)%nat then zero
  else match head ts, last ts with
       | Some a, Some b => fdiv f32 (of_int f32 (sat_sub (tt_timestamp b) (tt_timestamp a))) (of_int f32 (Z.of_nat (length ts)))
       | _, _ => zero
       end.

(** [entry(..).or_insert_with(..)], the new transition, [update_residency]. *)
Definition entry (id : ChunkId) (initial : TemperatureClass) (t : LifecycleTracker) : RegionLifecycle :=
  default (mkRL id initial [] 0 0 zero) (t !! id).
Definition push (r : RegionLifecycle) (to : TemperatureClass) (tt : TemperatureTransition) (promoted demoted : Z) : RegionLifecycle :=
  let ts := transitions r ++ [tt] in
  mkRL (region_id r) to ts (promotion_count r + promoted) (demotion_count r + demoted) (residency ts).

Definition record_transition (id : ChunkId) (from to : TemperatureClass) (now : Z) (reason : string) (t : LifecycleTracker) : LifecycleTracker :=
  <[id := push (entry id from t) to (mkTT from to now reason) 0 0]> t.
Definition record_promotion (id : ChunkId) (now : Z) (t : LifecycleTracker) : LifecycleTracker :=
  <[id := push (entry id Adaptive.Hot t) Adaptive.Hot (mkTT Adaptive.Warm Adaptive.Hot now "promotion") 1 0]> t.
Definition record_demotion (id : ChunkId) (now : Z) (t : LifecycleTracker) : LifecycleTracker :=
  <[id := push (entry id Adaptive.Cold t) Adaptive.Cold (mkTT Adaptive.Warm Adaptive.Cold now "demotion") 0 1]> t.
Definition get_lifecycle (id : ChunkId) (t : LifecycleTracker) : option RegionLifecycle := t !! id.

Section summary.
(** The order in which the map of regions is iterated. *)
Variable iter : LifecycleTracker -> list RegionLifecycle.
Hypothesis iter_values : forall t, iter t ≡ₚ (map_to_list t).*2.

Definition activity (r : RegionLifecycle) : nat := length (transitions r).
Definition by_activity (x y : RegionLifecycle) : comparison := (activity x ?= activity y)%nat.
Definition most_active_region (t : LifecycleTracker) : option ChunkId := region_id <$> max_by by_activity (iter t).
Definition most_stable_region (t : LifecycleTracker) : option ChunkId := region_id <$> min_by by_activity (iter t).

Definition count_class (c : TemperatureClass) (l : list RegionLifecycle) : nat := length (filter (fun r => current_temperature r = c) l).
Definition summary (t : LifecycleTracker) : LifecycleSummary :=
  mkLS (size t) (count_class Adaptive.Hot (iter t)) (count_class Adaptive.Cold (iter t)) (count_class Adaptive.Frozen (iter t))
    (foldr Z.add 0 (promotion_count <$> iter t)) (foldr Z.add 0 (demotion_count <$> iter t)) (most_active_region t) (most_stable_region t).
End summary.

(** ** Histories *)

Inductive Op := OTransition (id : ChunkId) (from to : TemperatureClass) (now : Z) (reason : string) | OPromote (id : ChunkId) (now : Z) | ODemote (id : ChunkId) (now : Z).
Definition run_op (t : LifecycleTracker) (o : Op) : LifecycleTracker :=
  match o with
  | OTransition id from to now reason => record_transition id from to now reason t
  | OPromote id now => record_promotion id now t
  | ODemote id now => record_demotion id now t
  end.
Definition op_region (o : Op) : ChunkId := match o with OTransition id _ _ _ _ | OPromote id _ | ODemote id _ => id end.
Definition op_transition (o : Op) : TemperatureTransition :=
  match o with
  | OTransition _ from to now reason => mkTT from to now reason
  | OPromote _ now => mkTT Adaptive.Warm Adaptive.Hot now "promotion"
  | ODemote _ now => mkTT Adaptive.Warm Adaptive.Cold now "demotion"
  end.
Definition is_promotion (o : Op) : bool := match o with OPromote _ _ => true | _ => false end.
Definition is_demotion (o : Op) : bool := match o with ODemote _ _ => true | _ => false end.
Definition count_ops (p : Op -> bool) (l : list Op) : Z := Z.of_nat (length (filter (fun o => p o = true) l)).

(** What a region's record must be after the calls made about it. *)
Definition lifecycle_of (id : ChunkId) (ops : list Op) : option RegionLifecycle :=
  match last ops with
  | None => None
  | Some o =>
      let ts := op_transition <$> ops in
      Some (mkRL id (tt_to (op_transition o)) ts (count_ops is_promotion ops) (count_ops is_demotion ops) (residency ts))
  end.
Definition about (id : ChunkId) (ops : list Op) : list Op := filter (fun o => op_region o = id) ops.

Lemma count_ops_snoc p l o : count_ops p (l ++ [o]) = count_ops p l + (if p o then 1 else 0).
Proof.
  unfold count_ops. rewrite filter_app, length_app, filter_cons, filter_nil. destruct (p o); cbn [length]; case_decide; try done; cbn [length]; lia.
Qed.

Lemma lifecycle_snoc id ops o t : t !! id = lifecycle_of id ops -> op_region o = id -> run_op t o !! id = lifecycle_of id (ops ++ [o]).
Proof.
  intros Ht Ho. unfold lifecycle_of at 1. rewrite last_snoc, fmap_app, !count_ops_snoc. cbn [fmap list_fmap].
  assert (forall c, entry id c t = default (mkRL id c [] 0 0 zero) (lifecycle_of id ops)) as He by (intros; unfold entry; by rewrite Ht).
  destruct o as [i f u n r|i n|i n]; cbn [op_region] in Ho; subst i; cbn [run_op record_transition record_promotion record_demotion];
    unfold record_transition, record_promotion, record_demotion; rewrite lookup_insert_eq, He; unfold lifecycle_of;
    destruct (last ops) as [o'|] eqn:El; cbn [default from_option push]; try (apply last_None in El as ->); done.
Qed.

(** After any calls of the tracker the record of a region is exactly that
    of the calls made about it, in order: its transitions, its current
    temperature (that of the last one), its promotions and demotions; a region
    never mentioned has no record. *)
Lemma lifecycle_exact_lookup ops id : fold_left run_op ops ∅ !! id = lifecycle_of id (about id ops).
Proof.
  induction ops as [|o ops IH] using rev_ind; [apply lookup_empty|].
  rewrite fold_left_app. cbn [fold_left]. unfold about. rewrite filter_app, filter_cons, filter_nil. fold (about id ops).
  case_decide as Ho.
  - by apply lifecycle_snoc.
  - rewrite app_nil_r, <- IH. destruct o; cbn [op_region run_op] in *; by apply lookup_insert_ne.
Qed.

Section totals.
Variable iter : LifecycleTracker -> list RegionLifecycle.
Hypothesis iter_values : forall t, iter t ≡ₚ (map_to_list t).*2.

Lemma sum_perm (l k : list Z) : l ≡ₚ k -> foldr Z.add 0 l = foldr Z.add 0 k.
Proof. induction 1; cbn [foldr]; lia. Qed.

Lemma iter_sum f t : foldr Z.add 0 (f <$> iter t) = sum_map f t.
Proof using iter_values.
  transitivity (foldr Z.add 0 (f <$> (map_to_list t).*2)).
  { apply sum_perm. by rewrite iter_values. }
  induction t as [|k v m Hk IH] using map_ind; [by rewrite sum_map_empty, map_to_list_empty|].
  rewrite sum_map_insert, <- IH by done. 
  assert (foldr Z.add 0 (f <$> (map_to_list (<[k:=v]> m)).*2) = foldr Z.add 0 (f <$> ((k, v) :: map_to_list m).*2)) as ->; [|done].
  apply sum_perm. by rewrite map_to_list_insert.
Qed.

Lemma total_promotions_step t o : sum_map promotion_count (run_op t o) = sum_map promotion_count t + (if is_promotion o then 1 else 0).
Proof.
  destruct o as [i f u n r|i n|i n]; cbn [run_op is_promotion]; unfold record_transition, record_promotion, record_demotion, entry;
    (destruct (t !! i) as [x|] eqn:E; cbn [default from_option];
     [rewrite (sum_map_update _ _ _ x) by done|rewrite sum_map_insert by done]); cbn [push promotion_count id]; lia.
Qed.
Lemma total_demotions_step t o : sum_map demotion_count (run_op t o) = sum_map demotion_count t + (if is_demotion o then 1 else 0).
Proof.
  destruct o as [i f u n r|i n|i n]; cbn [run_op is_demotion]; unfold record_transition, record_promotion, record_demotion, entry;
    (destruct (t !! i) as [x|] eqn:E; cbn [default from_option];
     [rewrite (sum_map_update _ _ _ x) by done|rewrite sum_map_insert by done]); cbn [push demotion_count id]; lia.
Qed.

Lemma region_of_key ops id r : fold_left run_op ops ∅ !! id = Some r -> region_id r = id.
Proof. rewrite lifecycle_exact_lookup. unfold lifecycle_of. destruct (last _); [|done]. by intros [= <-]. Qed.

(** The summary counts every promotion and demotion recorded, and the most
    active region has at least as many transitions as any other, the most
    stable at most as many, whatever order the map is iterated in. *)
Theorem summary_exact ops : let t := fold_left run_op ops ∅ in let s := summary iter t in
  total_promotions s = count_ops is_promotion ops /\ total_demotions s = count_ops is_demotion ops /\ total_regions s = size t /\
  (forall id r, t !! id = Some r ->
     (exists i x, most_active s = Some i /\ t !! i = Some x /\ (activity r <= activity x)%nat) /\
     (exists i x, most_stable s = Some i /\ t !! i = Some x /\ (activity x <= activity r)%nat)).
Proof using iter_values.
  intros t s. unfold s, summary. cbn [total_promotions total_demotions total_regions most_active most_stable]. rewrite !iter_sum.
  split_and!; [| |done|].
  - unfold t. induction ops as [|o ops IH] using rev_ind; [apply sum_map_empty|].
    rewrite fold_left_app, count_ops_snoc, <- IH. apply total_promotions_step.
  - unfold t. induction ops as [|o ops IH] using rev_ind; [apply sum_map_empty|].
    rewrite fold_left_app, count_ops_snoc, <- IH. apply total_demotions_step.
  - intros id r Hr. assert (r ∈ iter t) as Hin.
    { rewrite iter_values. apply list_elem_of_fmap. exists (id, r). by rewrite elem_of_map_to_list. }
    assert (forall x, x ∈ iter t -> t !! region_id x = Some x) as Hkey.
    { intros x Hx. rewrite iter_values in Hx. apply list_elem_of_fmap in Hx as [[i y] [-> Hx]]. apply elem_of_map_to_list in Hx.
      cbn [snd]. by rewrite (region_of_key _ _ _ Hx). }
    unfold most_active_region, most_stable_region. split.
    + destruct (max_by by_activity (iter t)) as [x|] eqn:E.
      * exists (region_id x), x. split_and!; [done|by apply Hkey, (max_by_elem by_activity)|].
        eapply (max_by_ge by_activity (fun _ => True)) in E; [|intros; apply Nat.compare_antisym| |by apply Forall_forall|exact Hin].
        -- unfold by_activity in E. apply Nat.compare_ngt_iff in E. lia.
        -- intros a b c _ _ _. unfold by_activity. rewrite !Nat.compare_ngt_iff. lia.
      * apply (max_by_None by_activity) in E. rewrite E in Hin. by apply not_elem_of_nil in Hin.
    + destruct (min_by by_activity (iter t)) as [x|] eqn:E.
      * exists (region_id x), x. split_and!; [done|by apply Hkey, (min_by_elem by_activity)|].
        eapply (min_by_le by_activity (fun _ => True)) in E; [|intros; apply Nat.compare_antisym| |by apply Forall_forall|exact Hin].
        -- unfold by_activity in E. apply Nat.compare_ngt_iff in E. lia.
        -- intros a b c _ _ _. unfold by_activity. rewrite !Nat.compare_ngt_iff. lia.
      * apply (min_by_None by_activity) in E. rewrite E in Hin. by apply not_elem_of_nil in Hin.
Qed.
End totals.
Lemma lifecycle_witness_iter : forall t : gmap ChunkId RegionLifecycle, (map_to_list t).*2 ≡ₚ (map_to_list t).*2.
Proof. done. Qed.

Lemma summary_exact_witness :
  let ops := [OPromote (mkChunkId []) 5; ODemote (mkChunkId []) 9; OPromote (mkChunkId [Byte.x01]) 9] in
  let s := summary (fun t => (map_to_list t).*2) (fold_left run_op ops ∅) in
  total_promotions s = 2 /\ total_demotions s = 1.
Proof.
  intros ops s. destruct (summary_exact (fun t => (map_to_list t).*2) lifecycle_witness_iter ops) as (H1 & H2 & _). split.
  - exact H1.
  - exact H2.
Defined.
End Lifecycle.

(** ** Stability of a stream of recommendations *)

Module StreamStability.
Record RecommendationStability := mkRS {
  recommendations_per_hour : float;
  temperature_flips : nat;
  tier_oscillations : nat;
  confidence_variance : float;
  stability_index : float;
}.
Record StabilityEntry := mkSE { se_timestamp : Z; se_recommendation : Recommendation; se_state : SystemState }.
Record StabilityTracker := mkST { history : list StabilityEntry; window_size : nat }.

Definition new (w : nat) : StabilityTracker := mkST [] w.
Definition record (r : Recommendation) (s : SystemState) (now : Z) (t : StabilityTracker) : StabilityTracker :=
  let l := history t ++ [mkSE now r s] in
  mkST (if (window_size t <? length l)%nat then drop 1 l else l) (window_size t).

Definition active (e : StabilityEntry) : bool := negb (is_no_action (se_recommendation e)).

Definition recommendation_rate (t : StabilityTracker) : float :=
  let n := of_int f32 (Z.of_nat (length (filter (fun e => active e = true) (history t)))) in
  match filter (fun e => active e = true) (history t), head (history t), last (history t) with
  | [], _, _ => zero
  | _, Some first, Some last =>
      if (length (history t) <? 2)%nat then n
      else
        let span := sat_sub (se_timestamp last) (se_timestamp first) in
        if span =? 0 then n else fdiv f32 n (fdiv f32 (of_int f32 span) (of_int f32 3600))
  | _, _, _ => zero
  end.

Definition direction (r : Recommendation) : option Z :=
  match r with
  | PromoteToDram _ _ _ _ => Some 1
  | MoveToZram _ _ _ _ | MoveToDiskSwap _ _ _ _ | EvictCold _ _ _ _ | DemoteHot _ _ _ _ => Some (-1)
  | NoAction _ _ _ => None
  end.
Fixpoint count_flips (l : list Z) : nat :=
  match l with
  | x :: l' => match l' with y :: _ => ((if (x =? y)%Z then 0 else 1) + count_flips l')%nat | [] => 0%nat end
  | [] => 0%nat
  end.
Definition count_temperature_flips (t : StabilityTracker) : nat :=
  count_flips (omap (fun e => direction (se_recommendation e)) (history t)).

Definition promoted (r : Recommendation) : option ChunkId := match r with PromoteToDram c _ _ _ => Some c | _ => None end.
Definition demoted (r : Recommendation) : option ChunkId := match r with MoveToZram c _ _ _ | MoveToDiskSwap c _ _ _ => Some c | _ => None end.
Fixpoint count_seen (ps ds seen : list ChunkId) (count : nat) : nat :=
  match ps with
  | [] => count
  | p :: ps => if bool_decide (p ∈ ds) && negb (bool_decide (p ∈ seen)) then count_seen ps ds (seen ++ [p]) (S count) else count_seen ps ds seen count
  end.
Definition count_tier_oscillations (t : StabilityTracker) : nat :=
  count_seen (omap (fun e => promoted (se_recommendation e)) (history t)) (omap (fun e => demoted (se_recommendation e)) (history t)) [] 0.

Definition compute_confidence_variance (t : StabilityTracker) : float :=
  match history t with [] => zero | l => variance32 ((fun e => rec_confidence (se_recommendation e)) <$> l) end.

(** [(1.0 - (x / limit).min(1.0)).max(0.0)] *)
Definition factor (x limit : float) : float := fmax (fsub f32 one (fmin (fdiv f32 x limit) one)) zero.

Definition evaluate (t : StabilityTracker) : RecommendationStability :=
  let rate := recommendation_rate t in
  let flips := count_temperature_flips t in
  let osc := count_tier_oscillations t in
  let var := compute_confidence_variance t in
  let n k := of_int f32 (Z.of_nat k) in
  mkRS rate flips osc var
    (fclamp (fsum1 (fmul f32 (factor rate (of_int f32 3)) (lit f32 2 10))
       [fmul f32 (factor (n flips) (of_int f32 2)) (lit f32 35 100); fmul f32 (factor (n osc) one) (lit f32 3 10);
        fmul f32 (factor var (lit f32 25 100)) (lit f32 15 100)]) zero one).

Definition is_stable (threshold : float) (t : StabilityTracker) : bool := fge (stability_index (evaluate t)) threshold.

Lemma keep_newest {A} w (l : list A) : (length l <= S w)%nat -> (if (w <? length l)%nat then drop 1 l else l) = last_n w l.
Proof.
  intros Hl. unfold last_n. destruct (Nat.ltb_spec w (length l)); [f_equal; lia|]. by replace (length l - w)%nat with 0%nat by lia.
Qed.

(** The window holds the newest entries. *)
Lemma history_window w es :
  history (fold_left (fun t e => record (se_recommendation e) (se_state e) (se_timestamp e) t) es (new w)) = last_n w es.
Proof.
  enough (forall es t seen, history t = last_n (window_size t) seen ->
    history (fold_left (fun t e => record (se_recommendation e) (se_state e) (se_timestamp e) t) es t) = last_n (window_size t) (seen ++ es)) as Hg.
  { apply (Hg es (new w) []). by rewrite last_n_all by (cbn; lia). }
  clear es. induction es as [|e es IH]; intros t seen Ht; [by rewrite app_nil_r|]. cbn [fold_left].
  rewrite (IH _ (seen ++ [e])); [by rewrite <- app_assoc|]. unfold record. cbn [history window_size]. rewrite Ht.
  destruct e as [n r s]. cbn [se_timestamp se_recommendation se_state].
  rewrite <- (last_n_app (window_size t) seen [_]). apply keep_newest. rewrite length_app.
  pose proof (length_last_n (window_size t) seen). cbn. lia.
Qed.

(** The chunks both promoted and moved out, each once. *)
Definition oscillating (t : StabilityTracker) : gset ChunkId :=
  list_to_set (omap (fun e => promoted (se_recommendation e)) (history t)) ∩
  list_to_set (omap (fun e => demoted (se_recommendation e)) (history t)).

Lemma count_seen_spec ds ps : forall seen n, n = size (list_to_set seen ∩ list_to_set ds : gset ChunkId) -> Forall (fun c => c ∈ ds) seen ->
  count_seen ps ds seen n = size ((list_to_set seen ∪ list_to_set ps) ∩ list_to_set ds : gset ChunkId).
Proof.
  induction ps as [|p ps IH]; intros seen n Hn Hs; cbn [count_seen].
  - rewrite Hn. f_equal. set_solver.
  - destruct (bool_decide_reflect (p ∈ ds)) as [Hd|Hd]; [destruct (bool_decide_reflect (p ∈ seen)) as [Hp|Hp]|]; cbn [andb negb].
    + rewrite (IH seen n Hn Hs). f_equal. set_solver.
    + rewrite (IH (seen ++ [p]) (S n)).
      * f_equal. set_solver.
      * assert ((list_to_set (seen ++ [p]) ∩ list_to_set ds : gset ChunkId) = {[p]} ∪ (list_to_set seen ∩ list_to_set ds)) as -> by set_solver.
        rewrite size_union by set_solver. rewrite size_singleton. lia.
      * apply Forall_app. split; [done|]. by repeat constructor.
    + rewrite (IH seen n Hn Hs). f_equal. set_solver.
Qed.

(** After any stream of recommendations the tracker holds exactly the
    newest [window_size] of them, and counts as oscillations exactly the
    distinct chunks that were both promoted and moved out within them. *)
Theorem stream_window w es :
  let t := fold_left (fun t e => record (se_recommendation e) (se_state e) (se_timestamp e) t) es (new w) in
  history t = last_n w es /\ tier_oscillations (evaluate t) = size (oscillating t).
Proof.
  intros t. split; [apply history_window|]. clearbody t. unfold evaluate. cbn [tier_oscillations]. unfold count_tier_oscillations.
  rewrite count_seen_spec; [|by rewrite list_to_set_nil, intersection_empty_l_L|constructor]. unfold oscillating. f_equal. set_solver.
Qed.
End StreamStability.

(** ** Baseline policy *)

Module Baseline.
Inductive BaselineAction := Evict | SwapOut | BNoAction.
Record BaselineRecommendation := mkBase { action : BaselineAction; confidence : float; reason : string }.

Definition evaluate_low : list BaselineRecommendation :=
  [mkBase BNoAction (lit f32 95 100) "system idle — no action needed"].
Definition evaluate_medium (s : SystemState) : list BaselineRecommendation :=
  if fgt (dram_utilization s) (lit f32 8 10)
  then [mkBase Evict (lit f32 6 10) "moderate pressure with high DRAM utilization — light eviction"]
  else [mkBase BNoAction (lit f32 8 10) "moderate pressure but DRAM utilization acceptable"].
Definition evaluate_high (s : SystemState) : list BaselineRecommendation :=
  mkBase Evict (lit f32 8 10) "high pressure — evicting cold pages" ::
  (if fgt (swap_utilization s) (lit f32 8 10)
   then [mkBase SwapOut (lit f32 7 10) "high pressure with high swap — swapping out pages"] else []).
Definition evaluate_critical (s : SystemState) : list BaselineRecommendation :=
  [mkBase Evict (lit f32 95 100) "critical pressure — aggressive eviction";
   mkBase SwapOut (lit f32 85 100) "critical pressure — swapping out pages"] ++
  (if fgt (swap_utilization s) (lit f32 8 10)
   then [mkBase SwapOut (lit f32 9 10) "critical pressure with high swap — emergency swap-out"] else []).

Definition evaluate (s : SystemState) : list BaselineRecommendation :=
  match pressure_level s with
  | Level.Low => evaluate_low | Level.Medium => evaluate_medium s
  | Level.High => evaluate_high s | Level.Critical => evaluate_critical s
  end.
Definition evaluate_baseline (s : SystemState) : list BaselineRecommendation := evaluate s.

Definition eviction_count_from_confidence (c : float) : Z :=
  if fge c (lit f32 9 10) then 16 else if fge c (lit f32 7 10) then 8 else 4.

Definition to_recommendation `{Blake3} (b : BaselineRecommendation) : Recommendation :=
  match action b with
  | Evict => EvictCold Ram (eviction_count_from_confidence (confidence b)) (confidence b) [reason b]
  | SwapOut => MoveToDiskSwap (from_data (bytes_of_string "baseline_eviction")) (reason b) (confidence b) ["pressure_reactive"]
  | BNoAction => NoAction (reason b) (confidence b) []
  end.

End Baseline.

(** ** Quality of recommendations *)

Module Quality.
Import StreamStability (RecommendationStability, recommendations_per_hour, temperature_flips, tier_oscillations, confidence_variance, stability_index).

Record QualityDimension := mkQD { qd_score : float; qd_label : string; qd_details : list string }.
Record RecommendationQuality := mkRQ {
  rq_stability : QualityDimension;
  rq_efficiency : QualityDimension;
  rq_simplicity : QualityDimension;
  rq_confidence : QualityDimension;
  overall_quality : float;
}.
Record QualityWeights := mkQW { qw_stability : float; qw_efficiency : float; qw_simplicity : float; qw_confidence : float }.
Definition QualityWeights_default : QualityWeights := mkQW (lit f32 25 100) (lit f32 30 100) (lit f32 20 100) (lit f32 25 100).

Definition nat32 (n : nat) : float := of_int f32 (Z.of_nat n).
Definition fixed4 (x : float) : string := fixed 4 x.

Definition quality_label (score : float) : string :=
  if fge score (lit f32 8 10) then "excellent" else if fge score (lit f32 6 10) then "good"
  else if fge score (lit f32 4 10) then "moderate" else if fge score (lit f32 2 10) then "poor" else "critical".
Definition compute_quality_dimension (metric : float) (name : string) : QualityDimension :=
  let score := fclamp metric zero one in
  mkQD score (name +:+ ": " +:+ fixed 2 score) ["Raw score: " +:+ fixed4 score; "Quality: " +:+ quality_label score].

(** [(x / limit).min(1.0) * weight] *)
Definition penalty (x limit weight : float) : float := fmul f32 (fmin (fdiv f32 x limit) one) weight.

Definition compute_stability_dimension (s : RecommendationStability) : QualityDimension :=
  let p1 := penalty (nat32 (tier_oscillations s)) (of_int f32 3) (lit f32 2 10) in
  let p2 := penalty (recommendations_per_hour s) (of_int f32 5) (lit f32 1 10) in
  let p3 := penalty (nat32 (temperature_flips s)) (of_int f32 3) (lit f32 15 100) in
  let score := fclamp (fsub f32 (fsub f32 (fsub f32 (stability_index s) p1) p2) p3) zero one in
  mkQD score ("Stability: " +:+ fixed 2 score)
    ["Stability index: " +:+ fixed4 (stability_index s); "Tier oscillations: " +:+ pretty (Z.of_nat (tier_oscillations s));
     "Recommendations/hour: " +:+ fixed 2 (recommendations_per_hour s); "Temperature flips: " +:+ pretty (Z.of_nat (temperature_flips s));
     "Confidence variance: " +:+ fixed4 (confidence_variance s)].

Definition compute_efficiency_dimension (scores : list RecommendationScore) : QualityDimension :=
  match scores with
  | [] => mkQD (lit f32 1 2) "Efficiency: 0.50 (no scores)" ["No recommendation scores available — defaulting to neutral."]
  | _ =>
      let avg f := mean32 (f <$> scores) in
      let p := avg pressure_reduction in let s := avg swap_reduction in let z := avg zram_efficiency in let f := avg fault_reduction in
      let score := fclamp (fsum1 (fmul f32 p (lit f32 35 100))
        [fmul f32 s (lit f32 25 100); fmul f32 z (lit f32 2 10); fmul f32 f (lit f32 2 10)]) zero one in
      mkQD score ("Efficiency: " +:+ fixed 2 score)
        ["Avg pressure reduction: " +:+ fixed4 p; "Avg swap reduction: " +:+ fixed4 s; "Avg ZRAM efficiency: " +:+ fixed4 z;
         "Avg fault reduction: " +:+ fixed4 f; "Number of scores: " +:+ pretty (Z.of_nat (length scores))]
  end.

Definition compute_simplicity_dimension (rs : list Recommendation) : QualityDimension :=
  match rs with
  | [] => mkQD one "Simplicity: 1.00 (no recommendations)" ["No recommendations — perfectly simple."]
  | _ =>
      let total := length rs in
      let active := length (filter (fun r => is_no_action r = false) rs) in
      let ratio := fdiv f32 (nat32 active) (nat32 total) in
      let score := fclamp (fsub f32 one ratio) zero one in
      let count_factor := if (total <=? 2)%nat then one else if (total <=? 5)%nat then lit f32 8 10
                          else if (total <=? 10)%nat then lit f32 6 10 else lit f32 4 10 in
      let blended := fclamp (fadd f32 (fmul f32 score (lit f32 7 10)) (fmul f32 count_factor (lit f32 3 10))) zero one in
      mkQD blended ("Simplicity: " +:+ fixed 2 blended)
        ["Total recommendations: " +:+ pretty (Z.of_nat total); "Active (non-NoAction): " +:+ pretty (Z.of_nat active);
         "Active ratio: " +:+ fixed 2 ratio; "Count factor: " +:+ fixed 2 count_factor]
  end.

Definition compute_confidence_dimension (rs : list Recommendation) (before after : SystemState) : QualityDimension :=
  let pb := memory_pressure (dram_pressure before) in
  let pa := memory_pressure (dram_pressure after) in
  match rs with
  | [] =>
      let stable := flt pb (lit f32 1 2) && flt (swap_utilization before) (lit f32 1 2) in
      let score := if stable then lit f32 8 10 else lit f32 3 10 in
      mkQD score ("Confidence: " +:+ fixed 2 score)
        ["No recommendations to evaluate."; "System pressure level: " +:+ (if stable then "stable" else "unstable")]
  | _ =>
      let cs := rec_confidence <$> rs in
      let avg := mean32 cs in
      let variance := variance32 cs in
      let improved := flt pa pb in
      let score := fclamp (fadd f32 (fsub f32 avg (penalty variance (lit f32 25 100) (lit f32 2 10)))
                     (if improved then lit f32 5 100 else zero)) zero one in
      mkQD score ("Confidence: " +:+ fixed 2 score)
        ["Average confidence: " +:+ fixed4 avg; "Confidence variance: " +:+ fixed4 variance; "Pressure before: " +:+ fixed4 pb;
         "Pressure after: " +:+ fixed4 pa; "Pressure improvement: " +:+ (if improved then "yes" else "no")]
  end.

Definition compute_recommendation_quality (rs : list Recommendation) (scores : list RecommendationScore)
    (st : RecommendationStability) (before after : SystemState) (w : QualityWeights) : RecommendationQuality :=
  let a := compute_stability_dimension st in
  let e := compute_efficiency_dimension scores in
  let m := compute_simplicity_dimension rs in
  let c := compute_confidence_dimension rs before after in
  let total := fsum1 (qw_stability w) [qw_efficiency w; qw_simplicity w; qw_confidence w] in
  let overall :=
    if fgt total zero
    then fdiv f32 (fsum1 (fmul f32 (qd_score a) (qw_stability w))
           [fmul f32 (qd_score e) (qw_efficiency w); fmul f32 (qd_score m) (qw_simplicity w); fmul f32 (qd_score c) (qw_confidence w)]) total
    else zero in
  mkRQ a e m c (fclamp overall zero one).
End Quality.
