(* ===== verification/Tournament.v ===== *)
(** * Policy tournaments and replay analysis: [ghost-evaluator/src/tournament.rs],
    [replay_analytics.rs]

    Policies compete on pairs of system states.  A policy is an instance of
    the class [ArenaPolicy]; the iteration order of a [HashMap] is a
    parameter. *)

From Stdlib Require Import ZArith Lia SpecFloat Sorting.Sorted.
From stdpp Require Import base gmap strings pretty list sorting.
From S2P Require Import Prelude Floats CoreTypes Pressure Regions LinuxPolicy Scoring Evaluator.

Open Scope rust_scope.

Local Abbreviation one := (of_int f32 1).
Local Abbreviation zero := (of_int f32 0).

(** The trait [Policy], a boxed policy being a value of this record. *)
Record ArenaPolicy := mkPolicy { policy_name : string; policy_run : SystemState -> list Recommendation }.

Record PolicyResult := mkPR {
  pr_name : string;
  pr_recommendations : list Recommendation;
  pr_score : RecommendationScore;
  pr_before : SystemState;
  pr_after : SystemState;
}.
Record PolicyRound := mkRound {
  round_index : nat;
  rd_before : SystemState;
  rd_after : SystemState;
  rd_results : list PolicyResult;
  round_winner : option string;
}.
Record TournamentSummary := mkTSum {
  total_rounds : nat;
  policy_wins : gmap string nat;
  average_scores : gmap string float;
  best_overall_score : float;
  worst_overall_score : float;
}.
Record TournamentResult := mkTRes { rounds : list PolicyRound; winner : option string; tr_summary : TournamentSummary }.
Record PolicyArena := mkArena { policies : list ArenaPolicy; results : list PolicyResult }.

Definition Arena_new : PolicyArena := mkArena [] [].
Definition add_policy (p : ArenaPolicy) (a : PolicyArena) : PolicyArena := mkArena (policies a ++ [p]) (results a).

Definition pr_overall (r : PolicyResult) : float := overall_score (pr_score r).
Definition by_score (x y : PolicyResult) : comparison := fcmp (pr_overall x) (pr_overall y).

Definition run_policy (before after : SystemState) (p : ArenaPolicy) : PolicyResult :=
  let recs := policy_run p before in
  mkPR (policy_name p) recs (score_policy_evaluation recs before after) before after.

Definition run_round (before after : SystemState) (a : PolicyArena) : PolicyRound * PolicyArena :=
  let i := (length (results a) / Nat.max (length (policies a)) 1)%nat in
  let rs := run_policy before after <$> policies a in
  (mkRound i before after rs (pr_name <$> max_by by_score rs), mkArena (policies a) (results a ++ rs)).

Fixpoint run_rounds (ss : list (SystemState * SystemState)) (a : PolicyArena) : list PolicyRound * PolicyArena :=
  match ss with
  | [] => ([], a)
  | (before, after) :: ss =>
      let '(r, a) := run_round before after a in
      let '(rs, a) := run_rounds ss a in (r :: rs, a)
  end.

(** [*map.entry(name).or_insert(0) += 1] over the elements that have a name *)
Definition count_by {A} (name : A -> option string) (l : list A) : gmap string nat :=
  fold_left (fun m x => match name x with Some w => <[w := S (default 0%nat (m !! w))]> m | None => m end) l ∅.

(** the sum and the number of the values under each name *)
Definition tally {A} (name : A -> string) (value : A -> float) (l : list A) : gmap string (float * Z) :=
  fold_left (fun m x => let '(s, n) := default (zero, 0) (m !! name x) in <[name x := (fadd f32 s (value x), n + 1)]> m) l ∅.

Definition count_wins (rs : list PolicyRound) : gmap string nat := count_by round_winner rs.
Definition score_sums (rs : list PolicyResult) : gmap string (float * Z) := tally pr_name pr_overall rs.
Definition average (sn : float * Z) : float := if 0 <? sn.2 then fdiv f32 sn.1 (of_int f32 sn.2) else zero.

Section maps.
(** The iteration orders of the two maps. *)
Variable iter_wins : gmap string nat -> list (string * nat).
Variable iter_sums : gmap string (float * Z) -> list (string * (float * Z)).
Hypothesis iter_wins_all : forall m, iter_wins m ≡ₚ map_to_list m.
Hypothesis iter_sums_all : forall m, iter_sums m ≡ₚ map_to_list m.

Definition by_wins (x y : string * nat) : comparison := (x.2 ?= y.2)%nat.

Definition run_tournament (ss : list (SystemState * SystemState)) (a : PolicyArena) : TournamentResult * PolicyArena :=
  let '(rs, a) := run_rounds ss a in
  let wins := count_wins rs in
  let scores := pr_overall <$> results a in
  let worst := match results a with [] => zero | _ => fold_left fmin scores one end in
  (mkTRes rs (fst <$> max_by by_wins (iter_wins wins))
     (mkTSum (length rs) wins (average <$> score_sums (results a)) (fold_left fmax scores zero) worst), a).

Definition by_average (x y : string * float) : comparison := fcmp y.2 x.2.
Definition leaderboard (a : PolicyArena) : list (string * float) :=
  sort_by by_average ((fun x => (x.1, average x.2)) <$> iter_sums (score_sums (results a))).
End maps.

(** ** Built-in policies *)

Section builtin.
Context `{Blake3}.

Definition named (s : string) : ChunkId := from_data (bytes_of_string s).
Definition zram_room (s : SystemState) : bool := match zram_utilization s with Some u => flt u (lit f32 7 10) | None => false end.
Definition when {A} (b : bool) (l : list A) : list A := if b then l else [].
Definition or_else {A} (l d : list A) : list A := match l with [] => d | _ => l end.

Definition baseline_evaluate (s : SystemState) : list Recommendation := Baseline.to_recommendation <$> Baseline.evaluate_baseline s.

Definition pressure_evaluate (s : SystemState) : list Recommendation :=
  match pressure_level s with
  | Level.Low => [NoAction "low pressure — system is idle" (lit f32 95 100) ["low_pressure"]]
  | Level.Medium =>
      or_else
        (when (fgt (dram_utilization s) (lit f32 75 100)) [EvictCold Ram 4 (lit f32 6 10) ["medium_pressure"; "high_dram"]] ++
         when (zram_room s) [MoveToZram (named "pressure_cold") "medium pressure — moving cold data to ZRAM" (lit f32 5 10)
                               ["medium_pressure"; "zram_available"]])
        [NoAction "medium pressure but utilization acceptable" (lit f32 8 10) ["medium_pressure"]]
  | Level.High =>
      [EvictCold Ram 8 (lit f32 8 10) ["high_pressure"];
       MoveToDiskSwap (named "pressure_swap") "high pressure — swapping out cold pages" (lit f32 7 10) ["high_pressure"]] ++
      when (zram_room s) [MoveToZram (named "pressure_to_zram") "high pressure — compressing cold data to ZRAM" (lit f32 6 10)
                            ["high_pressure"; "zram_available"]]
  | Level.Critical =>
      [EvictCold Ram 16 (lit f32 95 100) ["critical_pressure"];
       MoveToDiskSwap (named "critical_swap") "critical pressure — emergency swap-out" (lit f32 85 100) ["critical_pressure"]] ++
      when (zram_room s) [MoveToZram (named "critical_to_zram") "critical pressure — emergency ZRAM compression" (lit f32 75 100)
                            ["critical_pressure"; "zram_available"]]
  end.

Definition fallback_pressure_only (s : SystemState) (p : Level.PressureLevel) : list Recommendation :=
  match p with
  | Level.Low => [NoAction "low pressure, no hotness data — no action" (lit f32 9 10) ["low_pressure"; "no_hotness"]]
  | Level.Medium =>
      if fgt (dram_utilization s) (lit f32 8 10)
      then [EvictCold Ram 4 (lit f32 6 10) ["medium_pressure"; "no_hotness"]]
      else [NoAction "medium pressure, no hotness data — monitoring" (lit f32 7 10) ["medium_pressure"; "no_hotness"]]
  | Level.High =>
      [EvictCold Ram 8 (lit f32 8 10) ["high_pressure"; "no_hotness"];
       MoveToDiskSwap (named "fallback_swap") "high pressure fallback — swapping out" (lit f32 7 10) ["high_pressure"; "no_hotness"]]
  | Level.Critical =>
      [EvictCold Ram 16 (lit f32 95 100) ["critical_pressure"; "no_hotness"];
       MoveToDiskSwap (named "fallback_critical_swap") "critical pressure fallback — emergency swap" (lit f32 85 100) ["critical_pressure"; "no_hotness"]]
  end.

(** [for i in 0..n.min(k)] with the recommendation built for [i] *)
Definition for_each (n k : Z) (f : string -> Recommendation) : list Recommendation :=
  (fun i => f (pretty (Z.of_nat i))) <$> seq 0 (Z.to_nat (Z.min n k)).

(** [Display] of an [f32] is a dependency of two texts only. *)
Context (show_f32 : float -> string).

Definition hotness_evaluate (s : SystemState) : list Recommendation :=
  let p := pressure_level s in
  match hotness_summary s with
  | None => fallback_pressure_only s p
  | Some h =>
      let c := match hotness_confidence s with Some c => conf_score c | None => lit f32 1 2 end in
      let calm := match p with Level.Low | Level.Medium => true | _ => false end in
      or_else
        (when calm (for_each (hot_count h) 8 (fun i =>
           PromoteToDram (named ("hot_chunk_" +:+ i)) ("hot chunk detected — promoting to DRAM (hot_count=" +:+ pretty (hot_count h) +:+ ")") c
             ["hotness_hot"; "hot_percentage=" +:+ show_f32 (hot_percentage h)])) ++
         for_each (cold_count h) 8 (fun i =>
           if zram_room s
           then MoveToZram (named ("cold_chunk_" +:+ i)) ("cold chunk — moving to ZRAM (cold_count=" +:+ pretty (cold_count h) +:+ ")") c
                  ["hotness_cold"; "zram_preferred"]
           else MoveToDiskSwap (named ("cold_chunk_" +:+ i)) ("cold chunk — moving to swap (cold_count=" +:+ pretty (cold_count h) +:+ ")") c
                  ["hotness_cold"]) ++
         for_each (frozen_count h) 4 (fun i =>
           MoveToDiskSwap (named ("frozen_chunk_" +:+ i)) ("frozen chunk — moving to swap (frozen_count=" +:+ pretty (frozen_count h) +:+ ")") c
             ["hotness_frozen"]))
        [NoAction "hotness data available but no actionable chunks" (lit f32 7 10) ["hotness_stable"]]
  end.

Definition hybrid_evaluate (s : SystemState) : list Recommendation :=
  let pw x := fmul f32 x (lit f32 6 10) in
  let hw x := fmul f32 x (lit f32 4 10) in
  let hot f := match hotness_summary s with Some h => f h | None => [] end in
  match pressure_level s with
  | Level.Low =>
      or_else
        (hot (fun h => when ((0 <? hot_count h) && flt (dram_utilization s) (lit f32 7 10))
           (for_each (hot_count h) 4 (fun i =>
              PromoteToDram (named ("hybrid_hot_" +:+ i)) ("hybrid: low pressure but hot chunk detected (hot_count=" +:+ pretty (hot_count h) +:+ ")")
                (hw (lit f32 7 10)) ["low_pressure"; "hotness_hot"; "hybrid_decision"]))))
        [NoAction "hybrid: low pressure, system stable" (lit f32 95 100) ["low_pressure"; "hybrid_stable"]]
  | Level.Medium =>
      or_else
        (when (fgt (dram_utilization s) (lit f32 75 100))
           [EvictCold Ram 4 (pw (lit f32 6 10)) ["medium_pressure"; "high_dram"; "hybrid_decision"]] ++
         hot (fun h =>
           when ((0 <? hot_count h) && flt (dram_utilization s) (lit f32 6 10))
             [PromoteToDram (named "hybrid_promote") "hybrid: promoting hot chunk under medium pressure" (hw (lit f32 6 10))
                ["medium_pressure"; "hotness_hot"; "hybrid_decision"]] ++
           when ((0 <? cold_count h) && zram_room s)
             [MoveToZram (named "hybrid_cold_zram") "hybrid: moving cold chunk to ZRAM" (hw (lit f32 5 10))
                ["medium_pressure"; "hotness_cold"; "hybrid_decision"]]))
        [NoAction "hybrid: medium pressure, no actionable signals" (lit f32 75 100) ["medium_pressure"; "hybrid_monitoring"]]
  | Level.High =>
      [EvictCold Ram 8 (pw (lit f32 8 10)) ["high_pressure"; "hybrid_decision"];
       MoveToDiskSwap (named "hybrid_swap") "hybrid: high pressure — swapping out cold pages" (pw (lit f32 7 10)) ["high_pressure"; "hybrid_decision"]] ++
      hot (fun h => when (fgt (hot_percentage h) (of_int f32 10) && flt (dram_utilization s) (lit f32 85 100))
        [PromoteToDram (named "hybrid_promote_hot") ("hybrid: high pressure but " +:+ fixed 1 (hot_percentage h) +:+ "% hot — selective promotion")
           (hw (lit f32 5 10)) ["high_pressure"; "hotness_hot"; "hybrid_selective"]]) ++
      when (zram_room s) [MoveToZram (named "hybrid_zram") "hybrid: high pressure — compressing to ZRAM" (pw (lit f32 6 10))
                            ["high_pressure"; "zram_available"; "hybrid_decision"]]
  | Level.Critical =>
      [EvictCold Ram 16 (lit f32 95 100) ["critical_pressure"; "hybrid_decision"];
       MoveToDiskSwap (named "hybrid_critical_swap") "hybrid: critical pressure — emergency swap" (lit f32 85 100) ["critical_pressure"; "hybrid_decision"]] ++
      when (zram_room s) [MoveToZram (named "hybrid_critical_zram") "hybrid: critical pressure — emergency ZRAM" (lit f32 75 100)
                            ["critical_pressure"; "zram_available"; "hybrid_decision"]] ++
      hot (fun h => when (0 <? warm_count h)
        [DemoteHot Ram Disk (hw (lit f32 6 10)) ["critical_pressure"; "hotness_warm"; "hybrid_decision"]])
  end.

Definition builtin_policies : list ArenaPolicy :=
  [mkPolicy "LinuxBaseline" baseline_evaluate; mkPolicy "Pressure" pressure_evaluate;
   mkPolicy "Hotness" hotness_evaluate; mkPolicy "Hybrid" hybrid_evaluate].
End builtin.

(** ** What a tournament records *)

Definition round_of (ps : list ArenaPolicy) (i : nat) (s : SystemState * SystemState) : PolicyRound :=
  let rs := run_policy s.1 s.2 <$> ps in mkRound i s.1 s.2 rs (pr_name <$> max_by by_score rs).
Definition results_of (ps : list ArenaPolicy) (ss : list (SystemState * SystemState)) : list PolicyResult :=
  mjoin ((fun s => run_policy s.1 s.2 <$> ps) <$> ss).

Lemma run_rounds_spec ps : ps <> [] -> forall ss n res, length res = (n * length ps)%nat ->
  run_rounds ss (mkArena ps res) = (imap (fun i => round_of ps (n + i)) ss, mkArena ps (res ++ results_of ps ss)).
Proof.
  intros Hps. induction ss as [|[b a] ss IH]; intros n res Hres.
  - cbn. by rewrite app_nil_r.
  - cbn [run_rounds]. unfold run_round. cbn [policies results].
    rewrite (IH (S n)) by (rewrite length_app, length_fmap; lia).
    assert (length res / Nat.max (length ps) 1 = n)%nat as ->.
    { destruct ps; [done|]. rewrite Nat.max_l by (cbn; lia). rewrite Hres. apply Nat.div_mul. cbn. lia. }
    rewrite imap_cons. f_equal.
    + f_equal; [unfold round_of; by rewrite Nat.add_0_r|]. apply imap_ext. intros i x _. cbn. f_equal. lia.
    + unfold results_of. cbn [fmap list_fmap]. f_equal. by rewrite <- app_assoc.
Qed.

Definition wins_of (p : string) (rs : list PolicyRound) : nat := length (filter (fun r => round_winner r = Some p) rs).

Lemma count_by_spec {A} (name : A -> option string) l p :
  let n := length (filter (fun x => name x = Some p) l) in
  default 0%nat (count_by name l !! p) = n /\ (count_by name l !! p = None <-> n = 0%nat).
Proof.
  cbv zeta. unfold count_by. induction l as [|r rs IH] using rev_ind; [done|].
  rewrite fold_left_app, filter_app, length_app. cbn [fold_left]. set (m := fold_left _ rs ∅) in *.
  rewrite filter_cons, filter_nil. destruct (name r) as [w|].
  - destruct (decide (w = p)) as [->|Hne].
    + rewrite lookup_insert_eq. rewrite decide_True by done. cbn [default from_option length]. change (id ?x) with x.
      destruct IH as [-> _]. split; [lia|]. split; [done|lia].
    + rewrite lookup_insert_ne by done. rewrite decide_False by congruence. cbn [length]. by rewrite Nat.add_0_r.
  - rewrite decide_False by done. cbn [length]. by rewrite Nat.add_0_r.
Qed.
Lemma count_wins_spec rs p : default 0%nat (count_wins rs !! p) = wins_of p rs /\ (count_wins rs !! p = None <-> wins_of p rs = 0%nat).
Proof. apply count_by_spec. Qed.

Section tournament.
Variable iter_wins : gmap string nat -> list (string * nat).
Hypothesis iter_wins_all : forall m, iter_wins m ≡ₚ map_to_list m.

Lemma winner_most rs p : max_by by_wins (iter_wins (count_wins rs)) = Some p ->
  wins_of p.1 rs = p.2 /\ (0 < p.2)%nat /\ forall q, (wins_of q rs <= p.2)%nat.
Proof using iter_wins_all.
  intros E. pose proof (max_by_elem by_wins _ _ E) as Hin. rewrite iter_wins_all in Hin. destruct p as [w n].
  apply elem_of_map_to_list in Hin. destruct (count_wins_spec rs w) as [H1 H2]. rewrite Hin in H1. cbn in H1. cbn [fst snd].
  assert (wins_of w rs <> 0%nat) by (intros H0; apply H2 in H0; congruence).
  split_and!; [done|lia|]. intros q. destruct (count_wins rs !! q) as [k|] eqn:Eq.
  - destruct (count_wins_spec rs q) as [<- _]. rewrite Eq. cbn. change (id k) with k.
    assert ((q, k) ∈ iter_wins (count_wins rs)) as Hq by (by rewrite iter_wins_all, elem_of_map_to_list).
    eapply (max_by_ge by_wins (fun _ => True)) in E; [|intros; apply Nat.compare_antisym| |by apply Forall_forall|exact Hq].
    + unfold by_wins in E. cbn in E. apply Nat.compare_ngt_iff in E. lia.
    + intros a b c _ _ _. unfold by_wins. rewrite !Nat.compare_ngt_iff. lia.
  - apply count_wins_spec in Eq. lia.
Qed.

(** A tournament of at least one policy plays one round for each pair of
    states, numbered from zero, in which every policy is run once on the state
    before; every round has a winner, and the overall winner has won at least
    one round and no fewer than any other policy. *)
Theorem tournament_rounds ps ss : ps <> [] ->
  let '(t, a) := run_tournament iter_wins ss (mkArena ps []) in
  rounds t = imap (round_of ps) ss /\ total_rounds (tr_summary t) = length ss /\ results a = results_of ps ss /\ policies a = ps /\
  Forall (fun r => is_Some (round_winner r)) (rounds t) /\
  (ss <> [] -> exists w, winner t = Some w /\ (0 < wins_of w (rounds t))%nat /\ forall p, (wins_of p (rounds t) <= wins_of w (rounds t))%nat).
Proof using iter_wins_all.
  intros Hps. unfold run_tournament. rewrite (run_rounds_spec ps Hps ss 0) by done. cbn [app].
  cbn [rounds tr_summary total_rounds results policies winner]. set (rs := imap (fun i => round_of ps (0 + i)) ss).
  assert (rs = imap (round_of ps) ss) as Hrs by done.
  assert (Forall (fun r => is_Some (round_winner r)) rs) as Hw.
  { apply Forall_forall. intros r Hr. apply list_elem_of_lookup in Hr as [i Hi]. unfold rs in Hi.
    rewrite list_lookup_imap in Hi. destruct (ss !! i); [|done]. injection Hi as <-. unfold round_of. cbn [round_winner].
    destruct ps; [done|]. by eexists. }
  split_and!; [done|unfold rs; by rewrite length_imap|done|done|done|].
  intros Hss. destruct (max_by by_wins (iter_wins (count_wins rs))) as [p|] eqn:E.
  - exists p.1. destruct (winner_most rs p E) as (H1 & H2 & H3). rewrite H1. done.
  - exfalso. apply (max_by_None by_wins) in E. assert (map_to_list (count_wins rs) = []) as Hm.
    { apply Permutation_nil_r. by rewrite <- iter_wins_all, E. }
    apply map_to_list_empty_iff in Hm. destruct rs as [|r rs'] eqn:Ers.
    { apply Hss. apply length_zero_iff_nil. by rewrite <- (length_imap (round_of ps) ss), <- Hrs. }
    apply Forall_cons in Hw as [[w Hw] _]. destruct (count_wins_spec (r :: rs') w) as [_ [H _]].
    rewrite Hm, lookup_empty in H. specialize (H eq_refl). unfold wins_of in H. rewrite filter_cons_True in H by done. done.
Qed.
End tournament.

Definition demo_state (p : float) : SystemState :=
  mkSys (mkPressure p zero zero 0 0) (lit f32 6 10) (lit f32 2 10) None PressureState_new None None.

Lemma tournament_rounds_witness : exists t a,
  run_tournament map_to_list [(demo_state (lit f32 8 10), demo_state (lit f32 5 10)); (demo_state (lit f32 1 10), demo_state (lit f32 1 10))]
    (mkArena (builtin_policies (H := ex_blake3) (fun _ => EmptyString)) []) = (t, a) /\ length (results a) = 8%nat /\ is_Some (winner t).
Proof.
  pose proof (tournament_rounds map_to_list (fun m => Permutation_refl _) (builtin_policies (H := ex_blake3) (fun _ => EmptyString))
    [(demo_state (lit f32 8 10), demo_state (lit f32 5 10)); (demo_state (lit f32 1 10), demo_state (lit f32 1 10))] ltac:(discriminate)) as H.
  destruct (run_tournament _ _ _) as [t a]. destruct H as (_ & _ & Hr & _ & _ & Hw). exists t, a. split_and!; [done|by rewrite Hr|].
  destruct Hw as (w & -> & _); [discriminate|by eexists].
Defined.

(** The winner of a round has the highest score, when the scores are numbers. *)
Lemma round_winner_best ps i s w : Forall (fun r => is_nan (pr_overall r) = false) (rd_results (round_of ps i s)) ->
  round_winner (round_of ps i s) = Some w ->
  exists r, r ∈ rd_results (round_of ps i s) /\ pr_name r = w /\ forall q, q ∈ rd_results (round_of ps i s) -> fle (pr_overall q) (pr_overall r) = true.
Proof.
  unfold round_of. cbn [rd_results round_winner]. set (rs := run_policy s.1 s.2 <$> ps). intros Hn Hw.
  destruct (max_by by_score rs) as [r|] eqn:E; [|done]. injection Hw as <-. exists r.
  pose proof (max_by_elem by_score _ _ E) as Hin. split_and!; [done|done|]. intros q Hq.
  pose proof Hn as Hn'. rewrite Forall_forall in Hn'. apply FloatOrder.fcmp_fle; [by apply Hn'|by apply Hn'|].
  apply (max_by_ge by_score (fun r => is_nan (pr_overall r) = false)) with (l := rs); try done.
  - intros x y Hx Hy. by apply FloatOrder.fcmp_antisym.
  - intros x y z Hx Hy Hz. by apply FloatOrder.fcmp_trans.
Qed.

(** A built-in policy always decides: it returns something, and when it
    returns [NoAction] it returns nothing else. *)
Definition decisive (l : list Recommendation) : Prop := l <> [] /\ (Forall (fun r => is_no_action r = false) l \/ length l = 1%nat).

Lemma decisive_or_else l d : Forall (fun r => is_no_action r = false) l -> decisive d -> decisive (or_else l d).
Proof. intros Hl Hd. destruct l; [done|]. split; [done|by left]. Qed.
Lemma active_when b l : Forall (fun r => is_no_action r = false) l -> Forall (fun r => is_no_action r = false) (when b l).
Proof. by destruct b. Qed.
Lemma active_for_each n k f : (forall i, is_no_action (f i) = false) -> Forall (fun r => is_no_action r = false) (for_each n k f).
Proof. intros Hf. apply Forall_fmap, Forall_forall. intros i _. apply Hf. Qed.
Lemma decisive_active l : l <> [] -> Forall (fun r => is_no_action r = false) l -> decisive l.
Proof. intros. by split; [|left]. Qed.
Lemma decisive_one r : decisive [r].
Proof. by split; [|right]. Qed.

(** On every state each of the four built-in policies returns at least one
    recommendation, and returns [NoAction] only alone. *)
Theorem builtin_decisive `{Blake3} show_f32 s :
  Forall (fun p => decisive (policy_run p s)) (builtin_policies show_f32).
Proof.
  pose proof decisive_one. apply Forall_cons; split; [|apply Forall_cons; split; [|apply Forall_cons; split; [|apply Forall_singleton]]]; cbn [policy_run].
  - unfold baseline_evaluate, Baseline.evaluate_baseline, Baseline.evaluate, Baseline.evaluate_low, Baseline.evaluate_medium,
      Baseline.evaluate_high, Baseline.evaluate_critical. repeat case_match; cbn; auto; apply decisive_active; repeat constructor; done.
  - unfold pressure_evaluate. case_match; auto; [apply decisive_or_else; auto|apply decisive_active; [done|]..];
      repeat (apply Forall_app; split); repeat (apply active_when); repeat constructor.
  - unfold hotness_evaluate, fallback_pressure_only. case_match.
    + apply decisive_or_else; [|auto]. repeat (apply Forall_app; split); try apply active_when; apply active_for_each; intros; by case_match || done.
    + repeat case_match; auto; apply decisive_active; repeat constructor; done.
  - unfold hybrid_evaluate. case_match.
    + apply decisive_or_else; [|auto]. case_match; [|done]. apply active_when, active_for_each. done.
    + apply decisive_or_else; [|auto]. apply Forall_app; split; [apply active_when; repeat constructor|]. case_match; [|done].
      apply Forall_app; split; apply active_when; repeat constructor.
    + apply decisive_active; [done|]. apply Forall_app; split; [repeat constructor|]. apply Forall_app; split; [case_match; [|done]|]; apply active_when; repeat constructor.
    + apply decisive_active; [done|]. apply Forall_app; split; [repeat constructor|]. apply Forall_app; split; [|case_match; [|done]]; apply active_when; repeat constructor.
Qed.

(** ** The leaderboard *)

Definition results_named (p : string) (rs : list PolicyResult) : list PolicyResult := filter (fun r => pr_name r = p) rs.

Lemma tally_spec {A} (name : A -> string) (value : A -> float) l p : tally name value l !! p =
  match filter (fun x => name x = p) l with [] => None | l' => Some (fsum f32 (value <$> l'), Z.of_nat (length l')) end.
Proof.
  unfold tally, fsum. induction l as [|r rs IH] using rev_ind; [apply lookup_empty|].
  rewrite fold_left_app, filter_app, filter_cons, filter_nil. cbn [fold_left]. set (m := fold_left _ rs ∅) in *.
  case_decide as Hp.
  - subst p. destruct (default (zero, 0) (m !! name r)) as [s n] eqn:E. rewrite lookup_insert_eq. rewrite IH in E.
    destruct (filter _ rs) as [|x l]; cbn in E; injection E as <- <-; [done|]. cbn [app].
    rewrite fmap_cons, fmap_app. cbn [fold_left fmap list_fmap]. rewrite fold_left_app. cbn [fold_left length]. rewrite length_app. cbn [length].
    f_equal. f_equal. lia.
  - rewrite app_nil_r. destruct (default _ _) as [s n]. by rewrite lookup_insert_ne.
Qed.
Lemma score_sums_spec rs p : score_sums rs !! p =
  match results_named p rs with [] => None | l => Some (fsum f32 (pr_overall <$> l), Z.of_nat (length l)) end.
Proof. apply tally_spec. Qed.

Section board.
Variable iter_sums : gmap string (float * Z) -> list (string * (float * Z)).
Hypothesis iter_sums_all : forall m, iter_sums m ≡ₚ map_to_list m.

(** The leaderboard lists exactly the policies that have results, each
    once with the mean of all its scores, and, when the means are numbers, the
    highest first, whatever order the map is iterated in. *)
Theorem leaderboard_ranked a :
  let l := leaderboard iter_sums a in
  NoDup l.*1 /\
  (forall p m, (p, m) ∈ l <-> results_named p (results a) <> [] /\
     m = average (fsum f32 (pr_overall <$> results_named p (results a)), Z.of_nat (length (results_named p (results a))))) /\
  (Forall (fun x => is_nan x.2 = false) l -> StronglySorted (fun x y => fle y.2 x.2 = true) l).
Proof using iter_sums_all.
  intros l. unfold l, leaderboard. set (u := (fun x => (x.1, average x.2)) <$> iter_sums (score_sums (results a))).
  pose proof (sort_by_permutation by_average u) as Hp. split_and!.
  - rewrite Hp. unfold u. rewrite <- list_fmap_compose. rewrite iter_sums_all. apply NoDup_fst_map_to_list.
  - intros p m. rewrite Hp. unfold u. rewrite list_elem_of_fmap. split.
    + intros [[q sn] [[= -> ->] Hin]]. rewrite iter_sums_all, elem_of_map_to_list, score_sums_spec in Hin. cbn [fst snd].
      destruct (results_named q (results a)); [done|]. injection Hin as <-. done.
    + intros [Hne ->]. exists (p, (fsum f32 (pr_overall <$> results_named p (results a)), Z.of_nat (length (results_named p (results a))))).
      split; [done|]. rewrite iter_sums_all, elem_of_map_to_list, score_sums_spec. by destruct (results_named p (results a)).
  - intros Hn. rewrite Hp in Hn. pose proof (sort_by_sorted by_average (fun x => is_nan x.2 = false)) as Hs.
    eapply (sorted_impl (fun x y => by_average x y <> Gt) _ (fun x => is_nan x.2 = false)).
    + intros x y Hx Hy. unfold by_average. by apply FloatOrder.fcmp_fle.
    + by rewrite Hp.
    + apply Hs; [|intros x y z Hx Hy Hz ??; by apply (FloatOrder.fcmp_trans _ y.2)|done]. intros x y Hx Hy. by apply FloatOrder.fcmp_antisym.
Qed.
End board.

Lemma leaderboard_ranked_witness :
  let sc x := mkScore x x x x x x x in let r n x := mkPR n [] (sc x) (demo_state zero) (demo_state zero) in
  let a := mkArena [] [r "a" (lit f32 1 4); r "b" (lit f32 1 2); r "a" (lit f32 3 4)] in
  NoDup (leaderboard map_to_list a).*1 /\ ("a", lit f32 1 2) ∈ leaderboard map_to_list a.
Proof.
  intros sc r a. destruct (leaderboard_ranked map_to_list (fun m => Permutation_refl _) a) as (H1 & H2 & _). split; [exact H1|].
  apply H2. split; [discriminate|]. vm_compute. reflexivity.
Defined.

(** ** Replay analysis *)

Module Analytics.
Import Adaptive (TemperatureClass).

Record RegionActivity := mkRA {
  ra_region : ChunkId;
  transition_count : nat;
  ra_promotions : Z;
  ra_demotions : Z;
  ra_residency : float;
  ra_temperature : TemperatureClass;
}.
Record PolicyDisagreement := mkPD {
  state_index : nat; policy_a : string; policy_b : string; recommendation_a : string; recommendation_b : string; score_difference : float }.
Record ScoreDistribution := mkSD { excellent_count : nat; good_count : nat; poor_count : nat; bad_count : nat }.
Record RecommendationEffectiveness := mkEff {
  total_recommendations : nat; effective_recommendations : nat; ineffective_recommendations : nat;
  average_score : float; best_score : float; worst_score : float; score_distribution : ScoreDistribution }.
Record PressureProfile := mkPP {
  min_pressure : float; max_pressure : float; average_pressure : float; pressure_variance : float;
  critical_periods : nat; high_pressure_periods : nat; low_pressure_periods : nat }.

Definition first_kind (r : PolicyResult) : string :=
  match pr_recommendations r with rc :: _ => rec_kind rc | [] => "none" end.
Definition disagree (i : nat) (a b : PolicyResult) : list PolicyDisagreement :=
  if bool_decide (first_kind a = first_kind b) then []
  else [mkPD i (pr_name a) (pr_name b) (first_kind a) (first_kind b) (SFabs (fsub f32 (pr_overall a) (pr_overall b)))].

(** The pairs [i < j] of a list, in the order of the two loops. *)
Fixpoint pairs {A} (l : list A) : list (A * A) :=
  match l with [] => [] | x :: l => ((fun y => (x, y)) <$> l) ++ pairs l end.
Definition analyze_disagreements (rs : list PolicyRound) : list PolicyDisagreement :=
  mjoin ((fun r => mjoin ((fun p => disagree (round_index r) p.1 p.2) <$> pairs (rd_results r))) <$> rs).

Definition count_scores (p : float -> bool) (l : list float) : nat := length (filter (fun x => p x = true) l).
Definition excellent (x : float) : bool := fge x (lit f32 8 10).
Definition good (x : float) : bool := negb (excellent x) && fge x (lit f32 5 10).
Definition poor (x : float) : bool := negb (excellent x) && negb (fge x (lit f32 5 10)) && fge x (lit f32 3 10).
Definition bad (x : float) : bool := negb (excellent x) && negb (fge x (lit f32 5 10)) && negb (fge x (lit f32 3 10)).

Definition compute_effectiveness (scores : list RecommendationScore) : RecommendationEffectiveness :=
  match scores with
  | [] => mkEff 0 0 0 zero zero zero (mkSD 0 0 0 0)
  | _ =>
      let l := overall_score <$> scores in
      mkEff (length scores) (count_scores (fun x => fgt x (lit f32 5 10)) l) (count_scores (fun x => flt x (lit f32 3 10)) l)
        (fdiv f32 (fold_left (fadd f32) l zero) (of_int f32 (Z.of_nat (length scores)))) (fold_left fmax l zero) (fold_left fmin l one)
        (mkSD (count_scores excellent l) (count_scores good l) (count_scores poor l) (count_scores bad l))
  end.

Definition max_pressure_for_snapshot (s : SystemState) : float :=
  fmax (fmax (fmax (memory_pressure (dram_pressure s)) (io_pressure (dram_pressure s))) (memory_pressure (sys_io_pressure s)))
    (io_pressure (sys_io_pressure s)).
Definition count_level (p : Level.PressureLevel -> bool) (l : list SystemState) : nat := length (filter (fun s => p (pressure_level s) = true) l).

Definition compute_pressure_profile (snaps : list SystemState) : PressureProfile :=
  match snaps with
  | [] => mkPP zero zero zero zero 0 0 0
  | _ =>
      let ps := max_pressure_for_snapshot <$> snaps in
      let n := of_int f32 (Z.of_nat (length snaps)) in
      let avg := fdiv f32 (fold_left (fadd f32) ps zero) n in
      let variance :=
        if (1 <? length snaps)%nat then fdiv f32 (fsum f32 ((fun p => let diff := fsub f32 p avg in fmul f32 diff diff) <$> ps)) n else zero in
      mkPP (fold_left fmin ps one) (fold_left fmax ps zero) avg variance
        (count_level (fun v => match v with Level.Critical => true | _ => false end) snaps)
        (count_level (fun v => match v with Level.High => true | _ => false end) snaps)
        (count_level (fun v => match v with Level.Low => true | _ => false end) snaps)
  end.

Definition dominant_pressure (p : PressureProfile) : Level.PressureLevel :=
  if (0 <? critical_periods p)%nat then Level.Critical
  else if (low_pressure_periods p <? high_pressure_periods p)%nat then Level.High
  else if fge (average_pressure p) (lit f32 7 10) then Level.High
  else if fge (average_pressure p) (lit f32 5 10) then Level.Medium else Level.Low.

Definition dominant_class (c : TemperatureClass) : TemperatureClass :=
  match c with Adaptive.Hot => Adaptive.Hot | Adaptive.Cold | Adaptive.Frozen => Adaptive.Cold | Adaptive.Warm => Adaptive.Warm end.
Definition activity_of (id : ChunkId) (r : Lifecycle.RegionLifecycle) : RegionActivity :=
  mkRA id (length (Lifecycle.transitions r)) (Lifecycle.promotion_count r) (Lifecycle.demotion_count r)
    (Lifecycle.average_residency_secs r) (dominant_class (Lifecycle.current_temperature r)).

(** The two regions the summary names, without a repetition. *)
Definition named_regions (s : Lifecycle.LifecycleSummary) : list ChunkId :=
  let a := match Lifecycle.most_active s with Some i => [i] | None => [] end in
  a ++ match Lifecycle.most_stable s with Some i => if bool_decide (i ∈ a) then [] else [i] | None => [] end.

Section activities.
Variable iter : gmap ChunkId Lifecycle.RegionLifecycle -> list Lifecycle.RegionLifecycle.

Definition compute_region_activities (t : gmap ChunkId Lifecycle.RegionLifecycle) : list RegionActivity * list RegionActivity :=
  let s := Lifecycle.summary iter t in
  if (Lifecycle.total_regions s =? 0)%nat then ([], [])
  else
    let acts := omap (fun i => activity_of i <$> Lifecycle.get_lifecycle i t) (named_regions s) in
    (sort_by (fun a b => (transition_count b ?= transition_count a)%nat) acts,
     sort_by (fun a b => (transition_count a ?= transition_count b)%nat) acts).

Record AnalysisSummary := mkAS {
  overall_effectiveness : float; policy_agreement_rate : float; as_stability_index : float;
  dominant_pressure_level : Level.PressureLevel; top_recommendation_type : string }.
Record ReplayAnalysisReport := mkReport {
  total_snapshots : nat; most_active_regions : list RegionActivity; most_stable_regions : list RegionActivity;
  policy_disagreements : list PolicyDisagreement; recommendation_effectiveness : RecommendationEffectiveness;
  pressure_profile : PressureProfile; report_summary : AnalysisSummary }.

Definition analyze_replay (snaps : list SystemState) (t : gmap ChunkId Lifecycle.RegionLifecycle)
    (st : StreamStability.RecommendationStability) : ReplayAnalysisReport :=
  let '(act, stab) := compute_region_activities t in
  let p := compute_pressure_profile snaps in
  mkReport (length snaps) act stab [] (mkEff 0 0 0 zero zero zero (mkSD 0 0 0 0)) p
    (mkAS (StreamStability.stability_index st) zero (StreamStability.stability_index st) (dominant_pressure p) EmptyString).
End activities.

(** The four classes of scores partition the recommendations, scores that
    are no numbers included. *)
Theorem distribution_partitions scores :
  let e := compute_effectiveness scores in let d := score_distribution e in
  total_recommendations e = length scores /\
  (excellent_count d + good_count d + poor_count d + bad_count d = length scores)%nat.
Proof.
  destruct scores as [|s l]; [done|]. cbn [compute_effectiveness score_distribution total_recommendations excellent_count good_count poor_count bad_count].
  split; [done|]. set (xs := overall_score <$> (s :: l)). assert (length xs = length (s :: l)) as <- by (unfold xs; by rewrite length_fmap).
  unfold count_scores, good, poor, bad. clearbody xs. induction xs as [|x xs IH]; [done|]. rewrite !filter_cons. cbn [length].
  destruct (excellent x), (fge x (lit f32 5 10)), (fge x (lit f32 3 10)); cbn [negb andb]; repeat case_decide; try done; cbn [length]; lia.
Qed.
End Analytics.
