(* ===== verification/Workload.v ===== *)
(** * Benchmark workloads: [ghost-bench/src/workload.rs]

    A workload definition is turned into a list of timed system states, drawn
    from a hash of the seed and the time, and a description of that list. *)

From Stdlib Require Import ZArith Lia SpecFloat.
From stdpp Require Import base strings list.
From S2P Require Import Prelude Floats CoreTypes Pressure Regions LinuxPolicy Scoring.

Open Scope rust_scope.

Declare Scope f32_scope.
Delimit Scope f32_scope with f32.
Local Infix "+" := (fadd f32) : f32_scope.
Local Infix "-" := (fsub f32) : f32_scope.
Local Infix "*" := (fmul f32) : f32_scope.
Local Infix "/" := (fdiv f32) : f32_scope.
Local Abbreviation L := (lit f32).

Inductive WorkloadClass := Desktop | BuildSystem | MemoryPressure | DataSystem | Mixed.
#[export] Instance WorkloadClass_eq_dec : EqDecision WorkloadClass.
Proof. solve_decision. Defined.
Definition class_display (c : WorkloadClass) : string :=
  match c with
  | Desktop => "Desktop" | BuildSystem => "BuildSystem" | MemoryPressure => "MemoryPressure" | DataSystem => "DataSystem" | Mixed => "Mixed"
  end.

Record WorkloadDefinition := mkDef {
  wd_name : string;
  wd_class : WorkloadClass;
  wd_description : string;
  duration_seconds : Z;
  snapshot_interval_ms : Z;
  wd_seed : Z;
}.
Record TimedSnapshot := mkTimed { timestamp_ms : Z; ts_state : SystemState }.
Record PressureTimeDistribution := mkDist {
  idle_fraction : float; low_fraction : float; medium_fraction : float; high_fraction : float; critical_fraction : float;
}.
Record ScenarioMetadata := mkMeta {
  total_snapshots : nat;
  peak_dram_pressure : float;
  peak_dram_utilization : float;
  avg_dram_utilization : float;
  avg_swap_utilization : float;
  pressure_time_distribution : PressureTimeDistribution;
}.
Record WorkloadScenario := mkScenario {
  sn_definition : WorkloadDefinition;
  sn_snapshots : list TimedSnapshot;
  sn_metadata : ScenarioMetadata;
}.

Definition zero_f32 : float := of_int f32 0.
Definition clamp01 (x : float) : float := fclamp x zero_f32 (of_int f32 1).

(** [x.fract()] and [x % 1.0], which agree. *)
Definition ftrunc (x : float) : float :=
  match x with S754_finite s m e => if 0 <=? e then x else of_int f32 (trunc x) | _ => x end.
Definition fract (x : float) : float := (x - ftrunc x)%f32.

(** ** Snapshots *)

Definition perturbation (seed t : Z) : float :=
  let hash := wrap 64 (wrap 64 (seed * 6364136223846793005) + wrap 64 (wrap 64 (t * 1442695040888963407) + 1)) in
  let normalized := (of_int f32 (hash mod 1000) / of_int f32 1000)%f32 in
  (normalized * L 1 10 - L 5 100)%f32.

Definition with_memory (x : float) : PressureState := set_memory PressureState_new x.
Definition confident (x : float) : option HotnessConfidence := Some (mkConf x []).

Definition generate_desktop (p progress : float) : SystemState :=
  let base_pressure := (L 15 100 + p)%f32 in
  let spike := if flt (fract (progress * of_int f32 10)%f32) (L 15 100) then L 25 100 else zero_f32 in
  mkSys (with_memory (clamp01 (base_pressure + spike)%f32))
    (clamp01 (L 35 100 + p * L 1 2)%f32)
    (clamp01 (L 5 100 + p * L 2 10)%f32)
    (Some (clamp01 (L 15 100 + p * L 3 10)%f32)) PressureState_new
    (Some (mkHSum 2 15 30 5 52 (L 38 10) (L 288 10) (L 577 10) (L 96 10) 50 200 0)) (confident (L 7 10)).

Definition generate_memory_pressure_ramp (p progress : float) : SystemState :=
  let swap_util :=
    clamp01 (if fgt progress (L 7 10) then ((progress - L 7 10) / L 3 10 * L 6 10 + p * L 2 10)%f32
             else (L 5 100 + p * L 1 10)%f32) in
  mkSys (with_memory (clamp01 (L 1 10 + progress * L 85 100 + p)%f32))
    (clamp01 (L 3 10 + progress * L 67 100 + p * L 3 10)%f32) swap_util
    (Some (clamp01 (L 2 10 + progress * L 1 2 + p * L 2 10)%f32)) PressureState_new None None.

Definition generate_build_server (p progress : float) : SystemState :=
  let cycle := fract (progress * of_int f32 5)%f32 in
  let in_burst := flt cycle (L 4 10) in
  let pick {A} (x y : A) := if in_burst then x else y in
  mkSys (with_memory (pick (clamp01 (L 75 100 + p)%f32) (clamp01 (L 25 100 + p)%f32)))
    (pick (clamp01 (L 8 10 + p * L 3 10)%f32) (clamp01 (L 1 2 + p * L 3 10)%f32))
    (clamp01 (L 15 100 + p * L 3 10)%f32)
    (Some (clamp01 (L 3 10 + p * L 4 10)%f32)) PressureState_new
    (Some (mkHSum (pick 12 3) 10 (pick 20 35) 8 (pick 50 56) (pick (of_int f32 24) (L 54 10)) (of_int f32 20)
      (pick (of_int f32 40) (L 625 10)) (pick (of_int f32 16) (L 143 10)) (pick 200 40) (pick 800 150) 0))
    (confident (pick (L 85 100) (L 6 10))).

Definition generate_database_cache (p progress : float) : SystemState :=
  mkSys (with_memory (clamp01 (L 1 2 + p)%f32))
    (clamp01 (L 65 100 + p * L 4 10)%f32)
    (clamp01 (L 2 10 + p * L 3 10)%f32)
    (Some (clamp01 (L 1 2 + p * L 3 10)%f32)) PressureState_new
    (Some (mkHSum 20 15 10 3 48 (L 417 10) (L 313 10) (L 208 10) (L 63 10) 300 1500 0)) (confident (L 85 100)).

Definition generate_browser_spike (p : float) : SystemState :=
  mkSys (with_memory (clamp01 (L 45 100 + p)%f32))
    (clamp01 (L 55 100 + p * L 4 10)%f32)
    (clamp01 (L 1 10 + p * L 2 10)%f32)
    (Some (clamp01 (L 25 100 + p * L 3 10)%f32)) PressureState_new
    (Some (mkHSum 8 12 20 4 44 (L 182 10) (L 273 10) (L 455 10) (L 91 10) 120 500 0)) (confident (L 75 100)).

Definition generate_recovery (p progress : float) : SystemState :=
  let rp := ((progress - L 8 10) / L 2 10)%f32 in
  mkSys (with_memory (clamp01 (L 1 2 - rp * L 35 100 + p)%f32))
    (clamp01 (L 65 100 - rp * L 3 10 + p * L 3 10)%f32)
    (clamp01 (L 25 100 - rp * L 15 100 + p * L 2 10)%f32)
    (Some (clamp01 (L 1 2 - rp * L 2 10 + p * L 2 10)%f32)) PressureState_new
    (Some (mkHSum 5 10 25 5 45 (L 111 10) (L 222 10) (L 556 10) (L 111 10) 80 300 0)) (confident (L 7 10)).

Definition set_dram_memory (s : SystemState) (x : float) : SystemState :=
  mkSys (set_memory (dram_pressure s) x) (dram_utilization s) (swap_utilization s) (zram_utilization s) (sys_io_pressure s)
    (hotness_summary s) (hotness_confidence s).

Definition generate_mixed_multitask (p progress : float) : SystemState :=
  if flt progress (L 15 100) then
    let s := generate_desktop p progress in
    set_dram_memory s (clamp01 (memory_pressure (dram_pressure s) * L 1 2)%f32)
  else if flt progress (L 30 100) then generate_browser_spike p
  else if flt progress (L 55 100) then generate_build_server p ((progress - L 30 100) / L 25 100)%f32
  else if flt progress (L 80 100) then generate_database_cache p progress
  else generate_recovery p progress.

(** The two generators no class selects. *)
Definition generate_allocator_stress (p progress : float) : SystemState :=
  let allocating := flt (fract (progress * of_int f32 8)%f32) (L 1 2) in
  let pick {A} (x y : A) := if allocating then x else y in
  mkSys (with_memory (pick (clamp01 (L 75 100 + p)%f32) (clamp01 (L 2 10 + p)%f32)))
    (pick (clamp01 (L 8 10 + p * L 2 10)%f32) (clamp01 (L 3 10 + p * L 3 10)%f32))
    (pick (clamp01 (L 3 10 + p * L 3 10)%f32) (clamp01 (L 5 100 + p * L 1 10)%f32))
    (Some (clamp01 (pick (L 6 10) (L 2 10) + p * L 3 10)%f32)) PressureState_new None None.

Definition generate_tier_saturation (p progress : float) : SystemState :=
  if flt progress (L 25 100) then
    let sub := (progress / L 25 100)%f32 in
    mkSys (with_memory (clamp01 (L 3 10 + sub * L 6 10 + p)%f32)) (clamp01 (L 4 10 + sub * L 55 100 + p * L 2 10)%f32)
      (clamp01 (L 5 100 + p * L 1 10)%f32) (Some (clamp01 (L 1 10 + p * L 2 10)%f32)) PressureState_new None None
  else if flt progress (L 1 2) then
    let sub := ((progress - L 25 100) / L 25 100)%f32 in
    mkSys (with_memory (clamp01 (L 85 100 + p)%f32)) (clamp01 (L 92 100 + p * L 5 100)%f32)
      (clamp01 (L 1 10 + sub * L 2 10 + p * L 1 10)%f32) (Some (clamp01 (L 2 10 + sub * L 6 10 + p * L 2 10)%f32)) PressureState_new None None
  else if flt progress (L 75 100) then
    let sub := ((progress - L 1 2) / L 25 100)%f32 in
    mkSys (with_memory (clamp01 (L 9 10 + p)%f32)) (clamp01 (L 95 100 + p * L 3 100)%f32)
      (clamp01 (L 3 10 + sub * L 1 2 + p * L 2 10)%f32) (Some (clamp01 (L 8 10 + p * L 1 10)%f32)) PressureState_new None None
  else
    let sub := ((progress - L 75 100) / L 25 100)%f32 in
    mkSys (with_memory (clamp01 (L 9 10 - sub * L 7 10 + p)%f32)) (clamp01 (L 95 100 - sub * L 6 10 + p * L 2 10)%f32)
      (clamp01 (L 8 10 - sub * L 6 10 + p * L 2 10)%f32) (Some (clamp01 (L 8 10 - sub * L 1 2 + p * L 2 10)%f32)) PressureState_new None None.

(** [self.seed] is the generator's seed; the definition's is not used. *)
Definition generate_snapshot (seed : Z) (d : WorkloadDefinition) (t : Z) (progress : float) : SystemState :=
  let p := perturbation seed t in
  match wd_class d with
  | Desktop => generate_desktop p progress
  | BuildSystem => generate_build_server p progress
  | MemoryPressure => generate_memory_pressure_ramp p progress
  | DataSystem => generate_database_cache p progress
  | Mixed => generate_mixed_multitask p progress
  end.

(** ** Metadata *)

Definition dram_memory (s : TimedSnapshot) : float := memory_pressure (dram_pressure (ts_state s)).

Definition bucket (x : float) : nat :=
  if flt x (L 3 10) then 0 else if flt x (L 1 2) then 1 else if flt x (L 7 10) then 2 else if flt x (L 85 100) then 3 else 4.
Definition in_bucket (k : nat) (l : list TimedSnapshot) : nat := length (filter (fun s => bucket (dram_memory s) = k) l).

Definition compute_metadata (l : list TimedSnapshot) : ScenarioMetadata :=
  let n := length l in
  let total := of_int f32 (Z.of_nat n) in
  let peak f := fold_left fmax (f <$> l) zero_f32 in
  let avg f := if (0 <? n)%nat then fdiv f32 (fsum f32 (f <$> l)) total else zero_f32 in
  let fraction k := if fgt total zero_f32 then fdiv f32 (of_int f32 (Z.of_nat (in_bucket k l))) total else zero_f32 in
  mkMeta n (peak dram_memory) (peak (fun s => dram_utilization (ts_state s)))
    (avg (fun s => dram_utilization (ts_state s))) (avg (fun s => swap_utilization (ts_state s)))
    (mkDist (fraction 0%nat) (fraction 1%nat) (fraction 2%nat) (fraction 3%nat) (fraction 4%nat)).

(** ** Generation *)

Definition progress_of (i n : nat) : float :=
  if (1 <? n)%nat then fdiv f32 (of_int f32 (Z.of_nat i)) (of_int f32 (Z.of_nat (n - 1))) else zero_f32.

Section generate.
Variable b : Build.

Fixpoint snapshots_from (seed : Z) (d : WorkloadDefinition) (n : nat) (is_ : list nat) : outcome GhostError (list TimedSnapshot) :=
  match is_ with
  | [] => Ok []
  | i :: is_ =>
      let? t := arith b 64 (Z.of_nat i * snapshot_interval_ms d) in
      let? l := snapshots_from seed d n is_ in
      Ok (mkTimed t (generate_snapshot seed d t (progress_of i n)) :: l)
  end.

Definition num_snapshots (d : WorkloadDefinition) (total_duration_ms : Z) : nat :=
  if 0 <? snapshot_interval_ms d then Z.to_nat (Z.max (total_duration_ms / snapshot_interval_ms d) 1) else 1.

Definition generate (seed : Z) (d : WorkloadDefinition) : outcome GhostError WorkloadScenario :=
  let? total := arith b 64 (duration_seconds d * 1000) in
  let n := num_snapshots d total in
  let? l := snapshots_from seed d n (seq 0 n) in
  Ok (mkScenario d l (compute_metadata l)).
End generate.

Definition idle_desktop : WorkloadDefinition :=
  mkDef "idle_desktop" Desktop "Low pressure desktop workload with occasional brief spikes" 60 1000 42.
Definition memory_pressure_ramp : WorkloadDefinition :=
  mkDef "memory_pressure_ramp" MemoryPressure "Gradually increasing pressure from idle to critical" 120 2000 100.
Definition build_server : WorkloadDefinition :=
  mkDef "build_server" BuildSystem "Periodic high pressure spikes during compilation bursts" 180 1000 200.
Definition database_cache : WorkloadDefinition :=
  mkDef "database_cache" DataSystem "Moderate sustained pressure with hotness data (active cache)" 90 1000 300.
Definition mixed_multitask : WorkloadDefinition :=
  mkDef "mixed_multitask" Mixed "Alternating patterns: idle → browser → build → cache → recovery" 200 2000 400.
Definition allocator_stress : WorkloadDefinition :=
  mkDef "allocator_stress" MemoryPressure "Rapid oscillation: allocate (spike) → free (drop) → repeat" 60 500 500.
Definition tier_saturation : WorkloadDefinition :=
  mkDef "tier_saturation" MemoryPressure "Tier-by-tier saturation: DRAM full → ZRAM fills → swap fills → recovery" 120 2000 600.
Definition all_builtin_workloads : list WorkloadDefinition :=
  [idle_desktop; memory_pressure_ramp; build_server; database_cache; mixed_multitask; allocator_stress; tier_saturation].

(** ** Every reading is a fraction *)

Definition in_unit01 (x : float) : bool := fle zero_f32 x && fle x (of_int f32 1).

Definition reading_ok (s : SystemState) : Prop :=
  in_unit01 (memory_pressure (dram_pressure s)) = true /\ in_unit01 (dram_utilization s) = true /\
  in_unit01 (swap_utilization s) = true /\
  match zram_utilization s with Some z => in_unit01 z = true | None => True end.

Lemma clamp01_unit x : is_nan x = false -> in_unit01 (clamp01 x) = true.
Proof.
  intros Hx. unfold in_unit01, clamp01. destruct (FloatOrder.fclamp_range x zero_f32 (of_int f32 1) Hx) as [-> ->]; [done|]. done.
Qed.

(** A perturbation and its multiples in use. *)
Definition small (p : float) : Prop :=
  is_finite p = true /\ Forall (fun c => is_finite (fmul f32 p c) = true) [L 1 2; L 1 10; L 2 10; L 3 10; L 4 10].

Definition perturbation_of (h : Z) : float := (of_int f32 h / of_int f32 1000 * L 1 10 - L 5 100)%f32.

Lemma perturbations_small :
  forallb (fun h => is_finite (perturbation_of h) &&
    forallb (fun c => is_finite (fmul f32 (perturbation_of h) c)) [L 1 2; L 1 10; L 2 10; L 3 10; L 4 10]) (seqZ 0 1000) = true.
Proof. vm_compute. reflexivity. Qed.

Lemma perturbation_small seed t : small (perturbation seed t).
Proof.
  unfold perturbation. set (h := _ mod 1000). assert (h ∈ seqZ 0 1000) as Hh.
  { apply elem_of_seqZ. unfold h. pose proof (Z.mod_pos_bound (wrap 64 (wrap 64 (seed * 6364136223846793005) +
      wrap 64 (wrap 64 (t * 1442695040888963407) + 1))) 1000). lia. }
  change (small (perturbation_of h)). pose proof perturbations_small as Hp. rewrite forallb_forall in Hp.
  specialize (Hp h (proj1 (list_elem_of_In _ _) Hh)). apply andb_true_iff in Hp as [H1 H2].
  split; [done|]. rewrite forallb_forall in H2. apply Forall_forall. intros c Hc. apply H2. by apply list_elem_of_In.
Qed.

Ltac small_finite :=
  match goal with
  | H : small ?p |- is_finite ?p = true => apply H
  | H : small ?p |- is_finite (fmul f32 ?p _) = true =>
      destruct H as [_ H]; rewrite Forall_forall in H; apply H; clear H; repeat (first [left | right])
  | |- is_finite _ = true => vm_compute; reflexivity
  end.
Ltac nan_free :=
  first
    [ assumption
    | apply FloatNaN.fadd_nan; [nan_free | solve [small_finite]]
    | apply FloatNaN.fadd_nan_r; [solve [small_finite] | nan_free]
    | apply FloatNaN.fsub_nan; [solve [small_finite] | nan_free]
    | apply fsub_nan_l; [nan_free | solve [small_finite]]
    | apply fmul_nan_r; [nan_free | vm_compute; reflexivity]
    | apply fdiv_nan_r; [nan_free | vm_compute; reflexivity]
    | apply finite_number; solve [small_finite] ].
Ltac readings :=
  unfold reading_ok; cbn [dram_pressure dram_utilization swap_utilization zram_utilization memory_pressure set_memory with_memory set_dram_memory];
  split_and!; repeat (match goal with |- context [if ?c then _ else _] => destruct c end); apply clamp01_unit; nan_free.

Lemma desktop_ok p progress : small p -> reading_ok (generate_desktop p progress).
Proof. intros Hp. unfold generate_desktop. readings. Qed.
Lemma build_ok p progress : small p -> reading_ok (generate_build_server p progress).
Proof. intros Hp. unfold generate_build_server. readings. Qed.
Lemma ramp_ok p progress : small p -> is_nan progress = false -> reading_ok (generate_memory_pressure_ramp p progress).
Proof. intros Hp Hg. unfold generate_memory_pressure_ramp. readings. Qed.
Lemma cache_ok p progress : small p -> reading_ok (generate_database_cache p progress).
Proof. intros Hp. unfold generate_database_cache. readings. Qed.
Lemma mixed_ok p progress : small p -> is_nan progress = false -> reading_ok (generate_mixed_multitask p progress).
Proof.
  intros Hp Hg. unfold generate_mixed_multitask. repeat case_match.
  - destruct (desktop_ok p progress Hp) as (H1 & H2 & H3 & H4). split_and!; [|done..]. cbn [set_dram_memory dram_pressure set_memory memory_pressure].
    apply clamp01_unit. apply fmul_nan_r; [|vm_compute; reflexivity].
    unfold in_unit01 in H1. apply andb_true_iff in H1 as [H1 _]. by apply FloatOrder.fle_not_nan in H1 as [_ ?].
  - unfold generate_browser_spike. readings.
  - by apply build_ok.
  - by apply cache_ok.
  - unfold generate_recovery. readings.
Qed.

Lemma small_ints_nonzero : forallb (fun z => FloatNaN.nonzero (of_int f32 z)) (seqZ 1 4096) = true.
Proof. vm_compute. reflexivity. Qed.

Lemma progress_number i n : Z.of_nat n <= 4096 -> is_nan (progress_of i n) = false.
Proof.
  intros Hn. unfold progress_of. destruct (Nat.ltb_spec 1 n); [|done]. apply fdiv_nan_r; [apply FloatNaN.of_int_nan|].
  pose proof small_ints_nonzero as Hs. rewrite forallb_forall in Hs. apply Hs, list_elem_of_In, elem_of_seqZ. lia.
Qed.

Lemma snapshot_ok seed d t progress : is_nan progress = false -> reading_ok (generate_snapshot seed d t progress).
Proof.
  intros Hg. pose proof (perturbation_small seed t) as Hp. unfold generate_snapshot.
  destruct (wd_class d); auto using desktop_ok, build_ok, ramp_ok, cache_ok, mixed_ok.
Qed.

Definition timed_at (seed : Z) (d : WorkloadDefinition) (n i : nat) : TimedSnapshot :=
  let t := Z.of_nat i * snapshot_interval_ms d in mkTimed t (generate_snapshot seed d t (progress_of i n)).

Lemma snapshots_from_ok b seed d n l :
  Forall (fun i => in_u 64 (Z.of_nat i * snapshot_interval_ms d)) l -> snapshots_from b seed d n l = Ok (timed_at seed d n <$> l).
Proof. induction 1 as [|i l Hi _ IH]; [done|]. cbn [snapshots_from]. rewrite arith_in by done. cbn [obind]. by rewrite IH. Qed.

Lemma bucket_lt x : (bucket x < 5)%nat.
Proof. unfold bucket. repeat case_match; lia. Qed.

Lemma buckets_partition l : (in_bucket 0 l + in_bucket 1 l + in_bucket 2 l + in_bucket 3 l + in_bucket 4 l = length l)%nat.
Proof.
  unfold in_bucket. induction l as [|s l IH]; [done|]. rewrite !filter_cons. pose proof (bucket_lt (dram_memory s)).
  repeat case_decide; cbn [length]; lia.
Qed.

(** A scenario that fits. *)
Definition fits (d : WorkloadDefinition) : Prop := 0 <= snapshot_interval_ms d /\ in_u 64 (duration_seconds d * 1000).
Definition scenario_of (seed : Z) (d : WorkloadDefinition) : WorkloadScenario :=
  let n := num_snapshots d (duration_seconds d * 1000) in
  mkScenario d (timed_at seed d n <$> seq 0 n) (compute_metadata (timed_at seed d n <$> seq 0 n)).

Lemma generate_fits b seed d : fits d -> generate b seed d = Ok (scenario_of seed d).
Proof.
  intros [H0 Ht]. unfold generate, scenario_of. rewrite arith_in by done. cbn [obind]. set (n := num_snapshots _ _).
  rewrite snapshots_from_ok; [done|]. apply Forall_forall. intros i Hi%elem_of_seq. unfold in_u in *. subst n. unfold num_snapshots in *.
  destruct (Z.ltb_spec 0 (snapshot_interval_ms d)); [|split; [lia|]; replace (snapshot_interval_ms d) with 0 by lia; lia].
  split; [lia|]. destruct i as [|i]; [lia|].
  assert (Z.of_nat (S i) <= duration_seconds d * 1000 / snapshot_interval_ms d) as Hle by lia.
  pose proof (Z.mul_div_le (duration_seconds d * 1000) (snapshot_interval_ms d)). nia.
Qed.

(** C38: A generated scenario.  When the duration in milliseconds fits and there are
    at most 4096 snapshots, generation succeeds: one snapshot per interval, at
    the multiples of the interval, every pressure and utilization a number
    between 0 and 1; the five classes of pressure the metadata counts are a
    partition of the snapshots; and the snapshots depend on the seed of the
    generator and not on the one of the definition. *)
Theorem scenario_ok b seed d :
  0 <= snapshot_interval_ms d -> in_u 64 (duration_seconds d * 1000) ->
  let n := num_snapshots d (duration_seconds d * 1000) in
  Z.of_nat n <= 4096 ->
  exists sc, generate b seed d = Ok sc /\ (1 <= n)%nat /\ length (sn_snapshots sc) = n /\
    (timestamp_ms <$> sn_snapshots sc) = (fun i => Z.of_nat i * snapshot_interval_ms d) <$> seq 0 n /\
    Forall (fun s => reading_ok (ts_state s)) (sn_snapshots sc) /\
    total_snapshots (sn_metadata sc) = n /\
    (let l := sn_snapshots sc in in_bucket 0 l + in_bucket 1 l + in_bucket 2 l + in_bucket 3 l + in_bucket 4 l = n)%nat /\
    forall s, exists sc', generate b seed (mkDef (wd_name d) (wd_class d) (wd_description d) (duration_seconds d) (snapshot_interval_ms d) s) = Ok sc' /\
      sn_snapshots sc' = sn_snapshots sc.
Proof.
  intros H0 Ht n Hn. exists (scenario_of seed d). rewrite generate_fits by done. unfold scenario_of. fold n. cbn [sn_snapshots sn_metadata]. split_and!.
  - done.
  - subst n. unfold num_snapshots. case_match; lia.
  - by rewrite length_fmap, length_seq.
  - rewrite <- list_fmap_compose. done.
  - apply Forall_fmap, Forall_forall. intros i _. apply snapshot_ok. by apply progress_number.
  - cbn [compute_metadata total_snapshots]. by rewrite length_fmap, length_seq.
  - cbv zeta. rewrite buckets_partition. by rewrite length_fmap, length_seq.
  - intros s. rewrite generate_fits by done. eexists. split; [done|]. done.
Qed.

Lemma scenario_ok_witness :
  exists sc, generate Debug 7 tier_saturation = Ok sc /\ length (sn_snapshots sc) = 60%nat /\
    Forall (fun s => reading_ok (ts_state s)) (sn_snapshots sc).
Proof.
  destruct (scenario_ok Debug 7 tier_saturation) as (sc & E & _ & Hl & _ & Hr & _);
    [vm_compute; discriminate|split; vm_compute; [discriminate|reflexivity]|vm_compute; discriminate|].
  exists sc. split; [exact E|]. split; [exact Hl|exact Hr].
Defined.

(** The workload named after the saturation of tiers is the pressure ramp at
    every time: the generator of that name is not used. *)
Lemma saturation_is_a_ramp seed t progress :
  generate_snapshot seed tier_saturation t progress = generate_memory_pressure_ramp (perturbation seed t) progress /\
  generate_snapshot seed allocator_stress t progress = generate_memory_pressure_ramp (perturbation seed t) progress.
Proof. done. Qed.
