(* ===== verification/Bench.v ===== *)
(** * Benchmarks: [ghost-bench/src/comparison.rs], [experiment.rs], [report.rs],
    [leaderboard.rs], [runner.rs]

    Policies are run over generated scenarios, scored, ranked in a report and
    kept on a leaderboard.  The texts of the clock ([chrono]) are arguments;
    the iteration order of a hash container is a parameter. *)

From Stdlib Require Import ZArith Lia SpecFloat Sorting.Sorted Ascii.
From stdpp Require Import base gmap strings pretty list sorting.
From S2P Require Import Prelude Floats LinuxSources CoreTypes Pressure Regions LinuxPolicy Scoring Evaluator Tournament Workload.

Open Scope rust_scope.

(** [total += x] from [0.0] over a list, and [total / n as f32]. *)
Definition mean_of (l : list float) : float := fdiv f32 (fsum f32 l) (of_int f32 (Z.of_nat (length l))).

(** [sort_by(|a, b| b.score.partial_cmp(&a.score).unwrap_or(Equal))] *)
Definition descending {A} (f : A -> float) (x y : A) : comparison := fcmp (f y) (f x).

Lemma descending_sorted {A} (f : A -> float) l : Forall (fun x => is_nan (f x) = false) l ->
  StronglySorted (fun x y => fle y x = true) (f <$> sort_by (descending f) l).
Proof.
  intros Hn. apply (StronglySorted_fmap f (fun x y => fle (f y) (f x) = true)); [done|].
  apply (sorted_impl (fun x y => descending f x y <> Gt) _ (fun x => is_nan (f x) = false)).
  - intros x y Hx Hy. by apply FloatOrder.fcmp_fle.
  - by rewrite sort_by_permutation.
  - apply (sort_by_sorted _ (fun x => is_nan (f x) = false)); [| |done].
    + intros x y Hx Hy. by apply FloatOrder.fcmp_antisym.
    + intros x y z Hx Hy Hz H1 H2. by apply (FloatOrder.fcmp_trans _ (f y)).
Qed.

(** Sorting the images is sorting by the images. *)
Lemma insert_by_fmap {A B} (g : A -> B) cmpA cmpB x l : (forall x y, cmpA x y = cmpB (g x) (g y)) ->
  g <$> insert_by cmpA x l = insert_by cmpB (g x) (g <$> l).
Proof. intros Hc. induction l as [|y l IH]; [done|]. cbn [insert_by fmap list_fmap]. rewrite <- Hc. destruct (cmpA x y); try done. cbn [fmap list_fmap]. by rewrite <- IH. Qed.
Lemma sort_by_fmap {A B} (g : A -> B) cmpA cmpB l : (forall x y, cmpA x y = cmpB (g x) (g y)) ->
  g <$> sort_by cmpA l = sort_by cmpB (g <$> l).
Proof.
  intros Hc. induction l as [|x l IH]; [done|]. unfold sort_by in *. cbn [foldr fmap list_fmap].
  rewrite (insert_by_fmap g cmpA cmpB) by done. f_equal. exact IH.
Qed.

(** Two policies and two short scenarios. *)
Definition ex_policy : ArenaPolicy := mkPolicy "evict" (fun s => [EvictCold Ram 4 (dram_utilization s) []]).
Definition ex_scenario (d : WorkloadDefinition) : WorkloadScenario :=
  mkScenario d (timed_at 7 d 5 <$> seq 0 5) (compute_metadata (timed_at 7 d 5 <$> seq 0 5)).
Definition ex_scenarios : list WorkloadScenario := [ex_scenario memory_pressure_ramp; ex_scenario mixed_multitask].
Definition ex_lazy : ArenaPolicy := mkPolicy "lazy" (fun s => [NoAction "idle" (lit f32 1 2) []]).

(** ** Comparisons *)

Module Compare.
Record PolicyComparisonRun := mkRun {
  run_workload_name : string;
  run_policy_name : string;
  run_scores : list RecommendationScore;
  average_score : RecommendationScore;
  recommendation_count : nat;
  active_recommendation_count : nat;
  run_stability : StreamStability.RecommendationStability;
  run_quality : Quality.RecommendationQuality;
}.
Record WorkloadComparison := mkCmp {
  cmp_workload_name : string;
  runs : list PolicyComparisonRun;
  cmp_winner : string;
  winner_score : float;
}.
Definition overall (r : PolicyComparisonRun) : float := overall_score (average_score r).

Definition average_scores (l : list RecommendationScore) : RecommendationScore :=
  match l with
  | [] => mkScore zero_f32 zero_f32 zero_f32 zero_f32 zero_f32 zero_f32 zero_f32
  | _ =>
      let avg f := mean_of (f <$> l) in
      mkScore (avg fault_reduction) (avg swap_reduction) (avg zram_efficiency) (avg pressure_reduction) (avg tier_balance)
        (avg sc_stability) (avg overall_score)
  end.

(** [snapshots.windows(2)] *)
Fixpoint windows {A} (l : list A) : list (A * A) :=
  match l with x :: (y :: _) as l' => (x, y) :: windows l' | _ => [] end.

(** The body of the loop: the recommendations, their score, and the tracker
    given each of them. *)
Definition observe (p : ArenaPolicy) (w : TimedSnapshot * TimedSnapshot) (t : StreamStability.StabilityTracker) : StreamStability.StabilityTracker :=
  fold_left (fun t r => StreamStability.record r (ts_state w.1) (timestamp_ms w.1) t) (policy_run p (ts_state w.1)) t.

Definition no_state : SystemState := mkSys PressureState_new zero_f32 zero_f32 None PressureState_new None None.

(** [weights] is not used. *)
Definition run_policy_comparison (sc : WorkloadScenario) (p : ArenaPolicy) (weights : ScoringWeights) : PolicyComparisonRun :=
  let ws := windows (sn_snapshots sc) in
  let recs w := policy_run p (ts_state w.1) in
  let scores := (fun w => score_policy_evaluation (recs w) (ts_state w.1) (ts_state w.2)) <$> ws in
  let all := ws ≫= recs in
  let stability := StreamStability.evaluate (fold_left (fun t w => observe p w t) ws (StreamStability.new 64)) in
  let before := default no_state (ts_state <$> head (sn_snapshots sc)) in
  let after := default before (ts_state <$> last (sn_snapshots sc)) in
  mkRun (wd_name (sn_definition sc)) (policy_name p) scores (average_scores scores) (length all)
    (length (filter (fun r => is_no_action r = false) all)) stability
    (Quality.compute_recommendation_quality all scores stability before after Quality.QualityWeights_default).

Definition by_overall (x y : PolicyComparisonRun) : comparison := fcmp (overall x) (overall y).

Definition run_workload_comparison (sc : WorkloadScenario) (ps : list ArenaPolicy) (weights : ScoringWeights) : WorkloadComparison :=
  let rs := (fun p => run_policy_comparison sc p weights) <$> ps in
  let w := default EmptyString (run_policy_name <$> max_by by_overall rs) in
  mkCmp (wd_name (sn_definition sc)) rs w
    (default zero_f32 (overall <$> find (fun r => bool_decide (run_policy_name r = w)) rs)).

(** *** The winner *)

Lemma nodup_image_eq {A B} (f : A -> B) l x y : NoDup (f <$> l) -> x ∈ l -> y ∈ l -> f x = f y -> x = y.
Proof.
  induction l as [|z l IH]; [by intros _ ?%elem_of_nil|]. rewrite fmap_cons, NoDup_cons. intros [Hz Hn] [->|Hx]%elem_of_cons [->|Hy]%elem_of_cons Hf; try done.
  - destruct Hz. rewrite Hf. by apply list_elem_of_fmap_2.
  - destruct Hz. rewrite <- Hf. by apply list_elem_of_fmap_2.
  - by apply IH.
Qed.

Lemma winner_ran sc ps w : ps <> [] -> let c := run_workload_comparison sc ps w in cmp_winner c ∈ run_policy_name <$> runs c.
Proof.
  intros Hps. unfold run_workload_comparison. cbv zeta. cbn [cmp_winner runs]. set (rs := _ <$> ps). destruct (max_by by_overall rs) as [r|] eqn:E.
  - apply max_by_elem in E. cbn. by apply list_elem_of_fmap_2.
  - apply max_by_None in E. unfold rs in E. by destruct ps.
Qed.

(** The winner of a workload.  Among policies of different names whose scores
    are numbers, the winner is one of them, the winner's score is its average,
    and no policy has a higher one. *)
Theorem comparison_winner sc ps w : ps <> [] -> NoDup (policy_name <$> ps) ->
  let c := run_workload_comparison sc ps w in
  Forall (fun r => is_nan (overall r) = false) (runs c) ->
  run_policy_name <$> runs c = policy_name <$> ps /\
  exists r, r ∈ runs c /\ cmp_winner c = run_policy_name r /\ winner_score c = overall r /\
    Forall (fun r' => fle (overall r') (overall r) = true) (runs c).
Proof.
  intros Hps Hd c Hn. assert (run_policy_name <$> runs c = policy_name <$> ps) as Hnames.
  { unfold c, run_workload_comparison. cbn [runs]. by rewrite <- list_fmap_compose. }
  split; [done|]. unfold c, run_workload_comparison in *. cbv zeta in *. cbn [runs cmp_winner winner_score] in *. clear c.
  set (rs := (fun p => run_policy_comparison sc p w) <$> ps) in *.
  destruct (max_by by_overall rs) as [r|] eqn:E; [|apply max_by_None in E; unfold rs in E; by destruct ps].
  cbn [fmap option_fmap option_map default from_option]. change (id ?x) with x. exists r. pose proof (max_by_elem _ _ _ E) as Hr. split_and!; [done|done| |].
  - destruct (find _ rs) as [r'|] eqn:Ef.
    + apply find_some in Ef as [Hin%list_elem_of_In Heq%bool_decide_eq_true]. cbn. f_equal.
      rewrite <- Hnames in Hd. by eapply (nodup_image_eq run_policy_name).
    + exfalso. apply list_elem_of_In in Hr. pose proof (find_none _ _ Ef r Hr) as Hf. cbn in Hf. by apply bool_decide_eq_false in Hf.
  - apply Forall_forall. intros r' Hr'. rewrite Forall_forall in Hn. apply FloatOrder.fcmp_fle; [by apply Hn..|].
    eapply (max_by_ge by_overall (fun r => is_nan (overall r) = false)); [| | |exact E|done].
    + intros x y Hx Hy. by apply FloatOrder.fcmp_antisym.
    + intros x y z Hx Hy Hz H1 H2. by apply (FloatOrder.fcmp_trans _ (overall y)).
    + by apply Forall_forall.
Qed.

Lemma comparison_winner_witness :
  let c := run_workload_comparison (ex_scenario mixed_multitask) [ex_policy; ex_lazy] ScoringWeights_default in
  exists r, r ∈ runs c /\ cmp_winner c = run_policy_name r /\ Forall (fun r' => fle (overall r') (overall r) = true) (runs c).
Proof.
  cbv zeta. destruct (comparison_winner (ex_scenario mixed_multitask) [ex_policy; ex_lazy] ScoringWeights_default)
    as (_ & r & Hr & Hw & _ & Hm).
  - discriminate.
  - apply NoDup_ListNoDup. repeat constructor; cbn; intuition discriminate.
  - apply Forall_forall. intros r Hr. assert (forallb (fun r => negb (is_nan (overall r)))
      (runs (run_workload_comparison (ex_scenario mixed_multitask) [ex_policy; ex_lazy] ScoringWeights_default)) = true)
      as Hf by (vm_compute; reflexivity).
    rewrite forallb_forall in Hf. apply list_elem_of_In in Hr. apply Hf in Hr. clear -Hr. destruct (is_nan _); [discriminate Hr|reflexivity].
  - exists r. split; [exact Hr|]. split; [exact Hw|exact Hm].
Defined.
End Compare.
Import Compare.

(** ** Experiments *)

Module Experiment.
Record ExperimentResult := mkER { parameter_value : float; er_average_score : float; win_rate : float; er_stability_index : float }.
Record PolicyExperiment := mkPE {
  pe_name : string;
  pe_description : string;
  parameter_name : string;
  baseline_value : float;
  test_values : list float;
  pe_results : list ExperimentResult;
  best_value : float;
  best_score : float;
  improvement : float;
}.

Definition make_weights (parameter : string) (v : float) : ScoringWeights :=
  let w := ScoringWeights_default in
  let 'mkWeights f s z p t b := w in
  if decide (parameter = "fault_reduction_weight") then mkWeights v s z p t b
  else if decide (parameter = "pressure_reduction_weight") then mkWeights f s z v t b
  else if decide (parameter = "swap_reduction_weight") then mkWeights f v z p t b
  else if decide (parameter = "zram_efficiency_weight") then mkWeights f s v p t b
  else if decide (parameter = "tier_balance_weight") then mkWeights f s z p v b
  else if decide (parameter = "stability_weight") then mkWeights f s z p t v
  else w.

Definition temperature_threshold_experiment : PolicyExperiment :=
  mkPE "temperature_threshold_sweep"
    "Sweep fault reduction weight to find optimal scoring balance. Since adaptive model thresholds cannot be modified externally, this tests how scoring weight configuration affects outcomes."
    "fault_reduction_weight" (lit f32 25 100)
    [lit f32 1 10; lit f32 2 10; lit f32 3 10; lit f32 4 10; lit f32 5 10; lit f32 6 10; lit f32 7 10; lit f32 8 10; lit f32 9 10]
    [] (lit f32 25 100) zero_f32 zero_f32.
Definition pressure_weight_experiment : PolicyExperiment :=
  mkPE "pressure_weight_sweep" "Sweep pressure reduction weight in scoring from 0.1 to 0.5 (baseline 0.25)."
    "pressure_reduction_weight" (lit f32 25 100)
    [lit f32 1 10; lit f32 15 100; lit f32 2 10; lit f32 25 100; lit f32 3 10; lit f32 35 100; lit f32 4 10; lit f32 45 100; lit f32 5 10]
    [] (lit f32 25 100) zero_f32 zero_f32.
Definition hybrid_weight_experiment : PolicyExperiment :=
  mkPE "hybrid_weight_sweep" "Sweep swap reduction weight (hotness-vs-pressure blend) from 0.0 to 1.0 (baseline 0.20)."
    "swap_reduction_weight" (lit f32 20 100)
    [zero_f32; lit f32 1 10; lit f32 2 10; lit f32 3 10; lit f32 4 10; lit f32 5 10; lit f32 6 10; lit f32 7 10; lit f32 8 10; lit f32 9 10; of_int f32 1]
    [] (lit f32 20 100) zero_f32 zero_f32.

Section run.
Variable param : string.
Variable ws : list WorkloadScenario.
Variable p : ArenaPolicy.

Definition run_of (v : float) (sc : WorkloadScenario) : PolicyComparisonRun := run_policy_comparison sc p (make_weights param v).

Definition mean_or_zero (l : list float) : float := match l with [] => zero_f32 | _ => mean_of l end.

(** One test value: its result, the best value and the best score so far. *)
Definition try_value (v : float) (best : float * float) : ExperimentResult * (float * float) :=
  let '(best_v, best_s) := best in
  let avg := mean_or_zero ((fun sc => overall (run_of v sc)) <$> ws) in
  let stab := mean_or_zero ((fun sc => StreamStability.stability_index (run_stability (run_of v sc))) <$> ws) in
  let win := if fgt best_s zero_f32 then if fgt avg best_s then of_int f32 1 else zero_f32 else lit f32 1 2 in
  (mkER v avg win stab, if fgt avg best_s then (v, avg) else best).

Fixpoint try_values (vs : list float) (best : float * float) : list ExperimentResult * (float * float) :=
  match vs with
  | [] => ([], best)
  | v :: vs =>
      let '(r, best) := try_value v best in
      let '(rs, best) := try_values vs best in (r :: rs, best)
  end.

(** The recomputed win rate of a value among all of them. *)
Definition wins_against (all : list float) (v : float) : nat :=
  length (filter (fun sc => forallb (fun o => fge (overall (run_of v sc)) (overall (run_of o sc))) all = true) ws).
Definition recomputed (all : list float) (v : float) : float :=
  match ws with [] => zero_f32 | _ => fdiv f32 (of_int f32 (Z.of_nat (wins_against all v))) (of_int f32 (Z.of_nat (length ws))) end.
Definition set_win_rate (r : ExperimentResult) (x : float) : ExperimentResult :=
  mkER (parameter_value r) (er_average_score r) x (er_stability_index r).
End run.

Definition is_value (x : float) (r : ExperimentResult) : bool := flt (SFabs (fsub f32 (parameter_value r) x)) EPSILON32.

Definition run_experiment (e : PolicyExperiment) (ws : list WorkloadScenario) (p : ArenaPolicy) : PolicyExperiment :=
  let vs := test_values e in
  let '(rs, (bv, bs)) := try_values (parameter_name e) ws p vs (baseline_value e, zero_f32) in
  let rs :=
    if (1 <? length ws)%nat && (1 <? length vs)%nat
    then zip_with set_win_rate rs (recomputed (parameter_name e) ws p vs <$> vs) else rs in
  let base := default zero_f32 (er_average_score <$> find (is_value (baseline_value e)) rs) in
  let imp := if fgt base zero_f32 then fdiv f32 (fsub f32 bs base) base else zero_f32 in
  mkPE (pe_name e) (pe_description e) (parameter_name e) (baseline_value e) vs rs bv bs imp.

(** *** Every value scores the same *)

Definition flat_score (ws : list WorkloadScenario) (p : ArenaPolicy) : float :=
  mean_or_zero ((fun sc => overall (run_policy_comparison sc p ScoringWeights_default)) <$> ws).
Definition flat_stability (ws : list WorkloadScenario) (p : ArenaPolicy) : float :=
  mean_or_zero ((fun sc => StreamStability.stability_index (run_stability (run_policy_comparison sc p ScoringWeights_default))) <$> ws).
(** The workloads whose score is a number. *)
Definition numbered (ws : list WorkloadScenario) (p : ArenaPolicy) : nat :=
  length (filter (fun sc => is_nan (overall (run_policy_comparison sc p ScoringWeights_default)) = false) ws).

Lemma run_of_flat param p v sc : run_of param p v sc = run_policy_comparison sc p ScoringWeights_default.
Proof. done. Qed.

Lemma flt_irrefl x : flt x x = false.
Proof.
  unfold flt, SFltb. destruct x as [[]|[]| |s m e]; try done. unfold SFcompare. rewrite !Z.compare_refl, Pos.compare_cont_refl. by destruct s.
Qed.
Lemma fle_self x : fle x x = negb (is_nan x).
Proof.
  unfold fle, SFleb. destruct x as [[]|[]| |s m e]; try done. unfold SFcompare. rewrite !Z.compare_refl, Pos.compare_cont_refl. by destruct s.
Qed.
Lemma fsub_self F x : is_finite x = true -> fsub F x x = S754_zero false.
Proof.
  destruct x as [s| | |s m e]; try done; intros _; cbn; [by destruct s|]. unfold fsub, SFsub. by rewrite Z.sub_diag.
Qed.

Lemma try_value_flat param ws p v bv bs : let s := flat_score ws p in
  try_value param ws p v (bv, bs) =
    (mkER v s (if fgt bs zero_f32 then if fgt s bs then of_int f32 1 else zero_f32 else lit f32 1 2) (flat_stability ws p),
     if fgt s bs then (v, s) else (bv, bs)).
Proof. done. Qed.

(** A best score the common one does not exceed stays. *)
Lemma try_values_kept param ws p vs bv bs : let s := flat_score ws p in fgt s bs = false ->
  exists rs, try_values param ws p vs (bv, bs) = (rs, (bv, bs)) /\
    parameter_value <$> rs = vs /\ win_rate <$> rs = (fun _ => if fgt bs zero_f32 then zero_f32 else lit f32 1 2) <$> vs /\
    Forall (fun r => er_average_score r = s /\ er_stability_index r = flat_stability ws p) rs.
Proof.
  intros s Hs. induction vs as [|v vs (rs & E & Hv & Hw & Hf)]; [by exists []|]. cbn [try_values].
  rewrite try_value_flat. fold s. rewrite Hs, E. eexists. split; [done|].
  split_and!; [by rewrite fmap_cons, Hv|by rewrite fmap_cons, Hw|by constructor].
Qed.

(** The win rates of the sweep: half for the first value, then none if the
    score is positive (the first value set the mark), else half again. *)
Definition sweep_win_rates (s : float) (vs : list float) : list float :=
  match vs with
  | [] => []
  | _ :: vs => lit f32 1 2 :: ((fun _ => if fgt s zero_f32 then zero_f32 else lit f32 1 2) <$> vs)
  end.

Lemma try_values_flat param ws p vs bv : let s := flat_score ws p in
  exists rs, try_values param ws p vs (bv, zero_f32) =
      (rs, if fgt s zero_f32 then (default bv (head vs), if decide (vs = []) then zero_f32 else s) else (bv, zero_f32)) /\
    parameter_value <$> rs = vs /\ win_rate <$> rs = sweep_win_rates s vs /\ Forall (fun r => er_average_score r = s /\ er_stability_index r = flat_stability ws p) rs.
Proof.
  intros s. unfold sweep_win_rates. destruct (fgt s zero_f32) eqn:Hs.
  - destruct vs as [|v vs]; [by exists []|]. cbn [try_values]. rewrite try_value_flat. fold s. rewrite Hs.
    destruct (try_values_kept param ws p vs v s (flt_irrefl s)) as (rs & E & Hv & Hw & Hf).
    rewrite E. eexists. split; [done|]. rewrite Hs in Hw.
    split_and!; [by rewrite fmap_cons, Hv|by rewrite fmap_cons, Hw|by constructor].
  - destruct (try_values_kept param ws p vs bv zero_f32 Hs) as (rs & E & Hv & Hw & Hf).
    exists rs. split_and!; [done..| |done]. rewrite Hw. by destruct vs.
Qed.

Lemma wins_flat param ws p vs v : vs <> [] -> wins_against param ws p vs v = numbered ws p.
Proof.
  intros Hv. unfold wins_against, numbered. f_equal. apply list_filter_iff. intros sc. rewrite run_of_flat.
  set (x := overall _). assert (forall l, l <> [] -> forallb (fun o => fge x (overall (run_of param p o sc))) l = negb (is_nan x)) as ->; [|by destruct (is_nan x)|done].
  clear vs Hv. induction l as [|o l IH]; [done|]. intros _. cbn [forallb]. replace (fge x (overall (run_of param p o sc))) with (negb (is_nan x)) by (symmetry; apply fle_self).
  destruct l; [apply andb_true_r|]. rewrite IH by done. by destruct (is_nan x).
Qed.

Definition recomputed_results (ws : list WorkloadScenario) (p : ArenaPolicy) (rs : list ExperimentResult) : list ExperimentResult :=
  (fun r => set_win_rate r (fdiv f32 (of_int f32 (Z.of_nat (numbered ws p))) (of_int f32 (Z.of_nat (length ws))))) <$> rs.

Lemma recomputed_flat param ws p vs rs : vs <> [] -> (1 < length ws)%nat -> length rs = length vs ->
  zip_with set_win_rate rs (recomputed param ws p vs <$> vs) = recomputed_results ws p rs.
Proof.
  intros Hv Hw Hl. assert (forall v, recomputed param ws p vs v = fdiv f32 (of_int f32 (Z.of_nat (numbered ws p))) (of_int f32 (Z.of_nat (length ws)))) as Hr.
  { intros v. unfold recomputed. rewrite wins_flat by done. destruct ws; [cbn in Hw; lia|done]. }
  rewrite (list_fmap_ext _ (fun _ => fdiv f32 (of_int f32 (Z.of_nat (numbered ws p))) (of_int f32 (Z.of_nat (length ws))))) by (intros; apply Hr).
  unfold recomputed_results. clear Hv Hr. generalize dependent vs. induction rs as [|r rs IH]; intros [|v vs] Hl; try done.
  cbn [fmap list_fmap zip_with]. f_equal. apply IH. by injection Hl.
Qed.

(** C39: No test value of an experiment is better than another.  A comparison does
    not use the weights it is given, so every value gets the same score and the
    same stability.  With several workloads and several values all win rates
    are equal too (the share of workloads whose score is a number); otherwise
    they are the ones of the sweep, half for the first value and none for the
    later ones when the score is positive, and half for all when it is not.
    The best value is the first one when the score is positive, and the
    baseline otherwise.  The improvement over the baseline is 0 whenever the
    score is finite. *)
Theorem experiment_is_flat e ws p : let s := flat_score ws p in
  let r := run_experiment e ws p in
  parameter_value <$> pe_results r = test_values e /\
  Forall (fun x => er_average_score x = s /\ er_stability_index x = flat_stability ws p) (pe_results r) /\
  win_rate <$> pe_results r =
    (if (1 <? length ws)%nat && (1 <? length (test_values e))%nat
     then (fun _ => fdiv f32 (of_int f32 (Z.of_nat (numbered ws p))) (of_int f32 (Z.of_nat (length ws)))) <$> test_values e
     else sweep_win_rates s (test_values e)) /\
  best_value r = (if fgt s zero_f32 then default (baseline_value e) (head (test_values e)) else baseline_value e) /\
  (is_finite s = true -> improvement r = zero_f32).
Proof.
  intros s. unfold run_experiment. destruct (try_values_flat (parameter_name e) ws p (test_values e) (baseline_value e)) as (rs & E & Hv & Hw & Hf).
  rewrite E. clear E. fold s in Hf, Hw |- *. set (best := if fgt s zero_f32 then _ else _).
  set (rs' := if (1 <? length ws)%nat && _ then _ else _).
  assert (parameter_value <$> rs' = test_values e /\ Forall (fun x => er_average_score x = s /\ er_stability_index x = flat_stability ws p) rs' /\
    win_rate <$> rs' = (if (1 <? length ws)%nat && (1 <? length (test_values e))%nat
     then (fun _ => fdiv f32 (of_int f32 (Z.of_nat (numbered ws p))) (of_int f32 (Z.of_nat (length ws)))) <$> test_values e
     else sweep_win_rates s (test_values e))) as (H1 & H2 & H3).
  { unfold rs'. destruct (Nat.ltb_spec 1 (length ws)), (Nat.ltb_spec 1 (length (test_values e))); cbn [andb]; try done.
    rewrite recomputed_flat; [|intros Hn; rewrite Hn in *; cbn in *; lia|done|by rewrite <- Hv, length_fmap].
    unfold recomputed_results. split_and!; [by rewrite <- list_fmap_compose|by apply Forall_fmap|].
    by rewrite <- Hv, <- !list_fmap_compose. }
  assert (exists bv bs, best = (bv, bs) /\ bv = (if fgt s zero_f32 then default (baseline_value e) (head (test_values e)) else baseline_value e) /\
    (test_values e <> [] -> fgt s zero_f32 = true -> bs = s)) as (bv & bs & -> & Hbv & Hbs).
  { unfold best. destruct (fgt s zero_f32); eexists _, _; (split; [done|]; split; [done|]); [|done]. intros Hn _. by rewrite decide_False. }
  cbn [pe_results best_value improvement]. split_and!; [done|done|done|done|]. intros Hs.
  destruct (find (is_value (baseline_value e)) rs') as [x|] eqn:Ef; [|done]. cbn [fmap option_fmap option_map default from_option]. change (id ?x) with x.
  apply find_some in Ef as [Hin%list_elem_of_In _]. rewrite Forall_forall in H2. destruct (H2 x Hin) as [Ha _]. rewrite Ha.
  destruct (fgt s zero_f32) eqn:Hp; [|done]. rewrite Hbs; [|destruct (test_values e), rs'; try done; by apply elem_of_nil in Hin|done].
  rewrite fsub_self by done. clear -Hp Hs. by destruct s as [| | |[] m ex].
Qed.

(** One workload, then several. *)
Lemma experiment_is_flat_witness :
  let r := run_experiment pressure_weight_experiment ex_scenarios ex_policy in
  best_value r = lit f32 1 10 /\ improvement r = zero_f32 /\
  win_rate <$> take 2 (pe_results (run_experiment pressure_weight_experiment (take 1 ex_scenarios) ex_policy)) =
    [lit f32 1 2; zero_f32] /\
  Forall (fun x => er_average_score x = flat_score ex_scenarios ex_policy /\ er_stability_index x = flat_stability ex_scenarios ex_policy) (pe_results r).
Proof.
  destruct (experiment_is_flat pressure_weight_experiment ex_scenarios ex_policy) as (_ & Hr & _ & Hb & Hi).
  destruct (experiment_is_flat pressure_weight_experiment (take 1 ex_scenarios) ex_policy) as (_ & _ & Hw & _).
  assert (fgt (flat_score ex_scenarios ex_policy) zero_f32 = true) as Hp by (vm_compute; reflexivity).
  assert (fgt (flat_score (take 1 ex_scenarios) ex_policy) zero_f32 = true) as Hp1 by (vm_compute; reflexivity).
  rewrite Hp in Hb. cbv zeta. rewrite Hb. split_and!; [vm_compute; reflexivity|apply Hi; vm_compute; reflexivity| |exact Hr].
  rewrite fmap_take, Hw. unfold sweep_win_rates. rewrite Hp1. reflexivity.
Defined.
End Experiment.

(** ** Reports *)

Module Report.
Record PolicyRankEntry := mkRank {
  rk_policy_name : string;
  rk_rank : nat;
  rk_average_score : float;
  rk_wins : nat;
  rk_total_workloads : nat;
  rk_win_rate : float;
}.
Record BenchmarkSummary := mkSummary {
  bs_total_workloads : nat;
  bs_total_policies : nat;
  bs_total_rounds : nat;
  best_policy : string;
  best_policy_score : float;
  worst_policy : string;
  worst_policy_score : float;
  dominant_workload_class : string;
}.
Record PolicyResultSummary := mkResult {
  rs_policy_name : string;
  rs_average_score : float;
  rs_recommendation_count : nat;
  rs_active_recommendation_count : nat;
  rs_stability_index : float;
  rs_overall_quality : float;
}.
Record WorkloadResultSummary := mkWorkloadResult {
  wr_workload_name : string;
  wr_winner : string;
  wr_winner_score : float;
  policy_results : list PolicyResultSummary;
}.
Record BenchmarkReport := mkReport {
  report_id : string;
  report_timestamp : string;
  workload_results : list WorkloadResultSummary;
  policy_ranking : list PolicyRankEntry;
  report_summary : BenchmarkSummary;
}.

(** [Vec::dedup] *)
Fixpoint dedup (l : list string) : list string :=
  match l with
  | x :: (y :: _) as l' => if decide (x = y) then dedup l' else x :: dedup l'
  | _ => l
  end.

Definition all_runs (cs : list WorkloadComparison) : list PolicyComparisonRun := cs ≫= runs.
Definition policy_names (cs : list WorkloadComparison) : list string := dedup (sort_by string_cmp (run_policy_name <$> all_runs cs)).

Definition score_sums (cs : list WorkloadComparison) : gmap string (float * Z) := tally run_policy_name overall (all_runs cs).
Definition win_counts (cs : list WorkloadComparison) : gmap string nat := count_by (fun c => Some (cmp_winner c)) cs.

Definition rank_entry (cs : list WorkloadComparison) (name : string) : PolicyRankEntry :=
  let '(sum, count) := default (zero_f32, 0) (score_sums cs !! name) in
  let avg := if 0 <? count then fdiv f32 sum (of_int f32 count) else zero_f32 in
  let wins := default 0%nat (win_counts cs !! name) in
  let total := length cs in
  mkRank name 0 avg wins total
    (if (0 <? total)%nat then fdiv f32 (of_int f32 (Z.of_nat wins)) (of_int f32 (Z.of_nat total)) else zero_f32).

Definition set_rank (i : nat) (e : PolicyRankEntry) : PolicyRankEntry :=
  mkRank (rk_policy_name e) (i + 1) (rk_average_score e) (rk_wins e) (rk_total_workloads e) (rk_win_rate e).
Definition ranking (cs : list WorkloadComparison) : list PolicyRankEntry :=
  imap set_rank (sort_by (descending rk_average_score) (rank_entry cs <$> policy_names cs)).

Definition infer_workload_class (name : string) : string :=
  if Str.contains "idle" name || Str.contains "desktop" name then class_display Desktop
  else if Str.contains "build" name then class_display BuildSystem
  else if Str.contains "pressure" name || Str.contains "allocator" name || Str.contains "tier" name then class_display MemoryPressure
  else if Str.contains "database" name || Str.contains "cache" name then class_display DataSystem
  else if Str.contains "mixed" name then class_display Mixed
  else "Unknown".

Definition class_scores (cs : list WorkloadComparison) : gmap string (list float) :=
  fold_left (fun m c => fold_left (fun m r =>
    let k := infer_workload_class (cmp_workload_name c) in <[k := default [] (m !! k) ++ [overall r]]> m) (runs c) m) cs ∅.

Definition variance (l : list float) : float :=
  let mean := mean_of l in mean_of ((fun s => fmul f32 (fsub f32 s mean) (fsub f32 s mean)) <$> l).

Section report.
(** The iteration order of [class_scores]. *)
Variable iter : gmap string (list float) -> list (string * list float).

Definition dominant_step (best : float * string) (x : string * list float) : float * string :=
  if (length x.2 <? 2)%nat then best else
  let v := variance x.2 in if fgt v best.1 then (v, x.1) else best.
Definition find_dominant_workload_class (cs : list WorkloadComparison) : string :=
  (fold_left dominant_step (iter (class_scores cs)) (of_int f32 (-1), "Unknown")).2.

Definition summary_of_run (r : PolicyComparisonRun) : PolicyResultSummary :=
  mkResult (run_policy_name r) (overall r) (recommendation_count r) (active_recommendation_count r)
    (StreamStability.stability_index (run_stability r)) (Quality.overall_quality (run_quality r)).
Definition workload_result (c : WorkloadComparison) : WorkloadResultSummary :=
  mkWorkloadResult (cmp_workload_name c) (cmp_winner c) (winner_score c) (summary_of_run <$> runs c).

(** [now] and [secs] are the two readings of the clock. *)
Definition generate_report (now : string) (secs : Z) (cs : list WorkloadComparison) : BenchmarkReport :=
  let ranked := ranking cs in
  let name e := default EmptyString (rk_policy_name <$> e) in
  let score e := default zero_f32 (rk_average_score <$> e) in
  mkReport ("bench-" +:+ pretty secs) now (workload_result <$> cs) ranked
    (mkSummary (length cs) (length (policy_names cs)) (sum_list (length ∘ runs <$> cs))
       (name (head ranked)) (score (head ranked)) (name (last ranked)) (score (last ranked)) (find_dominant_workload_class cs)).
End report.

(** *** The Markdown text *)

Definition newline : string := String (Ascii.ascii_of_nat 10) EmptyString.
Definition concat_strings (l : list string) : string := foldr (fun a b => a +:+ b) EmptyString l.

Definition ranking_row (e : PolicyRankEntry) : string :=
  "| " +:+ pretty (rk_rank e) +:+ " | " +:+ rk_policy_name e +:+ " | " +:+ fixed 4 (rk_average_score e) +:+ " | " +:+ pretty (rk_wins e)
    +:+ " | " +:+ fixed 1 (fmul f32 (rk_win_rate e) (of_int f32 100)) +:+ "% |" +:+ newline.
Definition result_row (r : PolicyResultSummary) : string :=
  "| " +:+ rs_policy_name r +:+ " | " +:+ fixed 4 (rs_average_score r) +:+ " | " +:+ pretty (rs_recommendation_count r) +:+ " | "
    +:+ pretty (rs_active_recommendation_count r) +:+ " | " +:+ fixed 4 (rs_stability_index r) +:+ " |" +:+ newline.
Definition workload_section (w : WorkloadResultSummary) : string :=
  "### " +:+ wr_workload_name w +:+ newline +:+ newline
    +:+ "**Winner:** `" +:+ wr_winner w +:+ "` (score: " +:+ fixed 4 (wr_winner_score w) +:+ ")" +:+ newline +:+ newline
    +:+ "| Policy | Avg Score | Recommendations | Active | Stability |" +:+ newline
    +:+ "|--------|-----------|-----------------|--------|----------|" +:+ newline
    +:+ concat_strings (result_row <$> policy_results w) +:+ newline.
Definition format_report_markdown (r : BenchmarkReport) : string :=
  let s := report_summary r in
  "# GhostPages Benchmark Report" +:+ newline +:+ newline
    +:+ "**Report ID:** `" +:+ report_id r +:+ "`" +:+ newline
    +:+ "**Timestamp:** " +:+ report_timestamp r +:+ newline +:+ newline
    +:+ "## Summary" +:+ newline +:+ newline
    +:+ "- **Total Workloads:** " +:+ pretty (bs_total_workloads s) +:+ newline
    +:+ "- **Total Policies:** " +:+ pretty (bs_total_policies s) +:+ newline
    +:+ "- **Total Rounds:** " +:+ pretty (bs_total_rounds s) +:+ newline
    +:+ "- **Best Policy:** `" +:+ best_policy s +:+ "` (score: " +:+ fixed 4 (best_policy_score s) +:+ ")" +:+ newline
    +:+ "- **Worst Policy:** `" +:+ worst_policy s +:+ "` (score: " +:+ fixed 4 (worst_policy_score s) +:+ ")" +:+ newline
    +:+ "- **Dominant Workload Class:** " +:+ dominant_workload_class s +:+ newline +:+ newline
    +:+ "## Policy Ranking" +:+ newline +:+ newline
    +:+ "| Rank | Policy | Avg Score | Wins | Win Rate |" +:+ newline
    +:+ "|------|--------|-----------|------|----------|" +:+ newline
    +:+ concat_strings (ranking_row <$> policy_ranking r) +:+ newline
    +:+ "## Per-Workload Results" +:+ newline +:+ newline
    +:+ concat_strings (workload_section <$> workload_results r).

(** *** What a report says *)

Section sorting.
Lemma string_cmp_trans x y z : string_cmp x y <> Gt -> string_cmp y z <> Gt -> string_cmp x z <> Gt.
Proof.
  unfold string_cmp. revert y z. induction x as [|a x IH]; intros [|b y] [|c z]; cbn [String.compare]; try done.
  unfold Ascii.compare. destruct (N.compare_spec (N_of_ascii a) (N_of_ascii b)), (N.compare_spec (N_of_ascii b) (N_of_ascii c)),
    (N.compare_spec (N_of_ascii a) (N_of_ascii c)); try done; try lia; try congruence. apply IH.
Qed.
Lemma string_cmp_antisym x y : string_cmp y x = CompOpp (string_cmp x y).
Proof. unfold string_cmp. apply String.compare_antisym. Qed.
Lemma string_cmp_eq x y : string_cmp x y <> Gt -> string_cmp y x <> Gt -> x = y.
Proof.
  rewrite (string_cmp_antisym x y). intros H1 H2. apply String.compare_eq_iff. unfold string_cmp in *. by destruct (String.compare x y).
Qed.
Lemma sorted_strings l : StronglySorted (fun a b => string_cmp a b <> Gt) (sort_by string_cmp l).
Proof.
  apply (sort_by_sorted _ (fun _ => True)); [|intros; by eapply string_cmp_trans|by apply Forall_true]. intros; apply string_cmp_antisym.
Qed.

Lemma dedup_cons2 a b l : dedup (a :: b :: l) = if decide (a = b) then dedup (b :: l) else a :: dedup (b :: l).
Proof. done. Qed.
Lemma elem_of_dedup x l : x ∈ dedup l <-> x ∈ l.
Proof.
  induction l as [|a [|b l] IH]; [done|done|]. rewrite dedup_cons2. case_decide as E; [subst; rewrite IH, !elem_of_cons; tauto|].
  rewrite elem_of_cons, IH, !elem_of_cons. tauto.
Qed.
Lemma dedup_nodup l : StronglySorted (fun a b => string_cmp a b <> Gt) l -> NoDup (dedup l).
Proof.
  induction l as [|a [|b l] IH]; intros Hs; [constructor|repeat constructor; by apply not_elem_of_nil|]. apply StronglySorted_inv in Hs as [Hs Ha].
  rewrite dedup_cons2. case_decide as E; [by apply IH|]. constructor; [|by apply IH]. rewrite elem_of_dedup. intros Hin.
  apply StronglySorted_inv in Hs as [_ Hb]. rewrite Forall_cons in Ha. destruct Ha as [Hab _]. rewrite Forall_forall in Hb.
  apply elem_of_cons in Hin as [->|Hin]; [done|]. apply E, string_cmp_eq; [done|by apply Hb].
Qed.
End sorting.

Lemma policy_names_nodup cs : NoDup (policy_names cs).
Proof. apply dedup_nodup, sorted_strings. Qed.
Lemma elem_of_policy_names cs x : x ∈ policy_names cs <-> x ∈ run_policy_name <$> all_runs cs.
Proof. unfold policy_names. by rewrite elem_of_dedup, sort_by_permutation. Qed.

Definition runs_named (p : string) (cs : list WorkloadComparison) : list PolicyComparisonRun :=
  filter (fun r => run_policy_name r = p) (all_runs cs).
Definition wins_named (p : string) (cs : list WorkloadComparison) : nat := length (filter (fun c => cmp_winner c = p) cs).

Lemma rank_entry_spec cs p : p ∈ policy_names cs ->
  rk_policy_name (rank_entry cs p) = p /\ rk_average_score (rank_entry cs p) = mean_of (overall <$> runs_named p cs) /\
  rk_wins (rank_entry cs p) = wins_named p cs.
Proof.
  intros Hp%elem_of_policy_names. unfold rank_entry, score_sums, win_counts. rewrite tally_spec. fold (runs_named p cs).
  pose proof (count_by_spec (fun c => Some (cmp_winner c)) cs p) as [Hw _]. rewrite Hw.
  assert (length (filter (fun c => Some (cmp_winner c) = Some p) cs) = wins_named p cs) as ->.
  { unfold wins_named. f_equal. apply list_filter_iff. intros c. split; congruence. }
  destruct (runs_named p cs) as [|r rs] eqn:E.
  - apply list_elem_of_fmap in Hp as (r & -> & Hr). exfalso. apply (not_elem_of_nil r). rewrite <- E. by apply list_elem_of_filter.
  - cbn [default from_option]. unfold mean_of. rewrite length_fmap. split_and!; try done.
Qed.

Lemma ranked_fields {B} (f : PolicyRankEntry -> B) l : (forall i e, f (set_rank i e) = f e) -> f <$> imap set_rank l = f <$> l.
Proof. intros Hf. rewrite fmap_imap, <- imap_const. apply imap_ext. intros i x _. apply Hf. Qed.

Lemma ranking_entries cs e : e ∈ ranking cs -> exists p i, p ∈ policy_names cs /\ e = set_rank i (rank_entry cs p).
Proof.
  intros [i Hi]%list_elem_of_lookup. unfold ranking in Hi. rewrite list_lookup_imap in Hi. apply fmap_Some in Hi as (x & Hx & ->).
  apply list_elem_of_lookup_2 in Hx. rewrite sort_by_permutation in Hx. apply list_elem_of_fmap in Hx as (p & -> & Hp). by exists p, i.
Qed.

Lemma ranking_names cs : rk_policy_name <$> ranking cs ≡ₚ policy_names cs.
Proof.
  unfold ranking. rewrite ranked_fields by done. rewrite sort_by_permutation. rewrite <- list_fmap_compose.
  rewrite (list_fmap_ext _ id); [by rewrite list_fmap_id|]. intros i p Hp. by apply rank_entry_spec, list_elem_of_lookup_2 with i.
Qed.

Lemma sum_indicator (x : string) l : NoDup l -> sum_list ((fun p => if decide (x = p) then 1%nat else 0%nat) <$> l) = if decide (x ∈ l) then 1%nat else 0%nat.
Proof.
  induction 1 as [|p l Hp _ IH]; [done|]. rewrite fmap_cons. cbn [sum_list_with]. rewrite IH. change (id ?x) with x.
  repeat case_decide; rewrite ?elem_of_cons in *; subst; try done; try tauto.
Qed.
Lemma wins_total cs l : NoDup l -> Forall (fun c => cmp_winner c ∈ l) cs -> sum_list ((fun p => wins_named p cs) <$> l) = length cs.
Proof.
  intros Hl. unfold wins_named. induction 1 as [|c cs Hc _ IH]; [clear Hl; induction l as [|p l IH]; [done|exact IH]|]. cbn [length]. rewrite <- IH.
  transitivity (sum_list ((fun p => if decide (cmp_winner c = p) then 1%nat else 0%nat) <$> l) +
    sum_list ((fun p => length (filter (fun c => cmp_winner c = p) cs)) <$> l))%nat.
  - clear. induction l as [|p l IH]; [done|]. rewrite !fmap_cons. cbn [sum_list_with]. rewrite IH. change (id ?x) with x.
    rewrite filter_cons. case_decide; cbn [length]; lia.
  - rewrite sum_indicator by done. by rewrite decide_True.
Qed.

Lemma ranked_names cs p : p ∈ rk_policy_name <$> ranking cs <-> runs_named p cs <> [].
Proof.
  rewrite ranking_names, elem_of_policy_names, list_elem_of_fmap. unfold runs_named. split.
  - intros (r & -> & Hr) Hnil. apply (not_elem_of_nil r). rewrite <- Hnil. by apply list_elem_of_filter.
  - intros Hne. destruct (filter _ (all_runs cs)) as [|r rs] eqn:E; [done|]. exists r.
    assert (r ∈ r :: rs) as Hr by left. rewrite <- E in Hr. apply list_elem_of_filter in Hr as [<- Hr]. done.
Qed.
Lemma ranking_spec cs : Forall (fun e => rk_average_score e = mean_of (overall <$> runs_named (rk_policy_name e) cs) /\
    rk_wins e = wins_named (rk_policy_name e) cs) (ranking cs).
Proof.
  apply Forall_forall. intros e He. apply ranking_entries in He as (p & i & Hp & ->). cbn [set_rank rk_average_score rk_wins rk_policy_name].
  by destruct (rank_entry_spec cs p Hp) as (-> & -> & ->).
Qed.
Lemma ranking_wins cs : Forall (fun c => runs_named (cmp_winner c) cs <> []) cs -> sum_list (rk_wins <$> ranking cs) = length cs.
Proof.
  intros Hw. assert (rk_wins <$> ranking cs = (fun p => wins_named p cs) <$> (rk_policy_name <$> ranking cs)) as ->.
  { rewrite <- list_fmap_compose. apply Forall_fmap_ext. eapply Forall_impl; [apply ranking_spec|]. by intros e []. }
  apply wins_total; [rewrite ranking_names; apply policy_names_nodup|]. eapply Forall_impl; [exact Hw|]. intros c Hc. by apply ranked_names.
Qed.

(** C40: The ranking of a report.  The policies that ran are listed once each, with
    ranks 1, 2, ...; a policy's score is the mean of its average scores over
    the workloads and its wins are the workloads it won; when every winner is a
    policy that ran, the wins add up to the workloads; and when the scores are
    numbers they never rise down the list. *)
Theorem report_ranks iter now secs cs :
  let l := policy_ranking (generate_report iter now secs cs) in
  NoDup (rk_policy_name <$> l) /\
  (forall p, p ∈ rk_policy_name <$> l <-> runs_named p cs <> []) /\
  rk_rank <$> l = seq 1 (length l) /\
  Forall (fun e => rk_average_score e = mean_of (overall <$> runs_named (rk_policy_name e) cs) /\
    rk_wins e = wins_named (rk_policy_name e) cs) l /\
  (Forall (fun c => runs_named (cmp_winner c) cs <> []) cs -> sum_list (rk_wins <$> l) = length cs) /\
  (Forall (fun e => is_nan (rk_average_score e) = false) l -> StronglySorted (fun x y => fle y x = true) (rk_average_score <$> l)).
Proof.
  cbn [generate_report policy_ranking].
  split_and!; [rewrite ranking_names; apply policy_names_nodup|apply ranked_names| |apply ranking_spec|apply ranking_wins|].
  - unfold ranking. rewrite length_imap, fmap_imap. rewrite (imap_ext _ (fun j _ => id (1 + j)%nat)); [|intros; cbn; lia].
    rewrite imap_seq. by rewrite list_fmap_id.
  - intros Hf. unfold ranking in *. rewrite ranked_fields by done. apply descending_sorted.
    apply (Forall_fmap rk_average_score (fun x => is_nan x = false)) in Hf. rewrite ranked_fields in Hf by done. by apply Forall_fmap in Hf; rewrite sort_by_permutation in Hf.
Qed.

Definition ex_comparisons : list WorkloadComparison :=
  (fun sc => run_workload_comparison sc [ex_policy; ex_lazy] ScoringWeights_default) <$> ex_scenarios.

Lemma report_ranks_witness : let l := policy_ranking (generate_report map_to_list "now" 0 ex_comparisons) in
  length l = 2%nat /\ sum_list (rk_wins <$> l) = 2%nat /\ StronglySorted (fun x y => fle y x = true) (rk_average_score <$> l).
Proof.
  destruct (report_ranks map_to_list "now" 0 ex_comparisons) as (_ & _ & _ & _ & Hw & Hs). cbv zeta. split_and!.
  - vm_compute. reflexivity.
  - apply Hw. apply Forall_forall. intros c Hc Hn. assert (forallb (fun c => (0 <? length (runs_named (cmp_winner c) ex_comparisons))%nat)
      ex_comparisons = true) as Hf by (vm_compute; reflexivity).
    rewrite forallb_forall in Hf. apply list_elem_of_In in Hc. apply Hf in Hc. rewrite Hn in Hc. discriminate Hc.
  - apply Hs. apply Forall_forall. intros e He. assert (forallb (fun e => negb (is_nan (rk_average_score e)))
      (policy_ranking (generate_report map_to_list "now" 0 ex_comparisons)) = true) as Hf by (vm_compute; reflexivity).
    rewrite forallb_forall in Hf. apply list_elem_of_In in He. apply Hf in He. clear -He. destruct (is_nan _); [discriminate He|reflexivity].
Defined.
End Report.
Import Report.

(** ** Leaderboards *)

Module Board.
Record LeaderboardEntry := mkEntry {
  le_policy_name : string;
  policy_version : string;
  workload_class : WorkloadClass;
  le_score : float;
  le_stability_index : float;
  le_rank : nat;
  le_timestamp : string;
}.
Record PolicyLeaderboard := mkBoard { entries : list LeaderboardEntry; version : Z; last_updated : string }.

Definition new (now : string) : PolicyLeaderboard := mkBoard [] 0 now.

Section board.
Variable b : Build.

Definition add_entry (now : string) (e : LeaderboardEntry) (l : PolicyLeaderboard) : outcome GhostError PolicyLeaderboard :=
  let? v := arith b 32 (version l + 1) in Ok (mkBoard (entries l ++ [e]) v now).

Definition top_policies (limit : nat) (l : PolicyLeaderboard) : list LeaderboardEntry := take limit (sort_by (descending le_score) (entries l)).
Definition of_class (c : WorkloadClass) (l : list LeaderboardEntry) : list LeaderboardEntry := filter (fun e => workload_class e = c) l.
Definition top_for_workload (c : WorkloadClass) (limit : nat) (l : PolicyLeaderboard) : list LeaderboardEntry :=
  take limit (sort_by (descending le_score) (of_class c (entries l))).

Definition by_timestamp (x y : LeaderboardEntry) : comparison := string_cmp (le_timestamp x) (le_timestamp y).
Definition policy_history (p : string) (l : PolicyLeaderboard) : list LeaderboardEntry :=
  sort_by by_timestamp (filter (fun e => le_policy_name e = p) (entries l)).

Definition is_improving (p : string) (l : PolicyLeaderboard) : bool :=
  let history := policy_history p l in
  let n := length history in
  if (n <? 2)%nat then false else
  let recent := Nat.min 3 n in
  let older := Nat.min 3 (n - recent) in
  if (older =? 0)%nat then false else
  fgt (mean_of (le_score <$> drop (n - recent) history)) (mean_of (le_score <$> take older history)).

Definition infer_workload_class (name : string) : WorkloadClass :=
  if Str.contains "idle" name || Str.contains "desktop" name then Desktop
  else if Str.contains "build" name then BuildSystem
  else if Str.contains "pressure" name || Str.contains "allocator" name || Str.contains "tier" name then MemoryPressure
  else if Str.contains "database" name || Str.contains "cache" name then DataSystem
  else Mixed.

(** The entry of a policy's result, before it is ranked. *)
Definition entry_of (v : Z) (ts : string) (c : WorkloadClass) (r : PolicyResultSummary) : LeaderboardEntry :=
  mkEntry (rs_policy_name r) ("v" +:+ pretty v) c (rs_average_score r) (rs_stability_index r) 0 ts.
Definition report_entries (r : BenchmarkReport) (v : Z) : list LeaderboardEntry :=
  workload_results r ≫= fun w => entry_of v (report_timestamp r) (infer_workload_class (wr_workload_name w)) <$> policy_results w.

(** [clock i] is what the clock says when the [i]-th of the entries is added. *)
Fixpoint add_entries (clock : nat -> string) (es : list LeaderboardEntry) (l : PolicyLeaderboard) : outcome GhostError PolicyLeaderboard :=
  match es with
  | [] => Ok l
  | e :: es => let? l := add_entry (clock (length (entries l))) e l in add_entries clock es l
  end.

(** The indices of the entries of a class, the highest score first.  They come
    from [enumerate], so every access by index is in range. *)
Definition score_at (es : list LeaderboardEntry) (i : nat) : float := default zero_f32 (le_score <$> es !! i).
Definition class_indices (es : list LeaderboardEntry) (c : WorkloadClass) : list nat :=
  (filter (fun x : nat * LeaderboardEntry => workload_class x.2 = c) (imap pair es)).*1.
Definition sorted_indices (es : list LeaderboardEntry) (c : WorkloadClass) : list nat :=
  sort_by (descending (score_at es)) (class_indices es c).
Definition set_rank (k : nat) (e : LeaderboardEntry) : LeaderboardEntry :=
  mkEntry (le_policy_name e) (policy_version e) (workload_class e) (le_score e) (le_stability_index e) k (le_timestamp e).
Fixpoint assign_ranks (k : nat) (is_ : list nat) (es : list LeaderboardEntry) : list LeaderboardEntry :=
  match is_ with [] => es | i :: is_ => assign_ranks (k + 1) is_ (alter (set_rank (k + 1)) i es) end.
Definition rank_class (es : list LeaderboardEntry) (c : WorkloadClass) : list LeaderboardEntry := assign_ranks 0 (sorted_indices es c) es.

(** The iteration order of the set of classes. *)
Variable iter : list WorkloadClass -> list WorkloadClass.

Definition from_report (now : string) (clock : nat -> string) (r : BenchmarkReport) (v : Z) : outcome GhostError PolicyLeaderboard :=
  let l := mkBoard (entries (new now)) v (report_timestamp r) in
  let? l := add_entries clock (report_entries r v) l in
  Ok (mkBoard (fold_left rank_class (iter (workload_class <$> entries l)) (entries l)) (version l) (last_updated l)).
End board.

(** *** Ranks *)

(** Entries that differ in their ranks only. *)
Definition unranked (es : list LeaderboardEntry) : list LeaderboardEntry := set_rank 0 <$> es.
Definition blank : LeaderboardEntry := mkEntry EmptyString EmptyString Mixed zero_f32 zero_f32 0 EmptyString.
Definition entry_at (es : list LeaderboardEntry) (i : nat) : LeaderboardEntry := default blank (es !! i).

Lemma assign_ranks_other is_ k es i : i ∉ is_ -> assign_ranks k is_ es !! i = es !! i.
Proof.
  revert k es. induction is_ as [|j is_ IH]; intros k es Hi; [done|]. apply not_elem_of_cons in Hi as [Hj Hi]. cbn [assign_ranks].
  rewrite IH by done. by apply list_lookup_alter_ne.
Qed.
Lemma assign_ranks_at is_ k es j i : NoDup is_ -> is_ !! j = Some i -> assign_ranks k is_ es !! i = set_rank (k + 1 + j) <$> es !! i.
Proof.
  revert k es j. induction is_ as [|i0 is_ IH]; intros k es j Hn Hj; [done|]. apply NoDup_cons in Hn as [Hi Hn]. cbn [assign_ranks].
  destruct j as [|j]; cbn in Hj.
  - injection Hj as ->. rewrite assign_ranks_other by done. rewrite list_lookup_alter_eq, Nat.add_0_r. done.
  - rewrite (IH _ _ j) by done. rewrite list_lookup_alter_ne; [f_equal; f_equal; lia|]. intros ->. apply Hi. by apply list_elem_of_lookup_2 in Hj.
Qed.
Lemma assign_ranks_unranked is_ k es : unranked (assign_ranks k is_ es) = unranked es.
Proof.
  revert k es. induction is_ as [|i is_ IH]; intros k es; [done|]. cbn [assign_ranks]. rewrite IH. unfold unranked. apply list_eq. intros j.
  rewrite !list_lookup_fmap. destruct (decide (i = j)) as [->|Hne]; [rewrite list_lookup_alter_eq; by destruct (es !! j)|by rewrite list_lookup_alter_ne].
Qed.

(** What depends on the scores and classes only. *)
Lemma unranked_field {B} (f : LeaderboardEntry -> B) es es' i : (forall k e, f (set_rank k e) = f e) ->
  unranked es = unranked es' -> f <$> es !! i = f <$> es' !! i.
Proof.
  intros Hf He. apply (f_equal (fun l => f <$> l !! i)) in He. unfold unranked in He. rewrite !list_lookup_fmap in He.
  destruct (es !! i), (es' !! i); cbn in He |- *; rewrite ?Hf in He; congruence.
Qed.

Lemma elem_of_class_indices es c i : i ∈ class_indices es c <-> workload_class <$> es !! i = Some c.
Proof.
  unfold class_indices. rewrite list_elem_of_fmap. split.
  - intros ([j e] & -> & [Hc Hin]%list_elem_of_filter). apply list_elem_of_lookup in Hin as [k Hk]. rewrite list_lookup_imap in Hk.
    destruct (es !! k) eqn:E; [|done]. injection Hk as <- <-. cbn in *. rewrite E. cbn. congruence.
  - intros (e & He & Hc)%fmap_Some. exists (i, e). split; [done|]. apply list_elem_of_filter. split; [done|]. apply list_elem_of_lookup. exists i.
    by rewrite list_lookup_imap, He.
Qed.

Definition indices_from (k : nat) (es : list LeaderboardEntry) (c : WorkloadClass) : list nat :=
  (filter (fun x : nat * LeaderboardEntry => workload_class x.2 = c) (imap (fun i e => (k + i, e)%nat) es)).*1.
Lemma indices_from_cons k e es c :
  indices_from k (e :: es) c = if decide (workload_class e = c) then k :: indices_from (S k) es c else indices_from (S k) es c.
Proof.
  unfold indices_from. cbn [imap]. rewrite (imap_ext (_ ∘ S) (fun i e => (S k + i, e)%nat)) by (intros; cbn; f_equal; lia).
  rewrite filter_cons, Nat.add_0_r. cbn [snd]. by case_decide.
Qed.
Lemma indices_from_spec es c k g : (forall i, (i < length es)%nat -> g (k + i)%nat = entry_at es i) ->
  NoDup (indices_from k es c) /\ g <$> indices_from k es c = of_class c es /\ Forall (fun i => (k <= i)%nat) (indices_from k es c).
Proof.
  revert k. induction es as [|e es IH]; intros k Hg; [split_and!; constructor|]. rewrite indices_from_cons. unfold of_class in *. rewrite filter_cons.
  destruct (IH (S k)) as (H1 & H2 & H3).
  { intros i Hi. specialize (Hg (S i)). rewrite Nat.add_succ_r in Hg. cbn [length] in Hg. rewrite Nat.add_succ_l, Hg by lia. done. }
  assert (g k = e) as Hk by (specialize (Hg 0%nat); rewrite Nat.add_0_r in Hg; rewrite Hg; [done|cbn; lia]).
  assert (Forall (fun i => (k <= i)%nat) (indices_from (S k) es c)) as H4 by (eapply Forall_impl; [exact H3|]; intros; cbn in *; lia).
  case_decide; [|done]. split_and!.
  - constructor; [|done]. rewrite Forall_forall in H3. intros Hin%H3. lia.
  - cbn [fmap list_fmap]. f_equal; done.
  - by constructor.
Qed.
Lemma class_indices_spec es c : NoDup (class_indices es c) /\ entry_at es <$> class_indices es c = of_class c es.
Proof. destruct (indices_from_spec es c 0 (entry_at es)) as (H1 & H2 & _); done. Qed.

Lemma indices_from_unranked es c k : indices_from k (unranked es) c = indices_from k es c.
Proof.
  revert k. induction es as [|e es IH]; intros k; [done|]. unfold unranked in *. rewrite fmap_cons, !indices_from_cons. cbn [set_rank workload_class].
  by rewrite IH.
Qed.
Lemma sorted_indices_unranked es es' c : unranked es = unranked es' -> sorted_indices es c = sorted_indices es' c.
Proof.
  intros He. unfold sorted_indices. assert (class_indices es c = class_indices es' c) as ->.
  { change (indices_from 0 es c = indices_from 0 es' c). by rewrite <- indices_from_unranked, He, indices_from_unranked. }
  rewrite <- (list_fmap_id (sort_by _ _)). rewrite (sort_by_fmap id _ (descending (score_at es'))); [by rewrite list_fmap_id|].
  intros x y. unfold descending, score_at, id. by rewrite !(unranked_field le_score es es').
Qed.
Lemma sorted_indices_spec es c : NoDup (sorted_indices es c) /\ (forall i, i ∈ sorted_indices es c <-> workload_class <$> es !! i = Some c) /\
  entry_at es <$> sorted_indices es c = sort_by (descending le_score) (of_class c es).
Proof.
  unfold sorted_indices. destruct (class_indices_spec es c) as [Hn He]. split_and!.
  - by rewrite sort_by_permutation.
  - intros i. rewrite sort_by_permutation. apply elem_of_class_indices.
  - rewrite <- He. apply sort_by_fmap. intros x y. unfold descending, score_at, entry_at. by destruct (es !! x), (es !! y).
Qed.

(** The entries of class [c] are ranked by their scores. *)
Definition ranked (es : list LeaderboardEntry) (c : WorkloadClass) : Prop :=
  forall j i, sorted_indices es c !! j = Some i -> le_rank (entry_at es i) = S j.

Lemma rank_class_ranked es c : ranked (rank_class es c) c /\ unranked (rank_class es c) = unranked es /\
  (forall c', c' <> c -> ranked es c' -> ranked (rank_class es c) c').
Proof.
  unfold rank_class. pose proof (assign_ranks_unranked (sorted_indices es c) 0 es) as Hu. destruct (sorted_indices_spec es c) as (Hn & Hel & _).
  split_and!; [|done|].
  - intros j i. rewrite (sorted_indices_unranked _ es) by done. intros Hj. unfold entry_at. rewrite (assign_ranks_at _ _ _ j) by done.
    assert (is_Some (es !! i)) as [e ->] by (apply list_elem_of_lookup_2 in Hj; apply Hel, fmap_Some in Hj as (e & ? & _); by exists e). done.
  - intros c' Hne Hr j i. rewrite (sorted_indices_unranked _ es) by done. intros Hj. unfold entry_at. rewrite assign_ranks_other; [by apply Hr|].
    rewrite Hel. apply list_elem_of_lookup_2 in Hj. apply sorted_indices_spec in Hj. rewrite Hj. congruence.
Qed.
Lemma rank_classes_ranked cs es : NoDup cs -> let es' := fold_left rank_class cs es in
  unranked es' = unranked es /\ (forall c, c ∈ cs \/ ranked es c -> ranked es' c).
Proof.
  intros Hn. revert es. induction Hn as [|c cs Hc _ IH]; intros es; [split; [done|]; intros c [Hc|]; [by apply elem_of_nil in Hc|done]|].
  cbn [fold_left]. destruct (IH (rank_class es c)) as [Hu Hr], (rank_class_ranked es c) as (H1 & H2 & H3). split; [by rewrite Hu|].
  intros c' H'. apply Hr. destruct (decide (c' = c)) as [->|Hne]; [by right|]. destruct H' as [[?|?]%elem_of_cons|?]; [done|by left|right; by apply H3].
Qed.

Lemma ranked_top es c n : ranked es c ->
  le_rank <$> take n (sort_by (descending le_score) (of_class c es)) = seq 1 (Nat.min n (length (of_class c es))).
Proof.
  intros Hr. destruct (sorted_indices_spec es c) as (_ & _ & He). rewrite <- He, fmap_take, <- list_fmap_compose.
  assert (length (of_class c es) = length (sorted_indices es c)) as ->.
  { rewrite <- (length_fmap (entry_at es)), He. apply Permutation_length. symmetry. apply sort_by_permutation. }
  assert (le_rank ∘ entry_at es <$> sorted_indices es c = seq 1 (length (sorted_indices es c))) as ->; [|by rewrite take_seq].
  apply list_eq. intros j. rewrite list_lookup_fmap. destruct (sorted_indices es c !! j) as [i|] eqn:Hj; cbn [fmap option_fmap option_map].
  - rewrite lookup_seq_lt by (by apply lookup_lt_Some in Hj). cbn [compose]. by rewrite (Hr j i Hj).
  - symmetry. apply lookup_seq_ge. by apply lookup_ge_None in Hj.
Qed.

Lemma add_entries_ok b clock es l : in_u 32 (version l) -> version l + Z.of_nat (length es) < 2 ^ 32 ->
  add_entries b clock es l = Ok (mkBoard (entries l ++ es) (version l + Z.of_nat (length es))
    (match es with [] => last_updated l | _ => clock (length (entries l) + length es - 1)%nat end)).
Proof.
  revert l. induction es as [|e es IH]; intros l [H0 H1] Hb; cbn [add_entries length].
  - rewrite app_nil_r, Z.add_0_r. by destruct l.
  - cbn [length] in Hb. unfold add_entry. rewrite arith_in by (split; lia). cbn [obind]. rewrite IH; cbn [version entries last_updated]; [|split; lia|lia].
    f_equal. rewrite <- app_assoc, length_app. cbn [app length]. f_equal; [lia|]. destruct es; f_equal; cbn [length]; lia.
Qed.

Section ranks.
Variable iter : list WorkloadClass -> list WorkloadClass.
Hypothesis iter_nodup : forall l, NoDup (iter l).
Hypothesis iter_elem : forall l c, c ∈ iter l <-> c ∈ l.

(** A leaderboard made from a report.  It has one entry for each result of the
    report, and for every class of workload the best entries come in the order
    of their ranks, 1, 2, ..., whatever order the set of classes is iterated
    in.  Its version is not the one asked for but that plus the number of
    entries, and its date not the report's but that of the last entry added. *)
Theorem leaderboard_from_report b now clock r v : let es := report_entries r v in
  in_u 32 v -> v + Z.of_nat (length es) < 2 ^ 32 ->
  exists l, from_report b iter now clock r v = Ok l /\ unranked (entries l) = es /\
    (forall c n, le_rank <$> top_for_workload c n l = seq 1 (Nat.min n (length (of_class c (entries l))))) /\
    version l = v + Z.of_nat (length es) /\
    last_updated l = match es with [] => report_timestamp r | _ => clock (length es - 1)%nat end.
Proof using iter_nodup iter_elem.
  intros es Hv Hb. unfold from_report. fold es. rewrite add_entries_ok by done. cbn [obind entries version last_updated new app length Nat.add].
  eexists. split; [done|]. cbn [entries version last_updated]. destruct (rank_classes_ranked (iter (workload_class <$> es)) es (iter_nodup _)) as [Hu Hr].
  assert (unranked es = es) as He.
  { unfold es, unranked, report_entries. induction (workload_results r) as [|w l IH]; [done|]. rewrite bind_cons, fmap_app, IH, <- list_fmap_compose. done. }
  split_and!; [by rewrite Hu| |done|done]. intros c n. unfold top_for_workload. cbn [entries]. apply ranked_top, Hr.
  destruct (decide (c ∈ workload_class <$> es)) as [Hc|Hc]; [left; by apply iter_elem|right]. intros j i Hj.
  apply list_elem_of_lookup_2, sorted_indices_spec, fmap_Some in Hj as (e & Hi & ->). destruct Hc. apply list_elem_of_fmap_2. by apply list_elem_of_lookup_2 in Hi.
Qed.
End ranks.

Definition ex_report : BenchmarkReport := generate_report map_to_list "now" 0 ex_comparisons.

Lemma leaderboard_from_report_witness : exists l, from_report Debug (fun l => nodup WorkloadClass_eq_dec l) "now" (fun _ => "later") ex_report 3 = Ok l /\
  version l = 7 /\ last_updated l = "later" /\ (forall n, le_rank <$> top_for_workload Mixed n l = seq 1 (Nat.min n (length (of_class Mixed (entries l))))).
Proof.
  destruct (leaderboard_from_report (fun l => nodup WorkloadClass_eq_dec l)) with (b := Debug) (now := "now") (clock := fun _ : nat => "later") (r := ex_report) (v := 3)
    as (l & E & Hu & Ht & Hv & Hd).
  - intros l. apply NoDup_ListNoDup, List.NoDup_nodup.
  - intros l c. rewrite !list_elem_of_In. apply List.nodup_In.
  - split; vm_compute; congruence.
  - vm_compute. reflexivity.
  - exists l. split; [exact E|]. split; [rewrite Hv; vm_compute; reflexivity|]. split; [exact Hd|exact (Ht Mixed)].
Defined.
End Board.

(** ** The runner *)

Module Runner.
Record BenchmarkRunner := mkRunner { generator_seed : Z; runner_policies : list ArenaPolicy; runner_weights : ScoringWeights }.
Definition new (seed : Z) : BenchmarkRunner := mkRunner seed [] ScoringWeights_default.
Definition with_policies (ps : list ArenaPolicy) (r : BenchmarkRunner) : BenchmarkRunner := mkRunner (generator_seed r) ps (runner_weights r).
Definition with_weights (w : ScoringWeights) (r : BenchmarkRunner) : BenchmarkRunner := mkRunner (generator_seed r) (runner_policies r) w.

Section runner.
Variable b : Build.
Variable iter : gmap string (list float) -> list (string * list float).

Definition run_workload (r : BenchmarkRunner) (d : WorkloadDefinition) : outcome GhostError WorkloadComparison :=
  let? sc := Workload.generate b (generator_seed r) d in
  Ok (run_workload_comparison sc (runner_policies r) (runner_weights r)).

Fixpoint each {A B} (f : A -> outcome GhostError B) (l : list A) : outcome GhostError (list B) :=
  match l with [] => Ok [] | x :: l => let? y := f x in let? ys := each f l in Ok (y :: ys) end.

Definition run_workloads (now : string) (secs : Z) (r : BenchmarkRunner) (ds : list WorkloadDefinition) : outcome GhostError BenchmarkReport :=
  let? cs := each (run_workload r) ds in Ok (generate_report iter now secs cs).
Definition run_all_builtin (now : string) (secs : Z) (r : BenchmarkRunner) : outcome GhostError BenchmarkReport :=
  run_workloads now secs r all_builtin_workloads.

Definition run_experiment (r : BenchmarkRunner) (e : Experiment.PolicyExperiment) : outcome GhostError Experiment.PolicyExperiment :=
  let? scs := each (Workload.generate b (generator_seed r)) all_builtin_workloads in
  match runner_policies r with [] => Ok e | p :: _ => Ok (Experiment.run_experiment e scs p) end.
End runner.

Lemma each_ok {A B} (f : A -> outcome GhostError B) g l : Forall (fun x => f x = Ok (g x)) l -> each f l = Ok (g <$> l).
Proof. induction 1 as [|x l Hx _ IH]; [done|]. cbn [each]. by rewrite Hx, IH. Qed.

Lemma builtin_fit : Forall fits all_builtin_workloads.
Proof. repeat constructor; vm_compute; congruence. Qed.

Definition builtin_comparisons (seed : Z) (ps : list ArenaPolicy) : list WorkloadComparison :=
  (fun d => run_workload_comparison (scenario_of seed d) ps ScoringWeights_default) <$> all_builtin_workloads.

Lemma run_all_builtin_value b iter now secs r :
  run_all_builtin b iter now secs r = Ok (generate_report iter now secs (builtin_comparisons (generator_seed r) (runner_policies r))).
Proof.
  unfold run_all_builtin, run_workloads.
  rewrite (each_ok _ (fun d => run_workload_comparison (scenario_of (generator_seed r) d) (runner_policies r) (runner_weights r))); [done|].
  eapply Forall_impl; [exact builtin_fit|]. intros d Hd. unfold run_workload. by rewrite generate_fits.
Qed.

Lemma comparison_names sc ps w : run_policy_name <$> runs (run_workload_comparison sc ps w) = policy_name <$> ps.
Proof. unfold run_workload_comparison. cbn [runs]. by rewrite <- list_fmap_compose. Qed.

Lemma builtin_runs_named seed ps p : runs_named p (builtin_comparisons seed ps) <> [] <-> p ∈ policy_name <$> ps.
Proof.
  rewrite <- ranked_names, ranking_names, elem_of_policy_names. unfold all_runs, builtin_comparisons. rewrite list_elem_of_fmap. split.
  - intros (r & -> & (c & Hr & Hc)%list_elem_of_bind). apply list_elem_of_fmap in Hc as (d & -> & _).
    rewrite <- (comparison_names (scenario_of seed d) ps ScoringWeights_default). by apply list_elem_of_fmap_2.
  - rewrite <- (comparison_names (scenario_of seed idle_desktop) ps ScoringWeights_default). intros (r & -> & Hr)%list_elem_of_fmap.
    exists r. split; [done|]. apply list_elem_of_bind. eexists. split; [exact Hr|]. apply list_elem_of_fmap. exists idle_desktop. split; [done|left].
Qed.

(** A run of the built-in workloads.  With at least one policy it returns a
    report of the seven workloads in their order, each with a result of every
    policy in their order and a winner among them; the ranking is of exactly
    the policies' names and its wins add up to seven; and the weights the
    runner was given do not change any of it. *)
Theorem builtin_report b iter now secs r : runner_policies r <> [] ->
  let ps := policy_name <$> runner_policies r in
  exists rep, run_all_builtin b iter now secs r = Ok rep /\
    wr_workload_name <$> workload_results rep = wd_name <$> all_builtin_workloads /\
    Forall (fun w => rs_policy_name <$> policy_results w = ps /\ wr_winner w ∈ ps) (workload_results rep) /\
    (forall p, p ∈ rk_policy_name <$> policy_ranking rep <-> p ∈ ps) /\
    sum_list (rk_wins <$> policy_ranking rep) = 7%nat /\
    bs_total_rounds (report_summary rep) = (7 * length ps)%nat /\
    forall w, run_all_builtin b iter now secs (with_weights w r) = Ok rep.
Proof.
  intros Hp ps. rewrite run_all_builtin_value. eexists. split; [done|]. set (cs := builtin_comparisons _ _).
  assert (Forall (fun c => run_policy_name <$> runs c = ps /\ cmp_winner c ∈ ps) cs) as Hc.
  { apply Forall_fmap, Forall_true. intros d. cbn [compose]. split; [apply comparison_names|].
    unfold ps. rewrite <- (comparison_names (scenario_of (generator_seed r) d) _ ScoringWeights_default). by apply winner_ran. }
  cbn [generate_report workload_results policy_ranking report_summary bs_total_rounds]. split_and!.
  - unfold cs, builtin_comparisons. by rewrite <- !list_fmap_compose.
  - apply Forall_fmap. eapply Forall_impl; [exact Hc|]. intros c [H1 H2]. cbn [compose workload_result policy_results wr_winner].
    rewrite <- list_fmap_compose. split; [exact H1|exact H2].
  - intros p. rewrite ranked_names. apply builtin_runs_named.
  - apply (ranking_wins cs). eapply Forall_impl; [exact Hc|]. intros c [_ Hw]. by apply builtin_runs_named.
  - assert (forall l : list WorkloadComparison, Forall (fun c => run_policy_name <$> runs c = ps /\ cmp_winner c ∈ ps) l ->
      sum_list (length ∘ runs <$> l) = (length l * length ps)%nat) as Hs; [|by rewrite Hs].
    induction 1 as [|c l [Hn _] _ IH]; [done|]. rewrite fmap_cons. cbn [sum_list_with length]. rewrite IH. change (id ?x) with x. cbn [compose].
    rewrite <- (length_fmap run_policy_name), Hn. lia.
  - intros w. by rewrite run_all_builtin_value.
Qed.

Lemma builtin_report_witness : exists rep,
  run_all_builtin Debug map_to_list "now" 0 (with_policies [ex_policy; ex_lazy] (new 42)) = Ok rep /\
  sum_list (rk_wins <$> policy_ranking rep) = 7%nat /\ bs_total_rounds (report_summary rep) = 14%nat.
Proof.
  destruct (builtin_report Debug map_to_list "now" 0 (with_policies [ex_policy; ex_lazy] (new 42))) as (rep & E & _ & _ & _ & Hw & Hr & _);
    [discriminate|]. exists rep. split; [exact E|]. split; [exact Hw|exact Hr].
Defined.
End Runner.
