(* ===== verification/Cli.v ===== *)
(** * The command line against the daemon: [ghost-cli/src/main.rs]

    Arguments are parsed into identifiers and tiers, a request goes through the
    client ([Ipc.v]), and the answer is printed.  A command prints lines, exits
    with a failure, or stops with an error, of which the context is kept.
    Reading a file is an argument, a file written is part of the result.  The
    [hex] crate is the interface [HexCrate]; the debug output of a value is a
    parameter. *)

From Stdlib Require Import ZArith Lia SpecFloat Ascii.
From Stdlib Require Strings.Byte.
From stdpp Require Import base strings pretty list.
From S2P Require Import Prelude Floats LinuxSources CoreTypes ChunkState Pressure Trace Frame Ipc.

Open Scope rust_scope.

(** ** Arguments *)

(** What is relied on of [hex::decode]: it inverts [hex::encode], and what it
    decodes has two digits for a byte. *)
Class HexCrate := {
  hex_decode : string -> option (list byte);
  hex_decode_encode : forall l, hex_decode (hex_encode l) = Some l;
  hex_decode_length : forall s l, hex_decode s = Some l -> String.length s = (2 * length l)%nat;
}.

Definition parse_chunk_id `{HexCrate} (s : string) : outcome string ChunkId :=
  let? bytes := ok_or "invalid hex string for chunk ID" (hex_decode s) in
  if negb (length bytes =? 32)%nat
  then Err ("chunk ID must be 32 bytes (64 hex chars), got " +:+ pretty (length bytes) +:+ " bytes")
  else Ok (mkChunkId bytes).

Definition parse_tier (s : string) : outcome string TierId :=
  let l := Str.to_lowercase s in
  if decide (l = "ram") then Ok Ram
  else if decide (l ∈ ["gpu"; "vram"; "gpuvram"]) then Ok GpuVram
  else if decide (l ∈ ["disk"; "ssd"; "nvme"]) then Ok Disk
  else if decide (l ∈ ["sim"; "simulation"]) then Ok Simulation
  else Err ("unknown tier '" +:+ l +:+ "'. Valid tiers: ram, gpu, disk, sim").

(** [tier.map(|t| parse_tier(&t)).transpose()?] *)
Definition parse_tier_option (o : option string) : outcome string (option TierId) :=
  match o with None => Ok None | Some s => let? t := parse_tier s in Ok (Some t) end.

(** ** Output *)

(** [Display] of a chunk's identifier *)
Definition chunk_display (c : ChunkId) : string := short_hex c.

Definition print_chunk_meta (m : ChunkMeta) : list string :=
  ["Chunk ID:      " +:+ chunk_display (meta_id m);
   "Size:          " +:+ pretty (meta_size m) +:+ " bytes";
   "Compressed:    " +:+ pretty (compressed_size m) +:+ " bytes";
   "Tier:          " +:+ tier_display (meta_tier m);
   "State:         " +:+ state_display (meta_state m);
   "Compression:   " +:+ compression_display (meta_compression m);
   "Access count:  " +:+ pretty (access_count m);
   "Created at:    " +:+ pretty (created_at m);
   "Last accessed: " +:+ pretty (last_accessed m)].

Definition print_tier_info (i : TierInfo) : string :=
  let used_pct :=
    if 0 <? capacity_bytes i then fmul f64 (fdiv f64 (of_int f64 (used_bytes i)) (of_int f64 (capacity_bytes i))) (of_int f64 100) else of_int f64 0 in
  "  " +:+ tier_display (ti_tier i) +:+ ": " +:+ pretty (used_bytes i) +:+ " / " +:+ pretty (capacity_bytes i) +:+ " bytes (" +:+ fixed 1 used_pct
    +:+ "%) — " +:+ pretty (chunk_count i) +:+ " chunks".
Definition print_status (s : StatusResponse) : list string :=
  ["=== GhostPages Daemon Status ===";
   "Uptime:        " +:+ pretty (sr_uptime_secs s) +:+ "s";
   "Total chunks:  " +:+ pretty (sr_chunks_total s);
   "Queue depth:   " +:+ pretty (sr_queue_depth s);
   "Active workers:" +:+ pretty (sr_active_workers s); EmptyString; "Tiers:"] ++ (print_tier_info <$> sr_tiers s).

Definition print_pressure (p : PressureState) : list string :=
  ["=== GhostPages Pressure State ===";
   "Memory:  " +:+ fixed 2 (memory_pressure p); "VRAM:    " +:+ fixed 2 (vram_pressure p); "I/O:     " +:+ fixed 2 (io_pressure p);
   "Queue:   " +:+ pretty (queue_depth p); "Throughput: " +:+ pretty (throughput_bps p) +:+ " B/s";
   if is_critical p then "Status:  CRITICAL" else if is_under_pressure p then "Status:  UNDER PRESSURE" else "Status:  Normal"].

Section trace_event.
(** [{:?}] of an event and of a priority. *)
Context (event_debug : Tr.TraceEvent -> string) (priority_debug : TransferPriority -> string).

Definition print_trace_event (e : Tr.TraceEvent) : string :=
  let head := "  [" +:+ pretty (Tr.timestamp e) +:+ "] " +:+ Tr.event_type e in
  let chunk := " chunk=" +:+ default EmptyString (chunk_display <$> Tr.trace_chunk_id e) in
  match e with
  | Tr.ChunkCreated _ size tier _ => head +:+ chunk +:+ " size=" +:+ pretty size +:+ " tier=" +:+ tier_display tier
  | Tr.ChunkStateChanged _ from to _ => head +:+ chunk +:+ " from=" +:+ state_display from +:+ " to=" +:+ state_display to
  | Tr.TransferStarted j _ =>
      head +:+ chunk +:+ " from=" +:+ tier_display (from_tier j) +:+ " to=" +:+ tier_display (to_tier j) +:+ " priority=" +:+ priority_debug (job_priority j)
  | Tr.TransferCompleted _ from to _ d _ =>
      head +:+ chunk +:+ " from=" +:+ tier_display from +:+ " to=" +:+ tier_display to +:+ " duration=" +:+ pretty d +:+ "ms"
  | Tr.TransferFailed _ _ _ error _ _ => head +:+ chunk +:+ " error=" +:+ error
  | Tr.PressureSample p _ =>
      head +:+ " mem=" +:+ fixed 2 (memory_pressure p) +:+ " vram=" +:+ fixed 2 (vram_pressure p) +:+ " io=" +:+ fixed 2 (io_pressure p)
  | Tr.Eviction _ tier reason _ => head +:+ chunk +:+ " tier=" +:+ tier_display tier +:+ " reason=" +:+ eviction_reason_display reason
  | _ => head +:+ " " +:+ event_debug e
  end.
End trace_event.

(** ** Commands *)

Inductive Command :=
  | Store (file : option (list byte)) (tier : option string)
  | Retrieve (chunk_id : string) (file : string)
  | Delete (chunk_id : string)
  | Migrate (chunk_id from to : string)
  | Info (chunk_id : string)
  | List_ (tier : option string)
  | Status
  | Pressure_
  | Trace_ (count : option Z)
  | PressureCheck
  | Shutdown
  | Ping
  | Diagnostics_
  | Queue_
  | Migration_
  | Allocator
  | Backends
  | ReplayStatus.

(** How a command ends: it has printed lines, and perhaps written a file; it
    exits with status 1 after lines on the error output. *)
Inductive Ended :=
  | Printed (out : list string)
  | Saved (file : string) (data : list byte) (out : list string)
  | Exited (err : list string).

Section commands.
Context `{HexCrate} `{J : IpcJson} {Peer : Type} (peer_acts : Client Peer -> Client Peer) (late : bool) (read_at : Z).
Context (event_debug : Tr.TraceEvent -> string) (priority_debug : TransferPriority -> string) (response_debug : IpcResponse -> string).
(** [serde_json]: the diagnostics text, printed with indentation. *)
Context (pretty_json : string -> option string).
(** Whether the file a chunk is written to can be written. *)
Context (can_write : string -> bool).

Local Abbreviation CmdM := (M (Client Peer) string).

(** [.context(c)] *)
Definition context {A} (c : string) (m : M (Client Peer) GhostError A) : CmdM A := fun s => let '(r, s) := m s in (map_err (fun _ => c) r, s).

(** A request sent directly: its answer, an error answer, or another one. *)
Definition ask (c : string) (q : IpcRequest) (show : IpcResponse -> option (outcome string (list string))) : CmdM Ended :=
  r <- context c (send_request peer_acts late read_at q) ;;
  match show r with
  | Some lines => out <- lift lines ;; ret (Printed out)
  | None =>
      ret (Exited [match r with
                   | RError code message => "Error (" +:+ code_debug code +:+ "): " +:+ message
                   | other => "Unexpected response: " +:+ response_debug other
                   end])
  end.

Definition list_line (x : ChunkId * ChunkMeta) : string :=
  "  " +:+ chunk_display x.1 +:+ "  size=" +:+ pretty (meta_size x.2) +:+ "  tier=" +:+ tier_display (meta_tier x.2) +:+ "  state="
    +:+ state_display (meta_state x.2).
Definition backend_line (t : BackendHealthInfo) : string :=
  "  " +:+ tier_display (bh_tier t) +:+ ": health=" +:+ bh_health t +:+ ", successes=" +:+ pretty (health_check_successes t) +:+ ", failures="
    +:+ pretty (health_check_failures t) +:+ ", consecutive_failures=" +:+ pretty (bh_consecutive_failures t).

Definition pressure_check_lines (r : IpcResponse) : option (outcome string (list string)) :=
  match r with
        | RPressureCheck n => Some (Ok ["Pressure check: " +:+ pretty n +:+ " migration jobs created"]) | _ => None end.
Definition diagnostics_lines (r : IpcResponse) : option (outcome string (list string)) :=
  match r with
        | RDiagnostics j => Some (let? t := ok_or "failed to parse diagnostics JSON" (pretty_json j) in Ok [t]) | _ => None end.
Definition queue_lines (r : IpcResponse) : option (outcome string (list string)) :=
  match r with
        | RQueueStatus depth capacity is_full submitted dequeued => Some (Ok
            ["=== Queue Status ==="; "Depth: " +:+ pretty depth +:+ "/" +:+ pretty capacity; "Full: " +:+ (if is_full then "true" else "false");
             "Total submitted: " +:+ pretty submitted; "Total dequeued: " +:+ pretty dequeued])
        | _ => None end.
Definition migration_lines (r : IpcResponse) : option (outcome string (list string)) :=
  match r with
        | RMigrationStatus active promotions evictions failures bytes => Some (Ok
            ["=== Migration Status ==="; "Active migrations: " +:+ pretty active; "Total promotions: " +:+ pretty promotions;
             "Total evictions: " +:+ pretty evictions; "Total failures: " +:+ pretty failures; "Total bytes migrated: " +:+ pretty bytes])
        | _ => None end.
Definition allocator_lines (r : IpcResponse) : option (outcome string (list string)) :=
  match r with
        | RAllocatorStatus allocated peak allocations deallocations active => Some (Ok
            ["=== Allocator Status ==="; "Allocated bytes: " +:+ pretty allocated; "Peak allocated bytes: " +:+ pretty peak;
             "Total allocations: " +:+ pretty allocations; "Total deallocations: " +:+ pretty deallocations; "Active allocations: " +:+ pretty active])
        | _ => None end.
Definition backends_lines (r : IpcResponse) : option (outcome string (list string)) :=
  match r with
        | RBackendStatus tiers => Some (Ok ("=== Backend Health ===" :: match tiers with [] => ["No backends registered."] | _ => backend_line <$> tiers end))
        | _ => None end.
Definition replay_status_lines (r : IpcResponse) : option (outcome string (list string)) :=
  match r with
        | RReplayStatus ops events errors active => Some (Ok
            ["=== Replay Status ==="; "Total replay operations: " +:+ pretty ops; "Total events replayed: " +:+ pretty events;
             "Total validation errors: " +:+ pretty errors; "Active replays: " +:+ pretty active])
        | _ => None end.

Definition run_command (cmd : Command) : CmdM Ended :=
  match cmd with
  | Store file tier =>
      data <- lift (ok_or "failed to read file" file) ;;
      tier <- lift (parse_tier_option tier) ;;
      id <- context "store request failed" (client_store peer_acts late read_at data tier) ;;
      ret (Printed ["Stored chunk: " +:+ chunk_display id])
  | Retrieve chunk_id file =>
      id <- lift (parse_chunk_id chunk_id) ;;
      data <- context "retrieve request failed" (client_retrieve peer_acts late read_at id) ;;
      if can_write file then ret (Saved file data ["Retrieved " +:+ pretty (length data) +:+ " bytes to " +:+ file])
      else throw ("failed to write file: " +:+ file)
  | Delete chunk_id =>
      id <- lift (parse_chunk_id chunk_id) ;;
      context "delete request failed" (client_delete peer_acts late read_at id) ;;;
      ret (Printed ["Deleted chunk " +:+ chunk_id])
  | Migrate chunk_id from to =>
      id <- lift (parse_chunk_id chunk_id) ;;
      from <- lift (parse_tier from) ;;
      to <- lift (parse_tier to) ;;
      context "migrate request failed" (client_migrate peer_acts late read_at id from to) ;;;
      ret (Printed ["Migrating chunk " +:+ chunk_id +:+ " from " +:+ tier_display from +:+ " to " +:+ tier_display to])
  | Info chunk_id =>
      id <- lift (parse_chunk_id chunk_id) ;;
      m <- context "info request failed" (client_info peer_acts late read_at id) ;;
      ret (Printed (print_chunk_meta m))
  | List_ tier =>
      tier <- lift (parse_tier_option tier) ;;
      l <- context "list request failed" (client_list peer_acts late read_at tier) ;;
      ret (Printed match l with [] => ["No chunks found."] | _ => ("Found " +:+ pretty (length l) +:+ " chunks:") :: (list_line <$> l) end)
  | Status => s <- context "status request failed" (client_status peer_acts late read_at) ;; ret (Printed (print_status s))
  | Pressure_ => p <- context "pressure request failed" (client_pressure peer_acts late read_at) ;; ret (Printed (print_pressure p))
  | Trace_ count =>
      l <- context "trace request failed" (client_trace peer_acts late read_at count) ;;
      ret (Printed match l with
                   | [] => ["No trace events."]
                   | _ => ("Recent trace events (" +:+ pretty (length l) +:+ "):") :: (print_trace_event event_debug priority_debug <$> l)
                   end)
  | PressureCheck => ask "pressure check failed" QPressureCheck pressure_check_lines
  | Shutdown => context "shutdown request failed" (client_shutdown peer_acts late read_at) ;;; ret (Printed ["Shutdown initiated."])
  | Ping => context "ping failed" (client_ping peer_acts late read_at) ;;; ret (Printed ["Pong! Daemon is alive."])
  | Diagnostics_ => ask "diagnostics request failed" QDiagnostics diagnostics_lines
  | Queue_ => ask "queue status request failed" QQueueStatus queue_lines
  | Migration_ => ask "migration status request failed" QMigrationStatus migration_lines
  | Allocator => ask "allocator status request failed" QAllocatorStatus allocator_lines
  | Backends => ask "backend status request failed" QBackendStatus backends_lines
  | ReplayStatus => ask "replay status request failed" QReplayStatus replay_status_lines
  end.

(** [main]: every command is run on a connection to the daemon. *)
Definition main (connection : outcome GhostError (Client Peer)) (command : CmdM Ended) : outcome string Ended :=
  let? c := map_err (fun _ => "failed to connect to daemon") connection in (command c).1.
End commands.

(** Without a daemon no command does anything, also none that does not use
    it. *)
Lemma no_daemon_no_command {Peer} e (command : M (Client Peer) string Ended) : main (Err e) command = Err "failed to connect to daemon".
Proof. done. Qed.

(** ** What is shown cannot be typed *)

(** A command that takes the identifier of a chunk. *)
Definition needs_chunk (cmd : Command) (s : string) : Prop :=
  match cmd with
  | Retrieve c _ | Delete c | Migrate c _ _ | Info c => c = s
  | _ => False
  end.

Section shown.
Context `{HexCrate} `{J : IpcJson} {Peer : Type} (peer_acts : Client Peer -> Client Peer) (late : bool) (read_at : Z).
Context (event_debug : Tr.TraceEvent -> string) (priority_debug : TransferPriority -> string) (response_debug : IpcResponse -> string).
Context (pretty_json : string -> option string) (can_write : string -> bool).
Local Abbreviation run := (run_command peer_acts late read_at event_debug priority_debug response_debug pretty_json can_write).

Lemma parse_full_id c : length (chunk_bytes c) = 32%nat -> parse_chunk_id (hex_encode (chunk_bytes c)) = Ok c.
Proof. intros Hc. unfold parse_chunk_id. rewrite hex_decode_encode. cbn [ok_or obind]. rewrite Hc. by destruct c. Qed.
Lemma parse_shown_id c : length (chunk_bytes c) = 32%nat ->
  parse_chunk_id (chunk_display c) = Err "chunk ID must be 32 bytes (64 hex chars), got 8 bytes".
Proof.
  intros Hc. unfold parse_chunk_id, chunk_display, short_hex. rewrite hex_decode_encode. cbn [ok_or obind]. rewrite length_take, Hc. reflexivity.
Qed.
Lemma parse_bad_id s e cmd cl : parse_chunk_id s = Err e -> needs_chunk cmd s -> run cmd cl = (Err e, cl).
Proof. intros He Hs. destruct cmd; try done; cbn [needs_chunk] in Hs; subst; unfold run_command, bind, lift; by rewrite He. Qed.

(** No chunk can be named by what the program prints of it.  The identifier
    of a chunk is shown by its first 8 bytes, in the answer to a store and in
    every list and description, and every command that takes an identifier
    refuses that text, before the daemon is asked anything; only the 64 digits
    of the whole identifier, which are never printed, name it.  Of the tiers,
    the name shown for the GPU's memory is refused. *)
Theorem shown_ids_refused (c : ChunkId) (cmd : Command) (cl : Client Peer) :
  length (chunk_bytes c) = 32%nat -> needs_chunk cmd (chunk_display c) ->
  run cmd cl = (Err "chunk ID must be 32 bytes (64 hex chars), got 8 bytes", cl) /\
  parse_chunk_id (hex_encode (chunk_bytes c)) = Ok c /\
  (forall s, parse_chunk_id s = Ok c -> String.length s = 64%nat) /\
  (forall t, parse_tier (tier_display t) = Ok t <-> t <> GpuVram).
Proof.
  intros Hc Hs. split; [by apply parse_bad_id with (chunk_display c); [apply parse_shown_id|]|]. split; [by apply parse_full_id|]. split.
  - intros s. unfold parse_chunk_id. destruct (hex_decode s) as [l|] eqn:E; [|done]. cbn [ok_or obind].
    destruct (Nat.eqb_spec (length l) 32); [|done]. intros _. apply hex_decode_length in E. lia.
  - intros t. destruct t; vm_compute; split; congruence.
Qed.

(** The answer to a successful store does not depend on more than those 8
    bytes. *)
Lemma store_shows file tier cl out cl' : run (Store file tier) cl = (Ok (Printed out), cl') ->
  exists id, out = ["Stored chunk: " +:+ chunk_display id].
Proof.
  unfold run_command, bind, lift, ret. destruct file as [data|]; [|done]. cbn [ok_or]. destruct (parse_tier_option tier); [|done..].
  unfold context. destruct (client_store _ _ _ _ _ _) as [[id|e|p] ?]; cbn [map_err]; intros [= <- <-]. by exists id.
Qed.
End shown.

(** ** A model of the interface *)

Definition digit_value (a : ascii) : option N :=
  let n := N_of_ascii a in
  if ((48 <=? n) && (n <=? 57))%N then Some (n - 48)%N
  else if ((97 <=? n) && (n <=? 102))%N then Some (n - 87)%N
  else if ((65 <=? n) && (n <=? 70))%N then Some (n - 55)%N else None.
Fixpoint decode_hex (s : string) : option (list byte) :=
  match s with
  | EmptyString => Some []
  | String a (String b s) =>
      match digit_value a, digit_value b, decode_hex s with
      | Some x, Some y, Some l => Some (default Byte.x00 (Byte.of_N (16 * x + y)) :: l)
      | _, _, _ => None
      end
  | _ => None
  end.

Lemma digit_value_digit n : (n < 16)%N -> digit_value (hex_digit n) = Some n.
Proof.
  intros Hn. assert (n ∈ N.of_nat <$> seq 0 16) as Hin.
  { apply list_elem_of_fmap. exists (N.to_nat n). rewrite elem_of_seq. lia. }
  cbn [seq fmap list_fmap] in Hin. rewrite !elem_of_cons in Hin. repeat destruct Hin as [->|Hin]; try reflexivity. by apply not_elem_of_nil in Hin.
Qed.
Lemma decode_hex_encode l : decode_hex (hex_encode l) = Some l.
Proof.
  induction l as [|b l IH]; [done|]. cbn [hex_encode decode_hex]. pose proof (Byte.to_N_bounded b).
  rewrite !digit_value_digit by (apply N.Div0.div_lt_upper_bound || apply N.mod_lt; lia). rewrite IH.
  rewrite <- N.div_mod' by lia. by rewrite Byte.of_to_N.
Qed.
Lemma decode_hex_length s l : decode_hex s = Some l -> String.length s = (2 * length l)%nat.
Proof.
  revert l. assert (forall n s l, (String.length s <= n)%nat -> decode_hex s = Some l -> String.length s = (2 * length l)%nat) as Hn.
  { clear. induction n as [|n IH]; intros s l Hs; destruct s as [|a [|b s]]; cbn [decode_hex]; try (by intros [= <-]); try done; cbn [String.length] in *; [lia|].
    destruct (digit_value a), (digit_value b), (decode_hex s) as [l'|] eqn:E; try done. intros [= <-]. cbn [length]. rewrite (IH s l'); [lia|lia|done]. }
  intros l. by apply Hn with (String.length s).
Qed.
Definition list_hex : HexCrate := {| hex_decode := decode_hex; hex_decode_encode := decode_hex_encode; hex_decode_length := decode_hex_length |}.

Definition ex_chunk : ChunkId := mkChunkId (replicate 32 Byte.x07).
Definition ex_client : Client unit := @mkClient unit tt (mkWriter [] None) (mkReader [] None).

Lemma shown_ids_refused_witness :
  run_command (H := list_hex) (J := ex_json) (fun c => c) false 0 (fun _ => EmptyString) (fun _ => EmptyString) (fun _ => EmptyString) (fun _ => None) (fun _ => true)
    (Retrieve "0707070707070707" "out.bin") ex_client = (Err "chunk ID must be 32 bytes (64 hex chars), got 8 bytes", ex_client).
Proof.
  apply (shown_ids_refused (H := list_hex) (J := ex_json) (fun c => c) false 0 (fun _ => EmptyString) (fun _ => EmptyString) (fun _ => EmptyString)
    (fun _ => None) (fun _ => true) ex_chunk (Retrieve "0707070707070707" "out.bin") ex_client); vm_compute; reflexivity.
Defined.
