(* ===== verification/CliTools.v ===== *)
(** * The command line without the daemon: [ghost-cli/src/main.rs]

    The commands on trace files, on hotness, policies, evaluations and
    benchmarks, as the lines they print.  The events of a file are read by the
    functions of [TraceFile.v]; the iteration order of a [HashMap], the display
    of an [f32] and the debug output of a value are parameters. *)

From Stdlib Require Import ZArith Lia SpecFloat Ascii.
From stdpp Require Import base gmap strings pretty list.
From S2P Require Import Prelude Floats LinuxSources CoreTypes Pressure Trace TraceFile Regions Replay TraceInvariants Checksum ReplayProof TraceMetrics Export Metrics LinuxTiers LinuxPolicy Scoring Evaluator Tournament Workload Bench.

Open Scope rust_scope.

(** What a command printed, and its exit status. *)
Record Done := mkDone { done_out : list string; done_err : list string; done_code : Z }.
Definition shown (out : list string) : Done := mkDone out [] 0.
Definition blank_line : string := EmptyString.

(** [{:<n}] *)
Fixpoint spaces (n : nat) : string := match n with O => EmptyString | S n => " " +:+ spaces n end.
Definition left (n : nat) (s : string) : string := s +:+ spaces (n - String.length s).

(** ** Traces *)

Module Traces.
Definition replay_lines (s : ReplaySummary) : list string :=
  ["=== Replay Summary ===";
   "Events replayed: " +:+ pretty (events_replayed s); "Chunks created: " +:+ pretty (chunks_created s);
   "Chunks deleted: " +:+ pretty (chunks_deleted s); "State transitions: " +:+ pretty (state_transitions s);
   "Transfers completed: " +:+ pretty (transfers_completed s); "Transfers failed: " +:+ pretty (transfers_failed s);
   "Evictions: " +:+ pretty (evictions s); "Pressure alerts: " +:+ pretty (pressure_alerts s);
   "Policy decisions: " +:+ pretty (policy_decisions s); "Unique chunks: " +:+ pretty (unique_chunks s);
   "Validation errors: " +:+ pretty (validation_errors s)] ++
  match errors s with
  | [] => []
  | es => [blank_line; "=== Validation Errors (first " +:+ pretty (Nat.min (length es) 10) +:+ ") ==="] ++
          ((fun e => "  Event " +:+ pretty (ve_event_index e) +:+ ": " +:+ ve_message e) <$> take 10 es)
  end.

Section replay.
Context (b : Build) (ri : bool).
(** [Replay]: the configuration of the command and the summary. *)
Definition replay_config (max_events : option Z) (stop_on_error : bool) : ReplayConfig := mkRCfg true stop_on_error (default 0 max_events).
Definition replay_command (es : list Tr.TraceEvent) (max_events : option Z) (stop_on_error : bool) : outcome GhostError Done :=
  let? r := Replay.from_events b ri es (replay_config max_events stop_on_error) in Ok (shown (replay_lines r.2)).
End replay.

Section verify.
Context (divergence_debug : DivergenceType -> string) (severity_debug : ViolationSeverity -> string).

Definition violation_line (v : InvariantViolation) : string := "  [" +:+ severity_debug (vi_severity v) +:+ "] " +:+ vi_message v.

Definition verify_done (file : string) (rounds : Z) (r : VerificationResult) : Done :=
  mkDone
    (["=== Replay Verification ==="; "File: " +:+ file; "Determinism rounds: " +:+ pretty rounds;
      "Status: " +:+ (if passed r then "PASSED" else "FAILED"); "Iterations run: " +:+ pretty (iterations_run r); blank_line;
      (if deterministic r then "✓ Determinism: PASSED (all rounds produced identical checksums)"
       else "✗ Determinism: FAILED (checksum mismatch between rounds)");
      match violations r with
      | [] => "✓ Invariants: PASSED (no violations)"
      | vs => "✗ Invariants: FAILED (" +:+ pretty (length vs) +:+ " violations)"
      end] ++
     match ReplayProof.divergence r with
     | Some d => [blank_line; "=== Divergence Report ==="; Checksum.report_summary d] ++ ((fun x => "  " +:+ divergence_debug x) <$> divergences d)
     | None => []
     end ++
     match violations r with [] => [] | vs => [blank_line; "=== Invariant Violations ==="] ++ (violation_line <$> vs) end)
    [] (if passed r then 0 else 1).

Definition invariants_done (file : string) (es : list Tr.TraceEvent) : Done :=
  let vs := validator_validate with_defaults es in
  let detail v :=
    [violation_line v] ++ match vi_event_index v with Some i => ["    at event index: " +:+ pretty i] | None => [] end ++
    match vi_chunk_id v with Some c => ["    chunk: " +:+ short_hex c] | None => [] end in
  mkDone
    (["=== Invariant Validation ==="; "File: " +:+ file +:+ " (" +:+ pretty (length es) +:+ " events)";
      "Invariants checked: " +:+ pretty (validator_len with_defaults); blank_line] ++
     match vs with
     | [] => ["✓ All invariants passed."]
     | _ => ["✗ " +:+ pretty (length vs) +:+ " invariant violation(s) found:"; blank_line] ++ (vs ≫= detail)
     end)
    [] (match vs with [] => 0 | _ => 1 end).
End verify.

Section compare.
Context `{Blake3} `{Codec}.
(** [{:?}] of a category and of an optional chunk. *)
Context (category_debug : HashCategory -> string).

Definition divergence_line (d : DivergenceType) : string :=
  match d with
  | LengthMismatch b c => "  Length mismatch: baseline=" +:+ pretty b +:+ " events, candidate=" +:+ pretty c +:+ " events"
  | ContentMismatch i c => "  Event " +:+ pretty i +:+ ": content mismatch (category: " +:+ category_debug c +:+ ")"
  | TimestampMismatch i b c => "  Event " +:+ pretty i +:+ ": timestamp mismatch (baseline=" +:+ pretty b +:+ ", candidate=" +:+ pretty c +:+ ")"
  | ChunkIdMismatch i b c => "  Event " +:+ pretty i +:+ ": chunk ID mismatch (baseline=" +:+ chunk_debug b +:+ ", candidate=" +:+ chunk_debug c +:+ ")"
  | TypeMismatch i b c => "  Event " +:+ pretty i +:+ ": type mismatch (baseline=" +:+ b +:+ ", candidate=" +:+ c +:+ ")"
  | TimingOnly _ _ _ => "  Timing-only difference"
  | DecisionDifference _ _ => "  Decision difference"
  | OrderingDifference _ _ _ => "  Ordering difference"
  | MissingEvent _ _ _ => "  Missing event"
  | ChecksumMismatch _ _ _ => "  Checksum mismatch"
  end.

(** Both files are said to have the number of events compared. *)
Definition compare_done (baseline candidate : string) (bs cs : list Tr.TraceEvent) : Done :=
  let r := detect_divergence bs cs in
  let n := pretty (events_compared r) in
  let header := ["=== Trace Comparison ==="; "Baseline:  " +:+ baseline +:+ " (" +:+ n +:+ " events)";
                 "Candidate: " +:+ candidate +:+ " (" +:+ n +:+ " events)"; blank_line] in
  if identical r then shown (header ++ ["✓ Traces are IDENTICAL (" +:+ n +:+ " events compared)"])
  else mkDone (header ++
         ["✗ Traces DIVERGE at event " +:+ match first_divergence_index r with Some i => pretty i | None => "?" end;
          "  Events compared: " +:+ n; "  Divergences found: " +:+ pretty (length (divergences r)); blank_line] ++
         (divergence_line <$> divergences r)) [] 1.

Definition checksum_done (file : string) (es : list Tr.TraceEvent) : Done :=
  let c := Checksum.from_events es in
  let hex8_display l := hex_encode (take 8 l) in
  shown ["=== Trace Checksum ==="; "File: " +:+ file; "Events: " +:+ pretty (ck_event_count c); blank_line;
         "Total:     " +:+ hex8_display (ck_total c); "Content:   " +:+ hex8_display (ck_content c);
         "Migration: " +:+ hex8_display (ck_migration c); "State:     " +:+ hex8_display (ck_state c);
         "Other:     " +:+ hex8_display (ck_other c)].
End compare.

Section metrics.
Context (b : Build) (iter_tiers : gmap TierId Z -> list (TierId * Z)) (iter_reasons : gmap string Z -> list (string * Z)).

Definition metrics_lines (m : ReplayMetrics) : list string :=
  ["=== Replay Metrics ===";
   "Total events: " +:+ pretty (rm_total_events m); "Chunks created: " +:+ pretty (rm_chunks_created m);
   "Chunks deleted: " +:+ pretty (rm_chunks_deleted m); "State transitions: " +:+ pretty (rm_state_transitions m);
   "Avg transitions/chunk: " +:+ fixed 2 (rm_avg_transitions_per_chunk m);
   "Transfers completed: " +:+ pretty (rm_transfers_completed m); "Transfers failed: " +:+ pretty (rm_transfers_failed m);
   "Transfer success rate: " +:+ fixed 1 (fmul f64 (rm_transfer_success_rate m) (of_int f64 100)) +:+ "%";
   "Evictions: " +:+ pretty (rm_evictions m); "Pressure alerts: " +:+ pretty (rm_pressure_alerts m);
   "Peak memory pressure: " +:+ fixed 2 (rm_peak_memory m); "Peak VRAM pressure: " +:+ fixed 2 (rm_peak_vram m);
   "Peak I/O pressure: " +:+ fixed 2 (rm_peak_io m); "Policy decisions: " +:+ pretty (rm_policy_decisions m);
   "Migrations decided: " +:+ pretty (rm_migrations_decided m); "Unique chunks: " +:+ pretty (rm_unique_chunks m);
   "Time range: " +:+ pretty (rm_time_range m).1 +:+ " - " +:+ pretty (rm_time_range m).2] ++
  (if decide (rm_tier_distribution m = ∅) then []
   else [blank_line; "=== Tier Distribution ==="] ++ ((fun x => "  " +:+ tier_display x.1 +:+ ": " +:+ pretty x.2 +:+ " chunks") <$> iter_tiers (rm_tier_distribution m))) ++
  (if decide (rm_evictions_by_reason m = ∅) then []
   else [blank_line; "=== Evictions by Reason ==="] ++ ((fun x => "  " +:+ x.1 +:+ ": " +:+ pretty x.2) <$> iter_reasons (rm_evictions_by_reason m))).
Definition metrics_command (es : list Tr.TraceEvent) : outcome GhostError Done :=
  let? m := TraceMetrics.from_events b es in Ok (shown (metrics_lines m)).
End metrics.

(** [ExportTrace]: the text written to the output file, and the line printed.
    The file is created after the format is parsed. *)
Definition export_command (f32_display : float -> string) (json_event : Tr.TraceEvent -> outcome string string) (json_pretty : list Tr.TraceEvent -> outcome string string) (output format : string) (es : list Tr.TraceEvent) : outcome GhostError (string * Done) :=
  let? f := format_from_str format in
  let? text := export_trace f32_display json_event json_pretty es f in
  Ok (text, shown ["Exported " +:+ pretty (length es) +:+ " events to " +:+ output +:+ " (" +:+ format_display f +:+ ")"]).
End Traces.

(** ** Times and hotness *)

(** Days of a year are counted as 365 and of a month as 30. *)
Definition format_timestamp (timestamp : Z) : string :=
  let days_since_epoch := timestamp / 86400 in
  let seconds_of_day := timestamp mod 86400 in
  let hours := seconds_of_day / 3600 in
  let minutes := (seconds_of_day mod 3600) / 60 in
  let seconds := seconds_of_day mod 60 in
  let year := 1970 + days_since_epoch / 365 in
  let day_of_year := days_since_epoch mod 365 in
  let month := day_of_year / 30 + 1 in
  let day := day_of_year mod 30 + 1 in
  let two z := pad_zeros 2 (pretty z) in
  pad_zeros 4 (pretty year) +:+ "-" +:+ two month +:+ "-" +:+ two day +:+ " " +:+ two hours +:+ ":" +:+ two minutes +:+ ":" +:+ two seconds +:+ " UTC".

(** *** The calendar *)

Definition leap (y : Z) : bool := (y mod 4 =? 0) && negb (y mod 100 =? 0) || (y mod 400 =? 0).
Definition month_length (y m : Z) : Z :=
  if m =? 2 then if leap y then 29 else 28 else if (m =? 4) || (m =? 6) || (m =? 9) || (m =? 11) then 30 else 31.
Definition next_day (x : Z * Z * Z) : Z * Z * Z :=
  let '(y, m, d) := x in
  if d <? month_length y m then (y, m, d + 1) else if m <? 12 then (y, m + 1, 1) else (y + 1, 1, 1).
(** The date [n] days after 1 January 1970. *)
Definition calendar (n : nat) : Z * Z * Z := Nat.iter n next_day (1970, 1, 1).

(** The date [format_timestamp] shows for a day. *)
Definition shown_date (n : Z) : Z * Z * Z := (1970 + n / 365, n mod 365 / 30 + 1, (n mod 365) mod 30 + 1).
Definition two_digits (z : Z) : string := pad_zeros 2 (pretty z).
Definition date_text (x : Z * Z * Z) : string :=
  let '(y, m, d) := x in pad_zeros 4 (pretty y) +:+ "-" +:+ two_digits m +:+ "-" +:+ two_digits d.
Definition time_text (s : Z) : string := two_digits (s / 3600) +:+ ":" +:+ two_digits (s mod 3600 / 60) +:+ ":" +:+ two_digits (s mod 60).

Lemma format_timestamp_parts t : format_timestamp t = date_text (shown_date (t / 86400)) +:+ " " +:+ time_text (t mod 86400) +:+ " UTC".
Proof. unfold format_timestamp, date_text, shown_date, time_text, two_digits. rewrite !string_app_assoc. done. Qed.

(** No day of the next [n] is shown right. *)
Fixpoint wrong_days (n : nat) (i : Z) (x : Z * Z * Z) : bool :=
  match n with O => true | S n => negb (bool_decide (shown_date i = x)) && wrong_days n (i + 1) (next_day x) end.
Lemma wrong_days_spec n i x k : wrong_days n i x = true -> (k < n)%nat -> shown_date (i + Z.of_nat k) <> Nat.iter k next_day x.
Proof.
  revert i x k. induction n as [|n IH]; intros i x k Hw Hk; [lia|]. cbn [wrong_days] in Hw. apply andb_true_iff in Hw as [H1 H2].
  destruct k as [|k]; [rewrite Z.add_0_r; by apply negb_true_iff, bool_decide_eq_false in H1|].
  specialize (IH (i + 1) (next_day x) k H2). rewrite Nat.iter_succ_r. replace (i + Z.of_nat (S k)) with (i + 1 + Z.of_nat k) by lia. apply IH. lia.
Qed.
Lemma wrong_from_1975 : wrong_days (Z.to_nat 45567) 1915 (calendar 1915) = true.
Proof. vm_compute. reflexivity. Qed.

(** The times the program shows.  The time of day is exact, and from 31 March
    1975 until the end of the year 2099 the date is wrong on every day. *)
Theorem timestamps_misdated t : 1915 * 86400 <= t < 47482 * 86400 ->
  format_timestamp t = date_text (shown_date (t / 86400)) +:+ " " +:+ time_text (t mod 86400) +:+ " UTC" /\
  shown_date (t / 86400) <> calendar (Z.to_nat (t / 86400)).
Proof.
  intros Ht. split; [apply format_timestamp_parts|].
  assert (1915 <= t / 86400 < 47482) as Hd by (split; [apply Z.div_le_lower_bound|apply Z.div_lt_upper_bound]; lia).
  set (d := t / 86400) in *. replace (Z.to_nat d) with (Z.to_nat (d - 1915) + 1915)%nat by lia. unfold calendar. rewrite Nat.iter_add.
  replace d with (1915 + Z.of_nat (Z.to_nat (d - 1915))) at 1 by lia. apply (wrong_days_spec (Z.to_nat 45567)); [exact wrong_from_1975|lia].
Qed.

Lemma timestamps_misdated_witness :
  shown_date (1704067200 / 86400) <> calendar (Z.to_nat (1704067200 / 86400)) /\ calendar (Z.to_nat (1704067200 / 86400)) = (2024, 1, 1) /\
  format_timestamp 1704067200 = "2024-01-14 00:00:00 UTC" /\ format_timestamp 31535999 = "1970-13-05 23:59:59 UTC".
Proof. split; [apply (timestamps_misdated 1704067200); lia|]. split_and!; vm_compute; reflexivity. Defined.

Module HotnessView.
Definition capital_temperature (t : Temperature) : string := match t with Hot => "Hot" | Warm => "Warm" | Cold => "Cold" | Frozen => "Frozen" end.
Definition capital_level (l : ConfidenceLevel) : string :=
  match l with CHigh => "High" | CMedium => "Medium" | CLow => "Low" | CUnknown => "Unknown" end.

Definition print_hotness_summary (s : HotnessSummary) (c : HotnessConfidence) (timestamp : Z) : list string :=
  let line label n p := label +:+ pretty n +:+ " (" +:+ fixed 1 p +:+ "%)" in
  ["Hotness Summary"; "===============";
   line "Hot regions:    " (hot_count s) (hot_percentage s); line "Warm regions:   " (warm_count s) (warm_percentage s);
   line "Cold regions:   " (cold_count s) (cold_percentage s); line "Frozen regions: " (frozen_count s) (frozen_percentage s);
   "Total:          " +:+ pretty (total_regions s); blank_line;
   "Confidence:     " +:+ fixed 2 (conf_score c) +:+ " (" +:+ capital_level (conf_level c) +:+ ")";
   "Dominant:       " +:+ capital_temperature (dominant_temperature s);
   "Workload:       " +:+ (if is_hot_workload s then "Hot" else if is_cold_workload s then "Cold" else "Mixed"); blank_line;
   "Last update:    " +:+ format_timestamp timestamp].

(** [{:010x}] *)
Fixpoint hex_number (fuel : nat) (n : N) (acc : string) : string :=
  match fuel with
  | O => acc
  | S fuel => let acc := String (hex_digit (n mod 16)) acc in if (n / 16 =? 0)%N then acc else hex_number fuel (n / 16) acc
  end.
Definition hex_address (z : Z) : string := "0x" +:+ pad_zeros 10 (hex_number 16 (Z.to_N z) EmptyString).
Definition region_line (s : HotnessSample) : string :=
  hex_address (ar_start (address_range s)) +:+ " " +:+ hex_address (ar_end (address_range s)) +:+ " " +:+ left 10 (pretty (access_count s)) +:+ " "
    +:+ capital_temperature (temperature s).
Definition region_header : string := left 12 "Start" +:+ " " +:+ left 12 "End" +:+ " " +:+ left 10 "Accesses" +:+ " Temperature".
Definition of_temperature (p : Temperature -> bool) (l : list HotnessSample) : list HotnessSample := filter (fun s => p (temperature s) = true) l.
Definition region_lines (none : string) (l : list HotnessSample) : list string :=
  match l with [] => [none] | _ => region_header :: (region_line <$> l) end.

Definition print_hot_regions (s : HotnessSnapshot) : list string :=
  ["Hot Regions"; "==========="] ++
  region_lines "No hot regions found." (of_temperature (fun t => match t with Hot => true | _ => false end) (samples s)) ++
  [blank_line; "Cold Regions"; "============"] ++
  region_lines "No cold regions found." (of_temperature (fun t => match t with Cold | Frozen => true | _ => false end) (samples s)).
Definition print_cold_regions (s : HotnessSnapshot) : list string :=
  ["Cold Regions"; "============"] ++
  region_lines "No cold or frozen regions found."
    (of_temperature (fun t => match t with Cold => true | _ => false end) (samples s) ++
     of_temperature (fun t => match t with Frozen => true | _ => false end) (samples s)).

(** [std::iter::repeat(c).take(n)] *)
Fixpoint repeated (n : nat) (c : string) : string := match n with O => EmptyString | S n => c +:+ repeated n c end.
Definition filled_cells (count total : Z) : Z :=
  if 0 <? total then Z.max 0 (round_i64 (fmul f64 (fdiv f64 (of_int f64 count) (of_int f64 total)) (of_int f64 40))) else 0.
Definition print_distribution_bar (b : Build) (label : string) (count total : Z) (percentage : float) : outcome GhostError string :=
  let filled := filled_cells count total in
  let? empty := arith b 64 (40 - filled) in
  Ok (label +:+ " [" +:+ repeated (Z.to_nat filled) "█" +:+ repeated (Z.to_nat empty) "░" +:+ "] " +:+ pretty count +:+ " (" +:+ fixed 1 percentage +:+ "%)").
Definition print_distribution (b : Build) (s : HotnessSummary) : outcome GhostError (list string) :=
  let? h := print_distribution_bar b "Hot    " (hot_count s) (total_regions s) (hot_percentage s) in
  let? w := print_distribution_bar b "Warm   " (warm_count s) (total_regions s) (warm_percentage s) in
  let? c := print_distribution_bar b "Cold   " (cold_count s) (total_regions s) (cold_percentage s) in
  let? f := print_distribution_bar b "Frozen " (frozen_count s) (total_regions s) (frozen_percentage s) in
  Ok (["Temperature Distribution"; "========================"; blank_line; h; w; c; f; blank_line; "Total regions: " +:+ pretty (total_regions s)]).
End HotnessView.

(** ** Policies *)

Module PolicyView.
Definition variant (r : Recommendation) : string :=
  match r with
  | MoveToDiskSwap _ _ _ _ => "MoveToDiskSwap" | PromoteToDram _ _ _ _ => "PromoteToDram" | NoAction _ _ _ => "NoAction"
  | MoveToZram _ _ _ _ => "MoveToZram" | EvictCold _ _ _ _ => "EvictCold" | DemoteHot _ _ _ _ => "DemoteHot"
  end.

(** The readings of the inventory: the last tier of each kind counts. *)
Record Readings := mkReadings { rd_dram : float; rd_swap : float; rd_zram : float }.
Definition read_tier (r : Readings) (t : TierInfo) : Readings :=
  match ti_kind t with
  | Kind.Dram => mkReadings (memory_pressure (ti_pressure t)) (rd_swap r) (rd_zram r)
  | Kind.Swap | Kind.DiskSwap => mkReadings (rd_dram r) (cast f32 (utilization t)) (rd_zram r)
  | Kind.Zram => mkReadings (rd_dram r) (rd_swap r) (cast f32 (utilization t))
  | _ => r
  end.
Definition pressure_label (x : float) : string :=
  if fge x (lit f32 7 10) then "Medium" else if fge x (lit f32 9 10) then "High" else "Low".
Definition percent0 (x : float) : string := fixed 0 (fmul f32 x (of_int f32 100)).

Definition state_lines (m : Inventory) : list string :=
  let r := fold_left read_tier (btree_values m) (mkReadings zero_f32 zero_f32 zero_f32) in
  ["System State:";
   "  DRAM pressure:    " +:+ pressure_label (rd_dram r) +:+ " (avg10: " +:+ fixed 1 (fmul f32 (rd_dram r) (of_int f32 10)) +:+ ")";
   "  Swap utilization: " +:+ percent0 (rd_swap r) +:+ "%"; "  ZRAM utilization: " +:+ percent0 (rd_zram r) +:+ "%";
   "  IO pressure:      Low"].
Definition hotness_lines (s : option HotnessSummary) (c : option HotnessConfidence) : list string :=
  "Hotness:" ::
  match s with
  | Some s =>
      ["  Hot regions:      " +:+ pretty (hot_count s) +:+ " (" +:+ fixed 0 (hot_percentage s) +:+ "%)";
       "  Cold regions:     " +:+ pretty (cold_count s + frozen_count s) +:+ " (" +:+ fixed 0 (fadd f32 (cold_percentage s) (frozen_percentage s)) +:+ "%)"]
  | None => ["  Hot regions:      N/A"; "  Cold regions:     N/A"]
  end ++
  [match c with
   | Some c => "  Confidence:       " +:+ fixed 2 (conf_score c) +:+ " (" +:+ HotnessView.capital_level (conf_level c) +:+ ")"
   | None => "  Confidence:       N/A"
   end].
Definition numbered_lines {A} (line : nat -> A -> string) (l : list A) : list string := imap (fun i x => line (i + 1)%nat x) l.
Definition recommendation_lines (l : list Recommendation) : list string :=
  "Recommendations:" ::
  match l with
  | [] => ["  No recommendations at this time."]
  | _ => numbered_lines (fun i r => "  " +:+ pretty i +:+ ". [" +:+ fixed 2 (rec_confidence r) +:+ "] " +:+ variant r +:+ " — " +:+ rec_reason r) l
  end.

Section runtime.
Context `{Blake3}.

(** [runtime.evaluate().unwrap_or_default()] *)
Definition evaluated (now : Z) (psi : PsiResource -> Text) (rt : PolicyRuntime) : outcome GhostError (list Recommendation * PolicyRuntime) :=
  match policy_evaluate now psi rt with
  | Ok (l, _, rt) => Ok (l, rt)
  | Err _ => Ok ([], rt)
  | Panic p => Panic p
  end.

(** [later] is the time at which the state of the runtime is printed. *)
Definition stability_lines (later : Z) (rt : PolicyRuntime) : list string :=
  [blank_line; "Stability:"; "  Cooldowns active: " +:+ pretty (active_cooldowns later rt);
   "  Suppressed:       " +:+ pretty (suppressed_count later (cooldown_tracker rt)); "  Last evaluation:  " +:+ format_timestamp (last_evaluation rt)].
Definition evaluation_lines (later : Z) (s : option HotnessSummary) (c : option HotnessConfidence) (l : list Recommendation) (rt : PolicyRuntime) : list string :=
  ["Policy Evaluation"; "================="; blank_line] ++ state_lines (rt_inventory rt) ++ [blank_line] ++ hotness_lines s c ++ [blank_line] ++
  recommendation_lines l ++ stability_lines later rt.
Definition print_policy_evaluation (now later : Z) (psi : PsiResource -> Text) (rt : PolicyRuntime) (s : option HotnessSummary) (c : option HotnessConfidence)
    : outcome GhostError (list string) :=
  let? r := evaluated now psi rt in Ok (evaluation_lines later s c r.1 r.2).

Definition print_recommendations (now : Z) (psi : PsiResource -> Text) (rt : PolicyRuntime) : outcome GhostError (list string) :=
  let? r := evaluated now psi rt in
  let detail (i : nat) r :=
    [pretty (i + 1)%nat +:+ ". " +:+ rec_display r; "   Confidence: " +:+ fixed 2 (rec_confidence r)] ++
    match rec_factors r with [] => [] | l => ["   Factors: " +:+ String.concat ", " l] end ++ [blank_line] in
  Ok (["Current Recommendations"; "======================="; blank_line] ++
      match r.1 with [] => ["No recommendations at this time."] | l => mjoin (imap detail l) end).

(** [Policy]: the runtime has an inventory no tier was put into. *)
Definition policy_evaluate_command (now later : Z) (psi : PsiResource -> Text) (s : option HotnessSummary) (c : option HotnessConfidence) : outcome GhostError (list string) :=
  print_policy_evaluation now later psi (Runtime_new ∅) s c.
End runtime.

Definition print_recommendation_history : list string :=
  ["Recommendation History"; "======================"; blank_line;
   "(History tracking requires persistent storage — showing current session only)"; blank_line; "No historical data available in this session."].
Definition comparison_row (a b c : string) : string := "  " +:+ left 20 a +:+ " " +:+ left 15 b +:+ " " +:+ left 15 c.
Definition print_policy_comparison (a b : string) : list string :=
  ["Policy Comparison: " +:+ a +:+ " vs " +:+ b; "=========================================="; blank_line; "Comparing policy configurations..."; blank_line;
   comparison_row "Metric" a b;
   "  ──────────────────── ─────────────── ───────────────";
   comparison_row "DRAM high thresh" "0.70" "0.70"; comparison_row "DRAM crit thresh" "0.90" "0.90"; comparison_row "Swap high thresh" "0.80" "0.80";
   comparison_row "Hotness weight" "0.30" "0.30"; comparison_row "Pressure weight" "0.70" "0.70"; comparison_row "Cooldown (s)" "60" "60"; blank_line;
   "(Full policy comparison requires named policy configurations)"].

(** *** What is shown of the system *)

Lemma label_never_high x : pressure_label x <> "High".
Proof.
  unfold pressure_label. destruct (fge x (lit f32 7 10)) eqn:E7; [discriminate|]. destruct (fge x (lit f32 9 10)) eqn:E9; [|discriminate].
  exfalso. unfold fge in *. assert (is_nan x = false) as Hn by (by apply FloatOrder.fle_not_nan in E9 as [_ ?]).
  assert (fle (lit f32 7 10) x = true); [|congruence]. by apply (FloatOrder.fle_trans _ (lit f32 9 10)).
Qed.

Lemma empty_state_lines : state_lines ∅ =
  ["System State:"; "  DRAM pressure:    Low (avg10: 0.0)"; "  Swap utilization: 0%"; "  ZRAM utilization: 0%"; "  IO pressure:      Low"].
Proof. vm_compute. reflexivity. Qed.
Section blind.
Context `{Blake3}.

Lemma evaluated_cases now psi rt : match policy_evaluate now psi rt with
  | Ok (l, _, rt') => evaluated now psi rt = Ok (l, rt') /\ rt_inventory rt' = rt_inventory rt
  | Err _ => evaluated now psi rt = Ok ([], rt)
  | Panic _ => True
  end.
Proof.
  unfold evaluated. destruct (policy_evaluate now psi rt) as [[[l evs] rt']|e|p] eqn:E; [|done..]. split; [done|].
  unfold policy_evaluate in E. destruct (build_system_state now psi (rt_inventory rt)); cbn [obind] in E; try done. by injection E as _ _ <-.
Qed.

(** The state shown by a policy evaluation.  The command evaluates a runtime
    whose inventory is empty, so whatever the readings of the kernel are, and
    whatever is recommended, the pressure shown is Low and the utilizations 0%;
    and no reading at all would be shown as High. *)
Theorem policy_view_blind now later psi s c l evs rt : policy_evaluate now psi (Runtime_new ∅) = Ok (l, evs, rt) ->
  (exists lines middle rest, policy_evaluate_command now later psi s c = Ok lines /\
    lines = ["Policy Evaluation"; "================="; blank_line; "System State:"; "  DRAM pressure:    Low (avg10: 0.0)";
      "  Swap utilization: 0%"; "  ZRAM utilization: 0%"; "  IO pressure:      Low"] ++ middle ++ recommendation_lines l ++ rest) /\
  forall x, pressure_label x <> "High".
Proof.
  intros E. split; [|apply label_never_high]. pose proof (evaluated_cases now psi (Runtime_new ∅)) as Hc. rewrite E in Hc. destruct Hc as [Hc Hi].
  unfold policy_evaluate_command, print_policy_evaluation. rewrite Hc. cbn [obind fst snd].
  exists (evaluation_lines later s c l rt), ([blank_line] ++ hotness_lines s c ++ [blank_line]), (stability_lines later rt). split; [reflexivity|]. unfold evaluation_lines. rewrite Hi.
  change (rt_inventory (Runtime_new ∅)) with (∅ : Inventory). rewrite empty_state_lines. rewrite <- !app_assoc. reflexivity.
Qed.
End blind.

Lemma policy_view_blind_witness : exists lines rest,
  policy_evaluate_command (H := ex_blake3) 40 41 critical_psi None None = Ok lines /\
  rec_kind <$> match policy_evaluate (H := ex_blake3) 40 critical_psi (Runtime_new ∅) with Ok (l, _, _) => l | _ => [] end = ["evict_cold"; "move_to_disk_swap"] /\
  lines = ["Policy Evaluation"; "================="; blank_line; "System State:"; "  DRAM pressure:    Low (avg10: 0.0)"] ++ rest.
Proof.
  destruct (policy_evaluate (H := ex_blake3) 40 critical_psi (Runtime_new ∅)) as [[[l evs] rt]|e|p] eqn:E.
  - destruct (policy_view_blind (H := ex_blake3) 40 41 critical_psi None None l evs rt E) as [(lines & middle & rest & E1 & E2) _].
    exists lines. eexists. split; [exact E1|]. split; [|rewrite E2; reflexivity].
    transitivity (kinds_of (policy_evaluate (H := ex_blake3) 40 critical_psi (Runtime_new ∅))); [by rewrite E|]. vm_compute. reflexivity.
  - exfalso. revert E. vm_compute. discriminate.
  - exfalso. revert E. vm_compute. discriminate.
Defined.
End PolicyView.

(** ** Evaluations *)

Module EvaluatorView.
Section evaluator.
Context `{Blake3}.
(** [{}] of an [f32], and the iteration orders of a tournament's maps. *)
Context (show_f32 : float -> string) (iter_wins : gmap string nat -> list (string * nat)) (iter_averages : gmap string float -> list (string * float)).

Definition parse_recommendation_type (s : string) : Recommendation :=
  let chunk_id := named "cli_chunk" in
  let l := Str.to_lowercase s in
  let factors := ["cli_request"] in
  if decide (l = "promote") then PromoteToDram chunk_id "CLI: promote to DRAM" (lit f32 9 10) factors
  else if decide (l = "demote") then DemoteHot Ram Disk (lit f32 8 10) factors
  else if decide (l = "zram") then MoveToZram chunk_id "CLI: move to ZRAM" (lit f32 85 100) factors
  else if decide (l = "diskswap") then MoveToDiskSwap chunk_id "CLI: move to disk swap" (lit f32 85 100) factors
  else if decide (l = "evict") then EvictCold Ram 8 (of_int f32 1) factors
  else NoAction "CLI: no action" (of_int f32 1) factors.

(** A state with a memory pressure, utilizations and no hotness. *)
Definition system (memory dram swap zram : float) : SystemState :=
  mkSys (set_memory PressureState_new memory) dram swap (Some zram) PressureState_new None None.

Definition print_recommendation_score (s : RecommendationScore) : list string :=
  ["  Fault reduction:    " +:+ fixed 4 (fault_reduction s); "  Swap reduction:     " +:+ fixed 4 (swap_reduction s);
   "  ZRAM efficiency:    " +:+ fixed 4 (zram_efficiency s); "  Pressure reduction: " +:+ fixed 4 (pressure_reduction s);
   "  Tier balance:       " +:+ fixed 4 (tier_balance s); "  Stability:          " +:+ fixed 4 (sc_stability s);
   "  ─────────────────────────────"; "  Overall score:      " +:+ fixed 4 (overall_score s)].

Definition score_command (recommendation : string) (before after : float) : list string :=
  let b := system before before (lit f32 3 10) (lit f32 4 10) in
  let a := system after after (lit f32 2 10) (lit f32 5 10) in
  let score := score_recommendation (parse_recommendation_type recommendation) b a ScoringWeights_default in
  ["=== Recommendation Score ==="; "Type: " +:+ recommendation; "DRAM pressure: " +:+ show_f32 before +:+ " → " +:+ show_f32 after; blank_line] ++
  print_recommendation_score score.

Definition baseline_action_name (a : Baseline.BaselineAction) : string :=
  match a with Baseline.Evict => "Evict" | Baseline.SwapOut => "SwapOut" | Baseline.BNoAction => "NoAction" end.
Definition print_baseline_recommendations (l : list Baseline.BaselineRecommendation) : list string :=
  match l with
  | [] => ["  No baseline recommendations."]
  | _ => PolicyView.numbered_lines (fun i r => "  " +:+ pretty i +:+ ". [" +:+ baseline_action_name (Baseline.action r) +:+ "] " +:+ Baseline.reason r
           +:+ " (confidence=" +:+ fixed 2 (Baseline.confidence r) +:+ ")") l
  end.

Definition baseline_command (dram swap pressure : float) : list string :=
  let state := system pressure dram swap (lit f32 4 10) in
  let recs := Baseline.evaluate_baseline state in
  let down x d := fmax (fsub f32 x d) zero_f32 in
  let after := system (down pressure (lit f32 2 10)) (down dram (lit f32 15 100)) (down swap (lit f32 1 10)) (lit f32 5 10) in
  let score := score_policy_evaluation (Baseline.to_recommendation <$> recs) state after in
  ["=== Baseline Linux Evaluation ==="; "DRAM utilization: " +:+ PolicyView.percent0 dram +:+ "%"; "Swap utilization: " +:+ PolicyView.percent0 swap +:+ "%";
   "DRAM pressure: " +:+ PolicyView.percent0 pressure +:+ "%"; blank_line] ++ print_baseline_recommendations recs ++
  [blank_line; "=== Baseline Score (simulated improvement) ==="] ++ print_recommendation_score score.

(** The five scenarios, in turn. *)
Definition idle : SystemState := system zero_f32 (lit f32 3 10) (lit f32 1 10) (lit f32 2 10).
Definition medium : SystemState := system (lit f32 55 100) (lit f32 7 10) (lit f32 2 10) (lit f32 3 10).
Definition high : SystemState := system (lit f32 8 10) (lit f32 85 100) (lit f32 3 10) (lit f32 4 10).
Definition critical : SystemState := system (lit f32 95 100) (lit f32 97 100) (lit f32 5 10) (lit f32 6 10).
Definition improved : SystemState := system (lit f32 4 10) (lit f32 5 10) (lit f32 15 100) (lit f32 5 10).
Definition scenario_pairs : list (SystemState * SystemState) := [(idle, idle); (medium, idle); (high, improved); (critical, high); (high, medium)].
Definition build_tournament_scenarios (rounds : nat) : list (SystemState * SystemState) :=
  (fun i => default (idle, idle) (scenario_pairs !! (i mod length scenario_pairs)%nat)) <$> seq 0 rounds.

Definition result_line (r : PolicyResult) : string :=
  "  " +:+ left 16 (pr_name r) +:+ " overall=" +:+ fixed 4 (pr_overall r) +:+ "  recs=" +:+ pretty (length (pr_recommendations r)).
Definition round_lines (r : PolicyRound) : list string :=
  ["── Round " +:+ pretty (round_index r + 1)%nat +:+ " ──"] ++ (result_line <$> rd_results r) ++
  match round_winner r with Some w => ["  Winner: " +:+ w] | None => [] end ++ [blank_line].
Definition by_second (x y : string * float) : comparison := fcmp y.2 x.2.
Definition print_tournament_result (t : TournamentResult) : list string :=
  let s := tr_summary t in
  (rounds t ≫= round_lines) ++ ["── Leaderboard ──"] ++
  PolicyView.numbered_lines (fun i x => "  " +:+ pretty i +:+ ". " +:+ left 16 x.1 +:+ " avg=" +:+ fixed 4 x.2 +:+ "  wins="
    +:+ pretty (default 0%nat (Tournament.policy_wins s !! x.1))) (sort_by by_second (iter_averages (Tournament.average_scores s))) ++
  [blank_line; match Tournament.winner t with Some w => "★ Overall winner: " +:+ w | None => "★ No winner (empty tournament)." end; blank_line;
   "  Best score:  " +:+ fixed 4 (best_overall_score s); "  Worst score: " +:+ fixed 4 (worst_overall_score s)].

Definition tournament_command (rounds : nat) : list string :=
  let arena := fold_left (fun a p => add_policy p a) (builtin_policies show_f32) Arena_new in
  let t := (run_tournament iter_wins (build_tournament_scenarios rounds) arena).1 in
  ["=== Policy Tournament ==="; "Rounds: " +:+ pretty rounds; "Policies: LinuxBaseline, Pressure, Hotness, Hybrid"; blank_line] ++ print_tournament_result t.

Definition assessment (x : float) : string :=
  if fge x (lit f32 8 10) then "Excellent" else if fge x (lit f32 6 10) then "Good" else if fge x (lit f32 4 10) then "Fair"
  else if fge x (lit f32 2 10) then "Poor" else "Critical".
Definition print_stability (s : StreamStability.RecommendationStability) : list string :=
  ["  Recommendations/hour: " +:+ fixed 2 (StreamStability.recommendations_per_hour s); "  Temperature flips:    " +:+ pretty (StreamStability.temperature_flips s);
   "  Tier oscillations:    " +:+ pretty (StreamStability.tier_oscillations s); "  Confidence variance:  " +:+ fixed 4 (StreamStability.confidence_variance s);
   "  ─────────────────────────────"; "  Stability index:      " +:+ fixed 4 (StreamStability.stability_index s);
   "  Assessment:           " +:+ assessment (StreamStability.stability_index s)].

Definition stability_feed (i : nat) : Recommendation :=
  if (i mod 20 =? 0)%nat && (0 <? i)%nat
  then PromoteToDram (named "test_chunk") "periodic hot chunk" (lit f32 8 10) ["periodic"] else NoAction "system stable" (of_int f32 1) [].
Definition stability_tracker (window : nat) : StreamStability.StabilityTracker :=
  fold_left (fun t i => StreamStability.record (stability_feed i) (system zero_f32 (lit f32 4 10) (lit f32 15 100) (lit f32 3 10)) (Z.of_nat i * 60) t)
    (seq 0 window) (StreamStability.new window).
Definition stability_command (window : nat) : list string :=
  ["=== Recommendation Stability ==="; "Window size: " +:+ pretty window; "Entries: " +:+ pretty window; blank_line] ++
  print_stability (StreamStability.evaluate (stability_tracker window)).
End evaluator.

(** The scenarios of a tournament of [n] rounds: one for each, in turn, the
    lookup never out of range. *)
Lemma scenarios_cycle n : length (build_tournament_scenarios n) = n /\
  forall i, (i < n)%nat -> build_tournament_scenarios n !! i = scenario_pairs !! (i mod 5)%nat.
Proof.
  unfold build_tournament_scenarios. split; [by rewrite length_fmap, length_seq|]. intros i Hi. rewrite list_lookup_fmap, lookup_seq_lt by done.
  cbn [fmap option_fmap option_map Nat.add]. change (length scenario_pairs) with 5%nat.
  destruct (lookup_lt_is_Some_2 scenario_pairs (i mod 5)) as [x ->]; [|done]. change (length scenario_pairs) with 5%nat. by apply Nat.mod_upper_bound.
Qed.
End EvaluatorView.

(** ** Benchmarks *)

Module BenchView.
Section bench.
Context `{Blake3} (b : Build) (show_f32 : float -> string).
Context (iter : gmap string (list float) -> list (string * list float)) (iter_classes : list WorkloadClass -> list WorkloadClass).
(** [format_report_json] *)
Context (report_json : Report.BenchmarkReport -> string).

Definition runner (seed : Z) : Runner.BenchmarkRunner := Runner.with_policies (builtin_policies show_f32) (Runner.new seed).

Definition run_command (now : string) (secs seed : Z) : outcome GhostError (list string) :=
  let? r := Runner.run_all_builtin b iter now secs (runner seed) in Ok [Report.format_report_markdown r].

Definition run_line (r : Compare.PolicyComparisonRun) : string :=
  left 16 (Compare.run_policy_name r) +:+ " " +:+ left 12 (fixed 4 (Compare.overall r)) +:+ " " +:+ left 12 (pretty (Compare.recommendation_count r)) +:+ " "
    +:+ left 10 (pretty (Compare.active_recommendation_count r)).
Definition workload_command (name : string) (seed : Z) : outcome GhostError Done :=
  match find (fun d => bool_decide (wd_name d = name)) all_builtin_workloads with
  | Some d =>
      let? sc := Workload.generate b seed d in
      let c := Compare.run_workload_comparison sc (builtin_policies show_f32) ScoringWeights_default in
      let m := sn_metadata sc in
      Ok (shown
        (["=== Benchmark: " +:+ name +:+ " ==="; "Class: " +:+ class_display (wd_class d); "Description: " +:+ wd_description d;
          "Snapshots: " +:+ pretty (length (sn_snapshots sc)); "Peak DRAM pressure: " +:+ fixed 2 (peak_dram_pressure m);
          "Peak DRAM utilization: " +:+ fixed 1 (fmul f32 (peak_dram_utilization m) (of_int f32 100)) +:+ "%"; blank_line;
          left 16 "Policy" +:+ " " +:+ left 12 "Score" +:+ " " +:+ left 12 "Recs" +:+ " " +:+ left 10 "Active";
          "──────────────── ──────────── ──────────── ──────────"] ++ (run_line <$> Compare.runs c) ++
         [blank_line; "★ Winner: " +:+ Compare.cmp_winner c +:+ " (" +:+ fixed 4 (Compare.winner_score c) +:+ ")"]))
  | None =>
      Ok (mkDone [] (["Unknown workload: '" +:+ name +:+ "'"; "Available workloads:"] ++
        ((fun d => "  " +:+ wd_name d +:+ " — " +:+ wd_description d) <$> all_builtin_workloads)) 1)
  end.

Definition report_command (now : string) (secs : Z) (format : string) : outcome GhostError (list string) :=
  let? r := Runner.run_all_builtin b iter now secs (runner 42) in
  Ok [if decide (format = "json") then report_json r else Report.format_report_markdown r].

Definition experiment_named (name : string) : option Experiment.PolicyExperiment :=
  if decide (name = "pressure_weight") then Some Experiment.pressure_weight_experiment
  else if decide (name = "hybrid_weight") then Some Experiment.hybrid_weight_experiment
  else if decide (name = "temperature_threshold") then Some Experiment.temperature_threshold_experiment else None.
Definition experiment_lines (r : Experiment.PolicyExperiment) : list string :=
  ["=== Experiment: " +:+ Experiment.pe_name r +:+ " ==="; "Description: " +:+ Experiment.pe_description r; "Parameter: " +:+ Experiment.parameter_name r;
   "Baseline value: " +:+ show_f32 (Experiment.baseline_value r); "Best value: " +:+ show_f32 (Experiment.best_value r);
   "Best score: " +:+ fixed 4 (Experiment.best_score r);
   "Improvement: " +:+ fixed 1 (fmul f32 (Experiment.improvement r) (of_int f32 100)) +:+ "%"; blank_line;
   left 12 "Value" +:+ " " +:+ left 12 "Avg Score" +:+ " " +:+ left 12 "Win Rate" +:+ " " +:+ left 12 "Stability";
   "──────────── ──────────── ──────────── ────────────"] ++
  ((fun x => left 12 (fixed 2 (Experiment.parameter_value x)) +:+ " " +:+ left 12 (fixed 4 (Experiment.er_average_score x)) +:+ " "
     +:+ left 12 (fixed 1 (fmul f32 (Experiment.win_rate x) (of_int f32 100))) +:+ " " +:+ left 12 (fixed 4 (Experiment.er_stability_index x)))
   <$> Experiment.pe_results r).
Definition experiment_command (name : string) : outcome GhostError Done :=
  match experiment_named name with
  | None => Ok (mkDone [] ["Unknown experiment: '" +:+ name +:+ "'"; "Available: pressure_weight, hybrid_weight, temperature_threshold"] 1)
  | Some e =>
      let? scs := Runner.each (fun d => Workload.generate b (wd_seed d) d) all_builtin_workloads in
      Ok (shown (experiment_lines (Experiment.run_experiment e scs (mkPolicy "Pressure" pressure_evaluate))))
  end.

(** The rank shown is the place among all classes. *)
Definition leaderboard_command (now start : string) (secs : Z) (clock : nat -> string) : outcome GhostError (list string) :=
  let? r := Runner.run_all_builtin b iter now secs (runner 42) in
  let? l := Board.from_report b iter_classes start clock r 1 in
  Ok (["=== Policy Leaderboard ==="; "Version: " +:+ pretty (Board.version l); "Last updated: " +:+ Board.last_updated l; blank_line;
       left 6 "Rank" +:+ " " +:+ left 16 "Policy" +:+ " " +:+ left 12 "Score" +:+ " " +:+ left 12 "Stability";
       "────── ──────────────── ──────────── ────────────"] ++
      PolicyView.numbered_lines (fun i e => left 6 (pretty i) +:+ " " +:+ left 16 (Board.le_policy_name e) +:+ " " +:+ left 12 (fixed 4 (Board.le_score e)) +:+ " "
        +:+ left 12 (fixed 4 (Board.le_stability_index e))) (Board.top_policies 10 l)).

(** The benchmark commands never stop with an error: a run prints the text of a
    report of the seven workloads, a workload or an experiment that does not
    exist exits with status 1, and one that does with 0. *)
Lemma each_generated seeds : Runner.each (fun d => Workload.generate b (seeds d) d) all_builtin_workloads = Ok ((fun d => scenario_of (seeds d) d) <$> all_builtin_workloads).
Proof.
  apply Runner.each_ok. eapply Forall_impl; [exact Runner.builtin_fit|]. intros d Hd. by apply generate_fits.
Qed.

Theorem bench_commands_answer now secs seed name :
  (exists r, run_command now secs seed = Ok [Report.format_report_markdown r] /\ length (Report.workload_results r) = 7%nat) /\
  (exists d, workload_command name seed = Ok d /\ (done_code d = 0 <-> name ∈ wd_name <$> all_builtin_workloads)) /\
  (exists d, experiment_command name = Ok d /\
     (done_code d = 0 <-> name ∈ ["pressure_weight"; "hybrid_weight"; "temperature_threshold"])).
Proof.
  split_and!.
  - unfold run_command. rewrite Runner.run_all_builtin_value. cbn [obind]. eexists. split; [reflexivity|]. reflexivity.
  - unfold workload_command. destruct (find _ all_builtin_workloads) as [d|] eqn:E.
    + apply find_some in E as [Hin%list_elem_of_In Hn%bool_decide_eq_true]. subst name.
      assert (fits d) as Hd by (pose proof Runner.builtin_fit as Hf; rewrite Forall_forall in Hf; by apply Hf).
      rewrite generate_fits by done. cbn [obind]. eexists. split; [reflexivity|]. cbn [shown done_code]. split; [|done]. intros _. by apply list_elem_of_fmap_2.
    + eexists. split; [reflexivity|]. cbn [done_code]. split; [done|]. intros (d & -> & Hd%list_elem_of_In)%list_elem_of_fmap.
      pose proof (find_none _ _ E d Hd) as Hf. cbn in Hf. by apply bool_decide_eq_false in Hf.
  - unfold experiment_command, experiment_named. setoid_rewrite elem_of_cons. setoid_rewrite elem_of_cons. setoid_rewrite elem_of_cons. setoid_rewrite elem_of_nil.
    repeat case_decide; try (rewrite each_generated; cbn [obind]); eexists; (split; [reflexivity|]; cbn [shown done_code]; split; try done; tauto).
Qed.
End bench.
End BenchView.
